(* ===== verification/_CoqProject ===== *)
-Q . S2P
Prelude.v
Unicode.v
Crc32.v
Encoding.v
Keys.v
DB.v
GoStrings.v
Jwt.v
VerifierKey.v
ServerAPI.v
ServerProps.v
Badger.v
BadgerInv.v
BadgerProps.v
Datastor.v
Cluster.v
Iteration.v
Spread.v
Fleet.v
Replicated.v
ReplicatedProps.v
Distributed.v
DistributedProps.v
GaloisField.v
ErasureCoding.v
ErasureProps.v
Pipeline.v
Crew.v
Network.v
ReadNet.v
Storages.v
MetaProto.v
MetaProtoProps.v
Metastor.v
MetaMem.v
MetaBadger.v
MetaEtcd.v
ZClient.v
Upkeep.v
Linked.v
Processing.v
Blake2b.v
PipelineConfig.v
TokenGetter.v
Iyo.v
System.v
Construct.v
Daemon.v
DaemonProps.v
Flags.v
Version.v
Commands.v
Bootstrap.v
Bench.v
