(* ===== verification/Prelude.v ===== *)
(** * A verification library for 0-stor

    0-stor is a distributed object store.  A zstordb server keeps objects in
    namespaces of a key-value database; a client splits data into chunks,
    processes them, spreads every chunk over several servers (by replication or
    by erasure coding) and keeps the metadata that is needed to read the data
    back, check it and repair it.

    ** Parts of the program and of the library

    The source directories are those of the repository.  Calls go down this
    list from the last part to the first; where a part is used through an
    interface of the source, the library has a class for it, the client's
    theorems are proved against the class and the implementation is an
    instance.

    - [Prelude]: bytes, machine words ([uintN] as [Z] reduced modulo [2^N]),
      little-endian numbers, Go slices with nil, Go errors, the result type
      [outcome] (value, error or panic), the state and error monad [prog], the
      tactics and the hint database of the library.
    - [Crc32]: [hash/crc32] of the Go library, table-driven as the library has
      it, with the fact that a change of one byte always changes the checksum.
    - [Encoding]: [server/encoding] and [server/types.go].  [Encoding.Buffer]
      has the buffers that share memory with the encoder, [Encoding.Encoding]
      the packages of objects, namespaces and statistics.
    - [Keys]: [server/db/keys.go].
    - [DB]: the interface [db.DB] ([DB], with its documented laws [DBLaws]
      against an abstract map) and [server/db/memory] ([DB.Memory]).
    - [Unicode], [GoStrings]: characters, their cases, and the functions of Go's
      [strings] package that are used.
    - [Jwt]: [server/jwt] and [client/itsyouonline/permission.go]: tokens,
      scopes and the cache of verified tokens.  [VerifierKey]: the constructors
      of verifiers, down to the parsing of their keys.
    - [ServerAPI], [ServerProps]: [server/api], [server/api/grpc] and
      [server/stats]: the object and namespace services, the authentication and
      statistics middleware, the error types.  A handler is a [prog] over any
      [DB].
    - [Badger], [BadgerInv], [BadgerProps]: [server/db/badger], the database of
      a production server: its operations, its sequence cache, and of the
      vendored badger library the transactions, sequences and iteration
      ([Badger.Engine]), with the disk as parameter ([Disk]).
    - [Datastor]: [client/datastor/grpc/client.go], the client of one server,
      and [served], the connection that runs the handlers of [ServerAPI].
    - [Cluster]: [client/datastor/cluster.go] and [grpc/cluster.go]: listed and
      unlisted shards and the random iterator.
    - [Iteration]: the lazy iterator and the channel of an iterator, of the
      same file.
    - [Spread]: the shard interface of the chunk storages ([ShardOps],
      [ShardLaws]) and the goroutines that both parallel storages use to write
      the parts of a chunk, as a state machine with one event per step of one
      worker.
    - [Fleet]: the instance of the shard interface made of client, server and
      database, with servers that do not answer.
    - [Replicated], [ReplicatedProps]: [pipeline/storage/random.go] and
      [replicated.go].
    - [Distributed], [DistributedProps]: [pipeline/storage/distributed.go]; the
      encoder and decoder in [Distributed.ReedSolomon], the storage in
      [Distributed.Distributed].  [GaloisField], [ErasureCoding], [ErasureProps]:
      the vendored Reed-Solomon library, its tables, matrices and coders, as an
      instance of the erasure code ([ErasureCode]) that the storage uses.
    - [Pipeline]: [pipeline/single_object.go] and [pipeline/async_splitter.go]
      over the chunk storage interface ([ChunkStorage], [ChunkStorageLaws]).
    - [Crew], [Network], [ReadNet]: the goroutines, channels and error groups of
      [pipeline/async_splitter.go], one step of one goroutine at a time: for
      checks, repairs and deletes, for writes and for reads.
    - [Storages]: the three chunk storages over shards as instances of that
      interface; [ShardFresh] is what they need of the shards, and a fleet that
      is filled through its servers has it while sequence numbers are left.
    - [MetaProto], [MetaProtoProps]: [metastor/metatypes] and
      [metastor/encoding/proto]: metadata and its protobuf encoding, the
      generated code on the level of indices into the buffer ([MetaProto.Wire]).
    - [Metastor]: [client/metastor/client.go] over the interface [db.DB] of the
      metadata databases ([MetaDB]; [MetaDBLaws] is what it promises while
      nobody else writes and nothing fails, [MetaDBFaults] what is left of that
      when calls fail, [MetaDBCalls] what holds in any case).
    - [MetaMem]: [metastor/db/test], the database in memory with versioned
      entries, with the writes of other goroutines as an argument.
    - [MetaBadger]: [metastor/db/badger] over the transactions of the badger
      library, with the oracle that detects conflicts between them.
    - [MetaEtcd]: [metastor/db/etcd] over the transactional memory of the etcd
      client, with a network that may lose requests and answers.
    - [ZClient]: [client/client.go], over the interface of the pipelines
      ([DataPipeline], [DataPipelineLaws]) with both pipelines as instances, and
      the metadata client.
    - [Upkeep]: what checks, repairs and deletes of a pipeline touch.
    - [Linked]: [client/client_linked_data.go].
    - [Processing]: [client/processing], [pipeline/crypto] and
      [metastor/encoding/encode.go]: type registries, processor chains,
      encryption, compression and hashing.  [Blake2b]: the vendored package of
      the default hash function, and the hashers on top of it.
    - [PipelineConfig]: [pipeline/config.go], pipelines from a configuration.
    - [TokenGetter]: [client/datastor/jwt.go], tokens and their cache.
    - [Iyo]: [client/itsyouonline/itsyouonline.go] over the API client of the
      identity service ([Identity], [IdentityLaws]: members of organizations,
      and users that are invited and become members when they accept), and the
      namespace service of the daemon on top of it.
    - [System]: the storage and the pipeline of a configuration behind the
      interfaces of [Pipeline] and [ZClient], and the client's operations run
      one after the other over servers and a metadata database.
    - [Construct]: [client/config.go], the constructors of [client/client.go],
      and [daemon.go]: clients and daemons from a configuration.
    - [Daemon], [DaemonProps]: [daemon/api/grpc]: the data, file and metadata
      services, their streams over pipes and the conversions of messages, with
      the local file system as parameter.
    - [Flags], [Version]: [cmd/flag.go] and [cmd/version.go], the values of
      flags and versions with their texts.
    - [Commands]: [cmd/zstor/commands], the command line client, with the order
      in which cobra runs the hooks of a command.
    - [Bootstrap]: [server/api/grpc/server.go], the server with its
      interceptors, and [cmd/zstordb/commands/root.go], the server program.
    - [Bench]: [benchmark] and [cmd/zstorbench], the benchmark tool.

    ** What the theorems show

    - The whole: for every accepted configuration, over servers that fail and
      come back, the client is a map from keys to data under writes, reads,
      deletes, checks and repairs, whatever the schedulers decide
      ([configured_store_is_a_map]).

    - The server: what is created is read back under a fresh key; the status of
      an object predicts how reading it ends, and one changed byte is always
      noticed; listing is complete and exact; deletion removes one key; a
      request is served only with a valid token that grants what it needs, and
      refused requests change nothing; statistics are kept per namespace.
    - Encodings and keys: round trips, rejection of damaged packages, decoders
      that never panic, injective keys, isolation of namespaces whose labels
      have no colon (and the overlap of those that have one).
    - The databases: both refine a finite map on every branch, and their
      generated keys are never used twice; for badger this holds across restarts
      and crashes as long as the leases of its sequences can be stored, and
      objects of a server stay readable ([created_objects_are_durable]).  When a
      lease cannot be stored, objects are overwritten
      ([failed_renewal_overwrites]).
    - Permissions: the scopes that a client requests are accepted for exactly
      the methods they stand for.
    - Client and cluster: the life of an object through client, server and
      database; errors survive the wire; the iterators hand out every reachable
      shard once, also through a channel; shards are stable.
    - Chunk storages: a successful write of a replicated chunk is on
      [dataShardCount] different shards and is readable while one copy is; a
      distributed chunk is readable while [dataShardCount] parts are; the
      parallel write ends for every schedule and succeeds when enough shards
      work; the meaning of a check; repair restores the redundancy; deletion is
      complete.  The vendored Reed-Solomon code keeps what the distributed storage
      expects of it, for all numbers of shards that it accepts
      ([reedsolomon_is_erasure_code]).
    - The parallel pipeline: what is written is read back in order for every
      order of the goroutines, and what a read hands out has the recorded
      hashes.  Goroutine by goroutine, the calls never block, end after a linear
      number of steps and do what the sequential definitions do for some order
      ([parallel_write_network], [parallel_read_network],
      [parallel_upkeep_network]).  The default hash is BLAKE2b of RFC 7693
      ([hasher_is_blake2b]).

    - Metadata: encoding and decoding are inverse to each other and the decoder
      ends on every input; an update of each of the three metadata databases is
      atomic with respect to other writers, and the databases keep the promises
      that the client relies on while nobody else writes.
    - The client: it refines a map from keys to data, over any pipeline and
      metadata database that keep their promises; a repair is made once however
      often the metadata is updated in vain, and what it records; data is
      deleted before metadata, whatever fails in the stores and in the metadata
      database ([delete_order]); linked writes build doubly linked lists, and
      traversals enumerate them, end, and respect the epoch range.
    - Configuration: every accepted configuration gives a pipeline that meets
      the assumptions of the pipeline theorems and a storage that fits the
      cluster; the registries stay consistent; cached tokens are valid; a
      client has the configured parts and owns all that was opened for it
      ([configured_client_sound]), and the daemon's copies of the
      constructors make the same client.  A configuration that is refused late
      leaves connections open ([refused_configuration_leaks]).
    - The daemon: what is uploaded in any split into messages is stored and read
      back; setting a permission takes what is not part of it away and invites
      the user to the rest ([set_permission_exact]), though an invitation that
      was sent before stays open ([pending_invitation_survives]).  Interrupted
      uploads are stored as if they were complete, and failing stores and
      receivers leave a handler blocked.
    - The programs: flags and versions are read back from their texts; files
      that are uploaded can be downloaded; permissions are set as the daemon sets
      them; the interceptors of a server keep refused requests away from
      database, statistics and log; the server program serves what was asked
      for, with the latest certificate; a benchmark counts exactly the operations
      that it performed, and reports one result for every client or an error.

    ** Concurrency, bounds and fuel

    Goroutines are modelled by what they leave open.  The parallel write of the
    chunk storages is the machine of [Spread]: a schedule is a list of events,
    [run] rejects an event that is not enabled, and every run is shorter than a
    measure of the initial state, so each maximal schedule ends.  Elsewhere the
    order in which results arrive is an argument (a list or a permutation) and
    so is the number of tasks that are attempted after a first error; theorems
    quantify over all of them.  Locks are not modelled: an operation on a
    locked structure is one step.  [ReadFull] has as much fuel as bytes are
    wanted, since every round reads at least one; the loop of the composer has
    one unit per buffered chunk and one more, since every round but the first
    takes an entry of the buffer; [bytes_reader] has one per byte of input.  The
    loops of the metadata decoder have one round per byte and one more, two per
    byte for skipped groups; [decoder_ends] shows that this is enough.  The
    retries of an update and the steps of a traversal have a number of rounds as
    argument, since they need not end; the theorems say when they do.  The retry
    loops of the badger sequence cache have one round more than the store
    reports conflicts in a row, which [retry_loops_end] shows to be enough.  Time
    is an argument wherever the code asks for it.  A streaming handler of the
    daemon can wait for ever; its result says so ([Hangs]).

    ** Code that is not part of the repository

    The token parser jwt-go, the cache ccache, the counter ratecounter, the
    gRPC stubs and dialling are parameters; what is used of them is stated as laws of a class next to the parameter, and
    instances for the witnesses show that the laws can hold (an exclusive-or
    code, a map of cached tokens, a counter without decay, a list of stored
    chunks).  So are the SHA hash functions, the AEAD cipher, the compressors, the
    LRU cache, the identity service, the network to etcd, files and
    certificates.  Of the vendored libraries badger, etcd, cobra, simplelru,
    go-grpc-middleware, reedsolomon and blake2b the parts that the program's behaviour depends on are
    modelled from their sources.

    ** What is not modelled

    The generated protobuf code of the two gRPC services, examples, stubs and
    test suites, and the free space of a disk, which nothing asks for;
    connections, listeners, certificates, the parsing of YAML and of flags; value
    log, tables and garbage collection of badger, and the etcd servers behind
    their client; the assembly code that the erasure code and the hash function
    use on processors with vector instructions.  A commit of badger takes effect
    at once.  Log messages have no effect and are left out, but for the lines
    that the server's interceptor writes; buffers that a processor shares between
    calls are values, since every caller copies them. *)

From stdpp Require Export base gmap list strings.
From Stdlib Require Export ZArith Lia.
From Stdlib Require Import Strings.Byte.

(** ** Bytes

    A Go [byte] is a value of [Byte.byte]; a byte sequence is a list of them.
    Widths stay explicit: an [uintN] is a [Z] that is reduced modulo [2^N]
    wherever the source converts, shifts or adds. *)

Abbreviation byte := Byte.byte.
Abbreviation bytes := (list byte).

#[export] Instance byte_eq_dec : EqDecision byte := Byte.byte_eq_dec.

#[export] Instance byte_countable : Countable byte.
Proof.
  refine (inj_countable Byte.to_N Byte.of_N _).
  exact Byte.of_to_N.
Defined.

Open Scope Z_scope.

(** The numeric value of a byte and the conversion [byte(z)] of Go, which
    keeps the low eight bits. *)
Definition bz (b : byte) : Z := Z.of_N (Byte.to_N b).

Definition zb (z : Z) : byte :=
  match Byte.of_N (Z.to_N (z mod 256)) with
  | Some b => b
  | None => Byte.x00
  end.

Lemma bz_range (b : byte) : 0 <= bz b < 256.
Proof. unfold bz. pose proof (Byte.to_N_bounded b). lia. Qed.

Lemma bz_zb (z : Z) : bz (zb z) = z mod 256.
Proof.
  unfold bz, zb.
  pose proof (Z.mod_pos_bound z 256 eq_refl) as Hr.
  destruct (Byte.of_N (Z.to_N (z mod 256))) as [b|] eqn:E.
  - apply Byte.to_of_N in E. rewrite E. lia.
  - apply Byte.of_N_None_iff in E. lia.
Qed.

Lemma zb_bz (b : byte) : zb (bz b) = b.
Proof.
  unfold zb. rewrite Z.mod_small by apply bz_range.
  unfold bz. rewrite N2Z.id, Byte.of_to_N. done.
Qed.

#[export] Instance bz_inj : Inj (=) (=) bz.
Proof. intros a b H. rewrite <- (zb_bz a), H. apply zb_bz. Qed.

(** ** Little-endian words

    [le_put n z] is what [binary.LittleEndian.PutUint*] writes for an
    [8*n]-bit word: the low byte first.  [le_get] is its inverse. *)
Fixpoint le_put (n : nat) (z : Z) : bytes :=
  match n with
  | O => []
  | S n' => zb z :: le_put n' (Z.shiftr z 8)
  end.

Fixpoint le_get (l : bytes) : Z :=
  match l with
  | [] => 0
  | b :: l' => bz b + 256 * le_get l'
  end.

(** A bitwise or of parts that do not overlap. *)
Lemma lor_shiftl_add a x s : 0 <= s -> 0 <= a < 2 ^ s -> 0 <= x -> Z.lor a (Z.shiftl x s) = a + x * 2 ^ s.
Proof.
  intros Hs Ha Hx. rewrite <- Z.shiftl_mul_pow2 by done. symmetry. rewrite <- Z.add_lor_land.
  replace (Z.land a (Z.shiftl x s)) with 0; [lia|]. symmetry. apply Z.bits_inj'. intros i Hi.
  rewrite Z.land_spec, Z.bits_0. destruct (decide (i < s)).
  - rewrite Z.shiftl_spec_low by lia. apply andb_false_r.
  - rewrite <- (Z.mod_small a (2 ^ s)), Z.mod_pow2_bits_high by lia. done.
Qed.

Lemma length_le_put n z : length (le_put n z) = n.
Proof. revert z; induction n as [|n IH]; intros z; cbn; [done|by rewrite IH]. Qed.

Lemma le_get_put n z : 0 <= z < 256 ^ Z.of_nat n -> le_get (le_put n z) = z.
Proof.
  revert z; induction n as [|n IH]; intros z Hz; cbn [le_put le_get].
  - change (256 ^ Z.of_nat 0) with 1 in Hz. lia.
  - rewrite bz_zb, Z.shiftr_div_pow2 by lia. change (2 ^ 8) with 256.
    rewrite Nat2Z.inj_succ, Z.pow_succ_r in Hz by lia.
    rewrite IH by (split; [apply Z.div_pos; lia|apply Z.div_lt_upper_bound; lia]).
    pose proof (Z.div_mod z 256 ltac:(lia)). lia.
Qed.

Lemma le_get_range l : 0 <= le_get l < 256 ^ Z.of_nat (length l).
Proof.
  induction l as [|b l IH]; cbn [le_get length].
  - change (256 ^ Z.of_nat 0) with 1. lia.
  - rewrite Nat2Z.inj_succ, Z.pow_succ_r by lia. pose proof (bz_range b). lia.
Qed.

Lemma le_put_get l : le_put (length l) (le_get l) = l.
Proof.
  induction l as [|b l IH]; cbn [le_get length le_put]; [done|].
  pose proof (bz_range b) as Hb.
  rewrite Z.shiftr_div_pow2 by lia. change (2 ^ 8) with 256.
  rewrite (Z.mul_comm 256), Z.div_add, Z.div_small, Z.add_0_l, IH by lia.
  f_equal. apply (inj bz). rewrite bz_zb, Z.mod_add, Z.mod_small by lia. done.
Qed.

Lemma le_get_inj l1 l2 : length l1 = length l2 -> le_get l1 = le_get l2 -> l1 = l2.
Proof.
  intros Hl Hg. rewrite <- (le_put_get l1), <- (le_put_get l2), Hl, Hg. done.
Qed.

Lemma le_put_inj n x y :
  0 <= x < 256 ^ Z.of_nat n -> 0 <= y < 256 ^ Z.of_nat n ->
  le_put n x = le_put n y -> x = y.
Proof. intros Hx Hy H. rewrite <- (le_get_put n x), H by done. by apply le_get_put. Qed.

(** ** Go errors and outcomes

    A Go [error] is an interface value that the program compares by identity.
    [ErrVar pkg name text] is the package-level variable [pkg.name], created
    with the message [text]; [ErrNew msg]
    is a value made on the spot with [errors.New] or [fmt.Errorf], which is
    never identical to a package variable; [ErrStatus code desc] is an error
    made by [grpc.Errorf]; [ErrZStor code desc] is the struct value
    [rpctypes.ZStorError], which Go compares field by field. *)
Inductive error :=
  | ErrVar (pkg name text : string)
  | ErrNew (msg : string)
  | ErrStatus (code : Z) (desc : string)
  | ErrZStor (code : Z) (desc : string).

#[export] Instance error_eq_dec : EqDecision error.
Proof. solve_decision. Defined.

(** [err.Error()], which is also [grpc.ErrorDesc(err)]. *)
Definition error_text (e : error) : string :=
  match e with
  | ErrVar _ _ text => text
  | ErrNew msg => msg
  | ErrStatus _ desc => desc
  | ErrZStor _ desc => desc
  end.

(** A call that returns [(A, error)] either returns a value with a nil error,
    returns a non-nil error, or panics.  The few functions that return a value
    together with a non-nil error have the type [A * option error]. *)
Inductive outcome (A : Type) :=
  | Ok (a : A)
  | Err (e : error)
  | Panic (msg : string).
Arguments Ok {A} a.
Arguments Err {A} e.
Arguments Panic {A} msg.

#[export] Instance outcome_eq_dec `{EqDecision A} : EqDecision (outcome A).
Proof. solve_decision. Defined.

Definition obind {A B} (m : outcome A) (k : A -> outcome B) : outcome B :=
  match m with
  | Ok a => k a
  | Err e => Err e
  | Panic s => Panic s
  end.

Declare Scope go_scope.
Delimit Scope go_scope with go.
Notation "'let!' x ':=' m 'in' k" := (obind m (fun x => k))
  (at level 10, x pattern, m at level 100, k at level 200,
   format "'[v' 'let!'  x  ':='  m  'in' '//' k ']'") : go_scope.
Open Scope go_scope.

Lemma obind_Ok_inv {A B} (m : outcome A) (k : A -> outcome B) b :
  obind m k = Ok b -> exists a, m = Ok a /\ k a = Ok b.
Proof. destruct m; cbn; intros; naive_solver. Qed.

Lemma obind_assoc {A B C} (m : outcome A) (f : A -> outcome B) (g : B -> outcome C) :
  obind (obind m f) g = obind m (fun a => obind (f a) g).
Proof. by destruct m. Qed.

(** A predicate on outcomes that accepts results and errors, but no panic. *)
Definition no_panic {A} (m : outcome A) : Prop :=
  match m with Panic _ => False | _ => True end.

(** ** Slices whose nil-ness the source inspects

    [None] is the nil slice; [len] is zero on it, as in Go. *)
Abbreviation slice := (option bytes).

Definition slice_bytes (s : slice) : bytes := default [] s.
Definition slice_len (s : slice) : nat := length (slice_bytes s).

(** ** Machine integers *)
Definition u64 (z : Z) : Z := z mod 2 ^ 64.
Definition u32 (z : Z) : Z := z mod 2 ^ 32.

(** ** Go strings

    A Go string is a sequence of bytes.  Labels, scopes and shard identifiers
    are [string]s; [str_bytes] is the conversion [[]byte(s)]. *)
Fixpoint str_bytes (s : string) : bytes :=
  match s with
  | EmptyString => []
  | String a s' => Ascii.byte_of_ascii a :: str_bytes s'
  end.

Lemma str_bytes_app s t : str_bytes (s +:+ t) = str_bytes s ++ str_bytes t.
Proof.
  induction s as [|a s IH]; [done|].
  change (String a s +:+ t) with (String a (s +:+ t)). cbn. by rewrite IH.
Qed.

#[export] Instance str_bytes_inj : Inj (=) (=) str_bytes.
Proof.
  intros s; induction s as [|a s IH]; intros [|b t] H; cbn in H; try done.
  injection H as Hab Hst. f_equal; [|by apply IH].
  rewrite <- (Ascii.ascii_of_byte_of_ascii a), Hab. apply Ascii.ascii_of_byte_of_ascii.
Qed.

(** ** Byte-string prefixes ([bytes.HasPrefix]) *)
Fixpoint has_prefix (l p : bytes) : bool :=
  match p, l with
  | [], _ => true
  | _ :: _, [] => false
  | x :: p', y :: l' => bool_decide (x = y) && has_prefix l' p'
  end.

Lemma has_prefix_spec l p : has_prefix l p = true <-> p `prefix_of` l.
Proof.
  revert l; induction p as [|x p IH]; intros [|y l]; cbn.
  - split; [intros _; apply prefix_nil|done].
  - split; [intros _; apply prefix_nil|done].
  - split; [done|intros H; by apply prefix_nil_not in H].
  - rewrite andb_true_iff, bool_decide_eq_true, IH. split.
    + intros [-> H]. by apply prefix_cons.
    + intros H. split; [by apply prefix_cons_inv_1 in H|by apply prefix_cons_inv_2 in H].
Qed.

Lemma has_prefix_app p q : has_prefix (p ++ q) p = true.
Proof. apply has_prefix_spec. by exists q. Qed.

(** ** Automation *)
Create HintDb zstor discriminated.
#[export] Hint Resolve bz_range le_get_range length_le_put has_prefix_app : zstor.

(** Case analysis on every match and test the goal is stuck on. *)
Ltac split_matches :=
  repeat (case_match || case_bool_decide); simplify_eq/=; try done.

(** Undo a successful [let!]. *)
Ltac inv_ok :=
  repeat match goal with
  | H : obind _ _ = Ok _ |- _ => apply obind_Ok_inv in H as (? & ? & ?)
  | H : Ok _ = Ok _ |- _ => injection H as H; subst
  | H : Err _ = Ok _ |- _ => discriminate H
  | H : Panic _ = Ok _ |- _ => discriminate H
  end.

(** ** List facts shared by the components *)
Lemma take_app_exact {A} (l k : list A) n : n = length l -> take n (l ++ k) = l.
Proof. intros ->. apply take_app_length. Qed.

Lemma drop_app_exact {A} (l k : list A) n : n = length l -> drop n (l ++ k) = k.
Proof. intros ->. apply drop_app_length. Qed.

Lemma app_inj_length {A} (l1 l2 k1 k2 : list A) :
  length l1 = length l2 -> l1 ++ k1 = l2 ++ k2 -> l1 = l2 /\ k1 = k2.
Proof. intros Hl H. by apply app_inj_1 in H. Qed.

Lemma app_inj_length_r {A} (l1 l2 k1 k2 : list A) :
  length k1 = length k2 -> l1 ++ k1 = l2 ++ k2 -> l1 = l2 /\ k1 = k2.
Proof. intros Hl H. by apply app_inj_2 in H. Qed.

(** Changing one element of a list, up to permutation. *)
Lemma update_perm {A} (l : list A) i x :
  l !! i = Some x -> exists rest, l ≡ₚ x :: rest /\ forall y, <[i := y]> l ≡ₚ y :: rest.
Proof.
  intros Hi. exists (delete i l). split; [by apply delete_Permutation|]. intros y.
  rewrite insert_take_drop by by eapply lookup_lt_Some. rewrite delete_take_drop. by rewrite <- Permutation_middle.
Qed.

Lemma submseteq_keeps_NoDup {A} (l k : list A) : NoDup k -> l ⊆+ k -> NoDup l.
Proof.
  intros Hk Hs. apply submseteq_Permutation in Hs as [rest Hs]. rewrite Hs in Hk. by apply NoDup_app in Hk as [? _].
Qed.

(** ** Stateful calls

    A method that changes a state of type [St] and returns [(A, error)]. *)
Definition prog (St A : Type) := St -> outcome A * St.

Definition pret {St A} (a : A) : prog St A := fun s => (Ok a, s).
Definition pfail {St A} (e : error) : prog St A := fun s => (Err e, s).
Definition ppanic {St A} (msg : string) : prog St A := fun s => (Panic msg, s).
Definition plift {St A} (m : outcome A) : prog St A := fun s => (m, s).

Definition pbind {St A B} (m : prog St A) (k : A -> prog St B) : prog St B :=
  fun s => match m s with
           | (Ok a, s') => k a s'
           | (Err e, s') => (Err e, s')
           | (Panic msg, s') => (Panic msg, s')
           end.

(** Replace the error of a call. *)
Definition on_err {St A} (f : error -> error) (m : prog St A) : prog St A :=
  fun s => match m s with
           | (Err e, s') => (Err (f e), s')
           | r => r
           end.

(** A call that only reads the state. *)
Definition pread {St A} (f : St -> outcome A) : prog St A := fun s => (f s, s).

Notation "'do!' x ':=' m 'in' k" := (pbind m (fun x => k))
  (at level 10, x pattern, m at level 100, k at level 200,
   format "'[v' 'do!'  x  ':='  m  'in' '//' k ']'") : go_scope.

(** [s[n:]] on a byte slice. *)
Definition slice_from (l : bytes) (n : nat) : outcome bytes :=
  if (length l <? n)%nat then Panic "slice bounds out of range" else Ok (drop n l).

Lemma pbind_Ok {St A B} (m : prog St A) (k : A -> prog St B) s a s' :
  m s = (Ok a, s') -> pbind m k s = k a s'.
Proof. unfold pbind. by intros ->. Qed.

Lemma pbind_Ok_inv {St A B} (m : prog St A) (k : A -> prog St B) s b s' :
  pbind m k s = (Ok b, s') -> exists a s1, m s = (Ok a, s1) /\ k a s1 = (Ok b, s').
Proof. unfold pbind. destruct (m s) as [[a|e|p] s1]; intros H; try done. by exists a, s1. Qed.

Lemma slice_from_app (l k : bytes) : slice_from (l ++ k) (length l) = Ok k.
Proof.
  unfold slice_from. rewrite length_app. destruct (Nat.ltb_spec (length l + length k) (length l)); [lia|].
  by rewrite drop_app_length.
Qed.
#[export] Hint Resolve slice_from_app : zstor.

(** A call that leaves the part [f] of the state as it was, on every branch. *)
Definition keeps {St X A} (f : St -> X) (m : prog St A) : Prop := forall s, f (m s).2 = f s.

Lemma keeps_bind {St X A B} (f : St -> X) (m : prog St A) (k : A -> prog St B) :
  keeps f m -> (forall a, keeps f (k a)) -> keeps f (pbind m k).
Proof.
  intros Hm Hk s. unfold pbind. specialize (Hm s). destruct (m s) as [[a|e|p] s1]; cbn in *; try done.
  by rewrite Hk.
Qed.

Lemma keeps_on_err {St X A} (f : St -> X) g (m : prog St A) : keeps f m -> keeps f (on_err g m).
Proof. intros Hm s. unfold on_err. specialize (Hm s). by destruct (m s) as [[a|e|p] s1]. Qed.

Lemma keeps_pret {St X A} (f : St -> X) (a : A) : keeps f (pret a).
Proof. done. Qed.

Lemma keeps_pfail {St X A} (f : St -> X) e : keeps f (pfail e : prog St A).
Proof. done. Qed.

Lemma keeps_ppanic {St X A} (f : St -> X) p : keeps f (ppanic p : prog St A).
Proof. done. Qed.

Lemma keeps_plift {St X A} (f : St -> X) (m : outcome A) : keeps f (plift m).
Proof. done. Qed.

Lemma keeps_pread {St X A} (f : St -> X) (g : St -> outcome A) : keeps f (pread g).
Proof. done. Qed.

#[export] Hint Resolve keeps_bind keeps_on_err keeps_pret keeps_pfail keeps_ppanic keeps_plift keeps_pread : zstor.

(** A call that preserves a property of the state, on every branch. *)
Definition stays {St A} (P : St -> Prop) (m : prog St A) : Prop := forall s, P s -> P (m s).2.

Lemma stays_bind {St A B} (P : St -> Prop) (m : prog St A) (k : A -> prog St B) :
  stays P m -> (forall a, stays P (k a)) -> stays P (pbind m k).
Proof.
  intros Hm Hk s Hs. unfold pbind. specialize (Hm s Hs). destruct (m s) as [[a|e|p] s1]; cbn in *; [by apply Hk|done..].
Qed.

Lemma stays_pret {St A} (P : St -> Prop) (a : A) : stays P (pret a).
Proof. by intros s. Qed.

Lemma stays_pfail {St A} (P : St -> Prop) e : stays P (pfail e : prog St A).
Proof. by intros s. Qed.

Lemma stays_ppanic {St A} (P : St -> Prop) p : stays P (ppanic p : prog St A).
Proof. by intros s. Qed.

Lemma stays_plift {St A} (P : St -> Prop) (m : outcome A) : stays P (plift m).
Proof. by intros s. Qed.

#[export] Hint Resolve stays_bind stays_pret stays_pfail stays_ppanic stays_plift : zstor.
