(* ===== verification/Unicode.v ===== *)
(** * Characters of Go strings

    The encoding of characters ([unicode/utf8]), their cases ([unicode]) and the
    functions [ToLower] and [ToUpper] of [strings], of the standard library of
    Go 1.8, which the repository is built with.  Texts of ASCII characters are
    the common case ([ToLower_ascii], [ToUpper_ascii]); two characters outside of
    ASCII, though, have a letter of ASCII as their lower case ([kelvin_lower]), and two
    as their upper case. *)

From S2P Require Import Prelude.
Open Scope Z_scope.

(** ** [unicode/utf8] *)
Module Utf8.
Definition between (a b : nat) (c : Ascii.ascii) : bool := (a <=? Ascii.nat_of_ascii c)%nat && (Ascii.nat_of_ascii c <=? b)%nat.

Definition cont : Ascii.ascii -> bool := between 128 191.

(** The number of bytes of the first character of a text in UTF-8; a byte that
    starts none is one by itself. *)
Definition rune_width (s : list Ascii.ascii) : nat :=
  match s with
  | a :: b :: s' =>
      if between 194 223 a && cont b then 2
      else match s' with
           | c :: s'' =>
               if (bool_decide (Ascii.nat_of_ascii a = 224%nat) && between 160 191 b || between 225 236 a && cont b
                   || bool_decide (Ascii.nat_of_ascii a = 237%nat) && between 128 159 b || between 238 239 a && cont b) && cont c then 3
               else match s'' with
                    | d :: _ =>
                        if (bool_decide (Ascii.nat_of_ascii a = 240%nat) && between 144 191 b || between 241 243 a && cont b
                            || bool_decide (Ascii.nat_of_ascii a = 244%nat) && between 128 143 b) && cont c && cont d then 4
                        else 1
                    | [] => 1
                    end
           | [] => 1
           end
  | _ => 1
  end%nat.


Definition RuneError : Z := 65533.
Definition MaxRune : Z := 1114111.

Definition zc (a : Ascii.ascii) : Z := Z.of_nat (Ascii.nat_of_ascii a).
Definition chr (z : Z) : Ascii.ascii := Ascii.ascii_of_nat (Z.to_nat z).

(** The low six bits of the bytes behind the first. *)
Definition low6 (a : Ascii.ascii) : Z := Z.land (zc a) 63.

(** The first character and the number of its bytes. *)
Definition DecodeRune (s : list Ascii.ascii) : Z * nat :=
  let w := rune_width s in
  (match w, s with
   | 1%nat, a :: _ => if zc a <? 128 then zc a else RuneError
   | 2%nat, a :: b :: _ => Z.lor (Z.shiftl (Z.land (zc a) 31) 6) (low6 b)
   | 3%nat, a :: b :: c :: _ => Z.lor (Z.lor (Z.shiftl (Z.land (zc a) 15) 12) (Z.shiftl (low6 b) 6)) (low6 c)
   | _, a :: b :: c :: d :: _ =>
       Z.lor (Z.lor (Z.lor (Z.shiftl (Z.land (zc a) 7) 18) (Z.shiftl (low6 b) 12)) (Z.shiftl (low6 c) 6)) (low6 d)
   | _, _ => RuneError
   end, w).

(** The characters that a range over a string visits, each with its bytes.
    Every round takes a byte at least. *)
Fixpoint runes (fuel : nat) (s : list Ascii.ascii) : list (Z * list Ascii.ascii) :=
  match fuel, s with
  | S fuel', _ :: _ => let '(r, w) := DecodeRune s in (r, take w s) :: runes fuel' (drop w s)
  | _, _ => []
  end.

(** What is not a character is written as [RuneError]. *)
Definition EncodeRune (r : Z) : list Ascii.ascii :=
  let r := if (r <? 0) || (MaxRune <? r) || ((55296 <=? r) && (r <=? 57343)) then RuneError else r in
  let tail k := chr (Z.lor 128 (Z.land (Z.shiftr r k) 63)) in
  if r <? 128 then [chr r]
  else if r <? 2048 then [chr (Z.lor 192 (Z.shiftr r 6)); tail 0]
  else if r <? 65536 then [chr (Z.lor 224 (Z.shiftr r 12)); tail 6; tail 0]
  else [chr (Z.lor 240 (Z.shiftr r 18)); tail 12; tail 6; tail 0].
End Utf8.
Import Utf8.

(** ** Cases ([unicode]) *)

(** From the first to the second, in steps of the third, with the distance to
    the other case: Unicode 9, without ASCII. *)
Definition CaseRanges := list (Z * Z * Z * Z).

Definition LowerCase : CaseRanges :=
  [(192, 214, 1, 32); (216, 222, 1, 32); (256, 302, 2, 1); (304, 304, 1, -199); (306, 310, 2, 1); (313, 327, 2, 1); (330, 374, 2, 1);
   (376, 376, 1, -121); (377, 381, 2, 1); (385, 385, 1, 210); (386, 388, 2, 1); (390, 390, 1, 206); (391, 391, 1, 1); (393, 394, 1, 205);
   (395, 395, 1, 1); (398, 398, 1, 79); (399, 399, 1, 202); (400, 400, 1, 203); (401, 401, 1, 1); (403, 403, 1, 205); (404, 404, 1, 207);
   (406, 406, 1, 211); (407, 407, 1, 209); (408, 408, 1, 1); (412, 412, 1, 211); (413, 413, 1, 213); (415, 415, 1, 214); (416, 420, 2, 1);
   (422, 422, 1, 218); (423, 423, 1, 1); (425, 425, 1, 218); (428, 428, 1, 1); (430, 430, 1, 218); (431, 431, 1, 1); (433, 434, 1, 217);
   (435, 437, 2, 1); (439, 439, 1, 219); (440, 440, 1, 1); (444, 444, 1, 1); (452, 452, 1, 2); (453, 453, 1, 1); (455, 455, 1, 2); (456, 456, 1, 1);
   (458, 458, 1, 2); (459, 475, 2, 1); (478, 494, 2, 1); (497, 497, 1, 2); (498, 500, 2, 1); (502, 502, 1, -97); (503, 503, 1, -56);
   (504, 542, 2, 1); (544, 544, 1, -130); (546, 562, 2, 1); (570, 570, 1, 10795); (571, 571, 1, 1); (573, 573, 1, -163); (574, 574, 1, 10792);
   (577, 577, 1, 1); (579, 579, 1, -195); (580, 580, 1, 69); (581, 581, 1, 71); (582, 590, 2, 1); (880, 882, 2, 1); (886, 886, 1, 1);
   (895, 895, 1, 116); (902, 902, 1, 38); (904, 906, 1, 37); (908, 908, 1, 64); (910, 911, 1, 63); (913, 929, 1, 32); (931, 939, 1, 32);
   (975, 975, 1, 8); (984, 1006, 2, 1); (1012, 1012, 1, -60); (1015, 1015, 1, 1); (1017, 1017, 1, -7); (1018, 1018, 1, 1); (1021, 1023, 1, -130);
   (1024, 1039, 1, 80); (1040, 1071, 1, 32); (1120, 1152, 2, 1); (1162, 1214, 2, 1); (1216, 1216, 1, 15); (1217, 1229, 2, 1); (1232, 1326, 2, 1);
   (1329, 1366, 1, 48); (4256, 4293, 1, 7264); (4295, 4295, 1, 7264); (4301, 4301, 1, 7264); (5024, 5103, 1, 38864); (5104, 5109, 1, 8);
   (7680, 7828, 2, 1); (7838, 7838, 1, -7615); (7840, 7934, 2, 1); (7944, 7951, 1, -8); (7960, 7965, 1, -8); (7976, 7983, 1, -8);
   (7992, 7999, 1, -8); (8008, 8013, 1, -8); (8025, 8031, 2, -8); (8040, 8047, 1, -8); (8072, 8079, 1, -8); (8088, 8095, 1, -8); (8104, 8111, 1, -8);
   (8120, 8121, 1, -8); (8122, 8123, 1, -74); (8124, 8124, 1, -9); (8136, 8139, 1, -86); (8140, 8140, 1, -9); (8152, 8153, 1, -8);
   (8154, 8155, 1, -100); (8168, 8169, 1, -8); (8170, 8171, 1, -112); (8172, 8172, 1, -7); (8184, 8185, 1, -128); (8186, 8187, 1, -126);
   (8188, 8188, 1, -9); (8486, 8486, 1, -7517); (8490, 8490, 1, -8383); (8491, 8491, 1, -8262); (8498, 8498, 1, 28); (8544, 8559, 1, 16);
   (8579, 8579, 1, 1); (9398, 9423, 1, 26); (11264, 11310, 1, 48); (11360, 11360, 1, 1); (11362, 11362, 1, -10743); (11363, 11363, 1, -3814);
   (11364, 11364, 1, -10727); (11367, 11371, 2, 1); (11373, 11373, 1, -10780); (11374, 11374, 1, -10749); (11375, 11375, 1, -10783);
   (11376, 11376, 1, -10782); (11378, 11378, 1, 1); (11381, 11381, 1, 1); (11390, 11391, 1, -10815); (11392, 11490, 2, 1); (11499, 11501, 2, 1);
   (11506, 11506, 1, 1); (42560, 42604, 2, 1); (42624, 42650, 2, 1); (42786, 42798, 2, 1); (42802, 42862, 2, 1); (42873, 42875, 2, 1);
   (42877, 42877, 1, -35332); (42878, 42886, 2, 1); (42891, 42891, 1, 1); (42893, 42893, 1, -42280); (42896, 42898, 2, 1); (42902, 42920, 2, 1);
   (42922, 42922, 1, -42308); (42923, 42923, 1, -42319); (42924, 42924, 1, -42315); (42925, 42925, 1, -42305); (42926, 42926, 1, -42308);
   (42928, 42928, 1, -42258); (42929, 42929, 1, -42282); (42930, 42930, 1, -42261); (42931, 42931, 1, 928); (42932, 42934, 2, 1);
   (65313, 65338, 1, 32); (66560, 66599, 1, 40); (66736, 66771, 1, 40); (68736, 68786, 1, 64); (71840, 71871, 1, 32); (125184, 125217, 1, 34)].

Definition UpperCase : CaseRanges :=
  [(181, 181, 1, 743); (224, 246, 1, -32); (248, 254, 1, -32); (255, 255, 1, 121); (257, 303, 2, -1); (305, 305, 1, -232); (307, 311, 2, -1);
   (314, 328, 2, -1); (331, 375, 2, -1); (378, 382, 2, -1); (383, 383, 1, -300); (384, 384, 1, 195); (387, 389, 2, -1); (392, 392, 1, -1);
   (396, 396, 1, -1); (402, 402, 1, -1); (405, 405, 1, 97); (409, 409, 1, -1); (410, 410, 1, 163); (414, 414, 1, 130); (417, 421, 2, -1);
   (424, 424, 1, -1); (429, 429, 1, -1); (432, 432, 1, -1); (436, 438, 2, -1); (441, 441, 1, -1); (445, 445, 1, -1); (447, 447, 1, 56);
   (453, 453, 1, -1); (454, 454, 1, -2); (456, 456, 1, -1); (457, 457, 1, -2); (459, 459, 1, -1); (460, 460, 1, -2); (462, 476, 2, -1);
   (477, 477, 1, -79); (479, 495, 2, -1); (498, 498, 1, -1); (499, 499, 1, -2); (501, 501, 1, -1); (505, 543, 2, -1); (547, 563, 2, -1);
   (572, 572, 1, -1); (575, 576, 1, 10815); (578, 578, 1, -1); (583, 591, 2, -1); (592, 592, 1, 10783); (593, 593, 1, 10780); (594, 594, 1, 10782);
   (595, 595, 1, -210); (596, 596, 1, -206); (598, 599, 1, -205); (601, 601, 1, -202); (603, 603, 1, -203); (604, 604, 1, 42319);
   (608, 608, 1, -205); (609, 609, 1, 42315); (611, 611, 1, -207); (613, 613, 1, 42280); (614, 614, 1, 42308); (616, 616, 1, -209);
   (617, 617, 1, -211); (618, 618, 1, 42308); (619, 619, 1, 10743); (620, 620, 1, 42305); (623, 623, 1, -211); (625, 625, 1, 10749);
   (626, 626, 1, -213); (629, 629, 1, -214); (637, 637, 1, 10727); (640, 640, 1, -218); (643, 643, 1, -218); (647, 647, 1, 42282);
   (648, 648, 1, -218); (649, 649, 1, -69); (650, 651, 1, -217); (652, 652, 1, -71); (658, 658, 1, -219); (669, 669, 1, 42261); (670, 670, 1, 42258);
   (837, 837, 1, 84); (881, 883, 2, -1); (887, 887, 1, -1); (891, 893, 1, 130); (940, 940, 1, -38); (941, 943, 1, -37); (945, 961, 1, -32);
   (962, 962, 1, -31); (963, 971, 1, -32); (972, 972, 1, -64); (973, 974, 1, -63); (976, 976, 1, -62); (977, 977, 1, -57); (981, 981, 1, -47);
   (982, 982, 1, -54); (983, 983, 1, -8); (985, 1007, 2, -1); (1008, 1008, 1, -86); (1009, 1009, 1, -80); (1010, 1010, 1, 7); (1011, 1011, 1, -116);
   (1013, 1013, 1, -96); (1016, 1016, 1, -1); (1019, 1019, 1, -1); (1072, 1103, 1, -32); (1104, 1119, 1, -80); (1121, 1153, 2, -1);
   (1163, 1215, 2, -1); (1218, 1230, 2, -1); (1231, 1231, 1, -15); (1233, 1327, 2, -1); (1377, 1414, 1, -48); (5112, 5117, 1, -8);
   (7296, 7296, 1, -6254); (7297, 7297, 1, -6253); (7298, 7298, 1, -6244); (7299, 7300, 1, -6242); (7301, 7301, 1, -6243); (7302, 7302, 1, -6236);
   (7303, 7303, 1, -6181); (7304, 7304, 1, 35266); (7545, 7545, 1, 35332); (7549, 7549, 1, 3814); (7681, 7829, 2, -1); (7835, 7835, 1, -59);
   (7841, 7935, 2, -1); (7936, 7943, 1, 8); (7952, 7957, 1, 8); (7968, 7975, 1, 8); (7984, 7991, 1, 8); (8000, 8005, 1, 8); (8017, 8023, 2, 8);
   (8032, 8039, 1, 8); (8048, 8049, 1, 74); (8050, 8053, 1, 86); (8054, 8055, 1, 100); (8056, 8057, 1, 128); (8058, 8059, 1, 112);
   (8060, 8061, 1, 126); (8064, 8071, 1, 8); (8080, 8087, 1, 8); (8096, 8103, 1, 8); (8112, 8113, 1, 8); (8115, 8115, 1, 9); (8126, 8126, 1, -7205);
   (8131, 8131, 1, 9); (8144, 8145, 1, 8); (8160, 8161, 1, 8); (8165, 8165, 1, 7); (8179, 8179, 1, 9); (8526, 8526, 1, -28); (8560, 8575, 1, -16);
   (8580, 8580, 1, -1); (9424, 9449, 1, -26); (11312, 11358, 1, -48); (11361, 11361, 1, -1); (11365, 11365, 1, -10795); (11366, 11366, 1, -10792);
   (11368, 11372, 2, -1); (11379, 11379, 1, -1); (11382, 11382, 1, -1); (11393, 11491, 2, -1); (11500, 11502, 2, -1); (11507, 11507, 1, -1);
   (11520, 11557, 1, -7264); (11559, 11559, 1, -7264); (11565, 11565, 1, -7264); (42561, 42605, 2, -1); (42625, 42651, 2, -1); (42787, 42799, 2, -1);
   (42803, 42863, 2, -1); (42874, 42876, 2, -1); (42879, 42887, 2, -1); (42892, 42892, 1, -1); (42897, 42899, 2, -1); (42903, 42921, 2, -1);
   (42933, 42935, 2, -1); (43859, 43859, 1, -928); (43888, 43967, 1, -38864); (65345, 65370, 1, -32); (66600, 66639, 1, -40); (66776, 66811, 1, -40);
   (68800, 68850, 1, -64); (71872, 71903, 1, -32); (125218, 125251, 1, -34)].

Definition to (ranges : CaseRanges) (r : Z) : Z :=
  match List.find (fun '(lo, hi, step, _) => (lo <=? r) && (r <=? hi) && ((r - lo) mod step =? 0)) ranges with
  | Some (_, _, _, d) => r + d
  | None => r
  end.

Definition rune_ToLower (r : Z) : Z :=
  if r <? 128 then (if (65 <=? r) && (r <=? 90) then r + 32 else r) else to LowerCase r.

Definition rune_ToUpper (r : Z) : Z :=
  if r <? 128 then (if (97 <=? r) && (r <=? 122) then r - 32 else r) else to UpperCase r.

(** ** [strings] *)

(** [strings.Map] of a function without negative values: the bytes before the
    first character that changes stay as they are, the others are encoded anew. *)
Fixpoint map_runes (mapping : Z -> Z) (rs : list (Z * list Ascii.ascii)) : list Ascii.ascii :=
  match rs with
  | [] => []
  | (c, b) :: rest =>
      if mapping c =? c then b ++ map_runes mapping rest
      else EncodeRune (mapping c) ++ concat ((fun x => EncodeRune (mapping x.1)) <$> rest)
  end.

Definition Map (mapping : Z -> Z) (s : string) : string :=
  let l := String.list_ascii_of_string s in
  String.string_of_list_ascii (map_runes mapping (runes (length l) l)).

Definition ToLower : string -> string := Map rune_ToLower.
Definition ToUpper : string -> string := Map rune_ToUpper.

(** ** Texts of ASCII characters *)
Definition is_ascii (s : string) : bool := forallb (fun a => Ascii.nat_of_ascii a <? 128)%nat (String.list_ascii_of_string s).

Definition lower_ascii (a : Ascii.ascii) : Ascii.ascii := chr (rune_ToLower (zc a)).
Definition upper_ascii (a : Ascii.ascii) : Ascii.ascii := chr (rune_ToUpper (zc a)).

Lemma rune_width_ascii a s : (Ascii.nat_of_ascii a < 128)%nat -> rune_width (a :: s) = 1%nat.
Proof.
  intros Ha. unfold rune_width, between. destruct s as [|b [|c [|d s]]]; [done|..];
    repeat match goal with
    | |- context [(?n <=? Ascii.nat_of_ascii a)%nat] => destruct (Nat.leb_spec n (Ascii.nat_of_ascii a)); [lia|]
    | |- context [bool_decide (Ascii.nat_of_ascii a = ?n)] => rewrite (bool_decide_eq_false_2 (Ascii.nat_of_ascii a = n)) by lia
    end; done.
Qed.

Lemma chr_zc a : chr (zc a) = a.
Proof. unfold chr, zc. rewrite Nat2Z.id. apply Ascii.ascii_nat_embedding. Qed.

Lemma runes_ascii l : forallb (fun a => Ascii.nat_of_ascii a <? 128)%nat l = true ->
  runes (length l) l = (fun a => (zc a, [a])) <$> l.
Proof.
  induction l as [|a l IH]; [done|]. cbn [forallb]. intros [Ha Hl]%andb_true_iff. apply Nat.ltb_lt in Ha.
  cbn [length runes]. unfold DecodeRune. rewrite rune_width_ascii by done.
  destruct (Z.ltb_spec (zc a) 128) as [_|Hx]; [|unfold zc in Hx; lia]. cbn. by rewrite take_0, drop_0, IH.
Qed.

Lemma EncodeRune_ascii r : 0 <= r < 128 -> EncodeRune r = [chr r].
Proof.
  intros Hr. unfold EncodeRune, MaxRune. destruct (Z.ltb_spec r 0); [lia|]. destruct (Z.ltb_spec 1114111 r); [lia|].
  destruct (Z.leb_spec 55296 r); [lia|]. cbn [orb andb]. destruct (Z.ltb_spec r 128); [done|lia].
Qed.

Lemma map_runes_ascii mapping l : (forall r, 0 <= r < 128 -> 0 <= mapping r < 128) ->
  forallb (fun a => Ascii.nat_of_ascii a <? 128)%nat l = true ->
  map_runes mapping ((fun a => (zc a, [a])) <$> l) = (fun a => chr (mapping (zc a))) <$> l.
Proof.
  intros Hm. induction l as [|a l IH]; [done|]. cbn [forallb]. intros [Ha Hl]%andb_true_iff. apply Nat.ltb_lt in Ha.
  assert (Hz : forall b, (Ascii.nat_of_ascii b < 128)%nat -> EncodeRune (mapping (zc b)) = [chr (mapping (zc b))])
    by (intros b Hb; apply EncodeRune_ascii, Hm; unfold zc; lia).
  cbn [fmap list_fmap map_runes]. destruct (Z.eqb_spec (mapping (zc a)) (zc a)) as [E|_].
  - rewrite IH, E, chr_zc by done. done.
  - rewrite Hz by done. cbn [app]. f_equal. clear IH. induction l as [|b l IHl]; [done|]. cbn [forallb] in Hl.
    apply andb_true_iff in Hl as [Hb Hl]. apply Nat.ltb_lt in Hb. cbn [fmap list_fmap concat fst]. rewrite Hz by done. cbn [app]. by rewrite IHl.
Qed.

Lemma rune_ToLower_range r : 0 <= r < 128 -> 0 <= rune_ToLower r < 128.
Proof. intros Hr. unfold rune_ToLower. destruct (Z.ltb_spec r 128); [|lia]. destruct (Z.leb_spec 65 r), (Z.leb_spec r 90); cbn; lia. Qed.

Lemma rune_ToUpper_range r : 0 <= r < 128 -> 0 <= rune_ToUpper r < 128.
Proof. intros Hr. unfold rune_ToUpper. destruct (Z.ltb_spec r 128); [|lia]. destruct (Z.leb_spec 97 r), (Z.leb_spec r 122); cbn; lia. Qed.

(** Letter by letter. *)
Lemma ToLower_ascii s : is_ascii s = true -> ToLower s = String.string_of_list_ascii (lower_ascii <$> String.list_ascii_of_string s).
Proof.
  intros Hs. unfold ToLower, Map. rewrite runes_ascii by exact Hs. f_equal. apply map_runes_ascii; [apply rune_ToLower_range|exact Hs].
Qed.

Lemma ToUpper_ascii s : is_ascii s = true -> ToUpper s = String.string_of_list_ascii (upper_ascii <$> String.list_ascii_of_string s).
Proof.
  intros Hs. unfold ToUpper, Map. rewrite runes_ascii by exact Hs. f_equal. apply map_runes_ascii; [apply rune_ToUpper_range|exact Hs].
Qed.

Lemma lower_ascii_idemp a : lower_ascii (lower_ascii a) = lower_ascii a.
Proof. destruct a as [[] [] [] [] [] [] [] []]; vm_compute; reflexivity. Qed.

Lemma lower_ascii_is_ascii a : (Ascii.nat_of_ascii a < 128)%nat -> (Ascii.nat_of_ascii (lower_ascii a) < 128)%nat.
Proof. destruct a as [[] [] [] [] [] [] [] []]; vm_compute; lia. Qed.

Lemma is_ascii_lower s : is_ascii s = true -> is_ascii (ToLower s) = true.
Proof.
  intros Hs. rewrite ToLower_ascii by done. unfold is_ascii in *. rewrite String.list_ascii_of_string_of_list_ascii.
  induction (String.list_ascii_of_string s) as [|a l IH]; [done|]. cbn [forallb fmap list_fmap] in *.
  apply andb_true_iff in Hs as [Ha Hl]. apply andb_true_iff. split; [|by apply IH].
  apply Nat.ltb_lt, lower_ascii_is_ascii, Nat.ltb_lt, Ha.
Qed.

Lemma ToLower_idemp s : is_ascii s = true -> ToLower (ToLower s) = ToLower s.
Proof.
  intros Hs. rewrite (ToLower_ascii (ToLower s)) by (by apply is_ascii_lower). rewrite (ToLower_ascii s) by done.
  rewrite String.list_ascii_of_string_of_list_ascii, <- list_fmap_compose. f_equal. apply list_fmap_ext. intros i a _. apply lower_ascii_idemp.
Qed.

(** No character is mapped to nothing. *)
Lemma EncodeRune_nonempty r : EncodeRune r <> [].
Proof. unfold EncodeRune. by repeat case_match. Qed.

Lemma rune_width_pos s : exists w, rune_width s = S w.
Proof. unfold rune_width. repeat case_match; by eexists. Qed.

Lemma ToLower_empty s : ToLower s = EmptyString -> s = EmptyString.
Proof.
  destruct s as [|a s]; [done|]. unfold ToLower, Map. cbn [String.list_ascii_of_string length runes].
  destruct (DecodeRune _) as [r w] eqn:Hd. assert (Hw : exists w', w = S w').
  { apply (f_equal snd) in Hd. cbn [snd] in Hd. rewrite <- Hd. apply (rune_width_pos (a :: String.list_ascii_of_string s)). }
  destruct Hw as [w' ->]. cbn [firstn map_runes]. destruct (rune_ToLower r =? r); [done|].
  pose proof (EncodeRune_nonempty (rune_ToLower r)) as Hne. by destruct (EncodeRune _).
Qed.

(** The sign of the unit kelvin is written as a letter. *)
Lemma kelvin_lower : ToLower (String.string_of_list_ascii (EncodeRune 8490)) = "k"%string.
Proof. vm_compute. reflexivity. Qed.
