(* ===== verification/Crc32.v ===== *)
(** * CRC-32 as [hash/crc32] computes it

    [crc32.MakeTable] and [crc32.Checksum] of the Go standard library, which
    [server/encoding] uses with the polynomial [0xD5828281] and the sequence
    cache with the IEEE polynomial.  The polynomial is in reversed bit order.
    The main result is that a checksum tells apart any two byte strings that
    differ in exactly one byte, for every polynomial with bit 31 set. *)

From S2P Require Import Prelude.
Open Scope Z_scope.

(** One step of the inner loop of [simpleMakeTable]. *)
Definition crc_bit (poly crc : Z) : Z :=
  if Z.odd crc then Z.lxor (Z.shiftr crc 1) poly else Z.shiftr crc 1.

(** Entry [i] of the table: eight of those steps. *)
Definition crc_table (poly i : Z) : Z := Nat.iter 8 (crc_bit poly) i.

(** [crc = tab[byte(crc)^v] ^ (crc >> 8)] *)
Definition crc_update (poly crc : Z) (v : byte) : Z :=
  Z.lxor (crc_table poly (Z.land (Z.lxor crc (bz v)) 255)) (Z.shiftr crc 8).

(** Complement of an [uint32]. *)
Definition not32 (z : Z) : Z := Z.lxor z 0xFFFFFFFF.

Definition crc_checksum (poly : Z) (p : bytes) : Z :=
  not32 (foldl (crc_update poly) (not32 0) p).

(** [crc32.ChecksumIEEE] *)
Definition ChecksumIEEE (p : bytes) : Z := crc_checksum 0xEDB88320 p.

Definition crc_poly_ok (poly : Z) : Prop := 0 <= poly < 2 ^ 32 /\ Z.testbit poly 31 = true.

(** The check value of the IEEE polynomial ([crc32.IEEE]) for "123456789". *)
Example crc_ieee_check :
  crc_checksum 0xEDB88320 (str_bytes "123456789") = 0xCBF43926.
Proof. vm_compute. reflexivity. Qed.

Section Range.
Lemma lxor_range n a b : 0 <= n -> 0 <= a < 2 ^ n -> 0 <= b < 2 ^ n -> 0 <= Z.lxor a b < 2 ^ n.
Proof.
  intros Hn Ha Hb.
  assert (Hnn : 0 <= Z.lxor a b) by (apply Z.lxor_nonneg; lia).
  split; [done|].
  replace (Z.lxor a b) with (Z.lxor a b mod 2 ^ n); [by apply Z.mod_pos_bound; lia|].
  apply Z.bits_inj'. intros i Hi.
  destruct (Z.ltb_spec i n).
  - by rewrite Z.mod_pow2_bits_low by lia.
  - rewrite Z.mod_pow2_bits_high by lia. rewrite Z.lxor_spec.
    rewrite <- (Z.mod_small a (2 ^ n)), <- (Z.mod_small b (2 ^ n)) by lia.
    by rewrite !Z.mod_pow2_bits_high by lia.
Qed.

Lemma shiftr_range n a k : 0 <= k -> 0 <= a < 2 ^ n -> 0 <= Z.shiftr a k < 2 ^ n.
Proof.
  intros Hk Ha. rewrite Z.shiftr_div_pow2 by done.
  assert (0 < 2 ^ k) by (apply Z.pow_pos_nonneg; lia).
  split; [apply Z.div_pos; lia|].
  apply Z.le_lt_trans with a; [|lia]. apply Z.div_le_upper_bound; nia.
Qed.

Lemma not32_range z : 0 <= z < 2 ^ 32 -> 0 <= not32 z < 2 ^ 32.
Proof. intros. apply lxor_range; lia. Qed.

Lemma not32_inj a b : not32 a = not32 b -> a = b.
Proof.
  unfold not32. intros H. apply (f_equal (fun z => Z.lxor z 0xFFFFFFFF)) in H.
  rewrite !Z.lxor_assoc, Z.lxor_nilpotent, !Z.lxor_0_r in H. done.
Qed.
End Range.

Section Checksum.
Context (poly : Z) (Hpoly : crc_poly_ok poly).

Lemma crc_bit_range crc : 0 <= crc < 2 ^ 32 -> 0 <= crc_bit poly crc < 2 ^ 32.
Proof using Hpoly.
  destruct Hpoly as [Hp _]. intros H. unfold crc_bit.
  destruct (Z.odd crc); [apply lxor_range; try lia|]; by apply shiftr_range.
Qed.

(** The step is linear over exclusive or. *)
Lemma crc_bit_lxor a b :
  crc_bit poly (Z.lxor a b) = Z.lxor (crc_bit poly a) (crc_bit poly b).
Proof using.
  unfold crc_bit. rewrite <- !Z.bit0_odd, Z.lxor_spec, Z.shiftr_lxor.
  destruct (Z.testbit a 0), (Z.testbit b 0); cbn [xorb];
    apply Z.bits_inj'; intros i Hi; rewrite !Z.lxor_spec;
    destruct (Z.testbit (Z.shiftr a 1) i), (Z.testbit (Z.shiftr b 1) i), (Z.testbit poly i); done.
Qed.

(** The bit shifted out is visible as bit 31 of the result, so no two words
    have the same successor. *)
Lemma crc_bit_31 crc : 0 <= crc < 2 ^ 32 -> Z.testbit (crc_bit poly crc) 31 = Z.odd crc.
Proof using Hpoly.
  destruct Hpoly as [_ H31]. intros H. unfold crc_bit.
  assert (Hs : Z.testbit (Z.shiftr crc 1) 31 = false).
  { rewrite Z.shiftr_spec by lia. rewrite <- (Z.mod_small crc (2 ^ 32)) by lia.
    by rewrite Z.mod_pow2_bits_high by lia. }
  destruct (Z.odd crc); [|done]. by rewrite Z.lxor_spec, Hs, H31.
Qed.

Lemma crc_bit_inj a b :
  0 <= a < 2 ^ 32 -> 0 <= b < 2 ^ 32 -> crc_bit poly a = crc_bit poly b -> a = b.
Proof using Hpoly.
  intros Ha Hb H.
  assert (Hodd : Z.odd a = Z.odd b) by (rewrite <- !crc_bit_31, H by done; done).
  assert (Hs : Z.shiftr a 1 = Z.shiftr b 1).
  { unfold crc_bit in H. rewrite Hodd in H. destruct (Z.odd b); [|done].
    apply (f_equal (fun z => Z.lxor z poly)) in H.
    by rewrite !Z.lxor_assoc, Z.lxor_nilpotent, !Z.lxor_0_r in H. }
  apply Z.bits_inj'. intros i Hi. destruct (decide (i = 0)) as [->|].
  - by rewrite !Z.bit0_odd.
  - replace i with ((i - 1) + 1) by lia. by rewrite <- !Z.shiftr_spec, Hs by lia.
Qed.

Lemma crc_iter_range n crc :
  0 <= crc < 2 ^ 32 -> 0 <= Nat.iter n (crc_bit poly) crc < 2 ^ 32.
Proof using Hpoly. induction n; [done|]. rewrite Nat.iter_succ. intros. apply crc_bit_range; auto. Qed.

Lemma crc_iter_inj n a b :
  0 <= a < 2 ^ 32 -> 0 <= b < 2 ^ 32 ->
  Nat.iter n (crc_bit poly) a = Nat.iter n (crc_bit poly) b -> a = b.
Proof using Hpoly.
  intros Ha Hb. induction n; [done|]. rewrite !Nat.iter_succ. intros H.
  apply crc_bit_inj in H; [by apply IHn|by apply crc_iter_range..].
Qed.

Lemma crc_iter_lxor n a b :
  Nat.iter n (crc_bit poly) (Z.lxor a b) =
  Z.lxor (Nat.iter n (crc_bit poly) a) (Nat.iter n (crc_bit poly) b).
Proof using. induction n; [done|]. by rewrite !Nat.iter_succ, IHn, crc_bit_lxor. Qed.

(** Low zero bits are shifted out unchanged. *)
Lemma crc_iter_shiftl n h :
  0 <= h -> Nat.iter n (crc_bit poly) (Z.shiftl h (Z.of_nat n)) = h.
Proof using.
  intros Hh. induction n; [by rewrite Z.shiftl_0_r|].
  rewrite Nat.iter_succ_r, <- IHn. f_equal. rewrite IHn.
  unfold crc_bit. rewrite Nat2Z.inj_succ, <- Z.bit0_odd, Z.shiftl_spec_low by lia.
  rewrite Z.shiftr_shiftl_l by lia. f_equal; lia.
Qed.

(** The table-driven update is eight bit steps of the word with the new
    byte mixed into its low end. *)
Lemma crc_update_bits crc v :
  0 <= crc < 2 ^ 32 ->
  crc_update poly crc v = Nat.iter 8 (crc_bit poly) (Z.lxor crc (bz v)).
Proof using Hpoly.
  intros Hc. unfold crc_update, crc_table. set (x := Z.lxor crc (bz v)).
  assert (Hx : x = Z.lxor (Z.land x 255) (Z.shiftl (Z.shiftr x 8) 8)).
  { apply Z.bits_inj'. intros i Hi. rewrite Z.lxor_spec, Z.land_spec, Z.shiftl_spec by done.
    change 255 with (Z.ones 8). destruct (Z.ltb_spec i 8).
    - rewrite Z.ones_spec_low, andb_true_r, (Z.testbit_neg_r _ (i - 8)), xorb_false_r by lia. done.
    - rewrite Z.ones_spec_high, andb_false_r, Z.shiftr_spec by lia. cbn. f_equal. lia. }
  rewrite Hx at 2. rewrite crc_iter_lxor. f_equal.
  assert (Hv : Z.shiftr (bz v) 8 = 0).
  { rewrite Z.shiftr_div_pow2 by lia. apply Z.div_small. apply bz_range. }
  rewrite (crc_iter_shiftl 8) by (apply Z.shiftr_nonneg, Z.lxor_nonneg; pose proof (bz_range v); lia).
  unfold x. by rewrite Z.shiftr_lxor, Hv, Z.lxor_0_r.
Qed.

Lemma crc_mix_range crc v : 0 <= crc < 2 ^ 32 -> 0 <= Z.lxor crc (bz v) < 2 ^ 32.
Proof using. intros. pose proof (bz_range v). apply lxor_range; lia. Qed.

Lemma crc_update_range crc v : 0 <= crc < 2 ^ 32 -> 0 <= crc_update poly crc v < 2 ^ 32.
Proof using Hpoly.
  intros. rewrite crc_update_bits by done. by apply crc_iter_range, crc_mix_range.
Qed.

Lemma crc_update_inj_state a b v :
  0 <= a < 2 ^ 32 -> 0 <= b < 2 ^ 32 -> crc_update poly a v = crc_update poly b v -> a = b.
Proof using Hpoly.
  intros Ha Hb. rewrite !crc_update_bits by done. intros H.
  apply crc_iter_inj in H; auto using crc_mix_range.
  apply (f_equal (fun z => Z.lxor z (bz v))) in H.
  by rewrite !Z.lxor_assoc, Z.lxor_nilpotent, !Z.lxor_0_r in H.
Qed.

Lemma crc_update_inj_byte a v w :
  0 <= a < 2 ^ 32 -> crc_update poly a v = crc_update poly a w -> v = w.
Proof using Hpoly.
  intros Ha. rewrite !crc_update_bits by done. intros H.
  apply crc_iter_inj in H; auto using crc_mix_range.
  apply (f_equal (fun z => Z.lxor a z)) in H.
  rewrite <- !Z.lxor_assoc, Z.lxor_nilpotent, !Z.lxor_0_l in H. by apply (inj bz).
Qed.

Lemma crc_fold_range p a : 0 <= a < 2 ^ 32 -> 0 <= foldl (crc_update poly) a p < 2 ^ 32.
Proof using Hpoly. revert a; induction p; intros; cbn; auto using crc_update_range. Qed.

Lemma crc_fold_inj_state p a b :
  0 <= a < 2 ^ 32 -> 0 <= b < 2 ^ 32 ->
  foldl (crc_update poly) a p = foldl (crc_update poly) b p -> a = b.
Proof using Hpoly.
  revert a b; induction p as [|v p IH]; intros a b Ha Hb H; cbn in H; [done|].
  apply IH in H; auto using crc_update_range. by eapply crc_update_inj_state.
Qed.

Lemma crc_checksum_range p : 0 <= crc_checksum poly p < 2 ^ 32.
Proof using Hpoly. apply not32_range, crc_fold_range, not32_range. lia. Qed.

(** Changing one byte changes the checksum. *)
Lemma crc_checksum_one_byte l v w k :
  v <> w -> crc_checksum poly (l ++ v :: k) <> crc_checksum poly (l ++ w :: k).
Proof using Hpoly.
  intros Hvw H. apply Hvw. unfold crc_checksum in H. apply not32_inj in H.
  rewrite !foldl_app in H. cbn in H.
  assert (Hr : 0 <= foldl (crc_update poly) (not32 0) l < 2 ^ 32)
    by (apply crc_fold_range, not32_range; lia).
  apply crc_fold_inj_state in H; auto using crc_update_range.
  by eapply crc_update_inj_byte.
Qed.

Lemma crc_checksum_insert l i v w :
  l !! i = Some v -> v <> w -> crc_checksum poly (<[i:=w]> l) <> crc_checksum poly l.
Proof using Hpoly.
  intros Hi Hvw.
  rewrite <- (take_drop_middle l i v) at 2 by done.
  rewrite insert_take_drop by (by eapply lookup_lt_Some).
  by apply crc_checksum_one_byte.
Qed.
End Checksum.
