(* ===== verification/Encoding.v ===== *)
(** * Server-side encoding ([server/encoding], [server/types.go])

    [Buffer] models the zero-allocation buffers of [buffer.go]: a write buffer
    is a window into a backing array that the encoder keeps, so a write changes
    that array.  [Encoding] models [encoding.go]: objects, namespaces and store
    statistics as CRC-32 checked packages, and [ValidateData]. *)

From S2P Require Import Prelude Crc32.
Open Scope Z_scope.

(** ** Data of [server/types.go] *)
Record Object := { Data : bytes }.

Record Namespace := { Reserved : Z; Label : bytes }.

Record StoreStat := { SizeAvailable : Z; SizeUsed : Z }.

Inductive ObjectStatus := ObjectStatusMissing | ObjectStatusOK | ObjectStatusCorrupted.

#[export] Instance ObjectStatus_eq_dec : EqDecision ObjectStatus.
Proof. solve_decision. Defined.

Definition ObjectStatus_String (status : ObjectStatus) : string :=
  match status with
  | ObjectStatusOK => "ok"
  | ObjectStatusCorrupted => "corrupted"
  | ObjectStatusMissing => "missing"
  end.

Module Buffer.
(** [copy(arr[start:start+n], p)]: the built-in copies as many bytes as both
    sides have. *)
Definition copy_at (arr : bytes) (start n : nat) (p : bytes) : bytes :=
  let k := Nat.min n (length p) in
  take start arr ++ take k p ++ drop (start + k) arr.

(** The current [zab.buf] is the window of [wb_rest] bytes that starts at
    [wb_start] in the backing array. *)
Record zeroAllocWriteBuffer := {
  wb_start : nat;
  wb_rest : nat;
  wb_length : nat;
  wb_offset : nat;
}.

Definition newZeroAllocWriteBuffer (start len : nat) : outcome zeroAllocWriteBuffer :=
  if (len =? 0)%nat then Panic "no buffer given to write to"
  else Ok {| wb_start := start; wb_rest := len; wb_length := len; wb_offset := 0 |}.

(** [zeroAllocWriteBuffer.Write], with the backing array as state. *)
Definition Write (zab : zeroAllocWriteBuffer) (p : bytes) (arr : bytes)
  : outcome (zeroAllocWriteBuffer * bytes) :=
  let len := length p in
  if (len =? 0)%nat then Panic "nil slice given"
  else if (wb_length zab <? len + wb_offset zab)%nat then Panic "out of bounds"
  else Ok ({| wb_start := wb_start zab + len; wb_rest := wb_rest zab - len;
              wb_length := wb_length zab; wb_offset := wb_offset zab + len |},
           copy_at arr (wb_start zab) (wb_rest zab) p).

Record zeroAllocReadBuffer := { rb_buf : bytes; rb_length : nat }.

Definition newZeroAllocReadBuffer (buf : bytes) : outcome zeroAllocReadBuffer :=
  if (length buf =? 0)%nat then Panic "no buffer given to read from"
  else Ok {| rb_buf := buf; rb_length := length buf |}.

Definition EOF := ErrVar "io" "EOF" "EOF".
Definition ErrUnexpectedEOF := ErrVar "io" "ErrUnexpectedEOF" "unexpected EOF".

(** [zeroAllocReadBuffer.Read] into a slice of [want] bytes: the bytes
    read and the remaining buffer. *)
Definition Read (zab : zeroAllocReadBuffer) (want : nat)
  : outcome (bytes * zeroAllocReadBuffer) :=
  if (want =? 0)%nat then Panic "nil slice given"
  else if (rb_length zab =? 0)%nat then Err EOF
  else
    let len := if (rb_length zab <? want)%nat then rb_length zab else want in
    Ok (take len (rb_buf zab),
        {| rb_buf := drop len (rb_buf zab); rb_length := rb_length zab - len |}).

Definition Empty (zab : zeroAllocReadBuffer) : bool := (rb_length zab =? 0)%nat.

(** [binary.Write(buf, binary.LittleEndian, z)] for an [n]-byte unsigned
    integer: one call of [Write] with its encoding. *)
Definition binary_Write (zab : zeroAllocWriteBuffer) (n : nat) (z : Z) (arr : bytes)
  : outcome (zeroAllocWriteBuffer * bytes) := Write zab (le_put n z) arr.

(** [io.ReadFull]: read until [want] bytes are there or the reader fails.
    Every successful [Read] delivers at least one byte, so [want] rounds are
    enough. *)
Fixpoint ReadFull (fuel : nat) (zab : zeroAllocReadBuffer) (want : nat) (acc : bytes)
  : outcome (bytes * zeroAllocReadBuffer) :=
  match fuel with
  | O => Ok (acc, zab)
  | S fuel' =>
      if (want =? 0)%nat then Ok (acc, zab)
      else match Read zab want with
           | Ok (got, zab') => ReadFull fuel' zab' (want - length got) (acc ++ got)
           | Err e => Err (if bool_decide (acc <> []) then ErrUnexpectedEOF else e)
           | Panic s => Panic s
           end
  end.

(** [binary.Read(buf, binary.LittleEndian, &x)] for an [n]-byte unsigned
    integer. *)
Definition binary_Read (zab : zeroAllocReadBuffer) (n : nat)
  : outcome (Z * zeroAllocReadBuffer) :=
  let! (bs, zab') := ReadFull n zab n [] in Ok (le_get bs, zab').

(** *** Facts *)
Lemma copy_at_exact l m r p :
  length m = length p -> copy_at (l ++ m ++ r) (length l) (length m) p = l ++ p ++ r.
Proof.
  intros H. unfold copy_at. rewrite H, Nat.min_id.
  rewrite take_app_length, firstn_all.
  rewrite drop_app_add, <- H, drop_app_length. done.
Qed.

(** A write that fits puts its bytes into the array and moves the window on. *)
Lemma binary_Write_ok zab n z l m r r' :
  n <> 0%nat -> length m = n -> wb_start zab = length l ->
  wb_rest zab = (length m + length r)%nat ->
  (wb_length zab = wb_offset zab + wb_rest zab)%nat ->
  binary_Write zab n z (l ++ m ++ r ++ r') =
    Ok ({| wb_start := wb_start zab + n; wb_rest := wb_rest zab - n;
           wb_length := wb_length zab; wb_offset := wb_offset zab + n |},
        l ++ le_put n z ++ r ++ r').
Proof.
  intros Hn Hm Hs Hr Hl. unfold binary_Write, Write. rewrite length_le_put.
  destruct (Nat.eqb_spec n 0); [done|].
  destruct (Nat.ltb_spec (wb_length zab) (n + wb_offset zab)); [lia|].
  f_equal. f_equal. unfold copy_at. rewrite length_le_put, Hs, Hr, Hm.
  rewrite Nat.min_r by lia. rewrite take_app_length.
  rewrite take_ge by (rewrite length_le_put; lia).
  rewrite drop_app_add. do 2 f_equal. by apply drop_app_exact.
Qed.

(** A read buffer that holds [n] more bytes delivers exactly those. *)
Lemma binary_Read_ok n l r :
  n <> 0%nat -> length l = n ->
  binary_Read {| rb_buf := l ++ r; rb_length := n + length r |} n =
    Ok (le_get l, {| rb_buf := r; rb_length := length r |}).
Proof.
  intros Hn Hl. unfold binary_Read. destruct n as [|n]; [done|]. cbn [ReadFull].
  rewrite (proj2 (Nat.eqb_neq (S n) 0)) by lia.
  unfold Read. rewrite (proj2 (Nat.eqb_neq (S n) 0)) by lia. cbn [rb_length rb_buf].
  rewrite (proj2 (Nat.eqb_neq (S n + length r) 0)) by lia.
  rewrite (proj2 (Nat.ltb_ge (S n + length r) (S n))) by lia. cbv zeta.
  rewrite take_app_exact, drop_app_exact by done.
  rewrite Hl, Nat.sub_diag. replace (S n + length r - S n)%nat with (length r) by lia.
  destruct n; cbn; done.
Qed.

#[export] Hint Resolve binary_Write_ok binary_Read_ok : zstor.
End Buffer.

Module Encoding.
Import Buffer.

Definition ErrInvalidChecksum := ErrVar "encoding" "ErrInvalidChecksum" "decoded data had wrong checksum".
Definition ErrInvalidData := ErrVar "encoding" "ErrInvalidData" "invalid data slice cannot be decoded".

Definition checksumSize : nat := 4.
Definition CRC32Polynomial : Z := 0xD5828281.

Definition checksum (p : bytes) : Z := crc_checksum CRC32Polynomial p.

(** [make([]byte, n)] *)
Definition zeros (n : nat) : bytes := replicate n Byte.x00.

(** The checksum of [data[4:]] is written over [data[:4]]. *)
Definition packageData (data : bytes) : outcome bytes :=
  let! buf := newZeroAllocWriteBuffer 0 checksumSize in
  let crc := checksum (drop checksumSize data) in
  let! (_, data') := binary_Write buf 4 crc data in
  Ok data'.

Definition unpackageData (data : bytes) : outcome bytes :=
  let blob := drop checksumSize data in
  let validCRC := checksum blob in
  let! buf := newZeroAllocReadBuffer (take checksumSize data) in
  let! (packagedCRC, _) := binary_Read buf 4 in
  if validCRC =? packagedCRC then Ok blob else Err ErrInvalidChecksum.

Definition EncodeObject (obj : Object) : outcome bytes :=
  let objDataLength := length (Data obj) in
  if (objDataLength =? 0)%nat then Err (ErrNew "no data given to encode")
  else
    let data := zeros (checksumSize + objDataLength) in
    let data := copy_at data checksumSize objDataLength (Data obj) in
    packageData data.

Definition DecodeObject (data : bytes) : outcome Object :=
  let minDecodeSize := (checksumSize + 1)%nat in
  if (length data <? minDecodeSize)%nat then Err ErrInvalidData
  else
    let! blob := unpackageData data in
    Ok {| Data := blob |}.

Definition reservedLength : nat := 8.

Definition EncodeNamespace (ns : Namespace) : outcome bytes :=
  let labelLength := length (Label ns) in
  if (labelLength =? 0)%nat then Err (ErrNew "no label given to encode")
  else
    let staticSize := (checksumSize + reservedLength)%nat in
    let data := zeros (staticSize + labelLength) in
    let data := copy_at data staticSize labelLength (Label ns) in
    let! data :=
      if Reserved ns =? 0 then Ok data
      else
        let! buf := newZeroAllocWriteBuffer checksumSize (staticSize - checksumSize) in
        let! (_, data') := binary_Write buf 8 (Reserved ns) data in
        Ok data'
    in
    packageData data.

Definition DecodeNamespace (data : bytes) : outcome Namespace :=
  let minDecodeSize := (checksumSize + reservedLength + 1)%nat in
  if (length data <? minDecodeSize)%nat then Err ErrInvalidData
  else
    let! blob := unpackageData data in
    let! buf := newZeroAllocReadBuffer (take reservedLength blob) in
    let! (reserved, _) := binary_Read buf 8 in
    Ok {| Reserved := reserved; Label := drop reservedLength blob |}.

Definition EncodeStoreStat (stats : StoreStat) : outcome bytes :=
  let propertySize := 16%nat in
  let data := zeros (checksumSize + propertySize) in
  let! buf := newZeroAllocWriteBuffer checksumSize propertySize in
  let! (buf, data) := binary_Write buf 8 (SizeAvailable stats) data in
  let! (_, data) := binary_Write buf 8 (SizeUsed stats) data in
  packageData data.

Definition DecodeStoreStat (data : bytes) : outcome StoreStat :=
  let staticDecodeSize := (checksumSize + 16)%nat in
  if negb (length data =? staticDecodeSize)%nat then Err ErrInvalidData
  else
    let! blob := unpackageData data in
    let! buf := newZeroAllocReadBuffer blob in
    let! (available, buf) := binary_Read buf 8 in
    let! (used, _) := binary_Read buf 8 in
    Ok {| SizeAvailable := available; SizeUsed := used |}.

(** The returned [error] value: [Ok tt] is nil. *)
Definition ValidateData (data : bytes) : outcome unit :=
  let minDataSize := (checksumSize + 1)%nat in
  if (length data <? minDataSize)%nat then Err ErrInvalidData
  else
    let validCRC := checksum (drop checksumSize data) in
    let! buf := newZeroAllocReadBuffer (take checksumSize data) in
    let! (packagedCRC, _) := binary_Read buf 4 in
    if negb (validCRC =? packagedCRC) then Err ErrInvalidChecksum else Ok tt.

(** *** The package format *)
Lemma polynomial_ok : crc_poly_ok CRC32Polynomial.
Proof. split; [unfold CRC32Polynomial; lia|reflexivity]. Qed.

Lemma checksum_range p : 0 <= checksum p < 256 ^ Z.of_nat 4.
Proof. change (256 ^ Z.of_nat 4) with (2 ^ 32). apply crc_checksum_range, polynomial_ok. Qed.

(** What a package of [blob] is: its checksum, little endian, then the blob. *)
Definition package (blob : bytes) : bytes := le_put 4 (checksum blob) ++ blob.

Lemma length_package blob : length (package blob) = (4 + length blob)%nat.
Proof. unfold package. rewrite length_app, length_le_put. done. Qed.

Lemma packageData_spec hd blob :
  length hd = 4%nat -> packageData (hd ++ blob) = Ok (package blob).
Proof.
  intros H. unfold packageData, newZeroAllocWriteBuffer, checksumSize. cbn [Nat.eqb obind].
  rewrite drop_app_exact by done.
  pose proof (binary_Write_ok {| wb_start := 0; wb_rest := 4; wb_length := 4; wb_offset := 0 |}
    4 (checksum blob) [] hd [] blob) as HW.
  cbn [app length wb_start wb_rest wb_length wb_offset] in HW.
  rewrite HW by (rewrite ?H; done). done.
Qed.

Lemma read_word hd r :
  length hd = 4%nat ->
  (let! buf := newZeroAllocReadBuffer (take checksumSize (hd ++ r)) in binary_Read buf 4) =
    Ok (le_get hd, {| rb_buf := []; rb_length := 0 |}).
Proof.
  intros H. unfold checksumSize. rewrite take_app_exact by done.
  unfold newZeroAllocReadBuffer. rewrite H. cbn [Nat.eqb obind].
  pose proof (binary_Read_ok 4 hd []) as HR. rewrite app_nil_r in HR.
  by apply HR.
Qed.

Lemma unpackageData_spec hd blob :
  length hd = 4%nat ->
  unpackageData (hd ++ blob) =
    if checksum blob =? le_get hd then Ok blob else Err ErrInvalidChecksum.
Proof.
  intros H. unfold unpackageData. unfold checksumSize at 1. rewrite drop_app_exact by done.
  pose proof (read_word hd blob H) as HR.
  destruct (newZeroAllocReadBuffer _); cbn [obind] in HR |- *; try discriminate.
  by rewrite HR.
Qed.

Lemma ValidateData_spec hd blob :
  length hd = 4%nat ->
  ValidateData (hd ++ blob) =
    if (length blob =? 0)%nat then Err ErrInvalidData
    else if checksum blob =? le_get hd then Ok tt else Err ErrInvalidChecksum.
Proof.
  intros H. unfold ValidateData. rewrite length_app, H.
  pose proof (read_word hd blob H) as HR.
  destruct (newZeroAllocReadBuffer _); cbn [obind] in HR |- *; try discriminate.
  rewrite HR. cbn [obind]. unfold checksumSize. rewrite drop_app_exact by done.
  destruct (Nat.eqb_spec (length blob) 0), (Nat.ltb_spec (4 + length blob) (4 + 1)); try lia; try done.
  by destruct (_ =? _).
Qed.

Lemma unpackage_package blob : unpackageData (package blob) = Ok blob.
Proof.
  unfold package. rewrite unpackageData_spec by apply length_le_put.
  rewrite le_get_put by apply checksum_range. by rewrite Z.eqb_refl.
Qed.

(** Any data of at least four bytes is a header and a blob. *)
Lemma split_header (data : bytes) :
  (4 <= length data)%nat -> exists hd blob, data = hd ++ blob /\ length hd = 4%nat.
Proof.
  intros H. exists (take 4 data), (drop 4 data). rewrite take_drop, length_take.
  split; [done|lia].
Qed.

Lemma unpackage_inv data blob :
  (4 <= length data)%nat -> unpackageData data = Ok blob -> data = package blob.
Proof.
  intros Hl H. destruct (split_header data Hl) as (hd & b & -> & Hhd).
  rewrite unpackageData_spec in H by done.
  destruct (Z.eqb_spec (checksum b) (le_get hd)) as [E|]; [|done]. inv_ok.
  unfold package. rewrite E, <- Hhd, le_put_get. done.
Qed.

Lemma unpackage_total data :
  (4 <= length data)%nat ->
  unpackageData data = Ok (drop 4 data) \/ unpackageData data = Err ErrInvalidChecksum.
Proof.
  intros Hl. destruct (split_header data Hl) as (hd & b & -> & Hhd).
  rewrite unpackageData_spec, drop_app_exact by done. destruct (_ =? _); auto.
Qed.

#[export] Hint Resolve checksum_range unpackage_package polynomial_ok : zstor.

(** *** Layout of the encodings *)
Lemma zeros_app n m : zeros (n + m) = zeros n ++ zeros m.
Proof. apply replicate_add. Qed.

Lemma length_zeros n : length (zeros n) = n.
Proof. apply length_replicate. Qed.

Lemma copy_tail n (d : bytes) :
  copy_at (zeros (n + length d)) n (length d) d = zeros n ++ d.
Proof.
  rewrite zeros_app.
  pose proof (copy_at_exact (zeros n) (zeros (length d)) [] d) as H.
  rewrite !app_nil_r, !length_zeros in H. apply H. done.
Qed.

Lemma EncodeObject_spec obj :
  EncodeObject obj =
    if (length (Data obj) =? 0)%nat then Err (ErrNew "no data given to encode")
    else Ok (package (Data obj)).
Proof.
  unfold EncodeObject. destruct (_ =? 0)%nat; [done|].
  rewrite copy_tail. by apply packageData_spec.
Qed.

Lemma le_put_zero n : le_put n 0 = zeros n.
Proof. induction n as [|n IH]; [done|]. change (zb 0 :: le_put n 0 = Byte.x00 :: zeros n). by rewrite IH. Qed.

Lemma EncodeNamespace_spec ns :
  EncodeNamespace ns =
    if (length (Label ns) =? 0)%nat then Err (ErrNew "no label given to encode")
    else Ok (package (le_put 8 (Reserved ns) ++ Label ns)).
Proof.
  unfold EncodeNamespace. destruct (_ =? 0)%nat; [done|].
  rewrite copy_tail. change (checksumSize + reservedLength)%nat with (4 + 8)%nat.
  rewrite zeros_app, <- app_assoc.
  destruct (Z.eqb_spec (Reserved ns) 0) as [->|Hne]; cbn [obind].
  - rewrite packageData_spec by done. by rewrite le_put_zero.
  - change (newZeroAllocWriteBuffer _ _) with
      (Ok {| wb_start := 4; wb_rest := 8; wb_length := 8; wb_offset := 0 |}). cbn [obind].
    pose proof (binary_Write_ok {| wb_start := 4; wb_rest := 8; wb_length := 8; wb_offset := 0 |}
      8 (Reserved ns) (zeros 4) (zeros 8) [] (Label ns)) as HW.
    cbn [app] in HW. rewrite HW by done. cbn [obind].
    by rewrite packageData_spec.
Qed.

Lemma EncodeStoreStat_spec stats :
  EncodeStoreStat stats =
    Ok (package (le_put 8 (SizeAvailable stats) ++ le_put 8 (SizeUsed stats))).
Proof.
  unfold EncodeStoreStat. unfold newZeroAllocWriteBuffer. cbn [Nat.eqb obind].
  change (zeros (checksumSize + 16)) with (zeros 4 ++ zeros 8 ++ zeros 8 ++ []).
  rewrite binary_Write_ok by done. cbn [obind].
  unfold checksumSize. cbn [wb_start wb_rest wb_length wb_offset Nat.add Nat.sub].
  pose proof (binary_Write_ok {| wb_start := 12; wb_rest := 8; wb_length := 16; wb_offset := 8 |}
    8 (SizeUsed stats) (zeros 4 ++ le_put 8 (SizeAvailable stats)) (zeros 8) [] []) as HW.
  rewrite <- !app_assoc in HW. cbn [app] in HW.
  rewrite HW by done. cbn [obind]. rewrite app_nil_r. by rewrite packageData_spec.
Qed.

Lemma DecodeObject_spec hd blob :
  length hd = 4%nat ->
  DecodeObject (hd ++ blob) =
    if (length blob =? 0)%nat then Err ErrInvalidData
    else if checksum blob =? le_get hd then Ok {| Data := blob |} else Err ErrInvalidChecksum.
Proof.
  intros H. unfold DecodeObject. rewrite length_app, H, unpackageData_spec by done.
  unfold checksumSize.
  destruct (Nat.eqb_spec (length blob) 0), (Nat.ltb_spec (4 + length blob) (4 + 1)); try lia; try done.
  by destruct (_ =? _).
Qed.

Lemma read_words8 l r :
  length l = 8%nat ->
  (let! buf := newZeroAllocReadBuffer (l ++ r) in binary_Read buf 8) =
    Ok (le_get l, {| rb_buf := r; rb_length := length r |}).
Proof.
  intros H. unfold newZeroAllocReadBuffer. rewrite length_app, H. cbn [Nat.eqb Nat.add obind].
  by apply (binary_Read_ok 8).
Qed.

Lemma DecodeNamespace_spec hd blob :
  length hd = 4%nat ->
  DecodeNamespace (hd ++ blob) =
    if (length blob <? 9)%nat then Err ErrInvalidData
    else if checksum blob =? le_get hd
    then Ok {| Reserved := le_get (take 8 blob); Label := drop 8 blob |}
    else Err ErrInvalidChecksum.
Proof.
  intros H. unfold DecodeNamespace, checksumSize, reservedLength.
  rewrite length_app, H, unpackageData_spec by done.
  destruct (Nat.ltb_spec (4 + length blob) (4 + 8 + 1)), (Nat.ltb_spec (length blob) 9);
    try lia; try done.
  destruct (_ =? _); [|done]. cbn [obind].
  pose proof (read_words8 (take 8 blob) [] ltac:(rewrite length_take; lia)) as HR.
  rewrite app_nil_r in HR. by rewrite <- obind_assoc, HR.
Qed.

Lemma DecodeStoreStat_spec hd blob :
  length hd = 4%nat ->
  DecodeStoreStat (hd ++ blob) =
    if negb (length blob =? 16)%nat then Err ErrInvalidData
    else if checksum blob =? le_get hd
    then Ok {| SizeAvailable := le_get (take 8 blob); SizeUsed := le_get (drop 8 blob) |}
    else Err ErrInvalidChecksum.
Proof.
  intros H. unfold DecodeStoreStat, checksumSize.
  rewrite length_app, H, unpackageData_spec by done.
  destruct (Nat.eqb_spec (4 + length blob) (4 + 16)), (Nat.eqb_spec (length blob) 16);
    try lia; try done. cbn [negb].
  destruct (_ =? _); [|done]. cbn [obind].
  pose proof (read_words8 (take 8 blob) (drop 8 blob) ltac:(rewrite length_take; lia)) as HR.
  rewrite take_drop in HR. rewrite <- obind_assoc, HR. cbn [obind].
  pose proof (binary_Read_ok 8 (drop 8 blob) []) as HR2.
  rewrite app_nil_r in HR2. cbn [length Nat.add] in HR2.
  rewrite length_drop in *. replace (length blob - 8)%nat with 8%nat in * by lia.
  by rewrite HR2.
Qed.

Lemma DecodeObject_package blob :
  blob <> [] -> DecodeObject (package blob) = Ok {| Data := blob |}.
Proof.
  intros Hne. unfold package. rewrite DecodeObject_spec by apply length_le_put.
  rewrite le_get_put, Z.eqb_refl by auto with zstor. by destruct blob.
Qed.

Lemma DecodeObject_nonempty data obj : DecodeObject data = Ok obj -> Data obj <> [].
Proof.
  intros H. destruct (decide (length data < 4)%nat) as [Hs|Hs].
  { unfold DecodeObject, checksumSize in H. by rewrite (proj2 (Nat.ltb_lt _ _)) in H by lia. }
  destruct (split_header data ltac:(lia)) as (hd & blob & -> & Hhd).
  rewrite DecodeObject_spec in H by done. destruct blob; repeat case_match; by simplify_eq.
Qed.

(** Decoding never panics, and it succeeds exactly on what validates. *)
Lemma decode_object_total data :
  no_panic (DecodeObject data) /\ no_panic (ValidateData data) /\
  (ValidateData data = Ok tt <-> exists obj, DecodeObject data = Ok obj).
Proof.
  destruct (decide (length data < 4)%nat) as [Hs|Hs].
  { unfold DecodeObject, ValidateData, checksumSize.
    rewrite !(proj2 (Nat.ltb_lt _ _)) by lia. naive_solver. }
  destruct (split_header data ltac:(lia)) as (hd & blob & -> & Hhd).
  rewrite DecodeObject_spec, ValidateData_spec by done.
  destruct (length blob =? 0)%nat, (checksum blob =? le_get hd); naive_solver.
Qed.

(** A package with one byte changed is rejected by the checksum comparison. *)
Lemma package_corrupt blob i old new :
  package blob !! i = Some old -> new <> old ->
  exists hd blob', <[i:=new]> (package blob) = hd ++ blob' /\ length hd = 4%nat /\
    length blob' = length blob /\ checksum blob' <> le_get hd.
Proof.
  intros Hi Hne. unfold package in *. set (hd := le_put 4 (checksum blob)) in *.
  assert (Hlen : length hd = 4%nat) by apply length_le_put.
  assert (Hget : le_get hd = checksum blob) by (apply le_get_put, checksum_range).
  destruct (decide (i < length hd)%nat) as [Hlt|Hge].
  - rewrite lookup_app_l in Hi by done. rewrite insert_app_l by done.
    exists (<[i:=new]> hd), blob. rewrite length_insert. split_and!; try done.
    rewrite <- Hget. intros E. apply le_get_inj in E; [|by rewrite length_insert].
    rewrite E, list_lookup_insert_eq in Hi by done. congruence.
  - rewrite lookup_app_r in Hi by lia.
    replace i with (length hd + (i - length hd))%nat by lia. rewrite insert_app_r.
    eexists hd, _. split_and!; try done; [apply length_insert|].
    rewrite Hget. eapply crc_checksum_insert; [apply polynomial_ok|done|congruence].
Qed.

Lemma decode_corrupt blob i old new :
  blob <> [] -> package blob !! i = Some old -> new <> old ->
  DecodeObject (<[i:=new]> (package blob)) = Err ErrInvalidChecksum /\
  ValidateData (<[i:=new]> (package blob)) = Err ErrInvalidChecksum.
Proof.
  intros Hb Hi Hne.
  destruct (package_corrupt _ _ _ _ Hi Hne) as (hd & blob' & -> & Hhd & Hl & Hcrc).
  rewrite DecodeObject_spec, ValidateData_spec, Hl by done.
  rewrite (proj2 (Z.eqb_neq _ _)) by done. by destruct blob.
Qed.

(** *** Properties *)

(** Every object the server encodes decodes to itself, and every byte
    string that decodes to an object is the one encoding of that object:
    encoder and decoder are inverse on the valid packages. *)
Theorem object_roundtrip (obj : Object) (data : bytes) :
  EncodeObject obj = Ok data <-> DecodeObject data = Ok obj.
Proof.
  rewrite EncodeObject_spec. split.
  - destruct (Nat.eqb_spec (length (Data obj)) 0) as [|Hne]; [done|]. intros H. inv_ok.
    rewrite DecodeObject_package; [by destruct obj|]. intros E. by rewrite E in Hne.
  - unfold DecodeObject. destruct (Nat.ltb_spec (length data) (checksumSize + 1)); [done|].
    intros H'. apply obind_Ok_inv in H' as (blob & Hu & H'). inv_ok. cbn [Data].
    apply unpackage_inv in Hu as ->; [|unfold checksumSize in *; lia].
    rewrite length_package in *. unfold checksumSize in *.
    by rewrite (proj2 (Nat.eqb_neq _ _)) by lia.
Qed.

(** Namespaces with a label and a 64-bit reservation survive encoding,
    whether or not the reservation is zero (the encoder skips the write then). *)
Theorem namespace_roundtrip (ns : Namespace) :
  Label ns <> [] -> 0 <= Reserved ns < 2 ^ 64 ->
  exists data, EncodeNamespace ns = Ok data /\ DecodeNamespace data = Ok ns.
Proof.
  intros Hl Hr. rewrite EncodeNamespace_spec.
  destruct (Nat.eqb_spec (length (Label ns)) 0) as [E|].
  { by apply length_zero_iff_nil in E. }
  eexists. split; [done|]. unfold package.
  rewrite DecodeNamespace_spec, length_app by apply length_le_put.
  rewrite take_app_exact, drop_app_exact, !le_get_put by eauto with zstor.
  rewrite length_le_put, Z.eqb_refl. destruct ns, (Nat.ltb_spec (8 + length (Label {| Reserved := Reserved0; Label := Label0 |})) 9); [cbn in *; lia|done].
Qed.

Lemma namespace_roundtrip_witness :
  exists data, EncodeNamespace {| Reserved := 300; Label := str_bytes "ns" |} = Ok data /\
    DecodeNamespace data = Ok {| Reserved := 300; Label := str_bytes "ns" |}.
Proof. apply (namespace_roundtrip {| Reserved := 300; Label := str_bytes "ns" |}); cbn; [done|lia]. Defined.

(** Store statistics survive encoding. *)
Theorem store_stat_roundtrip (stats : StoreStat) :
  0 <= SizeAvailable stats < 2 ^ 64 -> 0 <= SizeUsed stats < 2 ^ 64 ->
  exists data, EncodeStoreStat stats = Ok data /\ DecodeStoreStat data = Ok stats.
Proof.
  intros Ha Hu. rewrite EncodeStoreStat_spec. eexists. split; [done|].
  unfold package. rewrite DecodeStoreStat_spec, length_app by apply length_le_put.
  rewrite take_app_exact, drop_app_exact, !le_get_put by eauto with zstor.
  rewrite !length_le_put, Z.eqb_refl. by destruct stats.
Qed.

Lemma store_stat_roundtrip_witness :
  exists data, EncodeStoreStat {| SizeAvailable := 2 ^ 40; SizeUsed := 77 |} = Ok data /\
    DecodeStoreStat data = Ok {| SizeAvailable := 2 ^ 40; SizeUsed := 77 |}.
Proof. apply (store_stat_roundtrip {| SizeAvailable := 2 ^ 40; SizeUsed := 77 |}); cbn; lia. Defined.

(** A stored object package in which exactly one byte was changed (in
    the checksum or in the data) is never taken for valid: decoding and
    validating it both report the checksum error. *)
Theorem corruption_detected (obj : Object) (data : bytes) (i : nat) (old new : byte) :
  EncodeObject obj = Ok data -> data !! i = Some old -> new <> old ->
  DecodeObject (<[i:=new]> data) = Err ErrInvalidChecksum /\
  ValidateData (<[i:=new]> data) = Err ErrInvalidChecksum.
Proof.
  rewrite EncodeObject_spec. destruct (Nat.eqb_spec (length (Data obj)) 0); [done|].
  intros H Hi Hne. inv_ok. apply (decode_corrupt _ i old new); try done.
  intros E. by rewrite E in *.
Qed.

Lemma corruption_detected_witness :
  exists data, EncodeObject {| Data := str_bytes "hello" |} = Ok data /\
  DecodeObject (<[6%nat:=Byte.x00]> data) = Err ErrInvalidChecksum /\
  ValidateData (<[6%nat:=Byte.x00]> data) = Err ErrInvalidChecksum.
Proof.
  eexists. split; [vm_compute; reflexivity|].
  eapply (corruption_detected {| Data := str_bytes "hello" |});
    [vm_compute; reflexivity|vm_compute; reflexivity|done].
Defined.

(** No input makes a decoder panic, and [ValidateData] accepts exactly
    the packages that [DecodeObject] decodes. *)
Theorem decoders_total (data : bytes) :
  no_panic (DecodeObject data) /\ no_panic (DecodeNamespace data) /\
  no_panic (DecodeStoreStat data) /\ no_panic (ValidateData data) /\
  (ValidateData data = Ok tt <-> exists obj, DecodeObject data = Ok obj).
Proof.
  destruct (decode_object_total data) as (Ho & Hv & Hiff). split_and!; try done.
  all: destruct (decide (length data < 4)%nat) as [Hs|Hs];
    [unfold DecodeNamespace, DecodeStoreStat, checksumSize, reservedLength;
     rewrite ?(proj2 (Nat.ltb_lt _ _)), ?(proj2 (Nat.eqb_neq _ _)) by lia; done|];
    destruct (split_header data ltac:(lia)) as (hd & blob & -> & Hhd).
  - rewrite DecodeNamespace_spec by done. by repeat case_match.
  - rewrite DecodeStoreStat_spec by done. by repeat case_match.
Qed.
End Encoding.
