(* ===== verification/Keys.v ===== *)
(** * Database keys of the server ([server/db/keys.go])

    Every record of a zstordb database has a flat binary key.  Objects live
    under [d:<label>:<sequence>], namespaces under [@:<label>], the sequences
    of the badger backend under [__<key>] and the statistics under [$].  The
    results say which of these keys can coincide. *)

From S2P Require Import Prelude.
Open Scope Z_scope.

Definition SequenceKeyByteSize : nat := 8.

Definition colon : byte := Byte.x3a.

(** [ScopedSequenceKey] panics on a nil scope key; the sequence is the
    little-endian tail of the key. *)
Definition ScopedSequenceKey (scopeKey : slice) (sequence : Z) : outcome bytes :=
  match scopeKey with
  | None => Panic "no scopeKey given"
  | Some sk => Ok (sk ++ le_put SequenceKeyByteSize sequence)
  end.

Definition DataKey (label genKey : slice) : outcome bytes :=
  match label, genKey with
  | None, _ => Panic "no label given"
  | _, None => Panic "no key given"
  | Some l, Some g => Ok ([Byte.x64; colon] ++ l ++ [colon] ++ g)
  end.

Definition DataScopeKey (label : slice) : outcome bytes :=
  match label with
  | None => Panic "no label given"
  | Some l => Ok ([Byte.x64; colon] ++ l ++ [colon])
  end.

Definition NamespaceKey (label : slice) : outcome bytes :=
  match label with
  | None => Panic "no label given"
  | Some l => Ok ([Byte.x40; colon] ++ l)
  end.

Definition UnlistedKey (key : slice) : outcome bytes :=
  match key with
  | None => Panic "no key given"
  | Some k => Ok ([Byte.x5f; Byte.x5f] ++ k)
  end.

Definition StoreStatsKey : bytes := str_bytes "$".

(** ** Lemmas *)

(** A data key is its namespace's scope key followed by the generated part. *)
Lemma data_key_scope l g sk :
  DataScopeKey (Some l) = Ok sk -> DataKey (Some l) (Some g) = Ok (sk ++ g).
Proof. intros [= <-]. cbn. by rewrite <- app_assoc. Qed.

Lemma scoped_key_inj sk1 sk2 n1 n2 :
  0 <= n1 < 2 ^ 64 -> 0 <= n2 < 2 ^ 64 ->
  sk1 ++ le_put 8 n1 = sk2 ++ le_put 8 n2 -> sk1 = sk2 /\ n1 = n2.
Proof.
  intros H1 H2 H. apply app_inj_length_r in H as [-> H]; [|by rewrite !length_le_put].
  split; [done|]. by apply (le_put_inj 8).
Qed.

(** Splitting at the first colon: what precedes a colon is determined when it
    has no colon itself. *)
Lemma colon_split (l1 l2 r1 r2 : bytes) :
  colon ∉ l1 -> colon ∉ l2 -> l1 ++ colon :: r1 = l2 ++ colon :: r2 -> l1 = l2 /\ r1 = r2.
Proof.
  revert l2; induction l1 as [|x l1 IH]; intros [|y l2] H1 H2 H; cbn in H.
  - by injection H as ->.
  - injection H as <- _. set_solver.
  - injection H as -> _. set_solver.
  - injection H as -> H. apply IH in H as [-> ->]; [done|set_solver..].
Qed.

Lemma data_scope_prefix l1 l2 g :
  colon ∉ l1 -> colon ∉ l2 ->
  ([Byte.x64; colon] ++ l1 ++ [colon]) `prefix_of` ([Byte.x64; colon] ++ l2 ++ [colon] ++ g) ->
  l1 = l2.
Proof.
  intros H1 H2 [r Hr]. cbn in Hr. injection Hr as Hr. rewrite <- app_assoc in Hr.
  by apply colon_split in Hr as [-> _].
Qed.

(** ** Properties *)

(** A generated object key determines both its scope and its sequence
    number, whatever the scopes are: two creations in two scopes, or with two
    sequence numbers of one scope, never get the same key. *)
Theorem scoped_sequence_key_injective (sk1 sk2 : bytes) (n1 n2 : Z) (k : bytes) :
  0 <= n1 < 2 ^ 64 -> 0 <= n2 < 2 ^ 64 ->
  ScopedSequenceKey (Some sk1) n1 = Ok k -> ScopedSequenceKey (Some sk2) n2 = Ok k ->
  sk1 = sk2 /\ n1 = n2.
Proof. cbn. intros H1 H2 [= <-] [= H]. symmetry in H. by apply scoped_key_inj in H. Qed.

Lemma scoped_sequence_key_injective_witness :
  exists k, ScopedSequenceKey (Some (str_bytes "d:a:")) 7 = Ok k /\
    str_bytes "d:a:" = str_bytes "d:a:" /\ 7 = 7.
Proof.
  eexists. split; [reflexivity|].
  eapply (scoped_sequence_key_injective (str_bytes "d:a:") (str_bytes "d:a:") 7 7);
    [lia|lia|reflexivity|reflexivity].
Defined.

(** C38. Namespaces are isolated when labels contain no colon: a data key names
    one label and one generated key, and the scope prefix used to list or count
    a namespace matches data keys of that namespace only. *)
Theorem namespace_isolation (l1 l2 g1 g2 : bytes) :
  colon ∉ l1 -> colon ∉ l2 ->
  (DataKey (Some l1) (Some g1) = DataKey (Some l2) (Some g2) <-> l1 = l2 /\ g1 = g2) /\
  (forall sk k, DataScopeKey (Some l1) = Ok sk -> DataKey (Some l2) (Some g2) = Ok k ->
     (has_prefix k sk = true <-> l1 = l2)).
Proof.
  intros H1 H2. split.
  - cbn. split; [|by intros [-> ->]]. intros [= H].
    by apply colon_split in H.
  - cbn. intros sk k [= <-] [= <-]. rewrite has_prefix_spec. split.
    + by apply data_scope_prefix.
    + intros ->. exists g2. cbn. by rewrite <- app_assoc.
Qed.

Lemma namespace_isolation_witness :
  has_prefix (str_bytes "d:ab:k") (str_bytes "d:a:") = false.
Proof.
  apply not_true_iff_false. intros H.
  apply (proj2 (namespace_isolation (str_bytes "a") (str_bytes "ab") (str_bytes "k") (str_bytes "k")
    ltac:(set_solver) ltac:(set_solver)) (str_bytes "d:a:") (str_bytes "d:ab:k")) in H; done.
Defined.

(** With a colon in a label isolation fails: the namespaces [a] and [a:b]
    share data keys, and listing [a] also lists what [a:b] stores. *)
Theorem colon_label_overlap :
  DataKey (Some (str_bytes "a")) (Some (str_bytes "b:k")) =
    DataKey (Some (str_bytes "a:b")) (Some (str_bytes "k")) /\
  (exists sk k, DataScopeKey (Some (str_bytes "a")) = Ok sk /\
     DataKey (Some (str_bytes "a:b")) (Some (str_bytes "k")) = Ok k /\ has_prefix k sk = true).
Proof. split; [reflexivity|]. eexists _, _. split_and!; reflexivity. Qed.

(** The four kinds of keys never collide, so sequences, namespace records
    and statistics are not listed with, nor overwritten by, objects. *)
Theorem key_kinds_disjoint (l g n u : bytes) (dk nk uk : bytes) :
  DataKey (Some l) (Some g) = Ok dk -> NamespaceKey (Some n) = Ok nk -> UnlistedKey (Some u) = Ok uk ->
  NoDup [dk; nk; uk; StoreStatsKey] /\
  (forall l' sk, DataScopeKey (Some l') = Ok sk ->
     has_prefix nk sk = false /\ has_prefix uk sk = false /\ has_prefix StoreStatsKey sk = false).
Proof.
  cbn. intros [= <-] [= <-] [= <-]. split.
  - repeat constructor; set_solver.
  - intros l' sk [= <-]. done.
Qed.

Lemma key_kinds_disjoint_witness :
  NoDup [str_bytes "d:a:k"; str_bytes "@:a"; str_bytes "__d:a:"; StoreStatsKey].
Proof.
  apply (key_kinds_disjoint (str_bytes "a") (str_bytes "k") (str_bytes "a") (str_bytes "d:a:"));
    reflexivity.
Defined.
