(* ===== verification/DB.v ===== *)
(** * The server's key-value database ([server/db/db.go], [server/db/memory])

    [DB] is the interface [db.DB] as a class of operations on a database state;
    [DBLaws] states what the interface documentation promises, against an
    abstract finite map.  [Memory] models the in-memory implementation and
    discharges the laws. *)

From S2P Require Import Prelude Keys.
Open Scope Z_scope.

Definition ErrNotFound := ErrVar "db" "ErrNotFound" "key not found".
Definition ErrNilKey := ErrVar "db" "ErrNilKey" "nil-key not allowed".
Definition ErrClosedItem := ErrVar "db" "ErrClosedItem" "item is already closed".
Definition ErrConflict := ErrVar "db" "ErrConflict" "update conflicted, try again".

(** An [Item] handed to a listing callback. *)
Record Item := { item_key : bytes; item_val : bytes }.

(** A callback runs on some state [A] of its caller; [Err] aborts the listing. *)
Definition callback (A : Type) := A -> Item -> outcome A.

(** The interface.  Mutating operations return the new state; a nil key is
    [None].  [ListItems] receives the callback's state and returns its final
    value. *)
Class DB (St : Type) := {
  Set_ : slice -> slice -> St -> outcome unit * St;
  SetScoped : slice -> slice -> St -> outcome bytes * St;
  Get : slice -> St -> outcome bytes;
  Exists_ : slice -> St -> outcome bool;
  Delete : slice -> St -> outcome unit * St;
  ListItems : forall {A : Type}, callback A -> slice -> A -> St -> outcome A;
  Close : St -> outcome unit * St;
}.

(** The loop of a listing over the entries in the order they are visited. *)
Fixpoint range_items {A} (cb : callback A) (prefix : slice) (a : A)
    (entries : list (bytes * bytes)) : outcome A :=
  match entries with
  | [] => Ok a
  | (k, v) :: rest =>
      match prefix with
      | Some p =>
          if negb (has_prefix k p) then range_items cb prefix a rest
          else let! a' := cb a {| item_key := k; item_val := v |} in
               range_items cb prefix a' rest
      | None =>
          let! a' := cb a {| item_key := k; item_val := v |} in
          range_items cb prefix a' rest
      end
  end.

(** Whether an entry passes the optional prefix filter. *)
Definition listed (prefix : slice) (e : bytes * bytes) : bool :=
  match prefix with Some p => has_prefix e.1 p | None => true end.

Lemma range_items_filter {A} (cb : callback A) prefix a entries :
  range_items cb prefix a entries =
  range_items cb None a (filter (fun e => listed prefix e = true) entries).
Proof.
  revert a; induction entries as [|[k v] rest IH]; intros a; [done|].
  rewrite filter_cons. destruct (listed prefix (k, v)) eqn:E.
  - rewrite decide_True by done. cbn [range_items].
    destruct prefix as [p|]; cbn in E; rewrite ?E; cbn [negb];
      destruct (cb a _); cbn [obind]; auto.
  - rewrite decide_False by done. cbn [range_items].
    destruct prefix as [p|]; cbn in E; [|done]. rewrite E. cbn [negb]. auto.
Qed.

(** [CountKeys]: the callback only counts. *)
Definition CountKeys `{DB St} (prefix : slice) (s : St) : outcome Z :=
  ListItems (fun count _ => Ok (count + 1)) prefix 0 s.

Lemma count_items (entries : list (bytes * bytes)) n :
  range_items (fun count _ => Ok (count + 1)) None n entries = Ok (n + Z.of_nat (length entries)).
Proof.
  revert n; induction entries as [|[k v] rest IH]; intros n; cbn; [f_equal; lia|].
  rewrite IH. f_equal. lia.
Qed.

(** ** What the interface promises

    [db_map] abstracts a state to the stored pairs; [db_up] says that the
    storage below answers (always, for the in-memory implementation);
    [db_scoped] is the invariant of a database that is only filled through
    [SetScoped], [db_room n sk] that scope [sk] has [n] sequence numbers left,
    and [db_issued k] that [SetScoped] has returned [k]: numbers are not used
    again, also when what was stored under them is deleted. *)
Class DBLaws (St : Type) `{DB St} := {
  db_map : St -> gmap bytes bytes;
  db_up : St -> Prop;
  db_scoped : St -> Prop;
  db_room : nat -> bytes -> St -> Prop;
  db_issued : bytes -> St -> Prop;
  get_spec k s : db_up s ->
    Get (Some k) s = match db_map s !! k with Some v => Ok v | None => Err ErrNotFound end;
  get_nil s : Get None s = Err ErrNilKey;
  exists_spec k s : db_up s -> Exists_ (Some k) s = Ok (bool_decide (is_Some (db_map s !! k)));
  set_spec k d s : db_up s ->
    exists s', Set_ (Some k) d s = (Ok tt, s') /\ db_up s' /\
      db_map s' = <[k := slice_bytes d]> (db_map s);
  delete_spec k s : db_up s ->
    exists s', Delete (Some k) s = (Ok tt, s') /\ db_up s' /\ db_map s' = delete k (db_map s) /\
      (db_scoped s -> db_scoped s') /\ (forall n sk, db_room n sk s -> db_room n sk s') /\
      (forall k', db_issued k' s -> db_issued k' s');
  set_scoped_spec sk d s : db_up s ->
    exists g s', SetScoped (Some sk) d s = (Ok (sk ++ g), s') /\ db_up s' /\
      length g = SequenceKeyByteSize /\ db_map s' = <[sk ++ g := slice_bytes d]> (db_map s) /\
      (forall n, db_scoped s -> db_room (S n) sk s ->
         db_map s !! (sk ++ g) = None /\ db_scoped s' /\ db_room n sk s' /\
         ~ db_issued (sk ++ g) s /\ db_issued (sk ++ g) s' /\ (forall k, db_issued k s -> db_issued k s'));
  list_spec {A} (cb : callback A) prefix a s : db_up s ->
    exists entries, entries ≡ₚ map_to_list (db_map s) /\
      ListItems cb prefix a s = range_items cb prefix a entries;
}.

Section Laws.
Context `{DBLaws St}.

Lemma count_spec prefix s : db_up s ->
  CountKeys prefix s =
    Ok (Z.of_nat (length (filter (fun e => listed prefix e = true) (map_to_list (db_map s))))).
Proof.
  intros Hup. unfold CountKeys.
  destruct (list_spec (fun count _ => Ok (count + 1)) prefix 0 s Hup) as (entries & Hperm & ->).
  rewrite range_items_filter, count_items. do 2 f_equal. by rewrite Hperm.
Qed.
End Laws.

(** ** The in-memory implementation *)
Module Memory.
(** [map[string][]byte] and [map[string]uint64], keyed by the bytes of the
    key; the mutex makes every operation one step. *)
Record MemDB := { m : gmap bytes bytes; c : gmap bytes Z }.

Definition New : MemDB := {| m := ∅; c := ∅ |}.

(** The zero value for a missing counter. *)
Definition counter (mdb : MemDB) (sk : bytes) : Z := default 0 (c mdb !! sk).

Definition mem_Set (key data : slice) (mdb : MemDB) : outcome unit * MemDB :=
  match key with
  | None => (Err ErrNilKey, mdb)
  | Some k => (Ok tt, {| m := <[k := slice_bytes data]> (m mdb); c := c mdb |})
  end.

Definition mem_SetScoped (scopeKey data : slice) (mdb : MemDB) : outcome bytes * MemDB :=
  match scopeKey with
  | None => (Err ErrNilKey, mdb)
  | Some sk =>
      match ScopedSequenceKey scopeKey (counter mdb sk) with
      | Ok key =>
          (Ok key,
           {| c := <[sk := u64 (counter mdb sk + 1)]> (c mdb);
              m := <[key := slice_bytes data]> (m mdb) |})
      | Err e => (Err e, mdb)
      | Panic s => (Panic s, mdb)
      end
  end.

Definition mem_Get (key : slice) (mdb : MemDB) : outcome bytes :=
  match key with
  | None => Err ErrNilKey
  | Some k => match m mdb !! k with None => Err ErrNotFound | Some val => Ok val end
  end.

Definition mem_Exists (key : slice) (mdb : MemDB) : outcome bool :=
  match key with
  | None => Err ErrNilKey
  | Some k => Ok (bool_decide (is_Some (m mdb !! k)))
  end.

Definition mem_Delete (key : slice) (mdb : MemDB) : outcome unit * MemDB :=
  match key with
  | None => (Err ErrNilKey, mdb)
  | Some k => (Ok tt, {| m := delete k (m mdb); c := c mdb |})
  end.

Definition mem_Close (mdb : MemDB) : outcome unit * MemDB :=
  (Ok tt, {| m := ∅; c := c mdb |}).

(** Go iterates over a map in an unspecified order: [range] is that order,
    every entry once. *)
Section Range.
Context (range : gmap bytes bytes -> list (bytes * bytes)).

Definition mem_ListItems {A} (cb : callback A) (prefix : slice) (a : A) (mdb : MemDB) : outcome A :=
  range_items cb prefix a (range (m mdb)).

Definition mem_DB : DB MemDB := {|
  Set_ := mem_Set; SetScoped := mem_SetScoped; Get := mem_Get; Exists_ := mem_Exists;
  Delete := mem_Delete; ListItems := @mem_ListItems; Close := mem_Close |}.
End Range.

(** The invariant of a database filled through [SetScoped] only: every key is
    a scope key with a sequence number below that scope's counter. *)
Definition issued (k : bytes) (mdb : MemDB) : Prop :=
  exists sk n, k = sk ++ le_put 8 n /\ 0 <= n < counter mdb sk.

Definition scoped (mdb : MemDB) : Prop :=
  (forall k v, m mdb !! k = Some v -> issued k mdb) /\
  (forall sk, 0 <= counter mdb sk < 2 ^ 64).

Definition room (n : nat) (sk : bytes) (mdb : MemDB) : Prop := counter mdb sk + Z.of_nat n < 2 ^ 64.

Lemma counter_insert mdb sk n sk' mm :
  counter {| m := mm; c := <[sk := n]> (c mdb) |} sk' =
    if decide (sk = sk') then n else counter mdb sk'.
Proof. unfold counter. cbn. rewrite lookup_insert. by case_decide. Qed.

Lemma new_scoped : scoped New.
Proof.
  split; [intros k v H; cbn in H; by rewrite lookup_empty in H|].
  intros sk. unfold counter. cbn [c New]. rewrite lookup_empty. cbn. lia.
Qed.

Lemma set_scoped_fresh n mdb sk d :
  scoped mdb -> room (S n) sk mdb ->
  let key := sk ++ le_put 8 (counter mdb sk) in
  let mdb' := (mem_SetScoped (Some sk) d mdb).2 in
  m mdb !! key = None /\ scoped mdb' /\ room n sk mdb' /\
  ~ issued key mdb /\ issued key mdb' /\ (forall k, issued k mdb -> issued k mdb').
Proof.
  intros [Hk Hc] Hroom key mdb'. unfold room in Hroom. pose proof (Hc sk) as Hsk.
  assert (Hnew : ~ issued key mdb).
  { intros (sk' & i & E & Hn). apply scoped_key_inj in E as [-> E]; [lia|lia|]. pose proof (Hc sk'). lia. }
  assert (Hmono : forall k, issued k mdb -> issued k mdb').
  { intros k (sk' & i & -> & Hn). exists sk', i. split; [done|]. unfold mdb'. cbn. rewrite counter_insert.
    unfold u64. rewrite Z.mod_small by lia. case_decide; subst; lia. }
  unfold mdb'. split_and!; [| | |done| |done].
  - destruct (m mdb !! _) eqn:E; [|done]. by apply Hk in E.
  - cbn. unfold u64. rewrite Z.mod_small by lia. split; cbn [m].
    + intros k v H. rewrite lookup_insert in H. case_decide as E.
      * simplify_eq. exists sk, (counter mdb sk). rewrite counter_insert, decide_True by done.
        split; [done|lia].
      * apply Hk, Hmono in H. unfold mdb' in H. cbn in H. unfold u64 in H. by rewrite Z.mod_small in H by lia.
    + intros sk'. rewrite counter_insert. pose proof (Hc sk'). case_decide; lia.
  - unfold room. cbn. unfold u64. rewrite Z.mod_small by lia. rewrite counter_insert, decide_True by done. lia.
  - exists sk, (counter mdb sk). split; [done|]. cbn. unfold u64. rewrite Z.mod_small by lia.
    rewrite counter_insert, decide_True by done. lia.
Qed.

Lemma delete_scoped mdb k : scoped mdb -> scoped (mem_Delete (Some k) mdb).2.
Proof.
  intros [Hk Hc]. split; [|done]. cbn. intros k' v H.
  apply lookup_delete_Some in H as [_ H]. by apply Hk in H.
Qed.

#[export] Hint Resolve new_scoped delete_scoped : zstor.

(** The implementation meets the interface. *)
Section Laws.
Context (range : gmap bytes bytes -> list (bytes * bytes)).
Context (Hrange : forall mm, range mm ≡ₚ map_to_list mm).

Definition mem_laws : @DBLaws MemDB (mem_DB range).
Proof using Hrange.
  refine {| db_map := m; db_up := fun _ => True; db_scoped := scoped; db_room := room; db_issued := issued |}.
  - intros k s _. cbn. by destruct (m s !! k).
  - done.
  - done.
  - intros k d s _. by eexists.
  - intros k s _. eexists. split_and!; try done. by apply delete_scoped.
  - intros sk d s _. eexists _, _. split_and!; try done.
    intros n Hs Hr. by apply set_scoped_fresh.
  - intros A cb prefix a s _. exists (range (m s)). split; [apply Hrange|done].
Defined.
End Laws.

#[export] Instance default_DB : DB MemDB := mem_DB map_to_list.
#[export] Instance default_laws : DBLaws MemDB := mem_laws map_to_list (fun _ => reflexivity _).

(** *** Properties *)

(** What a client of the interface can do to a database it only fills through
    [SetScoped]. *)
Inductive op := OpSetScoped (sk : bytes) (d : slice) | OpDelete (k : bytes).

Definition step (mdb : MemDB) (o : op) : MemDB :=
  match o with
  | OpSetScoped sk d => (mem_SetScoped (Some sk) d mdb).2
  | OpDelete k => (mem_Delete (Some k) mdb).2
  end.

Definition run (ops : list op) : MemDB := foldl step New ops.

Lemma counter_step mdb o sk :
  scoped mdb -> room 1 sk mdb ->
  counter mdb sk <= counter (step mdb o) sk <= counter mdb sk + 1.
Proof.
  intros [_ Hc] Hr. unfold room in Hr. pose proof (Hc sk).
  destruct o as [sk' d|k]; cbn [step]; [|cbn; unfold counter in *; cbn; lia].
  cbn [mem_SetScoped ScopedSequenceKey snd]. rewrite counter_insert.
  case_decide; subst; [|lia]. unfold u64. rewrite Z.mod_small; lia.
Qed.

(** Every history of fewer than [2^64 - 1] operations keeps the invariant and
    leaves room in every scope. *)
Lemma run_scoped ops :
  Z.of_nat (length ops) + 1 < 2 ^ 64 ->
  scoped (run ops) /\ (forall sk, counter (run ops) sk <= Z.of_nat (length ops)).
Proof.
  unfold run. induction ops as [|o ops IH] using rev_ind; intros Hlen.
  { split; [apply new_scoped|]. done. }
  rewrite length_app in Hlen. cbn in Hlen. rewrite foldl_app, length_app. cbn [foldl length].
  destruct IH as [Hs Hc]; [lia|].
  assert (Hr : forall sk, room 1 sk (foldl step New ops))
    by (intros sk; unfold room; specialize (Hc sk); lia).
  split.
  - destruct o as [sk d|k]; cbn [step]; [by apply (set_scoped_fresh 0)|by apply delete_scoped].
  - intros sk. pose proof (counter_step _ o sk Hs (Hr sk)). specialize (Hc sk). lia.
Qed.

(** The in-memory database implements the abstract interface on every
    operation and error branch: a lookup after an insertion, a scoped
    insertion or a deletion is the lookup in the updated finite map, nil keys
    are refused without touching the state, and listing visits exactly the
    stored pairs with the given prefix. *)
Theorem memory_refines_map (mdb : MemDB) (k k' sk : bytes) (d : slice) (prefix : slice)
    (range : gmap bytes bytes -> list (bytes * bytes)) :
  (forall mm, range mm ≡ₚ map_to_list mm) ->
  (mem_Get (Some k') (mem_Set (Some k) d mdb).2 =
     if decide (k = k') then Ok (slice_bytes d) else mem_Get (Some k') mdb) /\
  (mem_Get (Some k') (mem_Delete (Some k) mdb).2 =
     if decide (k = k') then Err ErrNotFound else mem_Get (Some k') mdb) /\
  (exists g, mem_SetScoped (Some sk) d mdb =
     (Ok (sk ++ g), (mem_SetScoped (Some sk) d mdb).2) /\ length g = 8%nat /\
     mem_Get (Some k') (mem_SetScoped (Some sk) d mdb).2 =
       if decide (sk ++ g = k') then Ok (slice_bytes d) else mem_Get (Some k') mdb) /\
  (mem_Exists (Some k') mdb = Ok true <-> exists v, mem_Get (Some k') mdb = Ok v) /\
  mem_Set None d mdb = (Err ErrNilKey, mdb) /\ mem_SetScoped None d mdb = (Err ErrNilKey, mdb) /\
  mem_Delete None mdb = (Err ErrNilKey, mdb) /\ mem_Get None mdb = Err ErrNilKey /\
  (exists entries, mem_ListItems range (fun acc i => Ok (acc ++ [(item_key i, item_val i)])) prefix [] mdb
     = Ok entries /\ entries ≡ₚ filter (fun e => listed prefix e = true) (map_to_list (m mdb))).
Proof.
  intros Hrange. split_and!; try done.
  - cbn. rewrite lookup_insert. by case_decide.
  - cbn. rewrite lookup_delete. by case_decide.
  - eexists. split_and!; [done|done|]. cbn. rewrite lookup_insert. by case_decide.
  - cbn. destruct (m mdb !! k') eqn:E.
    + rewrite bool_decide_eq_true_2 by eauto. naive_solver.
    + rewrite bool_decide_eq_false_2 by (intros [? ?]; congruence). naive_solver.
  - assert (Hcollect : forall es acc, range_items (A := list (bytes * bytes))
        (fun acc i => Ok (acc ++ [(item_key i, item_val i)])) None acc es = Ok (acc ++ es)).
    { induction es as [|[x y] es IH]; intros acc; cbn; [by rewrite app_nil_r|].
      rewrite IH, <- app_assoc. done. }
    eexists. unfold mem_ListItems. rewrite range_items_filter, Hcollect. split; [done|].
    by rewrite Hrange.
Qed.

Lemma memory_refines_map_witness :
  mem_Get (Some (str_bytes "k")) (mem_Set (Some (str_bytes "k")) (Some (str_bytes "v")) New).2
    = Ok (str_bytes "v").
Proof.
  apply (memory_refines_map New (str_bytes "k") (str_bytes "k") (str_bytes "s")
           (Some (str_bytes "v")) None map_to_list). done.
Defined.

(** In a database that is only filled through [SetScoped], no creation
    ever overwrites a stored value: after any history of fewer than
    [2^64 - 1] creations and deletions the generated key is new, and all
    other keys keep their values. *)
Theorem set_scoped_never_overwrites (ops : list op) (sk : bytes) (d : slice) :
  Z.of_nat (length ops) + 1 < 2 ^ 64 ->
  exists key mdb', mem_SetScoped (Some sk) d (run ops) = (Ok key, mdb') /\
    sk `prefix_of` key /\ m (run ops) !! key = None /\
    mem_Get (Some key) mdb' = Ok (slice_bytes d) /\
    (forall k', k' <> key -> mem_Get (Some k') mdb' = mem_Get (Some k') (run ops)).
Proof.
  intros Hlen. destruct (run_scoped ops Hlen) as [Hs Hc].
  assert (Hr : room 1 sk (run ops)) by (unfold room; specialize (Hc sk); lia).
  eexists _, _. split; [reflexivity|]. split_and!.
  - by eexists.
  - by apply (set_scoped_fresh 0 _ _ d).
  - cbn. by rewrite lookup_insert_eq.
  - intros k' Hne. unfold mem_Get. cbn [m]. by rewrite lookup_insert_ne.
Qed.

Lemma set_scoped_never_overwrites_witness :
  exists key mdb', mem_SetScoped (Some (str_bytes "d:a:")) (Some (str_bytes "v2"))
      (run [OpSetScoped (str_bytes "d:a:") (Some (str_bytes "v1"))]) = (Ok key, mdb') /\
    mem_Get (Some key) mdb' = Ok (str_bytes "v2").
Proof.
  destruct (set_scoped_never_overwrites [OpSetScoped (str_bytes "d:a:") (Some (str_bytes "v1"))]
    (str_bytes "d:a:") (Some (str_bytes "v2"))) as (key & mdb' & H & _ & _ & Hg & _); [cbn; lia|].
  exists key, mdb'. split; [exact H|exact Hg].
Defined.
End Memory.
