(* ===== verification/GoStrings.v ===== *)
(** * The functions of Go's [strings] package that the sources use

    [Count], [Replace] with a limit of one, [HasPrefix], [HasSuffix],
    [TrimPrefix], [TrimSpace], [Join], [Split] at a byte and [Contains], on Go
    strings; [Unicode] has [ToLower] and [ToUpper]. *)

From S2P Require Import Prelude.

(** [s[n:]] *)
Fixpoint str_drop (n : nat) (s : string) : string :=
  match n, s with
  | O, _ => s
  | S n', String _ s' => str_drop n' s'
  | S _, EmptyString => EmptyString
  end.

(** [strings.HasPrefix(s, p)] *)
Fixpoint HasPrefix (s p : string) : bool :=
  match p, s with
  | EmptyString, _ => true
  | String _ _, EmptyString => false
  | String a p', String b s' => bool_decide (a = b) && HasPrefix s' p'
  end.

(** [strings.HasSuffix(s, p)] *)
Fixpoint HasSuffix (s p : string) : bool :=
  bool_decide (s = p) ||
  match s with EmptyString => false | String _ s' => HasSuffix s' p end.

(** [strings.Replace(s, old, new, 1)] for a non-empty [old]: the leftmost
    occurrence only. *)
Fixpoint Replace1 (s old new : string) : string :=
  if HasPrefix s old then new +:+ str_drop (String.length old) s
  else match s with
       | EmptyString => EmptyString
       | String a s' => String a (Replace1 s' old new)
       end.

(** [strings.Count(s, sub)] for a non-empty [sub]: leftmost non-overlapping
    occurrences.  Every round consumes a byte, so [String.length s + 1] rounds
    are enough. *)
Fixpoint Count_ (fuel : nat) (s sub : string) : nat :=
  match fuel with
  | O => 0
  | S fuel' =>
      if HasPrefix s sub then S (Count_ fuel' (str_drop (String.length sub) s) sub)
      else match s with
           | EmptyString => 0
           | String _ s' => Count_ fuel' s' sub
           end
  end.

Definition Count (s sub : string) : nat := Count_ (S (String.length s)) s sub.

Definition TrimPrefix (s p : string) : string :=
  if HasPrefix s p then str_drop (String.length p) s else s.

Definition is_space (a : Ascii.ascii) : bool :=
  bool_decide (Ascii.nat_of_ascii a ∈ [9; 10; 11; 12; 13; 32]%nat).

Fixpoint trim_left (s : string) : string :=
  match s with
  | String a s' => if is_space a then trim_left s' else s
  | EmptyString => EmptyString
  end.

Fixpoint str_rev (s acc : string) : string :=
  match s with
  | EmptyString => acc
  | String a s' => str_rev s' (String a acc)
  end.

(** [strings.TrimSpace] on ASCII strings. *)
Definition TrimSpace (s : string) : string :=
  str_rev (trim_left (str_rev (trim_left s) EmptyString)) EmptyString.

(** [strings.Join(l, sep)] *)
Fixpoint Join (l : list string) (sep : string) : string :=
  match l with
  | [] => EmptyString
  | [x] => x
  | x :: l' => x +:+ sep +:+ Join l' sep
  end.

(** [strings.Split(s, sep)] for a separator of one byte. *)
Fixpoint Split1 (s : string) (sep : Ascii.ascii) : list string :=
  match s with
  | EmptyString => [EmptyString]
  | String a s' =>
      if bool_decide (a = sep) then EmptyString :: Split1 s' sep
      else match Split1 s' sep with
           | x :: l => String a x :: l
           | [] => [String a EmptyString]
           end
  end.

(** [strings.Contains(s, sub)] *)
Fixpoint Contains (s sub : string) : bool :=
  HasPrefix s sub || match s with EmptyString => false | String _ s' => Contains s' sub end.

(** ** Facts *)
Lemma app_cons a s t : String a s +:+ t = String a (s +:+ t).
Proof. done. Qed.

Lemma app_empty s : EmptyString +:+ s = s.
Proof. done. Qed.

Lemma str_app_assoc (s t u : string) : (s +:+ t) +:+ u = s +:+ (t +:+ u).
Proof. induction s as [|a s IH]; [done|]. rewrite !app_cons. by rewrite IH. Qed.

Lemma str_app_empty_r (s : string) : s +:+ EmptyString = s.
Proof. induction s as [|a s IH]; [done|]. rewrite app_cons. by rewrite IH. Qed.

Lemma str_app_inj_l (s t u : string) : s +:+ t = s +:+ u -> t = u.
Proof. induction s as [|a s IH]; [done|]. rewrite !app_cons. intros [= H]. auto. Qed.

Lemma str_length_app (s t : string) :
  String.length (s +:+ t) = (String.length s + String.length t)%nat.
Proof. induction s as [|a s IH]; [done|]. rewrite app_cons. cbn. by rewrite IH. Qed.

Lemma HasPrefix_app p s : HasPrefix (p +:+ s) p = true.
Proof. induction p as [|a p IH]; [by destruct s|]. rewrite app_cons. cbn. by rewrite bool_decide_eq_true_2. Qed.

Lemma str_drop_app p s : str_drop (String.length p) (p +:+ s) = s.
Proof. induction p as [|a p IH]; [by destruct s|]. rewrite app_cons. cbn. done. Qed.

(** Removing or replacing a leading occurrence. *)
Lemma Replace1_prefix old new s :
  Replace1 (old +:+ s) old new = new +:+ s.
Proof.
  destruct (old +:+ s) eqn:E.
  - unfold Replace1. rewrite <- E at 1. rewrite HasPrefix_app.
    replace EmptyString with (old +:+ s) by done. by rewrite str_drop_app.
  - cbn [Replace1]. rewrite <- E. by rewrite HasPrefix_app, str_drop_app.
Qed.

(** A string in which a character does not occur. *)
Fixpoint char_free (c : Ascii.ascii) (s : string) : bool :=
  match s with
  | EmptyString => true
  | String a s' => negb (bool_decide (a = c)) && char_free c s'
  end.

(** When the part before [String c old] is free of [c], that occurrence is the
    leftmost one. *)
Lemma Replace1_free c old new p s :
  char_free c p = true ->
  Replace1 (p +:+ String c old +:+ s) (String c old) new = p +:+ new +:+ s.
Proof.
  induction p as [|a p IH]; intros Hp.
  - rewrite !app_empty. apply Replace1_prefix.
  - cbn in Hp. apply andb_true_iff in Hp as [Ha Hp].
    apply negb_true_iff, bool_decide_eq_false in Ha.
    rewrite app_cons. cbn [Replace1 HasPrefix].
    rewrite bool_decide_eq_false_2 by congruence. cbn [andb]. by rewrite IH.
Qed.
