(* ===== verification/Jwt.v ===== *)
(** * JWT authentication ([server/jwt], [client/itsyouonline/permission.go])

    The verifier of the server: which scopes a method needs in a namespace,
    which scopes a token grants, and the cache of verified tokens.  The token
    parser ([jwt-go]) and the cache ([ccache]) are third-party code: they are
    parameters, with their documented behaviour as laws.  The scopes a client
    asks for ([Permission.Scopes]) are modelled here as well, because the two
    sides have to agree. *)

From Stdlib Require Import Ascii.
From S2P Require Import Prelude GoStrings.
Open Scope Z_scope.

(** ** Methods *)
Inductive Method := MethodWrite | MethodRead | MethodDelete | MethodAdmin.

#[export] Instance Method_eq_dec : EqDecision Method.
Proof. solve_decision. Defined.

(** [1 << iota] *)
Definition Method_value (m : Method) : Z :=
  match m with MethodWrite => 1 | MethodRead => 2 | MethodDelete => 4 | MethodAdmin => 8 end.

Definition Method_String (m : Method) : string :=
  match m with
  | MethodWrite => "write"
  | MethodRead => "read"
  | MethodDelete => "delete"
  | MethodAdmin => "admin"
  end.

(** ** gRPC request metadata: [metadata.FromIncomingContext] *)
Abbreviation metadata := (option (gmap string (list string))).

Definition MetaAuthKey : string := "authorization".
Definition MetaLabelKey : string := "label".

Definition ErrNoJWTToken := ErrVar "jwt" "ErrNoJWTToken" "No jwt token in context".
Definition ErrWrongScopes :=
  ErrVar "jwt" "ErrWrongScopes" "JWT token doesn't contains required scopes".

Definition extractJWTToken (ctx : metadata) : outcome string :=
  match ctx with
  | None => Err ErrNoJWTToken
  | Some md =>
      match md !! MetaAuthKey with
      | Some (token :: _) => Ok token
      | _ => Err ErrNoJWTToken
      end
  end.

(** ** Scopes *)
Definition zstor_infix : string := "_0stor_".
Definition memberof : string := "user:memberof:".

Definition validateNamespaceLabel (nsid : string) : outcome unit :=
  if negb (Count nsid zstor_infix =? 1)%nat || HasSuffix nsid zstor_infix
  then Err (ErrNew ("Invalid namespace label: " +:+ nsid))
  else Ok tt.

Definition expectedScopes (method : Method) (label : string) : outcome (list string) :=
  let! _ := validateNamespaceLabel label in
  let adminScope := Replace1 label zstor_infix ".0stor." in
  if bool_decide (method = MethodAdmin) then Ok [adminScope]
  else Ok [adminScope +:+ "." +:+ Method_String method; adminScope].

Fixpoint any_equal (scope : string) (expected : list string) : bool :=
  match expected with
  | [] => false
  | e :: es => if bool_decide (scope = e) then true else any_equal scope es
  end.

Fixpoint checkPermissions (expectedScopes userScopes : list string) : bool :=
  match userScopes with
  | [] => false
  | scope :: rest =>
      if any_equal (Replace1 scope memberof "") expectedScopes then true
      else checkPermissions expectedScopes rest
  end.

(** ** Tokens

    A parsed token: its signing method, validity flag and claims, as far as
    the verifier looks at them.  [cl_scope] is [None] when the claim is not a
    list, an element is [None] when it is not a string; [cl_exp] is [None]
    when the claim is not a number. *)
Record Claims := { cl_scope : option (list (option string)); cl_exp : option Z }.

Record Token := { tok_method : string; tok_valid : bool; tok_claims : option Claims }.

Record jwtCacheVal := { valid : bool; scopes : list string }.

(** A cache item carries its expiry time in nanoseconds. *)
Record cacheItem := { ci_value : jwtCacheVal; ci_expires : Z }.

(** [ccache.Cache]: a lookup, an insertion with a duration, a deletion.  The
    cache is bounded and may drop entries at any time. *)
Class TokenCache (C : Type) := {
  cache_get : string -> C -> option cacheItem;
  cache_set : string -> cacheItem -> C -> C;
  cache_delete : string -> C -> C;
}.

Class TokenCacheLaws (C : Type) `{TokenCache C} := {
  cache_set_get k i c k' i' :
    cache_get k' (cache_set k i c) = Some i' ->
    (k' = k /\ i' = i) \/ (k' <> k /\ cache_get k' c = Some i');
  cache_delete_get k c k' i' :
    cache_get k' (cache_delete k c) = Some i' -> k' <> k /\ cache_get k' c = Some i';
}.

(** An unbounded cache, as an instance of the laws. *)
#[export] Instance map_cache : TokenCache (gmap string cacheItem) := {|
  cache_get k c := c !! k;
  cache_set k i c := <[k := i]> c;
  cache_delete k c := delete k c;
|}.

#[export] Instance map_cache_laws : TokenCacheLaws (gmap string cacheItem).
Proof.
  split.
  - intros k i c k' i' H. cbn in H. rewrite lookup_insert in H. case_decide; naive_solver.
  - intros k c k' i' H. cbn in H. apply lookup_delete_Some in H as [Hne H]. by split.
Qed.

Definition second : Z := 10 ^ 9.

Section Verifier.
(** [jwtgo.Parse(s, keyFunc)], which also checks the time claims against the
    clock, and the key of the verifier. *)
Context {Key : Type} (Parse : Z -> string -> (Token -> outcome Key) -> outcome Token) (key : Key).
Context {C : Type} `{TokenCache C}.

(** The key callback: only ES384 tokens get the key. *)
Definition keyFunc (token : Token) : outcome Key :=
  if negb (bool_decide (tok_method token = "ES384"))
  then Err (ErrNew ("Unexpected signing method: " +:+ tok_method token))
  else Ok key.

Fixpoint scope_strings (l : list (option string)) : outcome (list string) :=
  match l with
  | [] => Ok []
  | None :: _ => Panic "interface conversion: interface {} is not string"
  | Some s :: l' => let! rest := scope_strings l' in Ok (s :: rest)
  end.

Definition checkJWTGetScopes (now : Z) (tokenStr : string) : outcome (list string * Z) :=
  let jwtStr := TrimSpace (TrimPrefix tokenStr "Bearer") in
  let! token := Parse now jwtStr keyFunc in
  match tok_claims token with
  | Some claims =>
      if negb (tok_valid token) then Err (ErrNew "invalid token")
      else match cl_scope claims with
           | None => Panic "interface conversion: interface {} is not []interface {}"
           | Some l =>
               let! scopes := scope_strings l in
               match cl_exp claims with
               | None => Err (ErrNew "invalid expiration claims in token")
               | Some exp => Ok (scopes, exp)
               end
           end
  | None => Err (ErrNew "invalid token")
  end.

(** [Ok None] is a miss ([nil, nil]). *)
Definition getScopesFromCache (token : string) (now : Z) (cache : C)
  : outcome (option (list string)) * C :=
  match cache_get token cache with
  | None => (Ok None, cache)
  | Some item =>
      if negb (valid (ci_value item)) then (Err (ErrNew "invalid token"), cache)
      else if ci_expires item <? now
      then (Err (ErrNew "expired token"), cache_delete token cache)
      else (Ok (match scopes (ci_value item) with [] => None | l => Some l end), cache)
  end.

(** The part of [getScopes] after a cache miss: check the token and remember
    the verdict. *)
Definition verifyAndCache (token : string) (now : Z) (cache : C) : outcome (list string) * C :=
  let invalid := {| ci_value := {| valid := false; scopes := [] |};
                    ci_expires := now + 24 * 3600 * second |} in
  match checkJWTGetScopes now token with
  | Panic s => (Panic s, cache)
  | Err e => (Err e, cache_set token invalid cache)
  | Ok (l, exp) =>
      if exp * second - now <? 0
      then (Err (ErrNew "expired token"), cache_set token invalid cache)
      else (Ok l, cache_set token {| ci_value := {| valid := true; scopes := l |};
                                     ci_expires := exp * second |} cache)
  end.

Definition getScopes (token : string) (now : Z) (cache : C) : outcome (list string) * C :=
  match getScopesFromCache token now cache with
  | (Err e, cache') => (Err e, cache')
  | (Panic s, cache') => (Panic s, cache')
  | (Ok (Some l), cache') => (Ok l, cache')
  | (Ok None, cache') => verifyAndCache token now cache'
  end.

Definition ValidateJWT (ctx : metadata) (method : Method) (label : string) (now : Z) (cache : C)
  : outcome unit * C :=
  match extractJWTToken ctx with
  | Err e => (Err e, cache)
  | Panic s => (Panic s, cache)
  | Ok token =>
      match getScopes token now cache with
      | (Err e, cache') => (Err e, cache')
      | (Panic s, cache') => (Panic s, cache')
      | (Ok l, cache') =>
          (let! expected := expectedScopes method label in
           if negb (checkPermissions expected l) then Err ErrWrongScopes else Ok tt, cache')
      end
  end.
End Verifier.

(** ** Permissions of a client ([client/itsyouonline/permission.go]) *)
Record Permission := { Read : bool; Write : bool; Delete_ : bool; Admin : bool }.

Definition perms (p : Permission) : list string :=
  (if Read p then ["read"%string] else []) ++
  (if Write p then ["write"%string] else []) ++
  (if Delete_ p then ["delete"%string] else []) ++
  (if Admin p then ["admin"%string] else []).

(** The scope prefix ends with a dot, which the admin scope leaves off. *)
Definition Scopes (p : Permission) (org namespace : string) : list string :=
  let scopeBase := memberof +:+ org +:+ "." +:+ namespace in
  map (fun q => if bool_decide (q = "admin"%string) then scopeBase else scopeBase +:+ "." +:+ q) (perms p).

(** Whether a permission allows a method: its own flag, or administration. *)
Definition allows (p : Permission) (m : Method) : bool :=
  Admin p ||
  match m with
  | MethodWrite => Write p
  | MethodRead => Read p
  | MethodDelete => Delete_ p
  | MethodAdmin => false
  end.

(** ** Lemmas *)
Lemma any_equal_spec s l : any_equal s l = true <-> s ∈ l.
Proof.
  induction l as [|e l IH]; cbn; [set_solver|].
  case_bool_decide; [set_solver|]. rewrite IH. set_solver.
Qed.

Lemma checkPermissions_spec expected l :
  checkPermissions expected l = true <-> exists s, s ∈ l /\ Replace1 s memberof "" ∈ expected.
Proof.
  induction l as [|s l IH]; cbn [checkPermissions]; [set_solver|].
  destruct (any_equal _ _) eqn:E.
  - apply any_equal_spec in E. set_solver.
  - rewrite IH. assert (Replace1 s memberof "" ∉ expected) by (rewrite <- any_equal_spec; congruence).
    split; [set_solver|]. intros (x & Hx & Hr). exists x. set_solver.
Qed.

Lemma expectedScopes_label method org ns :
  char_free "_"%char org = true ->
  validateNamespaceLabel (org +:+ "_0stor_" +:+ ns) = Ok tt ->
  expectedScopes method (org +:+ "_0stor_" +:+ ns) =
    let base := org +:+ "." +:+ "0stor." +:+ ns in
    Ok (if bool_decide (method = MethodAdmin) then [base]
        else [base +:+ "." +:+ Method_String method; base]).
Proof.
  intros Horg Hv. unfold expectedScopes. rewrite Hv. cbn [obind].
  unfold zstor_infix. rewrite (Replace1_free "_"%char "0stor_" ".0stor." org ns Horg).
  by case_bool_decide.
Qed.

Lemma str_app_self (s t : string) : s = s +:+ t -> t = "".
Proof. intros H. rewrite <- (str_app_empty_r s) in H at 1. by apply str_app_inj_l in H. Qed.

(** ** Properties *)

(** Client and server agree on authorization.  A token that carries the
    scopes a client requests for permission [p] in a namespace passes the
    server's scope check for a method exactly when [p] has that method's flag
    or the admin flag: a read token reads and neither writes nor deletes. *)
Theorem permissions_agree (p : Permission) (m : Method) (org ns : string) :
  char_free "_"%char org = true ->
  validateNamespaceLabel (org +:+ "_0stor_" +:+ ns) = Ok tt ->
  exists expected, expectedScopes m (org +:+ "_0stor_" +:+ ns) = Ok expected /\
    checkPermissions expected (Scopes p org ("0stor" +:+ "." +:+ ns)) = allows p m.
Proof.
  intros Horg Hv. rewrite expectedScopes_label by done. eexists. split; [done|].
  set (base := org +:+ "." +:+ "0stor." +:+ ns).
  assert (Hscopes : Scopes p org ("0stor" +:+ "." +:+ ns) =
    map (fun q => memberof +:+ if bool_decide (q = "admin"%string) then base else base +:+ "." +:+ q) (perms p)).
  { unfold Scopes, base. apply map_ext. intros q. by case_bool_decide. }
  rewrite Hscopes. apply eq_true_iff_eq. rewrite checkPermissions_spec.
  setoid_rewrite list_elem_of_In. setoid_rewrite in_map_iff.
  assert (Hbase : forall q, base <> base +:+ "." +:+ q) by (intros q H; apply str_app_self in H; done).
  assert (Hinj : forall q r, base +:+ "." +:+ q = base +:+ "." +:+ r -> q = r).
  { intros q r H. by do 2 apply str_app_inj_l in H. }
  split.
  - intros (s & (q & <- & Hq) & Hin). rewrite Replace1_prefix, app_empty in Hin.
    unfold perms in Hq. unfold allows.
    destruct (Read p), (Write p), (Delete_ p), (Admin p), m; cbn in Hq, Hin |- *; try done;
      repeat destruct Hq as [Hq|Hq]; subst; cbn in Hin; naive_solver.
  - intros Ha.
    assert (Hq : exists q, In q (perms p) /\
      (if bool_decide (q = "admin"%string) then base else base +:+ "." +:+ q) ∈
      (if bool_decide (m = MethodAdmin) then [base] else [base +:+ "." +:+ Method_String m; base])).
    { unfold allows in Ha. apply orb_true_iff in Ha as [Ha|Ha].
      - exists "admin"%string. unfold perms. rewrite Ha. split; [rewrite !in_app_iff; cbn; tauto|].
        destruct m; cbn; set_solver.
      - exists (Method_String m). unfold perms.
        destruct m; [| | |done]; rewrite Ha, !in_app_iff; cbn; (split; [tauto|set_solver]). }
    destruct Hq as (q & Hq & Hin).
    eexists. split; [by exists q|]. by rewrite Replace1_prefix, app_empty, <- list_elem_of_In.
Qed.

Lemma permissions_agree_witness :
  exists expected, expectedScopes MethodWrite ("org" +:+ "_0stor_" +:+ "ns") = Ok expected /\
    checkPermissions expected
      (Scopes {| Read := true; Write := false; Delete_ := false; Admin := false |} "org" ("0stor" +:+ "." +:+ "ns"))
    = false.
Proof.
  apply (permissions_agree {| Read := true; Write := false; Delete_ := false; Admin := false |}
    MethodWrite "org" "ns"); vm_compute; reflexivity.
Defined.

(** ** The token cache *)
Section Cache.
Context {Key : Type} (Parse : Z -> string -> (Token -> outcome Key) -> outcome Token) (key : Key).
Context {C : Type} `{TokenCacheLaws C}.

(** [jwt-go] returns a token only after it verified the signature with the
    key that the callback returned for it. *)
Context (signed : Key -> string -> Prop).
Context (Parse_verifies : forall now s kf token,
  Parse now s kf = Ok token -> exists k, kf token = Ok k /\ signed k s).

Local Abbreviation check := (checkJWTGetScopes Parse key).

(** Every cached positive verdict was the result of a check, and its entry
    expires with the token. *)
Definition cache_sound (now : Z) (cache : C) : Prop :=
  forall t i, cache_get t cache = Some i -> valid (ci_value i) = true ->
    exists t0 exp, t0 <= now /\ check t0 t = Ok (scopes (ci_value i), exp) /\
      ci_expires i = exp * second.

Lemma cache_sound_mono now now' cache :
  now <= now' -> cache_sound now cache -> cache_sound now' cache.
Proof using. intros Hle Hs t i Hg Hv. destruct (Hs t i Hg Hv) as (t0 & exp & ? & ? & ?).
  exists t0, exp. split_and!; [lia|done..]. Qed.

Lemma cache_sound_set now t i cache :
  cache_sound now cache ->
  (valid (ci_value i) = true -> exists t0 exp, t0 <= now /\
    check t0 t = Ok (scopes (ci_value i), exp) /\ ci_expires i = exp * second) ->
  cache_sound now (cache_set t i cache).
Proof using H0.
  intros Hs Hi t' i' Hg Hv. apply cache_set_get in Hg as [[-> ->]|[_ Hg]]; [auto|].
  by apply (Hs t' i').
Qed.

Lemma cache_sound_delete now t cache :
  cache_sound now cache -> cache_sound now (cache_delete t cache).
Proof using H0. intros Hs t' i' Hg Hv. apply cache_delete_get in Hg as [_ Hg]. by apply (Hs t' i'). Qed.

(** What a verdict has to satisfy. *)
Definition verdict_sound (now : Z) (t : string) (r : outcome (list string)) : Prop :=
  forall l, r = Ok l -> exists t0 exp, t0 <= now /\ check t0 t = Ok (l, exp) /\ now <= exp * second.

Lemma verifyAndCache_sound now t cache r cache' :
  cache_sound now cache -> verifyAndCache Parse key t now cache = (r, cache') ->
  cache_sound now cache' /\ verdict_sound now t r.
Proof using H0.
  intros Hs. unfold verifyAndCache, verdict_sound. destruct (check now t) as [[l exp]|e|p] eqn:Hc.
  - destruct (Z.ltb_spec (exp * second - now) 0); intros [= <- <-].
    + split; [by apply cache_sound_set|done].
    + split; [apply cache_sound_set; [done|]; intros _; exists now, exp; by split_and!|].
      intros l' [= <-]. exists now, exp. split_and!; [lia|done|lia].
  - intros [= <- <-]. split; [by apply cache_sound_set|done].
  - intros [= <- <-]. done.
Qed.

Lemma getScopes_sound now t cache r cache' :
  cache_sound now cache -> getScopes Parse key t now cache = (r, cache') ->
  cache_sound now cache' /\ verdict_sound now t r.
Proof using H0.
  intros Hs. unfold getScopes, getScopesFromCache.
  destruct (cache_get t cache) as [i|] eqn:Hg; [|by apply verifyAndCache_sound].
  destruct (valid (ci_value i)) eqn:Hv; cbn [negb]; [|intros [= <- <-]; done].
  destruct (Z.ltb_spec (ci_expires i) now) as [|Hexp].
  { intros [= <- <-]. split; [by apply cache_sound_delete|done]. }
  destruct (scopes (ci_value i)) eqn:Hsc; [by apply verifyAndCache_sound|].
  intros [= <- <-]. split; [done|]. intros l' [= <-].
  destruct (Hs t i Hg Hv) as (t0 & exp & Ht0 & Hc & He).
  exists t0, exp. rewrite <- Hsc. split_and!; [done|done|lia].
Qed.

Lemma check_signed now t l exp :
  check now t = Ok (l, exp) -> signed key (TrimSpace (TrimPrefix t "Bearer")).
Proof using Parse_verifies.
  unfold checkJWTGetScopes. intros Hc. apply obind_Ok_inv in Hc as (token & Hp & _).
  apply Parse_verifies in Hp as (k & Hk & Hsig). unfold keyFunc in Hk.
  case_bool_decide; by simplify_eq/=.
Qed.

(** Authentication is sound, cache included: when a request is accepted
    at time [now], its token is signed with the verifier's key, was found
    valid by a check at or before [now], has not expired at [now], and grants
    one of the scopes that the method needs in the namespace.  The cache
    keeps the property that makes this true, whatever entries it drops. *)
Lemma ValidateJWT_sound (ctx : metadata) (method : Method) (label : string)
    (now now' : Z) (cache cache' : C) (r : outcome unit) :
  cache_sound now' cache -> now' <= now ->
  ValidateJWT Parse key ctx method label now cache = (r, cache') ->
  cache_sound now cache' /\
  (r = Ok tt -> exists t l t0 exp expected,
     extractJWTToken ctx = Ok t /\ t0 <= now /\ check t0 t = Ok (l, exp) /\ now <= exp * second /\
     signed key (TrimSpace (TrimPrefix t "Bearer")) /\
     expectedScopes method label = Ok expected /\
     exists s, s ∈ l /\ Replace1 s memberof "" ∈ expected).
Proof using H0 Parse_verifies.
  intros Hs Hle. apply (cache_sound_mono _ now) in Hs; [|done]. unfold ValidateJWT.
  destruct (extractJWTToken ctx) as [t|e|p] eqn:Ht; [|intros [= <- <-]; done..].
  destruct (getScopes Parse key t now cache) as [[l|e|p] c1] eqn:Hg;
    destruct (getScopes_sound _ _ _ _ _ Hs Hg) as [Hs1 Hok]; intros [= <- <-]; [|done..].
  split; [done|]. intros Hr.
  apply obind_Ok_inv in Hr as (expected & He & Hp).
  destruct (checkPermissions expected l) eqn:Hperm; [|done].
  destruct (Hok l eq_refl) as (t0 & exp & Ht0 & Hc & Hexp).
  exists t, l, t0, exp, expected. split_and!; try done.
  - by eapply check_signed.
  - by apply checkPermissions_spec.
Qed.

(** A negative verdict has no expiry: once the cache holds a token as
    invalid, every later request with that token is refused without a new
    check, at any time (also past the 24 hours given when it was stored), and
    the entry stays. *)
Theorem negative_cache_never_expires (ctx : metadata) (method : Method) (label t : string)
    (now : Z) (cache : C) (i : cacheItem) :
  extractJWTToken ctx = Ok t -> cache_get t cache = Some i -> valid (ci_value i) = false ->
  ValidateJWT Parse key ctx method label now cache = (Err (ErrNew "invalid token"), cache).
Proof using.
  intros Ht Hg Hv. unfold ValidateJWT, getScopes, getScopesFromCache.
  by rewrite Ht, Hg, Hv.
Qed.
End Cache.

(** A parser that accepts one token, for the witnesses. *)
Definition demo_parse (now : Z) (s : string) (kf : Token -> outcome unit) : outcome Token :=
  let token := {| tok_method := "ES384"; tok_valid := true;
                  tok_claims := Some {| cl_scope := Some [Some "user:memberof:o.0stor.n"%string];
                                        cl_exp := Some 100 |} |} in
  if bool_decide (s = "tok"%string) then let! _ := kf token in Ok token
  else Err (ErrNew "bad signature").

Definition demo_ctx : metadata := Some {[ MetaAuthKey := ["Bearer tok"%string] ]}.

Lemma demo_parse_verifies now s kf token :
  demo_parse now s kf = Ok token -> exists k, kf token = Ok k /\ s = "tok"%string.
Proof.
  unfold demo_parse. case_bool_decide; [|done].
  intros Hk; apply obind_Ok_inv in Hk as ([] & Hk & [= <-]). by exists tt.
Qed.

Lemma negative_cache_never_expires_witness :
  let bad := {| ci_value := {| valid := false; scopes := [] |}; ci_expires := 0 |} in
  ValidateJWT demo_parse tt demo_ctx MethodRead "o_0stor_n" (10 ^ 20) ({[ "Bearer tok"%string := bad ]} : gmap string cacheItem)
  = (Err (ErrNew "invalid token"), {[ "Bearer tok"%string := bad ]}).
Proof.
  eapply (negative_cache_never_expires demo_parse tt demo_ctx MethodRead "o_0stor_n" "Bearer tok" (10 ^ 20));
    vm_compute; reflexivity.
Defined.
