(* ===== verification/VerifierKey.v ===== *)
(** * The key of the JWT verifier ([server/jwt/verifier.go])

    [NewVerifier] parses a public key with jwt-go, and [DefaultVerifier] does so
    once with the key of itsyou.online that is part of the program, and panics
    when that fails.  Here is what these functions use of the standard library
    on the way from the text to a key of an elliptic curve -- PEM, base64, DER and
    the curves -- so that the embedded key can be checked.  A PEM text whose first
    block is malformed, certificates and keys of other algorithms are parameters. *)

From S2P Require Import Prelude GoStrings Jwt.
Open Scope Z_scope.

(** ** PEM ([encoding/pem]) *)
Module Pem.
Definition newline : bytes := [zb 10].
Definition pemStart : bytes := newline ++ str_bytes "-----BEGIN ".
Definition pemEnd : bytes := newline ++ str_bytes "-----END ".
Definition pemEndOfLine : bytes := str_bytes "-----".

(** [bytes.Index] *)
Fixpoint Index (s sub : bytes) : option nat :=
  if has_prefix s sub then Some O
  else match s with [] => None | _ :: s' => S <$> Index s' sub end.

Definition has_suffix (s suffix : bytes) : bool := has_prefix (reverse s) (reverse suffix).

Definition blank (b : byte) : bool := (bz b =? 32) || (bz b =? 9).

(** [bytes.TrimRight] of spaces and tabs. *)
Fixpoint trim_left (s : bytes) : bytes := match s with b :: s' => if blank b then trim_left s' else s | [] => [] end.
Definition trim_right (s : bytes) : bytes := reverse (trim_left (reverse s)).

(** A line without its end, and the rest. *)
Definition getLine (data : bytes) : bytes * bytes :=
  match Index data newline with
  | None => (trim_right data, [])
  | Some i =>
      let line := take i data in
      (trim_right (if has_suffix line [zb 13] then take (i - 1) line else line), drop (S i) data)
  end.

(** The lines with a colon are headers; whether there are some, and the rest,
    which must not be empty. *)
Fixpoint headers (fuel : nat) (some : bool) (rest : bytes) : option (bool * bytes) :=
  match fuel, rest with
  | S fuel', _ :: _ =>
      let '(line, next) := getLine rest in
      match Index line (str_bytes ":") with None => Some (some, rest) | Some _ => headers fuel' true next end
  | _, _ => None
  end.

Definition whitespace (b : byte) : bool := blank b || (bz b =? 13) || (bz b =? 10).
Definition removeWhitespace (s : bytes) : bytes := List.filter (fun b => negb (whitespace b)) s.

(** [base64.StdEncoding] *)
Definition digit (b : byte) : option Z :=
  let c := bz b in
  if (65 <=? c) && (c <=? 90) then Some (c - 65)
  else if (97 <=? c) && (c <=? 122) then Some (c - 71)
  else if (48 <=? c) && (c <=? 57) then Some (c + 4)
  else if c =? 43 then Some 62
  else if c =? 47 then Some 63
  else None.

Definition pad (b : byte) : bool := bz b =? 61.

(** Groups of four characters, of which the last may be padded. *)
Fixpoint base64 (fuel : nat) (s : bytes) : option bytes :=
  match fuel, s with
  | _, [] => Some []
  | S fuel', a :: b :: c :: d :: rest =>
      x ← digit a; y ← digit b;
      if pad c then (if pad d && bool_decide (rest = []) then Some [zb (x * 4 + Z.shiftr y 4)] else None)
      else
        z ← digit c;
        if pad d then (if bool_decide (rest = []) then Some [zb (x * 4 + Z.shiftr y 4); zb (Z.land y 15 * 16 + Z.shiftr z 2)] else None)
        else
          w ← digit d; tail ← base64 fuel' rest;
          Some (zb (x * 4 + Z.shiftr y 4) :: zb (Z.land y 15 * 16 + Z.shiftr z 2) :: zb (Z.land z 3 * 64 + w) :: tail)
  | _, _ => None
  end.

(** [pem.Decode], the bytes of the block.  [retry] is what is found after a
    block that is malformed. *)
Definition Decode (retry : bytes -> option bytes) (data : bytes) : option bytes :=
  let first := drop 1 pemStart in
  match (if has_prefix data first then Some (drop (length first) data)
         else (fun i => drop (i + length pemStart) data) <$> Index data pemStart) with
  | None => None
  | Some rest =>
      let '(typeLine, rest) := getLine rest in
      if negb (has_suffix typeLine pemEndOfLine) then retry rest
      else
        let typeLine := take (length typeLine - length pemEndOfLine) typeLine in
        match headers (length rest) false rest with
        | None => None
        | Some (some, rest) =>
            let end_ := if negb some && has_prefix rest (drop 1 pemEnd) then Some (0, length pemEnd - 1)%nat
                        else (fun i => (i, i + length pemEnd)%nat) <$> Index rest pemEnd in
            match end_ with
            | None => retry rest
            | Some (endIndex, endTrailerIndex) =>
                let endTrailer := drop endTrailerIndex rest in
                let endTrailerLen := (length typeLine + length pemEndOfLine)%nat in
                let restOfEndLine := drop endTrailerLen endTrailer in
                if (length endTrailer <? endTrailerLen)%nat || negb (has_prefix (take endTrailerLen endTrailer) typeLine)
                   || negb (has_suffix (take endTrailerLen endTrailer) pemEndOfLine) || negb (bool_decide ((getLine restOfEndLine).1 = []))
                then retry rest
                else match base64 (length rest) (removeWhitespace (take endIndex rest)) with
                     | Some b => Some b
                     | None => retry rest
                     end
            end
        end
  end.
End Pem.

(** ** DER ([encoding/asn1]) *)
Module Der.
(** The length of a value: one byte, or the number of bytes that give it, which
    have to be needed. *)
Definition parse_length (s : bytes) : option (nat * bytes) :=
  match s with
  | [] => None
  | b :: rest =>
      let n := bz b in
      if n <? 128 then Some (Z.to_nat n, rest)
      else
        let k := Z.to_nat (n - 128) in
        let v := foldl (fun acc c => acc * 256 + bz c) 0 (take k rest) in
        if (k =? 0)%nat || (4 <? k)%nat || (length rest <? k)%nat || (v <? 128) || bool_decide (head rest = Some (zb 0)) then None
        else Some (Z.to_nat v, drop k rest)
  end.

(** A value with the given tag, and what follows it. *)
Definition parse (tag : Z) (s : bytes) : option (bytes * bytes) :=
  match s with
  | t :: s' =>
      if negb (bz t =? tag) then None
      else '(n, rest) ← parse_length s'; if (length rest <? n)%nat then None else Some (take n rest, drop n rest)
  | [] => None
  end.

Definition SEQUENCE : Z := 48.
Definition OBJECT_IDENTIFIER : Z := 6.
Definition BIT_STRING : Z := 3.

(** [BitString.RightAlign] of a whole number of bytes; the number of bits that
    are not used comes first. *)
Definition bit_string (s : bytes) : option bytes :=
  match s with p :: data => if bz p =? 0 then Some data else None | [] => None end.

(** [publicKeyInfo]: the algorithm, its parameters, and the key. *)
Definition publicKeyInfo (der : bytes) : option (bytes * bytes * bytes) :=
  '(info, rest) ← parse SEQUENCE der;
  if negb (bool_decide (rest = [])) then None
  else
    '(algorithm, rest) ← parse SEQUENCE info;
    '(oid, params) ← parse OBJECT_IDENTIFIER algorithm;
    '(bits, rest) ← parse BIT_STRING rest;
    if negb (bool_decide (rest = [])) then None
    else data ← bit_string bits; Some (oid, params, data).
End Der.

(** ** Curves ([crypto/elliptic]) *)
Module Curve.
Record CurveParams := { P : Z; B : Z; BitSize : Z }.

Definition P256 : CurveParams := {|
  P := 2 ^ 256 - 2 ^ 224 + 2 ^ 192 + 2 ^ 96 - 1;
  B := 0x5ac635d8aa3a93e7b3ebbd55769886bc651d06b0cc53b0f63bce3c3e27d2604b; BitSize := 256 |}.
Definition P384 : CurveParams := {|
  P := 2 ^ 384 - 2 ^ 128 - 2 ^ 96 + 2 ^ 32 - 1;
  B := 0xb3312fa7e23ee7e4988e056be3f82d19181d9c6efe8141120314088f5013875ac656398d8a2ed19d2a85c8edd3ec2aef; BitSize := 384 |}.
Definition P521 : CurveParams := {|
  P := 2 ^ 521 - 1;
  B := 0x051953eb9618e1c9a1f929a21a0b68540eea2da725b99b315f3b8b489918ef109e156193951ec7e937b1652c0bd3bb1bf073573df883d2c34f1ef451fd46b503f00;
  BitSize := 521 |}.
Definition P224 : CurveParams := {|
  P := 2 ^ 224 - 2 ^ 96 + 1; B := 0xb4050a850c04b3abf54132565044b0b7d7bfd8ba270b39432355ffb4; BitSize := 224 |}.

(** y² = x³ - 3x + b *)
Definition IsOnCurve (c : CurveParams) (x y : Z) : bool := (y * y) mod P c =? (x * x * x - 3 * x + B c) mod P c.

Definition SetBytes (s : bytes) : Z := foldl (fun acc b => acc * 256 + bz b) 0 s.

Definition Unmarshal (c : CurveParams) (data : bytes) : option (Z * Z) :=
  let byteLen := Z.to_nat (Z.shiftr (BitSize c + 7) 3) in
  match data with
  | form :: coordinates =>
      if negb (length coordinates =? 2 * byteLen)%nat || negb (bz form =? 4) then None
      else
        let x := SetBytes (take byteLen coordinates) in
        let y := SetBytes (drop byteLen coordinates) in
        if (P c <=? x) || (P c <=? y) || negb (IsOnCurve c x y) then None else Some (x, y)
  | [] => None
  end.

Definition oid_of (l : list Z) : bytes := zb <$> l.
Definition namedCurveFromOID (oid : bytes) : option CurveParams :=
  if bool_decide (oid = oid_of [43; 129; 4; 0; 33]) then Some P224
  else if bool_decide (oid = oid_of [42; 134; 72; 206; 61; 3; 1; 7]) then Some P256
  else if bool_decide (oid = oid_of [43; 129; 4; 0; 34]) then Some P384
  else if bool_decide (oid = oid_of [43; 129; 4; 0; 35]) then Some P521
  else None.
End Curve.

(** ** Keys and verifiers *)
Section Keys.
(** Keys of other algorithms. *)
Context {K : Type}.

Inductive PublicKey := ECDSA (c : Curve.CurveParams) (x y : Z) | OtherKey (k : K).

Context (retry : bytes -> option bytes) (other_key : bytes -> bytes -> bytes -> option K) (ParseCertificate : bytes -> outcome PublicKey).

(** [x509.ParsePKIXPublicKey]; its errors are not looked at. *)
Definition ParsePKIXPublicKey (der : bytes) : option PublicKey :=
  '(algorithm, params, data) ← Der.publicKeyInfo der;
  if bool_decide (algorithm = Curve.oid_of [42; 134; 72; 206; 61; 2; 1]) then
    '(oid, rest) ← Der.parse Der.OBJECT_IDENTIFIER params;
    if negb (bool_decide (rest = [])) then None
    else c ← Curve.namedCurveFromOID oid; '(x, y) ← Curve.Unmarshal c data; Some (ECDSA c x y)
  else OtherKey <$> other_key algorithm params data.

Definition ErrKeyMustBePEMEncoded := ErrVar "jwtgo" "ErrKeyMustBePEMEncoded" "Invalid Key: Key must be PEM encoded PKCS1 or PKCS8 private key".
Definition ErrNotECPublicKey := ErrVar "jwtgo" "ErrNotECPublicKey" "Key is not a valid ECDSA public key".

Definition ParseECPublicKeyFromPEM (key : bytes) : outcome (Curve.CurveParams * Z * Z) :=
  match Pem.Decode retry key with
  | None => Err ErrKeyMustBePEMEncoded
  | Some block =>
      let! parsedKey := match ParsePKIXPublicKey block with Some k => Ok k | None => ParseCertificate block end in
      match parsedKey with ECDSA c x y => Ok (c, x, y) | OtherKey _ => Err ErrNotECPublicKey end
  end.

(** [2 << 11] *)
Definition jwtCacheSize : Z := Z.shiftl 2 11.

(** A verifier as it is made: its key and the size of its cache, which is empty. *)
Record NewlyMade := { v_key : Curve.CurveParams * Z * Z; v_cacheSize : Z }.

Definition NewVerifier (pubKeyStr : string) : outcome NewlyMade :=
  match ParseECPublicKeyFromPEM (str_bytes pubKeyStr) with
  | Ok pubKey => Ok {| v_key := pubKey; v_cacheSize := jwtCacheSize |}
  | Err err => Err (ErrNew ("failed to parse public key: " +:+ error_text err))
  | Panic p => Panic p
  end.

Definition iyoPublicKeyStr : string := "-----BEGIN PUBLIC KEY-----
MHYwEAYHKoZIzj0CAQYFK4EEACIDYgAES5X8XrfKdx9gYayFITc89wad4usrk0n2
7MjiGYvqalizeSWTHEpnd7oea9IQ8T5oJjMVH5cc0H5tFSKilFFeh//wngxIyny6
6+Vq5t5B0V0Ehy01+2ceEon2Y0XDkIKv
-----END PUBLIC KEY-----".

(** The variable, and whether [sync.Once] has run its function, also when that
    panicked. *)
Record default_state := { createDefVerifierOnce : bool; defVerifier : option NewlyMade }.

Definition initially : default_state := {| createDefVerifierOnce := false; defVerifier := None |}.

Definition DefaultVerifier (st : default_state) : outcome (option NewlyMade) * default_state :=
  if createDefVerifierOnce st then (Ok (defVerifier st), st)
  else match NewVerifier iyoPublicKeyStr with
  | Ok v => (Ok (Some v), {| createDefVerifierOnce := true; defVerifier := Some v |})
  | Err err => (Panic (error_text err), {| createDefVerifierOnce := true; defVerifier := None |})
  | Panic p => (Panic p, {| createDefVerifierOnce := true; defVerifier := defVerifier st |})
  end.

(** The key of itsyou.online. *)
Definition iyo_x : Z := 0x4b95fc5eb7ca771f6061ac8521373cf7069de2eb2b9349f6ecc8e2198bea6a58b37925931c4a6777ba1e6bd210f13e68.
Definition iyo_y : Z := 0x2633151f971cd07e6d1522a294515e87fff09e0c48ca7cbaebe56ae6de41d15d04872d35fb671e1289f66345c39082af.

Lemma iyo_key_parsed : ParseECPublicKeyFromPEM (str_bytes iyoPublicKeyStr) = Ok (Curve.P384, iyo_x, iyo_y).
Proof. vm_compute. reflexivity. Qed.

(** Making the default verifier does not panic, whatever the library does with
    malformed texts, certificates and keys of other algorithms: the embedded key
    is a point of P-384.  The verifier is made once. *)
Lemma default_verifier_made :
  exists v st, DefaultVerifier initially = (Ok (Some v), st) /\ v_key v = (Curve.P384, iyo_x, iyo_y) /\ v_cacheSize v = 4096 /\
    Curve.IsOnCurve Curve.P384 iyo_x iyo_y = true /\ DefaultVerifier st = (Ok (Some v), st).
Proof using.
  unfold DefaultVerifier at 1, NewVerifier. rewrite iyo_key_parsed. cbn [createDefVerifierOnce initially].
  eexists _, _. split; [reflexivity|]. split_and!; [reflexivity..|by vm_compute|reflexivity].
Qed.
End Keys.
