(* ===== verification/ServerAPI.v ===== *)
(** * The server API ([server/api], [server/api/grpc], [server/stats])

    The gRPC services of zstordb: the object and namespace handlers, written
    against the database interface, the authentication and statistics
    interceptors in front of them, and the error values they return. *)

From S2P Require Import Prelude GoStrings Encoding Keys DB Jwt.
Import Encoding.Encoding.
Open Scope Z_scope.

(** ** Errors of [rpctypes]: gRPC status codes and descriptions *)
Definition codes_OK := 0.
Definition codes_Unknown := 2.
Definition codes_InvalidArgument := 3.
Definition codes_NotFound := 5.
Definition codes_PermissionDenied := 7.
Definition codes_Unimplemented := 12.
Definition codes_Internal := 13.
Definition codes_DataLoss := 15.
Definition codes_Unauthenticated := 16.

Definition ErrGRPCNilKey := ErrStatus codes_InvalidArgument "zstordb: key is not provided".
Definition ErrGRPCNilData := ErrStatus codes_InvalidArgument "zstordb: data is not provided".
Definition ErrGRPCKeyNotFound := ErrStatus codes_NotFound "zstordb: key is no found".
Definition ErrGRPCDatabase := ErrStatus codes_Internal "zstordb: database operation failed".
Definition ErrGRPCObjectDataCorrupted := ErrStatus codes_DataLoss "zstordb: object data is corrupted".
Definition ErrGRPCNilLabel := ErrStatus codes_Unauthenticated "zstordb: no label given".
Definition ErrGRPCNilToken := ErrStatus codes_Unauthenticated "zstordb: no JWT token given".
Definition ErrGRPCUnimplemented :=
  ErrStatus codes_Unimplemented "zstordb: method support not implemented".
Definition ErrGRPCPermissionDenied :=
  ErrStatus codes_PermissionDenied "zstordb: JWT token does not permit requested action".

(** [errStringToError]: the server errors, found by their description. *)
Definition server_errors : list error :=
  [ErrGRPCNilKey; ErrGRPCNilData; ErrGRPCKeyNotFound; ErrGRPCDatabase; ErrGRPCObjectDataCorrupted;
   ErrGRPCNilLabel; ErrGRPCNilToken; ErrGRPCUnimplemented; ErrGRPCPermissionDenied].

Definition errStringToError (desc : string) : option error :=
  List.find (fun e => bool_decide (error_text e = desc)) server_errors.

(** [grpc.Code(err)] *)
Definition grpc_Code (e : error) : Z :=
  match e with ErrStatus code _ => code | _ => codes_Unknown end.

(** [rpctypes.Error] on a non-nil error. *)
Definition rpc_Error (e : error) : error :=
  match errStringToError (error_text e) with
  | None => e
  | Some verr => ErrZStor (grpc_Code verr) (error_text verr)
  end.

Definition ErrNilKey := rpc_Error ErrGRPCNilKey.
Definition ErrNilLabel := rpc_Error ErrGRPCNilLabel.
Definition ErrUnimplemented := rpc_Error ErrGRPCUnimplemented.
Definition ErrPermissionDenied := rpc_Error ErrGRPCPermissionDenied.
Definition ErrKeyNotFound := rpc_Error ErrGRPCKeyNotFound.
Definition ErrObjectDataCorrupted := rpc_Error ErrGRPCObjectDataCorrupted.

(** ** Request context *)
Definition extractStringFromContext (ctx : metadata) (key : string) : outcome string :=
  match ctx with
  | None => Err (ErrNew "no metadata found in grpc context")
  | Some md =>
      match md !! key with
      | Some (s :: _) => Ok s
      | _ => Err (ErrNew ("no " +:+ key +:+ " found metadata from grpc context"))
      end
  end.

(** The label of a request, or [ErrGRPCNilLabel], as every handler starts. *)
Definition request_label {St} (ctx : metadata) : prog St string :=
  on_err (fun _ => ErrGRPCNilLabel) (plift (extractStringFromContext ctx MetaLabelKey)).

(** ** Object status ([server/api/object.go]) *)
Definition ObjectStatusForObject `{DB St} (key : bytes) (db : St) : outcome ObjectStatus :=
  match Get (Some key) db with
  | Err e =>
      if bool_decide (e = ErrNotFound) then Ok ObjectStatusMissing else Err e
  | Panic p => Panic p
  | Ok data =>
      match ValidateData data with
      | Err _ => Ok ObjectStatusCorrupted
      | Panic p => Panic p
      | Ok tt => Ok ObjectStatusOK
      end
  end.

(** [pb.ObjectStatus], the wire enumeration. *)
Inductive pbObjectStatus := pbObjectStatusMissing | pbObjectStatusOK | pbObjectStatusCorrupted.

#[export] Instance pbObjectStatus_eq_dec : EqDecision pbObjectStatus.
Proof. solve_decision. Defined.

Definition convertStatus (status : ObjectStatus) : pbObjectStatus :=
  match status with
  | ObjectStatusOK => pbObjectStatusOK
  | ObjectStatusMissing => pbObjectStatusMissing
  | ObjectStatusCorrupted => pbObjectStatusCorrupted
  end.

(** ** The object service ([object_api.go]) *)
Section ObjectAPI.
Context `{DB St}.

Definition CreateObject (ctx : metadata) (data : bytes) : prog St bytes :=
  do! label := request_label ctx in
  if (length data =? 0)%nat then pfail ErrGRPCNilData
  else
    match EncodeObject {| Data := data |} with
    | Err e => ppanic (error_text e)
    | Panic p => ppanic p
    | Ok encodedData =>
        do! scopeKey := plift (DataScopeKey (Some (str_bytes label))) in
        do! key := on_err (fun _ => ErrGRPCDatabase) (SetScoped (Some scopeKey) (Some encodedData)) in
        plift (slice_from key (length scopeKey))
    end.

(** The database key of a request key, after the checks that the handlers
    share. *)
Definition request_key (label : string) (key : slice) : prog St bytes :=
  if (slice_len key =? 0)%nat then pfail ErrGRPCNilKey
  else plift (DataKey (Some (str_bytes label)) key).

Definition GetObject (ctx : metadata) (key : slice) : prog St bytes :=
  do! label := request_label ctx in
  do! key := request_key label key in
  do! rawData := on_err (fun e => if bool_decide (e = ErrNotFound) then ErrGRPCKeyNotFound
                              else ErrGRPCDatabase) (pread (Get (Some key))) in
  do! dataObject := on_err (fun _ => ErrGRPCObjectDataCorrupted) (plift (DecodeObject rawData)) in
  pret (Data dataObject).

Definition DeleteObject (ctx : metadata) (key : slice) : prog St unit :=
  do! label := request_label ctx in
  do! key := request_key label key in
  on_err (fun _ => ErrGRPCDatabase) (Delete (Some key)).

Definition GetObjectStatus (ctx : metadata) (key : slice) : prog St pbObjectStatus :=
  do! label := request_label ctx in
  do! key := request_key label key in
  do! status := on_err (fun _ => ErrGRPCDatabase) (pread (ObjectStatusForObject key)) in
  pret (convertStatus status).

(** The stream is a state with its [Send]. *)
Definition ListObjectKeys {Stream} (Send : Stream -> bytes -> outcome Stream)
    (ctx : metadata) (stream : Stream) : prog St Stream :=
  do! label := request_label ctx in
  do! scopeKey := plift (DataScopeKey (Some (str_bytes label))) in
  let scopeKeyLength := length scopeKey in
  pread (ListItems
    (fun stream item =>
       let n := length (item_key item) in
       if (n <? scopeKeyLength)%nat
       then Panic "invalid item key (filtered key is too short)"
       else if (n =? scopeKeyLength)%nat then Ok stream
       else Send stream (drop scopeKeyLength (item_key item)))
    (Some scopeKey) stream).
End ObjectAPI.

(** ** Behaviour of the handlers over the abstract database *)
Section Handlers.
Context `{DBLaws St}.

(** The database key of object [g] in the namespace [label]. *)
Definition dkey (label : string) (g : bytes) : bytes :=
  [Byte.x64; colon] ++ str_bytes label ++ [colon] ++ g.

Definition has_label (ctx : metadata) (label : string) : Prop :=
  extractStringFromContext ctx MetaLabelKey = Ok label.

Lemma request_label_ok ctx label (s : St) :
  has_label ctx label -> request_label ctx s = (Ok label, s).
Proof using. unfold request_label, on_err, plift. by intros ->. Qed.

Lemma request_label_err ctx e (s : St) :
  extractStringFromContext ctx MetaLabelKey = Err e -> request_label ctx s = (Err ErrGRPCNilLabel, s).
Proof using. unfold request_label, on_err, plift. by intros ->. Qed.

Lemma request_key_ok label g (s : St) :
  g <> [] -> request_key label (Some g) s = (Ok (dkey label g), s).
Proof using. intros Hg. unfold request_key. by destruct g. Qed.

Lemma CreateObject_spec ctx label data s :
  db_up s -> has_label ctx label -> data <> [] ->
  exists g s', CreateObject ctx data s = (Ok g, s') /\ db_up s' /\ length g = 8%nat /\
    db_map s' = <[dkey label g := package data]> (db_map s) /\
    (forall n, db_scoped s -> db_room (S n) (dkey label []) s ->
       db_map s !! dkey label g = None /\ db_scoped s' /\ db_room n (dkey label []) s' /\
       ~ db_issued (dkey label g) s /\ db_issued (dkey label g) s' /\ (forall k, db_issued k s -> db_issued k s')).
Proof using All.
  intros Hup Hl Hd. unfold CreateObject. rewrite (pbind_Ok _ _ _ _ _ (request_label_ok _ _ _ Hl)).
  rewrite EncodeObject_spec. cbn [Data].
  destruct (Nat.eqb_spec (length data) 0) as [E|_]; [by apply length_zero_iff_nil in E|].
  unfold DataScopeKey. set (sk := [Byte.x64; colon] ++ str_bytes label ++ [colon]).
  destruct (set_scoped_spec sk (Some (package data)) s Hup) as (g & s' & Hset & Hup' & Hlen & Hmap & Hfresh).
  assert (Hkey : sk ++ g = dkey label g) by (unfold sk, dkey; by rewrite <- !app_assoc).
  exists g, s'. unfold plift at 1. unfold pbind at 1. unfold pbind, on_err. rewrite Hset.
  unfold plift. rewrite slice_from_app. rewrite <- Hkey. split_and!; try done.
Qed.

Lemma GetObject_spec ctx label g s :
  db_up s -> has_label ctx label -> g <> [] ->
  GetObject ctx (Some g) s =
    (match db_map s !! dkey label g with
     | None => Err ErrGRPCKeyNotFound
     | Some raw => match DecodeObject raw with
                   | Ok o => Ok (Data o)
                   | _ => Err ErrGRPCObjectDataCorrupted
                   end
     end, s).
Proof using All.
  intros Hup Hl Hg. unfold GetObject.
  rewrite (pbind_Ok _ _ _ _ _ (request_label_ok _ _ _ Hl)).
  rewrite (pbind_Ok _ _ _ _ _ (request_key_ok _ _ _ Hg)).
  unfold pbind, on_err, pread, plift, pret. rewrite get_spec by done.
  destruct (db_map s !! dkey label g) as [raw|]; [|done].
  destruct (decode_object_total raw) as [Hnp _].
  destruct (DecodeObject raw); done.
Qed.

Lemma DeleteObject_spec ctx label g s :
  db_up s -> has_label ctx label -> g <> [] ->
  exists s', DeleteObject ctx (Some g) s = (Ok tt, s') /\ db_up s' /\
    db_map s' = delete (dkey label g) (db_map s) /\ (db_scoped s -> db_scoped s') /\
    (forall n sk, db_room n sk s -> db_room n sk s') /\ (forall k, db_issued k s -> db_issued k s').
Proof using All.
  intros Hup Hl Hg. unfold DeleteObject.
  rewrite (pbind_Ok _ _ _ _ _ (request_label_ok _ _ _ Hl)).
  rewrite (pbind_Ok _ _ _ _ _ (request_key_ok _ _ _ Hg)).
  destruct (delete_spec (dkey label g) s Hup) as (s' & Hd & Hup' & Hm & Hsc & Hroom & Hiss).
  exists s'. unfold on_err. rewrite Hd. done.
Qed.

Lemma ObjectStatusForObject_spec k s :
  db_up s ->
  ObjectStatusForObject k s =
    Ok match db_map s !! k with
       | None => ObjectStatusMissing
       | Some raw => match DecodeObject raw with Ok _ => ObjectStatusOK | _ => ObjectStatusCorrupted end
       end.
Proof using All.
  intros Hup. unfold ObjectStatusForObject. rewrite get_spec by done.
  destruct (db_map s !! k) as [raw|]; [|by rewrite bool_decide_eq_true_2].
  destruct (decode_object_total raw) as (Hnp & Hvp & Hiff).
  destruct (ValidateData raw) as [[]|e|p] eqn:Hv, (DecodeObject raw) as [o|e'|p'] eqn:Hd; try done.
  - destruct (proj1 Hiff eq_refl) as [o' Ho']. done.
  - assert (Err e = Ok tt); [|done]. apply Hiff. by exists o.
Qed.

Lemma GetObjectStatus_spec ctx label g s :
  db_up s -> has_label ctx label -> g <> [] ->
  GetObjectStatus ctx (Some g) s =
    (Ok match db_map s !! dkey label g with
        | None => pbObjectStatusMissing
        | Some raw => match DecodeObject raw with
                      | Ok _ => pbObjectStatusOK
                      | _ => pbObjectStatusCorrupted
                      end
        end, s).
Proof using All.
  intros Hup Hl Hg. unfold GetObjectStatus.
  rewrite (pbind_Ok _ _ _ _ _ (request_label_ok _ _ _ Hl)).
  rewrite (pbind_Ok _ _ _ _ _ (request_key_ok _ _ _ Hg)).
  unfold pbind, on_err, pread, pret. rewrite ObjectStatusForObject_spec by done.
  by destruct (db_map s !! dkey label g) as [raw|]; [destruct (DecodeObject raw)|].
Qed.

(** The keys a listing sends: the generated parts of the data keys of the
    namespace, without the scope key itself. *)
Definition listed_keys (label : string) (entries : list (bytes * bytes)) : list bytes :=
  List.flat_map (fun e => if has_prefix e.1 (dkey label []) then
                            match drop (length (dkey label [])) e.1 with [] => [] | g => [g] end
                          else []) entries.

Lemma listing_sends label entries (acc : list bytes) :
  range_items (fun stream item =>
     let n := length (item_key item) in
     if (n <? length (dkey label []))%nat then Panic "invalid item key (filtered key is too short)"
     else if (n =? length (dkey label []))%nat then Ok stream
     else Ok (stream ++ [drop (length (dkey label [])) (item_key item)]))
    (Some (dkey label [])) acc entries = Ok (acc ++ listed_keys label entries).
Proof using.
  revert acc; induction entries as [|[k v] es IH]; intros acc; cbn [range_items listed_keys List.flat_map].
  { by rewrite app_nil_r. }
  cbn [fst]. destruct (has_prefix k (dkey label [])) eqn:Hp; cbn [negb]; [|apply IH].
  apply has_prefix_spec in Hp as [g ->]. cbn [item_key]. rewrite length_app, drop_app_length. cbv zeta.
  destruct (Nat.ltb_spec (length (dkey label []) + length g) (length (dkey label []))); [lia|].
  destruct (Nat.eqb_spec (length (dkey label []) + length g) (length (dkey label []))) as [E|E];
    cbn [obind]; rewrite IH.
  - destruct g; [done|cbn in E; lia].
  - destruct g; [cbn in E; lia|]. by rewrite <- app_assoc.
Qed.
End Handlers.

(** ** Request statistics ([server/stats/rates.go], [middleware_stats.go])

    The rate counter is third-party code: a type with a fresh counter, an
    increment and a rate.  A [stat] holds pointers to its two counters, and
    the map is the only place that holds the pointers, so an increment is an
    update of the map entry. *)
Class RateCounter (RC : Type) := {
  NewRateCounter : RC;
  Incr : RC -> Z -> RC;
  RC_Rate : RC -> Z;
}.

Section Stats.
Context `{RateCounter RC}.

Record stat := { readReq : RC; writeReq : RC }.

Definition newStat : stat := {| readReq := NewRateCounter; writeReq := NewRateCounter |}.

Abbreviation namespaceStats := (gmap string stat).

Definition AddNamespace (label : string) (st : namespaceStats) : namespaceStats :=
  match st !! label with
  | Some _ => st
  | None => <[label := newStat]> st
  end.

(** The entry of a label, created when it is missing. *)
Definition entry (label : string) (st : namespaceStats) : stat * namespaceStats :=
  match st !! label with
  | Some x => (x, st)
  | None => (newStat, AddNamespace label st)
  end.

Definition IncrRead (label : string) (st : namespaceStats) : namespaceStats :=
  let '(x, st) := entry label st in
  <[label := {| readReq := Incr (readReq x) 1; writeReq := writeReq x |}]> st.

Definition IncrWrite (label : string) (st : namespaceStats) : namespaceStats :=
  let '(x, st) := entry label st in
  <[label := {| readReq := readReq x; writeReq := Incr (writeReq x) 1 |}]> st.

Definition Rate (label : string) (st : namespaceStats) : (Z * Z) * namespaceStats :=
  let '(x, st) := entry label st in
  ((RC_Rate (readReq x), RC_Rate (writeReq x)), st).

Inductive labelStatsFunc := statsIncrRead | statsIncrWrite.

Definition run_stats (f : labelStatsFunc) (label : string) (st : namespaceStats) : namespaceStats :=
  match f with statsIncrRead => IncrRead label st | statsIncrWrite => IncrWrite label st end.
End Stats.

Definition objectPrefix : string := "/ObjectManager/".
Definition namespacePrefix : string := "/NamespaceManager/".

Definition assoc {A} (l : list (string * A)) (k : string) : option A :=
  match List.find (fun e => bool_decide (e.1 = k)) l with Some e => Some e.2 | None => None end.

Definition StatsObjectMethodsMap : list (string * labelStatsFunc) :=
  [("GetObject", statsIncrRead); ("GetObjectStatus", statsIncrRead); ("ListObjectKeys", statsIncrRead);
   ("CreateObject", statsIncrWrite); ("DeleteObject", statsIncrWrite)]%string.

Definition StatsNamespaceMethodsMap : list (string * labelStatsFunc) :=
  [("GetNamespace"%string, statsIncrRead)].

Definition getStatsFunc (grpcMethod : string) : outcome labelStatsFunc :=
  if HasPrefix grpcMethod objectPrefix then
    let m := str_drop (String.length objectPrefix) grpcMethod in
    match assoc StatsObjectMethodsMap m with
    | None => Err (ErrNew ("namespace object does not contain method " +:+ m))
    | Some f => Ok f
    end
  else if HasPrefix grpcMethod namespacePrefix then
    let m := str_drop (String.length namespacePrefix) grpcMethod in
    match assoc StatsNamespaceMethodsMap m with
    | None => Err (ErrNew ("namespace namespace does not contain method " +:+ m))
    | Some f => Ok f
    end
  else Err (ErrNew ("namespace `" +:+ grpcMethod +:+ "` not recognized by authentication middleware")).

(** [statsLogger] logs both failures and goes on: without a label it counts for
    the empty label, without a function it calls a nil function. *)
Definition statsLogger `{RateCounter RC} (ctx : metadata) (grpcMethod : string) : prog (gmap string stat) unit :=
  let label := match extractStringFromContext ctx MetaLabelKey with Ok l => l | _ => EmptyString end in
  match getStatsFunc grpcMethod with
  | Ok f => fun st => (Ok tt, run_stats f label st)
  | _ => ppanic "invalid memory address or nil pointer dereference"
  end.

(** ** The namespace service ([namespace_api.go]) *)
Record NamespaceResponse := {
  nsLabel : string;
  ReadRequestPerHour : Z;
  WriteRequestPerHour : Z;
  NrObjects : Z;
}.

(** The count uses the bytes of the label itself as the key prefix. *)
Definition GetNamespace `{DB St} `{RateCounter RC} (ctx : metadata)
  : prog (St * gmap string stat) NamespaceResponse :=
  do! label := request_label ctx in
  do! count := on_err (fun _ => ErrGRPCDatabase)
                 (pread (fun s => CountKeys (Some (str_bytes label)) s.1)) in
  fun s =>
    let '((read, write), st) := Rate label s.2 in
    (Ok {| nsLabel := label; ReadRequestPerHour := read; WriteRequestPerHour := write;
           NrObjects := count |}, (s.1, st)).

(** ** Authentication in front of the handlers ([middleware_auth.go]) *)
Definition JWTObjectMethodsMap : list (string * Method) :=
  [("GetObject", MethodRead); ("GetObjectStatus", MethodRead); ("ListObjectKeys", MethodRead);
   ("CreateObject", MethodWrite); ("DeleteObject", MethodDelete)]%string.

Definition JWTNamespaceMethodsMap : list (string * Method) := [("GetNamespace"%string, MethodAdmin)].

Definition getJWTMethod (grpcMethod : string) : outcome Method :=
  if HasPrefix grpcMethod objectPrefix then
    let m := str_drop (String.length objectPrefix) grpcMethod in
    match assoc JWTObjectMethodsMap m with
    | None => Err (ErrNew ("namespace object does not contain method " +:+ m))
    | Some jwtM => Ok jwtM
    end
  else if HasPrefix grpcMethod namespacePrefix then
    let m := str_drop (String.length namespacePrefix) grpcMethod in
    match assoc JWTNamespaceMethodsMap m with
    | None => Err (ErrNew ("namespace namespace does not contain method " +:+ m))
    | Some jwtM => Ok jwtM
    end
  else Err (ErrNew ("namespace `" +:+ grpcMethod +:+ "` not recognized by authentication middleware")).

(** [jwt.TokenVerifier], with the verifier's own state [V]. *)
Class TokenVerifier (V : Type) := {
  validate : metadata -> Method -> string -> prog V unit;
}.

(** [NopVerifier] *)
#[export] Instance NopVerifier : TokenVerifier unit := {| validate _ _ _ := pret tt |}.

Section Auth.
Context `{TokenVerifier V}.

Definition jwtAuthenticator (ctx : metadata) (grpcMethod : string) : prog V unit :=
  do! label := on_err (fun _ => ErrNilLabel) (plift (extractStringFromContext ctx MetaLabelKey)) in
  do! method := on_err (fun _ => ErrUnimplemented) (plift (getJWTMethod grpcMethod)) in
  on_err (fun _ => ErrPermissionDenied) (validate ctx method label).

(** [unaryJWTAuthInterceptor] and [streamJWTAuthInterceptor]: the handler only
    runs when the authenticator returned nil. *)
Definition JWTAuthInterceptor {St A} (ctx : metadata) (fullMethod : string) (handler : prog St A)
  : prog (V * St) A :=
  fun '(v, s) =>
    match jwtAuthenticator ctx fullMethod v with
    | (Err e, v') => (Err e, (v', s))
    | (Panic p, v') => (Panic p, (v', s))
    | (Ok tt, v') => let '(r, s') := handler s in (r, (v', s'))
    end.
End Auth.
