(* ===== verification/ServerProps.v ===== *)
(** * Properties of the server

    The theorems about the object and namespace services, over any database
    that meets the interface laws, with witnesses on the in-memory database. *)

From S2P Require Import Prelude GoStrings Encoding Keys DB Jwt ServerAPI.
Import Encoding.Encoding.
Open Scope Z_scope.

(** ** Requests of the two services *)
Inductive request :=
  | ReqCreate (data : bytes)
  | ReqGet (key : slice)
  | ReqDelete (key : slice)
  | ReqStatus (key : slice)
  | ReqList
  | ReqNamespace.

Definition FullMethod (r : request) : string :=
  match r with
  | ReqCreate _ => "/ObjectManager/CreateObject"
  | ReqGet _ => "/ObjectManager/GetObject"
  | ReqDelete _ => "/ObjectManager/DeleteObject"
  | ReqStatus _ => "/ObjectManager/GetObjectStatus"
  | ReqList => "/ObjectManager/ListObjectKeys"
  | ReqNamespace => "/NamespaceManager/GetNamespace"
  end.

(** What a request has to be authorized for. *)
Definition needs (r : request) : Method :=
  match r with
  | ReqCreate _ => MethodWrite
  | ReqDelete _ => MethodDelete
  | ReqGet _ | ReqStatus _ | ReqList => MethodRead
  | ReqNamespace => MethodAdmin
  end.

Inductive response :=
  | RespKey (k : bytes) | RespData (d : bytes) | RespDeleted | RespStatus (s : pbObjectStatus)
  | RespKeys (l : list bytes) | RespNamespace (n : NamespaceResponse).

Definition pmap {St A B} (f : A -> B) (m : prog St A) : prog St B := do! a := m in pret (f a).

(** Run a handler on the database component of the server state. *)
Definition on_db {St T A} (m : prog St A) : prog (St * T) A :=
  fun s => let '(r, s') := m s.1 in (r, (s', s.2)).

Section Serve.
Context `{DB St} `{RateCounter RC} `{TokenVerifier V}.

(** The handler a request is dispatched to; a listing is collected. *)
Definition handle (ctx : metadata) (r : request) : prog (St * gmap string stat) response :=
  match r with
  | ReqCreate data => pmap RespKey (on_db (CreateObject ctx data))
  | ReqGet key => pmap RespData (on_db (GetObject ctx key))
  | ReqDelete key => pmap (fun _ => RespDeleted) (on_db (DeleteObject ctx key))
  | ReqStatus key => pmap RespStatus (on_db (GetObjectStatus ctx key))
  | ReqList => pmap RespKeys (on_db (ListObjectKeys (fun l k => Ok (l ++ [k])) ctx []))
  | ReqNamespace => pmap RespNamespace (GetNamespace ctx)
  end.

(** A server with a verifier. *)
Definition serve (ctx : metadata) (r : request) : prog (V * (St * gmap string stat)) response :=
  JWTAuthInterceptor ctx (FullMethod r) (handle ctx r).
End Serve.

(** ** Lemmas *)
Lemma getJWTMethod_request r : getJWTMethod (FullMethod r) = Ok (needs r).
Proof. by destruct r. Qed.

Lemma dkey_inj label g h : dkey label g = dkey label h -> g = h.
Proof. unfold dkey. intros H. by apply app_inv_head, app_inv_head, app_inv_head in H. Qed.

(** One visited entry sends at most one key, which determines its database key. *)
Lemma listed_key label (e : bytes * bytes) g :
  g ∈ listed_keys label [e] <-> g <> [] /\ e.1 = dkey label g.
Proof.
  destruct e as [k v]. unfold listed_keys. cbn [List.flat_map fst].
  assert (Hd : forall h, dkey label [] ++ h = dkey label h) by (intros h; unfold dkey; by rewrite <- !app_assoc).
  rewrite app_nil_r. destruct (has_prefix k (dkey label [])) eqn:Hp.
  - apply has_prefix_spec in Hp as [h ->]. rewrite drop_app_length, Hd. destruct h as [|x h].
    + split; [by intros ?%not_elem_of_nil|]. intros [Hg E]. by apply dkey_inj in E as <-.
    + rewrite list_elem_of_singleton. split; [by intros ->|].
      intros [Hg E]. by apply dkey_inj in E as <-.
  - split; [by intros ?%not_elem_of_nil|]. intros [Hg ->]. by rewrite <- Hd, has_prefix_app in Hp.
Qed.

Lemma listed_keys_cons label e es : listed_keys label (e :: es) = listed_keys label [e] ++ listed_keys label es.
Proof. unfold listed_keys. cbn. by rewrite app_nil_r. Qed.

Lemma elem_of_listed_keys label entries g :
  g ∈ listed_keys label entries <-> g <> [] /\ exists raw, (dkey label g, raw) ∈ entries.
Proof.
  induction entries as [|[k v] es IH].
  { split; [by intros ?%not_elem_of_nil|intros (_ & ? & []%not_elem_of_nil)]. }
  rewrite listed_keys_cons, elem_of_app, listed_key, IH. cbn [fst]. setoid_rewrite elem_of_cons. naive_solver.
Qed.

Lemma NoDup_listed_keys label entries : NoDup (entries.*1) -> NoDup (listed_keys label entries).
Proof.
  induction entries as [|[k v] es IH]; [constructor|]. intros [Hk Hnd]%NoDup_cons.
  rewrite listed_keys_cons. apply NoDup_app. split_and!; [|intros g Hg Hin|by apply IH].
  - unfold listed_keys. cbn. rewrite app_nil_r. repeat case_match; repeat constructor; set_solver.
  - apply listed_key in Hg as [_ Hg]. cbn in Hg. subst k. apply elem_of_listed_keys in Hin as (_ & raw & Hin).
    apply Hk, list_elem_of_fmap. by exists (dkey label g, raw).
Qed.

Section Effects.
Context `{DB St} `{RateCounter RC}.

Lemma keeps_on_db {T A} (m : prog St A) : keeps id m -> keeps fst (on_db (T := T) m).
Proof using. intros Hm s. unfold on_db. specialize (Hm s.1). by destruct (m s.1). Qed.

Lemma keeps_GetObject ctx key : keeps id (GetObject ctx key).
Proof using. unfold GetObject, request_label, request_key. case_match; auto 10 with zstor. Qed.

Lemma keeps_GetObjectStatus ctx key : keeps id (GetObjectStatus ctx key).
Proof using. unfold GetObjectStatus, request_label, request_key. case_match; auto 10 with zstor. Qed.

Lemma keeps_ListObjectKeys {T} (send : T -> bytes -> outcome T) ctx a : keeps id (ListObjectKeys send ctx a).
Proof using. unfold ListObjectKeys, request_label. auto 10 with zstor. Qed.

Lemma keeps_GetNamespace ctx : keeps fst (GetNamespace (St := St) ctx).
Proof using.
  apply keeps_bind; [unfold request_label; auto with zstor|intros label].
  apply keeps_bind; [auto with zstor|intros n s]. by destruct (Rate label s.2) as [[? ?] ?].
Qed.

(** Whatever the outcome, requests that only read leave the database as it is. *)
Lemma read_handlers_keep ctx (r : request) :
  needs r <> MethodWrite -> needs r <> MethodDelete -> keeps fst (handle ctx r).
Proof using.
  destruct r; cbn [needs]; try done; intros _ _; apply keeps_bind; auto with zstor;
    auto using keeps_on_db, keeps_GetObject, keeps_GetObjectStatus, keeps_ListObjectKeys, keeps_GetNamespace.
Qed.
End Effects.

Section Properties.
Context `{DBLaws St}.

(** The value of an object request does not depend on the rest of the map. *)
Lemma get_frame ctx label g s s' :
  db_up s -> db_up s' -> has_label ctx label -> g <> [] ->
  db_map s' !! dkey label g = db_map s !! dkey label g ->
  (GetObject ctx (Some g) s').1 = (GetObject ctx (Some g) s).1.
Proof using All.
  intros Hup Hup' Hl Hg Heq. rewrite !(GetObject_spec _ label) by done. cbn [fst]. by rewrite Heq.
Qed.

(** C2. Create then read.  Creating an object with non-empty data returns a
    key under which the same data is read back and the status is OK; every
    object under another key reads as before; and in a database filled by the
    server itself with sequence numbers left, the new key was unused, so no
    stored object is lost, and one sequence number less is left. *)
Theorem create_then_get (ctx : metadata) (label : string) (data : bytes) (s : St) :
  db_up s -> has_label ctx label -> data <> [] ->
  exists g s', CreateObject ctx data s = (Ok g, s') /\ db_up s' /\
    GetObject ctx (Some g) s' = (Ok data, s') /\
    GetObjectStatus ctx (Some g) s' = (Ok pbObjectStatusOK, s') /\
    (forall ctx' label' g', has_label ctx' label' -> g' <> [] -> dkey label' g' <> dkey label g ->
       (GetObject ctx' (Some g') s').1 = (GetObject ctx' (Some g') s).1) /\
    (forall n, db_scoped s -> db_room (S n) (dkey label []) s ->
       db_map s !! dkey label g = None /\ db_scoped s' /\ db_room n (dkey label []) s').
Proof using All.
  intros Hup Hl Hd.
  destruct (CreateObject_spec ctx label data s Hup Hl Hd) as (g & s' & Hc & Hup' & Hlen & Hm & Hfresh).
  assert (Hg : g <> []) by (intros ->; done).
  exists g, s'. rewrite (GetObject_spec _ label), (GetObjectStatus_spec _ label) by done.
  rewrite Hm, lookup_insert_eq, DecodeObject_package by done. split_and!; try done.
  - intros ctx' label' g' Hl' Hg' Hne. apply (get_frame _ label'); try done.
    by rewrite Hm, lookup_insert_ne by congruence.
  - intros n Hs Hr. by destruct (Hfresh n Hs Hr) as (? & ? & ? & _).
Qed.

(** Delete then read.  Deleting a key succeeds whether or not an object
    exists; afterwards the key reads as not found and its status is missing,
    and all other keys read as before. *)
Theorem delete_then_get (ctx : metadata) (label : string) (g : bytes) (s : St) :
  db_up s -> has_label ctx label -> g <> [] ->
  exists s', DeleteObject ctx (Some g) s = (Ok tt, s') /\ db_up s' /\
    GetObject ctx (Some g) s' = (Err ErrGRPCKeyNotFound, s') /\
    GetObjectStatus ctx (Some g) s' = (Ok pbObjectStatusMissing, s') /\
    (forall ctx' label' g', has_label ctx' label' -> g' <> [] -> dkey label' g' <> dkey label g ->
       (GetObject ctx' (Some g') s').1 = (GetObject ctx' (Some g') s).1).
Proof using All.
  intros Hup Hl Hg. destruct (DeleteObject_spec ctx label g s Hup Hl Hg) as (s' & Hd & Hup' & Hm & _).
  exists s'. rewrite (GetObject_spec _ label), (GetObjectStatus_spec _ label) by done.
  rewrite Hm, lookup_delete_eq. split_and!; try done.
  intros ctx' label' g' Hl' Hg' Hne. apply (get_frame _ label'); try done.
  by rewrite Hm, lookup_delete_ne by congruence.
Qed.

(** C4. The status of an object tells exactly how a read ends: OK when it
    returns data, missing when it reports the key as not found, corrupted when
    it reports corrupted data; and a stored package with one changed byte is
    reported as corrupted. *)
Theorem status_predicts_get (ctx : metadata) (label : string) (g : bytes) (s : St) :
  db_up s -> has_label ctx label -> g <> [] ->
  ((GetObjectStatus ctx (Some g) s).1 = Ok pbObjectStatusOK <->
     exists data, (GetObject ctx (Some g) s).1 = Ok data) /\
  ((GetObjectStatus ctx (Some g) s).1 = Ok pbObjectStatusMissing <->
     (GetObject ctx (Some g) s).1 = Err ErrGRPCKeyNotFound) /\
  ((GetObjectStatus ctx (Some g) s).1 = Ok pbObjectStatusCorrupted <->
     (GetObject ctx (Some g) s).1 = Err ErrGRPCObjectDataCorrupted) /\
  (forall data i old new, data <> [] -> package data !! i = Some old -> new <> old ->
     db_map s !! dkey label g = Some (<[i := new]> (package data)) ->
     (GetObjectStatus ctx (Some g) s).1 = Ok pbObjectStatusCorrupted).
Proof using All.
  intros Hup Hl Hg. rewrite (GetObject_spec _ label), (GetObjectStatus_spec _ label) by done. cbn [fst].
  split_and!.
  1-3: destruct (db_map s !! dkey label g) as [raw|]; [destruct (DecodeObject raw)|]; naive_solver.
  intros data i old new Hd Hi Hne ->.
  by destruct (decode_corrupt data i old new) as [-> _].
Qed.

(** C5. Listing a namespace sends every stored key of the namespace exactly
    once and nothing else, in some order: precisely the keys for which a
    status request does not answer missing. *)
Theorem list_is_complete (ctx : metadata) (label : string) (s : St) :
  db_up s -> has_label ctx label ->
  exists keys, ListObjectKeys (fun l k => Ok (l ++ [k])) ctx [] s = (Ok keys, s) /\ NoDup keys /\
    (forall g, g ∈ keys <-> g <> [] /\ exists raw, db_map s !! dkey label g = Some raw) /\
    (forall g, g <> [] -> (g ∈ keys <-> (GetObjectStatus ctx (Some g) s).1 <> Ok pbObjectStatusMissing)).
Proof using All.
  intros Hup Hl. unfold ListObjectKeys.
  rewrite (pbind_Ok _ _ _ _ _ (request_label_ok _ _ _ Hl)).
  unfold plift, pbind, pread, DataScopeKey. cbn [fst].
  change ([Byte.x64; colon] ++ str_bytes label ++ [colon]) with (dkey label []).
  match goal with |- context [ListItems ?cb ?p ?a s] =>
    destruct (list_spec cb p a s Hup) as (entries & Hperm & ->) end.
  rewrite listing_sends. exists (listed_keys label entries).
  assert (Hin : forall g, g ∈ listed_keys label entries <->
      g <> [] /\ exists raw, db_map s !! dkey label g = Some raw).
  { intros g. rewrite elem_of_listed_keys. setoid_rewrite Hperm. by setoid_rewrite elem_of_map_to_list. }
  split_and!; [done| |exact Hin|].
  - apply NoDup_listed_keys. rewrite Hperm. apply NoDup_fst_map_to_list.
  - intros g Hg. rewrite Hin, (GetObjectStatus_spec _ label) by done. cbn [fst].
    destruct (db_map s !! dkey label g) as [raw|]; [destruct (DecodeObject raw)|]; naive_solver.
Qed.
End Properties.

(** ** Witnesses on the in-memory database *)
Section Witnesses.
Import Memory.

Definition ctx_ns : metadata := Some {[ MetaLabelKey := ["ns"%string] ]}.

Lemma ctx_ns_label : has_label ctx_ns "ns".
Proof using. vm_compute. reflexivity. Qed.

Lemma create_then_get_witness :
  exists g s', CreateObject ctx_ns (str_bytes "v") New = (Ok g, s') /\
    GetObject ctx_ns (Some g) s' = (Ok (str_bytes "v"), s').
Proof using.
  destruct (@create_then_get MemDB default_DB default_laws ctx_ns "ns" (str_bytes "v") New I ctx_ns_label ltac:(done))
    as (g & s' & Hc & _ & Hg & _).
  exists g, s'. split; [exact Hc|exact Hg].
Defined.

(** A database with one object in the namespace. *)
Definition one_object : MemDB := (CreateObject ctx_ns (str_bytes "v") New).2.

Lemma delete_then_get_witness :
  exists s', DeleteObject ctx_ns (Some (le_put 8 0)) one_object = (Ok tt, s') /\
    GetObject ctx_ns (Some (le_put 8 0)) s' = (Err ErrGRPCKeyNotFound, s').
Proof using.
  destruct (@delete_then_get MemDB default_DB default_laws ctx_ns "ns" (le_put 8 0) one_object I ctx_ns_label ltac:(done))
    as (s' & Hd & _ & Hg & _).
  exists s'. split; [exact Hd|exact Hg].
Defined.

Lemma status_predicts_get_witness :
  (GetObjectStatus ctx_ns (Some (le_put 8 0)) one_object).1 = Ok pbObjectStatusOK.
Proof using.
  apply (@status_predicts_get MemDB default_DB default_laws ctx_ns "ns" (le_put 8 0) one_object I ctx_ns_label ltac:(done)).
  exists (str_bytes "v"). vm_compute. reflexivity.
Defined.

Lemma list_is_complete_witness :
  exists keys, ListObjectKeys (fun l k => Ok (l ++ [k])) ctx_ns [] one_object = (Ok keys, one_object) /\
    le_put 8 0 ∈ keys.
Proof using.
  destruct (@list_is_complete MemDB default_DB default_laws ctx_ns "ns" one_object I ctx_ns_label) as (keys & Hl & _ & _ & Hst).
  exists keys. split; [exact Hl|]. apply Hst; [done|]. vm_compute. discriminate.
Defined.
End Witnesses.

(** ** Authorization *)
Section Authorization.
Context `{DB St} `{RateCounter RC}.

(** What the interceptor does in front of any handler. *)
Lemma interceptor_spec `{TokenVerifier V} ctx (r : request) (v : V) (s : St * gmap string stat) :
  serve ctx r (v, s) =
    match extractStringFromContext ctx MetaLabelKey with
    | Ok label =>
        match validate ctx (needs r) label v with
        | (Ok tt, v') => let '(x, s') := handle ctx r s in (x, (v', s'))
        | (Err _, v') => (Err ErrPermissionDenied, (v', s))
        | (Panic p, v') => (Panic p, (v', s))
        end
    | Err _ => (Err ErrNilLabel, (v, s))
    | Panic p => (Panic p, (v, s))
    end.
Proof using.
  unfold serve, JWTAuthInterceptor, jwtAuthenticator, pbind, on_err, plift. rewrite getJWTMethod_request.
  destruct (extractStringFromContext ctx MetaLabelKey); try done.
  by destruct (validate ctx (needs r) a v) as [[[]|e|p] v'].
Qed.

Context {Key : Type} (Parse : Z -> string -> (Token -> outcome Key) -> outcome Token) (key : Key).
Context {C : Type} `{TokenCacheLaws C} (signed : Key -> string -> Prop).
Context (Parse_verifies : forall now s kf token,
  Parse now s kf = Ok token -> exists k, kf token = Ok k /\ signed k s).

(** The verifier of the server at time [now]. *)
Definition jwt_verifier (now : Z) : TokenVerifier C :=
  {| validate ctx method label := ValidateJWT Parse key ctx method label now |}.

(** What an accepted request proves about its token. *)
Definition authorized (ctx : metadata) (r : request) (now : Z) : Prop :=
  exists label t l t0 exp expected,
    has_label ctx label /\ extractJWTToken ctx = Ok t /\ t0 <= now /\
    checkJWTGetScopes Parse key t0 t = Ok (l, exp) /\ now <= exp * second /\
    signed key (TrimSpace (TrimPrefix t "Bearer")) /\
    expectedScopes (needs r) label = Ok expected /\ exists sc, sc ∈ l /\ Replace1 sc memberof "" ∈ expected.

(** C3. The server is guarded.  A request that is answered with a result
    carried a token that is signed with the server's key, unexpired, and holds
    a scope for exactly what the request needs in its namespace; without that
    the database and the statistics stay as they were.  Even an authorized
    request changes the database only if it needs write or delete permission.
    The token cache keeps the invariant this relies on. *)
Theorem server_authorization (ctx : metadata) (r : request) (now now' : Z) (cache cache' : C)
    (s s' : St * gmap string stat) (x : outcome response) :
  cache_sound Parse key now' cache -> now' <= now ->
  serve (H1 := jwt_verifier now) ctx r (cache, s) = (x, (cache', s')) ->
  cache_sound Parse key now cache' /\
  ((exists y, x = Ok y) -> authorized ctx r now) /\
  (s' = s \/ authorized ctx r now) /\
  (s'.1 = s.1 \/ (authorized ctx r now /\ (needs r = MethodWrite \/ needs r = MethodDelete))).
Proof using Parse_verifies H2.
  intros Hc Hle. rewrite interceptor_spec.
  destruct (extractStringFromContext ctx MetaLabelKey) as [label|e|p] eqn:Hl;
    [|intros [= <- <- <-]; split_and!; eauto using cache_sound_mono; naive_solver..].
  cbn [validate jwt_verifier].
  destruct (ValidateJWT Parse key ctx (needs r) label now cache) as [res c1] eqn:Hv.
  destruct (ValidateJWT_sound Parse key signed Parse_verifies _ _ _ _ _ _ _ _ Hc Hle Hv) as [Hc1 Hok].
  destruct res as [[]|e|p]; [|intros [= <- <- <-]; split_and!; eauto; naive_solver..].
  assert (Ha : authorized ctx r now).
  { destruct (Hok eq_refl) as (t & l & t0 & exp & expected & Hrest).
    exists label, t, l, t0, exp, expected. split; [done|exact Hrest]. }
  destruct (handle ctx r s) as [y s1] eqn:Hh. intros [= <- <- <-]. split_and!; eauto.
  destruct (decide (needs r = MethodWrite)), (decide (needs r = MethodDelete)); eauto.
  left. pose proof (read_handlers_keep ctx r n n0 s) as Hk. by rewrite Hh in Hk.
Qed.
End Authorization.

(** A counter that only counts, for the witnesses. *)
#[export] Instance counting : RateCounter Z :=
  {| NewRateCounter := 0; Incr rc n := rc + n; RC_Rate rc := rc |}.

(** ** Refused requests, the object count and the statistics *)
Section Branches.
Context `{DB St} `{RateCounter RC}.

(** The error a handler answers with before it looks at the database. *)
Definition refusal (ctx : metadata) (r : request) : option error :=
  match extractStringFromContext ctx MetaLabelKey with
  | Ok _ =>
      match r with
      | ReqCreate [] => Some ErrGRPCNilData
      | ReqGet k | ReqDelete k | ReqStatus k =>
          if (slice_len k =? 0)%nat then Some ErrGRPCNilKey else None
      | _ => None
      end
  | _ => Some ErrGRPCNilLabel
  end.

(** Incomplete requests are refused with their own error and no effect:
    without a label every handler answers that the label is missing, without
    a key or data that these are missing, and in each case the database and
    the statistics are as before. *)
Theorem refused_requests_have_no_effect (ctx : metadata) (r : request) (e : error)
    (s : St * gmap string stat) :
  refusal ctx r = Some e -> handle ctx r s = (Err e, s).
Proof using.
  unfold refusal. intros Hr. destruct s as [db st].
  destruct (extractStringFromContext ctx MetaLabelKey) as [label|e'|p] eqn:Hl; destruct r as [data|k|k|k| |];
    unfold handle, pmap, on_db, CreateObject, GetObject, DeleteObject, GetObjectStatus, ListObjectKeys,
      GetNamespace, request_label, request_key, pbind, on_err, plift, pread, pfail; cbn [fst snd];
    rewrite Hl; try done; simplify_eq/=; try done.
  all: try (exfalso; clear -Hl; unfold extractStringFromContext in Hl; by repeat case_match).
  - destruct data; by simplify_eq.
  - destruct (slice_len k =? 0)%nat; by simplify_eq.
  - destruct (slice_len k =? 0)%nat; by simplify_eq.
  - destruct (slice_len k =? 0)%nat; by simplify_eq.
Qed.
End Branches.

Section Count.
Context `{DBLaws St} `{RateCounter RC}.

Lemma GetNamespace_spec ctx label (s : St * gmap string stat) :
  has_label ctx label -> db_up s.1 ->
  exists resp st', GetNamespace ctx s = (Ok resp, (s.1, st')) /\ nsLabel resp = label /\
    NrObjects resp =
      Z.of_nat (length (filter (fun e => has_prefix e.1 (str_bytes label) = true)
                          (map_to_list (db_map s.1)))).
Proof using All.
  intros Hl Hup. unfold GetNamespace. rewrite (pbind_Ok _ _ _ _ _ (request_label_ok _ _ _ Hl)).
  unfold pbind, on_err, pread. rewrite (count_spec _ _ Hup).
  destruct (Rate label s.2) as [[rd wr] st']. by eexists _, _.
Qed.

(** The object count of a namespace is always zero.  In a database that
    holds only objects (which is what the handlers write), the answer to a
    namespace request counts no object for any label of two or more characters that
    does not begin with [d:], since the count looks for keys that begin with
    the label while object keys begin with [d:]. *)
Theorem namespace_count_is_zero (ctx : metadata) (label : string) (s : St * gmap string stat) :
  has_label ctx label -> db_up s.1 ->
  (forall k v, db_map s.1 !! k = Some v -> exists l g, k = dkey l g) ->
  (2 <= length (str_bytes label))%nat -> has_prefix (str_bytes label) [Byte.x64; colon] = false ->
  exists resp st', GetNamespace ctx s = (Ok resp, (s.1, st')) /\ NrObjects resp = 0.
Proof using All.
  intros Hl Hup Honly Hlen Hp. destruct (GetNamespace_spec ctx label s Hl Hup) as (resp & st' & HG & _ & Hn).
  exists resp, st'. split; [done|]. rewrite Hn.
  destruct (filter _ _) as [|[k v] rest] eqn:Hf; [done|exfalso].
  assert (Hin : (k, v) ∈ (k, v) :: rest) by apply list_elem_of_here.
  rewrite <- Hf in Hin. apply list_elem_of_filter in Hin as [Hk Hin]. cbn [fst] in Hk.
  apply elem_of_map_to_list, Honly in Hin as (l & g & ->).
  destruct (str_bytes label) as [|x [|y rest']]; cbn in Hlen, Hp, Hk; try lia.
  rewrite !andb_true_iff, !bool_decide_eq_true in Hk. destruct Hk as (-> & -> & _).
  rewrite !bool_decide_eq_true_2 in Hp by done. by destruct rest'.
Qed.
End Count.

(** Statistics are kept per namespace: counting a request of one label
    counts it once as a read or a write and leaves the rates of every other
    label alone; all methods that the authentication knows are counted, reads
    and namespace queries as reads, creations and deletions as writes. *)
Theorem stats_are_per_namespace `{RateCounter RC} (ctx : metadata) (r : request) (label other : string)
    (st : gmap string stat) :
  has_label ctx label ->
  exists st', statsLogger ctx (FullMethod r) st = (Ok tt, st') /\
    (other <> label -> (Rate other st').1 = (Rate other st).1) /\
    (Rate label st').1 =
      let x := (entry label st).1 in
      match needs r with
      | MethodWrite | MethodDelete => (RC_Rate (readReq x), RC_Rate (Incr (writeReq x) 1))
      | MethodRead | MethodAdmin => (RC_Rate (Incr (readReq x) 1), RC_Rate (writeReq x))
      end.
Proof.
  intros Hl. unfold statsLogger. rewrite Hl.
  assert (Hf : getStatsFunc (FullMethod r) =
    Ok (match needs r with MethodWrite | MethodDelete => statsIncrWrite | _ => statsIncrRead end))
    by (by destruct r).
  rewrite Hf. eexists. split; [done|].
  assert (Hrun : forall f, exists x', run_stats f label st = <[label := x']> (entry label st).2).
  { intros []; unfold run_stats, IncrRead, IncrWrite; destruct (entry label st); eauto. }
  split.
  - intros Hne. destruct (Hrun (match needs r with MethodWrite | MethodDelete => statsIncrWrite
      | _ => statsIncrRead end)) as [x' ->].
    unfold Rate, entry, AddNamespace. rewrite lookup_insert_ne by done.
    destruct (st !! label); cbn [snd]; rewrite ?lookup_insert_ne by done; by destruct (st !! other).
  - unfold run_stats, IncrRead, IncrWrite, Rate.
    destruct (entry label st) as [x st1]. unfold entry. cbn [fst].
    destruct (needs r); by rewrite lookup_insert_eq.
Qed.

Section BranchWitnesses.
Import Memory.

Definition ctx_auth : metadata :=
  Some (<[MetaAuthKey := ["Bearer tok"%string]]> {[ MetaLabelKey := ["o_0stor_n"%string] ]}).

Lemma server_authorization_witness :
  authorized demo_parse tt (fun _ s => s = "tok"%string) ctx_auth (ReqCreate (str_bytes "v")) 5.
Proof using.
  destruct (serve (H1 := jwt_verifier demo_parse tt 5) ctx_auth (ReqCreate (str_bytes "v"))
    ((∅ : gmap string cacheItem), (New, ∅ : gmap string stat))) as [x [cache' s']] eqn:E.
  destruct (server_authorization demo_parse tt (fun _ s => s = "tok"%string) demo_parse_verifies
    ctx_auth (ReqCreate (str_bytes "v")) 5 5 ∅ cache' (New, ∅) s' x) as (_ & Ha & _).
  - intros t i Hg. cbn in Hg. by rewrite lookup_empty in Hg.
  - lia.
  - exact E.
  - apply Ha. vm_compute in E. injection E as <- _ _. by eexists.
Defined.

Lemma refused_requests_have_no_effect_witness :
  handle None (ReqCreate []) (New, ∅ : gmap string stat) = (Err ErrGRPCNilLabel, (New, ∅)) /\
  handle ctx_ns (ReqGet None) (New, ∅ : gmap string stat) = (Err ErrGRPCNilKey, (New, ∅)).
Proof using.
  split; apply (refused_requests_have_no_effect (St := MemDB)); vm_compute; reflexivity.
Defined.

(** One object is stored, and the count is zero. *)
Lemma namespace_count_is_zero_witness :
  exists resp st', GetNamespace ctx_ns (one_object, ∅ : gmap string stat) = (Ok resp, (one_object, st')) /\
    NrObjects resp = 0.
Proof using.
  apply (@namespace_count_is_zero MemDB default_DB default_laws _ _ ctx_ns "ns" (one_object, ∅)).
  - exact ctx_ns_label.
  - exact I.
  - intros k v Hk. assert (Hm : db_map one_object = {[ dkey "ns" (le_put 8 0) := package (str_bytes "v") ]})
      by (vm_compute; reflexivity).
    cbn [fst] in Hk. rewrite Hm in Hk. apply lookup_singleton_Some in Hk as [<- _]. by eexists _, _.
  - vm_compute. lia.
  - reflexivity.
Defined.

Lemma stats_are_per_namespace_witness :
  exists st', statsLogger ctx_ns (FullMethod ReqList) (∅ : gmap string stat) = (Ok tt, st') /\
    (Rate "ns" st').1 = (1, 0).
Proof using.
  destruct (stats_are_per_namespace ctx_ns ReqList "ns" "other" (∅ : gmap string stat) ctx_ns_label)
    as (st' & Hs & _ & Hr).
  exists st'. split; [exact Hs|]. rewrite Hr. vm_compute. reflexivity.
Defined.
End BranchWitnesses.
