(* ===== verification/Badger.v ===== *)
(** * The badger back end of the server database ([server/db/badger])

    What a zstordb server uses in production.  Of the embedded store badger the
    transactions ([transaction.go]), the sequences ([db.go]) and the iteration
    order are modelled from the vendored sources; its log, its tables and its
    oracle are a parameter that decides which reads and commits fail ([Disk]).
    On top are the LRU cache of another package, the sequence cache
    ([cache.go]) and the database ([badger.go]).  Operations run one after the
    other: the source holds a mutex per bucket and a transaction per access. *)

From stdpp Require Import sorting.
From S2P Require Import Prelude Crc32 Keys DB.
Open Scope Z_scope.

Module Engine.
Definition ErrKeyNotFound := ErrVar "badger" "ErrKeyNotFound" "Key not found".
Definition ErrTxnTooBig := ErrVar "badger" "ErrTxnTooBig" "Txn is too big to fit into one request".
Definition ErrConflict := ErrVar "badger" "ErrConflict" "Transaction Conflict. Please retry".
Definition ErrEmptyKey := ErrVar "badger" "ErrEmptyKey" "Key cannot be empty".
Definition ErrZeroBandwidth := ErrVar "badger" "ErrZeroBandwidth" "Bandwidth must be greater than zero".
Definition exceedsMaxKeySizeError := ErrNew "Key exceeded limit".
Definition exceedsMaxValueSizeError := ErrNew "Value exceeded ValueLogFileSize".

(** What a transaction writes: a value, or a delete marker. *)
Abbreviation writes := (gmap bytes (option bytes)).

(** The disk and the oracle.  A read of a key or of its value can fail, and so
    can a commit; a transaction that read what another one wrote in between
    conflicts.  [conflicts w] bounds the conflicts that follow one another; a
    read that fails is reported neither as a missing key nor as a conflict. *)
Class Disk (W : Type) := {
  get_fault : bytes -> W -> option error;
  value_fault : bytes -> W -> option error;
  commit_fault : writes -> W -> option error * W;
  close_fault : W -> option error;
  conflicts : W -> nat;
  get_fault_other k w e : get_fault k w = Some e -> e <> ErrKeyNotFound /\ e <> ErrConflict;
  value_fault_other k w e : value_fault k w = Some e -> e <> ErrConflict;
  conflicts_end ws w w' : commit_fault ws w = (Some ErrConflict, w') -> (conflicts w' < conflicts w)%nat;
}.

(** The limits that [DefaultOptions] and [Open] set. *)
Definition maxKeySize : Z := Z.shiftl 1 16.
Definition ValueLogFileSize : Z := Z.shiftl 1 30.
Definition ValueThreshold : Z := 20.
Definition MaxTableSize : Z := Z.shiftl 64 20.
Definition MaxNodeSize : Z := 100.
Definition maxBatchSize : Z := 15 * MaxTableSize / 100.
Definition maxBatchCount : Z := maxBatchSize / MaxNodeSize.

Section Engine.
Context `{Disk W}.

(** The committed pairs, and the disk. *)
Record badger := { content : gmap bytes bytes; disk : W }.

(** A transaction reads a snapshot and collects its writes. *)
Record Txn := { snapshot : badger; pendingWrites : writes; txn_count : Z; txn_size : Z }.

Definition txnKey : bytes := str_bytes "!badger!txn".

Definition NewTransaction (db : badger) : Txn :=
  {| snapshot := db; pendingWrites := ∅; txn_count := 1; txn_size := Z.of_nat (length txnKey) + 10 |}.

Definition estimateSize (key value : bytes) : Z :=
  if Z.of_nat (length value) <? ValueThreshold
  then Z.of_nat (length key) + Z.of_nat (length value) + 2
  else Z.of_nat (length key) + 12 + 2.

(** The checks of [SetEntry] and [Delete], and the recorded write. *)
Definition checkSize (key value : bytes) (txn : Txn) : outcome Txn :=
  let count' := txn_count txn + 1 in
  let size' := txn_size txn + estimateSize key value + 10 in
  if (maxBatchCount <=? count') || (maxBatchSize <=? size') then Err ErrTxnTooBig
  else Ok {| snapshot := snapshot txn; pendingWrites := pendingWrites txn;
             txn_count := count'; txn_size := size' |}.

Definition record_write (key : bytes) (e : option bytes) (txn : Txn) : Txn :=
  {| snapshot := snapshot txn; pendingWrites := <[key := e]> (pendingWrites txn);
     txn_count := txn_count txn; txn_size := txn_size txn |}.

Definition tx_Set (key value : bytes) (txn : Txn) : outcome Txn :=
  if (length key =? 0)%nat then Err ErrEmptyKey
  else if maxKeySize <? Z.of_nat (length key) then Err exceedsMaxKeySizeError
  else if ValueLogFileSize <? Z.of_nat (length value) then Err exceedsMaxValueSizeError
  else let! txn := checkSize key value txn in Ok (record_write key (Some value) txn).

Definition tx_Delete (key : bytes) (txn : Txn) : outcome Txn :=
  if (length key =? 0)%nat then Err ErrEmptyKey
  else if maxKeySize <? Z.of_nat (length key) then Err exceedsMaxKeySizeError
  else let! txn := checkSize key [] txn in Ok (record_write key None txn).

(** An item that [Get] found: its value is at hand when the transaction itself
    wrote it, and is read from the value log otherwise. *)
Record item := { key_ : bytes; val_ : bytes; prefetched : bool }.

Definition tx_Get (key : bytes) (txn : Txn) : outcome item :=
  if (length key =? 0)%nat then Err ErrEmptyKey
  else match pendingWrites txn !! key with
  | Some None => Err ErrKeyNotFound
  | Some (Some v) => Ok {| key_ := key; val_ := v; prefetched := true |}
  | None =>
      match get_fault key (disk (snapshot txn)) with
      | Some e => Err e
      | None =>
          match content (snapshot txn) !! key with
          | None => Err ErrKeyNotFound
          | Some v => Ok {| key_ := key; val_ := v; prefetched := false |}
          end
      end
  end.

Definition item_Value (i : item) (txn : Txn) : outcome bytes :=
  if prefetched i then Ok (val_ i)
  else match value_fault (key_ i) (disk (snapshot txn)) with
  | Some e => Err e
  | None => Ok (val_ i)
  end.

Definition apply_write (k : bytes) (e : option bytes) (m : gmap bytes bytes) : gmap bytes bytes :=
  match e with Some v => <[k := v]> m | None => delete k m end.

(** A commit that fails leaves the pairs as they were. *)
Definition Commit (txn : Txn) (db : badger) : outcome unit * badger :=
  if bool_decide (pendingWrites txn = ∅) then (Ok tt, db)
  else match commit_fault (pendingWrites txn) (disk db) with
  | (Some e, w) => (Err e, {| content := content db; disk := w |})
  | (None, w) => (Ok tt, {| content := map_fold apply_write (content db) (pendingWrites txn); disk := w |})
  end.

(** [View] and [Update].  The function also returns what it did to the
    variables that it captures, which stays done when the commit fails. *)
Definition View {A} (fn : Txn -> outcome A) (db : badger) : outcome A := fn (NewTransaction db).

Definition Update {A} (fn : Txn -> outcome Txn * A) (db : badger) : outcome unit * badger * A :=
  match fn (NewTransaction db) with
  | (Ok txn, a) => (Commit txn db, a)
  | (Err e, a) => (Err e, db, a)
  | (Panic p, a) => (Panic p, db, a)
  end.

(** ** Iteration *)

(** [bytes.Compare(a, b) <= 0] *)
Fixpoint bytes_leb (a b : bytes) : bool :=
  match a, b with
  | [], _ => true
  | _ :: _, [] => false
  | x :: a', y :: b' => if bz x <? bz y then true else if bz y <? bz x then false else bytes_leb a' b'
  end.

Definition key_le (e1 e2 : bytes * bytes) : Prop := bytes_leb e1.1 e2.1 = true.

#[global] Instance key_le_dec e1 e2 : Decision (key_le e1 e2).
Proof using. unfold key_le. apply _. Defined.

Definition badgerPrefix : bytes := str_bytes "!badger!".

(** The items that an iterator goes through: in the order of their keys, the
    store's own keys skipped. *)
Definition iterator_items (db : badger) : list (bytes * bytes) :=
  filter (fun e => has_prefix e.1 badgerPrefix = false) (merge_sort key_le (map_to_list (content db))).

(** The items from the first key on that is not below [key]. *)
Fixpoint Seek (key : bytes) (items : list (bytes * bytes)) : list (bytes * bytes) :=
  match items with
  | [] => []
  | e :: rest => if bytes_leb key e.1 then items else Seek key rest
  end.

(** ** Sequences *)

(** [binary.BigEndian.PutUint64] and [binary.BigEndian.Uint64]. *)
Definition be_put64 (z : Z) : bytes := rev (le_put 8 z).
Definition be_u64 (b : bytes) : outcome Z :=
  if (length b <? 8)%nat then Panic "index out of range" else Ok (le_get (rev (take 8 b))).

Record Sequence := { seq_key : bytes; next : Z; leased : Z; bandwidth : Z }.

Definition with_next (n : Z) (seq : Sequence) : Sequence :=
  {| seq_key := seq_key seq; next := n; leased := leased seq; bandwidth := bandwidth seq |}.
Definition with_leased (n : Z) (seq : Sequence) : Sequence :=
  {| seq_key := seq_key seq; next := next seq; leased := n; bandwidth := bandwidth seq |}.

(** What the store has under the key of the sequence. *)
Definition stored_number (seq : Sequence) (txn : Txn) : outcome Z :=
  match tx_Get (seq_key seq) txn with
  | Err e => if bool_decide (e = ErrKeyNotFound) then Ok 0 else Err e
  | Panic p => Panic p
  | Ok i => let! val := item_Value i txn in be_u64 val
  end.

(** The sequence is updated inside the transaction, before the commit. *)
Definition updateLease (seq : Sequence) : badger -> outcome unit * badger * Sequence :=
  Update (fun txn =>
    match stored_number seq txn with
    | Err e => (Err e, seq)
    | Panic p => (Panic p, seq)
    | Ok num =>
        let seq := with_next num seq in
        let lease := u64 (next seq + bandwidth seq) in
        match tx_Set (seq_key seq) (be_put64 lease) txn with
        | Ok txn => (Ok txn, with_leased lease seq)
        | Err e => (Err e, seq)
        | Panic p => (Panic p, seq)
        end
    end).

Definition take_next (seq : Sequence) : Z * Sequence := (next seq, with_next (u64 (next seq + 1)) seq).

Definition Next (seq : Sequence) (db : badger) : outcome Z * badger * Sequence :=
  if leased seq <=? next seq then
    match updateLease seq db with
    | (Ok _, db, seq) => let '(val, seq) := take_next seq in (Ok val, db, seq)
    | (Err e, db, seq) => (Err e, db, seq)
    | (Panic p, db, seq) => (Panic p, db, seq)
    end
  else let '(val, seq) := take_next seq in (Ok val, db, seq).

Definition Release (seq : Sequence) (db : badger) : outcome unit * badger * Sequence :=
  match Update (fun txn => (tx_Set (seq_key seq) (be_put64 (next seq)) txn, tt)) db with
  | (Ok _, db, _) => (Ok tt, db, with_leased (next seq) seq)
  | (Err e, db, _) => (Err e, db, seq)
  | (Panic p, db, _) => (Panic p, db, seq)
  end.

Definition GetSequence (key : bytes) (bandwidth : Z) (db : badger) : outcome Sequence * badger :=
  if (length key =? 0)%nat then (Err ErrEmptyKey, db)
  else if bandwidth =? 0 then (Err ErrZeroBandwidth, db)
  else match updateLease {| seq_key := key; next := 0; leased := 0; bandwidth := bandwidth |} db with
  | (Ok _, db, seq) => (Ok seq, db)
  | (Err e, db, _) => (Err e, db)
  | (Panic p, db, _) => (Panic p, db)
  end.
End Engine.
Arguments badger : clear implicits.
Arguments Txn : clear implicits.
End Engine.
Import Engine.

(** ** The LRU cache ([simplelru]) and what the server does on eviction *)

(** The entries of the cache, the most recently used one first. *)
Abbreviation LRU := (list (bytes * Sequence)).

Abbreviation sequenceCache := (list LRU).

Section Cache.
Context `{Disk W}.
Local Abbreviation badger := (badger W).

Fixpoint lru_find (k : bytes) (l : LRU) : option Sequence :=
  match l with
  | [] => None
  | (k', v) :: l' => if decide (k = k') then Some v else lru_find k l'
  end.

Definition lru_drop (k : bytes) (l : LRU) : LRU := filter (fun e => e.1 <> k) l.

(** Entries hold pointers: a sequence that is used changes in place. *)
Definition lru_poke (k : bytes) (v : Sequence) (l : LRU) : LRU :=
  map (fun e => if decide (e.1 = k) then (k, v) else e) l.

Definition lru_Get (k : bytes) (l : LRU) : option Sequence * LRU :=
  match lru_find k l with
  | Some v => (Some v, (k, v) :: lru_drop k l)
  | None => (None, l)
  end.

(** The cache keys are strings, and the log message for a failed release
    asserts that they are byte slices. *)
Definition onEvict (k : bytes) (v : Sequence) (db : badger) : outcome unit * badger :=
  match Release v db with
  | (Ok _, db, _) => (Ok tt, db)
  | (Err _, db, _) => (Panic "interface conversion: interface {} is string, not []uint8", db)
  | (Panic p, db, _) => (Panic p, db)
  end.

(** Removing the oldest entry, the last one, calls [onEvict] on it. *)
Definition removeOldest (l : LRU) (db : badger) : outcome unit * (LRU * badger) :=
  match last l with
  | None => (Ok tt, (l, db))
  | Some (k, v) => let '(r, db) := onEvict k v db in (r, (removelast l, db))
  end.

Definition lru_Add (sz : nat) (k : bytes) (v : Sequence) (l : LRU) (db : badger) : outcome unit * (LRU * badger) :=
  match lru_find k l with
  | Some _ => (Ok tt, ((k, v) :: lru_drop k l, db))
  | None =>
      let l := (k, v) :: l in
      if (sz <? length l)%nat then removeOldest l db else (Ok tt, (l, db))
  end.

(** The entries are visited in the order that Go's map iteration takes. *)
Fixpoint lru_Purge (l : LRU) (db : badger) : outcome unit * (LRU * badger) :=
  match l with
  | [] => (Ok tt, ([], db))
  | (k, v) :: l' =>
      match onEvict k v db with
      | (Ok _, db) => lru_Purge l' db
      | (Err e, db) => (Err e, (l, db))
      | (Panic p, db) => (Panic p, (l, db))
      end
  end.

(** ** The sequence cache ([cache.go]) *)
Definition sequenceCacheBucketCount : Z := 16.
Definition sequenceCacheBucketSize : nat := 64.
Definition sequenceBandwidth : Z := 512.

(** How a retry loop of the model ends that is given too few rounds. *)
Definition retrying : string := "retrying".

(** The two loops of [IncrementKey]: a conflict is tried again. *)
Fixpoint get_sequence_loop (rounds : nat) (seqKey : bytes) (db : badger) : outcome Sequence * badger :=
  match rounds with
  | O => (Panic retrying, db)
  | S rounds =>
      match GetSequence seqKey sequenceBandwidth db with
      | (Ok seq, db) => (Ok seq, db)
      | (Err e, db) => if bool_decide (e = ErrConflict) then get_sequence_loop rounds seqKey db else (Err e, db)
      | (Panic p, db) => (Panic p, db)
      end
  end.

Fixpoint next_loop (rounds : nat) (seq : Sequence) (db : badger) : outcome Z * badger * Sequence :=
  match rounds with
  | O => (Panic retrying, db, seq)
  | S rounds =>
      match Next seq db with
      | (Ok x, db, seq) => (Ok x, db, seq)
      | (Err e, db, seq) => if bool_decide (e = ErrConflict) then next_loop rounds seq db else (Err e, db, seq)
      | (Panic p, db, seq) => (Panic p, db, seq)
      end
  end.

Definition rounds (db : badger) : nat := S (conflicts (disk db)).

Definition bucket_next (scopeKey : bytes) (seq : Sequence) (lru : LRU) (db : badger) : outcome Z * (LRU * badger) :=
  let '(r, db, seq) := next_loop (rounds db) seq db in (r, (lru_poke scopeKey seq lru, db)).

Definition bucket_IncrementKey (scopeKey : bytes) (lru : LRU) (db : badger) : outcome Z * (LRU * badger) :=
  match lru_Get scopeKey lru with
  | (Some seq, lru) => bucket_next scopeKey seq lru db
  | (None, lru) =>
      match UnlistedKey (Some scopeKey) with
      | Ok seqKey =>
          match get_sequence_loop (rounds db) seqKey db with
          | (Ok seq, db) =>
              match lru_Add sequenceCacheBucketSize scopeKey seq lru db with
              | (Ok _, (lru, db)) => bucket_next scopeKey seq lru db
              | (Err e, (lru, db)) => (Err e, (lru, db))
              | (Panic p, (lru, db)) => (Panic p, (lru, db))
              end
          | (Err e, db) => (Err e, (lru, db))
          | (Panic p, db) => (Panic p, (lru, db))
          end
      | Err e => (Err e, (lru, db))
      | Panic p => (Panic p, (lru, db))
      end
  end.

Definition newSequenceCache : sequenceCache := replicate (Z.to_nat sequenceCacheBucketCount) [].

Definition bucket_index (scopeKey : bytes) : nat := Z.to_nat (ChecksumIEEE scopeKey mod sequenceCacheBucketCount).

Definition cache_IncrementKey (scopeKey : bytes) (cache : sequenceCache) (db : badger)
  : outcome bytes * (sequenceCache * badger) :=
  let index := bucket_index scopeKey in
  match cache !! index with
  | None => (Panic "index out of range", (cache, db))
  | Some lru =>
      let '(r, (lru, db)) := bucket_IncrementKey scopeKey lru db in
      (let! seqIndex := r in ScopedSequenceKey (Some scopeKey) seqIndex, (<[index := lru]> cache, db))
  end.

Fixpoint cache_Purge (range : LRU -> LRU) (cache : sequenceCache) (db : badger) : outcome unit * (sequenceCache * badger) :=
  match cache with
  | [] => (Ok tt, ([], db))
  | lru :: rest =>
      match lru_Purge (range lru) db with
      | (Ok _, (lru, db)) => let '(r, (rest, db)) := cache_Purge range rest db in (r, (lru :: rest, db))
      | (Err e, (lru, db)) => (Err e, (lru :: rest, db))
      | (Panic p, (lru, db)) => (Panic p, (lru :: rest, db))
      end
  end.

(** ** The database ([badger.go]) *)
Record BadgerDB := { db : badger; seqCache : sequenceCache }.

(** [NewWithOpts] on a store that [badger.Open] opened. *)
Definition NewWithOpts (opened : badger) : BadgerDB := {| db := opened; seqCache := newSequenceCache |}.

Definition mapBadgerError (e : error) : error :=
  if bool_decide (e = ErrKeyNotFound) then ErrNotFound
  else if bool_decide (e = ErrConflict) then DB.ErrConflict
  else if bool_decide (e = ErrEmptyKey) then ErrNilKey
  else e.

Definition map_error {A} (r : outcome A) : outcome A :=
  match r with Err e => Err (mapBadgerError e) | r => r end.

(** One write transaction; the error is mapped. *)
Definition update (fn : Txn W -> outcome (Txn W)) (bdb : BadgerDB) : outcome unit * BadgerDB :=
  let '(r, d, _) := Update (fun txn => (fn txn, tt)) (db bdb) in
  (map_error r, {| db := d; seqCache := seqCache bdb |}).

Definition bdb_Set (key data : slice) (bdb : BadgerDB) : outcome unit * BadgerDB :=
  match key with
  | None => (Err ErrNilKey, bdb)
  | Some k => update (tx_Set k (slice_bytes data)) bdb
  end.

Definition bdb_SetScoped (scopeKey data : slice) (bdb : BadgerDB) : outcome bytes * BadgerDB :=
  match scopeKey with
  | None => (Err ErrNilKey, bdb)
  | Some sk =>
      let '(r, (cache, d)) := cache_IncrementKey sk (seqCache bdb) (db bdb) in
      let bdb := {| db := d; seqCache := cache |} in
      match r with
      | Ok key =>
          let '(r, bdb) := update (tx_Set key (slice_bytes data)) bdb in
          (let! _ := r in Ok key, bdb)
      | Err e => (Err e, bdb)
      | Panic p => (Panic p, bdb)
      end
  end.

Definition bdb_Get (key : slice) (bdb : BadgerDB) : outcome bytes :=
  match key with
  | None => Err ErrNilKey
  | Some k => map_error (View (fun txn => let! item := tx_Get k txn in item_Value item txn) (db bdb))
  end.

Definition bdb_Exists (key : slice) (bdb : BadgerDB) : outcome bool :=
  match key with
  | None => Err ErrNilKey
  | Some k =>
      map_error (View (fun txn =>
        match tx_Get k txn with
        | Err e => if bool_decide (e = ErrKeyNotFound) then Ok false else Err e
        | Panic p => Panic p
        | Ok _ => Ok true
        end) (db bdb))
  end.

Definition bdb_Delete (key : slice) (bdb : BadgerDB) : outcome unit * BadgerDB :=
  match key with
  | None => (Err ErrNilKey, bdb)
  | Some k => update (tx_Delete k) bdb
  end.

(** The loop of [ListItems] from the iterator's position on. *)
Fixpoint list_loop {A} (pred : bytes -> bool) (cb : callback A) (a : A) (items : list (bytes * bytes)) : outcome A :=
  match items with
  | [] => Ok a
  | (k, v) :: rest =>
      if pred k then let! a := cb a {| item_key := k; item_val := v |} in list_loop pred cb a rest
      else Ok a
  end.

Definition bdb_ListItems {A} (cb : callback A) (prefix : slice) (a : A) (bdb : BadgerDB) : outcome A :=
  let items := iterator_items (db bdb) in
  match prefix with
  | Some p => list_loop (fun k => has_prefix k p) cb a (Seek p items)
  | None => list_loop (fun _ => true) cb a items
  end.

Definition bdb_Close (range : LRU -> LRU) (bdb : BadgerDB) : outcome unit * BadgerDB :=
  let '(r, (cache, d)) := cache_Purge range (seqCache bdb) (db bdb) in
  let bdb := {| db := d; seqCache := cache |} in
  match r with
  | Ok _ => (map_error match close_fault (disk d) with Some e => Err e | None => Ok tt end, bdb)
  | r => (r, bdb)
  end.

#[global] Instance badger_DB : DB BadgerDB := {|
  Set_ := bdb_Set; SetScoped := bdb_SetScoped; Get := bdb_Get; Exists_ := bdb_Exists;
  Delete := bdb_Delete; ListItems := @bdb_ListItems; Close := bdb_Close id |}.
End Cache.
Arguments BadgerDB : clear implicits.
