(* ===== verification/BadgerInv.v ===== *)
(** * Invariants of the badger back end

    The sequence objects, the LRU buckets and the database of [Badger]: in calm
    weather, in which the leases of the sequences can be stored, no number that
    is in use for a stored key is handed out again ([ok]), and insertions,
    deletions, orderly restarts and crashes keep this so ([happens_ok]). *)

From stdpp Require Import sorting.
From S2P Require Import Prelude Crc32 Keys DB Badger.
Import Engine.
Open Scope Z_scope.

(** The key of the sequence of a scope, and the keys that are no such keys. *)
Definition unl (sk : bytes) : bytes := [Byte.x5f; Byte.x5f] ++ sk.
Definition listed_key (k : bytes) : Prop := has_prefix k [Byte.x5f; Byte.x5f] = false.
Definition scope_ok (sk : bytes) : Prop := forall g, listed_key (sk ++ g).

Lemma unl_unlisted sk : ~ listed_key (unl sk).
Proof. unfold listed_key, unl. by rewrite has_prefix_app. Qed.

Lemma listed_ne k sk : listed_key k -> k <> unl sk.
Proof. intros Hk ->. by eapply unl_unlisted. Qed.

#[export] Instance unl_inj : Inj (=) (=) unl.
Proof. intros a b H. by apply app_inv_head in H. Qed.

(** The number that is stored for a scope. *)
Definition number (m : gmap bytes bytes) (sk : bytes) : Z :=
  match m !! unl sk with None => 0 | Some v => le_get (rev (take 8 v)) end.

Lemma number_range m sk : 0 <= number m sk < 2 ^ 64.
Proof.
  unfold number. destruct (m !! unl sk) as [v|]; [|lia].
  pose proof (le_get_range (rev (take 8 v))) as Hr.
  assert (256 ^ Z.of_nat (length (rev (take 8 v))) <= 256 ^ 8); [|change (256 ^ 8) with (2 ^ 64) in *; lia].
  apply Z.pow_le_mono_r; [lia|]. rewrite length_rev, length_take. lia.
Qed.

Lemma number_insert m sk sk' z :
  0 <= z < 2 ^ 64 ->
  number (<[unl sk := be_put64 z]> m) sk' = if decide (sk = sk') then z else number m sk'.
Proof.
  intros Hz. unfold number. rewrite lookup_insert. case_decide as E.
  - apply (inj unl) in E. rewrite decide_True by done. unfold be_put64.
    rewrite take_ge by (rewrite length_rev, length_le_put; done).
    rewrite rev_involutive. by apply le_get_put.
  - rewrite decide_False; [done|congruence].
Qed.

Lemma number_listed m k v sk : listed_key k -> number (<[k := v]> m) sk = number m sk.
Proof. intros Hk. unfold number. rewrite lookup_insert_ne; [done|]. by apply listed_ne. Qed.

Lemma number_delete m k sk : listed_key k -> number (delete k m) sk = number m sk.
Proof. intros Hk. unfold number. rewrite lookup_delete_ne; [done|]. by apply listed_ne. Qed.

(** The two maps agree on everything but sequences. *)
Definition same_objects (m m' : gmap bytes bytes) : Prop := forall k, listed_key k -> m' !! k = m !! k.

#[export] Instance same_objects_preorder : PreOrder same_objects.
Proof. split; [by intros m k|]. intros m1 m2 m3 H1 H2 k Hk. by rewrite H2, H1. Qed.

Lemma same_objects_insert m sk v : same_objects m (<[unl sk := v]> m).
Proof. intros k Hk. rewrite lookup_insert_ne; [done|]. intros E. by apply (listed_ne k sk). Qed.

#[export] Hint Resolve number_range same_objects_insert : zstor.

(** ** Transactions *)
Section Transactions.
Context `{Disk W}.
Implicit Types (d : badger W).

(** The commit of a transaction with one write. *)
Definition commit_one (k : bytes) (o : option bytes) (d : badger W) : outcome unit * badger W :=
  match commit_fault {[k := o]} (disk d) with
  | (Some e, w) => (Err e, {| content := content d; disk := w |})
  | (None, w) => (Ok tt, {| content := apply_write k o (content d); disk := w |})
  end.

Lemma Commit_one txn k o d : pendingWrites txn = {[k := o]} -> Commit txn d = commit_one k o d.
Proof using.
  intros Hp. unfold Commit, commit_one. rewrite Hp, bool_decide_eq_false_2 by apply map_non_empty_singleton.
  destruct (commit_fault _ _) as [[e|] w]; [done|]. by rewrite map_fold_singleton.
Qed.

Lemma checkSize_writes k v (txn : Txn W) :
  (exists txn', checkSize k v txn = Ok txn' /\ pendingWrites txn' = pendingWrites txn) \/ exists e, checkSize k v txn = Err e.
Proof using. unfold checkSize. destruct (_ || _); eauto. Qed.

Lemma tx_Set_new k v d :
  (exists txn, tx_Set k v (NewTransaction d) = Ok txn /\ pendingWrites txn = {[k := Some v]}) \/
  exists e, tx_Set k v (NewTransaction d) = Err e.
Proof using.
  unfold tx_Set. repeat case_match; eauto.
  destruct (checkSize_writes k v (NewTransaction d)) as [(txn & -> & Hp)|[e ->]]; [left|by right; exists e].
  eexists. split; [done|]. cbn. by rewrite Hp.
Qed.

Lemma tx_Delete_new k d :
  (exists txn, tx_Delete k (NewTransaction d) = Ok txn /\ pendingWrites txn = {[k := None]}) \/
  exists e, tx_Delete k (NewTransaction d) = Err e.
Proof using.
  unfold tx_Delete. repeat case_match; eauto.
  destruct (checkSize_writes k [] (NewTransaction d)) as [(txn & -> & Hp)|[e ->]]; [left|by right; exists e].
  eexists. split; [done|]. cbn. by rewrite Hp.
Qed.

(** An update that is one write: refused, or its commit. *)
Definition one_write {A} k o (fn : Txn W -> outcome (Txn W) * A) d : Prop :=
  (exists e, fn (NewTransaction d) = (Err e, (fn (NewTransaction d)).2) /\
     Update fn d = (Err e, d, (fn (NewTransaction d)).2)) \/
  Update fn d = (commit_one k o d, (fn (NewTransaction d)).2).

Lemma Update_set {A} k v (a : A) d : one_write k (Some v) (fun txn => (tx_Set k v txn, a)) d.
Proof using.
  unfold one_write, Update. destruct (tx_Set_new k v d) as [(txn & -> & Hp)|[e ->]]; [right|left; by exists e].
  by rewrite (Commit_one _ _ _ _ Hp).
Qed.

Lemma Update_delete {A} k (a : A) d : one_write k None (fun txn => (tx_Delete k txn, a)) d.
Proof using.
  unfold one_write, Update. destruct (tx_Delete_new k d) as [(txn & -> & Hp)|[e ->]]; [right|left; by exists e].
  by rewrite (Commit_one _ _ _ _ Hp).
Qed.

(** A read of a sequence that gives a number gives the stored one. *)
Lemma stored_number_ok sk q d n :
  seq_key q = unl sk -> stored_number q (NewTransaction d) = Ok n -> n = number (content d) sk.
Proof using.
  intros Hk. unfold stored_number, tx_Get, number. rewrite Hk. cbn [length unl app Nat.eqb].
  cbn [NewTransaction pendingWrites snapshot]. rewrite lookup_empty.
  pose proof (get_fault_other (unl sk) (disk d)) as Hother. change (Byte.x5f :: Byte.x5f :: sk) with (unl sk).
  destruct (get_fault (unl sk) (disk d)) as [e|].
  { rewrite bool_decide_eq_false_2; [done|]. by apply Hother. }
  destruct (content d !! unl sk) as [v|]; [|by intros [= <-]].
  unfold item_Value. cbn [prefetched key_ val_].
  destruct (value_fault _ _); [done|]. cbn [obind]. unfold be_u64. case_match; [done|]. by intros [= <-].
Qed.

(** The three ways in which a lease is renewed, or not. *)
Lemma updateLease_cases q d :
  (exists r, updateLease q d = (r, d, q) /\ r <> Ok tt) \/
  exists n, stored_number q (NewTransaction d) = Ok n /\
    ((exists e, updateLease q d = (Err e, d, with_next n q)) \/
     updateLease q d = (commit_one (seq_key q) (Some (be_put64 (u64 (n + bandwidth q)))) d,
                        with_leased (u64 (n + bandwidth q)) (with_next n q))).
Proof using.
  unfold updateLease, Update. destruct (stored_number q (NewTransaction d)) as [n|e|p]; [right|left; by exists (Err e)|left; by exists (Panic p)].
  exists n. split; [done|]. cbn [with_next next bandwidth seq_key].
  destruct (tx_Set_new (seq_key q) (be_put64 (u64 (n + bandwidth q))) d) as [(txn & -> & Hp)|[e ->]]; [right|left; by exists e].
  by rewrite (Commit_one _ _ _ _ Hp).
Qed.
End Transactions.

(** ** Sequences in calm weather *)

(** A disk on which commits of sequences succeed.  Reads, and commits of other
    transactions, may fail. *)
Class Calm (W : Type) `{Disk W} := {
  calm : W -> Prop;
  calm_commit ws w r w' : calm w -> commit_fault ws w = (r, w') ->
    calm w' /\ (forall sk v, ws = {[unl sk := Some v]} -> r = None);
}.

Section Sequences.
Context `{Calm W}.
Implicit Types (d : badger W) (m : gmap bytes bytes).

Lemma commit_calm k o d r d' :
  calm (disk d) -> commit_one k o d = (r, d') ->
  calm (disk d') /\ (r = Ok tt /\ content d' = apply_write k o (content d) \/ (exists e, r = Err e) /\ content d' = content d).
Proof using.
  intros Hc. unfold commit_one. destruct (commit_fault _ _) as [f w] eqn:Hf.
  destruct (calm_commit _ _ _ _ Hc Hf) as [Hw _]. destruct f as [e|]; intros [= <- <-]; eauto.
Qed.

Lemma commit_lease sk v d :
  calm (disk d) -> exists w, calm w /\ commit_one (unl sk) (Some v) d = (Ok tt, {| content := <[unl sk := v]> (content d); disk := w |}).
Proof using.
  intros Hc. unfold commit_one. destruct (commit_fault _ _) as [f w] eqn:Hf.
  destruct (calm_commit _ _ _ _ Hc Hf) as [Hw Hr]. rewrite (Hr sk v eq_refl). by exists w.
Qed.

(** A sequence object never runs ahead of what is stored. *)
Record seq_ok (m : gmap bytes bytes) (sk : bytes) (q : Sequence) : Prop := {
  so_key : seq_key q = unl sk;
  so_band : bandwidth q = sequenceBandwidth;
  so_next : 0 <= next q <= number m sk;
  so_leased : leased q <= number m sk;
}.

Lemma seq_ok_number m m' sk q : number m sk <= number m' sk -> seq_ok m sk q -> seq_ok m' sk q.
Proof using. intros Hn [? ? ? ?]. split; [done|done|lia|lia]. Qed.

(** What an operation on the sequence of [sk] does to the store: other
    sequences and the objects stay. *)
Record only_seq (sk : bytes) (d d' : badger W) : Prop := {
  os_calm : calm (disk d');
  os_other : forall sk', sk' <> sk -> number (content d') sk' = number (content d) sk';
  os_objects : same_objects (content d) (content d');
}.

Lemma only_seq_refl sk d : calm (disk d) -> only_seq sk d d.
Proof using. by split. Qed.

Lemma only_seq_put sk d z w :
  calm w -> 0 <= z < 2 ^ 64 ->
  only_seq sk d {| content := <[unl sk := be_put64 z]> (content d); disk := w |}.
Proof using.
  intros Hw Hz. split; cbn [content disk]; [done| |auto with zstor].
  intros sk' Hne. rewrite number_insert by done. by rewrite decide_False.
Qed.

Definition fails {A} (r : outcome A) : Prop := match r with Ok _ => False | _ => True end.

(** A renewed lease starts at the stored number; otherwise nothing is stored. *)
Lemma updateLease_ok sk q d r d' q' :
  calm (disk d) -> seq_ok (content d) sk q -> number (content d) sk + sequenceBandwidth < 2 ^ 64 ->
  updateLease q d = (r, d', q') ->
  only_seq sk d d' /\ seq_ok (content d') sk q' /\ next q <= next q' /\
  (r = Ok tt /\ next q' = number (content d) sk /\ leased q' = next q' + sequenceBandwidth /\
     number (content d') sk = number (content d) sk + sequenceBandwidth \/ fails r /\ d' = d).
Proof using.
  intros Hc [Hk Hb Hn Hl] Hroom. pose proof (number_range (content d) sk) as Hrange.
  assert (Hu : forall n, n = number (content d) sk -> u64 (n + sequenceBandwidth) = n + sequenceBandwidth)
    by (intros n ->; unfold u64, sequenceBandwidth in *; rewrite Z.mod_small; lia).
  destruct (updateLease_cases q d) as [(r0 & -> & Hr0)|(n & Hs & [[e ->]| ->])].
  - intros [= <- <- <-]. split_and!; [by apply only_seq_refl|done|lia|right]. by destruct r0 as [[]| |].
  - apply (stored_number_ok sk) in Hs; [|done]. intros [= <- <- <-].
    split_and!; [by apply only_seq_refl| |cbn; lia|right; split; done]. split; cbn; [done|done|lia|lia].
  - apply (stored_number_ok sk) in Hs; [|done]. rewrite Hk, Hb, Hu by done.
    destruct (commit_lease sk (be_put64 (n + sequenceBandwidth)) d Hc) as (w & Hw & ->). intros [= <- <- <-].
    unfold sequenceBandwidth in *. cbn [content with_leased with_next next leased].
    assert (Hnum : number (<[unl sk := be_put64 (n + 512)]> (content d)) sk = n + 512)
      by (rewrite number_insert by lia; by rewrite decide_True).
    split_and!; [apply only_seq_put; [done|lia]| |lia|left; rewrite Hnum; split_and!; [done|lia..]].
    split; cbn [seq_key bandwidth next leased with_leased with_next]; [done|done|lia|lia].
Qed.

(** The next number is new, and below what is now recorded as used. *)
Lemma Next_ok sk q d r d' q' :
  calm (disk d) -> seq_ok (content d) sk q ->
  next q < leased q \/ number (content d) sk + sequenceBandwidth < 2 ^ 64 ->
  Next q d = (r, d', q') ->
  only_seq sk d d' /\ seq_ok (content d') sk q' /\ next q <= next q' /\
  number (content d) sk <= number (content d') sk <= number (content d) sk + sequenceBandwidth /\
  (next q < leased q -> d' = d) /\
  match r with Ok x => next q <= x < next q' | _ => d' = d end.
Proof using.
  intros Hc Hq Hroom. unfold Next. pose proof (number_range (content d) sk). destruct (Z.leb_spec (leased q) (next q)) as [Hle|Hlt].
  - destruct Hroom as [?|Hroom]; [lia|]. destruct (updateLease q d) as [[r0 d0] q0] eqn:Hu.
    destruct (updateLease_ok _ _ _ _ _ _ Hc Hq Hroom Hu) as (Hs & Hq0 & Hn0 & [(-> & Hn & Hl & Hnum)|[Hf ->]]).
    + unfold take_next, sequenceBandwidth, u64 in *. intros [= <- <- <-]. destruct Hq0 as [? ? ? ?], Hq as [? ? ? ?].
      rewrite (Z.mod_small (next q0 + 1)) by lia.
      split_and!; cbn [with_next next]; try lia; [done|]. split; cbn; [done|done|lia|lia].
    + destruct r0 as [[]|e|p]; [done| |]; intros [= <- <- <-]; unfold sequenceBandwidth; split_and!; try done; lia.
  - unfold take_next. intros [= <- <- <-]. destruct Hq as [? ? ? ?].
    unfold u64, sequenceBandwidth. rewrite Z.mod_small by lia.
    split_and!; cbn [with_next next]; try lia; [by apply only_seq_refl| |done]. split; cbn; [done|done|lia|lia].
Qed.

Lemma next_loop_ok sk n q d r d' q' :
  calm (disk d) -> seq_ok (content d) sk q ->
  next q < leased q \/ number (content d) sk + sequenceBandwidth < 2 ^ 64 ->
  next_loop n q d = (r, d', q') ->
  only_seq sk d d' /\ seq_ok (content d') sk q' /\ next q <= next q' /\
  number (content d) sk <= number (content d') sk <= number (content d) sk + sequenceBandwidth /\
  (next q < leased q -> d' = d) /\
  match r with Ok x => next q <= x < next q' | _ => d' = d end.
Proof using.
  revert q. induction n as [|n IH]; intros q Hc Hq Hroom; cbn [next_loop].
  { intros [= <- <- <-]. unfold sequenceBandwidth; split_and!; try done; try (by apply only_seq_refl); lia. }
  destruct (Next q d) as [[r0 d0] q0] eqn:Hn. pose proof (Next_ok _ _ _ _ _ _ Hc Hq Hroom Hn) as HN.
  destruct r0 as [x|e|p]; [by intros [= <- <- <-]| |by intros [= <- <- <-]].
  destruct HN as (_ & Hq0 & Hle & _ & Hsame & ->). case_bool_decide; [|intros [= <- <- <-]; unfold sequenceBandwidth; split_and!; try done; try (by apply only_seq_refl); lia].
  assert (Hge : leased q <= next q).
  { destruct (Z.le_gt_cases (leased q) (next q)) as [?|Hlt]; [done|]. unfold Next in Hn.
    destruct (Z.leb_spec (leased q) (next q)); [lia|done]. }
  intros Hloop. apply IH in Hloop as (? & ? & ? & ? & ? & Hr); [|done|done|right; by destruct Hroom as [?|]; [lia|]].
  split_and!; try done; try lia. destruct r; try done. lia.
Qed.

Lemma GetSequence_ok sk d r d' :
  calm (disk d) -> number (content d) sk + sequenceBandwidth < 2 ^ 64 ->
  GetSequence (unl sk) sequenceBandwidth d = (r, d') ->
  match r with
  | Ok q => only_seq sk d d' /\ seq_ok (content d') sk q /\ next q = number (content d) sk /\ next q < leased q /\
      number (content d') sk = number (content d) sk + sequenceBandwidth
  | _ => d' = d
  end.
Proof using.
  intros Hc Hroom. unfold GetSequence. change (length (unl sk) =? 0)%nat with false. change (sequenceBandwidth =? 0) with false.
  cbv iota. pose proof (number_range (content d) sk) as Hr.
  set (q0 := {| seq_key := unl sk; next := 0; leased := 0; bandwidth := sequenceBandwidth |}).
  assert (Hq0 : seq_ok (content d) sk q0) by (split; cbn; [done|done|lia|lia]).
  destruct (updateLease q0 d) as [[r0 d0] q1] eqn:Hu.
  destruct (updateLease_ok _ _ _ _ _ _ Hc Hq0 Hroom Hu) as (Hs & Hq1 & _ & [(-> & Hn & Hl & Hnum)|[Hf ->]]).
  - intros [= <- <-]. unfold sequenceBandwidth in *. split_and!; try done; lia.
  - destruct r0 as [[]|e|p]; [done| |]; by intros [= <- <-].
Qed.

Lemma get_sequence_loop_ok sk n d r d' :
  calm (disk d) -> number (content d) sk + sequenceBandwidth < 2 ^ 64 ->
  get_sequence_loop n (unl sk) d = (r, d') ->
  match r with
  | Ok q => only_seq sk d d' /\ seq_ok (content d') sk q /\ next q = number (content d) sk /\ next q < leased q /\
      number (content d') sk = number (content d) sk + sequenceBandwidth
  | _ => d' = d
  end.
Proof using.
  intros Hc Hroom. induction n as [|n IH]; cbn [get_sequence_loop]; [by intros [= <- <-]|].
  destruct (GetSequence (unl sk) sequenceBandwidth d) as [r0 d0] eqn:Hg.
  pose proof (GetSequence_ok _ _ _ _ Hc Hroom Hg) as Hok. destruct r0 as [q|e|p]; [by intros [= <- <-]| |by intros [= <- <-]].
  subst d0. case_bool_decide; [done|by intros [= <- <-]].
Qed.

(** A sequence that is released is stored as far as it was used. *)
Lemma onEvict_ok sk q d r d' :
  calm (disk d) -> seq_ok (content d) sk q -> onEvict sk q d = (r, d') ->
  only_seq sk d d' /\ next q <= number (content d') sk <= number (content d) sk.
Proof using.
  intros Hc [Hk _ Hn _]. unfold onEvict, Release. rewrite Hk. pose proof (number_range (content d) sk).
  destruct (Update_set (unl sk) (be_put64 (next q)) tt d) as [(e & _ & ->)| ->].
  - intros [= <- <-]. split; [by apply only_seq_refl|lia].
  - destruct (commit_lease sk (be_put64 (next q)) d Hc) as (w & Hw & ->). intros [= <- <-]. cbn [content].
    split; [apply only_seq_put; [done|lia]|]. rewrite number_insert, decide_True by (done || lia). lia.
Qed.
End Sequences.

(** ** The LRU cache *)
Section Lru.
Implicit Types (l : LRU) (q : Sequence).

Lemma lru_find_None k l : lru_find k l = None <-> k ∉ l.*1.
Proof.
  induction l as [|[k' v] l IH]; cbn; [set_solver|]. case_decide; [subst|rewrite IH]; set_solver.
Qed.

Lemma lru_find_app k l1 l2 :
  lru_find k (l1 ++ l2) = match lru_find k l1 with Some q => Some q | None => lru_find k l2 end.
Proof. induction l1 as [|[k' v] l1 IH]; cbn; [done|]. by case_decide. Qed.

Lemma lru_find_drop k k' l : lru_find k' (lru_drop k l) = if decide (k = k') then None else lru_find k' l.
Proof.
  unfold lru_drop. induction l as [|[k1 v] l IH]; [by case_decide|]. rewrite filter_cons. cbn [fst].
  destruct (decide (k1 = k)) as [->|Hne].
  - rewrite decide_False by naive_solver. rewrite IH. cbn. repeat case_decide; naive_solver.
  - rewrite decide_True by done. cbn [lru_find]. rewrite IH. repeat case_decide; naive_solver.
Qed.

Lemma lru_find_poke k q k' l :
  lru_find k' (lru_poke k q l) = if decide (k = k') then (fun _ => q) <$> lru_find k l else lru_find k' l.
Proof.
  induction l as [|[k1 v] l IH]; cbn [lru_poke map]; [by case_decide|]. fold (lru_poke k q l). cbn [fst].
  destruct (decide (k1 = k)) as [->|Hne]; cbn [lru_find]; rewrite IH; repeat case_decide; naive_solver.
Qed.

Lemma lru_poke_keys k q l : (lru_poke k q l).*1 = l.*1.
Proof.
  induction l as [|[k1 v] l IH]; cbn [lru_poke map fmap list_fmap fst]; [done|]. fold (lru_poke k q l).
  f_equal; [|done]. by case_decide.
Qed.

Lemma NoDup_lru_drop k l : NoDup l.*1 -> NoDup (lru_drop k l).*1.
Proof.
  intros Hl. unfold lru_drop. induction l as [|[k1 v] l IH]; [done|]. apply NoDup_cons in Hl as [Hk Hl].
  rewrite filter_cons. case_decide; cbn; [|by apply IH]. apply NoDup_cons. split; [|by apply IH].
  intros Hin. apply Hk. apply list_elem_of_fmap in Hin as (e & -> & He). apply list_elem_of_filter in He as [_ He].
  apply list_elem_of_fmap. by exists e.
Qed.

(** The oldest entry is a cached one, and what stays cached is the rest. *)
Lemma lru_oldest l k q :
  NoDup l.*1 -> last l = Some (k, q) ->
  lru_find k l = Some q /\ NoDup (removelast l).*1 /\
  (forall k', lru_find k' (removelast l) = if decide (k = k') then None else lru_find k' l).
Proof.
  intros Hnd Hl. apply last_Some in Hl as [l' ->]. rewrite removelast_last.
  rewrite fmap_app in Hnd. apply NoDup_app in Hnd as (Hnd & Hdis & _).
  assert (Hk : lru_find k l' = None) by (apply lru_find_None; intros Hin; apply (Hdis k Hin); set_solver).
  split_and!; [rewrite lru_find_app, Hk; cbn; by rewrite decide_True|done|].
  intros k'. rewrite lru_find_app. cbn. destruct (decide (k = k')) as [<-|Hne]; [done|].
  rewrite decide_False by done. by destruct (lru_find k' l').
Qed.
End Lru.

(** ** Buckets of the sequence cache *)
Section Buckets.
Context `{Calm W}.
Implicit Types (d : badger W) (m : gmap bytes bytes) (l : LRU).

Definition bucket_ok (i : nat) (m : gmap bytes bytes) (l : LRU) : Prop :=
  NoDup l.*1 /\ (forall k q, lru_find k l = Some q -> bucket_index k = i /\ seq_ok m k q).

(** The numbers of a scope that may be in use are below this one. *)
Definition used_in (l : LRU) (m : gmap bytes bytes) (sk : bytes) : Z :=
  match lru_find sk l with Some q => next q | None => number m sk end.

(** What an operation on bucket [i] does: numbers in use stay in use, leases
    grow by [c] at most, other buckets and objects are not concerned. *)
Record bucket_step (c : Z) (i : nat) (l : LRU) (d : badger W) (l' : LRU) (d' : badger W) : Prop := {
  bs_ok : bucket_ok i (content d') l';
  bs_calm : calm (disk d');
  bs_used : forall sk, bucket_index sk = i -> used_in l (content d) sk <= used_in l' (content d') sk;
  bs_other : forall sk, bucket_index sk <> i -> number (content d') sk = number (content d) sk;
  bs_number : forall sk, number (content d') sk <= number (content d) sk + c;
  bs_objects : same_objects (content d) (content d');
}.

Lemma bucket_step_trans c1 c2 i l1 d1 l2 d2 l3 d3 :
  bucket_step c1 i l1 d1 l2 d2 -> bucket_step c2 i l2 d2 l3 d3 -> bucket_step (c1 + c2) i l1 d1 l3 d3.
Proof using.
  intros [_ _ Hu1 Ho1 Hn1 Hs1] [Hok Hc Hu2 Ho2 Hn2 Hs2]. split; try done.
  - intros sk Hi. etrans; [by apply Hu1|by apply Hu2].
  - intros sk Hi. by rewrite Ho2, Ho1.
  - intros sk. specialize (Hn1 sk). specialize (Hn2 sk). lia.
  - by etrans.
Qed.

Lemma bucket_step_le c c' i l d l' d' : c <= c' -> bucket_step c i l d l' d' -> bucket_step c' i l d l' d'.
Proof using. intros Hc [? ? ? ? Hn ?]. split; try done. intros sk. specialize (Hn sk). lia. Qed.

(** Only the order of the entries changed. *)
Lemma bucket_step_same i l d l' :
  bucket_ok i (content d) l -> calm (disk d) -> NoDup l'.*1 -> (forall k, lru_find k l' = lru_find k l) ->
  bucket_step 0 i l d l' d.
Proof using.
  intros [_ Hok] Hc Hnd Hf. split; try done.
  - split; [done|]. intros k q. rewrite Hf. apply Hok.
  - intros sk _. unfold used_in. by rewrite Hf.
  - intros sk. lia.
Qed.

Lemma lru_Get_ok i l d sk o l' :
  bucket_ok i (content d) l -> calm (disk d) -> lru_Get sk l = (o, l') ->
  o = lru_find sk l /\ lru_find sk l' = o /\ bucket_step 0 i l d l' d.
Proof using.
  intros Hok Hc. unfold lru_Get. destruct (lru_find sk l) as [q|] eqn:Hq.
  - intros [= <- <-]. cbn [lru_find]. rewrite decide_True by done. split_and!; [done|done|].
    apply bucket_step_same; [done|done| |].
    + cbn. apply NoDup_cons. split; [apply lru_find_None; rewrite lru_find_drop; by rewrite decide_True|].
      apply NoDup_lru_drop, Hok.
    + intros k. cbn. rewrite lru_find_drop. repeat case_decide; naive_solver.
  - intros [= <- <-]. split_and!; [done|done|]. apply bucket_step_same; try done. apply Hok.
Qed.

(** The sequence of [sk] changed, in the cache and in the store. *)
Lemma bucket_step_seq c i l d l' d' sk q' :
  bucket_ok i (content d) l -> bucket_index sk = i -> only_seq sk d d' -> 0 <= c ->
  NoDup l'.*1 -> (forall k, lru_find k l' = if decide (sk = k) then Some q' else lru_find k l) ->
  seq_ok (content d') sk q' -> used_in l (content d) sk <= next q' ->
  number (content d') sk <= number (content d) sk + c ->
  bucket_step c i l d l' d'.
Proof using.
  intros [_ Hok] Hi [Hc Hother Hobj] Hc0 Hnd Hf Hq Hu Hn. split; try done.
  - split; [done|]. intros k q. rewrite Hf. case_decide as E; [subst k; by intros [= <-]|].
    intros Hk. apply Hok in Hk as [Hk Hs]. split; [done|]. eapply seq_ok_number; [|exact Hs]. rewrite Hother by done. done.
  - intros k Hk. unfold used_in at 2. rewrite Hf. case_decide as E; [by subst k|].
    unfold used_in. by rewrite Hother by done.
  - intros k Hk. apply Hother. congruence.
  - intros k. destruct (decide (k = sk)) as [->|Hne]; [done|]. rewrite Hother by done. lia.
Qed.

Lemma removeOldest_ok i l d r l' d' :
  bucket_ok i (content d) l -> calm (disk d) -> removeOldest l d = (r, (l', d')) ->
  bucket_step 0 i l d l' d' /\ (forall sk, (exists e l0, l = e :: l0 /\ e.1 = sk /\ l0 <> []) -> lru_find sk l' = lru_find sk l).
Proof using.
  intros Hok Hc. unfold removeOldest. destruct (last l) as [[k q]|] eqn:Hlast.
  2: { intros [= <- <- <-]. split; [apply bucket_step_same; try done; apply Hok|done]. }
  destruct (lru_oldest _ _ _ (proj1 Hok) Hlast) as (Hf & Hnd & Hrest). destruct (proj2 Hok k q Hf) as [Hi Hq].
  destruct (onEvict k q d) as [r0 d0] eqn:He. intros [= <- <- <-].
  destruct (onEvict_ok _ _ _ _ _ Hc Hq He) as ([Hc0 Hother Hobj] & Hn). split; [split; try done|].
  - split; [done|]. intros k' q'. rewrite Hrest. case_decide as E; [done|]. intros Hk'.
    apply Hok in Hk' as [Hk' Hs]. split; [done|]. eapply seq_ok_number; [|exact Hs]. rewrite Hother by done. done.
  - intros sk Hsk. unfold used_in. rewrite Hrest. case_decide as E; [subst sk; rewrite Hf; lia|]. by rewrite Hother by done.
  - intros sk Hsk. apply Hother. congruence.
  - intros sk. destruct (decide (sk = k)) as [->|Hne]; [lia|]. rewrite Hother by done. lia.
  - intros sk (e & l0 & -> & <- & Hl0). rewrite Hrest. rewrite decide_False; [done|]. intros ->.
    destruct l0 as [|e0 l0]; [done|]. pose proof (proj1 Hok) as Hkeys. cbn in Hkeys. apply NoDup_cons in Hkeys as [Hnin _]. apply last_Some in Hlast as [l1 Hl1].
    destruct l1 as [|e1 l1]; [done|]. injection Hl1 as -> Hl1. apply Hnin.
    change (e0.1 :: l0.*1) with ((e0 :: l0).*1). rewrite Hl1, fmap_app. set_solver.
Qed.

(** A new sequence enters the cache. *)
Lemma lru_Add_ok sz i l d sk q r l' d' :
  (1 <= sz)%nat -> bucket_ok i (content d) ((sk, q) :: l) -> calm (disk d) -> lru_find sk l = None ->
  lru_Add sz sk q l d = (r, (l', d')) ->
  bucket_step 0 i ((sk, q) :: l) d l' d' /\ lru_find sk l' = Some q.
Proof using.
  intros Hsz Hok Hc Hnone. unfold lru_Add. rewrite Hnone.
  assert (Hhead : lru_find sk ((sk, q) :: l) = Some q) by (cbn; by rewrite decide_True).
  destruct (Nat.ltb_spec sz (length ((sk, q) :: l))) as [Hlen|_]; intros Ha.
  - destruct (removeOldest_ok _ _ _ _ _ _ Hok Hc Ha) as [Hstep Hkeep]. split; [done|]. rewrite <- Hhead.
    apply Hkeep. exists (sk, q), l. split_and!; [done|done|]. destruct l; [cbn in Hlen; lia|done].
  - injection Ha as <- <- <-. split; [|done]. apply bucket_step_same; try done. apply Hok.
Qed.

Lemma bucket_next_ok i l d sk q r l' d' :
  bucket_ok i (content d) l -> calm (disk d) -> bucket_index sk = i -> lru_find sk l = Some q ->
  next q < leased q \/ number (content d) sk + sequenceBandwidth < 2 ^ 64 ->
  bucket_next sk q l d = (r, (l', d')) ->
  exists c, 0 <= c <= sequenceBandwidth /\ (next q < leased q -> c = 0) /\ bucket_step c i l d l' d' /\
    match r with Ok x => used_in l (content d) sk <= x < used_in l' (content d') sk | _ => True end.
Proof using.
  intros Hok Hc Hi Hf Hroom. unfold bucket_next.
  destruct (next_loop (rounds d) q d) as [[r0 d0] q0] eqn:Hn. intros [= <- <- <-].
  destruct (proj2 Hok sk q Hf) as [_ Hq].
  destruct (next_loop_ok _ _ _ _ _ _ _ Hc Hq Hroom Hn) as (Hs & Hq0 & Hle & Hnum & Hsame & Hr).
  assert (Hpoke : forall k, lru_find k (lru_poke sk q0 l) = if decide (sk = k) then Some q0 else lru_find k l)
    by (intros k; rewrite lru_find_poke, Hf; done).
  exists (number (content d0) sk - number (content d) sk). split_and!; [lia|lia| | |].
  - intros Hlt. rewrite (Hsame Hlt). lia.
  - eapply bucket_step_seq; try done; [lia|by rewrite lru_poke_keys; apply Hok|by unfold used_in; rewrite Hf|lia].
  - destruct r0 as [x|e|p]; try done. unfold used_in. by rewrite Hf, Hpoke, decide_True.
Qed.

(** A number that is handed out was not in use, and is in use now. *)
Lemma bucket_IncrementKey_ok i l d sk r l' d' :
  bucket_ok i (content d) l -> calm (disk d) -> bucket_index sk = i ->
  number (content d) sk + sequenceBandwidth < 2 ^ 64 ->
  bucket_IncrementKey sk l d = (r, (l', d')) ->
  bucket_step sequenceBandwidth i l d l' d' /\
  match r with Ok x => used_in l (content d) sk <= x < used_in l' (content d') sk | _ => True end.
Proof using.
  intros Hok Hc Hi Hroom. unfold bucket_IncrementKey.
  destruct (lru_Get sk l) as [o l1] eqn:Hg. destruct (lru_Get_ok _ _ _ _ _ _ Hok Hc Hg) as (-> & Hl1 & Hstep).
  pose proof (bs_ok _ _ _ _ _ _ Hstep) as Hok1.
  assert (Hused : used_in l (content d) sk = used_in l1 (content d) sk) by (unfold used_in; by rewrite Hl1).
  rewrite Hused. destruct (lru_find sk l) as [q|] eqn:Hq.
  { intros Hn. destruct (bucket_next_ok _ _ _ _ _ _ _ _ Hok1 Hc Hi Hl1 ltac:(by right) Hn) as (c & Hcb & _ & Hs & Hr).
    split; [|done]. eapply bucket_step_le; [|eapply bucket_step_trans; [exact Hstep|exact Hs]]. lia. }
  cbn [UnlistedKey]. fold (unl sk). destruct (get_sequence_loop (rounds d) (unl sk) d) as [r1 d1] eqn:Hs.
  apply get_sequence_loop_ok in Hs; [|done|done].
  assert (Hfail : bucket_step sequenceBandwidth i l d l1 d) by (by eapply bucket_step_le; [|exact Hstep]).
  destruct r1 as [q|e|p]; [|subst d1; by intros [= <- <- <-]|subst d1; by intros [= <- <- <-]].
  destruct Hs as (Hos & Hsq & Hnext & Hlt & Hnum).
  assert (Hopen : bucket_step sequenceBandwidth i l1 d ((sk, q) :: l1) d1).
  { eapply (bucket_step_seq _ _ _ _ _ _ sk q); try done; try lia.
    - cbn. apply NoDup_cons. split; [by apply lru_find_None|apply Hok1].
    - intros k. cbn. repeat case_decide; naive_solver.
    - unfold used_in. rewrite Hl1. lia. }
  assert (Hstep1 : bucket_step sequenceBandwidth i l d ((sk, q) :: l1) d1) by exact (bucket_step_trans _ _ _ _ _ _ _ _ _ Hstep Hopen).
  destruct (lru_Add sequenceCacheBucketSize sk q l1 d1) as [r2 [l2 d2]] eqn:Ha.
  assert (Hsz : (1 <= sequenceCacheBucketSize)%nat) by (unfold sequenceCacheBucketSize; lia).
  destruct (lru_Add_ok _ _ _ _ _ _ _ _ _ Hsz (bs_ok _ _ _ _ _ _ Hopen) (os_calm _ _ _ Hos) Hl1 Ha) as [Hs2 Hl2].
  pose proof (bucket_step_trans _ _ _ _ _ _ _ _ _ Hstep1 Hs2) as Hstep2. rewrite Z.add_0_r in Hstep2.
  destruct r2 as [[]|e|p]; [|by intros [= <- <- <-]|by intros [= <- <- <-]]. intros Hn.
  destruct (bucket_next_ok _ _ _ _ _ _ _ _ (bs_ok _ _ _ _ _ _ Hstep2) (bs_calm _ _ _ _ _ _ Hstep2) Hi Hl2 ltac:(by left) Hn)
    as (c & _ & Hc0 & Hs3 & Hr).
  split.
  - eapply bucket_step_le; [|eapply bucket_step_trans; [exact Hstep2|exact Hs3]]. rewrite (Hc0 Hlt). lia.
  - destruct r as [x|e|p]; try done. split; [|lia]. pose proof (bs_used _ _ _ _ _ _ Hs2 sk Hi) as Hu2.
    pose proof (bs_used _ _ _ _ _ _ Hopen sk Hi). lia.
Qed.
End Buckets.

(** ** The database *)
Section Database.
Context `{Calm W}.
Implicit Types (s : BadgerDB W) (d : badger W) (m : gmap bytes bytes).

Definition stored (s : BadgerDB W) : gmap bytes bytes := content (db s).

Definition used (s : BadgerDB W) (sk : bytes) : Z :=
  match seqCache s !! bucket_index sk with
  | Some l => used_in l (stored s) sk
  | None => number (stored s) sk
  end.

(** The invariant: every generated key that is stored has a number that its
    sequence will not hand out again. *)
Record ok (s : BadgerDB W) : Prop := {
  ok_calm : calm (disk (db s));
  ok_len : length (seqCache s) = Z.to_nat sequenceCacheBucketCount;
  ok_buckets : forall i l, seqCache s !! i = Some l -> bucket_ok i (stored s) l;
  ok_used : forall sk n v, scope_ok sk -> 0 <= n < 2 ^ 64 -> stored s !! (sk ++ le_put 8 n) = Some v -> n < used s sk;
}.

Lemma bucket_index_lt sk : (bucket_index sk < Z.to_nat sequenceCacheBucketCount)%nat.
Proof using.
  unfold bucket_index. pose proof (Z.mod_pos_bound (ChecksumIEEE sk) sequenceCacheBucketCount eq_refl). lia.
Qed.

Lemma ok_bucket s sk : ok s -> exists l, seqCache s !! bucket_index sk = Some l.
Proof using. intros Hs. apply lookup_lt_is_Some. rewrite (ok_len _ Hs). apply bucket_index_lt. Qed.

Lemma used_in_range i m l sk : bucket_ok i m l -> 0 <= used_in l m sk <= number m sk.
Proof using.
  intros [_ Hok]. unfold used_in. pose proof (number_range m sk). destruct (lru_find sk l) as [q|] eqn:Hq; [|lia].
  destruct (Hok _ _ Hq) as [_ [_ _ Hn _]]. done.
Qed.

Lemma used_range s sk : ok s -> 0 <= used s sk <= number (stored s) sk.
Proof using.
  intros Hs. destruct (ok_bucket s sk Hs) as [l Hl]. unfold used. rewrite Hl. eapply used_in_range, ok_buckets; done.
Qed.

(** Sequences may change when numbers in use stay in use. *)
Lemma ok_used_grow s s' :
  (forall sk, used s sk <= used s' sk) -> same_objects (stored s) (stored s') ->
  (forall sk n v, scope_ok sk -> 0 <= n < 2 ^ 64 -> stored s !! (sk ++ le_put 8 n) = Some v -> n < used s sk) ->
  forall sk n v, scope_ok sk -> 0 <= n < 2 ^ 64 -> stored s' !! (sk ++ le_put 8 n) = Some v -> n < used s' sk.
Proof using.
  intros Hu Hs Hok sk n v Hsk Hn Hv. rewrite Hs in Hv by apply Hsk. specialize (Hok sk n v Hsk Hn Hv). specialize (Hu sk). lia.
Qed.

Lemma cache_IncrementKey_ok s sk r cache' d' :
  ok s -> number (stored s) sk + sequenceBandwidth < 2 ^ 64 ->
  cache_IncrementKey sk (seqCache s) (db s) = (r, (cache', d')) ->
  let s' := {| db := d'; seqCache := cache' |} in
  ok s' /\ same_objects (stored s) (stored s') /\
  (forall sk', number (stored s') sk' <= number (stored s) sk' + sequenceBandwidth) /\
  (forall key, r = Ok key -> exists x, key = sk ++ le_put 8 x /\ 0 <= x < 2 ^ 64 /\ used s sk <= x < used s' sk).
Proof using.
  intros Hs Hroom. unfold cache_IncrementKey. destruct (ok_bucket s sk Hs) as [l Hl]. rewrite Hl.
  destruct (bucket_IncrementKey sk l (db s)) as [r0 [l' d0]] eqn:Hinc. intros [= <- <- <-].
  pose proof (ok_buckets _ Hs _ _ Hl) as Hbl.
  destruct (bucket_IncrementKey_ok _ _ _ _ _ _ _ Hbl (ok_calm _ Hs) eq_refl Hroom Hinc) as [[Hok' Hc' Hu' Ho' Hn' Hobj'] Hr].
  set (s' := {| db := d0; seqCache := <[bucket_index sk := l']> (seqCache s) |}).
  assert (Hlook : seqCache s' !! bucket_index sk = Some l').
  { cbn. rewrite list_lookup_insert_eq; [done|]. by eapply lookup_lt_Some. }
  assert (Hused : forall k, used s k <= used s' k).
  { intros k. destruct (decide (bucket_index k = bucket_index sk)) as [E|Hne].
    - unfold used. rewrite E, Hlook, Hl. by apply Hu'.
    - unfold used. cbn [seqCache s']. rewrite list_lookup_insert_ne by done.
      destruct (seqCache s !! bucket_index k) as [lk|]; [|unfold stored; cbn; by rewrite Ho'].
      unfold used_in, stored. cbn. by rewrite Ho'. }
  assert (Hs' : ok s').
  { split; cbn [db seqCache s'].
    - done.
    - rewrite length_insert. apply Hs.
    - intros i li Hi. destruct (decide (i = bucket_index sk)) as [->|Hne].
      + rewrite list_lookup_insert_eq in Hi by (by eapply lookup_lt_Some). by simplify_eq.
      + rewrite list_lookup_insert_ne in Hi by done. destruct (ok_buckets _ Hs _ _ Hi) as [Hnd Hf]. split; [done|].
        intros k q Hk. destruct (Hf k q Hk) as [Hik Hq]. split; [done|]. eapply seq_ok_number; [|exact Hq].
        unfold stored. cbn. rewrite Ho'; [done|]. congruence.
    - eapply ok_used_grow; [exact Hused|exact Hobj'|apply Hs]. }
  split_and!; [done|done|exact Hn'|]. intros key Hkey. destruct r0 as [x|e|p]; try done. injection Hkey as <-.
  exists x. assert (Hx : used s sk <= x < used s' sk) by (unfold used; rewrite Hl, Hlook; exact Hr).
  pose proof (used_range s sk Hs). pose proof (used_range s' sk Hs'). pose proof (number_range (stored s') sk).
  split_and!; [done|lia..].
Qed.

(** A transaction of a database operation: it has its one effect, or fails
    with none. *)
Lemma update_cases k o fn s r s' :
  (forall d, one_write k o (fun txn => (fn txn, tt)) d) -> calm (disk (db s)) -> update fn s = (r, s') ->
  seqCache s' = seqCache s /\ calm (disk (db s')) /\
  (r = Ok tt /\ stored s' = apply_write k o (stored s) \/ (exists e, r = Err e) /\ stored s' = stored s).
Proof using.
  intros Hone Hc. unfold update. destruct (Hone (db s)) as [(e & _ & ->)| ->].
  { intros [= <- <-]. split_and!; [done|done|right; split; [by eexists|done]]. }
  destruct (commit_one k o (db s)) as [r0 d0] eqn:Hco.
  destruct (commit_calm _ _ _ _ _ Hc Hco) as [Hc0 Hcase]. intros [= <- <-]. split_and!; [done|done|].
  destruct Hcase as [[-> Hd]|[[e ->] Hd]]; [by left|right; split; [by eexists|done]].
Qed.

(** A write of a key that is no sequence keeps the invariant when the key is
    in use. *)
Lemma ok_write s s' k o :
  ok s -> seqCache s' = seqCache s -> calm (disk (db s')) -> listed_key k ->
  stored s' = apply_write k o (stored s) \/ stored s' = stored s ->
  (forall v sk n, o = Some v -> scope_ok sk -> 0 <= n < 2 ^ 64 -> k = sk ++ le_put 8 n -> n < used s sk) ->
  ok s' /\ (forall sk, number (stored s') sk = number (stored s) sk) /\ (forall sk, used s' sk = used s sk).
Proof using.
  intros Hs Hcache Hc Hk Hst Hnew.
  assert (Hnum : forall sk, number (stored s') sk = number (stored s) sk).
  { intros sk. destruct Hst as [->| ->]; [|done]. destruct o as [v|]; cbn; [by apply number_listed|by apply number_delete]. }
  assert (Hused : forall sk, used s' sk = used s sk)
    by (intros sk; unfold used, used_in; rewrite Hcache, Hnum; done).
  split_and!; [|done|done]. split; [done|rewrite Hcache; apply Hs| |].
  - intros i l. rewrite Hcache. intros Hl. destruct (ok_buckets _ Hs _ _ Hl) as [Hnd Hf]. split; [done|].
    intros k' q Hk'. destruct (Hf _ _ Hk') as [Hi Hq]. split; [done|]. eapply seq_ok_number; [|exact Hq]. by rewrite Hnum.
  - intros sk n v Hsk Hn Hv. rewrite Hused. destruct Hst as [E|E]; rewrite E in Hv; [|by eapply Hs].
    destruct o as [v'|]; cbn in Hv.
    + apply lookup_insert_Some in Hv as [[Hkey _]|[_ Hv]]; [by eapply Hnew|by eapply Hs].
    + apply lookup_delete_Some in Hv as [_ Hv]. by eapply Hs.
Qed.

Lemma SetScoped_ok s sk data r s' :
  ok s -> scope_ok sk -> number (stored s) sk + sequenceBandwidth < 2 ^ 64 ->
  bdb_SetScoped (Some sk) data s = (r, s') ->
  ok s' /\ (forall sk', number (stored s') sk' <= number (stored s) sk' + sequenceBandwidth) /\
  match r with
  | Ok key => exists x, key = sk ++ le_put 8 x /\ stored s !! key = None /\
      same_objects (<[key := slice_bytes data]> (stored s)) (stored s')
  | _ => same_objects (stored s) (stored s')
  end.
Proof using.
  intros Hs Hsk Hroom. unfold bdb_SetScoped.
  destruct (cache_IncrementKey sk (seqCache s) (db s)) as [r0 [c0 d0]] eqn:Hinc.
  destruct (cache_IncrementKey_ok _ _ _ _ _ Hs Hroom Hinc) as (Hs0 & Hobj & Hnum & Hkey).
  set (s0 := {| db := d0; seqCache := c0 |}) in *.
  destruct r0 as [key|e|p]; [|by intros [= <- <-]|by intros [= <- <-]].
  destruct (Hkey key eq_refl) as (x & -> & Hx & Hux).
  destruct (update (tx_Set (sk ++ le_put 8 x) (slice_bytes data)) s0) as [r1 s1] eqn:Hup. intros [= <- <-].
  destruct (update_cases _ _ _ _ _ _ (Update_set (sk ++ le_put 8 x) (slice_bytes data) tt) (ok_calm _ Hs0) Hup) as (Hc1 & Hcalm1 & Hcase).
  destruct (ok_write s0 s1 (sk ++ le_put 8 x) (Some (slice_bytes data)) Hs0 Hc1 Hcalm1 (Hsk _)) as (Hs1 & Hn1 & _).
  { destruct Hcase as [[_ ?]|[_ ?]]; auto. }
  { intros v sk' n _ _ Hn E. apply scoped_key_inj in E as [<- <-]; [lia|done|done]. }
  split_and!; [done|intros sk'; rewrite Hn1; apply Hnum|].
  destruct Hcase as [[-> Hst]|[[e ->] Hst]]; cbn [obind].
  - exists x. split_and!; [done| |].
    + destruct (stored s !! (sk ++ le_put 8 x)) as [v|] eqn:Hv; [|done]. pose proof (ok_used _ Hs _ _ _ Hsk Hx Hv). lia.
    + intros k Hk. rewrite Hst. cbn [apply_write].
      destruct (decide (sk ++ le_put 8 x = k)) as [<-|Hne]; [by rewrite !lookup_insert_eq|].
      rewrite !lookup_insert_ne by done. by apply Hobj.
  - by rewrite Hst.
Qed.

Lemma Delete_ok s k r s' :
  ok s -> listed_key k -> bdb_Delete (Some k) s = (r, s') ->
  ok s' /\ (forall sk, number (stored s') sk = number (stored s) sk) /\
  (r = Ok tt /\ stored s' = delete k (stored s) \/ (exists e, r = Err e) /\ stored s' = stored s).
Proof using.
  intros Hs Hk Hd. destruct (update_cases _ _ _ _ _ _ (Update_delete k tt) (ok_calm _ Hs) Hd) as (Hc1 & Hcalm1 & Hcase).
  destruct (ok_write s s' k None Hs Hc1 Hcalm1 Hk) as (Hs1 & Hn1 & _); [destruct Hcase as [[_ ?]|[_ ?]]; auto|done|done].
Qed.

(** A new process finds the numbers as far as they are stored. *)
Lemma restart_ok s d' :
  ok s -> calm (disk d') -> same_objects (stored s) (content d') ->
  (forall sk, used s sk <= number (content d') sk) -> ok (NewWithOpts d').
Proof using.
  intros Hs Hc Hobj Hu.
  assert (Hused : forall sk, used (NewWithOpts d') sk = number (content d') sk).
  { intros sk. unfold used, used_in. destruct (seqCache _ !! _) as [l|] eqn:Hl; [|done]. cbn [NewWithOpts seqCache] in Hl.
    apply lookup_replicate in Hl as [-> _]. done. }
  split; [done|done| |].
  - intros i l Hl. cbn [NewWithOpts seqCache] in Hl. apply lookup_replicate in Hl as [-> _]. split; [apply NoDup_nil_2|done].
  - eapply (ok_used_grow s); [|done|apply Hs]. intros sk. by rewrite Hused.
Qed.

Lemma crash_ok s : ok s -> ok (NewWithOpts (db s)).
Proof using.
  intros Hs. apply (restart_ok s); [done|apply Hs|done|]. intros sk. apply (used_range s sk Hs).
Qed.
End Database.

(** ** Closing the database *)
Section Purge.
Context `{Calm W}.
Implicit Types (s : BadgerDB W) (d : badger W) (l : LRU).

Lemma lru_find_elem k q l : NoDup l.*1 -> lru_find k l = Some q <-> (k, q) ∈ l.
Proof using.
  induction l as [|[k' v] l IH]; intros Hnd; cbn; [set_solver|].
  cbn in Hnd. apply NoDup_cons in Hnd as [Hnin Hnd]. rewrite elem_of_cons. case_decide as E.
  - subst k'. split; [intros [= <-]; by left|]. intros [[= <-]|Hin]; [done|].
    destruct Hnin. apply list_elem_of_fmap. by exists (k, q).
  - rewrite IH by done. naive_solver.
Qed.

Lemma bucket_ok_perm i m l l' : l' ≡ₚ l -> bucket_ok i m l -> bucket_ok i m l'.
Proof using.
  intros Hp [Hnd Hok]. assert (Hnd' : NoDup l'.*1) by (by rewrite Hp). split; [done|].
  intros k q Hk. apply Hok. apply lru_find_elem; [done|]. rewrite <- Hp. by apply lru_find_elem.
Qed.

(** The sequences of [cached] were released: what they had used is stored. *)
Definition released (cached : bytes -> Sequence -> Prop) (d d' : badger W) : Prop :=
  calm (disk d') /\ same_objects (content d) (content d') /\
  (forall sk, number (content d') sk <= number (content d) sk) /\
  (forall sk n, n <= number (content d) sk -> (forall q, cached sk q -> n <= next q) -> n <= number (content d') sk).

Lemma released_same cached d d' sk :
  released cached d d' -> (forall q, ~ cached sk q) -> number (content d') sk = number (content d) sk.
Proof using.
  intros (_ & _ & Hle & Hge) Hno. apply Z.le_antisymm; [apply Hle|]. apply Hge; [done|].
  intros q Hq. by destruct (Hno q).
Qed.

Lemma released_trans (c1 c2 : bytes -> Sequence -> Prop) d d1 d2 :
  released c1 d d1 -> released c2 d1 d2 -> released (fun sk q => c1 sk q \/ c2 sk q) d d2.
Proof using.
  intros (Hc1 & Hs1 & Hle1 & Hge1) (Hc2 & Hs2 & Hle2 & Hge2). split_and!; [done|by etrans| |].
  - intros sk. etrans; [apply Hle2|apply Hle1].
  - intros sk n Hn Hq. apply Hge2; [apply Hge1; [done|]|]; eauto.
Qed.

Lemma released_le (c1 c2 : bytes -> Sequence -> Prop) d d' :
  (forall sk q, c1 sk q -> c2 sk q) -> released c1 d d' -> released c2 d d'.
Proof using. intros Hsub (Hc & Hs & Hle & Hge). split_and!; try done. intros sk n Hn Hq. apply Hge; eauto. Qed.

Lemma onEvict_released sk q d r d' :
  calm (disk d) -> seq_ok (content d) sk q -> onEvict sk q d = (r, d') ->
  released (fun sk' q' => sk' = sk /\ q' = q) d d'.
Proof using.
  intros Hc Hq He. destruct (onEvict_ok _ _ _ _ _ Hc Hq He) as ([Hc' Hother Hobj] & Hn). split_and!; [done|done| |].
  - intros sk'. destruct (decide (sk' = sk)) as [->|Hne]; [lia|by rewrite Hother].
  - intros sk' n Hle Hcached. destruct (decide (sk' = sk)) as [->|Hne]; [|by rewrite Hother].
    specialize (Hcached q (conj eq_refl eq_refl)). lia.
Qed.

Lemma lru_Purge_ok i l d r l' d' :
  calm (disk d) -> bucket_ok i (content d) l -> lru_Purge l d = (r, (l', d')) ->
  released (fun sk q => lru_find sk l = Some q) d d'.
Proof using.
  revert d. induction l as [|[k v] l IH]; intros d Hc [Hnd Hok]; cbn [lru_Purge].
  { intros [= <- <- <-]. by split_and!. }
  cbn in Hnd. apply NoDup_cons in Hnd as [Hnin Hnd]. destruct (Hok k v) as [_ Hv]; [cbn; by rewrite decide_True|].
  destruct (onEvict k v d) as [r0 d0] eqn:He. pose proof (onEvict_released _ _ _ _ _ Hc Hv He) as Hrel.
  assert (Hhead : released (fun sk q => lru_find sk ((k, v) :: l) = Some q) d d0).
  { eapply released_le; [|exact Hrel]. intros sk q [-> ->]. cbn. by rewrite decide_True. }
  destruct r0 as [[]|e|p]; [|by intros [= <- <- <-]|by intros [= <- <- <-]].
  assert (Hne : forall k' q, lru_find k' l = Some q -> k' <> k).
  { intros k' q Hk' ->. apply lru_find_None in Hnin. congruence. }
  intros Hp. apply IH in Hp; [|by apply Hrel|].
  - eapply released_le; [|exact (released_trans _ _ _ _ _ Hrel Hp)]. cbn. intros sk q [[-> ->]|Hq]; [by rewrite decide_True|].
    rewrite decide_False; [done|]. by eapply Hne.
  - split; [done|]. intros k' q Hq. pose proof (Hne _ _ Hq) as Hk'.
    destruct (Hok k' q) as [Hi Hsq]; [cbn; by rewrite decide_False|]. split; [done|].
    eapply seq_ok_number; [|exact Hsq]. rewrite (released_same _ _ _ k' Hrel); [done|]. by intros q' [? _].
Qed.

Lemma cache_Purge_ok (range : LRU -> LRU) i cache d r cache' d' :
  (forall l, range l ≡ₚ l) -> calm (disk d) ->
  (forall j l, cache !! j = Some l -> bucket_ok (i + j) (content d) l) ->
  cache_Purge range cache d = (r, (cache', d')) ->
  released (fun sk q => exists j l, bucket_index sk = (i + j)%nat /\ cache !! j = Some l /\ lru_find sk l = Some q) d d'.
Proof using.
  intros Hrange. revert i d r cache' d'. induction cache as [|l cache IH]; intros i d r cache' d' Hc Hok; cbn [cache_Purge].
  { intros [= <- <- <-]. by split_and!. }
  pose proof (Hok O l eq_refl) as Hl. rewrite Nat.add_0_r in Hl.
  pose proof (bucket_ok_perm _ _ _ _ (Hrange l) Hl) as Hrl.
  destruct (lru_Purge (range l) d) as [r0 [l0 d0]] eqn:Hp. pose proof (lru_Purge_ok _ _ _ _ _ _ Hc Hrl Hp) as Hrel.
  assert (Hfind : forall sk q, lru_find sk (range l) = Some q -> lru_find sk l = Some q /\ bucket_index sk = i).
  { intros sk q Hq. apply lru_find_elem in Hq; [|apply Hrl]. rewrite Hrange in Hq. apply lru_find_elem in Hq; [|apply Hl].
    split; [done|]. by eapply Hl. }
  assert (Hhead : forall sk q, lru_find sk (range l) = Some q ->
      exists j l0, bucket_index sk = (i + j)%nat /\ (l :: cache) !! j = Some l0 /\ lru_find sk l0 = Some q).
  { intros sk q Hq. apply Hfind in Hq as [Hq Hi]. exists O, l. split_and!; [lia|done|done]. }
  destruct r0 as [[]|e|p]; [|intros [= <- <- <-]; by eapply released_le; [exact Hhead|]..].
  destruct (cache_Purge range cache d0) as [r1 [c1 d1]] eqn:Hrest. intros [= <- <- <-].
  apply (IH (S i)) in Hrest; [|by apply Hrel|].
  - eapply released_le; [|exact (released_trans _ _ _ _ _ Hrel Hrest)]. intros sk q [Hq|(j & l1 & Hj & Hl1 & Hq)]; [by apply Hhead|].
    exists (S j), l1. split_and!; [lia|done|done].
  - intros j l1 Hj. destruct (Hok (S j) l1 Hj) as [Hnd Hf]. split; [done|]. intros k q Hq.
    destruct (Hf k q Hq) as [Hi Hsq]. split; [lia|]. eapply seq_ok_number; [|exact Hsq].
    rewrite (released_same _ _ _ k Hrel); [done|]. intros q' Hq'. apply Hfind in Hq' as [_ Hi']. lia.
Qed.

(** Closing, whatever it returns, and opening again. *)
Lemma close_ok range s r s' :
  (forall l, range l ≡ₚ l) -> ok s -> bdb_Close range s = (r, s') ->
  ok (NewWithOpts (db s')) /\ same_objects (stored s) (stored s') /\
  (forall sk, number (stored s') sk <= number (stored s) sk).
Proof using.
  intros Hrange Hs. unfold bdb_Close. destruct (cache_Purge range (seqCache s) (db s)) as [r0 [c0 d0]] eqn:Hp.
  pose proof (cache_Purge_ok range 0 _ _ _ _ _ Hrange (ok_calm _ Hs) (ok_buckets _ Hs) Hp) as (Hc & Hobj & Hle & Hge).
  assert (Hok : ok (NewWithOpts d0)).
  { apply (restart_ok s); [done|done|exact Hobj|]. intros sk. apply Hge; [apply (used_range s sk Hs)|].
    intros q (j & l & Hj & Hl & Hq). cbn in Hj. subst j. unfold used, used_in. by rewrite Hl, Hq. }
  destruct r0 as [[]|e|p]; intros [= <- <-]; by split_and!.
Qed.
End Purge.

(** ** Histories *)
Section Histories.
Context `{Calm W} (range : LRU -> LRU) (Hrange : forall l, range l ≡ₚ l).

(** What happens to a database: calls of a server, orderly restarts and
    crashes, after which the store is opened again. *)
Inductive event := EvSetScoped (sk : bytes) (data : slice) | EvDelete (k : bytes) | EvClose | EvCrash.

Definition happens (s : BadgerDB W) (ev : event) : BadgerDB W :=
  match ev with
  | EvSetScoped sk data => (bdb_SetScoped (Some sk) data s).2
  | EvDelete k => (bdb_Delete (Some k) s).2
  | EvClose => NewWithOpts (db (bdb_Close range s).2)
  | EvCrash => NewWithOpts (db s)
  end.

(** Calls that do not aim at the keys of the sequences. *)
Definition proper (ev : event) : Prop :=
  match ev with EvSetScoped sk _ => scope_ok sk | EvDelete k => listed_key k | _ => True end.

Definition history (w : W) (evs : list event) : BadgerDB W :=
  foldl happens (NewWithOpts {| content := ∅; disk := w |}) evs.

Lemma happens_ok s ev :
  ok s -> proper ev -> (forall sk, number (stored s) sk + sequenceBandwidth < 2 ^ 64) ->
  ok (happens s ev) /\ (forall sk, number (stored (happens s ev)) sk <= number (stored s) sk + sequenceBandwidth).
Proof using Hrange.
  intros Hs Hev Hroom. destruct ev as [sk data|k| |]; cbn [happens proper] in *.
  - destruct (bdb_SetScoped (Some sk) data s) as [r s'] eqn:E.
    destruct (SetScoped_ok _ _ _ _ _ Hs Hev (Hroom sk) E) as (? & ? & _). done.
  - destruct (bdb_Delete (Some k) s) as [r s'] eqn:E. destruct (Delete_ok _ _ _ _ Hs Hev E) as (? & Hn & _).
    split; [done|]. intros sk. cbn. rewrite Hn. unfold sequenceBandwidth. lia.
  - destruct (bdb_Close range s) as [r s'] eqn:E. destruct (close_ok _ _ _ _ Hrange Hs E) as (? & _ & Hn).
    split; [done|]. intros sk. specialize (Hn sk). unfold stored, sequenceBandwidth in *. cbn. lia.
  - split; [by apply crash_ok|]. intros sk. unfold stored, sequenceBandwidth. cbn. lia.
Qed.

Lemma history_ok w evs :
  calm w -> Forall proper evs -> sequenceBandwidth * (Z.of_nat (length evs) + 1) < 2 ^ 64 ->
  ok (history w evs) /\ (forall sk, number (stored (history w evs)) sk <= sequenceBandwidth * Z.of_nat (length evs)).
Proof using Hrange.
  intros Hw. unfold history. induction evs as [|ev evs IH] using rev_ind; intros Hp Hlen.
  { split; [|done]. apply (restart_ok (NewWithOpts {| content := ∅; disk := w |})); try done.
    - split; [done|done| |done]. intros i l Hl. apply lookup_replicate in Hl as [-> _]. split; [apply NoDup_nil_2|done].
    - intros sk. unfold used, used_in. destruct (seqCache _ !! _) as [l|] eqn:Hl; [|done]. cbn in Hl.
      apply lookup_replicate in Hl as [-> _]. done. }
  apply Forall_app in Hp as [Hp Hev]. apply Forall_cons in Hev as [Hev _]. rewrite length_app in *. cbn [length] in *.
  destruct IH as [Hs Hn]; [done|unfold sequenceBandwidth in *; lia|]. rewrite foldl_app. cbn [foldl].
  destruct (happens_ok _ ev Hs Hev) as [Hs' Hn'].
  { intros sk. specialize (Hn sk). unfold sequenceBandwidth in *. lia. }
  split; [done|]. intros sk. specialize (Hn' sk). specialize (Hn sk). unfold sequenceBandwidth in *. lia.
Qed.
End Histories.
