(* ===== verification/BadgerProps.v ===== *)
(** * Correctness of the badger back end

    Generated keys are new as long as the leases of the sequences are stored,
    also after crashes and restarts ([badger_never_overwrites]); the operations
    are those of a finite map ([badger_refines_map]); the retry loops end
    ([retry_loops_end]); an object that a server created stays readable
    ([created_objects_are_durable]).  A lease that could not be stored, on the
    other hand, makes the database overwrite objects
    ([failed_renewal_overwrites]). *)

From stdpp Require Import sorting.
From S2P Require Import Prelude Crc32 Encoding Keys DB Jwt ServerAPI Badger BadgerInv.
Import Encoding.Encoding Engine.
Open Scope Z_scope.

(** ** The retry loops *)
Section Retries.
Context `{Disk W}.
Implicit Types (d : badger W).

Lemma stored_number_no_conflict q d : stored_number q (NewTransaction d) <> Err ErrConflict.
Proof using.
  unfold stored_number, tx_Get. destruct (length (seq_key q) =? 0)%nat; [done|].
  cbn [NewTransaction pendingWrites snapshot]. rewrite lookup_empty.
  destruct (get_fault (seq_key q) (disk d)) as [e|] eqn:Hg.
  { case_bool_decide; [done|]. intros [= ->]. by apply get_fault_other in Hg as [_ Hg]. }
  destruct (content d !! seq_key q) as [v|]; [|done]. unfold item_Value. cbn [prefetched key_ val_ snapshot NewTransaction].
  destruct (value_fault (seq_key q) (disk d)) as [e|] eqn:Hv; cbn [obind]; [|unfold be_u64; by case_match].
  intros [= ->]. by apply value_fault_other in Hv.
Qed.

Lemma tx_Set_no_conflict k v (txn : Txn W) : tx_Set k v txn <> Err ErrConflict.
Proof using. unfold tx_Set, checkSize. by repeat case_match. Qed.

Lemma updateLease_conflict q d d' q' :
  updateLease q d = (Err ErrConflict, d', q') -> (conflicts (disk d') < conflicts (disk d))%nat.
Proof using.
  unfold updateLease, Update. pose proof (stored_number_no_conflict q d) as Hs.
  destruct (stored_number q (NewTransaction d)) as [n|e|p]; [|congruence|done].
  match goal with |- context [tx_Set ?k ?v ?t] => pose proof (tx_Set_no_conflict k v t) as Hset; destruct (tx_Set k v t) as [txn|e|p] end;
    [|congruence|done].
  unfold Commit. case_bool_decide; [done|]. destruct (commit_fault _ _) as [[e|] w] eqn:Hc; [|done].
  intros [= -> <- <-]. cbn. by eapply conflicts_end.
Qed.

Lemma Next_conflict q d d' q' :
  Next q d = (Err ErrConflict, d', q') -> (conflicts (disk d') < conflicts (disk d))%nat.
Proof using.
  unfold Next. case_match; [|done]. destruct (updateLease q d) as [[[[]|e|p] d0] q0] eqn:Hu; [done| |done].
  intros [= -> <- <-]. by eapply updateLease_conflict.
Qed.

Lemma GetSequence_conflict k b d d' :
  GetSequence k b d = (Err ErrConflict, d') -> (conflicts (disk d') < conflicts (disk d))%nat.
Proof using.
  unfold GetSequence. repeat (case_match; [done|]).
  match goal with |- context [updateLease ?q d] => destruct (updateLease q d) as [[[[]|e|p] d0] q0] eqn:Hu end; [done| |done].
  intros [= -> <-]. by eapply updateLease_conflict.
Qed.

(** The store panics on a sequence that is too short, and for no other reason. *)
Lemma stored_number_panic q d p : stored_number q (NewTransaction d) = Panic p -> p = "index out of range"%string.
Proof using.
  unfold stored_number. destruct (tx_Get _ _) as [i|e|p0] eqn:Hg.
  - unfold item_Value. destruct (prefetched i); [|destruct (value_fault _ _)]; cbn [obind]; try done;
      unfold be_u64; case_match; congruence.
  - by case_bool_decide.
  - unfold tx_Get in Hg. by repeat case_match.
Qed.

Lemma updateLease_panic q d p : (updateLease q d).1.1 = Panic p -> p = "index out of range"%string.
Proof using.
  unfold updateLease, Update. pose proof (stored_number_panic q d) as Hs.
  destruct (stored_number q (NewTransaction d)) as [n|e|p0]; [|done|intros [= ->]; by apply Hs].
  match goal with |- context [tx_Set ?k ?v ?t] => destruct (tx_Set_new k v d) as [(txn & -> & Hp)|[e ->]] end; [|done].
  rewrite (Commit_one _ _ _ _ Hp). unfold commit_one. by destruct (commit_fault _ _) as [[]].
Qed.

Lemma Next_panic q d : (Next q d).1.1 <> Panic retrying.
Proof using.
  unfold Next. case_match; [|done]. pose proof (updateLease_panic q d) as Hp.
  destruct (updateLease q d) as [[[[]|e|p] d0] q0]; try done. intros [= ->]. by specialize (Hp _ eq_refl).
Qed.

Lemma GetSequence_panic k b d : (GetSequence k b d).1 <> Panic retrying.
Proof using.
  unfold GetSequence. repeat (case_match; [done|]).
  match goal with |- context [updateLease ?q d] => pose proof (updateLease_panic q d) as Hp; destruct (updateLease q d) as [[[[]|e|p] d0] q0] end;
    try done. intros [= ->]. by specialize (Hp _ eq_refl).
Qed.

(** With more rounds than conflicts a loop is not cut short. *)
Lemma get_sequence_loop_enough n1 n2 k d :
  (conflicts (disk d) < n1)%nat -> (conflicts (disk d) < n2)%nat ->
  get_sequence_loop n1 k d = get_sequence_loop n2 k d /\
  (get_sequence_loop n1 k d).1 <> Panic retrying /\ (get_sequence_loop n1 k d).1 <> Err ErrConflict.
Proof using.
  revert n2 d. induction n1 as [|n1 IH]; intros [|n2] d H1 H2; [lia..|]. cbn [get_sequence_loop].
  pose proof (GetSequence_panic k sequenceBandwidth d) as Hp.
  destruct (GetSequence k sequenceBandwidth d) as [[x|e|p] d'] eqn:Hg; [done| |done].
  case_bool_decide; [|split_and!; cbn; congruence]. subst e. apply GetSequence_conflict in Hg. apply IH; lia.
Qed.

Lemma next_loop_enough n1 n2 q d :
  (conflicts (disk d) < n1)%nat -> (conflicts (disk d) < n2)%nat ->
  next_loop n1 q d = next_loop n2 q d /\
  (next_loop n1 q d).1.1 <> Panic retrying /\ (next_loop n1 q d).1.1 <> Err ErrConflict.
Proof using.
  revert n2 q d. induction n1 as [|n1 IH]; intros [|n2] q d H1 H2; [lia..|]. cbn [next_loop].
  pose proof (Next_panic q d) as Hp.
  destruct (Next q d) as [[[x|e|p] d'] q'] eqn:Hg; [done| |done].
  case_bool_decide; [|split_and!; cbn; congruence]. subst e. apply Next_conflict in Hg. apply IH; lia.
Qed.

Lemma onEvict_panic sk q d : (onEvict sk q d).1 <> Panic retrying.
Proof using.
  unfold onEvict, Release. destruct (Update_set (seq_key q) (be_put64 (next q)) tt d) as [(e & _ & ->)| ->]; [done|].
  unfold commit_one. by destruct (commit_fault _ _) as [[]].
Qed.

Lemma bucket_next_ends sk q l d :
  (bucket_next sk q l d).1 <> Panic retrying /\ (bucket_next sk q l d).1 <> Err ErrConflict.
Proof using.
  unfold bucket_next. destruct (next_loop_enough (rounds d) (rounds d) q d) as (_ & Hp & Hc); [unfold rounds; lia..|].
  by destruct (next_loop (rounds d) q d) as [[r d'] q'].
Qed.

Lemma bucket_ends sk l d :
  (bucket_IncrementKey sk l d).1 <> Panic retrying /\ (bucket_IncrementKey sk l d).1 <> Err ErrConflict.
Proof using.
  unfold bucket_IncrementKey. destruct (lru_Get sk l) as [[q|] l1]; [apply bucket_next_ends|]. cbn [UnlistedKey].
  destruct (get_sequence_loop_enough (rounds d) (rounds d) (unl sk) d) as (_ & Hp & Hc); [unfold rounds; lia..|].
  fold (unl sk). destruct (get_sequence_loop (rounds d) (unl sk) d) as [[q|e|p] d'];
    [|split; cbn in *; congruence|split; cbn in *; congruence].
  unfold lru_Add, removeOldest. destruct (lru_find sk l1); [apply bucket_next_ends|].
  destruct (_ <? _)%nat; [|apply bucket_next_ends]. destruct (last _) as [[k v]|]; [|apply bucket_next_ends].
  pose proof (onEvict_panic k v d') as He. assert (Hno : forall e, (onEvict k v d').1 <> Err e).
  { intros e. unfold onEvict. by destruct (Release v d') as [[[]]]. }
  destruct (onEvict k v d') as [[[]|e|p0] d0]; [apply bucket_next_ends|by destruct (Hno e)|]. split; cbn in *; congruence.
Qed.
End Retries.

(** ** Listing *)
Lemma bytes_leb_refl k : bytes_leb k k = true.
Proof. induction k as [|x k IH]; cbn; [done|]. by rewrite Z.ltb_irrefl. Qed.

Lemma bytes_leb_cons x y a b :
  bytes_leb (x :: a) (y :: b) = true <-> bz x < bz y \/ x = y /\ bytes_leb a b = true.
Proof.
  cbn. destruct (Z.ltb_spec (bz x) (bz y)) as [Hlt|Hge].
  - split; [auto|done].
  - destruct (Z.ltb_spec (bz y) (bz x)) as [Hlt|Hge'].
    + split; [done|]. intros [?|[-> _]]; lia.
    + assert (x = y) as -> by (apply (inj bz); lia). split; [auto|]. intros [?|[_ ?]]; [lia|done].
Qed.

#[export] Instance key_le_trans : Transitive key_le.
Proof.
  intros [a v] [b v'] [c v'']. unfold key_le. cbn [fst]. revert b c. induction a as [|x a IH]; intros [|y b] [|z c]; try done.
  rewrite !bytes_leb_cons. intros [?|[-> ?]] [?|[-> ?]]; [left; lia|left; lia|left; lia|]. right. split; [done|by eapply IH].
Qed.

#[export] Instance key_le_total : Total key_le.
Proof.
  intros [a v] [b v']. unfold key_le. cbn [fst]. revert b. induction a as [|x a IH]; intros [|y b]; [by left|by left|by right|].
  rewrite !bytes_leb_cons. destruct (Z.lt_trichotomy (bz x) (bz y)) as [?|[E|?]]; [by left; left| |by right; left].
  apply (inj bz) in E as ->. destruct (IH b); auto.
Qed.

(** Keys with a prefix are not below it, and nothing comes between two of them. *)
Lemma prefix_leb k p : has_prefix k p = true -> bytes_leb p k = true.
Proof.
  revert k. induction p as [|x p IH]; intros [|y k]; cbn [has_prefix]; try done.
  rewrite andb_true_iff, bool_decide_eq_true, bytes_leb_cons. intros [-> Hp]. right. split; [done|by apply IH].
Qed.

Lemma prefix_between p k k' :
  bytes_leb p k = true -> bytes_leb k k' = true -> has_prefix k' p = true -> has_prefix k p = true.
Proof.
  revert k k'. induction p as [|x p IH]; intros [|y k] [|z k']; cbn [has_prefix]; try done.
  rewrite !bytes_leb_cons, !andb_true_iff, !bool_decide_eq_true.
  intros [?|[-> ?]] [?|[-> ?]] [E ?]; subst; try lia. split; [done|by eapply IH].
Qed.

Lemma range_items_none {A} (cb : callback A) p a items :
  Forall (fun e => has_prefix e.1 p = false) items -> range_items cb (Some p) a items = Ok a.
Proof. induction 1 as [|[k v] rest Hk _ IH]; cbn in *; [done|]. by rewrite Hk. Qed.

Lemma list_loop_all {A} (cb : callback A) a items : list_loop (fun _ => true) cb a items = range_items cb None a items.
Proof.
  revert a. induction items as [|[k v] rest IH]; intros a; cbn; [done|]. destruct (cb a _); cbn; [apply IH|done|done].
Qed.

(** Seeking and stopping at the first key without the prefix visits exactly
    the keys with the prefix. *)
Lemma seek_is_filter {A} (cb : callback A) p a items :
  StronglySorted key_le items ->
  list_loop (fun k => has_prefix k p) cb a (Seek p items) = range_items cb (Some p) a items.
Proof.
  intros Hs. revert a. induction Hs as [|[k v] rest Hs IH Hall]; intros a; [done|].
  cbn [Seek]. cbn [fst]. destruct (bytes_leb p k) eqn:Hle.
  - clear IH. revert k v a Hle Hall. induction Hs as [|[k' v'] rest Hs IH Hall']; intros k v a Hle Hall; cbn [list_loop range_items].
    { destruct (has_prefix k p); cbn [negb]; [|done]. by destruct (cb a _). }
    apply Forall_cons in Hall as [Hkk' Hall]. unfold key_le in Hkk'. cbn [fst] in Hkk'.
    destruct (has_prefix k p) eqn:Hk; cbn [negb].
    + destruct (cb a _) as [a'|e|q]; cbn [obind]; [|done|done]. apply (IH k' v' a'); [|done].
      change (key_le (p, v) (k', v')). etrans; [|exact (Hkk' : key_le (k, v) (k', v'))]. done.
    + assert (Hno : forall k2, bytes_leb k k2 = true -> has_prefix k2 p = false).
      { intros k2 Hk2. apply not_true_iff_false. intros Hp. by rewrite (prefix_between p k k2) in Hk. }
      symmetry. apply (range_items_none cb p a ((k', v') :: rest)). constructor; [by apply Hno|].
      eapply Forall_impl; [exact Hall|]. intros [k2 v2] Hk2. by apply Hno.
  - destruct (has_prefix k p) eqn:Hk; [by rewrite prefix_leb in Hle|]. rewrite IH. cbn [range_items]. by rewrite Hk.
Qed.

Lemma StronglySorted_filter {A} (R : relation A) (P : A -> Prop) `{forall x, Decision (P x)} l :
  StronglySorted R l -> StronglySorted R (filter P l).
Proof.
  induction 1 as [|x l Hs IH Hall]; [constructor|]. rewrite filter_cons. case_decide; [|done].
  constructor; [done|]. apply Forall_forall. intros y Hy. apply list_elem_of_filter in Hy as [_ Hy].
  by eapply Forall_forall in Hall.
Qed.

Section Listing.
Context `{Disk W}.

Lemma iterator_items_sorted (d : badger W) : StronglySorted key_le (iterator_items d).
Proof using. apply StronglySorted_filter, StronglySorted_merge_sort; apply _. Qed.

Lemma iterator_items_perm (d : badger W) :
  iterator_items d ≡ₚ filter (fun e => has_prefix e.1 badgerPrefix = false) (map_to_list (content d)).
Proof using. unfold iterator_items. by rewrite merge_sort_Permutation. Qed.
End Listing.

(** ** Behaviour of the database *)
Section Properties.
Context `{Calm W} (range : LRU -> LRU) (Hrange : forall l, range l ≡ₚ l).
Implicit Types (s : BadgerDB W).

Definition readable (k : bytes) (s : BadgerDB W) : Prop :=
  get_fault k (disk (db s)) = None /\ value_fault k (disk (db s)) = None.

Lemma tx_Get_new k s :
  k <> [] -> get_fault k (disk (db s)) = None ->
  tx_Get k (NewTransaction (db s)) =
    match stored s !! k with Some v => Ok {| key_ := k; val_ := v; prefetched := false |} | None => Err ErrKeyNotFound end.
Proof using.
  intros Hk Hg. unfold tx_Get. destruct k as [|b k]; [done|]. cbn [length Nat.eqb].
  cbn [NewTransaction pendingWrites snapshot]. by rewrite lookup_empty, Hg.
Qed.

Lemma bdb_Get_spec k s :
  k <> [] -> readable k s ->
  bdb_Get (Some k) s = match stored s !! k with Some v => Ok v | None => Err ErrNotFound end.
Proof using.
  intros Hk [Hg Hv]. unfold bdb_Get, View. rewrite (tx_Get_new k s Hk Hg).
  destruct (stored s !! k) as [v|]; [|done]. cbn. by rewrite Hv.
Qed.

Lemma bdb_Exists_spec k s :
  k <> [] -> readable k s -> bdb_Exists (Some k) s = Ok (bool_decide (is_Some (stored s !! k))).
Proof using.
  intros Hk [Hg _]. unfold bdb_Exists, View. rewrite (tx_Get_new k s Hk Hg).
  by destruct (stored s !! k).
Qed.

(** A write within the limits is not refused. *)
Lemma tx_Set_fits k v (d : badger W) :
  k <> [] -> Z.of_nat (length k) <= 2 ^ 16 -> Z.of_nat (length v) <= 2 ^ 30 ->
  exists txn, tx_Set k v (NewTransaction d) = Ok txn.
Proof using.
  intros Hk Hlk Hlv. unfold tx_Set. destruct (Nat.eqb_spec (length k) 0) as [E|_]; [by apply length_zero_iff_nil in E|].
  change maxKeySize with (2 ^ 16). change ValueLogFileSize with (2 ^ 30).
  destruct (Z.ltb_spec (2 ^ 16) (Z.of_nat (length k))); [lia|]. destruct (Z.ltb_spec (2 ^ 30) (Z.of_nat (length v))); [lia|].
  unfold checkSize, estimateSize. cbn [txn_count txn_size NewTransaction].
  change maxBatchCount with 100663. change maxBatchSize with 10066329. change (Z.of_nat (length txnKey)) with 11.
  change ValueThreshold with 20. change (100663 <=? 1 + 1) with false. cbn [orb].
  match goal with |- context [10066329 <=? ?x] => destruct (Z.leb_spec 10066329 x) as [Hbig|_] end; [|by eexists].
  exfalso. destruct (Z.ltb_spec (Z.of_nat (length v)) 20); lia.
Qed.

(** C11. The badger database implements the interface as a finite map on all
    branches: reads are lookups, a write or a deletion has its one effect when
    it succeeds and none when it fails, whatever the disk does; a write within
    the size limits fails only if its commit does; nil and empty keys are
    refused; a listing visits, in the order of the keys, exactly the stored
    pairs with the prefix. *)
Theorem badger_refines_map (s : BadgerDB W) (k : bytes) (data : slice) :
  (k <> [] -> readable k s ->
     bdb_Get (Some k) s = (match stored s !! k with Some v => Ok v | None => Err ErrNotFound end) /\
     bdb_Exists (Some k) s = Ok (bool_decide (is_Some (stored s !! k)))) /\
  (match bdb_Set (Some k) data s with
   | (Ok _, s') => stored s' = <[k := slice_bytes data]> (stored s)
   | (Err _, s') => stored s' = stored s
   | (Panic _, _) => False
   end) /\
  (match bdb_Delete (Some k) s with
   | (Ok _, s') => stored s' = delete k (stored s)
   | (Err _, s') => stored s' = stored s
   | (Panic _, _) => False
   end) /\
  (forall w, k <> [] -> Z.of_nat (length k) <= 2 ^ 16 -> Z.of_nat (slice_len data) <= 2 ^ 30 ->
     commit_fault {[k := Some (slice_bytes data)]} (disk (db s)) = (None, w) -> (bdb_Set (Some k) data s).1 = Ok tt) /\
  (bdb_Set None data s = (Err DB.ErrNilKey, s) /\ bdb_Set (Some []) data s = (Err DB.ErrNilKey, s) /\
   bdb_SetScoped None data s = (Err DB.ErrNilKey, s) /\ bdb_Delete None s = (Err DB.ErrNilKey, s) /\
   bdb_Get None s = Err DB.ErrNilKey /\ bdb_Get (Some []) s = Err DB.ErrNilKey /\ bdb_Exists None s = Err DB.ErrNilKey) /\
  (forall A (cb : callback A) prefix a, exists entries,
     entries ≡ₚ filter (fun e => has_prefix e.1 badgerPrefix = false) (map_to_list (stored s)) /\
     StronglySorted key_le entries /\
     bdb_ListItems cb prefix a s = range_items cb prefix a entries).
Proof using.
  split_and!; try done.
  - intros Hk Hr. by rewrite bdb_Get_spec, bdb_Exists_spec.
  - unfold bdb_Set, update. destruct (Update_set k (slice_bytes data) tt (db s)) as [(e & _ & ->)| ->]; [done|].
    unfold commit_one. by destruct (commit_fault _ _) as [[]].
  - unfold bdb_Delete, update. destruct (Update_delete k tt (db s)) as [(e & _ & ->)| ->]; [done|].
    unfold commit_one. by destruct (commit_fault _ _) as [[]].
  - intros w Hk Hlk Hlv Hc. unfold bdb_Set, update.
    destruct (tx_Set_fits k (slice_bytes data) (db s) Hk Hlk Hlv) as [txn Htx].
    destruct (Update_set k (slice_bytes data) tt (db s)) as [(e & He & _)| ->]; [by rewrite Htx in He|].
    unfold commit_one. by rewrite Hc.
  - by destruct s.
  - intros A cb prefix a. exists (iterator_items (db s)). split_and!; [apply iterator_items_perm|apply iterator_items_sorted|].
    unfold bdb_ListItems. destruct prefix as [p|]; [apply seek_is_filter, iterator_items_sorted|apply list_loop_all].
Qed.

(** A key increment ends: its two retry loops give the same result for every
    number of rounds above the number of conflicts that the store reports in a
    row, and neither they nor a scoped insertion run out of rounds or end with a
    conflict of the store. *)
Theorem retry_loops_end (n : nat) (key : bytes) (q : Sequence) (sk : bytes) (data : slice) (s : BadgerDB W) :
  (conflicts (disk (db s)) < n)%nat ->
  get_sequence_loop n key (db s) = get_sequence_loop (rounds (db s)) key (db s) /\
  next_loop n q (db s) = next_loop (rounds (db s)) q (db s) /\
  (get_sequence_loop n key (db s)).1 <> Panic retrying /\ (get_sequence_loop n key (db s)).1 <> Err ErrConflict /\
  (next_loop n q (db s)).1.1 <> Panic retrying /\ (next_loop n q (db s)).1.1 <> Err ErrConflict /\
  (bdb_SetScoped (Some sk) data s).1 <> Panic retrying /\ (bdb_SetScoped (Some sk) data s).1 <> Err ErrConflict.
Proof using.
  intros Hn. assert (Hr : (conflicts (disk (db s)) < rounds (db s))%nat) by (unfold rounds; lia).
  destruct (get_sequence_loop_enough _ _ key _ Hn Hr) as (Hg1 & Hg2 & Hg3).
  destruct (next_loop_enough _ _ q _ Hn Hr) as (Hn1 & Hn2 & Hn3). split_and!; try done.
  all: unfold bdb_SetScoped, cache_IncrementKey; destruct (seqCache s !! bucket_index sk) as [l|]; [|done].
  all: destruct (bucket_ends sk l (db s)) as [Hb1 Hb2].
  all: destruct (bucket_IncrementKey sk l (db s)) as [[x|e|p] [l' d']]; cbn [fst snd obind ScopedSequenceKey] in *; [|congruence..].
  all: match goal with |- context [update (tx_Set ?k ?v) ?s0] =>
         unfold update; destruct (Update_set k v tt (db s0)) as [(e & _ & ->)| ->] end.
  all: cbn [map_error obind fst]; try done.
  all: try (unfold commit_one; destruct (commit_fault _ _) as [[e|] w]; cbn [map_error obind fst]; try done).
  all: unfold mapBadgerError; repeat case_bool_decide; intros [= E]; first [discriminate E | congruence].
Qed.

Lemma history_room w evs sk :
  calm w -> Forall proper evs -> sequenceBandwidth * (Z.of_nat (length evs) + 1) < 2 ^ 64 ->
  ok (history range w evs) /\ number (stored (history range w evs)) sk + sequenceBandwidth < 2 ^ 64.
Proof using Hrange.
  intros Hw Hp Hlen. destruct (history_ok range Hrange w evs Hw Hp Hlen) as [Hs Hn]. split; [done|].
  specialize (Hn sk). unfold sequenceBandwidth in *. lia.
Qed.

(** C10. A scoped insertion never overwrites: after any history of insertions,
    deletions, orderly restarts and crashes in which the leases of the sequences
    could be stored, a key that is generated is new; the insertion adds the pair
    and leaves all other objects as they are, and a failed one leaves all
    objects as they are. *)
Theorem badger_never_overwrites (w : W) (evs : list event) (sk : bytes) (data : slice) (r : outcome bytes) (s' : BadgerDB W) :
  calm w -> Forall proper evs -> scope_ok sk -> sequenceBandwidth * (Z.of_nat (length evs) + 1) < 2 ^ 64 ->
  bdb_SetScoped (Some sk) data (history range w evs) = (r, s') ->
  match r with
  | Ok key => sk `prefix_of` key /\ length key = (length sk + SequenceKeyByteSize)%nat /\
      stored (history range w evs) !! key = None /\ stored s' !! key = Some (slice_bytes data) /\
      (forall k, listed_key k -> k <> key -> stored s' !! k = stored (history range w evs) !! k)
  | _ => forall k, listed_key k -> stored s' !! k = stored (history range w evs) !! k
  end.
Proof using Hrange.
  intros Hw Hp Hsk Hlen Hset. destruct (history_room w evs sk Hw Hp Hlen) as [Hs Hroom].
  destruct (SetScoped_ok _ _ _ _ _ Hs Hsk Hroom Hset) as (_ & _ & Hr). destruct r as [key|e|p]; [|exact Hr..].
  destruct Hr as (x & -> & Hnew & Hobj). split_and!.
  - by exists (le_put 8 x).
  - by rewrite length_app, length_le_put.
  - done.
  - rewrite Hobj by apply Hsk. by rewrite lookup_insert_eq.
  - intros k Hk Hne. rewrite Hobj by done. by rewrite lookup_insert_ne.
Qed.

(** ** Objects of a server *)
Lemma dkey_scope label : scope_ok (dkey label []).
Proof using. done. Qed.

Lemma happens_keeps s ev k v :
  ok s -> proper ev -> (forall sk, number (stored s) sk + sequenceBandwidth < 2 ^ 64) ->
  listed_key k -> ev <> EvDelete k -> stored s !! k = Some v -> stored (happens range s ev) !! k = Some v.
Proof using Hrange.
  intros Hs Hev Hroom Hk Hne Hv. destruct ev as [sk data|k'| |]; cbn [happens proper] in *.
  - destruct (bdb_SetScoped (Some sk) data s) as [r s'] eqn:E.
    destruct (SetScoped_ok _ _ _ _ _ Hs Hev (Hroom sk) E) as (_ & _ & Hr). cbn.
    destruct r as [key|e|p]; [|by rewrite Hr..]. destruct Hr as (x & -> & Hnew & Hobj).
    rewrite Hobj by done. rewrite lookup_insert_ne; [done|]. congruence.
  - destruct (bdb_Delete (Some k') s) as [r s'] eqn:E. destruct (Delete_ok _ _ _ _ Hs Hev E) as (_ & _ & Hr). cbn.
    destruct Hr as [[_ ->]|[_ ->]]; [|done]. rewrite lookup_delete_ne; [done|]. congruence.
  - destruct (bdb_Close range s) as [r s'] eqn:E. destruct (close_ok _ _ _ _ Hrange Hs E) as (_ & Hobj & _).
    rewrite <- Hv. by apply Hobj.
  - done.
Qed.

Lemma history_keeps s n evs k v :
  ok s -> (forall sk, number (stored s) sk <= n) -> n + sequenceBandwidth * (Z.of_nat (length evs) + 1) < 2 ^ 64 ->
  Forall proper evs -> listed_key k -> EvDelete k ∉ evs -> stored s !! k = Some v ->
  stored (foldl (happens range) s evs) !! k = Some v.
Proof using Hrange.
  revert s n. induction evs as [|ev evs IH]; intros s n Hs Hn Hlen Hp Hk Hno Hv; [done|].
  apply Forall_cons in Hp as [Hev Hp]. apply not_elem_of_cons in Hno as [Hne Hno]. cbn [length foldl] in *.
  assert (Hroom : forall sk, number (stored s) sk + sequenceBandwidth < 2 ^ 64)
    by (intros sk; specialize (Hn sk); unfold sequenceBandwidth in *; lia).
  destruct (happens_ok range Hrange s ev Hs Hev Hroom) as [Hs' Hn'].
  apply (IH _ (n + sequenceBandwidth)); try done.
  - intros sk. specialize (Hn sk). specialize (Hn' sk). lia.
  - unfold sequenceBandwidth in *. lia.
  - by apply happens_keeps.
Qed.

Lemma CreateObject_badger ctx label data s g s' :
  has_label ctx label -> CreateObject ctx data s = (Ok g, s') ->
  data <> [] /\ exists key, bdb_SetScoped (Some (dkey label [])) (Some (package data)) s = (Ok key, s') /\
    slice_from key (length (dkey label [])) = Ok g.
Proof using.
  intros Hl. unfold CreateObject. rewrite (pbind_Ok _ _ _ _ _ (request_label_ok _ _ _ Hl)). rewrite EncodeObject_spec. cbn [Data].
  destruct (Nat.eqb_spec (length data) 0) as [E|Hne]; [done|]. intros Hc. split; [by intros ->|].
  apply pbind_Ok_inv in Hc as (sk & s1 & [= <- <-] & Hc).
  apply pbind_Ok_inv in Hc as (key & s2 & Hset & Hc). exists key.
  unfold on_err in Hset. cbn [SetScoped badger_DB] in Hset. unfold plift in Hc.
  injection Hc as Hc <-. split; [|exact Hc].
  change ([Byte.x64; colon] ++ str_bytes label ++ [colon]) with (dkey label []) in Hset.
  destruct (bdb_SetScoped _ _ s) as [[key'|e|p] s'']; by simplify_eq.
Qed.

(** C9. Objects that a server created are durable while the leases of the key
    sequences can be stored.  Let the commits of sequence leases never fail, and the history, before
    and after, be shorter than 2^64 divided by the bandwidth of the sequences: then,
    for every history that led to the creation, and whatever is created,
    deleted (but the object itself) and restarted afterwards, orderly or by a
    crash, a request for the object returns its data, provided that its key can be
    read then.  (Without the first condition objects are overwritten:
    [failed_renewal_overwrites].) *)
Theorem created_objects_are_durable (w : W) (evs evs' : list event) (ctx : metadata) (label : string) (data g : bytes) (s' : BadgerDB W) :
  calm w -> Forall proper (evs ++ evs') -> sequenceBandwidth * (Z.of_nat (length (evs ++ evs')) + 3) < 2 ^ 64 ->
  has_label ctx label -> CreateObject ctx data (history range w evs) = (Ok g, s') ->
  EvDelete (dkey label g) ∉ evs' -> readable (dkey label g) (foldl (happens range) s' evs') ->
  GetObject ctx (Some g) (foldl (happens range) s' evs') = (Ok data, foldl (happens range) s' evs').
Proof using Hrange.
  intros Hw Hp Hlen Hl Hcr Hno Hread. apply Forall_app in Hp as [Hp Hp']. rewrite length_app in Hlen.
  assert (Hlen1 : sequenceBandwidth * (Z.of_nat (length evs) + 1) < 2 ^ 64) by (unfold sequenceBandwidth in *; lia).
  destruct (history_ok range Hrange w evs Hw Hp Hlen1) as [Hs Hn].
  destruct (CreateObject_badger _ _ _ _ _ _ Hl Hcr) as (Hd & key & Hset & Hg).
  destruct (SetScoped_ok _ _ _ _ _ Hs (dkey_scope label) ltac:(specialize (Hn (dkey label [])); unfold sequenceBandwidth in *; lia) Hset)
    as (Hs' & Hn' & x & -> & _ & Hobj).
  rewrite slice_from_app in Hg. injection Hg as <-.
  assert (Hkey : dkey label [] ++ le_put 8 x = dkey label (le_put 8 x)) by (unfold dkey; by rewrite <- !app_assoc).
  rewrite Hkey in *. assert (Hst : stored (foldl (happens range) s' evs') !! dkey label (le_put 8 x) = Some (package data)).
  { apply (history_keeps _ (sequenceBandwidth * (Z.of_nat (length evs) + 1))); try done.
    - intros sk. specialize (Hn' sk). specialize (Hn sk). unfold sequenceBandwidth in *. lia.
    - unfold sequenceBandwidth in *. lia.
    - rewrite Hobj by done. by rewrite lookup_insert_eq. }
  assert (Hne : le_put 8 x <> []) by (intros E; apply (f_equal length) in E; by rewrite length_le_put in E).
  unfold GetObject. rewrite (pbind_Ok _ _ _ _ _ (request_label_ok _ _ _ Hl)).
  rewrite (pbind_Ok _ _ _ _ _ (request_key_ok _ _ _ Hne)).
  unfold pbind, on_err, pread, plift, pret. cbn [Get badger_DB]. rewrite bdb_Get_spec, Hst by done.
  by rewrite DecodeObject_package.
Qed.
End Properties.

(** ** A disk whose commits follow a schedule, for the witnesses *)
#[export] Instance scheduled : Disk (list (option error)).
Proof.
  refine {| get_fault _ _ := None; value_fault _ _ := None; close_fault _ := None;
    commit_fault _ w := (match w with o :: _ => o | [] => None end, tail w); conflicts w := length w |}; try done.
  intros ws [|o w] w' E; simplify_eq/=; lia.
Defined.

#[export] Instance scheduled_calm : Calm (list (option error)).
Proof.
  refine {| calm w := Forall (fun o => o = None) w |}.
  intros ws w r w' Hw E. injection E as <- <-. destruct Hw as [|o w -> Hw]; [done|]. by split.
Defined.

Abbreviation demo_db := (BadgerDB (list (option error))).

Definition demo_start (w : list (option error)) : demo_db := NewWithOpts {| content := ∅; disk := w |}.

Lemma badger_refines_map_witness :
  bdb_Get (Some (str_bytes "k")) (bdb_Set (Some (str_bytes "k")) (Some (str_bytes "v")) (demo_start [])).2 = Ok (str_bytes "v").
Proof.
  destruct (badger_refines_map (bdb_Set (Some (str_bytes "k")) (Some (str_bytes "v")) (demo_start [])).2 (str_bytes "k") None) as [Hget _].
  rewrite (proj1 (Hget ltac:(done) ltac:(done))). vm_compute. reflexivity.
Defined.

Lemma retry_loops_end_witness :
  (bdb_SetScoped (Some (str_bytes "d:a:")) None (demo_start [Some ErrConflict; Some ErrConflict])).1 <> Panic retrying.
Proof.
  apply (retry_loops_end 3 (str_bytes "k") {| seq_key := unl (str_bytes "k"); next := 0; leased := 0; bandwidth := 512 |}
    (str_bytes "d:a:") None (demo_start [Some ErrConflict; Some ErrConflict])). cbn. lia.
Defined.

Definition demo_scope : bytes := str_bytes "d:a:".

Definition demo_events : list event := [EvSetScoped demo_scope (Some [Byte.x01]); EvCrash].

Lemma demo_scope_ok : scope_ok demo_scope.
Proof. intros g. reflexivity. Qed.

Lemma demo_short (n : nat) : (n <= 10)%nat -> sequenceBandwidth * (Z.of_nat n + 3) < 2 ^ 64.
Proof. unfold sequenceBandwidth. lia. Qed.

Lemma badger_never_overwrites_witness :
  exists key s', bdb_SetScoped (Some demo_scope) None (history id [] demo_events) = (Ok key, s') /\
    stored (history id [] demo_events) !! key = None.
Proof.
  eexists _, _. split; [vm_compute; reflexivity|].
  refine (proj1 (proj2 (proj2 (badger_never_overwrites id (fun l => reflexivity l) [] demo_events
    demo_scope None (Ok _) _ (Forall_nil_2 _) _ demo_scope_ok _ _)))).
  - repeat constructor.
  - pose proof (demo_short 2 ltac:(lia)). cbn [length demo_events]. unfold sequenceBandwidth in *. lia.
  - vm_compute. reflexivity.
Defined.

Definition badger_ctx : metadata := Some {[ MetaLabelKey := ["ns"%string] ]}.

Definition demo_later : list event := [EvClose; EvSetScoped demo_scope None; EvCrash].

Definition demo_created : demo_db := (CreateObject badger_ctx (str_bytes "data") (history id [] demo_events)).2.

Lemma created_objects_are_durable_witness :
  (GetObject badger_ctx (Some (le_put 8 0)) (foldl (happens id) demo_created demo_later)).1 = Ok (str_bytes "data").
Proof.
  rewrite (created_objects_are_durable id (fun l => reflexivity l) [] demo_events demo_later
    badger_ctx "ns" (str_bytes "data") (le_put 8 0) demo_created).
  - reflexivity.
  - constructor.
  - repeat constructor.
  - apply (demo_short 5). lia.
  - vm_compute. reflexivity.
  - unfold demo_created. set (s := history id [] demo_events). vm_compute in s. vm_compute. reflexivity.
  - unfold demo_later. rewrite !not_elem_of_cons. split_and!; [discriminate..|apply not_elem_of_nil].
  - split; reflexivity.
Defined.

(** When a lease cannot be stored, objects are lost: after 512 creations and one
    creation that failed because the new lease could not be written, the next
    512 creations succeed, and the one after them gets a key that is in use and
    overwrites the object under it, without an error.  The sequence is advanced
    before the commit of its lease, and used after the commit failed. *)
Fixpoint creations (n : nat) (s : demo_db) : demo_db :=
  match n with O => s | S n => creations n (bdb_SetScoped (Some demo_scope) (Some (str_bytes "old")) s).2 end.

Definition full_disk : demo_db :=
  creations 512 (demo_start (replicate 513 None ++ [Some (ErrNew "no space left on device")])).

Definition recovered : demo_db :=
  creations 512 (bdb_SetScoped (Some demo_scope) (Some (str_bytes "old")) full_disk).2.

Theorem failed_renewal_overwrites :
  (bdb_SetScoped (Some demo_scope) (Some (str_bytes "old")) full_disk).1 = Err (ErrNew "no space left on device") /\
  (bdb_SetScoped (Some demo_scope) (Some (str_bytes "new")) recovered).1 = Ok (demo_scope ++ le_put 8 512) /\
  bdb_Get (Some (demo_scope ++ le_put 8 512)) recovered = Ok (str_bytes "old") /\
  bdb_Get (Some (demo_scope ++ le_put 8 512)) (bdb_SetScoped (Some demo_scope) (Some (str_bytes "new")) recovered).2
    = Ok (str_bytes "new").
Proof. split_and!; vm_compute; reflexivity. Qed.

(** A sequence that cannot be released when it leaves the cache stops the
    process: the message to be logged asserts the type of the cache key, which is
    a string. *)
Lemma failed_release_panics sk q (e : error) :
  seq_key q = unl sk -> (length (unl sk) <= 2 ^ 16)%nat ->
  exists d, onEvict sk q {| content := ∅; disk := [Some e] |} =
    (Panic "interface conversion: interface {} is string, not []uint8", d).
Proof.
  intros Hk Hlen. unfold onEvict, Release. rewrite Hk.
  destruct (Update_set (unl sk) (be_put64 (next q)) tt {| content := ∅; disk := [Some e] |}) as [(e' & _ & ->)| ->]; by eexists.
Qed.
