(* ===== verification/Datastor.v ===== *)
(** * The datastor client ([client/datastor], [client/datastor/grpc])

    The client of one zstordb server: the context it sends with a request, the
    six calls, and the translation of server errors.  The generated gRPC stubs
    and the transport are third-party code: [Services] is a record of calls on
    a world [W], and [served] is the record whose calls run the handlers of
    [ServerAPI] and carry their errors over the wire. *)

From S2P Require Import Prelude GoStrings Encoding Keys DB Jwt ServerAPI ServerProps.
Import Encoding.Encoding.
Open Scope Z_scope.

(** ** Types and errors of [client/datastor/types.go] *)
Definition ErrMissingKey := ErrVar "datastor" "ErrMissingKey" "zstor: missing object key (zstordb bug?)".
Definition ErrMissingData := ErrVar "datastor" "ErrMissingData" "zstor: missing object data (zstordb bug?)".
Definition ErrInvalidStatus := ErrVar "datastor" "ErrInvalidStatus" "zstor: invalid object status (zstordb bug?)".
Definition ErrInvalidLabel := ErrVar "datastor" "ErrInvalidLabel" "zstor: invalid namespace label (zstordb bug?)".
Definition ErrObjectKeyNotFound := ErrVar "datastor" "ErrKeyNotFound" "zstordb: key is no found".
Definition ErrObjectCorrupted := ErrVar "datastor" "ErrObjectCorrupted" "zstordb: object is corrupted".
Definition ErrNotPermitted :=
  ErrVar "datastor" "ErrPermissionDenied" "zstordb: JWT token does not permit requested action".

Record DataObject := { ob_key : slice; ob_data : bytes }.

Record DataNamespace := { dn_label : string; dn_read : Z; dn_write : Z; dn_objects : Z }.

Record ObjectKeyResult := { kr_key : bytes; kr_error : option error }.

(** ** Stubs *)
Record Services (W : Type) := {
  svc_CreateObject : metadata -> bytes -> prog W bytes;
  svc_GetObject : metadata -> slice -> prog W bytes;
  svc_DeleteObject : metadata -> slice -> prog W unit;
  svc_GetObjectStatus : metadata -> slice -> prog W Z;
  svc_GetNamespace : metadata -> prog W NamespaceResponse;
  (** the keys a stream delivers, then its end ([None] is [io.EOF]) *)
  svc_ListObjectKeys : metadata -> prog W (list bytes * option error);
}.
Arguments svc_CreateObject {W}.
Arguments svc_GetObject {W}.
Arguments svc_DeleteObject {W}.
Arguments svc_GetObjectStatus {W}.
Arguments svc_GetNamespace {W}.
Arguments svc_ListObjectKeys {W}.

(** [datastor.JWTTokenGetter], with its state in the world. *)
Record JWTTokenGetter (W : Type) := {
  GetJWTToken : string -> prog W string;
  GetLabel : string -> outcome string;
}.
Arguments GetJWTToken {W}.
Arguments GetLabel {W}.

(** ** Errors of a call *)
Definition expectedErrorMapping : list (error * error) :=
  [(ErrKeyNotFound, ErrObjectKeyNotFound); (ErrObjectDataCorrupted, ErrObjectCorrupted);
   (ErrPermissionDenied, ErrNotPermitted)].

Definition toErr (e : error) : error :=
  match rpc_Error e with
  | ErrZStor code desc =>
      match List.find (fun m => bool_decide (m.1 = ErrZStor code desc)) expectedErrorMapping with
      | Some m => m.2
      | None => ErrZStor code desc
      end
  | e' => e'
  end.

(** [toErr] never returns nil for an error, so the first return of
    [toContextErr] is always taken. *)
Definition toContextErr (e : error) : error := toErr e.

(** [pb.ObjectStatus] is an [int32] on the wire. *)
Definition ProtoObjectStatusMapping : list (Z * ObjectStatus) :=
  [(1, ObjectStatusOK); (0, ObjectStatusMissing); (2, ObjectStatusCorrupted)].

Definition client_convertStatus (status : Z) : outcome ObjectStatus :=
  match List.find (fun m => m.1 =? status) ProtoObjectStatusMapping with
  | Some m => Ok m.2
  | None => Err ErrInvalidStatus
  end.

(** ** The client ([grpc/client.go]) *)
Section Client.
Context {W : Type}.

Record Client := {
  c_services : Services W;
  c_context : prog W metadata;
  c_label : string;
}.

(** [metadata.Pairs] of the label, with the token first when there is one. *)
Definition defaultContextConstructor (namespace : string) : prog W metadata :=
  pret (Some {[ MetaLabelKey := [namespace] ]}).

Definition jwtContextConstructor (getter : JWTTokenGetter W) (namespace label : string) : prog W metadata :=
  do! jwtToken := GetJWTToken getter namespace in
  pret (Some (<[MetaAuthKey := [jwtToken]]> {[ MetaLabelKey := [label] ]})).

(** [grpc.Dial] with the address and whether TLS credentials are used. *)
Definition NewClient (Dial : string -> bool -> outcome (Services W)) (addr namespace : string)
    (jwtTokenGetter : option (JWTTokenGetter W)) (tls : bool) : outcome Client :=
  if (String.length addr =? 0)%nat then Err (ErrNew "no/empty zstordb address given")
  else if (String.length namespace =? 0)%nat then Err (ErrNew "no/empty namespace given")
  else
    match Dial addr tls with
    | Err e => Err (ErrNew ("couldn't connect to zstordb server " +:+ addr +:+ ": " +:+ error_text e))
    | Panic p => Panic p
    | Ok conn =>
        match jwtTokenGetter with
        | None => Ok {| c_services := conn; c_context := defaultContextConstructor namespace;
                        c_label := namespace |}
        | Some getter =>
            let! label := GetLabel getter namespace in
            Ok {| c_services := conn; c_context := jwtContextConstructor getter namespace label;
                  c_label := label |}
        end
    end.

Definition cl_CreateObject (c : Client) (data : bytes) : prog W bytes :=
  do! ctx := c_context c in
  on_err toErr (svc_CreateObject (c_services c) ctx data).

Definition cl_GetObject (c : Client) (key : slice) : prog W DataObject :=
  do! ctx := c_context c in
  do! data := on_err toErr (svc_GetObject (c_services c) ctx key) in
  if (length data =? 0)%nat then pfail ErrMissingData
  else pret {| ob_key := key; ob_data := data |}.

Definition cl_DeleteObject (c : Client) (key : slice) : prog W unit :=
  do! ctx := c_context c in
  on_err toErr (svc_DeleteObject (c_services c) ctx key).

Definition cl_GetObjectStatus (c : Client) (key : slice) : prog W ObjectStatus :=
  do! ctx := c_context c in
  do! status := on_err toErr (svc_GetObjectStatus (c_services c) ctx key) in
  plift (client_convertStatus status).

Definition cl_ExistObject (c : Client) (key : slice) : prog W bool :=
  do! status := cl_GetObjectStatus c key in
  match status with
  | ObjectStatusOK => pret true
  | ObjectStatusCorrupted => pfail ErrObjectCorrupted
  | ObjectStatusMissing => pret false
  end.

Definition cl_GetNamespace (c : Client) : prog W DataNamespace :=
  do! ctx := c_context c in
  do! resp := on_err toErr (svc_GetNamespace (c_services c) ctx) in
  if negb (bool_decide (nsLabel resp = c_label c)) then pfail ErrInvalidLabel
  else pret {| dn_label := nsLabel resp; dn_read := ReadRequestPerHour resp;
               dn_write := WriteRequestPerHour resp; dn_objects := NrObjects resp |}.

(** What the goroutine of [ListObjectKeyIterator] sends for the messages of
    the stream, while nobody cancels the context. *)
Fixpoint key_results (keys : list bytes) (fin : option error) : list ObjectKeyResult :=
  match keys with
  | [] => match fin with
          | None => []
          | Some e => [{| kr_key := []; kr_error := Some (toContextErr e) |}]
          end
  | key :: keys' =>
      if (length key =? 0)%nat then [{| kr_key := key; kr_error := Some ErrMissingKey |}]
      else {| kr_key := key; kr_error := None |} :: key_results keys' fin
  end.

Definition cl_ListObjectKeyIterator (c : Client) : prog W (list ObjectKeyResult) :=
  do! ctx := c_context c in
  do! (keys, fin) := on_err toContextErr (svc_ListObjectKeys (c_services c) ctx) in
  pret (key_results keys fin).
End Client.
Arguments Client : clear implicits.

(** ** A server behind the stubs

    gRPC sends a status as its code and description; any other error of a
    handler becomes a status with code [Unknown] and the error's text. *)
Definition wire_err (e : error) : error :=
  match e with ErrStatus _ _ => e | _ => ErrStatus codes_Unknown (error_text e) end.

Definition pbObjectStatus_value (s : pbObjectStatus) : Z :=
  match s with pbObjectStatusMissing => 0 | pbObjectStatusOK => 1 | pbObjectStatusCorrupted => 2 end.

Section Served.
Context `{DB St} `{RateCounter RC}.

(** A stream whose handler fails ends with that error and delivers no key. *)
Definition served : Services (St * gmap string stat) := {|
  svc_CreateObject ctx data := on_err wire_err (on_db (CreateObject ctx data));
  svc_GetObject ctx key := on_err wire_err (on_db (GetObject ctx key));
  svc_DeleteObject ctx key := on_err wire_err (on_db (DeleteObject ctx key));
  svc_GetObjectStatus ctx key :=
    pmap pbObjectStatus_value (on_err wire_err (on_db (GetObjectStatus ctx key)));
  svc_GetNamespace ctx := on_err wire_err (GetNamespace ctx);
  svc_ListObjectKeys ctx := fun s =>
    match on_db (ListObjectKeys (fun l k => Ok (l ++ [k])) ctx []) s with
    | (Ok keys, s') => (Ok (keys, None), s')
    | (Err e, s') => (Ok ([], Some (wire_err e)), s')
    | (Panic p, s') => (Panic p, s')
    end;
|}.
End Served.

(** ** Properties *)

(** Every documented error of the server reaches the client as itself: the
    client maps it by its description, so the status code plays no role, and
    also the errors of the authentication middleware, which lose their code on
    the wire, are recognized.  The three expected errors become the errors of
    the client package. *)
Theorem errors_survive_the_wire :
  Forall (fun e => toErr (wire_err e) = toErr e /\ toErr (wire_err (rpc_Error e)) = toErr e) server_errors /\
  toErr ErrGRPCKeyNotFound = ErrObjectKeyNotFound /\
  toErr ErrGRPCObjectDataCorrupted = ErrObjectCorrupted /\
  toErr ErrGRPCPermissionDenied = ErrNotPermitted /\
  wire_err ErrPermissionDenied = ErrStatus codes_Unknown "zstordb: JWT token does not permit requested action".
Proof. split_and!; [repeat constructor; vm_compute; split; reflexivity|vm_compute; reflexivity..]. Qed.

Section Lifecycle.
Context `{DBLaws St} `{RateCounter RC}.

Lemma default_label namespace : has_label (Some {[ MetaLabelKey := [namespace] ]}) namespace.
Proof using. unfold has_label, extractStringFromContext. by rewrite lookup_singleton_eq. Qed.

(** The client of a server without authentication. *)
Definition the_client (namespace : string) : Client (St * gmap string stat) := {| c_services := served (St := St) (RC := RC);
  c_context := defaultContextConstructor namespace; c_label := namespace |}.

Lemma NewClient_served addr namespace tls c :
  NewClient (fun _ _ => Ok (served (St := St))) addr namespace None tls = Ok c ->
  c = the_client namespace.
Proof using. unfold NewClient. repeat case_match; naive_solver. Qed.

Lemma on_db_run {T A} (m : prog St A) (s : St * T) r s' : m s.1 = (r, s') -> on_db m s = (r, (s', s.2)).
Proof using. unfold on_db. by intros ->. Qed.

Lemma cl_CreateObject_spec namespace data s :
  db_up s.1 -> data <> [] ->
  exists g s1, cl_CreateObject (the_client namespace) data s = (Ok g, (s1, s.2)) /\ db_up s1 /\
    g <> [] /\ db_map s1 = <[dkey namespace g := package data]> (db_map s.1) /\
    (forall n, db_scoped s.1 -> db_room (S n) (dkey namespace []) s.1 ->
       db_map s.1 !! dkey namespace g = None /\ db_scoped s1 /\ db_room n (dkey namespace []) s1 /\
       ~ db_issued (dkey namespace g) s.1 /\ db_issued (dkey namespace g) s1 /\
       (forall k, db_issued k s.1 -> db_issued k s1)).
Proof using All.
  intros Hup Hd. destruct (CreateObject_spec _ namespace data s.1 Hup (default_label namespace) Hd)
    as (g & s1 & Hcr & Hup1 & Hlen & Hm & Hfresh).
  exists g, s1. split_and!; try done; [|by intros ->].
  unfold cl_CreateObject. cbn [c_context c_services svc_CreateObject served the_client].
  erewrite pbind_Ok by reflexivity. unfold on_err. by rewrite (on_db_run _ s _ _ Hcr).
Qed.

Lemma cl_CreateObject_nil namespace s :
  cl_CreateObject (the_client namespace) [] s = (Err (toErr ErrGRPCNilData), s).
Proof using.
  destruct s as [db st]. unfold cl_CreateObject. cbn [c_context c_services svc_CreateObject served the_client].
  erewrite pbind_Ok by reflexivity. unfold on_err. rewrite (on_db_run _ _ (Err ErrGRPCNilData) db); [done|].
  cbn [fst]. unfold CreateObject. by rewrite (pbind_Ok _ _ _ _ _ (request_label_ok _ _ _ (default_label namespace))).
Qed.

Lemma cl_DeleteObject_spec namespace g s :
  db_up s.1 -> g <> [] ->
  exists s1, cl_DeleteObject (the_client namespace) (Some g) s = (Ok tt, (s1, s.2)) /\ db_up s1 /\
    db_map s1 = delete (dkey namespace g) (db_map s.1) /\
    (db_scoped s.1 -> db_scoped s1) /\ (forall n sk, db_room n sk s.1 -> db_room n sk s1) /\
    (forall k, db_issued k s.1 -> db_issued k s1).
Proof using All.
  intros Hup Hg. destruct (DeleteObject_spec _ namespace g s.1 Hup (default_label namespace) Hg)
    as (s1 & Hdel & Hup1 & Hm & Hrest).
  exists s1. split_and!; try done; [|apply Hrest..]. unfold cl_DeleteObject.
  cbn [c_context c_services svc_DeleteObject served the_client].
  erewrite pbind_Ok by reflexivity. unfold on_err. by rewrite (on_db_run _ s _ _ Hdel).
Qed.

Lemma cl_GetObject_spec namespace g s :
  db_up s.1 -> g <> [] ->
  cl_GetObject (the_client namespace) (Some g) s =
    (match db_map s.1 !! dkey namespace g with
     | None => Err ErrObjectKeyNotFound
     | Some raw => match DecodeObject raw with
                   | Ok o => if (length (Data o) =? 0)%nat then Err ErrMissingData
                             else Ok {| ob_key := Some g; ob_data := Data o |}
                   | _ => Err ErrObjectCorrupted
                   end
     end, s).
Proof using All.
  intros Hup Hg. unfold cl_GetObject. cbn [c_context c_services svc_GetObject served the_client].
  erewrite pbind_Ok by reflexivity. unfold pbind, on_err, on_db.
  rewrite (GetObject_spec _ namespace) by (done || apply default_label).
  destruct s as [db st]. cbn [fst snd] in *.
  destruct (db_map db !! dkey namespace g) as [raw|]; [|done].
  destruct (DecodeObject raw) as [o|e|p]; [|done..]. cbn [fst]. by destruct (length (Data o) =? 0)%nat.
Qed.

Lemma cl_GetObjectStatus_spec namespace g s :
  db_up s.1 -> g <> [] ->
  cl_GetObjectStatus (the_client namespace) (Some g) s =
    (Ok match db_map s.1 !! dkey namespace g with
        | None => ObjectStatusMissing
        | Some raw => match DecodeObject raw with Ok _ => ObjectStatusOK | _ => ObjectStatusCorrupted end
        end, s).
Proof using All.
  intros Hup Hg. unfold cl_GetObjectStatus. cbn [c_context c_services svc_GetObjectStatus served the_client].
  erewrite pbind_Ok by reflexivity. unfold pmap, pbind, on_err, on_db, pret, plift.
  rewrite (GetObjectStatus_spec _ namespace) by (done || apply default_label).
  destruct s as [db st]. cbn [fst snd] in *.
  by destruct (db_map db !! dkey namespace g) as [raw|]; [destruct (DecodeObject raw)|].
Qed.

Lemma cl_ExistObject_spec namespace g s :
  db_up s.1 -> g <> [] ->
  cl_ExistObject (the_client namespace) (Some g) s =
    (match db_map s.1 !! dkey namespace g with
     | None => Ok false
     | Some raw => match DecodeObject raw with Ok _ => Ok true | _ => Err ErrObjectCorrupted end
     end, s).
Proof using All.
  intros Hup Hg. unfold cl_ExistObject, pbind. rewrite cl_GetObjectStatus_spec by done.
  by destruct (db_map s.1 !! dkey namespace g) as [raw|]; [destruct (DecodeObject raw)|].
Qed.

(** An object through its life, from the client to the database and back:
    what is created is read back and exists; a deleted object is reported with
    the client's key-not-found error and does not exist; an object whose
    package does not decode is reported as corrupted by reading and by the
    existence test alike. *)
Theorem client_object_lifecycle (addr namespace : string) (tls : bool) (c : Client (St * gmap string stat))
    (data : bytes) (s : St * gmap string stat) :
  NewClient (fun _ _ => Ok served) addr namespace None tls = Ok c -> db_up s.1 -> data <> [] ->
  (exists g s1 s2, cl_CreateObject c data s = (Ok g, s1) /\
     cl_GetObject c (Some g) s1 = (Ok {| ob_key := Some g; ob_data := data |}, s1) /\
     cl_ExistObject c (Some g) s1 = (Ok true, s1) /\
     cl_DeleteObject c (Some g) s1 = (Ok tt, s2) /\
     cl_GetObject c (Some g) s2 = (Err ErrObjectKeyNotFound, s2) /\
     cl_ExistObject c (Some g) s2 = (Ok false, s2)) /\
  (forall g raw, g <> [] -> db_map s.1 !! dkey namespace g = Some raw ->
     (forall o, DecodeObject raw <> Ok o) ->
     cl_GetObject c (Some g) s = (Err ErrObjectCorrupted, s) /\
     cl_ExistObject c (Some g) s = (Err ErrObjectCorrupted, s)).
Proof using All.
  intros Hc Hup Hd. apply NewClient_served in Hc as ->. split.
  - destruct (cl_CreateObject_spec namespace data s Hup Hd) as (g & s1 & Hcr & Hup1 & Hg & Hm & _).
    destruct (cl_DeleteObject_spec namespace g (s1, s.2) Hup1 Hg) as (s2 & Hdel & Hup2 & Hm2 & _).
    exists g, (s1, s.2), (s2, s.2). rewrite Hcr, Hdel.
    rewrite !cl_GetObject_spec, !cl_ExistObject_spec by done. cbn [fst] in *.
    rewrite Hm2, lookup_delete_eq, Hm, lookup_insert_eq, DecodeObject_package by done. split_and!; try done.
    by destruct data.
  - intros g raw Hg Hraw Hbad. rewrite cl_GetObject_spec, cl_ExistObject_spec, Hraw by done.
    destruct (DecodeObject raw); [by destruct (Hbad a)|done..].
Qed.
End Lifecycle.

Section Witness.
Import Memory.

Lemma client_object_lifecycle_witness :
  exists c, NewClient (fun _ _ => Ok (served (St := MemDB) (RC := Z))) "localhost:8080" "ns" None false = Ok c /\
  exists g s1, cl_CreateObject c (str_bytes "v") (New, ∅) = (Ok g, s1) /\
    cl_GetObject c (Some g) s1 = (Ok {| ob_key := Some g; ob_data := str_bytes "v" |}, s1).
Proof.
  eexists. split; [reflexivity|].
  destruct (@client_object_lifecycle _ _ default_laws _ _ "localhost:8080" "ns" false
    _ (str_bytes "v") (New, ∅) eq_refl I ltac:(done)) as [(g & s1 & s2 & Hcr & Hg & _) _].
  exists g, s1. split; [exact Hcr|exact Hg].
Defined.
End Witness.
