(* ===== verification/Cluster.v ===== *)
(** * Clusters of servers ([client/datastor/cluster.go], [grpc/cluster.go])

    A cluster knows its listed shards from the start and dials unlisted ones on
    demand.  [Iterators] models the random shard iterator; [GrpcCluster] models
    the cluster itself, with dialling as a parameter. *)

From S2P Require Import Prelude GoStrings Jwt ServerAPI Datastor.
Open Scope nat_scope.

Module Iterators.
Section RandomShardIterator.
Context {A : Type}.

(** [RandomShardIterator]: the shards not handed out yet are the first
    [it_length] of the slice. *)
Record RandomShardIterator := {
  it_slice : list A;
  it_length : nat;
  it_current : option A;
}.

Definition NewRandomShardIterator (slice : list A) : RandomShardIterator :=
  {| it_slice := slice; it_length := length slice; it_current := None |}.

(** [Next], where [RandShardIndex] returned [index]. *)
Definition Next (index : nat) (it : RandomShardIterator) : outcome (bool * RandomShardIterator) :=
  if it_length it <? 1 then Ok (false, it)
  else
    let n := it_length it - 1 in
    match it_slice it !! index, it_slice it !! n with
    | Some x, Some y =>
        let slice := <[n := x]> (<[index := y]> (it_slice it)) in
        Ok (true, {| it_slice := slice; it_length := n; it_current := slice !! n |})
    | _, _ => Panic "index out of range"
    end.

Definition Shard (it : RandomShardIterator) : outcome A :=
  match it_current it with
  | None => Panic "invalid shard iterator, ensure to make a successful Next() call first"
  | Some s => Ok s
  end.

(** The loop [for it.Next() { shard = it.Shard(); ... }] with the indices that
    were drawn. *)
Fixpoint drain (choices : list nat) (it : RandomShardIterator) : outcome (list A * RandomShardIterator) :=
  match choices with
  | [] => Ok ([], it)
  | index :: choices' =>
      let! (more, it') := Next index it in
      if negb more then Ok ([], it')
      else
        let! shard := Shard it' in
        let! (l, it'') := drain choices' it' in
        Ok (shard :: l, it'')
  end.

(** Indices that [RandShardIndex] can draw, for a pool of [n]: each below the
    number of shards left. *)
Fixpoint drawable (n : nat) (choices : list nat) : Prop :=
  match choices with
  | [] => True
  | index :: choices' => index < n /\ drawable (n - 1) choices'
  end.

Lemma Next_spec index it :
  it_length it <= length (it_slice it) -> index < it_length it ->
  exists x it', Next index it = Ok (true, it') /\ Shard it' = Ok x /\
    it_length it' = it_length it - 1 /\ length (it_slice it') = length (it_slice it) /\
    x :: take (it_length it') (it_slice it') ≡ₚ take (it_length it) (it_slice it).
Proof using.
  intros Hlen Hi. unfold Next. destruct (Nat.ltb_spec (it_length it) 1); [lia|].
  destruct (lookup_lt_is_Some_2 (it_slice it) index) as [x Hx]; [lia|].
  destruct (lookup_lt_is_Some_2 (it_slice it) (it_length it - 1)) as [y Hy]; [lia|].
  rewrite Hx, Hy. set (n := it_length it - 1) in *.
  assert (Hlast : <[n := x]> (<[index := y]> (it_slice it)) !! n = Some x).
  { apply list_lookup_insert_eq. rewrite length_insert. lia. }
  exists x. eexists. split; [done|]. unfold Shard. cbn [it_current it_length it_slice].
  rewrite Hlast, !length_insert. split_and!; try done.
  replace (it_length it) with (S n) at 1 by lia.
  transitivity (take (S n) (<[n := x]> (<[index := y]> (it_slice it)))).
  { rewrite (take_S_r _ _ _ Hlast). apply Permutation_cons_append. }
  rewrite !take_insert_lt by lia. apply Permutation_insert_swap.
  - rewrite lookup_take_lt by lia. done.
  - rewrite lookup_take_lt by lia. done.
Qed.

(** Draining as many shards as there are hands out each one once. *)
Lemma drain_spec choices it :
  it_length it <= length (it_slice it) -> drawable (it_length it) choices ->
  length choices = it_length it ->
  exists l it', drain choices it = Ok (l, it') /\ l ≡ₚ take (it_length it) (it_slice it) /\
    it_length it' = 0.
Proof using.
  revert it; induction choices as [|index cs IH]; intros it Hlen Hd Hc; cbn [drain length] in *.
  - exists [], it. rewrite <- Hc. done.
  - destruct Hd as [Hi Hd].
    destruct (Next_spec index it Hlen Hi) as (x & it1 & -> & Hs & Hl1 & Hlen1 & Hperm).
    cbn [obind negb]. rewrite Hs. cbn [obind].
    destruct (IH it1) as (l & it2 & -> & Hpl & H0); [lia|by rewrite Hl1|lia|].
    exists (x :: l), it2. split_and!; try done. by rewrite <- Hperm, Hpl.
Qed.
End RandomShardIterator.
Arguments RandomShardIterator : clear implicits.
End Iterators.

Module GrpcCluster.
Import Iterators.

Record Shard (W : Type) := { sh_client : Client W; sh_address : string }.
Arguments sh_client {W}.
Arguments sh_address {W}.

Definition Identifier {W} (shard : Shard W) : string := sh_address shard.

(** [tlsConfig] is nil or not; [tls] says whether there is one. *)
Record Cluster (W : Type) := {
  listed : gmap string (Shard W);
  listedSlice : list (Shard W);
  listedCount : nat;
  unlisted : gmap string (Shard W);
  cl_namespace : string;
  cl_jwtTokenGetter : option (JWTTokenGetter W);
  cl_tls : bool;
}.
Arguments listed {W}.
Arguments listedSlice {W}.
Arguments listedCount {W}.
Arguments unlisted {W}.
Arguments cl_namespace {W}.
Arguments cl_jwtTokenGetter {W}.
Arguments cl_tls {W}.

Section Cluster.
Context {W : Type} (Dial : string -> bool -> outcome (Services W)).

(** The loop of [NewCluster].  When a client cannot be made, the shards in
    [listed] are closed; they are the second component of the result. *)
Fixpoint open_shards (addresses : list string) (namespace : string)
    (jwtTokenGetter : option (JWTTokenGetter W)) (tls : bool)
    (listedSlice : list (Shard W)) (listed : gmap string (Shard W))
    : outcome (list (Shard W) * gmap string (Shard W)) * list (Shard W) :=
  match addresses with
  | [] => (Ok (listedSlice, listed), [])
  | address :: rest =>
      match NewClient Dial address namespace jwtTokenGetter tls with
      | Err e => (Err e, (map_to_list listed).*2)
      | Panic p => (Panic p, [])
      | Ok client =>
          let shard := {| sh_client := client; sh_address := address |} in
          open_shards rest namespace jwtTokenGetter tls (listedSlice ++ [shard]) (<[address := shard]> listed)
      end
  end.

(** The new cluster does not keep the TLS configuration. *)
Definition NewCluster (addresses : list string) (namespace : string)
    (jwtTokenGetter : option (JWTTokenGetter W)) (tls : bool) : outcome (Cluster W) * list (Shard W) :=
  if (length addresses =? 0)%nat then (Err (ErrNew "no listed addresses given"), [])
  else if bool_decide (namespace = EmptyString) then (Err (ErrNew "no namespace given"), [])
  else
    match open_shards addresses namespace jwtTokenGetter tls [] ∅ with
    | (Ok (slice, m), closed) =>
        (Ok {| listed := m; listedSlice := slice; listedCount := length addresses; unlisted := ∅;
               cl_namespace := namespace; cl_jwtTokenGetter := jwtTokenGetter; cl_tls := false |}, closed)
    | (Err e, closed) => (Err e, closed)
    | (Panic p, closed) => (Panic p, closed)
    end.

(** The mutex makes the part about unlisted shards one step. *)
Definition GetShard (address : string) : prog (Cluster W) (Shard W) :=
  fun cluster =>
    match listed cluster !! address with
    | Some shard => (Ok shard, cluster)
    | None =>
        match unlisted cluster !! address with
        | Some shard => (Ok shard, cluster)
        | None =>
            match NewClient Dial address (cl_namespace cluster) (cl_jwtTokenGetter cluster) (cl_tls cluster) with
            | Err e => (Err e, cluster)
            | Panic p => (Panic p, cluster)
            | Ok client =>
                let shard := {| sh_client := client; sh_address := address |} in
                (Ok shard,
                 {| listed := listed cluster; listedSlice := listedSlice cluster;
                    listedCount := listedCount cluster;
                    unlisted := <[address := shard]> (unlisted cluster);
                    cl_namespace := cl_namespace cluster;
                    cl_jwtTokenGetter := cl_jwtTokenGetter cluster; cl_tls := cl_tls cluster |})
            end
        end
    end.

Definition GetRandomShard (index : nat) (cluster : Cluster W) : outcome (Shard W) :=
  match listedSlice cluster !! index with
  | Some shard => Ok shard
  | None => Panic "index out of range"
  end.

Definition filteredSlice (exceptShards : list string) (cluster : Cluster W) : list (Shard W) :=
  if (length exceptShards =? 0)%nat then take (listedCount cluster) (listedSlice cluster)
  else
    let fm : gset string := list_to_set exceptShards in
    filter (fun shard => Identifier shard ∉ fm) (listedSlice cluster).

Definition GetRandomShardIterator (exceptShards : list string) (cluster : Cluster W)
  : RandomShardIterator (Shard W) := NewRandomShardIterator (filteredSlice exceptShards cluster).

Definition ListedShardCount (cluster : Cluster W) : nat := listedCount cluster.

(** [Close]: every unlisted and every listed shard is closed, in some order;
    [CloseConn] is the outcome for each. *)
Definition Close (CloseConn : Shard W -> outcome unit) (cluster : Cluster W) : outcome unit * list (Shard W) :=
  let shards := (map_to_list (unlisted cluster)).*2 ++ (map_to_list (listed cluster)).*2 in
  let errCount := length (filter (fun sh => CloseConn sh <> Ok tt) shards) in
  if (0 <? errCount)%nat
  then (Err (ErrNew "one or multiple shards returned an error while closing"), shards)
  else (Ok tt, shards).

(** What holds of a cluster made by [NewCluster addresses], and is kept by
    [GetShard]. *)
Definition cluster_wf (addresses : list string) (cluster : Cluster W) : Prop :=
  map sh_address (listedSlice cluster) = addresses /\ listedCount cluster = length addresses /\
  (forall a, is_Some (listed cluster !! a) <-> a ∈ addresses) /\
  (forall a sh, listed cluster !! a = Some sh -> sh_address sh = a /\ sh ∈ listedSlice cluster) /\
  (forall a sh, unlisted cluster !! a = Some sh -> sh_address sh = a /\ a ∉ addresses) /\
  cl_tls cluster = false.

Lemma open_shards_spec addresses namespace jwt tls slice m :
  (forall a, is_Some (m !! a) <-> a ∈ map sh_address slice) ->
  (forall a sh, m !! a = Some sh -> sh_address sh = a /\ sh ∈ slice) ->
  match open_shards addresses namespace jwt tls slice m with
  | (Ok (slice', m'), closed) =>
      map sh_address slice' = map sh_address slice ++ addresses /\ closed = [] /\
      (forall a, is_Some (m' !! a) <-> a ∈ map sh_address slice') /\
      (forall a sh, m' !! a = Some sh -> sh_address sh = a /\ sh ∈ slice')
  | _ => True
  end.
Proof using.
  revert slice m; induction addresses as [|a rest IH]; intros slice m Hdom Hm; cbn [open_shards].
  { by rewrite app_nil_r. }
  destruct (NewClient Dial a namespace jwt tls) as [client|e|p]; [|done..].
  set (shard := {| sh_client := client; sh_address := a |}).
  assert (Hdom' : forall x, is_Some (<[a := shard]> m !! x) <-> x ∈ map sh_address (slice ++ [shard])).
  { intros x. rewrite lookup_insert_is_Some', Hdom, map_app. set_solver. }
  assert (Hm' : forall x sh, <[a := shard]> m !! x = Some sh -> sh_address sh = x /\ sh ∈ slice ++ [shard]).
  { intros x sh Hx. apply lookup_insert_Some in Hx as [[<- <-]|[_ Hx]]; [set_solver|].
    apply Hm in Hx. set_solver. }
  specialize (IH _ _ Hdom' Hm').
  destruct (open_shards rest namespace jwt tls (slice ++ [shard]) (<[a := shard]> m)) as [[[s' m'']|?|?] c];
    [|done..].
  destruct IH as (-> & IH). split; [|done]. by rewrite map_app, <- app_assoc.
Qed.

Lemma NewClient_services address namespace jwt tls client :
  NewClient Dial address namespace jwt tls = Ok client -> Dial address tls = Ok (c_services client).
Proof using.
  unfold NewClient. destruct (_ =? 0)%nat; [done|]. destruct (_ =? 0)%nat; [done|]. destruct (Dial address tls) as [conn|e|p]; [|done..].
  destruct jwt as [getter|]; [|by intros [= <-]]. by intros (label & _ & [= <-])%obind_Ok_inv.
Qed.

(** Every shard has the client that was made for its address. *)
Lemma open_shards_made addresses namespace jwt tls slice m slice' m' closed :
  (forall sh, sh ∈ slice -> NewClient Dial (sh_address sh) namespace jwt tls = Ok (sh_client sh)) ->
  open_shards addresses namespace jwt tls slice m = (Ok (slice', m'), closed) ->
  forall sh, sh ∈ slice' -> NewClient Dial (sh_address sh) namespace jwt tls = Ok (sh_client sh).
Proof using.
  revert slice m; induction addresses as [|a rest IH]; intros slice m Hs; cbn [open_shards]; [by intros [= <- <- <-]|].
  destruct (NewClient Dial a namespace jwt tls) as [client|e|p] eqn:E; [|done..]. apply IH.
  intros sh [Hin| ->%list_elem_of_singleton]%elem_of_app; [auto|done].
Qed.

Lemma NewCluster_wf addresses namespace jwt tls cluster closed :
  NewCluster addresses namespace jwt tls = (Ok cluster, closed) -> cluster_wf addresses cluster.
Proof using.
  unfold NewCluster. destruct (_ =? 0)%nat; [done|]. case_bool_decide; [done|].
  pose proof (open_shards_spec addresses namespace jwt tls [] ∅) as Hs.
  destruct (open_shards addresses namespace jwt tls [] ∅) as [[[s' m']|?|?] c]; [|done..].
  intros [= <- <-]. destruct Hs as (Hs & _ & Hdom & Hm).
  { intros a. rewrite lookup_empty. cbn. split; [by intros []|set_solver]. }
  { intros a sh. by rewrite lookup_empty. }
  cbn in Hs. unfold cluster_wf. cbn [listed listedSlice listedCount unlisted cl_tls].
  rewrite Hs in Hdom. by split_and!.
Qed.

Lemma GetShard_wf addresses address cluster r cluster' :
  cluster_wf addresses cluster -> GetShard address cluster = (r, cluster') ->
  cluster_wf addresses cluster' /\
  (forall shard, r = Ok shard -> sh_address shard = address /\ GetShard address cluster' = (Ok shard, cluster')).
Proof using.
  intros Hwf. assert (Hwf' := Hwf). destruct Hwf as (Hs & Hc & Hdom & Hl & Hu & Htls).
  unfold GetShard at 1. destruct (listed cluster !! address) as [shard|] eqn:El.
  { intros [= <- <-]. split; [done|]. intros sh [= <-]. split; [by apply Hl in El as []|].
    unfold GetShard. by rewrite El. }
  destruct (unlisted cluster !! address) as [shard|] eqn:Eu.
  { intros [= <- <-]. split; [done|]. intros sh [= <-]. split; [by apply Hu in Eu as []|].
    unfold GetShard. by rewrite El, Eu. }
  destruct (NewClient _ _ _ _ _) as [client|e|p]; [|intros [= <- <-]; done..].
  intros [= <- <-]. split.
  - split_and!; try done. cbn [unlisted]. intros a sh Ha. apply lookup_insert_Some in Ha as [[<- <-]|[_ Ha]].
    + split; [done|]. rewrite <- Hdom, El. by intros [].
    + by apply Hu.
  - intros sh [= <-]. split; [done|]. unfold GetShard. cbn [listed unlisted]. by rewrite El, lookup_insert_eq.
Qed.

Lemma filteredSlice_addresses addresses except cluster :
  cluster_wf addresses cluster ->
  map sh_address (filteredSlice except cluster) = filter (fun a => a ∉ except) addresses.
Proof using.
  intros (Hs & Hc & _). unfold filteredSlice. destruct (Nat.eqb_spec (length except) 0) as [E|E].
  - apply length_zero_iff_nil in E as ->.
    rewrite Hc, <- Hs, length_map, firstn_all. clear. induction (listedSlice cluster) as [|sh l IH]; [done|].
    cbn [map]. rewrite filter_cons, decide_True by set_solver. by f_equal.
  - rewrite <- Hs. clear. induction (listedSlice cluster) as [|sh l IH]; [done|]. cbn [map].
    rewrite !filter_cons. unfold Identifier.
    destruct (decide (sh_address sh ∈ except)) as [Hin|Hin].
    + rewrite !decide_False; [done|set_solver|rewrite elem_of_list_to_set; set_solver].
    + rewrite !decide_True; [cbn [map]; by f_equal|set_solver|rewrite elem_of_list_to_set; set_solver].
Qed.

(** A random iterator of a cluster with distinct addresses hands out every
    listed shard outside the exception list exactly once, whatever indices are
    drawn, and is exhausted afterwards. *)
Theorem random_iterator_complete (addresses except : list string) (namespace : string)
    (jwt : option (JWTTokenGetter W)) (tls : bool) (cluster : Cluster W) (closed : list (Shard W))
    (choices : list nat) :
  NewCluster addresses namespace jwt tls = (Ok cluster, closed) -> NoDup addresses ->
  drawable (it_length (GetRandomShardIterator except cluster)) choices ->
  length choices = it_length (GetRandomShardIterator except cluster) ->
  exists l it', drain choices (GetRandomShardIterator except cluster) = Ok (l, it') /\
    map sh_address l ≡ₚ filter (fun a => a ∉ except) addresses /\ NoDup (map sh_address l) /\
    (forall index, Next index it' = Ok (false, it')).
Proof using.
  intros Hnew Hnd Hd Hlen. apply NewCluster_wf in Hnew as Hwf.
  destruct (drain_spec choices (GetRandomShardIterator except cluster)) as (l & it' & Hdr & Hp & H0);
    [done..|].
  exists l, it'. cbn [it_length it_slice GetRandomShardIterator NewRandomShardIterator] in Hp.
  rewrite firstn_all in Hp.
  assert (Hpa : map sh_address l ≡ₚ filter (fun a => a ∉ except) addresses).
  { rewrite <- (filteredSlice_addresses addresses except cluster) by done. by rewrite Hp. }
  split_and!; [done|done| |].
  - rewrite Hpa. by apply NoDup_filter.
  - intros index. unfold Next. by rewrite H0.
Qed.

(** Looking a shard up twice gives the same shard: a successful [GetShard]
    returns a shard with the requested address, every later call for that
    address returns this same shard without dialling, and lookups keep the
    cluster well formed (listed shards are never shadowed). *)
Theorem get_shard_is_stable (addresses : list string) (namespace : string)
    (jwt : option (JWTTokenGetter W)) (tls : bool) (cluster : Cluster W) (closed : list (Shard W))
    (before : list string) (address : string) (shard : Shard W) (cluster2 : Cluster W) :
  NewCluster addresses namespace jwt tls = (Ok cluster, closed) ->
  let cluster1 := foldl (fun c a => (GetShard a c).2) cluster before in
  GetShard address cluster1 = (Ok shard, cluster2) ->
  cluster_wf addresses cluster2 /\ sh_address shard = address /\
  GetShard address cluster2 = (Ok shard, cluster2) /\
  (address ∈ addresses -> cluster2 = cluster1 /\ shard ∈ listedSlice cluster).
Proof using.
  intros Hnew. apply NewCluster_wf in Hnew.
  assert (Hfold : forall l c, cluster_wf addresses c ->
    cluster_wf addresses (foldl (fun c a => (GetShard a c).2) c l) /\
    listedSlice (foldl (fun c a => (GetShard a c).2) c l) = listedSlice c).
  { induction l as [|a l IH]; intros c Hc; [done|]. cbn [foldl].
    destruct (GetShard a c) as [r c'] eqn:E. destruct (GetShard_wf _ _ _ _ _ Hc E) as [Hc' _].
    destruct (IH _ Hc') as [? Hs]. split; [done|]. cbn [snd]. rewrite Hs.
    unfold GetShard in E. repeat case_match; by simplify_eq. }
  destruct (Hfold before cluster Hnew) as [Hwf Hs]. intros cluster1 Hget.
  destruct (GetShard_wf _ _ _ _ _ Hwf Hget) as [Hwf2 Hsh].
  destruct (Hsh shard eq_refl) as [Ha Hagain]. split_and!; try done.
  intros Hin. destruct Hwf as (_ & _ & Hdom & Hl & _). apply Hdom in Hin as [sh Hin].
  unfold GetShard in Hget. unfold cluster1 in Hget. rewrite Hin in Hget. injection Hget as <- <-. split; [done|].
  rewrite <- Hs. by apply Hl in Hin as [].
Qed.

(** The TLS configuration of a cluster does not reach unlisted shards:
    whatever configuration the cluster was created with, an unlisted address
    is dialled without TLS, so a server that only accepts TLS connections
    cannot be reached unless it is listed. *)
Theorem unlisted_shards_ignore_tls (addresses : list string) (namespace : string)
    (jwt : option (JWTTokenGetter W)) (tls : bool) (cluster : Cluster W) (closed : list (Shard W))
    (address : string) (e : error) :
  NewCluster addresses namespace jwt tls = (Ok cluster, closed) ->
  address ∉ addresses -> Dial address false = Err e ->
  exists e', GetShard address cluster = (Err e', cluster).
Proof using.
  intros Hnew Hout Hdial. assert (Hu : unlisted cluster = ∅).
  { unfold NewCluster in Hnew. repeat case_match; by simplify_eq. }
  apply NewCluster_wf in Hnew as (_ & _ & Hdom & _ & _ & Htls).
  unfold GetShard. destruct (listed cluster !! address) eqn:El.
  { exfalso. apply Hout, Hdom. by rewrite El. }
  rewrite Hu, lookup_empty, Htls. unfold NewClient. rewrite Hdial. repeat case_match; by eauto.
Qed.
End Cluster.

(** *** Witnesses *)
Definition null_services : Services unit := {|
  svc_CreateObject _ _ := pfail ErrGRPCDatabase; svc_GetObject _ _ := pfail ErrGRPCDatabase;
  svc_DeleteObject _ _ := pfail ErrGRPCDatabase; svc_GetObjectStatus _ _ := pfail ErrGRPCDatabase;
  svc_GetNamespace _ := pfail ErrGRPCDatabase; svc_ListObjectKeys _ := pfail ErrGRPCDatabase |}.

(** Servers that accept TLS only. *)
Definition tls_only (_ : string) (tls : bool) : outcome (Services unit) :=
  if tls then Ok null_services else Err (ErrNew "tls required").

Lemma random_iterator_complete_witness :
  exists cluster, NewCluster tls_only ["a"; "b"; "c"]%string "ns" None true = (Ok cluster, []) /\
  exists l it', drain [0; 0] (GetRandomShardIterator ["b"]%string cluster) = Ok (l, it') /\
    map sh_address l ≡ₚ ["a"; "c"]%string.
Proof.
  eexists. split; [reflexivity|].
  destruct (random_iterator_complete tls_only ["a"; "b"; "c"]%string ["b"]%string "ns" None true _ [] [0; 0]
    eq_refl) as (l & it' & Hd & Hp & _).
  - repeat constructor; set_solver.
  - vm_compute. lia.
  - reflexivity.
  - exists l, it'. split; [exact Hd|exact Hp].
Defined.

Lemma get_shard_is_stable_witness :
  exists cluster shard, NewCluster tls_only ["a"; "b"]%string "ns" None true = (Ok cluster, []) /\
    GetShard tls_only "b" cluster = (Ok shard, cluster) /\ sh_address shard = "b"%string.
Proof.
  eexists _, _. split; [reflexivity|]. split; [reflexivity|].
  eapply (get_shard_is_stable tls_only ["a"; "b"]%string "ns" None true _ [] [] "b"); reflexivity.
Defined.

Lemma unlisted_shards_ignore_tls_witness :
  exists cluster e', NewCluster tls_only ["a"]%string "ns" None true = (Ok cluster, []) /\
    GetShard tls_only "b" cluster = (Err e', cluster).
Proof.
  destruct (unlisted_shards_ignore_tls tls_only ["a"]%string "ns" None true _ [] "b" (ErrNew "tls required")
    eq_refl) as (e' & He); [set_solver|reflexivity|].
  eexists _, e'. split; [reflexivity|exact He].
Defined.
End GrpcCluster.
