(* ===== verification/Iteration.v ===== *)
(** * Shard iterators ([client/datastor/cluster.go])

    [Lazy] models the iterator that asks the cluster for a shard only when it
    gets there, over the cluster of [Cluster]; [IteratorChannel] the goroutine
    that makes an iterator usable by many readers, as a step relation: the
    goroutine, the buffered channel, its readers and the context. *)

From S2P Require Import Prelude GoStrings Jwt ServerAPI Datastor Cluster.
Import GrpcCluster.
Open Scope nat_scope.

Module Lazy.
Section Lazy.
Context {W : Type} (Dial : string -> bool -> outcome (Services W)).

(** The shards that were not asked for yet are those behind [curIndex]. *)
Record LazyShardIterator := { shards : list string; curShard : option (Shard W); curIndex : Z; maxIndex : Z }.

Definition NewLazyShardIterator (cluster : bool) (shards : list string) : outcome LazyShardIterator :=
  if negb cluster then Panic "no cluster given to get shards from"
  else if length shards =? 0 then Panic "no shards given to iterate on"
  else Ok {| shards := shards; curShard := None; curIndex := -1; maxIndex := Z.of_nat (length shards) - 1 |}.

Definition moved (i : Z) (sh : option (Shard W)) (it : LazyShardIterator) : LazyShardIterator :=
  {| shards := shards it; curShard := sh; curIndex := i; maxIndex := maxIndex it |}.

(** The loop of [Next] for the number of shards that are left; the cluster
    remembers what it dialled. *)
Fixpoint next_loop (left : nat) (it : LazyShardIterator) : prog (Cluster W) (bool * LazyShardIterator) :=
  match left with
  | O => pret (false, it)
  | S left' => fun cluster =>
      let i := (curIndex it + 1)%Z in
      match shards it !! Z.to_nat i with
      | None => (Panic "index out of range", cluster)
      | Some shard =>
          match GetShard Dial shard cluster with
          | (Ok sh, cluster) => (Ok (true, moved i (Some sh) it), cluster)
          | (Err _, cluster) => next_loop left' (moved i None it) cluster
          | (Panic p, cluster) => (Panic p, cluster)
          end
      end
  end.

Definition Next (it : LazyShardIterator) : prog (Cluster W) (bool * LazyShardIterator) :=
  next_loop (Z.to_nat (maxIndex it - curIndex it)) it.

Definition Shard_ (it : LazyShardIterator) : outcome (Shard W) :=
  match curShard it with
  | None => Panic "invalid LazyShardIterator, ensure to make a successful Next() call first"
  | Some sh => Ok sh
  end.

(** The loop [for it.Next() { shard = it.Shard(); ... }]; [calls] bounds the
    calls of [Next]. *)
Fixpoint walk (calls : nat) (it : LazyShardIterator) : prog (Cluster W) (list (Shard W)) :=
  match calls with
  | O => ppanic "still walking"
  | S calls =>
      do! (more, it) := Next it in
      if negb more then pret []
      else do! sh := plift (Shard_ it) in do! l := walk calls it in pret (sh :: l)
  end.

(** An address that the cluster can reach: it is listed, was dialled before, or
    can be dialled. *)
Definition reachable (cluster : Cluster W) (address : string) : bool :=
  match (GetShard Dial address cluster).1 with Ok _ => true | _ => false end.

(** The lookup of one address keeps what can be reached. *)
Lemma GetShard_reachable cluster a a' : reachable (GetShard Dial a cluster).2 a' = reachable cluster a'.
Proof using.
  unfold reachable. destruct (GetShard Dial a cluster) as [r cluster'] eqn:E. cbn [snd]. unfold GetShard in E.
  destruct (listed cluster !! a) as [sh|] eqn:El; [by injection E as _ <-|].
  destruct (unlisted cluster !! a) as [sh|] eqn:Eu; [by injection E as _ <-|].
  destruct (Datastor.NewClient _ _ _ _ _) as [client|e|p] eqn:En; [|by injection E as _ <-..].
  injection E as <- <-. unfold GetShard. cbn [listed unlisted cl_namespace cl_jwtTokenGetter cl_tls].
  destruct (decide (a = a')) as [<-|Hne].
  - by rewrite El, lookup_insert_eq, Eu, En.
  - rewrite lookup_insert_ne by done. destruct (listed cluster !! a'); [done|]. destruct (unlisted cluster !! a'); [done|].
    by destruct (Datastor.NewClient Dial a' _ _ _).
Qed.

(** A cluster made for [addresses]; neither dialling nor the labels of the token
    getter panic. *)
Context (addresses : list string).

Definition calm (cluster : Cluster W) : Prop :=
  cluster_wf addresses cluster /\
  (forall a tls p, Dial a tls <> Panic p) /\
  forall g, cl_jwtTokenGetter cluster = Some g -> forall ns p, GetLabel g ns <> Panic p.

Lemma GetShard_calm cluster a r cluster' :
  calm cluster -> GetShard Dial a cluster = (r, cluster') -> calm cluster' /\ forall p, r <> Panic p.
Proof using.
  intros (Hwf & Hd & Hg) E. assert (Hwf' : cluster_wf addresses cluster') by (by eapply GetShard_wf). revert E.
  unfold GetShard. destruct (listed cluster !! a); [by intros [= <- <-]|]. destruct (unlisted cluster !! a); [by intros [= <- <-]|].
  destruct (Datastor.NewClient _ _ _ _ _) as [client|e|p] eqn:En; [by intros [= <- <-]..|].
  exfalso. unfold Datastor.NewClient in En. destruct (_ =? 0); [done|]. destruct (_ =? 0); [done|].
  destruct (Dial a _) as [conn|e|q] eqn:Ed; [|done|by apply Hd in Ed].
  destruct (cl_jwtTokenGetter cluster) as [g|]; [|done]. destruct (GetLabel g _) as [lbl|e|q] eqn:Eg; [done|done|].
  by eapply Hg.
Qed.

(** The addresses behind the current one. *)
Definition todo (it : LazyShardIterator) : list string := drop (Z.to_nat (curIndex it + 1)) (shards it).

Record lazy_ok (it : LazyShardIterator) : Prop := {
  lz_index : (-1 <= curIndex it)%Z;
  lz_max : maxIndex it = (Z.of_nat (length (shards it)) - 1)%Z;
}.

Lemma todo_step it a rest : lazy_ok it -> todo it = a :: rest -> forall sh,
  let it' := moved (curIndex it + 1) sh it in
  shards it !! Z.to_nat (curIndex it + 1) = Some a /\ todo it' = rest /\ lazy_ok it' /\ curShard it' = sh.
Proof using.
  intros [Hi Hm] Ht sh. unfold todo in *. cbn [moved curIndex shards curShard]. apply (f_equal head) in Ht as Hh.
  assert (Hlk : shards it !! Z.to_nat (curIndex it + 1) = Some a).
  { pose proof (lookup_drop (shards it) (Z.to_nat (curIndex it + 1)) 0) as Hl. rewrite Ht, Nat.add_0_r in Hl. by rewrite <- Hl. }
  split_and!; [done| |split; cbn; lia|done].
  replace (Z.to_nat (curIndex it + 1 + 1)) with (S (Z.to_nat (curIndex it + 1))) by lia.
  apply (drop_S _ _ _) in Hlk. rewrite Ht in Hlk. by injection Hlk.
Qed.

(** The loop moves to the first address that can be reached. *)
Lemma next_loop_spec it cluster :
  calm cluster -> lazy_ok it ->
  exists more it' cluster', next_loop (length (todo it)) it cluster = (Ok (more, it'), cluster') /\ calm cluster' /\ lazy_ok it' /\
    (forall a, reachable cluster' a = reachable cluster a) /\
    match List.filter (reachable cluster) (todo it) with
    | [] => more = false
    | a :: rest => more = true /\ List.filter (reachable cluster) (todo it') = rest /\ length (todo it') < length (todo it) /\
        exists sh, curShard it' = Some sh /\ GetShard Dial a cluster' = (Ok sh, cluster')
    end.
Proof using.
  remember (todo it) as l eqn:Hl. revert it cluster Hl; induction l as [|a l IH]; intros it cluster Hl Hc Hit; cbn [length next_loop List.filter].
  { by exists false, it, cluster. }
  destruct (GetShard Dial a cluster) as [r c1] eqn:Eg. destruct (GetShard_calm _ _ _ _ Hc Eg) as [Hc1 Hr].
  assert (Hreach : forall a', reachable c1 a' = reachable cluster a').
  { intros a'. pose proof (GetShard_reachable cluster a a') as Hx. by rewrite Eg in Hx. }
  assert (Hra : reachable cluster a = match r with Ok _ => true | _ => false end) by (unfold reachable; by rewrite Eg).
  destruct (todo_step it a l Hit (eq_sym Hl) (match r with Ok sh => Some sh | _ => None end)) as (-> & Ht & Hok & Hcur). cbv zeta in *.
  rewrite Eg. destruct r as [sh|e|p]; rewrite Hra; [| |by destruct (Hr p)].
  - eexists true, _, c1. split_and!; try done. { by rewrite Ht. } { rewrite Ht. lia. }
    exists sh. split; [done|]. unfold GetShard in Eg |- *. repeat case_match; simplify_eq/=; try congruence.
    all: rewrite lookup_insert_eq in *; congruence.
  - destruct (IH _ c1 (eq_sym Ht) Hc1 Hok) as (more & it' & c2 & Hn & Hc2 & Hok2 & Hre & Hres). exists more, it', c2.
    split_and!; try done. { intros a'. by rewrite Hre, Hreach. }
    rewrite (List.filter_ext (reachable c1) (reachable cluster) Hreach) in Hres.
    destruct (List.filter (reachable cluster) l) as [|b rest]; [done|]. destruct Hres as (-> & Hf & Hlt & sh & Hsh & Hg).
    rewrite (List.filter_ext (reachable c1) (reachable cluster) Hreach) in Hf. split_and!; [done|done|lia|by exists sh].
Qed.

(** C26. The lazy iterator: over a cluster that was made for some addresses, a loop over the iterator for a
    list of shard addresses ends and hands out, in the order of the list, exactly one shard with each
    address that the cluster can reach, be it listed or not; unreachable ones
    are skipped, and the cluster can reach the same addresses afterwards. *)
Theorem lazy_iterator_complete (addrs : list string) (it : LazyShardIterator) (cluster : Cluster W) :
  NewLazyShardIterator true addrs = Ok it -> calm cluster ->
  exists l cluster', walk (S (length addrs)) it cluster = (Ok l, cluster') /\
    map sh_address l = List.filter (reachable cluster) addrs /\ calm cluster' /\
    forall a, reachable cluster' a = reachable cluster a.
Proof using.
  intros Hnew Hc. unfold NewLazyShardIterator in Hnew. cbn [negb] in Hnew. destruct (length addrs =? 0); [done|]. injection Hnew as <-.
  set (it := {| shards := addrs; curShard := None; curIndex := -1; maxIndex := _ |}).
  assert (Hit : lazy_ok it) by (split; cbn; lia). change addrs with (todo it).
  generalize (Nat.lt_succ_diag_r (length (todo it))). generalize (S (length (todo it))) as calls. clearbody it. clear addrs.
  intros calls. revert it cluster Hc Hit; induction calls as [|calls IH]; intros it cluster Hc Hit Hlen; [lia|]. cbn [walk].
  destruct (next_loop_spec it cluster Hc Hit) as (more & it1 & c1 & Hn & Hc1 & Hit1 & Hre & Hres).
  assert (HN : Next it = next_loop (length (todo it)) it).
  { unfold Next. f_equal. unfold todo. rewrite length_drop, (lz_max _ Hit). pose proof (lz_index _ Hit). lia. }
  rewrite (pbind_Ok _ _ _ _ _ (eq_trans (f_equal (fun f => f cluster) HN) Hn)).
  destruct (List.filter (reachable cluster) (todo it)) as [|a rest]; [subst more; by exists [], c1|].
  destruct Hres as (-> & Hf & Hlt & sh & Hsh & Hg). cbn [negb]. unfold pbind, plift, Shard_. rewrite Hsh.
  destruct (IH it1 c1 Hc1 Hit1) as (l & c2 & -> & Hl & Hc2 & Hre2); [lia|]. exists (sh :: l), c2.
  split_and!; [done| |done|intros a'; by rewrite Hre2, Hre].
  rewrite (List.filter_ext (reachable c1) (reachable cluster) Hre), Hf in Hl. cbn [map]. rewrite Hl. f_equal.
  by apply (GetShard_wf _ _ _ _ _ _ (proj1 Hc1) Hg).
Qed.
End Lazy.
End Lazy.

(** Servers that can be dialled, but for one. *)
Definition all_but_c (a : string) (_ : bool) : outcome (Services unit) :=
  if bool_decide (a = "c"%string) then Err (ErrNew "refused") else Ok null_services.

Definition two_listed : Cluster unit :=
  match (NewCluster all_but_c ["a"; "b"]%string "ns" None false).1 with Ok c => c | _ =>
    {| listed := ∅; listedSlice := []; listedCount := 0; unlisted := ∅; cl_namespace := ""; cl_jwtTokenGetter := None; cl_tls := false |}
  end.

Lemma two_listed_calm : Lazy.calm all_but_c ["a"; "b"]%string two_listed.
Proof.
  split; [by apply (NewCluster_wf all_but_c ["a"; "b"]%string "ns" None false _ [])|]. split; [|done].
  intros a tls p. unfold all_but_c. by case_bool_decide.
Qed.

Lemma lazy_iterator_complete_witness :
  exists it l cluster', Lazy.NewLazyShardIterator true ["b"; "c"; "d"]%string = Ok it /\
    Lazy.walk all_but_c 4 it two_listed = (Ok l, cluster') /\ map sh_address l = ["b"; "d"]%string.
Proof.
  eexists _. destruct (Lazy.lazy_iterator_complete all_but_c ["a"; "b"]%string ["b"; "c"; "d"]%string _ two_listed eq_refl two_listed_calm)
    as (l & c' & Hw & Hm & _).
  exists l, c'. split; [reflexivity|]. split; [exact Hw|]. rewrite Hm. reflexivity.
Defined.

(** ** The channel of an iterator *)
Module IteratorChannel.
Section Channel.
Context {A : Type}.

(** [ShardIteratorChannel]: the capacity that is used. *)
Definition channel_capacity (ctx iterator : bool) (bufferSize : Z) : outcome nat :=
  if negb ctx then Panic "no context given"
  else if negb iterator then Panic "no shard iterator given"
  else Ok (if (bufferSize <? 1)%Z then 1 else Z.to_nat bufferSize).

(** What the iterator has not handed out yet, the shard that the goroutine wants
    to send, the channel, and what its readers have received. *)
Record state := { rest : list A; held : option A; buffer : list A; closed : bool; cancelled : bool; received : list A }.

Definition start (l : list A) : state :=
  {| rest := l; held := None; buffer := []; closed := false; cancelled := false; received := [] |}.

Inductive step (cap : nat) : state -> state -> Prop :=
  | step_next x l b c r :
      step cap {| rest := x :: l; held := None; buffer := b; closed := false; cancelled := c; received := r |}
               {| rest := l; held := Some x; buffer := b; closed := false; cancelled := c; received := r |}
  | step_end b c r :
      step cap {| rest := []; held := None; buffer := b; closed := false; cancelled := c; received := r |}
               {| rest := []; held := None; buffer := b; closed := true; cancelled := c; received := r |}
  | step_send x l b c r : length b < cap ->
      step cap {| rest := l; held := Some x; buffer := b; closed := false; cancelled := c; received := r |}
               {| rest := l; held := None; buffer := b ++ [x]; closed := false; cancelled := c; received := r |}
  | step_done x l b r :
      step cap {| rest := l; held := Some x; buffer := b; closed := false; cancelled := true; received := r |}
               {| rest := l; held := None; buffer := b; closed := true; cancelled := true; received := r |}
  | step_receive x l h b d c r :
      step cap {| rest := l; held := h; buffer := x :: b; closed := d; cancelled := c; received := r |}
               {| rest := l; held := h; buffer := b; closed := d; cancelled := c; received := r ++ [x] |}
  | step_cancel l h b d c r :
      step cap {| rest := l; held := h; buffer := b; closed := d; cancelled := c; received := r |}
               {| rest := l; held := h; buffer := b; closed := d; cancelled := true; received := r |}.

(** The order of the iterator is kept, and nothing is lost before the end. *)
Record channel_ok (cap : nat) (l : list A) (s : state) : Prop := {
  ch_order : received s ++ buffer s `prefix_of` l;
  ch_open : closed s = false -> received s ++ buffer s ++ option_list (held s) ++ rest s = l;
  ch_closed : closed s = true -> held s = None /\ (cancelled s = false -> received s ++ buffer s = l);
  ch_bound : length (buffer s) <= cap;
}.

Lemma step_ok cap l s s' : step cap s s' -> channel_ok cap l s -> channel_ok cap l s'.
Proof using.
  intros Hst [Ho Hop Hcl Hb].
  destruct Hst; cbn [rest held buffer closed cancelled received option_list] in *; split; cbn [rest held buffer closed cancelled received option_list];
    try done; try (intros; specialize (Hop eq_refl); by rewrite <- ?app_assoc in * ).
  - intros _. split; [done|]. intros _. rewrite <- (Hop eq_refl). by rewrite !app_nil_r.
  - exists l0. rewrite <- (Hop eq_refl). by rewrite <- !app_assoc.
  - rewrite length_app. cbn. lia.
  - by rewrite <- app_assoc.
  - intros Hd. rewrite <- (Hop Hd). by rewrite <- !app_assoc.
  - intros Hd. destruct (Hcl Hd) as [-> Hx]. split; [done|]. intros Hc. rewrite <- (Hx Hc). by rewrite <- app_assoc.
  - cbn in Hb. lia.
  - intros Hd. destruct (Hcl Hd) as [-> _]. by split.
Qed.

(** C27. The channel of an iterator: whatever the scheduling of the goroutine, of the
    readers and of the cancellation, the readers receive the shards of the
    iterator in its order, each at most once, and never more than the buffer
    size wait in the channel; if the context is not cancelled, a channel that
    is closed and empty has delivered them all.  A reader that waits is never
    stuck: as long as the channel is empty and open, the goroutine can go on. *)
Theorem channel_delivers (ctx iterator : bool) (bufferSize : Z) (cap : nat) (l : list A) (s : state) :
  channel_capacity ctx iterator bufferSize = Ok cap -> NoDup l -> rtc (step cap) (start l) s ->
  received s `prefix_of` l /\ NoDup (received s) /\ length (buffer s) <= Z.to_nat (Z.max 1 bufferSize) /\
  (closed s = true -> cancelled s = false -> buffer s = [] -> received s = l) /\
  (closed s = false -> buffer s = [] -> exists s', step cap s s' /\ received s' = received s /\ cancelled s' = cancelled s).
Proof using.
  intros Hcap Hnd Hsteps.
  assert (Hc : 0 < cap /\ cap = Z.to_nat (Z.max 1 bufferSize)).
  { unfold channel_capacity in Hcap. destruct ctx, iterator; try done. cbn [negb] in Hcap. injection Hcap as <-.
    destruct (Z.ltb_spec bufferSize 1); lia. }
  assert (Hok : channel_ok cap l s).
  { assert (H0 : channel_ok cap l (start l)) by (split; cbn; [apply prefix_nil|done|done|lia]). revert H0.
    clear -Hsteps. induction Hsteps as [|s1 s2 s3 Hst _ IH]; [done|]. intros H0. by apply IH, (step_ok _ _ s1). }
  destruct Hok as [Ho Hop Hcl Hb]. assert (Hp : received s `prefix_of` l) by (etrans; [apply prefix_app_r; reflexivity|exact Ho]).
  split_and!; [done| |lia| |].
  - destruct Hp as [k ->]. by apply NoDup_app in Hnd as [? _].
  - intros Hd Hn Hbuf. destruct (Hcl Hd) as [_ Hx]. specialize (Hx Hn). by rewrite Hbuf, app_nil_r in Hx.
  - intros Hd Hbuf. destruct s as [rs h b d c r]. cbn in *. subst b d.
    destruct h as [x|]; [eexists; split; [by apply step_send; cbn; lia|done]|].
    destruct rs as [|x rs]; eexists; (split; [constructor|done]).
Qed.
End Channel.
Arguments state : clear implicits.
End IteratorChannel.

(** One shard is received, the second waits in the channel. *)
Lemma channel_delivers_witness : [1] `prefix_of` [1; 2] /\ length [2] <= 1.
Proof.
  set (s := {| IteratorChannel.rest := []; IteratorChannel.held := None; IteratorChannel.buffer := [2];
               IteratorChannel.closed := true; IteratorChannel.cancelled := false; IteratorChannel.received := [1] |}).
  destruct (IteratorChannel.channel_delivers true true 0 1 [1; 2] s) as (Hp & _ & Hb & _).
  - reflexivity.
  - repeat constructor; set_solver.
  - unfold IteratorChannel.start. do 6 (eapply rtc_l; [constructor; cbn; lia || constructor|]). cbn. apply rtc_refl.
  - split; [exact Hp|exact Hb].
Defined.
