(* ===== verification/Spread.v ===== *)
(** * Shards as the chunk storages use them, and the parallel write

    [ShardOps] is the interface that the chunk storages call ([datastor.Cluster]
    and [datastor.Shard]) and [ShardLaws] states what they rely on.  [Spread]
    is the machine of worker goroutines with which both the replicated and the
    distributed storage write: jobs and shards arrive on channels, every worker
    takes a job, tries shards until one accepts the data, and sends the written
    object to the collector. *)

From S2P Require Import Prelude Encoding.
Open Scope nat_scope.

(** ** Data of [metatypes] and [storage.go] *)
Record MetaObject := { mo_Key : bytes; mo_ShardID : string }.

Record ChunkConfig := { cfg_Size : Z; cfg_Objects : list MetaObject }.

Inductive CheckStatus := CheckStatusInvalid | CheckStatusValid | CheckStatusOptimal.

#[export] Instance MetaObject_eq_dec : EqDecision MetaObject.
Proof. solve_decision. Defined.

#[export] Instance CheckStatus_eq_dec : EqDecision CheckStatus.
Proof. solve_decision. Defined.

Definition CheckStatus_String (status : CheckStatus) : string :=
  match status with
  | CheckStatusInvalid => "invalid"
  | CheckStatusValid => "valid"
  | CheckStatusOptimal => "optimal"
  end.

Definition ErrUnexpectedObjectCount := ErrVar "storage" "ErrUnexpectedObjectCount" "unexpected object count".
Definition ErrShardsUnavailable := ErrVar "storage" "ErrShardsUnavailable" "(too many?) shards are unavailable".
Definition ErrNotSupported := ErrVar "storage" "ErrNotSupported" "method is not supported".
Definition ErrInvalidDataSize := ErrVar "storage" "ErrInvalidDataSize" "returned object has invalid data size".

(** ** The shard interface

    Calls name the shard by its identifier; [GetShard] is the lookup in the
    cluster, which can fail by itself. *)
Class ShardOps (W : Type) := {
  GetShard : string -> prog W unit;
  CreateObject : string -> bytes -> prog W bytes;
  GetObject : string -> bytes -> prog W bytes;
  DeleteObject : string -> bytes -> prog W unit;
  GetObjectStatus : string -> bytes -> prog W ObjectStatus;
}.

(** [holds w sh k] is the object that shard [sh] stores under [k], [up w sh]
    says that calls to the shard reach it, [good] is the implementation's
    invariant.  Any call may fail, also a write that did happen; calls to a
    shard that is up do what they say. *)
Class ShardLaws (W : Type) `{ShardOps W} := {
  good : W -> Prop;
  holds : W -> string -> bytes -> option bytes;
  up : W -> string -> Prop;
  create_law sh d w r w' : CreateObject sh d w = (r, w') -> good w ->
    good w' /\ no_panic r /\ (forall sh', up w' sh' <-> up w sh') /\
    (forall sh' k' x, holds w sh' k' = Some x -> (sh' <> sh \/ forall k, r <> Ok k) -> holds w' sh' k' = Some x) /\
    (forall k, r = Ok k -> k <> [] /\ holds w' sh k = Some d) /\
    (up w sh -> d <> [] -> exists k, r = Ok k);
  get_law sh k w r w' : GetObject sh k w = (r, w') -> good w -> k <> [] ->
    good w' /\ no_panic r /\ (forall sh', up w' sh' <-> up w sh') /\
    (forall sh' k', holds w' sh' k' = holds w sh' k') /\
    (forall d, r = Ok d -> holds w sh k = Some d) /\
    (forall d, up w sh -> holds w sh k = Some d -> r = Ok d);
  status_law sh k w r w' : GetObjectStatus sh k w = (r, w') -> good w -> k <> [] ->
    good w' /\ no_panic r /\ (forall sh', up w' sh' <-> up w sh') /\
    (forall sh' k', holds w' sh' k' = holds w sh' k') /\
    (r = Ok ObjectStatusOK -> exists d, holds w sh k = Some d) /\
    (forall d, up w sh -> holds w sh k = Some d -> r = Ok ObjectStatusOK);
  delete_law sh k w r w' : DeleteObject sh k w = (r, w') -> good w -> k <> [] ->
    good w' /\ no_panic r /\ (forall sh', up w' sh' <-> up w sh') /\
    (forall sh' k', (sh', k') <> (sh, k) -> holds w' sh' k' = holds w sh' k') /\
    (r = Ok tt -> holds w' sh k = None) /\ (up w sh -> r = Ok tt);
  shard_law sh w r w' : GetShard sh w = (r, w') -> good w ->
    good w' /\ no_panic r /\ (forall sh', up w' sh' <-> up w sh') /\
    (forall sh' k', holds w' sh' k' = holds w sh' k') /\ (up w sh -> r = Ok tt);
}.

Module Spread.

(** A part to write and the slot of the configuration it is for. *)
Record job := { job_index : nat; job_data : bytes }.

(** Where a worker goroutine is: waiting for a job, fetching a shard for it,
    calling [CreateObject], sending the object to the collector, or returned
    with its error. *)
Inductive worker :=
  | Waiting
  | Fetching (j : job)
  | Writing (j : job) (shard : string)
  | Sending (j : job) (obj : MetaObject)
  | Returned (err : option error).

(** [queue] and [shards] are what the two channels still deliver, [cancelled]
    is the state of the errgroup's context, [results] is what the collector has
    received (with the whole job, of which only the index is sent). *)
Record state (W : Type) := {
  queue : list job;
  shards : list string;
  workers : list worker;
  cancelled : bool;
  results : list (job * MetaObject);
  world : W;
}.
Arguments queue {W}.
Arguments shards {W}.
Arguments workers {W}.
Arguments cancelled {W}.
Arguments results {W}.
Arguments world {W}.

(** What the scheduler does next: worker [i] receives on the job channel,
    receives on the shard channel, finishes its [CreateObject], has its object
    received, or notices that the context is cancelled. *)
Inductive event := EvJob (i : nat) | EvShard (i : nat) | EvCreate (i : nat) | EvSend (i : nat) | EvDone (i : nat).

Definition ErrContextCancelled := ErrNew "context was unexpectedly cancelled".

Section Machine.
Context `{ShardOps W}.

Definition move (s : state W) (i : nat) (x : worker) : state W :=
  {| queue := queue s; shards := shards s; workers := <[i := x]> (workers s);
     cancelled := cancelled s; results := results s; world := world s |}.

Definition exec (ev : event) (s : state W) : option (state W) :=
  match ev with
  | EvJob i =>
      match workers s !! i, queue s with
      | Some Waiting, j :: q =>
          Some {| queue := q; shards := shards s; workers := <[i := Fetching j]> (workers s);
                  cancelled := cancelled s; results := results s; world := world s |}
      | Some Waiting, [] => Some (move s i (Returned None))
      | _, _ => None
      end
  | EvShard i =>
      match workers s !! i, shards s with
      | Some (Fetching j), sh :: rest =>
          Some {| queue := queue s; shards := rest; workers := <[i := Writing j sh]> (workers s);
                  cancelled := cancelled s; results := results s; world := world s |}
      | Some (Fetching j), [] =>
          Some {| queue := queue s; shards := []; workers := <[i := Returned (Some ErrShardsUnavailable)]> (workers s);
                  cancelled := true; results := results s; world := world s |}
      | _, _ => None
      end
  | EvCreate i =>
      match workers s !! i with
      | Some (Writing j sh) =>
          match CreateObject sh (job_data j) (world s) with
          | (Ok key, w') =>
              Some {| queue := queue s; shards := shards s;
                      workers := <[i := Sending j {| mo_Key := key; mo_ShardID := sh |}]> (workers s);
                      cancelled := cancelled s; results := results s; world := w' |}
          | (Err _, w') =>
              Some {| queue := queue s; shards := shards s; workers := <[i := Fetching j]> (workers s);
                      cancelled := cancelled s; results := results s; world := w' |}
          | (Panic _, _) => None
          end
      | _ => None
      end
  | EvSend i =>
      match workers s !! i with
      | Some (Sending j obj) =>
          Some {| queue := queue s; shards := shards s; workers := <[i := Waiting]> (workers s);
                  cancelled := cancelled s; results := results s ++ [(j, obj)]; world := world s |}
      | _ => None
      end
  | EvDone i =>
      if negb (cancelled s) then None
      else match workers s !! i with
           | Some Waiting => Some (move s i (Returned None))
           | Some (Fetching _) | Some (Sending _ _) => Some (move s i (Returned (Some ErrContextCancelled)))
           | _ => None
           end
  end.

Fixpoint run (evs : list event) (s : state W) : option (state W) :=
  match evs with
  | [] => Some s
  | ev :: evs' => s' ← exec ev s; run evs' s'
  end.

Definition init (jobCount : nat) (jobs : list job) (order : list string) (w : W) : state W :=
  {| queue := jobs; shards := order; workers := replicate jobCount Waiting; cancelled := false;
     results := []; world := w |}.

Definition returned (x : worker) : bool := match x with Returned _ => true | _ => false end.

(** All workers returned: the result channel is closed and drained. *)
Definition finished (s : state W) : bool := forallb returned (workers s).

(** ** Termination: every event uses up some of this. *)
Definition rank (x : worker) : nat :=
  match x with Returned _ => 0 | Waiting => 1 | Sending _ _ => 2 | Fetching _ => 3 | Writing _ _ => 4 end.

Definition measure (s : state W) : nat :=
  list_sum (rank <$> workers s) + 3 * length (queue s) + 2 * length (shards s).

Lemma list_sum_perm (l k : list nat) : l ≡ₚ k -> list_sum l = list_sum k.
Proof using. unfold list_sum. induction 1; cbn; lia. Qed.

Lemma exec_measure ev s s' : exec ev s = Some s' -> measure s' < measure s.
Proof using.
  unfold measure. intros He.
  assert (Hupd : forall i x y, workers s !! i = Some x ->
    list_sum (rank <$> <[i := y]> (workers s)) + rank x = list_sum (rank <$> workers s) + rank y).
  { intros i x y Hi. destruct (update_perm _ _ _ Hi) as (rest & H1 & H2).
    rewrite (list_sum_perm _ _ (fmap_Permutation rank _ _ H1)).
    rewrite (list_sum_perm _ _ (fmap_Permutation rank _ _ (H2 y))). cbn. lia. }
  destruct ev as [i|i|i|i|i]; cbn [exec] in He.
  all: destruct (workers s !! i) as [[]|] eqn:Hi; try discriminate; try (by destruct (cancelled s)).
  all: pose proof (fun y => Hupd i _ y Hi) as Hu; cbn [rank] in Hu.
  all: repeat case_match; simplify_eq/=.
  all: try match goal with Hq : queue ?x = [] |- _ => rewrite Hq; cbn [length] end.
  all: match goal with |- context [<[_ := ?y]> (workers _)] => specialize (Hu y); cbn [rank length] in Hu; lia end.
Qed.

Lemma run_length evs s s' : run evs s = Some s' -> length evs + measure s' <= measure s.
Proof using.
  revert s; induction evs as [|ev evs IH]; intros s; cbn; [intros [= <-]; lia|].
  destruct (exec ev s) as [s1|] eqn:E; [|done]. cbn. intros Hr%IH. apply exec_measure in E. lia.
Qed.
End Machine.

(** ** Safety *)

(** The job a worker has taken, the shard it uses, the object it is sending. *)
Definition held (x : worker) : list job :=
  match x with Fetching j | Writing j _ | Sending j _ => [j] | _ => [] end.

Definition used (x : worker) : list string :=
  match x with Writing _ sh => [sh] | Sending _ obj => [mo_ShardID obj] | _ => [] end.

Definition sent (x : worker) : list (job * MetaObject) :=
  match x with Sending j obj => [(j, obj)] | _ => [] end.

Definition shard_of (r : job * MetaObject) : string := mo_ShardID r.2.

Section Safety.
Context `{ShardLaws W}.

(** The object of a result is stored where the configuration says. *)
Definition stored (w : W) (r : job * MetaObject) : Prop :=
  mo_Key r.2 <> [] /\ holds w (mo_ShardID r.2) (mo_Key r.2) = Some (job_data r.1).

Record inv (order : list string) (jobs : list job) (s : state W) : Prop := {
  inv_good : good (world s);
  inv_shards : (shard_of <$> results s) ++ List.flat_map used (workers s) ++ shards s ⊆+ order;
  inv_jobs : (fst <$> results s) ++ List.flat_map held (workers s) ++ queue s ⊆+ jobs;
  inv_stored : Forall (stored (world s)) (results s ++ List.flat_map sent (workers s));
}.

Lemma flat_map_replicate {A B} (f : A -> list B) n x : f x = [] -> List.flat_map f (replicate n x) = [].
Proof using. intros Hf. induction n as [|n IH]; [done|]. cbn. by rewrite Hf. Qed.

Lemma inv_init jobCount jobs order w : good w -> inv order jobs (init jobCount jobs order w).
Proof using.
  intros Hg. split; cbn [init world results workers shards queue]; rewrite ?flat_map_replicate by done; done.
Qed.

(** A create on a shard that no result uses leaves the results stored. *)
Lemma stored_create sh d w r w' l :
  good w -> CreateObject sh d w = (r, w') -> sh ∉ (shard_of <$> l) ->
  Forall (stored w) l -> Forall (stored w') l.
Proof using.
  intros Hg Hc Hsh. rewrite !Forall_forall. intros Hl x Hx. destruct (Hl x Hx) as [Hk Hh].
  destruct (create_law _ _ _ _ _ Hc Hg) as (_ & _ & _ & Hkeep & _). split; [done|].
  apply Hkeep; [done|]. left. intros E. apply Hsh. apply list_elem_of_fmap. by exists x.
Qed.

Lemma used_sent ws : shard_of <$> List.flat_map sent ws ⊆+ List.flat_map used ws.
Proof using.
  induction ws as [|x ws IH]; [done|]. cbn. rewrite fmap_app.
  apply submseteq_app; [by destruct x; try apply submseteq_nil_l|done].
Qed.

Ltac use_worker Hi :=
  let rest := fresh "rest" in let H1 := fresh "Hold" in let H2 := fresh "Hnew" in
  destruct (update_perm _ _ _ Hi) as (rest & H1 & H2).

Lemma inv_exec order jobs ev s s' :
  NoDup order -> inv order jobs s -> exec ev s = Some s' -> inv order jobs s'.
Proof using.
  intros Hnd [Hg Hsh Hj Hst] He.
  destruct ev as [i|i|i|i|i]; cbn [exec] in He.
  all: destruct (workers s !! i) as [x|] eqn:Hi; try (by destruct (cancelled s)); try done.
  all: use_worker Hi; rewrite Hold in Hsh, Hj, Hst; cbn [List.flat_map] in Hsh, Hj, Hst.
  - destruct x; try done. destruct (queue s) as [|j q] eqn:Hq; injection He as <-.
    + split; cbn [move world results workers shards queue]; rewrite ?Hq, ?Hnew; done.
    + split; cbn [world results workers shards queue]; rewrite ?Hnew; cbn [List.flat_map held used sent]; try done.
      etrans; [|exact Hj]. cbn [held]. solve_submseteq.
  - destruct x as [|j| | |]; try done. destruct (shards s) as [|sh rest'] eqn:Hs; injection He as <-.
    + split; cbn [world results workers shards queue]; rewrite ?Hnew; cbn [List.flat_map held used sent]; try done.
      etrans; [|exact Hj]. cbn [held]. solve_submseteq.
    + split; cbn [world results workers shards queue]; rewrite ?Hnew; cbn [List.flat_map held used sent]; try done.
      etrans; [|exact Hsh]. cbn [used]. solve_submseteq.
  - destruct x as [| |j sh| |]; try done.
    destruct (CreateObject sh (job_data j) (world s)) as [r w'] eqn:Hc.
    destruct (create_law _ _ _ _ _ Hc Hg) as (Hg' & _ & _ & _ & Hok & _).
    assert (Hst' : Forall (stored w') (results s ++ List.flat_map sent rest)).
    { apply (stored_create _ _ _ _ _ _ Hg Hc); [|exact Hst].
      cbn [used] in Hsh. rewrite fmap_app. intros Hin.
      assert (Hsub : sh :: (shard_of <$> results s) ++ (shard_of <$> List.flat_map sent rest) ⊆+ order).
      { etrans; [|exact Hsh]. pose proof (used_sent rest) as Hu.
        etrans; [apply submseteq_skip, submseteq_app; [reflexivity|exact Hu]|]. solve_submseteq. }
      apply submseteq_keeps_NoDup in Hsub; [|done].
      by apply NoDup_cons in Hsub as [? _]. }
    destruct r as [key|e|p]; [| |done]; injection He as <-.
    + destruct (Hok key eq_refl) as [Hk Hh].
      split; cbn [world results workers shards queue]; rewrite ?Hnew;
        cbn [List.flat_map held used sent mo_ShardID app]; try done.
      rewrite <- Permutation_middle. constructor; [done|exact Hst'].
    + split; cbn [world results workers shards queue]; rewrite ?Hnew; cbn [List.flat_map held used sent]; try done.
      etrans; [|exact Hsh]. cbn [used]. solve_submseteq.
  - destruct x as [| | |j obj|]; try done. injection He as <-.
    split; cbn [world results workers shards queue]; rewrite ?Hnew; cbn [List.flat_map held used sent]; try done.
    + etrans; [|exact Hsh]. rewrite fmap_app. cbn. solve_submseteq.
    + etrans; [|exact Hj]. rewrite fmap_app. cbn. solve_submseteq.
    + rewrite <- app_assoc. exact Hst.
  - destruct (cancelled s); [|done]. cbn [negb] in He.
    destruct x as [|j| |j obj|]; try done; injection He as <-;
      (split; cbn [move world results workers shards queue]; rewrite ?Hnew; cbn [List.flat_map held used sent]; try done).
    + etrans; [|exact Hj]. cbn [held]. solve_submseteq.
    + etrans; [|exact Hsh]. cbn [used]. solve_submseteq.
    + etrans; [|exact Hj]. cbn [held]. solve_submseteq.
    + cbn [sent] in Hst. rewrite Forall_app in Hst |- *. destruct Hst as [? Hst]. split; [done|].
      by apply Forall_cons in Hst as [].
Qed.

Lemma inv_run order jobs evs s s' :
  NoDup order -> inv order jobs s -> run evs s = Some s' -> inv order jobs s'.
Proof using.
  intros Hnd. revert s; induction evs as [|ev evs IH]; intros s Hi; cbn; [by intros [= <-]|].
  destruct (exec ev s) as [s1|] eqn:E; [|done]. cbn. intros Hr. eapply IH; [|done]. by eapply inv_exec.
Qed.

(** Nothing is lost on shards that the iterator does not hand out. *)
Lemma kept_exec order jobs ev s s' sh k x :
  inv order jobs s -> exec ev s = Some s' -> sh ∉ order ->
  holds (world s) sh k = Some x -> holds (world s') sh k = Some x.
Proof using.
  intros [Hg Hsh _ _] He Hout Hh.
  destruct ev as [i|i|i|i|i]; cbn [exec] in He; try (by repeat case_match; simplify_eq).
  destruct (workers s !! i) as [[| |j sh'| |]|] eqn:Hi; try done.
  assert (Hin : sh' ∈ order).
  { eapply elem_of_submseteq; [|exact Hsh]. apply elem_of_app; right. apply elem_of_app; left.
    use_worker Hi. rewrite Hold. cbn. set_solver. }
  destruct (CreateObject sh' (job_data j) (world s)) as [r w'] eqn:Hc.
  destruct (create_law _ _ _ _ _ Hc Hg) as (_ & _ & _ & Hkeep & _).
  destruct r; simplify_eq; cbn [world]; apply Hkeep; try done; left; set_solver.
Qed.

Lemma kept_run order jobs evs s s' sh k x :
  NoDup order -> inv order jobs s -> run evs s = Some s' -> sh ∉ order ->
  holds (world s) sh k = Some x -> holds (world s') sh k = Some x.
Proof using.
  intros Hnd Hi Hr Hout. revert s Hi Hr; induction evs as [|ev evs IH]; intros s Hi; cbn; [by intros [= <-]|].
  destruct (exec ev s) as [s1|] eqn:E; [|done]. cbn. intros Hr Hh. apply (IH s1); [by eapply inv_exec|done|].
  by eapply kept_exec.
Qed.

(** While a worker is running, some event is possible. *)
Lemma progress order jobs s :
  inv order jobs s -> finished s = false -> exists ev s', exec ev s = Some s'.
Proof using.
  intros [Hg _ _ _] Hf. unfold finished in Hf.
  assert (Hx : exists i x, workers s !! i = Some x /\ returned x = false).
  { induction (workers s) as [|x ws IH]; [done|]. cbn in Hf. destruct (returned x) eqn:Hr.
    - destruct (IH Hf) as (i & y & Hi & Hy). by exists (S i), y.
    - by exists 0, x. }
  destruct Hx as (i & x & Hi & Hr). destruct x as [|j|j sh|j obj|e]; [..|done].
  - exists (EvJob i). cbn. rewrite Hi. destruct (queue s); eauto.
  - exists (EvShard i). cbn. rewrite Hi. destruct (shards s); eauto.
  - exists (EvCreate i). cbn. rewrite Hi.
    destruct (CreateObject sh (job_data j) (world s)) as [r w'] eqn:Hc.
    destruct (create_law _ _ _ _ _ Hc Hg) as (_ & Hnp & _). destruct r; eauto. done.
  - exists (EvSend i). cbn. rewrite Hi. eauto.
Qed.

(** Every run can be continued until all workers have returned. *)
Lemma run_to_end order jobs s :
  NoDup order -> inv order jobs s -> exists evs s', run evs s = Some s' /\ finished s' = true.
Proof using.
  intros Hnd. remember (measure s) as n eqn:Hn. revert s Hn.
  induction (lt_wf n) as [n _ IH]; intros s -> Hi.
  destruct (finished s) eqn:Hf; [by exists [], s|].
  destruct (progress _ _ _ Hi Hf) as (ev & s1 & He).
  destruct (IH (measure s1) (exec_measure _ _ _ He) s1 eq_refl (inv_exec _ _ _ _ _ Hnd Hi He))
    as (evs & s2 & Hr & Hf2).
  exists (ev :: evs), s2. cbn. by rewrite He.
Qed.

(** ** Liveness: as many working shards as jobs are enough *)
Definition need (ups : list string) (x : worker) : list unit :=
  match x with
  | Fetching _ => [tt]
  | Writing _ sh => if bool_decide (sh ∈ ups) then [] else [tt]
  | _ => []
  end.

Definition failed (x : worker) : bool := match x with Returned (Some _) => true | _ => false end.

Record live (ups : list string) (jobs : list job) (s : state W) : Prop := {
  live_running : cancelled s = false;
  live_no_error : forallb (fun x => negb (failed x)) (workers s) = true;
  live_jobs : (fst <$> results s) ++ List.flat_map held (workers s) ++ queue s ≡ₚ jobs;
  live_supply : length (queue s) + length (List.flat_map (need ups) (workers s)) <=
                length (filter (fun sh => sh ∈ ups) (shards s));
  live_drained : existsb returned (workers s) = true -> queue s = [];
  live_up : forall sh, sh ∈ ups -> up (world s) sh;
  live_data : Forall (fun j => job_data j <> []) jobs;
}.

Lemma live_init ups jobCount jobs order w :
  (forall sh, sh ∈ ups -> up w sh) -> Forall (fun j => job_data j <> []) jobs ->
  length jobs <= length (filter (fun sh => sh ∈ ups) order) -> live ups jobs (init jobCount jobs order w).
Proof using.
  intros Hup Hd Hlen. split; cbn [init world results workers shards queue cancelled];
    rewrite ?flat_map_replicate by done; cbn; try done; [|lia|].
  - induction jobCount; [done|]. cbn. done.
  - intros Hx. exfalso. induction jobCount; [done|]. cbn in Hx. auto.
Qed.

Lemma forallb_perm {A} (f : A -> bool) l k : l ≡ₚ k -> forallb f l = forallb f k.
Proof using. induction 1; cbn; try congruence. by destruct (f x), (f y). Qed.

Lemma existsb_perm {A} (f : A -> bool) l k : l ≡ₚ k -> existsb f l = existsb f k.
Proof using. induction 1; cbn; try congruence. by destruct (f x), (f y). Qed.

Lemma live_exec ups jobs ev s s' :
  good (world s) -> live ups jobs s -> exec ev s = Some s' -> live ups jobs s'.
Proof using.
  intros Hg [Hc Hne Hj Hs Hdr Hup Hd] He.
  destruct ev as [i|i|i|i|i]; cbn [exec] in He; [..|by rewrite Hc in He].
  all: destruct (workers s !! i) as [x|] eqn:Hi; [|done].
  all: use_worker Hi; rewrite Hold in Hj, Hs; cbn [List.flat_map] in Hj, Hs; rewrite length_app in Hs.
  all: rewrite (forallb_perm _ _ _ Hold) in Hne; rewrite (existsb_perm _ _ _ Hold) in Hdr;
    cbn [forallb existsb] in Hne, Hdr; apply andb_true_iff in Hne as [_ Hne].
  all: destruct x as [|j|j sh|j obj|e]; try done.
  - destruct (queue s) as [|j q] eqn:Hq; injection He as <-.
    + split; cbn [move world results workers shards queue cancelled]; rewrite ?Hq, ?Hnew; try done.
      by rewrite (forallb_perm _ _ _ (Hnew _)).
    + split; cbn [world results workers shards queue cancelled]; rewrite ?Hnew; try done.
      * by rewrite (forallb_perm _ _ _ (Hnew _)).
      * rewrite <- Hj. cbn [List.flat_map held]. solve_Permutation.
      * cbn in *. lia.
      * rewrite (existsb_perm _ _ _ (Hnew _)). cbn. intros Hx. by apply Hdr in Hx.
  - destruct (shards s) as [|sh rest'] eqn:Hsh; injection He as <-; [cbn in Hs; lia|].
    split; cbn [world results workers shards queue cancelled]; rewrite ?Hnew; try done.
    + by rewrite (forallb_perm _ _ _ (Hnew _)).
    + rewrite filter_cons in Hs. cbn [List.flat_map need] in *. rewrite length_app.
      destruct (decide (sh ∈ ups)); [rewrite bool_decide_eq_true_2 by done|rewrite bool_decide_eq_false_2 by done];
        cbn [length] in *; lia.
    + by rewrite (existsb_perm _ _ _ (Hnew _)).
  - destruct (CreateObject sh (job_data j) (world s)) as [r w'] eqn:Hcr.
    destruct (create_law _ _ _ _ _ Hcr Hg) as (_ & _ & Hups & _ & _ & Hok).
    destruct r as [key|e|p]; [| |done]; injection He as <-.
    + split; cbn [world results workers shards queue cancelled]; rewrite ?Hnew; try done.
      * by rewrite (forallb_perm _ _ _ (Hnew _)).
      * cbn [List.flat_map need] in *. cbn [app]. lia.
      * by rewrite (existsb_perm _ _ _ (Hnew _)).
      * intros sh' Hin. by apply Hups, Hup.
    + split; cbn [world results workers shards queue cancelled]; rewrite ?Hnew; try done.
      * by rewrite (forallb_perm _ _ _ (Hnew _)).
      * cbn [List.flat_map need] in *. rewrite length_app. cbn [length].
        case_bool_decide as Hin; cbn [length] in Hs; [|lia]. exfalso.
        destruct Hok as [k Hk]; [by apply Hup| |done].
        rewrite Forall_forall in Hd. apply Hd. rewrite <- Hj. set_solver.
      * by rewrite (existsb_perm _ _ _ (Hnew _)).
      * intros sh' Hin. by apply Hups, Hup.
  - injection He as <-. split; cbn [world results workers shards queue cancelled]; rewrite ?Hnew; try done.
    + by rewrite (forallb_perm _ _ _ (Hnew _)).
    + rewrite <- Hj, fmap_app. cbn. solve_Permutation.
    + by rewrite (existsb_perm _ _ _ (Hnew _)).
Qed.

Lemma live_run order ups jobs evs s s' :
  NoDup order -> inv order jobs s -> live ups jobs s -> run evs s = Some s' -> live ups jobs s'.
Proof using.
  intros Hnd. revert s; induction evs as [|ev evs IH]; intros s Hi Hl; cbn; [by intros [= <-]|].
  destruct (exec ev s) as [s1|] eqn:E; [|done]. cbn. intros Hr. eapply IH; [| |done].
  - by eapply inv_exec.
  - eapply live_exec; [by apply (inv_good _ _ _ Hi)|done|done].
Qed.

(** With one worker at least, a live run ends with every job done. *)
Lemma live_finished ups jobs s :
  live ups jobs s -> workers s <> [] -> finished s = true -> (fst <$> results s) ≡ₚ jobs.
Proof using.
  intros [_ _ Hj _ Hdr _ _] Hne Hf. unfold finished in Hf.
  rewrite Hdr, app_nil_r in Hj.
  - rewrite <- Hj. assert (Hh : List.flat_map held (workers s) = []); [|by rewrite Hh, app_nil_r].
    clear -Hf. induction (workers s) as [|x ws IH]; [done|]. cbn in *. apply andb_true_iff in Hf as [Hx Hf].
    rewrite (IH Hf). by destruct x.
  - destruct (workers s) as [|x ws]; [done|]. cbn in *. apply andb_true_iff in Hf as [-> _]. done.
Qed.

Lemma run_workers evs s s' : run evs s = Some s' -> length (workers s') = length (workers s).
Proof using.
  revert s; induction evs as [|ev evs IH]; intros s; cbn; [by intros [= <-]|].
  destruct (exec ev s) as [s1|] eqn:E; [|done]. cbn. intros Hr%IH. rewrite Hr.
  destruct ev; cbn in E; repeat case_match; simplify_eq; cbn; by rewrite ?length_insert.
Qed.
End Safety.
End Spread.
