(* ===== verification/Fleet.v ===== *)
(** * A fleet of zstordb servers behind the shard interface

    Every shard is a server (database and statistics) that can be reached or
    not.  Calls go through the client of [Datastor] to the handlers of
    [ServerAPI]; [fleet_laws] discharges the interface of the chunk storages
    for any database that meets its own interface. *)

From S2P Require Import Prelude Encoding Keys DB Jwt ServerAPI ServerProps Datastor Spread.
Import Encoding.Encoding.
Open Scope Z_scope.

(** For every shard, whether the server answers, and its state. *)
Abbreviation FleetOf St RC := (gmap string (bool * (St * gmap string (stat (RC := RC))))).

Section Fleet.
Context `{DBLaws St} `{RateCounter RC} (namespace : string).
Local Abbreviation Fleet := (FleetOf St RC).

Definition ErrUnavailable := ErrStatus 14 "all SubConns are in TransientFailure".

(** A client call on one shard. *)
Definition on_shard {A} (sh : string) (m : Client (St * gmap string stat) -> prog (St * gmap string stat) A)
  : prog Fleet A :=
  fun w =>
    match w !! sh with
    | Some (true, s) => let '(r, s') := m (the_client namespace) s in (r, <[sh := (true, s')]> w)
    | _ => (Err ErrUnavailable, w)
    end.

(** [grpc.Dial] does not wait for the connection, so a shard is had even when
    its server does not answer. *)
#[export] Instance fleet_ops : ShardOps Fleet := {|
  GetShard sh := pret tt;
  Spread.CreateObject sh d := on_shard sh (fun c => cl_CreateObject c d);
  Spread.GetObject sh k := on_shard sh (fun c => do! o := cl_GetObject c (Some k) in pret (ob_data o));
  Spread.DeleteObject sh k := on_shard sh (fun c => cl_DeleteObject c (Some k));
  Spread.GetObjectStatus sh k := on_shard sh (fun c => cl_GetObjectStatus c (Some k));
|}.

Definition decoded (raw : bytes) : option bytes :=
  match DecodeObject raw with Ok o => Some (Data o) | _ => None end.

Definition fleet_holds (w : Fleet) (sh : string) (k : bytes) : option bytes :=
  s ← w !! sh; raw ← db_map s.2.1 !! dkey namespace k; decoded raw.

Definition fleet_good (w : Fleet) : Prop := forall sh s, w !! sh = Some s -> db_up s.2.1.

Definition fleet_up (w : Fleet) (sh : string) : Prop := exists s, w !! sh = Some (true, s).

Lemma fleet_up_insert (w : Fleet) sh s s' sh' :
  w !! sh = Some (true, s) -> fleet_up (<[sh := (true, s')]> w) sh' <-> fleet_up w sh'.
Proof using.
  intros Hw. unfold fleet_up. rewrite lookup_insert. case_decide; subst; [|done].
  split; intros _; [by exists s|by eexists].
Qed.

Lemma fleet_good_insert (w : Fleet) sh s' : fleet_good w -> db_up s'.1 -> fleet_good (<[sh := (true, s')]> w).
Proof using.
  intros Hg Hs sh' x Hx. apply lookup_insert_Some in Hx as [[_ <-]|[_ Hx]]; [done|by eapply Hg].
Qed.

Lemma fleet_holds_insert (w : Fleet) sh s' sh' k :
  fleet_holds (<[sh := (true, s')]> w) sh' k =
    if decide (sh = sh') then raw ← db_map s'.1 !! dkey namespace k; decoded raw else fleet_holds w sh' k.
Proof using. unfold fleet_holds. rewrite lookup_insert. by case_decide. Qed.

Lemma fleet_holds_here (w : Fleet) sh b s k :
  w !! sh = Some (b, s) -> fleet_holds w sh k = raw ← db_map s.1 !! dkey namespace k; decoded raw.
Proof using. unfold fleet_holds. by intros ->. Qed.

(** A call that only reads leaves the fleet equal. *)
Lemma fleet_read_same (w : Fleet) sh s : w !! sh = Some (true, s) -> <[sh := (true, s)]> w = w.
Proof using. intros Hw. by apply insert_id. Qed.

#[export] Instance fleet_laws : ShardLaws Fleet.
Proof using All.
  refine {| good := fleet_good; holds := fleet_holds; up := fleet_up |}.
  - intros sh d w r w' Hc Hg. cbn in Hc. unfold on_shard in Hc.
    destruct (w !! sh) as [[[] s]|] eqn:Hw.
    2,3: injection Hc as <- <-; split_and!; try done; intros [s' Hs']; congruence.
    pose proof (Hg sh _ Hw) as Hups. cbn in Hups.
    destruct d as [|b d].
    { rewrite cl_CreateObject_nil in Hc. injection Hc as <- <-. rewrite fleet_read_same by done.
      split_and!; done. }
    destruct (cl_CreateObject_spec namespace (b :: d) s Hups ltac:(done)) as (g & s1 & Hcr & Hup1 & Hgn & Hm & _).
    rewrite Hcr in Hc. injection Hc as <- <-. split_and!.
    + by apply fleet_good_insert.
    + done.
    + intros sh'. by eapply fleet_up_insert.
    + intros sh' k' x Hx [Hne|Hno]; [|by destruct (Hno g)]. rewrite fleet_holds_insert. by rewrite decide_False.
    + intros k [= <-]. split; [done|]. rewrite fleet_holds_insert, decide_True by done. cbn [fst].
      rewrite Hm, lookup_insert_eq. cbn [mbind option_bind]. unfold decoded. by rewrite DecodeObject_package.
    + intros _ _. by exists g.
  - intros sh k w r w' Hc Hg Hk. cbn in Hc. unfold on_shard in Hc.
    destruct (w !! sh) as [[[] s]|] eqn:Hw.
    2,3: injection Hc as <- <-; split_and!; try done; intros d [s' Hs']; congruence.
    pose proof (Hg sh _ Hw) as Hups. cbn in Hups. unfold pbind, pret in Hc.
    rewrite cl_GetObject_spec in Hc by done. rewrite (fleet_holds_here _ _ _ _ _ Hw).
    destruct (db_map s.1 !! dkey namespace k) as [raw|].
    2: { injection Hc as <- <-. rewrite fleet_read_same by done. split_and!; done. }
    cbn [mbind option_bind]. unfold decoded. destruct (DecodeObject raw) as [o|e|p] eqn:Hd.
    2,3: injection Hc as <- <-; rewrite fleet_read_same by done; split_and!; done.
    apply DecodeObject_nonempty in Hd. destruct (Data o) as [|b d] eqn:Ho; [done|].
    injection Hc as <- <-. rewrite fleet_read_same by done. cbn [ob_data]. split_and!; try done; naive_solver.
  - intros sh k w r w' Hc Hg Hk. cbn in Hc. unfold on_shard in Hc.
    destruct (w !! sh) as [[[] s]|] eqn:Hw.
    2,3: injection Hc as <- <-; split_and!; try done; intros d [s' Hs']; congruence.
    pose proof (Hg sh _ Hw) as Hups. cbn in Hups.
    rewrite cl_GetObjectStatus_spec in Hc by done. injection Hc as <- <-. rewrite fleet_read_same by done.
    rewrite (fleet_holds_here _ _ _ _ _ Hw).
    destruct (db_map s.1 !! dkey namespace k) as [raw|]; cbn [mbind option_bind]; [|split_and!; done].
    unfold decoded. destruct (DecodeObject raw); split_and!; try done; naive_solver.
  - intros sh k w r w' Hc Hg Hk. cbn in Hc. unfold on_shard in Hc.
    destruct (w !! sh) as [[[] s]|] eqn:Hw.
    2,3: injection Hc as <- <-; split_and!; try done; intros [s' Hs']; congruence.
    pose proof (Hg sh _ Hw) as Hups. cbn in Hups.
    destruct (cl_DeleteObject_spec namespace k s Hups Hk) as (s1 & Hdel & Hup1 & Hm & _).
    rewrite Hdel in Hc. injection Hc as <- <-. split_and!; try done.
    + by apply fleet_good_insert.
    + intros sh'. by eapply fleet_up_insert.
    + intros sh' k' Hne. rewrite fleet_holds_insert. case_decide; [subst sh'|done].
      rewrite (fleet_holds_here _ _ _ _ _ Hw). cbn [fst]. rewrite Hm, lookup_delete_ne; [done|].
      intros E. apply dkey_inj in E. congruence.
    + intros _. rewrite fleet_holds_insert, decide_True by done. cbn [fst]. by rewrite Hm, lookup_delete_eq.
  - intros sh w r w' Hc Hg. cbn in Hc. injection Hc as <- <-. split_and!; done.
Defined.
End Fleet.

(** ** Three in-memory servers, one of which is down, for the witnesses *)
Section Demo.
Import Memory.

Definition demo_fleet : FleetOf MemDB Z :=
  <["a" := (true, (New, ∅))]> (<["b" := (false, (New, ∅))]> {["c" := (true, (New, ∅))]})%string.

#[export] Instance demo_ops : ShardOps (FleetOf MemDB Z) := fleet_ops "ns".
#[export] Instance demo_laws : ShardLaws (FleetOf MemDB Z) := fleet_laws "ns".

Lemma demo_good : good demo_fleet.
Proof using. intros sh s _. exact I. Qed.

Lemma demo_up sh : sh ∈ ["a"; "c"]%string -> up demo_fleet sh.
Proof using.
  intros Hin. apply elem_of_cons in Hin as [->|Hin]; [by eexists|].
  apply list_elem_of_singleton in Hin as ->. by eexists.
Qed.
End Demo.
