(* ===== verification/Replicated.v ===== *)
(** * Random and replicated chunk storage ([pipeline/storage/random.go], [replicated.go])

    The operations are written against [ShardOps].  What the goroutines leave
    open is an argument: the order in which the random iterator hands out
    shards, the order in which the objects of a chunk are examined, and, for a
    parallel write, the schedule of the [Spread] machine.  The theorems hold
    for all of them. *)

From S2P Require Import Prelude Encoding Spread.
Import Spread.Spread.
Open Scope nat_scope.

(** ** Calls on the objects of a chunk *)
Section Objects.
Context `{ShardOps W}.

(** [GetShard] then [GetObject]: [Ok None] when either fails. *)
Definition try_read (o : MetaObject) : prog W (option bytes) :=
  fun w =>
    match GetShard (mo_ShardID o) w with
    | (Err _, w1) => (Ok None, w1)
    | (Panic p, w1) => (Panic p, w1)
    | (Ok tt, w1) =>
        match GetObject (mo_ShardID o) (mo_Key o) w1 with
        | (Err _, w2) => (Ok None, w2)
        | (Panic p, w2) => (Panic p, w2)
        | (Ok d, w2) => (Ok (Some d), w2)
        end
    end.

(** [GetShard] then [GetObjectStatus]: whether the status is OK. *)
Definition object_valid (o : MetaObject) : prog W bool :=
  fun w =>
    match GetShard (mo_ShardID o) w with
    | (Err _, w1) => (Ok false, w1)
    | (Panic p, w1) => (Panic p, w1)
    | (Ok tt, w1) =>
        match GetObjectStatus (mo_ShardID o) (mo_Key o) w1 with
        | (Err _, w2) => (Ok false, w2)
        | (Panic p, w2) => (Panic p, w2)
        | (Ok status, w2) => (Ok (bool_decide (status = ObjectStatusOK)), w2)
        end
    end.

Definition delete_object (o : MetaObject) : prog W unit :=
  do! _ := GetShard (mo_ShardID o) in
  DeleteObject (mo_ShardID o) (mo_Key o).

(** The deletion of several objects, in the order the workers reach them:
    after the first error only [extra] more are attempted, and the first error
    is returned. *)
Fixpoint delete_all (extra : nat) (objs : list MetaObject) (err : option error) : prog W unit :=
  match objs with
  | [] => match err with None => pret tt | Some e => pfail e end
  | o :: rest =>
      fun w =>
        match err, extra with
        | Some e, O => (Err e, w)
        | _, _ =>
            match delete_object o w with
            | (Ok tt, w1) => delete_all (match err with Some _ => extra - 1 | None => extra end) rest err w1
            | (Err e, w1) =>
                delete_all (match err with Some _ => extra - 1 | None => extra end) rest
                  (match err with Some e' => Some e' | None => Some e end) w1
            | (Panic p, w1) => (Panic p, w1)
            end
        end
  end.

(** [DeleteChunk] of both the replicated and the distributed storage. *)
Definition DeleteChunk (extra : nat) (arrival : list MetaObject) (cfg : ChunkConfig) : prog W unit :=
  match cfg_Objects cfg with
  | [] => pfail ErrUnexpectedObjectCount
  | [o] => delete_object o
  | _ => delete_all extra arrival None
  end.
End Objects.

Section ObjectLaws.
Context `{ShardLaws W}.

(** What the reads of a storage leave as it was. *)
Definition same_world (w w' : W) : Prop :=
  (forall sh, up w' sh <-> up w sh) /\ (forall sh k, holds w' sh k = holds w sh k).

#[export] Instance same_world_equiv : Equivalence same_world.
Proof using.
  split.
  - by split.
  - intros w w' [Hu Hh]. split; intros; by rewrite ?Hu, ?Hh.
  - intros w1 w2 w3 [Hu Hh] [Hu' Hh']. split; intros; by rewrite ?Hu', ?Hu, ?Hh', ?Hh.
Qed.

Definition readable (w : W) (o : MetaObject) (d : bytes) : Prop :=
  up w (mo_ShardID o) /\ holds w (mo_ShardID o) (mo_Key o) = Some d.

Lemma readable_same w w' o d : same_world w w' -> readable w o d -> readable w' o d.
Proof using. intros [Hu Hh] [H1 H2]. split; [by apply Hu|by rewrite Hh]. Qed.

Lemma try_read_spec o w : good w -> mo_Key o <> [] ->
  exists r w', try_read o w = (Ok r, w') /\ good w' /\ same_world w w' /\
    (forall d, r = Some d -> holds w (mo_ShardID o) (mo_Key o) = Some d) /\
    (forall d, readable w o d -> r = Some d).
Proof using.
  intros Hg Hk. unfold try_read.
  destruct (GetShard (mo_ShardID o) w) as [r1 w1] eqn:E1.
  destruct (shard_law _ _ _ _ E1 Hg) as (Hg1 & Hp1 & Hu1 & Hh1 & Hok1).
  destruct r1 as [[]|e|p]; [|exists None, w1; split_and!; try done; intros d [Hup _]; by apply Hok1 in Hup|done].
  destruct (GetObject (mo_ShardID o) (mo_Key o) w1) as [r2 w2] eqn:E2.
  destruct (get_law _ _ _ _ _ E2 Hg1 Hk) as (Hg2 & Hp2 & Hu2 & Hh2 & Hok2 & Hup2).
  assert (Hs : same_world w w2) by (split; intros; by rewrite ?Hu2, ?Hu1, ?Hh2, ?Hh1).
  destruct r2 as [d|e|p]; [| |done].
  - exists (Some d), w2. split_and!; try done.
    + intros d' [= <-]. rewrite <- Hh1. by apply Hok2.
    + intros d' [Hup Hhd]. apply Hu1 in Hup. rewrite <- Hh1 in Hhd.
      specialize (Hup2 _ Hup Hhd). by injection Hup2 as ->.
  - exists None, w2. split_and!; try done.
    intros d' [Hup Hhd]. apply Hu1 in Hup. rewrite <- Hh1 in Hhd. by specialize (Hup2 _ Hup Hhd).
Qed.

Lemma object_valid_spec o w : good w -> mo_Key o <> [] ->
  exists b w', object_valid o w = (Ok b, w') /\ good w' /\ same_world w w' /\
    (b = true -> exists d, holds w (mo_ShardID o) (mo_Key o) = Some d) /\
    (forall d, readable w o d -> b = true).
Proof using.
  intros Hg Hk. unfold object_valid.
  destruct (GetShard (mo_ShardID o) w) as [r1 w1] eqn:E1.
  destruct (shard_law _ _ _ _ E1 Hg) as (Hg1 & Hp1 & Hu1 & Hh1 & Hok1).
  destruct r1 as [[]|e|p]; [|exists false, w1; split_and!; try done; intros d [Hup _]; by apply Hok1 in Hup|done].
  destruct (GetObjectStatus (mo_ShardID o) (mo_Key o) w1) as [r2 w2] eqn:E2.
  destruct (status_law _ _ _ _ _ E2 Hg1 Hk) as (Hg2 & Hp2 & Hu2 & Hh2 & Hok2 & Hup2).
  assert (Hs : same_world w w2) by (split; intros; by rewrite ?Hu2, ?Hu1, ?Hh2, ?Hh1).
  assert (Hr : forall d, readable w o d -> r2 = Ok ObjectStatusOK).
  { intros d [Hup Hhd]. apply (Hup2 d); [by apply Hu1|by rewrite Hh1]. }
  destruct r2 as [st|e|p]; [| |done].
  - exists (bool_decide (st = ObjectStatusOK)), w2. split_and!; try done.
    + rewrite bool_decide_eq_true. intros ->. destruct Hok2 as [d Hd]; [done|]. exists d. by rewrite <- Hh1.
    + intros d Hrd. apply Hr in Hrd as [= ->]. by apply bool_decide_eq_true.
  - exists false, w2. split_and!; try done. intros d Hrd. by apply Hr in Hrd.
Qed.
End ObjectLaws.

(** ** Random storage: one object on one shard *)
Module Random.
Section Random.
Context `{ShardOps W}.

Definition NewRandomChunkStorage (listedShardCount : nat) : outcome unit :=
  if (listedShardCount <? 1)%nat then Err (ErrNew "RandomChunkStorage: at least one listed shard is required")
  else Ok tt.

(** [order] is what the random iterator hands out. *)
Fixpoint WriteChunk (order : list string) (data : bytes) : prog W ChunkConfig :=
  match order with
  | [] => pfail ErrShardsUnavailable
  | shard :: rest =>
      fun w =>
        match CreateObject shard data w with
        | (Ok key, w') =>
            (Ok {| cfg_Size := Z.of_nat (length data);
                   cfg_Objects := [{| mo_Key := key; mo_ShardID := shard |}] |}, w')
        | (Err _, w') => WriteChunk rest data w'
        | (Panic p, w') => (Panic p, w')
        end
  end.

Definition ReadChunk (cfg : ChunkConfig) : prog W bytes :=
  match cfg_Objects cfg with
  | [obj] =>
      do! _ := GetShard (mo_ShardID obj) in
      do! data := GetObject (mo_ShardID obj) (mo_Key obj) in
      if negb (Z.of_nat (length data) =? cfg_Size cfg)%Z then pfail ErrInvalidDataSize else pret data
  | _ => pfail ErrUnexpectedObjectCount
  end.

Definition CheckChunk (cfg : ChunkConfig) (fast : bool) : prog W CheckStatus :=
  match cfg_Objects cfg with
  | [obj] =>
      do! v := object_valid obj in
      pret (if v then CheckStatusOptimal else CheckStatusInvalid)
  | _ => pfail ErrUnexpectedObjectCount
  end.

Definition RepairChunk (cfg : ChunkConfig) : prog W ChunkConfig := pfail ErrNotSupported.

Definition DeleteChunk (cfg : ChunkConfig) : prog W unit :=
  match cfg_Objects cfg with
  | [obj] => delete_object obj
  | _ => pfail ErrUnexpectedObjectCount
  end.
End Random.

Section RandomProperties.
Context `{ShardLaws W}.

Lemma WriteChunk_spec order data w :
  good w -> data <> [] -> (exists sh, sh ∈ order /\ up w sh) ->
  exists o w', WriteChunk order data w =
      (Ok {| cfg_Size := Z.of_nat (length data); cfg_Objects := [o] |}, w') /\ good w' /\
    mo_ShardID o ∈ order /\ mo_Key o <> [] /\ holds w' (mo_ShardID o) (mo_Key o) = Some data.
Proof using.
  revert w; induction order as [|sh order IH]; intros w Hg Hd [x [Hx Hup]]; [by apply not_elem_of_nil in Hx|].
  cbn. destruct (CreateObject sh data w) as [r w'] eqn:E.
  destruct (create_law _ _ _ _ _ E Hg) as (Hg' & Hnp & Hups & _ & Hok & Hl). destruct r as [k|e|p]; [| |done].
  - eexists {| mo_Key := k; mo_ShardID := sh |}, w'. destruct (Hok k eq_refl). split_and!; try done. set_solver.
  - destruct (IH w' Hg' Hd) as (o & w2 & Hw & Hg2 & Hin & Hrest).
    + exists x. split; [|by apply Hups]. apply elem_of_cons in Hx as [->|Hx]; [|done].
      destruct Hl as [k Hk]; [done|done|]. congruence.
    + exists o, w2. rewrite Hw. split_and!; try done; [set_solver|apply Hrest..].
Qed.

(** Random storage: as long as one of the shards that the iterator hands
    out works, a chunk is written, as one object that a shard stores; and in
    every later world in which that object is readable, reading the chunk gives
    back the data and checking it reports an optimal chunk. *)
Theorem random_write_then_read (order : list string) (data : bytes) (fast : bool) (w : W) :
  good w -> data <> [] -> (exists sh, sh ∈ order /\ up w sh) ->
  exists o cfg w', WriteChunk order data w = (Ok cfg, w') /\ cfg_Objects cfg = [o] /\
    mo_ShardID o ∈ order /\ holds w' (mo_ShardID o) (mo_Key o) = Some data /\
    (forall w2, good w2 -> readable w2 o data ->
       (ReadChunk cfg w2).1 = Ok data /\ (CheckChunk cfg fast w2).1 = Ok CheckStatusOptimal).
Proof using.
  intros Hg Hd Hup. destruct (WriteChunk_spec order data w Hg Hd Hup) as (o & w' & Hw & Hg' & Hin & Hk & Hh).
  exists o. eexists _, w'. split_and!; [done..|]. intros w2 Hg2 Hr. split.
  - unfold ReadChunk. cbn [cfg_Objects cfg_Size]. unfold pbind.
    destruct (GetShard (mo_ShardID o) w2) as [r1 w3] eqn:E1.
    destruct (shard_law _ _ _ _ E1 Hg2) as (Hg3 & _ & Hu & Hh1 & Hok). destruct Hr as [Hr1 Hr2].
    rewrite (Hok Hr1). destruct (GetObject (mo_ShardID o) (mo_Key o) w3) as [r2 w4] eqn:E2.
    destruct (get_law _ _ _ _ _ E2 Hg3 Hk) as (_ & _ & _ & _ & _ & Hget).
    rewrite (Hget data) by (by apply Hu || by rewrite Hh1). by rewrite Z.eqb_refl.
  - unfold CheckChunk. cbn [cfg_Objects]. unfold pbind.
    destruct (object_valid_spec o w2 Hg2 Hk) as (b & w3 & -> & _ & _ & _ & Hv). by rewrite (Hv data Hr).
Qed.
End RandomProperties.
End Random.

(** ** Replicated storage *)
Module Replicated.

Record ReplicatedChunkStorage := {
  dataShardCount : nat;
  jobCount : nat;
  writeJobCount : nat;
}.

(** [DefaultJobCount] is twice the number of CPUs. *)
Definition NewReplicatedChunkStorage (DefaultJobCount listedShardCount : nat)
    (dataShardCount jobCount : Z) : outcome ReplicatedChunkStorage :=
  if (dataShardCount <? 1)%Z then Panic "ReplicatedChunkStorage: dataShardCount has to be at least 1"
  else if (Z.of_nat listedShardCount <? dataShardCount)%Z
  then Err (ErrNew "ReplicatedChunkStorage requires at least dataShardCount amount of listed datastor shards")
  else
    let jobCount := if (jobCount <? 1)%Z then DefaultJobCount else Z.to_nat jobCount in
    let dataShardCount := Z.to_nat dataShardCount in
    Ok {| dataShardCount := dataShardCount; jobCount := jobCount;
          writeJobCount := if (jobCount <? dataShardCount)%nat then dataShardCount else jobCount |}.

Section Operations.
Context `{ShardOps W} (rs : ReplicatedChunkStorage).

(** [write]: [n] requests for the same data, [order] from the random iterator
    without the excepted shards, [evs] the schedule.  [None] when [evs] is not
    a complete run; otherwise the returned configuration and error. *)
Definition write (order : list string) (evs : list event) (n : nat) (data : bytes) (w : W)
  : option ((ChunkConfig * option error) * W) :=
  let workers := if (n <? jobCount rs)%nat then n else jobCount rs in
  s ← run evs (init workers (replicate n {| job_index := 0; job_data := data |}) order w);
  if finished s then
    let cfg := {| cfg_Size := Z.of_nat (length data); cfg_Objects := snd <$> results s |} in
    Some ((cfg, if (length (cfg_Objects cfg) <? n)%nat then Some ErrShardsUnavailable else None), world s)
  else None.

Definition WriteChunk (order : list string) (evs : list event) (data : bytes) (w : W)
  : option ((ChunkConfig * option error) * W) := write order evs (dataShardCount rs) data w.

(** The sequential loop of [ReadChunk]. *)
Fixpoint read_objects (size : Z) (objs : list MetaObject) : prog W bytes :=
  match objs with
  | [] => pfail ErrShardsUnavailable
  | obj :: rest =>
      do! r := try_read obj in
      match r with
      | Some d => if (Z.of_nat (length d) =? size)%Z then pret d else read_objects size rest
      | None => read_objects size rest
      end
  end.

Definition ReadChunk (cfg : ChunkConfig) : prog W bytes :=
  if (length (cfg_Objects cfg) =? 0)%nat then pfail ErrUnexpectedObjectCount
  else read_objects (cfg_Size cfg) (cfg_Objects cfg).

(** The valid objects that the collector counts, up to [limit], when the
    workers examine the objects in the order [arrival]. *)
Fixpoint count_valid (limit : nat) (arrival : list MetaObject) (count : nat) : prog W nat :=
  match arrival with
  | [] => pret count
  | obj :: rest =>
      do! v := object_valid obj in
      if negb v then count_valid limit rest count
      else if (S count =? limit)%nat then pret (S count)
      else count_valid limit rest (S count)
  end.

Definition CheckChunk (arrival : list MetaObject) (cfg : ChunkConfig) (fast : bool) : prog W CheckStatus :=
  if (length (cfg_Objects cfg) =? 0)%nat then pfail ErrUnexpectedObjectCount
  else if fast then
    do! count := count_valid 1 arrival 0 in
    pret (if (count =? 0)%nat then CheckStatusInvalid
          else if (dataShardCount rs =? 1)%nat then CheckStatusOptimal else CheckStatusValid)
  else
    do! count := count_valid (dataShardCount rs) arrival 0 in
    pret (if (count =? dataShardCount rs)%nat then CheckStatusOptimal
          else if (0 <? count)%nat then CheckStatusValid else CheckStatusInvalid).

(** [splitObjects]: an object whose shard cannot be had and an object that is
    missing or corrupt are in neither list; a failing status call makes an
    object invalid. *)
Fixpoint splitObjects (arrival : list MetaObject) : prog W (list MetaObject * list MetaObject) :=
  match arrival with
  | [] => pret ([], [])
  | obj :: rest =>
      fun w =>
        match GetShard (mo_ShardID obj) w with
        | (Err _, w1) => splitObjects rest w1
        | (Panic p, w1) => (Panic p, w1)
        | (Ok tt, w1) =>
            match GetObjectStatus (mo_ShardID obj) (mo_Key obj) w1 with
            | (Panic p, w2) => (Panic p, w2)
            | (r, w2) =>
                (do! (valid, invalid) := splitObjects rest in
                 pret (match r with
                       | Ok ObjectStatusOK => (obj :: valid, invalid)
                       | Ok _ => (valid, invalid)
                       | _ => (valid, obj :: invalid)
                       end)) w2
            end
        end
  end.

(** The loop of [RepairChunk] that looks for data to replicate: the variable
    [object] and what is left of [validObjects].  An object of the wrong size
    stays in [object]. *)
Fixpoint repair_read (size : Z) (validObjects : list MetaObject) (object : option bytes)
  : prog W (option bytes * list MetaObject) :=
  match validObjects with
  | [] => pret (object, [])
  | obj :: rest =>
      fun w =>
        match GetShard (mo_ShardID obj) w with
        | (Err _, w1) => repair_read size rest object w1
        | (Panic p, w1) => (Panic p, w1)
        | (Ok tt, w1) =>
            match GetObject (mo_ShardID obj) (mo_Key obj) w1 with
            | (Err _, w2) => repair_read size rest None w2
            | (Panic p, w2) => (Panic p, w2)
            | (Ok d, w2) =>
                if negb (Z.of_nat (length d) =? size)%Z then repair_read size rest (Some d) w2
                else (Ok (Some d, validObjects), w2)
            end
        end
  end.

(** What the code returns: a configuration or nil, and an error or nil. *)
Definition returns (cfg : option ChunkConfig) (err : option error) (w : W)
  : option (outcome (option ChunkConfig * option error) * W) := Some (Ok (cfg, err), w).

(** [iter except] is the order of the random iterator without [except]. *)
Definition RepairChunk (arrival : list MetaObject) (iter : list string -> list string) (evs : list event)
    (cfg : ChunkConfig) (w : W) : option (outcome (option ChunkConfig * option error) * W) :=
  match cfg_Objects cfg with
  | [] => returns None (Some ErrUnexpectedObjectCount) w
  | [obj] =>
      match object_valid obj w with
      | (Ok true, w1) => returns (Some cfg) None w1
      | (Ok false, w1) => returns None (Some ErrShardsUnavailable) w1
      | (Err e, w1) => returns None (Some e) w1
      | (Panic p, w1) => Some (Panic p, w1)
      end
  | _ =>
      match splitObjects arrival w with
      | (Panic p, w1) => Some (Panic p, w1)
      | (Err e, w1) => returns None (Some e) w1
      | (Ok (validObjects, invalidObjects), w1) =>
          if (length validObjects =? 0)%nat then returns None (Some ErrShardsUnavailable) w1
          else if (dataShardCount rs <=? length validObjects)%nat
          then returns (Some {| cfg_Size := cfg_Size cfg; cfg_Objects := validObjects |}) None w1
          else
            match repair_read (cfg_Size cfg) validObjects None w1 with
            | (Panic p, w2) => Some (Panic p, w2)
            | (Err e, w2) => returns None (Some e) w2
            | (Ok (None, _), w2) => returns None (Some ErrShardsUnavailable) w2
            | (Ok (Some data, validObjects), w2) =>
                let exceptShards := (mo_ShardID <$> invalidObjects) ++ (mo_ShardID <$> validObjects) in
                res ← write (iter exceptShards) evs (dataShardCount rs - length validObjects) data w2;
                let '((outputCfg, err), w3) := res in
                match err with
                | Some e => returns (Some outputCfg) (Some e) w3
                | None =>
                    let outputCfg := {| cfg_Size := cfg_Size outputCfg;
                                        cfg_Objects := validObjects ++ cfg_Objects outputCfg |} in
                    if (length (cfg_Objects cfg) <? dataShardCount rs)%nat
                    then returns (Some outputCfg) (Some ErrShardsUnavailable) w3
                    else returns (Some outputCfg) None w3
                end
            end
      end
  end.
End Operations.

Section Laws.
Context `{ShardLaws W} (rs : ReplicatedChunkStorage).

(** All the objects of a list are stored and hold the data. *)
Definition all_hold (w : W) (objs : list MetaObject) (data : bytes) : Prop :=
  Forall (fun o => mo_Key o <> [] /\ holds w (mo_ShardID o) (mo_Key o) = Some data) objs.

(** What a finished write guarantees, whatever happened on the way. *)
Lemma write_spec order evs n data w cfg err w' :
  NoDup order -> good w -> write rs order evs n data w = Some ((cfg, err), w') ->
  good w' /\ cfg_Size cfg = Z.of_nat (length data) /\ length (cfg_Objects cfg) <= n /\
  (mo_ShardID <$> cfg_Objects cfg) ⊆+ order /\ all_hold w' (cfg_Objects cfg) data /\
  (err = None <-> length (cfg_Objects cfg) = n) /\
  (forall sh k x, sh ∉ order -> holds w sh k = Some x -> holds w' sh k = Some x).
Proof using.
  intros Hnd Hg. unfold write. set (workers0 := if n <? jobCount rs then n else jobCount rs). set (jobs := replicate n {| job_index := 0; job_data := data |}).
  destruct (run evs _) as [s|] eqn:Hr; [|done]. cbn [mbind option_bind]. destruct (finished s) eqn:Hf; [|done].
  intros [= <- <- <-]. cbn [cfg_Size cfg_Objects].
  pose proof (inv_init workers0 jobs order w Hg) as Hi0.
  pose proof (inv_run _ _ _ _ _ Hnd Hi0 Hr) as [Hg' Hsh Hj Hst].
  assert (Hlen : length (snd <$> results s) <= n).
  { apply submseteq_length in Hj. rewrite length_app, length_fmap in Hj. unfold jobs in Hj.
    rewrite length_replicate in Hj. rewrite length_fmap. lia. }
  assert (Hres : forall r, r ∈ results s -> job_data r.1 = data).
  { intros r Hin. assert (Hx : r.1 ∈ jobs).
    { eapply elem_of_submseteq; [|exact Hj]. apply elem_of_app; left. apply list_elem_of_fmap. by exists r. }
    unfold jobs in Hx. apply elem_of_replicate in Hx as [-> _]. done. }
  split_and!; try done.
  - etrans; [|exact Hsh]. rewrite <- list_fmap_compose. apply submseteq_inserts_r. done.
  - apply Forall_app in Hst as [Hst _]. unfold all_hold. rewrite Forall_fmap.
    rewrite Forall_forall in Hst |- *. intros r Hin. destruct (Hst r Hin) as [Hk Hh]. split; [done|].
    cbn. by rewrite Hh, Hres.
  - destruct (Nat.ltb_spec (length (snd <$> results s)) n) as [Hlt|Hge]; [|split; [intros _; lia|done]].
    split; [done|]. intros E. exfalso. lia.
  - intros sh k x Hout Hh. by eapply kept_run.
Qed.

(** With enough working shards no schedule fails. *)
Lemma write_succeeds order evs n data w cfg err w' (ups : list string) :
  NoDup order -> good w -> 0 < jobCount rs -> 0 < n -> data <> [] ->
  (forall sh, sh ∈ ups -> up w sh) -> n <= length (filter (fun sh => sh ∈ ups) order) ->
  write rs order evs n data w = Some ((cfg, err), w') -> err = None.
Proof using.
  intros Hnd Hg Hjc Hn Hd Hup Hlen Hw. apply (write_spec _ _ _ _ _ _ _ _ Hnd Hg) in Hw as Hs.
  destruct Hs as (_ & _ & _ & _ & _ & Herr & _). apply Herr. clear Herr. revert Hw.
  unfold write. set (workers0 := if n <? jobCount rs then n else jobCount rs). set (jobs := replicate n {| job_index := 0; job_data := data |}).
  destruct (run evs _) as [s|] eqn:Hr; [|done]. cbn [mbind option_bind]. destruct (finished s) eqn:Hf; [|done].
  intros [= <- <- <-]. cbn [cfg_Objects].
  assert (Hl : live ups jobs s).
  { eapply live_run; [done|by apply inv_init| |done]. apply live_init; [done| |].
    - apply Forall_replicate. done.
    - unfold jobs. by rewrite length_replicate. }
  apply live_finished in Hl; [|intros E|done].
  - rewrite length_fmap. apply Permutation_length in Hl. rewrite length_fmap in Hl. unfold jobs in Hl.
    by rewrite length_replicate in Hl.
  - apply run_workers in Hr. rewrite E in Hr. cbn in Hr. rewrite length_replicate in Hr.
    unfold workers0 in Hr. destruct (n <? jobCount rs); lia.
Qed.

(** Every schedule is short, and one that finishes exists. *)
Lemma write_terminates order n data w :
  NoDup order -> good w ->
  (exists evs res, write rs order evs n data w = Some res) /\
  (forall evs res, write rs order evs n data w = Some res ->
     length evs <= Nat.min n (jobCount rs) + 3 * n + 2 * length order).
Proof using.
  intros Hnd Hg. unfold write. set (workers0 := if n <? jobCount rs then n else jobCount rs). set (jobs := replicate n {| job_index := 0; job_data := data |}).
  assert (Hw0 : workers0 = Nat.min n (jobCount rs)).
  { unfold workers0. destruct (Nat.ltb_spec n (jobCount rs)); lia. }
  split.
  - destruct (run_to_end _ _ _ Hnd (inv_init workers0 jobs order w Hg)) as (evs & s & Hr & Hf).
    exists evs. rewrite Hr. cbn. rewrite Hf. by eexists.
  - intros evs res. destruct (run evs _) as [s|] eqn:Hr; [|done]. intros _.
    apply run_length in Hr. unfold measure, init in Hr. cbn [queue shards workers] in Hr.
    unfold jobs in Hr. rewrite length_replicate in Hr.
    assert (Hsum : list_sum (rank <$> replicate workers0 Waiting) = workers0).
    { clear. induction workers0; cbn; [done|]. unfold list_sum in *. cbn. lia. }
    lia.
Qed.

(** Every stored object of a list is a copy of the data. *)
Definition copies (w : W) (objs : list MetaObject) (data : bytes) : Prop :=
  forall o d, o ∈ objs -> holds w (mo_ShardID o) (mo_Key o) = Some d -> d = data.

Definition keyed (objs : list MetaObject) : Prop := Forall (fun o => mo_Key o <> []) objs.

Lemma copies_same w w' objs data : same_world w w' -> copies w objs data -> copies w' objs data.
Proof using. intros [_ Hh] Hc o d Ho Hd. rewrite Hh in Hd. by eapply Hc. Qed.

Lemma copies_sub w objs objs' data :
  (forall o, o ∈ objs' -> o ∈ objs) -> copies w objs data -> copies w objs' data.
Proof using. intros Hs Hc o d Ho. apply Hc. by apply Hs. Qed.

Lemma read_objects_spec size objs data w :
  good w -> keyed objs -> copies w objs data -> size = Z.of_nat (length data) ->
  ((read_objects size objs w).1 = Ok data \/ (read_objects size objs w).1 = Err ErrShardsUnavailable) /\
  ((exists o, o ∈ objs /\ readable w o data) -> (read_objects size objs w).1 = Ok data).
Proof using.
  intros Hg Hk Hc ->. revert w Hg Hc; induction objs as [|o objs IH]; intros w Hg Hc.
  { split; [by right|]. intros (o & Ho & _). by apply not_elem_of_nil in Ho. }
  apply Forall_cons in Hk as [Hko Hk]. cbn [read_objects]. unfold pbind.
  destruct (try_read_spec o w Hg Hko) as (r & w' & -> & Hg' & Hs & Hr & Hrd).
  destruct (IH Hk w' Hg') as [IH1 IH2].
  { apply (copies_same w); [done|]. eapply copies_sub; [|done]. set_solver. }
  destruct r as [d|].
  - rewrite (Hc o d (list_elem_of_here _ _)) by by apply Hr. rewrite Z.eqb_refl. by split; [left|].
  - split; [done|]. intros (x & Hx & Hrx). apply IH2. apply elem_of_cons in Hx as [->|Hx].
    + by apply Hrd in Hrx.
    + exists x. split; [done|]. by eapply readable_same.
Qed.

(** The objects that certainly answer, given the shards that are up. *)
Definition reachable (ups : list string) (w : W) (o : MetaObject) : bool :=
  bool_decide (mo_ShardID o ∈ ups) && bool_decide (is_Some (holds w (mo_ShardID o) (mo_Key o))).

Definition stored_at (w : W) (o : MetaObject) : bool :=
  bool_decide (is_Some (holds w (mo_ShardID o) (mo_Key o))).

Lemma count_valid_spec ups limit arrival count w :
  good w -> keyed arrival -> (forall sh, sh ∈ ups -> up w sh) -> count < limit ->
  exists c w', count_valid limit arrival count w = (Ok c, w') /\ good w' /\ same_world w w' /\
    c <= limit /\ c <= count + length (List.filter (stored_at w) arrival) /\
    (c = limit \/ count + length (List.filter (reachable ups w) arrival) <= c).
Proof using.
  revert count w; induction arrival as [|o arrival IH]; intros count w Hg Hk Hup Hlt; cbn [count_valid].
  { exists count, w. split_and!; try done; cbn; lia. }
  apply Forall_cons in Hk as [Hko Hk]. unfold pbind.
  destruct (object_valid_spec o w Hg Hko) as (b & w1 & -> & Hg1 & Hs1 & Hb & Hrd).
  assert (Hup1 : forall sh, sh ∈ ups -> up w1 sh) by (intros; by apply Hs1, Hup).
  assert (Hst : forall l, List.filter (stored_at w1) l = List.filter (stored_at w) l).
  { intros l. apply List.filter_ext. intros x. unfold stored_at. by rewrite (proj2 Hs1). }
  assert (Hre : forall l, List.filter (reachable ups w1) l = List.filter (reachable ups w) l).
  { intros l. apply List.filter_ext. intros x. unfold reachable. by rewrite (proj2 Hs1). }
  cbn [List.filter]. destruct b; cbn [negb].
  - assert (Hso : stored_at w o = true) by (apply bool_decide_eq_true; destruct Hb as [d ->]; eauto).
    rewrite Hso. cbn [length]. destruct (Nat.eqb_spec (S count) limit) as [E|E].
    + exists (S count), w1. split_and!; try done; lia.
    + destruct (IH (S count) w1 Hg1 Hk Hup1) as (c & w2 & -> & Hg2 & Hs2 & Hc1 & Hc2 & Hc3); [lia|].
      exists c, w2. rewrite Hst in Hc2. rewrite Hre in Hc3.
      split_and!; try done; [by etrans|lia|]. destruct (reachable ups w o); cbn [length]; lia.
  - assert (Hno : reachable ups w o = false).
    { apply not_true_iff_false. unfold reachable. rewrite andb_true_iff, !bool_decide_eq_true.
      intros [Hin [d Hd]]. specialize (Hrd d). assert (readable w o d) by (split; [by apply Hup|done]). by apply Hrd in H1. }
    rewrite Hno. destruct (IH count w1 Hg1 Hk Hup1) as (c & w2 & -> & Hg2 & Hs2 & Hc1 & Hc2 & Hc3); [lia|].
    exists c, w2. rewrite Hst in Hc2. rewrite Hre in Hc3.
    split_and!; try done; [by etrans|]. destruct (stored_at w o); cbn [length]; lia.
Qed.

Lemma splitObjects_spec arrival w :
  good w -> keyed arrival ->
  exists valid invalid w', splitObjects arrival w = (Ok (valid, invalid), w') /\ good w' /\ same_world w w' /\
    valid ++ invalid ⊆+ arrival /\ Forall (fun o => stored_at w o = true) valid.
Proof using.
  revert w; induction arrival as [|o arrival IH]; intros w Hg Hk; cbn [splitObjects].
  { exists [], [], w. split_and!; done. }
  apply Forall_cons in Hk as [Hko Hk].
  destruct (GetShard (mo_ShardID o) w) as [r1 w1] eqn:E1.
  destruct (shard_law _ _ _ _ E1 Hg) as (Hg1 & Hp1 & Hu1 & Hh1 & _).
  assert (Hs1 : same_world w w1) by done.
  destruct r1 as [[]|e|p]; [| |done].
  2: { destruct (IH w1 Hg1 Hk) as (v & iv & w2 & -> & Hg2 & Hs2 & Hsub & Hv).
       exists v, iv, w2. split_and!; try done; [by etrans|by apply submseteq_cons|].
       eapply Forall_impl; [exact Hv|]. intros x. unfold stored_at. by rewrite Hh1. }
  destruct (GetObjectStatus (mo_ShardID o) (mo_Key o) w1) as [r2 w2] eqn:E2.
  destruct (status_law _ _ _ _ _ E2 Hg1 Hko) as (Hg2 & Hp2 & Hu2 & Hh2 & Hok2 & _).
  assert (Hs2 : same_world w w2) by (split; intros; by rewrite ?Hu2, ?Hu1, ?Hh2, ?Hh1).
  destruct (IH w2 Hg2 Hk) as (v & iv & w3 & Hsp & Hg3 & Hs3 & Hsub & Hv).
  assert (Hs : same_world w w3) by (by etrans).
  assert (Hv' : Forall (fun o => stored_at w o = true) v).
  { eapply Forall_impl; [exact Hv|]. intros x. unfold stored_at. by rewrite (proj2 Hs2). }
  destruct r2 as [st|e|p]; [| |done]; unfold pbind; rewrite Hsp.
  - destruct st; eexists _, _, w3; (split; [reflexivity|]); split_and!; try done; try by apply submseteq_cons.
    + cbn. by apply submseteq_skip.
    + constructor; [|done]. apply bool_decide_eq_true. destruct Hok2 as [d Hd]; [done|]. rewrite <- Hh1. eauto.
  - eexists _, _, w3. split; [reflexivity|]. split_and!; try done.
    rewrite <- Permutation_middle. by apply submseteq_skip.
Qed.

Lemma repair_read_spec size objs data w :
  good w -> keyed objs -> copies w objs data -> size = Z.of_nat (length data) ->
  exists r rest w', repair_read size objs None w = (Ok (r, rest), w') /\ good w' /\ same_world w w' /\
    rest ⊆+ objs /\ (r = None \/ r = Some data).
Proof using.
  intros Hg Hk Hc ->. revert w Hg Hc; induction objs as [|o objs IH]; intros w Hg Hc; cbn [repair_read].
  { exists None, [], w. split_and!; auto; done. }
  apply Forall_cons in Hk as [Hko Hk].
  assert (Hnext : forall w', good w' -> same_world w w' ->
    exists r rest w2, repair_read (Z.of_nat (length data)) objs None w' = (Ok (r, rest), w2) /\ good w2 /\
      same_world w w2 /\ rest ⊆+ o :: objs /\ (r = None \/ r = Some data)).
  { intros w' Hg' Hs'. destruct (IH Hk w' Hg') as (r & rest & w2 & Hr & Hg2 & Hs2 & Hsub & Hres).
    { apply (copies_same w); [done|]. eapply copies_sub; [|done]. set_solver. }
    exists r, rest, w2. split_and!; try done; [by etrans|by apply submseteq_cons]. }
  destruct (GetShard (mo_ShardID o) w) as [r1 w1] eqn:E1.
  destruct (shard_law _ _ _ _ E1 Hg) as (Hg1 & Hp1 & Hu1 & Hh1 & _).
  destruct r1 as [[]|e|p]; [|by apply Hnext|done].
  destruct (GetObject (mo_ShardID o) (mo_Key o) w1) as [r2 w2] eqn:E2.
  destruct (get_law _ _ _ _ _ E2 Hg1 Hko) as (Hg2 & Hp2 & Hu2 & Hh2 & Hok2 & _).
  assert (Hs2 : same_world w w2) by (split; intros; by rewrite ?Hu2, ?Hu1, ?Hh2, ?Hh1).
  destruct r2 as [d|e|p]; [|by apply Hnext|done].
  rewrite (Hc o d (list_elem_of_here _ _)) by (rewrite <- Hh1; by apply Hok2). rewrite Z.eqb_refl. cbn [negb].
  exists (Some data), (o :: objs), w2. split_and!; auto; done.
Qed.
End Laws.
End Replicated.
