(* ===== verification/ReplicatedProps.v ===== *)
(** * Properties of the replicated storage

    Safety, liveness and termination of the parallel write, reading with lost
    copies, what a check means, and what a repair restores, with witnesses on a
    fleet of in-memory servers. *)

From S2P Require Import Prelude Encoding DB ServerAPI ServerProps Spread Fleet Replicated.
Import Spread.Spread Replicated.Replicated.
Open Scope nat_scope.

Section Properties.
Context `{ShardLaws W} (rs : ReplicatedChunkStorage).

(** C32. A replicated write that reports success has stored the chunk on exactly
    [dataShardCount] different shards, whatever the schedule and whichever
    calls failed, and reading it back succeeds with the data in every later
    world where at least one copy is readable, no matter how many of the others
    are lost.  A write that fails has stored fewer copies. *)
Theorem replicated_write_then_read (order : list string) (evs : list event) (data : bytes) (w w' : W)
    (cfg : ChunkConfig) (err : option error) :
  NoDup order -> good w -> 0 < dataShardCount rs -> WriteChunk rs order evs data w = Some ((cfg, err), w') ->
  NoDup (mo_ShardID <$> cfg_Objects cfg) /\ (forall o, o ∈ cfg_Objects cfg -> mo_ShardID o ∈ order) /\
  all_hold w' (cfg_Objects cfg) data /\
  (err = None <-> length (cfg_Objects cfg) = dataShardCount rs) /\
  (err <> None -> err = Some ErrShardsUnavailable /\ length (cfg_Objects cfg) < dataShardCount rs) /\
  (forall w2, good w2 -> copies w2 (cfg_Objects cfg) data ->
     (exists o, o ∈ cfg_Objects cfg /\ readable w2 o data) -> (ReadChunk cfg w2).1 = Ok data).
Proof using.
  intros Hnd Hg Hn Hw. unfold WriteChunk in Hw.
  destruct (write_spec rs _ _ _ _ _ _ _ _ Hnd Hg Hw) as (Hg' & Hsz & Hlen & Hsub & Hall & Herr & _).
  split_and!; try done.
  - by eapply submseteq_keeps_NoDup.
  - intros o Ho. eapply elem_of_submseteq; [|exact Hsub]. apply list_elem_of_fmap. by exists o.
  - intros Hne. assert (Hl : length (cfg_Objects cfg) <> dataShardCount rs) by (intros E; apply Hne; by apply Herr).
    split; [|lia]. unfold write in Hw. destruct (run _ _) as [s|]; [|done]. cbn [mbind option_bind] in Hw.
    destruct (finished s); [|done]. cbv zeta in Hw.
    destruct (_ <? _); injection Hw as <- <- _; done.
  - intros w2 Hg2 Hc (o & Ho & Hr). unfold ReadChunk.
    destruct (Nat.eqb_spec (length (cfg_Objects cfg)) 0) as [E|E].
    { apply length_zero_iff_nil in E. rewrite E in Ho. by apply not_elem_of_nil in Ho. }
    apply (read_objects_spec (cfg_Size cfg) (cfg_Objects cfg) data w2); try done.
    + eapply Forall_impl; [exact Hall|]. by intros x [].
    + by exists o.
Qed.

(** C33. The parallel write is live.  When at least [dataShardCount] of the
    shards that the iterator hands out work, no schedule of the worker
    goroutines, no order of the shards and no failure of the other shards makes
    the write fail; every schedule ends within a fixed number of steps, and a
    complete schedule exists, so the write does return. *)
Theorem replicated_write_is_live (order ups : list string) (data : bytes) (w : W) :
  NoDup order -> good w -> 0 < jobCount rs -> 0 < dataShardCount rs -> data <> [] ->
  (forall sh, sh ∈ ups -> up w sh) ->
  dataShardCount rs <= length (filter (fun sh => sh ∈ ups) order) ->
  (forall evs cfg err w', WriteChunk rs order evs data w = Some ((cfg, err), w') ->
     err = None /\ length evs <= 4 * dataShardCount rs + 2 * length order) /\
  (exists evs cfg w', WriteChunk rs order evs data w = Some ((cfg, None), w')).
Proof using.
  intros Hnd Hg Hj Hn Hd Hup Hlen.
  destruct (write_terminates rs order (dataShardCount rs) data w Hnd Hg) as [(evs & [[cfg err] w'] & Hw) Hbound].
  split.
  - intros evs' cfg' err' w2 Hw'. split; [by eapply (write_succeeds rs)|]. apply Hbound in Hw'. lia.
  - exists evs, cfg, w'. unfold WriteChunk. rewrite Hw.
    by rewrite (write_succeeds rs order evs (dataShardCount rs) data w cfg err w' ups).
Qed.

(** What a check of a chunk means, for any order in which the workers
    examine the objects.  A full check that answers optimal found
    [dataShardCount] stored objects; it does so whenever that many objects are
    stored on working shards; it answers invalid only when no stored object is
    on a working shard, and anything else only when some object is stored.  The
    fast check distinguishes the same chunks from invalid ones, and calls a
    chunk optimal only when one copy is all that is wanted. *)
Theorem replicated_check_sound (ups : list string) (arrival : list MetaObject) (cfg : ChunkConfig) (w : W) :
  good w -> keyed arrival -> arrival ≡ₚ cfg_Objects cfg -> arrival <> [] -> 0 < dataShardCount rs ->
  (forall sh, sh ∈ ups -> up w sh) ->
  let n := dataShardCount rs in
  let stored := length (List.filter (stored_at w) arrival) in
  let reach := length (List.filter (reachable ups w) arrival) in
  (exists st, (CheckChunk rs arrival cfg false w).1 = Ok st /\
     (st = CheckStatusOptimal -> n <= stored) /\ (n <= reach -> st = CheckStatusOptimal) /\
     (st = CheckStatusInvalid -> reach = 0) /\ (st <> CheckStatusInvalid -> 0 < stored)) /\
  (exists st, (CheckChunk rs arrival cfg true w).1 = Ok st /\
     (st = CheckStatusInvalid -> reach = 0) /\ (st <> CheckStatusInvalid -> 0 < stored) /\
     (st = CheckStatusOptimal -> n = 1)).
Proof using.
  intros Hg Hk Hperm Hne Hn Hup n stored reach. subst n stored reach. unfold CheckChunk.
  assert (Hl : (length (cfg_Objects cfg) =? 0) = false).
  { rewrite <- Hperm. by destruct arrival. }
  rewrite Hl. unfold pbind. split.
  - destruct (count_valid_spec ups (dataShardCount rs) arrival 0 w Hg Hk Hup Hn)
      as (c & w' & -> & _ & _ & Hc1 & Hc2 & Hc3).
    eexists. split; [done|].
    destruct (Nat.eqb_spec c (dataShardCount rs)), (Nat.ltb_spec 0 c); split_and!; intros; try done; lia.
  - destruct (count_valid_spec ups 1 arrival 0 w Hg Hk Hup ltac:(lia)) as (c & w' & -> & _ & _ & Hc1 & Hc2 & Hc3).
    eexists. split; [done|].
    destruct (Nat.eqb_spec c 0), (Nat.eqb_spec (dataShardCount rs) 1); split_and!; intros; try done; lia.
Qed.

(** The stored objects among copies of the data hold the data. *)
Lemma stored_objects_hold (objs v : list MetaObject) (data : bytes) (w w1 : W) :
  keyed objs -> copies w objs data -> NoDup (mo_ShardID <$> objs) ->
  same_world w w1 -> v ⊆+ objs -> Forall (fun o => stored_at w o = true) v ->
  all_hold w1 v data /\ NoDup (mo_ShardID <$> v).
Proof using.
  intros Hk Hcp Hnd Hs Hv Hst. split.
  - apply Forall_forall. intros o Ho. pose proof (elem_of_submseteq _ _ _ Ho Hv) as Ha. split.
    + unfold keyed in Hk. rewrite Forall_forall in Hk. by apply Hk.
    + rewrite Forall_forall in Hst. specialize (Hst o Ho). apply bool_decide_eq_true in Hst as [d Hd].
      rewrite (proj2 Hs), Hd. f_equal. by eapply Hcp.
  - eapply submseteq_keeps_NoDup; [exact Hnd|]. by apply fmap_submseteq.
Qed.

(** A repair that succeeds restores the chunk.  When every stored object of
    the chunk is a copy of the data, and the iterator leaves out the excepted
    shards, the returned configuration lists objects on different shards that
    all hold the data, at least [dataShardCount] of them, unless the chunk had
    a single object, which is returned as it is. *)
Theorem replicated_repair_restores (arrival : list MetaObject) (iter : list string -> list string)
    (evs : list event) (cfg cfg' : ChunkConfig) (data : bytes) (w w' : W) :
  good w -> arrival ≡ₚ cfg_Objects cfg -> keyed arrival -> copies w arrival data ->
  cfg_Size cfg = Z.of_nat (length data) -> NoDup (mo_ShardID <$> arrival) ->
  (forall except, NoDup (iter except) /\ forall sh, sh ∈ except -> sh ∉ iter except) ->
  RepairChunk rs arrival iter evs cfg w = Some (Ok (Some cfg', None), w') ->
  cfg_Size cfg' = cfg_Size cfg /\ all_hold w' (cfg_Objects cfg') data /\
  NoDup (mo_ShardID <$> cfg_Objects cfg') /\
  ((length (cfg_Objects cfg) = 1 /\ cfg' = cfg) \/ dataShardCount rs <= length (cfg_Objects cfg')).
Proof using.
  intros Hg Hperm Hk Hcp Hsz Hnd Hiter Hrep. unfold RepairChunk in Hrep.
  pose proof (fun v w1 => stored_objects_hold arrival v data w w1 Hk Hcp Hnd) as Hone.
  destruct (cfg_Objects cfg) as [|o [|o2 rest]] eqn:Hobjs; [done| |].
  - assert (Ha : arrival = [o]) by (by apply Permutation_singleton_r in Hperm). subst arrival.
    apply Forall_cons in Hk as Hk'. destruct (object_valid_spec o w Hg (proj1 Hk')) as (b & w1 & Hv & _ & Hs & Hb & _).
    rewrite Hv in Hrep. destruct b; [|done]. unfold returns in Hrep. simplify_eq. rewrite Hobjs.
    destruct (Hone [o] _ Hs) as [? ?]; [done| |by split_and!; auto].
    constructor; [|done]. apply bool_decide_eq_true. destruct (Hb eq_refl) as [d Hd]. by exists d.
  - destruct (splitObjects_spec arrival w Hg Hk) as (v & iv & w1 & Hsp & Hg1 & Hs1 & Hsub & Hst).
    rewrite Hsp in Hrep.
    assert (Hv : v ⊆+ arrival) by (etrans; [|exact Hsub]; by apply submseteq_inserts_r).
    destruct (length v =? 0); [done|].
    destruct (Nat.leb_spec (dataShardCount rs) (length v)).
    { unfold returns in Hrep. simplify_eq/=. destruct (Hone v _ Hs1 Hv Hst) as [? ?]. split_and!; auto. }
    destruct (repair_read_spec (cfg_Size cfg) v data w1) as (r & v' & w2 & Hrr & Hg2 & Hs2 & Hsub' & Hr); try done.
    { unfold keyed in Hk |- *. rewrite Forall_forall in Hk |- *. intros x Hx. apply Hk. by eapply elem_of_submseteq. }
    { apply (copies_same w); [done|]. eapply copies_sub; [|exact Hcp]. intros x Hx. by eapply elem_of_submseteq. }
    rewrite Hrr in Hrep. destruct Hr as [->| ->]; [done|].
    set (except := (mo_ShardID <$> iv) ++ (mo_ShardID <$> v')) in *.
    destruct (write rs (iter except) evs _ data w2) as [[[oc err] w3]|] eqn:Hwr; [|done].
    destruct (Hiter except) as [Hnd' Hex].
    destruct (write_spec rs _ _ _ _ _ _ _ _ Hnd' Hg2 Hwr) as (Hg3 & Hosz & _ & Hosub & Hoall & Hoerr & Hokeep).
    cbn [mbind option_bind] in Hrep. destruct err as [e|]; [done|]. cbv zeta in Hrep.
    destruct (_ <? dataShardCount rs); [done|]. unfold returns in Hrep. simplify_eq/=.
    assert (Hv' : v' ⊆+ arrival) by (by etrans).
    assert (Hst' : Forall (fun o => stored_at w o = true) v').
    { rewrite Forall_forall in Hst |- *. intros x Hx. apply Hst. by eapply elem_of_submseteq. }
    destruct (Hone v' w2 ltac:(by etrans) Hv' Hst') as [Hall' Hnd2]. split_and!.
    + congruence.
    + apply Forall_app. split; [|done]. unfold all_hold in Hall'. rewrite Forall_forall in Hall' |- *.
      intros x Hx. destruct (Hall' x Hx) as [? Hh]. split; [done|]. apply Hokeep; [|done].
      apply Hex. unfold except. apply elem_of_app. right. apply list_elem_of_fmap. by exists x.
    + rewrite fmap_app. apply NoDup_app. split_and!; [done| |exact (submseteq_keeps_NoDup _ _ Hnd' Hosub)].
      intros sh Hin Hin'. pose proof (elem_of_submseteq _ _ _ Hin' Hosub) as Hio. revert Hio. apply Hex.
      unfold except. apply elem_of_app. by right.
    + right. rewrite length_app, (proj1 Hoerr eq_refl). lia.
Qed.

(** A chunk with at least two but fewer than [dataShardCount] objects is
    never repaired: the last test looks at the configuration that was given
    instead of the one that was made, so the repair returns an error whatever
    the shards do, also when it just wrote all the missing copies. *)
Theorem replicated_repair_rejects_short_config (arrival : list MetaObject) (iter : list string -> list string)
    (evs : list event) (cfg : ChunkConfig) (w w' : W) (res : option ChunkConfig * option error) :
  good w -> arrival ≡ₚ cfg_Objects cfg -> keyed arrival ->
  1 < length (cfg_Objects cfg) < dataShardCount rs ->
  RepairChunk rs arrival iter evs cfg w = Some (Ok res, w') -> exists e, res.2 = Some e.
Proof using.
  intros Hg Hperm Hk Hlen Hrep. unfold RepairChunk in Hrep.
  destruct (cfg_Objects cfg) as [|o [|o2 rest]] eqn:Hobjs; cbn [length] in Hlen; [lia..|].
  destruct (splitObjects_spec arrival w Hg Hk) as (v & iv & w1 & Hsp & _ & _ & Hsub & _). rewrite Hsp in Hrep.
  assert (Hv : length v < dataShardCount rs).
  { apply submseteq_length in Hsub. rewrite length_app in Hsub. apply Permutation_length in Hperm. cbn in *. lia. }
  unfold returns in Hrep. destruct (length v =? 0); [simplify_eq; by eexists|].
  destruct (Nat.leb_spec (dataShardCount rs) (length v)); [lia|].
  destruct (repair_read _ v None w1) as [[[[d|] v']|e|p] w2]; [|simplify_eq; by eexists..|done].
  destruct (write _ _ _ _ _ _) as [[[oc err] w3]|]; [|done]. cbn [mbind option_bind] in Hrep.
  destruct err as [e|]; [simplify_eq; by eexists|]. cbv zeta in Hrep.
  destruct (Nat.ltb_spec (length (o :: o2 :: rest)) (dataShardCount rs)); [simplify_eq; by eexists|cbn in *; lia].
Qed.
End Properties.

(** ** Witnesses: three servers, [b] is down *)
Definition two_copies : ReplicatedChunkStorage := {| dataShardCount := 2; jobCount := 4; writeJobCount := 4 |}.

Definition demo_order : list string := ["b"; "a"; "c"]%string.

(** Both workers take a request; the first tries [b] in vain, then gets [c]. *)
Definition demo_schedule : list event :=
  [EvJob 0; EvJob 1; EvShard 0; EvCreate 0; EvShard 1; EvShard 0; EvCreate 0; EvCreate 1; EvSend 1; EvSend 0;
   EvJob 0; EvJob 1].

Definition demo_write : (ChunkConfig * option error) * FleetOf Memory.MemDB Z :=
  match WriteChunk two_copies demo_order demo_schedule (str_bytes "v") demo_fleet with
  | Some r => r
  | None => (({| cfg_Size := 0; cfg_Objects := [] |}, None), demo_fleet)
  end.

Definition demo_cfg : ChunkConfig := demo_write.1.1.

Lemma demo_write_run :
  WriteChunk two_copies demo_order demo_schedule (str_bytes "v") demo_fleet = Some ((demo_cfg, None), demo_write.2).
Proof. vm_compute. reflexivity. Qed.

Lemma demo_order_nodup : NoDup demo_order.
Proof. unfold demo_order. repeat constructor; set_solver. Qed.

Lemma replicated_write_then_read_witness :
  length (cfg_Objects demo_cfg) = 2 /\ (ReadChunk demo_cfg demo_write.2).1 = Ok (str_bytes "v").
Proof.
  destruct (replicated_write_then_read two_copies demo_order demo_schedule (str_bytes "v") demo_fleet demo_write.2
    demo_cfg None demo_order_nodup demo_good ltac:(cbn; lia) demo_write_run) as (_ & _ & Hall & Hlen & _ & Hread).
  split; [by apply Hlen|]. apply Hread.
  - intros sh s _. exact I.
  - intros o d Ho Hd. unfold all_hold in Hall. rewrite Forall_forall in Hall.
    destruct (Hall o Ho) as [_ E]. rewrite E in Hd. by injection Hd.
  - exists {| mo_Key := le_put 8 0; mo_ShardID := "a" |}. split.
    + vm_compute. apply list_elem_of_here.
    + split; [eexists; vm_compute; reflexivity|vm_compute; reflexivity].
Defined.

Lemma replicated_write_is_live_witness :
  exists evs cfg w', WriteChunk two_copies demo_order evs (str_bytes "v") demo_fleet = Some ((cfg, None), w').
Proof.
  apply (replicated_write_is_live two_copies demo_order ["a"; "c"]%string (str_bytes "v") demo_fleet).
  - exact demo_order_nodup.
  - exact demo_good.
  - cbn. lia.
  - cbn. lia.
  - done.
  - exact demo_up.
  - vm_compute. lia.
Defined.

Lemma demo_keyed : keyed (cfg_Objects demo_cfg).
Proof. vm_compute. repeat constructor; discriminate. Qed.

Lemma demo_up_after sh : sh ∈ ["a"; "c"]%string -> up demo_write.2 sh.
Proof.
  intros Hin. apply elem_of_cons in Hin as [->|Hin]; [eexists; vm_compute; reflexivity|].
  apply list_elem_of_singleton in Hin as ->. eexists; vm_compute; reflexivity.
Qed.

Lemma replicated_check_sound_witness :
  exists st, (CheckChunk two_copies (cfg_Objects demo_cfg) demo_cfg false demo_write.2).1 = Ok st /\
    st = CheckStatusOptimal.
Proof.
  destruct (replicated_check_sound two_copies ["a"; "c"]%string (cfg_Objects demo_cfg) demo_cfg demo_write.2)
    as [(st & Hst & _ & Hopt & _) _].
  - intros sh s _. exact I.
  - exact demo_keyed.
  - reflexivity.
  - vm_compute. discriminate.
  - cbn. lia.
  - exact demo_up_after.
  - exists st. split; [exact Hst|]. apply Hopt. vm_compute. lia.
Defined.

Lemma demo_copies : copies demo_write.2 (cfg_Objects demo_cfg) (str_bytes "v").
Proof.
  intros o d Ho Hd. destruct (write_spec two_copies demo_order demo_schedule 2 (str_bytes "v") demo_fleet demo_cfg None
    demo_write.2 demo_order_nodup demo_good demo_write_run) as (_ & _ & _ & _ & Hall & _).
  unfold all_hold in Hall. rewrite Forall_forall in Hall. destruct (Hall o Ho) as [_ E]. rewrite E in Hd. by injection Hd.
Qed.

Lemma replicated_repair_restores_witness :
  exists cfg' w', RepairChunk two_copies (cfg_Objects demo_cfg) (fun _ => []) [] demo_cfg demo_write.2
      = Some (Ok (Some cfg', None), w') /\ 2 <= length (cfg_Objects cfg').
Proof.
  eexists _, _. split; [vm_compute; reflexivity|].
  destruct (replicated_repair_restores two_copies (cfg_Objects demo_cfg) (fun _ => []) [] demo_cfg
    {| cfg_Size := 1; cfg_Objects := cfg_Objects demo_cfg |} (str_bytes "v") demo_write.2 demo_write.2)
    as (_ & _ & _ & Hlen).
  - intros sh s _. exact I.
  - reflexivity.
  - exact demo_keyed.
  - exact demo_copies.
  - vm_compute. reflexivity.
  - vm_compute. repeat constructor; set_solver.
  - intros except. split; [constructor|]. intros sh _. apply not_elem_of_nil.
  - vm_compute. reflexivity.
  - destruct Hlen as [[Hl _]|Hlen]; [vm_compute in Hl; discriminate|exact Hlen].
Defined.

(** Three copies are wanted, the configuration has two. *)
Definition three_copies : ReplicatedChunkStorage := {| dataShardCount := 3; jobCount := 4; writeJobCount := 4 |}.

(** The third copy goes to a fourth server, and the repair still fails. *)
Definition four_servers : FleetOf Memory.MemDB Z := <["d"%string := (true, (Memory.New, ∅))]> demo_write.2.

Lemma replicated_repair_rejects_short_config_witness :
  exists res w', RepairChunk three_copies (cfg_Objects demo_cfg) (fun _ => ["d"%string])
      [EvJob 0; EvShard 0; EvCreate 0; EvSend 0; EvJob 0] demo_cfg four_servers = Some (Ok res, w') /\
    (exists cfg', res.1 = Some cfg' /\ length (cfg_Objects cfg') = 3) /\ exists e, res.2 = Some e.
Proof.
  eexists _, _. split; [vm_compute; reflexivity|]. split; [eexists; split; vm_compute; reflexivity|].
  eapply (replicated_repair_rejects_short_config three_copies (cfg_Objects demo_cfg) (fun _ => ["d"%string])
    [EvJob 0; EvShard 0; EvCreate 0; EvSend 0; EvJob 0] demo_cfg four_servers).
  - intros sh s _. exact I.
  - reflexivity.
  - exact demo_keyed.
  - vm_compute. lia.
  - vm_compute. reflexivity.
Defined.

Lemma random_write_then_read_witness :
  exists o cfg w', Random.WriteChunk ["b"; "a"]%string (str_bytes "v") demo_fleet = (Ok cfg, w') /\
    cfg_Objects cfg = [o] /\ holds w' (mo_ShardID o) (mo_Key o) = Some (str_bytes "v").
Proof.
  destruct (Random.random_write_then_read ["b"; "a"]%string (str_bytes "v") true demo_fleet demo_good ltac:(done))
    as (o & cfg & w' & Hw & Ho & _ & Hh & _).
  - exists "a"%string. split; [set_solver|]. apply demo_up. set_solver.
  - exists o, cfg, w'. split; [exact Hw|]. split; [exact Ho|exact Hh].
Defined.
