(* ===== verification/Distributed.v ===== *)
(** * Distributed chunk storage ([pipeline/storage/distributed.go])

    A chunk is padded, split into data parts, extended with parity parts and
    spread over as many shards; any [dataShardCount] parts give it back.  The
    two calls of the Reed-Solomon library are parameters here, and [ErasureCode]
    states what it documents; [ErasureProps] shows that the library does so.  [ReedSolomon] models the encoder
    and decoder around it, [Distributed] the storage. *)

From S2P Require Import Prelude Encoding Spread Replicated.
Import Encoding.Buffer Spread.Spread.
Open Scope nat_scope.

(** ** The erasure-code library

    A matrix is a list of rows; an empty row is a missing one.  [Encode] fills
    the parity rows, [ReconstructData] restores the missing data rows when
    enough rows are present. *)
Record EncodeReconster := {
  er_Encode : list bytes -> outcome (list bytes);
  er_ReconstructData : list bytes -> outcome (list bytes);
}.

(** [reedsolomon.NewMatrix] *)
Definition NewMatrix (rows cols : nat) : list bytes := replicate rows (Encoding.Encoding.zeros cols).

Definition present (parts : list bytes) : nat := length (List.filter (fun p => negb (length p =? 0)) parts).

(** [got] has each row of [enc] or misses it. *)
Definition partial (enc got : list bytes) : Prop :=
  length got = length enc /\ forall i p, got !! i = Some p -> p = [] \/ enc !! i = Some p.

Class ErasureCode (er : EncodeReconster) (d p : nat) := {
  encode_law rows size : length rows = d -> Forall (fun r => length r = size) rows -> 0 < size ->
    exists parities, er_Encode er (rows ++ NewMatrix p size) = Ok (rows ++ parities) /\
      length parities = p /\ Forall (fun r => length r = size) parities;
  reconstruct_law rows size parities got :
    length rows = d -> Forall (fun r => length r = size) rows -> 0 < size ->
    er_Encode er (rows ++ NewMatrix p size) = Ok (rows ++ parities) ->
    partial (rows ++ parities) got -> d <= present got ->
    exists full, er_ReconstructData er got = Ok full /\ take d full = rows;
}.

Module ReedSolomon.

Record ReedSolomonEncoderDecoder := {
  dataShardCount : nat;
  parityShardCount : nat;
  shardCount : nat;
  er : EncodeReconster;
}.

(** [New] is the constructor of the library. *)
Definition NewReedSolomonEncoderDecoder (New : Z -> Z -> outcome EncodeReconster)
    (dataShardCount parityShardCount : Z) : outcome ReedSolomonEncoderDecoder :=
  if (dataShardCount <? 1)%Z then Err (ErrNew "dataShardCount has to be at least 1")
  else if (parityShardCount <? 1)%Z then Err (ErrNew "parityShardCount has to be at least 1")
  else
    let! er := New dataShardCount parityShardCount in
    Ok {| dataShardCount := Z.to_nat dataShardCount; parityShardCount := Z.to_nat parityShardCount;
          shardCount := Z.to_nat (dataShardCount + parityShardCount); er := er |}.

Section Operations.
Context (rs : ReedSolomonEncoderDecoder).

Definition getPadLen (dataLen : nat) : nat :=
  let padFactor := 256 in
  let maxPadLen := dataShardCount rs * padFactor in
  let mod_ := dataLen mod maxPadLen in
  if mod_ =? 0 then 0 else maxPadLen - mod_.

Definition padIfNeeded (data : bytes) : bytes :=
  let padLen := getPadLen (length data) in
  if padLen =? 0 then data else data ++ Encoding.Encoding.zeros padLen.

Definition splitData (data : bytes) : list bytes :=
  let data := padIfNeeded data in
  let chunkSize := length data / dataShardCount rs in
  (fun i => take chunkSize (drop (i * chunkSize) data)) <$> seq 0 (dataShardCount rs).

Definition Encode (data : bytes) : outcome (list bytes) :=
  if length data =? 0 then Err (ErrNew "no data given to encode")
  else
    let parts := splitData data in
    match parts with
    | [] => Panic "index out of range"
    | first :: _ =>
        let parities := NewMatrix (parityShardCount rs) (length first) in
        er_Encode (er rs) (parts ++ parities)
    end.

(** The loop that copies the data parts one after the other into the result;
    [i] parts are left. *)
Fixpoint copy_parts (i : nat) (parts : list bytes) (offset : nat) (data : bytes) : outcome bytes :=
  match i with
  | O => Ok data
  | S i' =>
      match parts with
      | [] => Panic "index out of range"
      | p :: parts' =>
          let data := copy_at data offset (length data - offset) p in
          let offset := offset + length p in
          if length data <=? offset then Ok data else copy_parts i' parts' offset data
      end
  end.

Definition Decode (parts : list bytes) (dataSize : Z) : outcome bytes :=
  if negb (length parts =? shardCount rs) then Err (ErrNew "unexpected amount of parts given to decode")
  else
    let! parts := er_ReconstructData (er rs) parts in
    if (dataSize <? 0)%Z then Panic "makeslice: len out of range"
    else copy_parts (dataShardCount rs) parts 0 (Encoding.Encoding.zeros (Z.to_nat dataSize)).

Definition MinimumValidShardCount : nat := dataShardCount rs.
Definition RequiredShardCount : nat := shardCount rs.
End Operations.

(** *** Padding and splitting *)
(** Consecutive windows of equal size are the list. *)
Lemma windows_concat (c n : nat) (l : bytes) :
  length l = n * c -> concat ((fun i => take c (drop (i * c) l)) <$> seq 0 n) = l.
Proof.
  revert l; induction n as [|n IH]; intros l Hl; [by apply length_zero_iff_nil in Hl as ->|].
  cbn [seq fmap list_fmap concat]. cbn [Nat.mul]. rewrite drop_0.
  rewrite <- seq_shift, <- list_fmap_compose.
  transitivity (take c l ++ drop c l); [f_equal|apply take_drop].
  etrans; [|apply (IH (drop c l)); rewrite length_drop; lia]. f_equal. apply list_fmap_ext.
  intros _ i _. unfold compose. by rewrite drop_drop.
Qed.

(** The copy loop puts as much of the parts as fits behind the bytes it has. *)
Lemma copy_parts_spec parts done_ rest :
  0 < length rest -> length rest <= length (concat parts) ->
  copy_parts (length parts) parts (length done_) (done_ ++ rest) =
    Ok (done_ ++ take (length rest) (concat parts)).
Proof.
  revert done_ rest; induction parts as [|p parts IH]; intros done_ rest Hr Hl; cbn [concat length] in *; [lia|].
  cbn [copy_parts]. unfold copy_at. cbv zeta. rewrite !(length_app done_).
  replace (length done_ + length rest - length done_) with (length rest) by lia.
  rewrite take_app_length, drop_app_add, !length_app, length_take, length_drop.
  destruct (Nat.leb_spec (length done_ + (Nat.min (Nat.min (length rest) (length p)) (length p) +
    (length rest - Nat.min (length rest) (length p)))) (length done_ + length p)) as [Hle|Hgt].
  - rewrite (Nat.min_l (length rest)) by lia. rewrite drop_ge by lia. rewrite app_nil_r, take_app_le by lia. done.
  - rewrite Nat.min_r by lia. rewrite firstn_all.
    rewrite <- length_app. rewrite (app_assoc done_ p).
    rewrite IH; rewrite ?length_drop, ?length_app in *; [|lia|lia].
    rewrite <- app_assoc, (take_app_ge p) by lia. done.
Qed.

Section Lemmas.
Context (rs : ReedSolomonEncoderDecoder).
Context (Hd : 0 < dataShardCount rs).

Lemma padded_length data :
  data <> [] -> exists q, length (padIfNeeded rs data) = dataShardCount rs * (256 * q) /\ 0 < q.
Proof using Hd.
  intros Hne. unfold padIfNeeded, getPadLen. set (m := dataShardCount rs * 256).
  assert (Hm : m <> 0) by (unfold m; lia).
  assert (Hl : 0 < length data) by (destruct data; cbn; [done|lia]).
  pose proof (Nat.div_mod_eq (length data) m) as Hdm. pose proof (Nat.mod_upper_bound (length data) m Hm).
  destruct (Nat.eqb_spec (length data mod m) 0) as [E|E]; cbn [Nat.eqb].
  - exists (length data / m). unfold m in *. split; [lia|]. destruct (length data / _); lia.
  - destruct (Nat.eqb_spec (m - length data mod m) 0); [lia|].
    exists (S (length data / m)). rewrite length_app, Encoding.Encoding.length_zeros. unfold m in *. split; lia.
Qed.

Lemma padded_take data : take (length data) (padIfNeeded rs data) = data.
Proof using. unfold padIfNeeded. case_match; [apply firstn_all|apply take_app_length]. Qed.

Lemma splitData_spec data :
  data <> [] ->
  exists size, 0 < size /\ length (splitData rs data) = dataShardCount rs /\
    Forall (fun r => length r = size) (splitData rs data) /\
    take (length data) (concat (splitData rs data)) = data.
Proof using Hd.
  intros Hne. destruct (padded_length data Hne) as (q & Hq & Hpos). exists (256 * q).
  assert (Hc : length (padIfNeeded rs data) / dataShardCount rs = 256 * q).
  { rewrite Hq, (Nat.mul_comm (dataShardCount rs)). apply Nat.div_mul. lia. }
  unfold splitData. cbv zeta. rewrite Hc. split_and!; [lia| | |].
  - by rewrite length_fmap, length_seq.
  - apply Forall_fmap, Forall_forall. intros i Hi. apply elem_of_seq in Hi. cbn.
    rewrite length_take, length_drop, Hq. nia.
  - rewrite windows_concat by (rewrite Hq; lia). apply padded_take.
Qed.

Context `{!ErasureCode (er rs) (dataShardCount rs) (parityShardCount rs)}.
Context (Hcount : shardCount rs = dataShardCount rs + parityShardCount rs).

(** Encoding succeeds, and decoding any large enough part of the result gives
    the data back. *)
Lemma encode_decode data :
  data <> [] ->
  exists parts, Encode rs data = Ok parts /\ length parts = shardCount rs /\
    Forall (fun p => p <> []) parts /\
    (forall got, partial parts got -> dataShardCount rs <= present got ->
       Decode rs got (Z.of_nat (length data)) = Ok data).
Proof using All.
  intros Hne. destruct (splitData_spec data Hne) as (size & Hpos & Hlen & Hrows & Htake).
  destruct (encode_law (splitData rs data) size Hlen Hrows Hpos) as (parities & Henc & Hpl & Hps).
  exists (splitData rs data ++ parities). split_and!.
  - unfold Encode. destruct (Nat.eqb_spec (length data) 0) as [E|_]; [by apply length_zero_iff_nil in E|].
    destruct (splitData rs data) as [|first rest] eqn:Hs; [cbn in Hlen; lia|].
    apply Forall_cons in Hrows as [-> _]. exact Henc.
  - rewrite length_app. lia.
  - apply Forall_app. split; (eapply Forall_impl; [eassumption|]); intros p Hp ->; cbn in Hp; lia.
  - intros got Hgot Hpres. unfold Decode. destruct Hgot as [Hgl Hgot].
    rewrite Hgl, length_app, Hlen, Hpl, Hcount, Nat.eqb_refl. cbn [negb].
    destruct (reconstruct_law (splitData rs data) size parities got) as (full & -> & Hfull); try done.
    cbn [obind]. destruct (Z.ltb_spec (Z.of_nat (length data)) 0); [lia|]. rewrite Nat2Z.id.
    pose proof (take_drop (dataShardCount rs) full) as Hsplit. rewrite Hfull in Hsplit.
    rewrite <- Hsplit, <- Hlen at 1.
    assert (Hgen : forall i ps extra off dt, i = length ps ->
      copy_parts i (ps ++ extra) off dt = copy_parts i ps off dt).
    { clear. induction i as [|i IH]; intros [|p ps] extra off dt E; try done. cbn in *. destruct (_ <=? _); [done|].
      apply IH. lia. }
    rewrite Hgen by done.
    pose proof (copy_parts_spec (splitData rs data) [] (Encoding.Encoding.zeros (length data))) as Hcp.
    cbn [app length] in Hcp. rewrite Encoding.Encoding.length_zeros in Hcp. rewrite Hcp, Htake; [done| |].
    + destruct data; cbn; [done|lia].
    + rewrite <- Htake at 1. rewrite length_take. lia.
Qed.
End Lemmas.
End ReedSolomon.

Module Distributed.
Import ReedSolomon.

Record DistributedChunkStorage := { dec : ReedSolomonEncoderDecoder; jobCount : nat }.

Definition NewDistributedChunkStorageWithEncoderDecoder (DefaultJobCount : nat)
    (dec : ReedSolomonEncoderDecoder) (jobCount : Z) : DistributedChunkStorage :=
  {| dec := dec; jobCount := if (jobCount <? 1)%Z then DefaultJobCount else Z.to_nat jobCount |}.

Definition NewDistributedChunkStorage (New : Z -> Z -> outcome EncodeReconster)
    (DefaultJobCount listedShardCount : nat) (dataShardCount parityShardCount jobCount : Z)
    : outcome DistributedChunkStorage :=
  if (Z.of_nat listedShardCount <? dataShardCount + parityShardCount)%Z
  then Err (ErrNew "DistributedChunkStorage requires at least dataShardCount+parityShardCount amount of listed datastor shards")
  else
    match NewReedSolomonEncoderDecoder New dataShardCount parityShardCount with
    | Err e => Err (ErrNew ("failed to create DistributedChunkStorage: " +:+ error_text e))
    | Panic p => Panic p
    | Ok dec => Ok (NewDistributedChunkStorageWithEncoderDecoder DefaultJobCount dec jobCount)
    end.

Section Operations.
Context `{ShardOps W} (ds : DistributedChunkStorage).

(** The zero value of [metatypes.Object]. *)
Definition no_object : MetaObject := {| mo_Key := []; mo_ShardID := EmptyString |}.

(** The collector puts every object into the slot of its part. *)
Definition slots (n : nat) (rs : list (job * MetaObject)) : list MetaObject :=
  foldl (fun objects r => <[job_index r.1 := r.2]> objects) (replicate n no_object) rs.

Definition jobs_of (parts : list bytes) : list job :=
  imap (fun index part => {| job_index := index; job_data := part |}) parts.

(** [order] is what the iterator hands out, [evs] the schedule.  [None] when
    [evs] is not a complete run. *)
Definition WriteChunk (order : list string) (evs : list event) (data : bytes) (w : W)
  : option (outcome (option ChunkConfig * option error) * W) :=
  match Encode (dec ds) data with
  | Err e => Some (Ok (None, Some e), w)
  | Panic p => Some (Panic p, w)
  | Ok parts =>
      let partsCount := length parts in
      let workers := if partsCount <? jobCount ds then partsCount else jobCount ds in
      s ← run evs (init workers (jobs_of parts) order w);
      if finished s then
        let cfg := {| cfg_Size := Z.of_nat (length data); cfg_Objects := slots partsCount (results s) |} in
        let resultCount := length (results s) in
        Some (Ok (Some cfg, if resultCount <? partsCount then Some ErrShardsUnavailable else None), world s)
      else None
  end.

(** The collector of [ReadChunk], when the workers deliver the objects in the
    order [arrival] of their indices. *)
Fixpoint collect (minimumShardCount : nat) (objs : list MetaObject) (arrival : list nat)
    (parts : list bytes) (resultCount : nat) : prog W (list bytes * nat) :=
  match arrival with
  | [] => pret (parts, resultCount)
  | index :: rest =>
      match objs !! index with
      | None => ppanic "index out of range"
      | Some obj =>
          do! r := try_read obj in
          match r with
          | None => collect minimumShardCount objs rest parts resultCount
          | Some data =>
              let parts := <[index := data]> parts in
              if S resultCount =? minimumShardCount then pret (parts, S resultCount)
              else collect minimumShardCount objs rest parts (S resultCount)
          end
      end
  end.

Definition ReadChunk (arrival : list nat) (cfg : ChunkConfig) : prog W bytes :=
  let requiredObjectCount := RequiredShardCount (dec ds) in
  if negb (requiredObjectCount =? length (cfg_Objects cfg)) then pfail ErrUnexpectedObjectCount
  else
    let minimumShardCount := MinimumValidShardCount (dec ds) in
    do! (parts, resultCount) :=
      collect minimumShardCount (cfg_Objects cfg) arrival (replicate requiredObjectCount []) 0 in
    if resultCount <? minimumShardCount then pfail ErrShardsUnavailable
    else
      do! data := plift (Decode (dec ds) parts (cfg_Size cfg)) in
      if negb (Z.of_nat (length data) =? cfg_Size cfg)%Z then pfail ErrInvalidDataSize else pret data.

(** Every request accounts for one valid object, so at most
    [searchObjectCount] are counted. *)
Definition CheckChunk (arrival : list MetaObject) (cfg : ChunkConfig) (fast : bool) : prog W CheckStatus :=
  let requiredObjectCount := RequiredShardCount (dec ds) in
  if negb (requiredObjectCount =? length (cfg_Objects cfg)) then pfail ErrUnexpectedObjectCount
  else
    let minimumValidObjectCount := MinimumValidShardCount (dec ds) in
    let searchObjectCount := if fast then minimumValidObjectCount else requiredObjectCount in
    do! validObjectCount := Replicated.count_valid searchObjectCount arrival 0 in
    pret (if validObjectCount =? requiredObjectCount then CheckStatusOptimal
          else if minimumValidObjectCount <=? validObjectCount then CheckStatusValid
          else CheckStatusInvalid).

(** The same code as in the replicated storage. *)
Definition DeleteChunk (extra : nat) (arrival : list MetaObject) (cfg : ChunkConfig) : prog W unit :=
  Replicated.DeleteChunk extra arrival cfg.

Definition RepairChunk (arrival : list nat) (order : list string) (evs : list event) (cfg : ChunkConfig) (w : W)
  : option (outcome (option ChunkConfig * option error) * W) :=
  match ReadChunk arrival cfg w with
  | (Err e, w1) => Some (Ok (None, Some e), w1)
  | (Panic p, w1) => Some (Panic p, w1)
  | (Ok obj, w1) => WriteChunk order evs obj w1
  end.
End Operations.

(** *** Lemmas *)
Section Lemmas.
Context `{ShardLaws W} (ds : DistributedChunkStorage).

Lemma jobs_of_lookup parts j : j ∈ jobs_of parts <-> parts !! job_index j = Some (job_data j).
Proof using.
  unfold jobs_of. rewrite list_elem_of_lookup. setoid_rewrite list_lookup_imap. split.
  - intros (i & Hi). destruct (parts !! i) eqn:E; [|done]. by injection Hi as <-.
  - intros Hj. exists (job_index j). rewrite Hj. by destruct j.
Qed.

Lemma jobs_of_indices parts : job_index <$> jobs_of parts = seq 0 (length parts).
Proof using.
  unfold jobs_of. rewrite fmap_imap. apply list_eq. intros i. rewrite list_lookup_imap.
  destruct (decide (i < length parts)) as [Hi|Hi].
  - rewrite lookup_seq_lt by done. by destruct (lookup_lt_is_Some_2 parts i Hi) as [p ->].
  - rewrite lookup_seq_ge by lia. by rewrite lookup_ge_None_2 by lia.
Qed.

Lemma length_jobs_of parts : length (jobs_of parts) = length parts.
Proof using. apply length_imap. Qed.

(** Results of different jobs land in their slots. *)
Lemma slots_lookup n rs i o :
  NoDup (job_index <$> rs.*1) -> Forall (fun r => job_index r.1 < n) rs ->
  (exists j, (j, o) ∈ rs /\ job_index j = i) -> slots n rs !! i = Some o.
Proof using.
  intros Hnd Hlt. unfold slots.
  assert (Hgen : forall l acc, NoDup (job_index <$> l.*1) -> length acc = n ->
    Forall (fun r : job * MetaObject => job_index r.1 < n) l ->
    length (foldl (fun objects r => <[job_index r.1 := r.2]> objects) acc l) = n /\
    (i ∉ (job_index <$> l.*1) -> foldl (fun objects r => <[job_index r.1 := r.2]> objects) acc l !! i = acc !! i) /\
    ((exists j, (j, o) ∈ l /\ job_index j = i) ->
       foldl (fun objects r => <[job_index r.1 := r.2]> objects) acc l !! i = Some o)).
  { clear. induction l as [|[j o'] l IH]; intros acc Hnd Hlen Hl; cbn [foldl].
    { split_and!; try done. intros (j & Hj & _). by apply not_elem_of_nil in Hj. }
    cbn [fmap list_fmap fst] in Hnd. apply NoDup_cons in Hnd as [Hni Hnd]. apply Forall_cons in Hl as [Hj Hl].
    destruct (IH (<[job_index j := o']> acc) Hnd) as (IH1 & IH2 & IH3); [by rewrite length_insert|done|].
    cbn [fst snd] in *. split_and!; [done| |].
    - intros Hnot. cbn [fmap list_fmap fst] in Hnot. apply not_elem_of_cons in Hnot as [Hne Hnot].
      rewrite (IH2 Hnot), list_lookup_insert_ne by done. done.
    - intros (j' & Hj' & <-). apply elem_of_cons in Hj' as [[= -> ->]|Hj'].
      + rewrite (IH2 Hni), list_lookup_insert_eq by lia. done.
      + apply IH3. by exists j'. }
  intros Hex. apply (Hgen rs (replicate n no_object)); try done. apply length_replicate.
Qed.

(** A configuration stores the parts when slot [i] names an object that holds
    part [i], all on different shards. *)
Definition stores (w : W) (objs : list MetaObject) (parts : list bytes) : Prop :=
  length objs = length parts /\ NoDup (mo_ShardID <$> objs) /\
  forall i o, objs !! i = Some o ->
    mo_Key o <> [] /\ exists p, parts !! i = Some p /\ holds w (mo_ShardID o) (mo_Key o) = Some p.

Lemma length_slots n rs : length (slots n rs) = n.
Proof using.
  unfold slots. rewrite <- (length_replicate n no_object) at 2. generalize (replicate n no_object).
  induction rs as [|r rs IH]; intros acc; [done|]. cbn [foldl]. rewrite IH. apply length_insert.
Qed.

(** A finished run with as many results as parts stores them all. *)
Lemma finished_stores order parts s :
  NoDup order -> inv order (jobs_of parts) s -> length parts <= length (results s) ->
  stores (world s) (slots (length parts) (results s)) parts.
Proof using.
  intros Hnd [Hg Hsh Hj Hst] Hlen.
  assert (Hperm : (results s).*1 ≡ₚ jobs_of parts).
  { apply submseteq_length_Permutation; [|rewrite length_jobs_of, length_fmap; lia].
    etrans; [|exact Hj]. by apply submseteq_inserts_r. }
  assert (Hidx : job_index <$> (results s).*1 ≡ₚ seq 0 (length parts)).
  { rewrite Hperm. by rewrite jobs_of_indices. }
  assert (Hndi : NoDup (job_index <$> (results s).*1)) by (rewrite Hidx; apply NoDup_seq).
  assert (Hjob : forall j o, (j, o) ∈ results s -> parts !! job_index j = Some (job_data j)).
  { intros j o Hin. apply jobs_of_lookup. rewrite <- Hperm. apply list_elem_of_fmap. by exists (j, o). }
  assert (Hlt : Forall (fun r => job_index r.1 < length parts) (results s)).
  { apply Forall_forall. intros [j o] Hin. eapply lookup_lt_Some. by eapply Hjob. }
  assert (Hndr : NoDup (shard_of <$> results s)).
  { eapply submseteq_keeps_NoDup; [exact Hnd|]. etrans; [|exact Hsh]. by apply submseteq_inserts_r. }
  assert (Hslot : forall i o, slots (length parts) (results s) !! i = Some o ->
      exists j, (j, o) ∈ results s /\ job_index j = i).
  { intros i o Hi. pose proof (lookup_lt_Some _ _ _ Hi) as Hil. rewrite length_slots in Hil.
    assert (Hin : i ∈ job_index <$> (results s).*1) by (rewrite Hidx; apply elem_of_seq; lia).
    apply list_elem_of_fmap in Hin as (j & -> & Hin). apply list_elem_of_fmap in Hin as ([j' o'] & -> & Hin).
    cbn in *. rewrite (slots_lookup _ _ (job_index j') o') in Hi; [|done|done|by exists j'].
    injection Hi as <-. by exists j'. }
  split_and!.
  - apply length_slots.
  - apply NoDup_alt. intros i1 i2 sh H1 H2. rewrite list_lookup_fmap in H1, H2.
    destruct (slots _ _ !! i1) as [o1|] eqn:E1; [|done]. destruct (slots _ _ !! i2) as [o2|] eqn:E2; [|done].
    injection H1 as H1. injection H2 as H2.
    apply Hslot in E1 as (j1 & Hin1 & <-). apply Hslot in E2 as (j2 & Hin2 & <-).
    apply list_elem_of_lookup in Hin1 as [k1 Hk1]. apply list_elem_of_lookup in Hin2 as [k2 Hk2].
    assert (k1 = k2); [|by simplify_eq].
    eapply (proj1 (NoDup_alt _) Hndr _ _ sh).
    + rewrite list_lookup_fmap, Hk1. cbn. by f_equal.
    + rewrite list_lookup_fmap, Hk2. cbn. by f_equal.
  - intros i o Hi. apply Hslot in Hi as (j & Hin & <-). apply Forall_app in Hst as [Hst _].
    rewrite Forall_forall in Hst. destruct (Hst _ Hin) as [Hk Hh]. split; [done|].
    exists (job_data j). split; [by eapply Hjob|done].
Qed.

Lemma write_stores order evs data parts w cfg w' :
  NoDup order -> good w -> Encode (dec ds) data = Ok parts ->
  WriteChunk ds order evs data w = Some (Ok (Some cfg, None), w') ->
  good w' /\ cfg_Size cfg = Z.of_nat (length data) /\ stores w' (cfg_Objects cfg) parts.
Proof using.
  intros Hnd Hg Henc. unfold WriteChunk. rewrite Henc. cbv zeta.
  set (workers0 := if length parts <? jobCount ds then length parts else jobCount ds).
  destruct (run evs _) as [s|] eqn:Hr; [|done]. cbn [mbind option_bind]. destruct (finished s) eqn:Hf; [|done].
  destruct (Nat.ltb_spec (length (results s)) (length parts)); [done|]. intros [= <- <-].
  pose proof (inv_run _ _ _ _ _ Hnd (inv_init workers0 (jobs_of parts) order w Hg) Hr) as Hi.
  split_and!; [by apply (inv_good _ _ _ Hi)|done|]. by eapply finished_stores.
Qed.

(** Filling an empty slot adds one present part. *)
Lemma present_insert parts i p :
  parts !! i = Some [] -> p <> [] -> present (<[i := p]> parts) = S (present parts).
Proof using.
  intros Hi Hp. unfold present. destruct (update_perm _ _ _ Hi) as (rest & H1 & H2).
  assert (Hf : forall l k : list bytes, l ≡ₚ k ->
    length (List.filter (fun p => negb (length p =? 0)) l) = length (List.filter (fun p => negb (length p =? 0)) k)).
  { intros l k Hl. induction Hl; cbn; try congruence; repeat case_match; cbn; congruence. }
  rewrite (Hf _ _ H1), (Hf _ _ (H2 p)). cbn. by destruct p.
Qed.

(** What the collector has after it stopped, for any order of arrival. *)
Lemma collect_spec parts objs (alive : nat -> bool) m arrival got count w :
  good w -> Forall (fun p => p <> []) parts -> length objs = length parts ->
  (forall i o, objs !! i = Some o -> mo_Key o <> []) ->
  (forall i o d, objs !! i = Some o -> holds w (mo_ShardID o) (mo_Key o) = Some d -> parts !! i = Some d) ->
  (forall i o, objs !! i = Some o -> alive i = true -> exists d, readable w o d) ->
  NoDup arrival -> Forall (fun i => i < length objs /\ got !! i = Some []) arrival ->
  partial parts got -> count = present got -> count < m ->
  exists got' count' w', collect m objs arrival got count w = (Ok (got', count'), w') /\
    good w' /\ partial parts got' /\ count' = present got' /\
    (count' = m \/ (count' < m /\ count + length (List.filter alive arrival) <= count')).
Proof using.
  intros Hg Hne Hlen Hkey Hparts Halive. revert got count w Hg Hparts Halive.
  induction arrival as [|i arrival IH]; intros got count w Hg Hparts Halive Hnd Harr Hpart Hcount Hlt; cbn [collect].
  { exists got, count, w. split_and!; try done. right. cbn. lia. }
  apply NoDup_cons in Hnd as [Hni Hnd]. apply Forall_cons in Harr as [[Hi Hgi] Harr].
  destruct (lookup_lt_is_Some_2 objs i Hi) as [o Ho]. rewrite Ho. unfold pbind.
  destruct (try_read_spec o w Hg (Hkey _ _ Ho)) as (r & w1 & -> & Hg1 & Hs1 & Hr & Hrd).
  assert (Hparts1 : forall i o d, objs !! i = Some o -> holds w1 (mo_ShardID o) (mo_Key o) = Some d -> parts !! i = Some d).
  { intros i' o' d Ho' Hh. rewrite (proj2 Hs1) in Hh. by eapply Hparts. }
  assert (Halive1 : forall i o, objs !! i = Some o -> alive i = true -> exists d, readable w1 o d).
  { intros i' o' Ho' Ha. destruct (Halive _ _ Ho' Ha) as [d Hd]. exists d. by eapply readable_same. }
  cbn [List.filter]. destruct r as [d|].
  - pose proof (Hparts _ _ _ Ho (Hr d eq_refl)) as Hp.
    assert (Hd : d <> []) by (rewrite Forall_forall in Hne; eapply Hne, list_elem_of_lookup_2, Hp).
    assert (Hpart' : partial parts (<[i := d]> got)).
    { destruct Hpart as [Hl Hpt]. split; [by rewrite length_insert|]. intros i' p Hi'.
      apply list_lookup_insert_Some in Hi' as [(<- & <- & _)|[_ Hi']]; [by right|by eapply Hpt]. }
    assert (Hpc : S count = present (<[i := d]> got)) by (rewrite present_insert by done; by f_equal).
    destruct (Nat.eqb_spec (S count) m) as [E|E].
    + eexists _, _, w1. split_and!; [done|done|done|done|by left].
    + destruct (IH (<[i := d]> got) (S count) w1) as (got' & c' & w' & Hcol & Hgw & Hp' & Hc' & Hfin); try done; [|lia|].
      { rewrite Forall_forall in Harr |- *. intros x Hx. destruct (Harr x Hx). split; [done|].
        rewrite list_lookup_insert_ne; [done|]. intros ->. done. }
      exists got', c', w'. rewrite Hcol. split_and!; try done.
      destruct Hfin as [Hfin|[? Hfin]]; [by left|right]. destruct (alive i); cbn [length]; lia.
  - destruct (alive i) eqn:Ha.
    { destruct (Halive _ _ Ho Ha) as [d Hd]. by apply Hrd in Hd. }
    destruct (IH got count w1) as (got' & c' & w' & Hcol & Hrest); try done.
    exists got', c', w'. by rewrite Hcol.
Qed.
End Lemmas.
End Distributed.
