(* ===== verification/DistributedProps.v ===== *)
(** * Properties of the distributed storage and of deletion

    What a distributed chunk survives, liveness of its parallel write, the
    meaning of a check, repair, the layout of the parts, and deletion, with
    witnesses on a fleet of in-memory servers and an exclusive-or code. *)

From S2P Require Import Prelude Crc32 Encoding DB ServerAPI ServerProps Spread Fleet Replicated Distributed.
Import Spread.Spread ReedSolomon Distributed.Distributed.
Open Scope nat_scope.

Section Properties.
Context `{ShardLaws W} (ds : DistributedChunkStorage).
Context `{!ErasureCode (er (dec ds)) (dataShardCount (dec ds)) (parityShardCount (dec ds))}.
Context (Hd : 0 < dataShardCount (dec ds)).
Context (Hcount : shardCount (dec ds) = dataShardCount (dec ds) + parityShardCount (dec ds)).

(** Reading a chunk whose surviving objects are its parts gives the data or
    fails, and does not fail when enough of them are alive. *)
Lemma read_sound (arrival : list nat) (cfg : ChunkConfig) (parts : list bytes) (data : bytes)
    (alive : nat -> bool) (w : W) :
  good w -> data <> [] -> Encode (dec ds) data = Ok parts -> cfg_Size cfg = Z.of_nat (length data) ->
  length (cfg_Objects cfg) = length parts -> Replicated.keyed (cfg_Objects cfg) ->
  arrival ≡ₚ seq 0 (length parts) ->
  (forall i o d, cfg_Objects cfg !! i = Some o -> holds w (mo_ShardID o) (mo_Key o) = Some d -> parts !! i = Some d) ->
  (forall i o, cfg_Objects cfg !! i = Some o -> alive i = true -> exists d, readable w o d) ->
  exists r w1, ReadChunk ds arrival cfg w = (r, w1) /\ good w1 /\ (r = Ok data \/ r = Err ErrShardsUnavailable) /\
    (dataShardCount (dec ds) <= length (List.filter alive arrival) -> r = Ok data).
Proof using All.
  intros Hg Hne Henc Hsz Hlen Hkey Harr Hparts Halive.
  destruct (encode_decode (dec ds) Hd Hcount data Hne) as (parts' & Henc' & Hpl & Hpne & Hdec).
  rewrite Henc in Henc'. injection Henc' as <-.
  unfold ReadChunk, RequiredShardCount, MinimumValidShardCount. cbv zeta.
  rewrite Hlen, Hpl, Nat.eqb_refl. cbn [negb]. unfold pbind at 1.
  destruct (collect_spec parts (cfg_Objects cfg) alive (dataShardCount (dec ds)) arrival
    (replicate (shardCount (dec ds)) []) 0 w) as (got & c & w' & Hcol & Hgw & Hpart & Hc & Hfin); try done.
  - intros i o Ho. unfold Replicated.keyed in Hkey. rewrite Forall_forall in Hkey. eapply Hkey, list_elem_of_lookup_2, Ho.
  - rewrite Harr. apply NoDup_seq.
  - rewrite Harr. apply Forall_forall. intros i Hi. apply elem_of_seq in Hi.
    split; [lia|]. apply lookup_replicate_2. lia.
  - split; [rewrite length_replicate; lia|]. intros i p Hp. apply lookup_replicate in Hp as [-> _]. by left.
  - unfold present. generalize (shardCount (dec ds)). induction n; [done|]. cbn. done.
  - rewrite Hcol. destruct (Nat.ltb_spec c (dataShardCount (dec ds))).
    + eexists _, w'. split_and!; [done|done|by right|]. intros Hal. lia.
    + unfold pbind, plift. rewrite Hsz, Hdec by (done || lia). rewrite Z.eqb_refl. eexists _, w'. split_and!; by auto.
Qed.

Lemma read_survives (arrival : list nat) (cfg : ChunkConfig) (parts : list bytes) (data : bytes)
    (alive : nat -> bool) (w : W) :
  good w -> data <> [] -> Encode (dec ds) data = Ok parts -> cfg_Size cfg = Z.of_nat (length data) ->
  length (cfg_Objects cfg) = length parts -> Replicated.keyed (cfg_Objects cfg) ->
  arrival ≡ₚ seq 0 (length parts) ->
  (forall i o d, cfg_Objects cfg !! i = Some o -> holds w (mo_ShardID o) (mo_Key o) = Some d -> parts !! i = Some d) ->
  (forall i o, cfg_Objects cfg !! i = Some o -> alive i = true -> exists d, readable w o d) ->
  dataShardCount (dec ds) <= length (List.filter alive arrival) ->
  exists w1, ReadChunk ds arrival cfg w = (Ok data, w1) /\ good w1.
Proof using All.
  intros Hg Hne Henc Hsz Hlen Hkey Harr Hparts Halive Hal.
  destruct (read_sound arrival cfg parts data alive w) as (r & w1 & Hr & Hg1 & _ & Hok); try done.
  exists w1. by rewrite Hr, Hok.
Qed.

(** C34. A distributed chunk survives the loss of its parity: when a write
    reports success, the objects of the chunk are on different shards, and in
    every later world in which at least [dataShardCount] of them are readable
    (the others may be gone or unreachable), reading returns the data, whatever
    the order in which the parts arrive. *)
Theorem distributed_survives_loss (order : list string) (evs : list event) (data : bytes) (w w' w2 : W)
    (cfg : ChunkConfig) (arrival : list nat) (alive : nat -> bool) :
  NoDup order -> good w -> data <> [] ->
  WriteChunk ds order evs data w = Some (Ok (Some cfg, None), w') ->
  length (cfg_Objects cfg) = shardCount (dec ds) /\ NoDup (mo_ShardID <$> cfg_Objects cfg) /\
  (good w2 -> arrival ≡ₚ seq 0 (shardCount (dec ds)) ->
   (forall o d, o ∈ cfg_Objects cfg -> holds w2 (mo_ShardID o) (mo_Key o) = Some d ->
      holds w' (mo_ShardID o) (mo_Key o) = Some d) ->
   (forall i o, cfg_Objects cfg !! i = Some o -> alive i = true -> exists d, readable w2 o d) ->
   dataShardCount (dec ds) <= length (List.filter alive arrival) ->
   (ReadChunk ds arrival cfg w2).1 = Ok data).
Proof using All.
  intros Hnd Hg Hne Hw. destruct (encode_decode (dec ds) Hd Hcount data Hne) as (parts & Henc & Hpl & _).
  destruct (write_stores ds order evs data parts w cfg w' Hnd Hg Henc Hw) as (Hg' & Hsz & Hlen & Hnds & Hst).
  split_and!; [congruence|done|]. intros Hg2 Harr Hsame Halive Hal.
  destruct (read_survives arrival cfg parts data alive w2) as (w3 & -> & _); try done.
  - unfold Replicated.keyed. apply Forall_forall. intros o Ho. apply list_elem_of_lookup in Ho as [i Hi]. by apply Hst in Hi as [? _].
  - by rewrite Hpl.
  - intros i o d Hi Hh. apply Hsame in Hh; [|by eapply list_elem_of_lookup_2].
    apply Hst in Hi as (_ & p & Hp & Hh'). rewrite Hh' in Hh. by injection Hh as <-.
Qed.

(** C35. The parallel write of a distributed chunk is live: with as many working
    shards as parts among those that the iterator hands out, every schedule of
    the workers ends in success within a fixed number of steps, and a complete
    schedule exists. *)
Theorem distributed_write_is_live (order ups : list string) (data : bytes) (w : W) :
  NoDup order -> good w -> 0 < jobCount ds -> data <> [] -> (forall sh, sh ∈ ups -> up w sh) ->
  shardCount (dec ds) <= length (filter (fun sh => sh ∈ ups) order) ->
  (forall evs r w', WriteChunk ds order evs data w = Some (r, w') ->
     (exists cfg, r = Ok (Some cfg, None)) /\ length evs <= 4 * shardCount (dec ds) + 2 * length order) /\
  (exists evs cfg w', WriteChunk ds order evs data w = Some (Ok (Some cfg, None), w')).
Proof using All.
  intros Hnd Hg Hj Hne Hup Hlen.
  destruct (encode_decode (dec ds) Hd Hcount data Hne) as (parts & Henc & Hpl & Hpne & _).
  unfold WriteChunk. rewrite Henc. cbv zeta.
  set (workers0 := if length parts <? jobCount ds then length parts else jobCount ds).
  assert (Hw0 : 0 < workers0 <= length parts).
  { unfold workers0. destruct (Nat.ltb_spec (length parts) (jobCount ds)); lia. }
  pose proof (inv_init workers0 (jobs_of parts) order w Hg) as Hi0.
  assert (Hl0 : live ups (jobs_of parts) (init workers0 (jobs_of parts) order w)).
  { apply live_init; [done| |].
    - apply Forall_forall. intros j Hj'. apply jobs_of_lookup in Hj'. rewrite Forall_forall in Hpne.
      by eapply Hpne, list_elem_of_lookup_2.
    - rewrite length_jobs_of. lia. }
  assert (Hend : forall evs s, run evs (init workers0 (jobs_of parts) order w) = Some s -> finished s = true ->
    length (results s) = length parts).
  { intros evs s Hr Hf. pose proof (live_run _ _ _ _ _ _ Hnd Hi0 Hl0 Hr) as Hl.
    apply live_finished in Hl; [|intros E|done].
    - apply Permutation_length in Hl. by rewrite length_fmap, length_jobs_of in Hl.
    - apply run_workers in Hr. rewrite E in Hr. cbn in Hr. rewrite length_replicate in Hr. lia. }
  split.
  - intros evs r w'. destruct (run evs _) as [s|] eqn:Hr; [|done]. cbn [mbind option_bind].
    destruct (finished s) eqn:Hf; [|done]. rewrite (Hend evs s Hr Hf), Nat.ltb_irrefl.
    intros [= <- <-]. split; [by eexists|]. apply run_length in Hr. unfold measure, init in Hr.
    cbn [queue shards workers] in Hr. rewrite length_jobs_of in Hr.
    assert (Hsum : list_sum (rank <$> replicate workers0 Waiting) = workers0).
    { clear. induction workers0; cbn; [done|]. unfold list_sum in *. cbn. lia. }
    lia.
  - destruct (run_to_end _ _ _ Hnd Hi0) as (evs & s & Hr & Hf). exists evs. rewrite Hr. cbn [mbind option_bind].
    rewrite Hf, (Hend evs s Hr Hf), Nat.ltb_irrefl. by eexists _, _.
Qed.

(** A repair of a distributed chunk that succeeds gives a complete chunk of
    the same data again, although parts had been lost: the new configuration
    stores every part of the encoding on a shard of its own. *)
Theorem distributed_repair_restores (order : list string) (evs : list event) (data : bytes) (w w' : W)
    (parts : list bytes) (cfg cfg' : ChunkConfig) (arrival : list nat) (alive : nat -> bool) :
  NoDup order -> good w -> data <> [] -> Encode (dec ds) data = Ok parts ->
  cfg_Size cfg = Z.of_nat (length data) -> length (cfg_Objects cfg) = length parts -> Replicated.keyed (cfg_Objects cfg) ->
  arrival ≡ₚ seq 0 (length parts) ->
  (forall i o d, cfg_Objects cfg !! i = Some o -> holds w (mo_ShardID o) (mo_Key o) = Some d -> parts !! i = Some d) ->
  (forall i o, cfg_Objects cfg !! i = Some o -> alive i = true -> exists d, readable w o d) ->
  dataShardCount (dec ds) <= length (List.filter alive arrival) ->
  RepairChunk ds arrival order evs cfg w = Some (Ok (Some cfg', None), w') ->
  cfg_Size cfg' = cfg_Size cfg /\ stores w' (cfg_Objects cfg') parts.
Proof using All.
  intros Hnd Hg Hne Henc Hsz Hlen Hkey Harr Hparts Halive Hal Hrep.
  destruct (read_survives arrival cfg parts data alive w) as (w1 & Hread & Hg1); try done.
  unfold RepairChunk in Hrep. rewrite Hread in Hrep.
  destruct (write_stores ds order evs data parts w1 cfg' w' Hnd Hg1 Henc Hrep) as (_ & Hsz' & Hst).
  split; [congruence|done].
Qed.
End Properties.

(** C37. How a chunk is split: into [dataShardCount] parts of one size, a
    multiple of 256 bytes, which together are the data followed by less than
    [256 * dataShardCount] bytes of padding. *)
Theorem split_layout (rs : ReedSolomonEncoderDecoder) (data : bytes) :
  0 < dataShardCount rs -> data <> [] ->
  exists q, length (splitData rs data) = dataShardCount rs /\
    Forall (fun r => length r = 256 * q) (splitData rs data) /\
    take (length data) (concat (splitData rs data)) = data /\
    length data <= length (concat (splitData rs data)) < length data + 256 * dataShardCount rs.
Proof.
  intros Hd Hne. destruct (splitData_spec rs Hd data Hne) as (_ & _ & Hlen & _ & Htake).
  destruct (padded_length rs Hd data Hne) as (q & Hq & Hpos). exists q.
  assert (Hc : length (padIfNeeded rs data) / dataShardCount rs = 256 * q).
  { rewrite Hq, (Nat.mul_comm (dataShardCount rs)). apply Nat.div_mul. lia. }
  assert (Hcat : concat (splitData rs data) = padIfNeeded rs data).
  { unfold splitData. cbv zeta. apply windows_concat. rewrite Hc, Hq. lia. }
  split_and!; try done.
  - unfold splitData. cbv zeta. rewrite Hc. apply Forall_fmap, Forall_forall. intros i Hi. apply elem_of_seq in Hi.
    cbn. rewrite length_take, length_drop, Hq. nia.
  - rewrite Hcat. unfold padIfNeeded. case_match; rewrite ?length_app; lia.
  - rewrite Hcat. unfold padIfNeeded, getPadLen. cbv zeta.
    pose proof (Nat.mod_upper_bound (length data) (dataShardCount rs * 256) ltac:(lia)).
    destruct (Nat.eqb_spec (length data mod (dataShardCount rs * 256)) 0); cbn [Nat.eqb]; [lia|].
    case_match; rewrite ?length_app, ?Encoding.Encoding.length_zeros; lia.
Qed.

Section Check.
Context `{ShardLaws W} (ds : DistributedChunkStorage).

(** What a check of a distributed chunk means, for any order in which the
    objects are examined: optimal needs every object to be stored and is
    answered when all are on working shards; invalid is only answered when
    fewer than [dataShardCount] stored objects are on working shards; a chunk
    called valid has [dataShardCount] stored objects.  A fast check is never
    optimal.  A configuration of another size is refused. *)
Theorem distributed_check_sound (ups : list string) (arrival : list MetaObject) (cfg : ChunkConfig)
    (fast : bool) (w : W) :
  good w -> Replicated.keyed arrival -> arrival ≡ₚ cfg_Objects cfg ->
  0 < dataShardCount (dec ds) < shardCount (dec ds) -> (forall sh, sh ∈ ups -> up w sh) ->
  let stored := length (List.filter (Replicated.stored_at w) arrival) in
  let reach := length (List.filter (Replicated.reachable ups w) arrival) in
  (length arrival <> shardCount (dec ds) -> (CheckChunk ds arrival cfg fast w).1 = Err ErrUnexpectedObjectCount) /\
  (length arrival = shardCount (dec ds) ->
   exists st, (CheckChunk ds arrival cfg fast w).1 = Ok st /\
     (st = CheckStatusOptimal -> stored = shardCount (dec ds) /\ fast = false) /\
     (reach = shardCount (dec ds) -> fast = false -> st = CheckStatusOptimal) /\
     (st = CheckStatusInvalid -> reach < dataShardCount (dec ds)) /\
     (st <> CheckStatusInvalid -> dataShardCount (dec ds) <= stored)).
Proof using.
  intros Hg Hk Hperm Hd Hup stored reach. subst stored reach. unfold CheckChunk, RequiredShardCount, MinimumValidShardCount.
  cbv zeta. rewrite <- (Permutation_length Hperm). split.
  - intros Hne. by rewrite (proj2 (Nat.eqb_neq _ _)).
  - intros Hlen. rewrite Hlen, Nat.eqb_refl. cbn [negb]. unfold pbind.
    set (limit := if fast then dataShardCount (dec ds) else shardCount (dec ds)).
    destruct (Replicated.count_valid_spec ups limit arrival 0 w Hg Hk Hup) as (c & w' & -> & _ & _ & Hc1 & Hc2 & Hc3).
    { unfold limit. destruct fast; lia. }
    assert (Hst : length (List.filter (Replicated.stored_at w) arrival) <= length arrival) by apply List.filter_length_le.
    assert (Hre : length (List.filter (Replicated.reachable ups w) arrival) <= length arrival) by apply List.filter_length_le.
    eexists. split; [done|]. unfold limit in *.
    destruct (Nat.eqb_spec c (shardCount (dec ds))), (Nat.leb_spec (dataShardCount (dec ds)) c), fast;
      split_and!; intros; try done; try lia; split; try done; lia.
Qed.
End Check.

Section Delete.
Context `{ShardLaws W}.

Lemma delete_object_spec o w : good w -> mo_Key o <> [] ->
  exists r w', delete_object o w = (r, w') /\ good w' /\ no_panic r /\ (forall sh, up w' sh <-> up w sh) /\
    (forall sh k, (sh, k) <> (mo_ShardID o, mo_Key o) -> holds w' sh k = holds w sh k) /\
    (r = Ok tt -> holds w' (mo_ShardID o) (mo_Key o) = None) /\ (up w (mo_ShardID o) -> r = Ok tt).
Proof using.
  intros Hg Hk. unfold delete_object, pbind. destruct (GetShard (mo_ShardID o) w) as [r1 w1] eqn:E1.
  destruct (shard_law _ _ _ _ E1 Hg) as (Hg1 & Hp1 & Hu1 & Hh1 & Hok1).
  destruct r1 as [[]|e|p]; [| |done].
  - destruct (DeleteObject (mo_ShardID o) (mo_Key o) w1) as [r2 w2] eqn:E2.
    destruct (delete_law _ _ _ _ _ E2 Hg1 Hk) as (Hg2 & Hp2 & Hu2 & Hh2 & Hd & Hok2).
    exists r2, w2. split_and!; try done.
    + intros sh. by rewrite Hu2.
    + intros sh k Hne. by rewrite Hh2, Hh1.
    + intros Hup. by apply Hok2, Hu1.
  - exists (Err e), w1. split_and!; try done.
Qed.

(** Without an error so far, a deletion that ends well removed everything. *)
Lemma delete_all_ok extra objs w w' :
  good w -> Replicated.keyed objs -> delete_all extra objs None w = (Ok tt, w') ->
  (forall o, o ∈ objs -> holds w' (mo_ShardID o) (mo_Key o) = None) /\
  (forall sh k, (forall o, o ∈ objs -> (sh, k) <> (mo_ShardID o, mo_Key o)) -> holds w' sh k = holds w sh k).
Proof using.
  assert (Herr : forall l extra e w w2, delete_all extra l (Some e) w = (Ok tt, w2) -> False).
  { induction l as [|o l IH]; intros ex e w0 w2; cbn; [done|]. destruct ex as [|ex]; [done|].
    destruct (delete_object o w0) as [[[]|e'|p] w1]; [apply IH|apply IH|done]. }
  revert w; induction objs as [|o objs IH]; intros w Hg Hk; cbn [delete_all].
  { intros [= <-]. split; [|done]. intros o Ho. by apply not_elem_of_nil in Ho. }
  apply Forall_cons in Hk as [Hko Hk].
  destruct (delete_object_spec o w Hg Hko) as (r & w1 & -> & Hg1 & _ & _ & Hh1 & Hgone & _).
  destruct r as [[]|e|p]; [|intros Hx; by apply Herr in Hx|done].
  intros Hdel. destruct (IH w1 Hg1 Hk Hdel) as [Hall Hother]. split.
  - intros x Hx. apply elem_of_cons in Hx as [->|Hx]; [|by apply Hall].
    destruct (decide (Exists (fun o' => (mo_ShardID o, mo_Key o) = (mo_ShardID o', mo_Key o')) objs)) as [Hex|Hnex].
    + apply Exists_exists in Hex as (o' & Ho' & [= -> ->]). by apply Hall.
    + rewrite Hother; [by apply Hgone|]. intros o' Ho' E. apply Hnex. apply Exists_exists. by exists o'.
  - intros sh k Hne. rewrite Hother; [apply Hh1, Hne, list_elem_of_here|]. intros o' Ho'.
    apply Hne. by apply list_elem_of_further.
Qed.

Lemma delete_all_up extra objs w :
  good w -> Replicated.keyed objs -> (forall o, o ∈ objs -> up w (mo_ShardID o)) ->
  exists w', delete_all extra objs None w = (Ok tt, w').
Proof using.
  revert w; induction objs as [|o objs IH]; intros w Hg Hk Hup; cbn [delete_all]; [by exists w|].
  apply Forall_cons in Hk as [Hko Hk].
  destruct (delete_object_spec o w Hg Hko) as (r & w1 & -> & Hg1 & _ & Hu & _ & _ & Hok).
  rewrite Hok by apply Hup, list_elem_of_here. apply IH; try done.
  intros x Hx. apply Hu, Hup. by apply list_elem_of_further.
Qed.

(** Deleting a chunk, replicated or distributed: when it succeeds, all of
    its objects are gone and no other object is touched, for any order in which
    the workers delete; when all shards of the chunk work it does succeed; a
    chunk without objects is refused. *)
Theorem delete_chunk_complete (extra : nat) (arrival : list MetaObject) (cfg : ChunkConfig) (w : W) :
  good w -> Replicated.keyed arrival -> arrival ≡ₚ cfg_Objects cfg ->
  (cfg_Objects cfg = [] -> Replicated.DeleteChunk extra arrival cfg w = (Err ErrUnexpectedObjectCount, w)) /\
  (forall w', Replicated.DeleteChunk extra arrival cfg w = (Ok tt, w') ->
     (forall o, o ∈ cfg_Objects cfg -> holds w' (mo_ShardID o) (mo_Key o) = None) /\
     (forall sh k, (forall o, o ∈ cfg_Objects cfg -> (sh, k) <> (mo_ShardID o, mo_Key o)) ->
        holds w' sh k = holds w sh k)) /\
  (cfg_Objects cfg <> [] -> (forall o, o ∈ cfg_Objects cfg -> up w (mo_ShardID o)) ->
     exists w', Replicated.DeleteChunk extra arrival cfg w = (Ok tt, w')).
Proof using.
  intros Hg Hk Hperm. unfold Replicated.DeleteChunk. destruct (cfg_Objects cfg) as [|o [|o2 rest]] eqn:Ho.
  - split_and!; done.
  - apply Permutation_singleton_r in Hperm as ->. apply Forall_cons in Hk as [Hko _].
    destruct (delete_object_spec o w Hg Hko) as (r & w1 & -> & _ & _ & _ & Hh & Hgone & Hok). split_and!; [done| |].
    + intros w' [= -> <-]. split.
      * intros x Hx. apply list_elem_of_singleton in Hx as ->. by apply Hgone.
      * intros sh k Hne. apply Hh, Hne, list_elem_of_here.
    + intros _ Hup. exists w1. by rewrite Hok by apply Hup, list_elem_of_here.
  - split_and!; [done| |].
    + intros w' Hdel. destruct (delete_all_ok _ _ _ _ Hg Hk Hdel) as [Hall Hother]. split.
      * intros x Hx. apply Hall. by rewrite Hperm.
      * intros sh k Hne. apply Hother. intros x Hx. apply Hne. by rewrite <- Hperm.
    + intros _ Hup. apply delete_all_up; try done. intros x Hx. apply Hup. by rewrite <- Hperm.
Qed.
End Delete.

(** ** A concrete code: two data rows and their exclusive or *)
Definition bxor (a b : byte) : byte := zb (Z.lxor (bz a) (bz b)).

Definition rxor (r s : bytes) : bytes := zip_with bxor r s.

Definition xor_code : EncodeReconster := {|
  er_Encode m := match m with
                 | [a; b; _] => Ok [a; b; rxor a b]
                 | _ => Err (ErrNew "rows not match")
                 end;
  er_ReconstructData m :=
    match m with
    | [[]; b; c] => Ok [rxor c b; b; c]
    | [a; []; c] => Ok [a; rxor c a; c]
    | [a; b; c] => Ok [a; b; c]
    | _ => Err (ErrNew "too few shards")
    end;
|}.

Lemma bz_bxor a b : bz (bxor a b) = Z.lxor (bz a) (bz b).
Proof.
  unfold bxor. rewrite bz_zb. apply Z.mod_small. apply (lxor_range 8); [lia|apply bz_range..].
Qed.

Lemma rxor_cancel_r r s : length r = length s -> rxor (rxor r s) s = r.
Proof.
  revert s; induction r as [|a r IH]; intros [|b s] Hl; try done. cbn in *. f_equal; [|apply IH; lia].
  apply (inj bz). rewrite !bz_bxor, Z.lxor_assoc, Z.lxor_nilpotent. apply Z.lxor_0_r.
Qed.

Lemma rxor_comm r s : rxor r s = rxor s r.
Proof.
  revert s; induction r as [|a r IH]; intros [|b s]; try done. cbn. f_equal; [|apply IH].
  apply (inj bz). rewrite !bz_bxor. apply Z.lxor_comm.
Qed.

Lemma length_rxor r s : length r = length s -> length (rxor r s) = length r.
Proof. intros Hl. unfold rxor. rewrite length_zip_with. lia. Qed.

#[export] Instance xor_erasure : ErasureCode xor_code 2 1.
Proof.
  split.
  - intros [|a [|b [|]]] size Hl Hs Hpos; try done. apply Forall_cons in Hs as [Ha Hs]. apply Forall_cons in Hs as [Hb _].
    exists [rxor a b]. split_and!; try done. constructor; [|done]. rewrite length_rxor; lia.
  - intros [|a [|b [|]]] size par got Hl Hs Hpos Henc [Hgl Hgot] Hpres; try done.
    apply Forall_cons in Hs as [Ha Hs]. apply Forall_cons in Hs as [Hb _].
    cbn in Henc. injection Henc as <-. destruct got as [|x [|y [|z [|]]]]; try done.
    destruct (Hgot 0 x eq_refl) as [->|[= <-]], (Hgot 1 y eq_refl) as [->|[= <-]], (Hgot 2 z eq_refl) as [->|[= <-]].
    all: cbn in Hpres; repeat case_match; cbn in Hpres; try lia.
    all: destruct a as [|a0 a]; [cbn in Ha; lia|]; destruct b as [|b0 b]; [cbn in Hb; lia|].
    all: cbn [er_ReconstructData xor_code]; eexists; (split; [reflexivity|]); cbn [take]; try done.
    + rewrite rxor_cancel_r by lia. done.
    + rewrite (rxor_comm (a0 :: a)), rxor_cancel_r by lia. done.
Qed.

(** ** Witnesses: three servers, then [b] goes down *)
Definition xor_storage : DistributedChunkStorage :=
  {| dec := {| dataShardCount := 2; parityShardCount := 1; shardCount := 3; er := xor_code |}; jobCount := 2 |}.

Definition full_fleet : FleetOf Memory.MemDB Z :=
  <["a" := (true, (Memory.New, ∅))]> (<["b" := (true, (Memory.New, ∅))]> {["c" := (true, (Memory.New, ∅))]})%string.

Definition full_order : list string := ["c"; "a"; "b"]%string.

(** Two workers for three parts; the second is fast. *)
Definition full_schedule : list event :=
  [EvJob 0; EvJob 1; EvShard 1; EvShard 0; EvCreate 1; EvSend 1; EvJob 1; EvShard 1; EvCreate 0; EvCreate 1;
   EvSend 1; EvSend 0; EvJob 0; EvJob 1].

Definition after_write : FleetOf Memory.MemDB Z :=
  match WriteChunk xor_storage full_order full_schedule (str_bytes "hello") full_fleet with
  | Some (_, w) => w
  | None => full_fleet
  end.

Definition full_cfg : ChunkConfig :=
  {| cfg_Size := 5; cfg_Objects := (fun sh => {| mo_Key := le_put 8 0; mo_ShardID := sh |}) <$> ["a"; "c"; "b"]%string |}.

(** The world in which server [b] does not answer any more. *)
Definition b_down : FleetOf Memory.MemDB Z :=
  match after_write !! "b"%string with
  | Some (_, s) => <["b"%string := (false, s)]> after_write
  | None => after_write
  end.

Lemma full_write_run :
  WriteChunk xor_storage full_order full_schedule (str_bytes "hello") full_fleet
    = Some (Ok (Some full_cfg, None), after_write).
Proof. vm_compute. reflexivity. Qed.

Lemma full_order_nodup : NoDup full_order.
Proof. unfold full_order. repeat constructor; set_solver. Qed.

(** Which slots are on a server that answers. *)
Definition up_slot (i : nat) : bool :=
  match cfg_Objects full_cfg !! i with
  | Some o => negb (bool_decide (mo_ShardID o = "b"%string))
  | None => false
  end.

Lemma full_good (w : FleetOf Memory.MemDB Z) : good w.
Proof. intros sh s _. exact I. Qed.

Lemma full_slots i o : cfg_Objects full_cfg !! i = Some o ->
  o = {| mo_Key := le_put 8 0; mo_ShardID := match i with 0 => "a" | 1 => "c" | _ => "b" end |} /\ i < 3.
Proof.
  intros Hi. cbn [cfg_Objects full_cfg fmap list_fmap] in Hi. destruct i as [|[|[|i]]]; [injection Hi as <-; split; [reflexivity|lia]..|done].
Qed.

Lemma b_down_same o d : o ∈ cfg_Objects full_cfg -> holds b_down (mo_ShardID o) (mo_Key o) = Some d ->
  holds after_write (mo_ShardID o) (mo_Key o) = Some d.
Proof.
  intros Ho. apply list_elem_of_lookup in Ho as [i Hi]. apply full_slots in Hi as [-> Hi].
  destruct i as [|[|[|i]]]; [vm_compute; done..|lia].
Qed.

Lemma b_down_alive i o : cfg_Objects full_cfg !! i = Some o -> up_slot i = true -> exists d, readable b_down o d.
Proof.
  intros Hi. unfold up_slot. rewrite Hi. apply full_slots in Hi as [-> Hi].
  destruct i as [|[|[|i]]]; [..|lia]; intros Hu; [| |done]; eexists;
    (split; [eexists; vm_compute; reflexivity|vm_compute; reflexivity]).
Qed.

Lemma distributed_survives_loss_witness :
  (ReadChunk xor_storage [2; 0; 1] full_cfg b_down).1 = Ok (str_bytes "hello").
Proof.
  destruct (distributed_survives_loss xor_storage ltac:(cbn; lia) eq_refl full_order full_schedule (str_bytes "hello")
    full_fleet after_write b_down full_cfg [2; 0; 1] up_slot full_order_nodup (full_good _) ltac:(done) full_write_run)
    as (_ & _ & Hread).
  apply Hread.
  - apply full_good.
  - cbn. solve_Permutation.
  - exact b_down_same.
  - exact b_down_alive.
  - vm_compute. lia.
Defined.

Lemma full_up sh : sh ∈ full_order -> up full_fleet sh.
Proof.
  unfold full_order. rewrite !elem_of_cons. intros [->|[->|[->|Hin]]]; [by eexists..|].
  by apply not_elem_of_nil in Hin.
Qed.

Lemma distributed_write_is_live_witness :
  exists evs cfg w', WriteChunk xor_storage full_order evs (str_bytes "hello") full_fleet = Some (Ok (Some cfg, None), w').
Proof.
  apply (distributed_write_is_live xor_storage ltac:(cbn; lia) eq_refl full_order full_order (str_bytes "hello") full_fleet).
  - exact full_order_nodup.
  - apply full_good.
  - cbn. lia.
  - done.
  - exact full_up.
  - vm_compute. lia.
Defined.

Lemma full_keyed : Replicated.keyed (cfg_Objects full_cfg).
Proof. repeat constructor; discriminate. Qed.

(** Server [b] is replaced by a new server [e]. *)
Definition with_e : FleetOf Memory.MemDB Z := <["e"%string := (true, (Memory.New, ∅))]> b_down.

Definition full_parts : list bytes :=
  match Encode (dec xor_storage) (str_bytes "hello") with Ok parts => parts | _ => [] end.

Lemma with_e_parts i o d :
  cfg_Objects full_cfg !! i = Some o -> holds with_e (mo_ShardID o) (mo_Key o) = Some d -> full_parts !! i = Some d.
Proof.
  intros Hi Hh. apply full_slots in Hi as [-> Hi]. destruct i as [|[|[|i]]]; [..|lia]; rewrite <- Hh; vm_compute; reflexivity.
Qed.

Lemma with_e_alive i o : cfg_Objects full_cfg !! i = Some o -> up_slot i = true -> exists d, readable with_e o d.
Proof.
  intros Hi. unfold up_slot. rewrite Hi. apply full_slots in Hi as [-> Hi].
  destruct i as [|[|[|i]]]; [..|lia]; intros Hu; [| |done]; eexists;
    (split; [eexists; vm_compute; reflexivity|vm_compute; reflexivity]).
Qed.

Definition repair_order : list string := ["b"; "c"; "e"; "a"]%string.

(** The worker that gets [b] goes on to the next shard. *)
Definition repair_schedule : list event :=
  [EvJob 0; EvJob 1; EvShard 1; EvCreate 1; EvShard 0; EvCreate 0; EvShard 1; EvCreate 1; EvSend 1; EvJob 1; EvShard 1;
   EvCreate 1; EvSend 0; EvSend 1; EvJob 0; EvJob 1].

Definition after_repair : FleetOf Memory.MemDB Z :=
  match RepairChunk xor_storage [2; 0; 1] repair_order repair_schedule full_cfg with_e with
  | Some (_, w) => w
  | None => with_e
  end.

Definition repaired_cfg : ChunkConfig :=
  {| cfg_Size := 5;
     cfg_Objects := [{| mo_Key := le_put 8 1; mo_ShardID := "c" |}; {| mo_Key := le_put 8 0; mo_ShardID := "e" |};
                     {| mo_Key := le_put 8 1; mo_ShardID := "a" |}] |}.

Lemma distributed_repair_restores_witness : stores after_repair (cfg_Objects repaired_cfg) full_parts.
Proof.
  eapply (distributed_repair_restores xor_storage ltac:(cbn; lia) eq_refl repair_order repair_schedule (str_bytes "hello")
    with_e after_repair full_parts full_cfg repaired_cfg [2; 0; 1] up_slot).
  - unfold repair_order. repeat constructor; set_solver.
  - apply full_good.
  - done.
  - vm_compute. reflexivity.
  - reflexivity.
  - vm_compute. reflexivity.
  - exact full_keyed.
  - change (seq 0 (length full_parts)) with (seq 0 3). cbn [seq]. solve_Permutation.
  - exact with_e_parts.
  - exact with_e_alive.
  - vm_compute. lia.
  - vm_compute. reflexivity.
Defined.

Lemma split_layout_witness :
  exists q, Forall (fun r => length r = 256 * q) (splitData (dec xor_storage) (str_bytes "hello")).
Proof.
  destruct (split_layout (dec xor_storage) (str_bytes "hello") ltac:(cbn; lia) ltac:(done)) as (q & _ & Hq & _).
  exists q. exact Hq.
Defined.

Lemma distributed_check_sound_witness :
  exists st, (CheckChunk xor_storage (cfg_Objects full_cfg) full_cfg false after_write).1 = Ok st /\ st = CheckStatusOptimal.
Proof.
  destruct (distributed_check_sound xor_storage full_order (cfg_Objects full_cfg) full_cfg false after_write)
    as [_ Hok].
  - apply full_good.
  - exact full_keyed.
  - reflexivity.
  - cbn. lia.
  - unfold full_order. intros sh. rewrite !elem_of_cons. intros [->|[->|[->|Hin]]];
      [eexists; vm_compute; reflexivity..|]. by apply not_elem_of_nil in Hin.
  - destruct (Hok eq_refl) as (st & Hst & _ & Hopt & _). exists st. split; [exact Hst|].
    apply Hopt; vm_compute; reflexivity.
Defined.

Lemma delete_chunk_complete_witness :
  exists w', Replicated.DeleteChunk 0 (cfg_Objects full_cfg) full_cfg after_write = (Ok tt, w') /\
    (forall o, o ∈ cfg_Objects full_cfg -> holds w' (mo_ShardID o) (mo_Key o) = None).
Proof.
  destruct (delete_chunk_complete 0 (cfg_Objects full_cfg) full_cfg after_write (full_good _) full_keyed (reflexivity _))
    as (_ & Hgone & Hlive).
  destruct Hlive as [w' Hw].
  - discriminate.
  - intros o Ho. apply list_elem_of_lookup in Ho as [i Hi]. apply full_slots in Hi as [-> Hi].
    destruct i as [|[|[|i]]]; [eexists; vm_compute; reflexivity..|lia].
  - exists w'. split; [exact Hw|]. exact (proj1 (Hgone w' Hw)).
Defined.
