(* ===== verification/GaloisField.v ===== *)
(** * The field of the erasure code ([vendor/github.com/templexxx/reedsolomon/tables.go])

    The vendored library calculates with bytes as elements of the field with 256
    elements, addition is exclusive or, and products and inverses are looked up
    in tables.  The tables are those of the library, one number for each row with
    the entry 0 in the lowest byte.  It is shown that they are the product of
    polynomials modulo [x^8 + x^4 + x^3 + x^2 + 1] and its inverses, and that
    this is a field. *)

From S2P Require Import Prelude.
From Stdlib Require Import Field.
Open Scope nat_scope.

Module GF.

(** ** The tables *)
Fixpoint unpack (n : nat) (z : Z) : bytes :=
  match n with O => [] | S n => zb (Z.land z 255) :: unpack n (Z.shiftr z 8) end.

Definition inverseTable : bytes := unpack 256
  0xfd7eff7f75e8d442c9d38f03eab5e7e36ab2216db4f374faf1e2b186f0e63f1491190a9978767310d6d743f9f6c871293aa87d855a62f7d29ea3b86535a55912b6ae9a957b0764c5afbff2eb6beee587b7be089c3c0d3bce0546c234c69f821ca2c709ac94bddc0b5c0fbc9b4f44df18f50269532d273149b0e4cc7c1da1541bfcfecd84bb0677db79dafbe9d911d128322fec20b3ef8d524d17c4b95bca572441370e9763cbc11361251a818c682338934567161e2b883004a64e92d5f85f36e1150caba9cf22505e40c3a42e6f89486e338b264a1fd0708a2c56605139ed6c2a4b83a08055de90664c3ee058c072d8965daa3d98dd9dadba7aa747f48e0100.

Definition mulTable : list bytes := unpack 256 <$> ([
  0x00000000000000000000000000000000000000000000000000000000000000000000000000000000000000000000000000000000000000000000000000000000000000000000000000000000000000000000000000000000000000000000000000000000000000000000000000000000000000000000000000000000000000000000000000000000000000000000000000000000000000000000000000000000000000000000000000000000000000000000000000000000000000000000000000000000000000000000000000000000000000000000000000000000000000000000000000000000000000000000000000000000000000000000000000000000;
  0xfffefdfcfbfaf9f8f7f6f5f4f3f2f1f0efeeedecebeae9e8e7e6e5e4e3e2e1e0dfdedddcdbdad9d8d7d6d5d4d3d2d1d0cfcecdcccbcac9c8c7c6c5c4c3c2c1c0bfbebdbcbbbab9b8b7b6b5b4b3b2b1b0afaeadacabaaa9a8a7a6a5a4a3a2a1a09f9e9d9c9b9a999897969594939291908f8e8d8c8b8a898887868584838281807f7e7d7c7b7a797877767574737271706f6e6d6c6b6a696867666564636261605f5e5d5c5b5a595857565554535251504f4e4d4c4b4a494847464544434241403f3e3d3c3b3a393837363534333231302f2e2d2c2b2a292827262524232221201f1e1d1c1b1a191817161514131211100f0e0d0c0b0a09080706050403020100;
  0xe3e1e7e5ebe9efedf3f1f7f5fbf9fffdc3c1c7c5cbc9cfcdd3d1d7d5dbd9dfdda3a1a7a5aba9afadb3b1b7b5bbb9bfbd838187858b898f8d939197959b999f9d636167656b696f6d737177757b797f7d434147454b494f4d535157555b595f5d232127252b292f2d333137353b393f3d030107050b090f0d131117151b191f1dfefcfaf8f6f4f2f0eeeceae8e6e4e2e0dedcdad8d6d4d2d0cecccac8c6c4c2c0bebcbab8b6b4b2b0aeacaaa8a6a4a2a09e9c9a98969492908e8c8a88868482807e7c7a78767472706e6c6a68666462605e5c5a58565452504e4c4a48464442403e3c3a38363432302e2c2a28262422201e1c1a18161412100e0c0a0806040200;
  0x1c1f1a191013161504070201080b0e0d2c2f2a292023262534373231383b3e3d7c7f7a797073767564676261686b6e6d4c4f4a494043464554575251585b5e5ddcdfdad9d0d3d6d5c4c7c2c1c8cbcecdecefeae9e0e3e6e5f4f7f2f1f8fbfefdbcbfbab9b0b3b6b5a4a7a2a1a8abaead8c8f8a898083868594979291989b9e9d818287848d8e8b88999a9f9c95969390b1b2b7b4bdbebbb8a9aaafaca5a6a3a0e1e2e7e4edeeebe8f9fafffcf5f6f3f0d1d2d7d4dddedbd8c9cacfccc5c6c3c0414247444d4e4b48595a5f5c55565350717277747d7e7b78696a6f6c65666360212227242d2e2b28393a3f3c35363330111217141d1e1b18090a0f0c05060300;
  0xdbdfd3d7cbcfc3c7fbfff3f7ebefe3e79b9f93978b8f8387bbbfb3b7abafa3a75b5f53574b4f43477b7f73776b6f63671b1f13170b0f03073b3f33372b2f2327c6c2cecad6d2dedae6e2eeeaf6f2fefa86828e8a96929e9aa6a2aeaab6b2beba46424e4a56525e5a66626e6a76727e7a06020e0a16121e1a26222e2a36323e3ae1e5e9edf1f5f9fdc1c5c9cdd1d5d9dda1a5a9adb1b5b9bd8185898d9195999d6165696d7175797d4145494d5155595d2125292d3135393d0105090d1115191dfcf8f4f0ece8e4e0dcd8d4d0ccc8c4c0bcb8b4b0aca8a4a09c9894908c8884807c7874706c6864605c5854504c4844403c3834302c2824201c1814100c080400;
  0x24212e2b30353a3f0c090603181d121774717e7b60656a6f5c595653484d424784818e8b90959a9faca9a6a3b8bdb2b7d4d1dedbc0c5cacffcf9f6f3e8ede2e7797c73766d68676251545b5e45404f4a292c23263d38373201040b0e15101f1ad9dcd3d6cdc8c7c2f1f4fbfee5e0efea898c83869d989792a1a4abaeb5b0bfba9e9b94918a8f8085b6b3bcb9a2a7a8adcecbc4c1dadfd0d5e6e3ece9f2f7f8fd3e3b34312a2f202516131c190207080d6e6b64617a7f707546434c495257585dc3c6c9ccd7d2ddd8ebeee1e4fffaf5f09396999c87828d88bbbeb1b4afaaa5a06366696c77727d784b4e41445f5a55503336393c27222d281b1e11140f0a0500;
  0x383e343220262c2a080e040210161c1a585e545240464c4a686e646270767c7af8fef4f2e0e6eceac8cec4c2d0d6dcda989e949280868c8aa8aea4a2b0b6bcbaa5a3a9afbdbbb1b79593999f8d8b8187c5c3c9cfdddbd1d7f5f3f9ffedebe1e76563696f7d7b71775553595f4d4b41470503090f1d1b11173533393f2d2b21271f19131507010b0d2f29232537313b3d7f79737567616b6d4f49434557515b5ddfd9d3d5c7c1cbcdefe9e3e5f7f1fbfdbfb9b3b5a7a1abad8f89838597919b9d82848e889a9c9690b2b4beb8aaaca6a0e2e4eee8fafcf6f0d2d4ded8caccc6c042444e485a5c565072747e786a6c666022242e283a3c363012141e180a0c0600;
  0xc7c0c9cedbdcd5d2fff8f1f6e3e4edeab7b0b9beabaca5a28f88818693949d9a2720292e3b3c35321f18111603040d0a5750595e4b4c45426f68616673747d7a1a1d14130601080f22252c2b3e3930376a6d64637671787f52555c5b4e494047fafdf4f3e6e1e8efc2c5cccbded9d0d78a8d84839691989fb2b5bcbbaea9a0a760676e697c7b7275585f565144434a4d10171e190c0b0205282f262134333a3d80878e899c9b9295b8bfb6b1a4a3aaadf0f7fef9ecebe2e5c8cfc6c1d4d3daddbdbab3b4a1a6afa885828b8c999e9790cdcac3c4d1d6dfd8f5f2fbfce9eee7e05d5a535441464f4865626b6c797e77702d2a232431363f3815121b1c090e0700;
  0xaba3bbb38b839b93ebe3fbf3cbc3dbd32b233b330b031b136b637b734b435b53b6bea6ae969e868ef6fee6eed6dec6ce363e262e161e060e767e666e565e464e91998189b1b9a1a9d1d9c1c9f1f9e1e9111901093139212951594149717961698c849c94aca4bcb4ccc4dcd4ece4fcf40c041c142c243c344c445c546c647c74dfd7cfc7fff7efe79f978f87bfb7afa75f574f477f776f671f170f073f372f27c2cad2dae2eaf2fa828a929aa2aab2ba424a525a626a727a020a121a222a323ae5edf5fdc5cdd5dda5adb5bd858d959d656d757d454d555d252d353d050d151df8f0e8e0d8d0c8c0b8b0a8a09890888078706860585048403830282018100800;
  0x545d464f7079626b1c150e0738312a23c4cdd6dfe0e9f2fb8c859e97a8a1bab369607b724d445f562128333a050c171ef9f0ebe2ddd4cfc6b1b8a3aa959c878e2e273c350a031811666f747d424b5059beb7aca59a938881f6ffe4edd2dbc0c9131a0108373e252c5b5249407f766d64838a9198a7aeb5bccbc2d9d0efe6fdf4a0a9b2bb848d969fe8e1faf3ccc5ded73039222b141d060f78716a635c554e479d948f86b9b0aba2d5dcc7cef1f8e3ea0d041f1629203b32454c575e6168737adad3c8c1fef7ece5929b8089b6bfa4ad4a4358516e677c75020b1019262f343de7eef5fcc3cad1d8afa6bdb48b829990777e656c535a41483f362d241b120900;
  0x48425c56606a747e18120c06303a242ee8e2fcf6c0cad4deb8b2aca6909a848e151f010b3d372923454f515b6d677973b5bfa1ab9d978983e5eff1fbcdc7d9d3f2f8e6ecdad0cec4a2a8b6bc8a809e945258464c7a706e640208161c2a203e34afa5bbb1878d9399fff5ebe1d7ddc3c90f051b11272d33395f554b41777d6369212b353f09031d17717b656f59534d47818b959fa9a3bdb7d1dbc5cff9f3ede77c766862545e404a2c263832040e101adcd6c8c2f4fee0ea8c869892a4aeb0ba9b918f85b3b9a7adcbc1dfd5e3e9f7fd3b312f251319070d6b617f754349575dc6ccd2d8eee4faf0969c8288beb4aaa0666c72784e445a50363c22281e140a00;
  0xb7bca1aa9b908d86efe4f9f2c3c8d5de070c111a2b203d365f5449427378656ecac1dcd7e6edf0fb9299848fbeb5a8a37a716c67565d404b2229343f0e0518134d465b50616a777c151e030839322f24fdf6ebe0d1dac7cca5aeb3b889829f94303b262d1c170a0168637e75444f5259808b969daca7bab1d8d3cec5f4ffe2e95e5548437279646f060d101b2a213c37eee5f8f3c2c9d4dfb6bda0ab9a918c872328353e0f0419127b706d66575c414a9398858ebfb4a9a2cbc0ddd6e7ecf1faa4afb2b988839e95fcf7eae1d0dbc6cd141f020938332e254c475a51606b767dd9d2cfc4f5fee3e8818a979cada6bbb069627f74454e5358313a272c1d160b00;
  0x707c6864404c5854101c0804202c3834b0bca8a4808c9894d0dcc8c4e0ecf8f4ede1f5f9ddd1c5c98d819599bdb1a5a92d2135391d1105094d4155597d716569575b4f43676b7f73373b2f23070b1f13979b8f83a7abbfb3f7fbefe3c7cbdfd3cac6d2defaf6e2eeaaa6b2be9a96828e0a06121e3a36222e6a66727e5a56424e3e32262a0e02161a5e52464a6e62767afef2e6eacec2d6da9e92868aaea2b6baa3afbbb7939f8b87c3cfdbd7f3ffebe7636f7b77535f4b47030f1b17333f2b271915010d2925313d7975616d4945515dd9d5c1cde9e5f1fdb9b5a1ad8985919d84889c90b4b8aca0e4e8fcf0d4d8ccc044485c5074786c6024283c3014180c00;
  0x8f829598bbb6a1ace7eafdf0d3dec9c45f5245486b66717c373a2d20030e1914323f2825060b1c115a57404d6e637479e2eff8f5d6dbccc18a87909dbeb3a4a9e8e5f2ffdcd1c6cb808d9a97b4b9aea33835222f0c01161b505d4a4764697e7355584f42616c7b763d30272a0904131e85889f92b1bcaba6ede0f7fad9d4c3ce414c5b5675786f622924333e1d10070a919c8b86a5a8bfb2f9f4e3eecdc0d7dafcf1e6ebc8c5d2df94998e83a0adbab72c21363b1815020f44495e53707d6a67262b3c31121f08054e4354597a77606df6fbece1c2cfd8d59e938489aaa7b0bd9b96818cafa2b5b8f3fee9e4c7caddd04b46515c7f726568232e3934171a0d00;
  0x939d8f81aba5b7b9e3edfff1dbd5c7c9737d6f614b455759030d1f113b3527294e40525c76786a643e30222c06081a14aea0b2bc96988a84ded0c2cce6e8faf4343a28260c02101e444a58567c72606ed4dac8c6ece2f0fea4aab8b69c92808ee9e7f5fbd1dfcdc39997858ba1afbdb30907151b313f2d237977656b414f5d53c0cedcd2f8f6e4eab0beaca28886949a202e3c321816040a505e4c426866747a1d13010f252b39376d63717f555b4947fdf3e1efc5cbd9d78d83919fb5bba9a767697b755f51434d17190b052f21333d87899b95bfb1a3adf7f9ebe5cfc1d3ddbab4a6a8828c9e90cac4d6d8f2fceee05a544648626c7e702a243638121c0e00;
  0x6c63727d505f4e41141b0a05282736399c93828da0afbeb1e4ebfaf5d8d7c6c9919e8f80ada2b3bce9e6f7f8d5dacbc4616e7f705d52434c19160708252a3b348b84959ab7b8a9a6f3fcede2cfc0d1de7b74656a47485956030c1d123f30212e767968674a45545b0e01101f323d2c2386899897bab5a4abfef1e0efc2cddcd3bfb0a1ae838c9d92c7c8d9d6fbf4e5ea4f40515e737c6d62373829260b04151a424d5c537e71606f3a35242b06091817b2bdaca38e81909fcac5d4dbf6f9e8e758574649646b7a75202f3e311c13020da8a7b6b9949b8a85d0dfcec1ece3f2fda5aabbb499968788ddd2c3cce1eefff0555a4b44696677782d22333c111e0f00;
  0x4b5b6b7b0b1b2b3bcbdbebfb8b9babbb5646766616063626d6c6f6e69686b6a67161514131211101f1e1d1c1b1a191816c7c4c5c2c3c0c1cecfcccdcacbc8c9c3f2f1f0f7f6f5f4fbfaf9f8fffefdfcf2232021262724252a2b28292e2f2c2d205152535455565758595a5b5c5d5e5f518083828584878689888b8a8d8c8f8e8a3b38393e3f3c3d32333031363734353beae9e8efeeedece3e2e1e0e7e6e5e4e9989b9a9d9c9f9e919093929594979698494a4b4c4d4e4f40414243444546474d7c7f7e79787b7a75747776717073727cadaeafa8a9aaaba4a5a6a7a0a1a2a3aedfdcdddadbd8d9d6d7d4d5d2d3d0d1df0e0d0c0b0a090807060504030201000;
  0xb4a59687f0e1d2c33c2d1e0f78695a4bb9a89b8afdecdfce3120130275645746aebf8c9deafbc8d92637041562734051a3b28190e7f6c5d42b3a09186f7e4d5c8091a2b3c4d5e6f708192a3b4c5d6e7f8d9cafbec9d8ebfa05142736415063729a8bb8a9decffced12033021564774659786b5a4d3c2f1e01f0e3d2c5b4a7968dccdfeef9889baab5445766710013223d1c0f3e29584b7a659487b6a1d0c3f2ec6d7e4f58293a0b14e5f6c7d0a1b2839cbdae9f88f9eadbc4352617007162534e8f9cadbacbd8e9f6071425324350617e5f4c7d6a1b083926d7c4f5e29380b1af2e3d0c1b6a794857a6b58493e2f1c0dffeeddccbbaa99887766554433221100;
  0xa8ba8c9ee0f2c4d6382a1c0e706254469587b1a3ddcff9eb051721334d5f697bd2c0f6e49a88beac425066740a182e3ceffdcbd9a7b583917f6d5b49372513015c4e786a14063022ccdee8fa8496a0b261734557293b0d1ff1e3d5c7b9ab9d8f263402106e7c4a58b6a49280feecdac81b093f2d534177658b99afbdc3d1e7f55d4f796b15073123cddfe9fb8597a1b360724456283a0c1ef0e2d4c6b8aa9c8e273503116f7d4b59b7a59381ffeddbc91a083e2c524076648a98aebcc2d0e6f4a9bb8d9fe1f3c5d7392b1d0f716355479486b0a2dccef8ea041620324c5e687ad3c1f7e59b89bfad435167750b192f3deefccad8a6b482907e6c5a4836241200;
  0x574471621b083d2ecfdce9fa8390a5b67a695c4f36251003e2f1c4d7aebd889b0d1e2b38415267749586b3a0d9caffec203306156c7f4a59b8ab9e8df4e7d2c1e3f0c5d6afbc899a7b685d4e37241102cedde8fb8291a4b7564570631a093c2fb9aa9f8cf5e6d3c0213207146d7e4b589487b2a1d8cbfeed0c1f2a3940536675223104176e7d485bbaa99c8ff6e5d0c30f1c293a435065769784b1a2dbc8fdee786b5e4d34271201e0f3c6d5acbf8a9955467360190a3f2ccddeebf88192a7b49685b0a3dac9fcef0e1d283b42516477bba89d8ef7e4d1c2233005166f7c495accdfeaf98093a6b554477261180b3e2de1f2c7d4adbe8b98796a5f4c35261300;
  0x9084b8acc0d4e8fc3024180c6074485ccdd9e5f19d89b5a16d7945513d2915012a3e02167a6e52468a9ea2b6dacef2e677635f4b27330f1bd7c3ffeb8793afbbf9edd1c5a9bd8195594d7165091d2135a4b08c98f4e0dcc804102c3854407c6843576b7f13073b2fe3f7cbdfb3a79b8f1e0a36224e5a6672beaa9682eefac6d242566a7e12063a2ee2f6cadeb2a69a8e1f0b37234f5b6773bfab9783effbc7d3f8ecd0c4a8bc8094584c7064081c2034a5b18d99f5e1ddc905112d3955417d692b3f03177b6f53478b9fa3b7dbcff3e776625e4a26320e1ad6c2feea8692aeba9185b9adc1d5e9fd3125190d6175495dccd8e4f09c88b4a06c7844503c281400;
  0x6f7a45503b2e1104c7d2edf89386b9ac2237081d76635c498a9fa0b5decbf4e1f5e0dfcaa1b48b9e5d487762091c2336b8ad9287ecf9c6d310053a2f44516e7b46536c791207382deefbc4d1baaf90850b1e21345f4a7560a3b6899cf7e2ddc8dcc9f6e3889da2b774615e4b20350a1f9184bbaec5d0effa392c13066d7847523d281702697c43569580bfaac1d4ebfe70655a4f24310e1bd8cdf2e78c99a6b3a7b28d98f3e6d9cc0f1a25305b4e7164eaffc0d5beab94814257687d16033c2914013e2b40556a7fbca99683e8fdc2d7594c73660d182732f1e4dbcea5b08f9a8e9ba4b1dacff0e526330c197267584dc3d6e9fc9782bda86b7e41543f2a1500;
  0x73655f492b3d0711c3d5eff99b8db7a10e18223456407a6cbea89284e6f0cadc899fa5b3d1c7fdeb392f150361774d5bf4e2d8ceacba80964452687e1c0a30269a8cb6a0c2d4eef82a3c061072645e48e7f1cbddbfa9938557417b6d0f19233560764c5a382e1402d0c6fcea889ea4b21d0b31274553697fadbb8197f5e3d9cfbcaa9086e4f2c8de0c1a20365442786ec1d7edfb998fb5a371675d4b293f051346506a7c1e083224f6e0daccaeb882943b2d170163754f598b9da7b1d3c5ffe95543796f0d1b2137e5f3c9dfbdab9187283e041270665c4a988eb4a2c0d6ecfaafb98395f7e1dbcd1f09332547516b7dd2c4fee88a9ca6b062744e583a2c1600;
  0x8c9ba2b5d0c7fee934231a0d687f4651e1f6cfd8bdaa9384594e776005122b3c5641786f0a1d2433eef9c0d7b2a59c8b3b2c15026770495e8394adbadfc8f1e625320b1c796e57409d8ab3a4c1d6eff8485f667114033a2df0e7dec9acbb8295ffe8d1c6a3b48d9a4750697e1b0c35229285bcabced9e0f72a3d04137661584fc3d4edfa9f88b1a67b6c55422730091eaeb98097f2e5dccb1601382f4a5d6473190e372045526b7ca1b68f98fdead3c474635a4d283f0611ccdbe2f59087bea96a7d44533621180fd2c5fceb8e99a0b70710293e5b4c7562bfa89186e3f4cddab0a79e89ecfbc2d5081f263154437a6dddcaf3e48196afb865724b5c392e1700;
  0xe0f8d0c88098b0a820381008405870687d654d551d052d35bda58d95ddc5edf5c7dff7efa7bf978f071f372f677f574f5a426a723a220a129a82aab2fae2cad2aeb69e86ced6fee66e765e460e163e26332b031b534b637bf3ebc3db938ba3bb8991b9a1e9f1d9c14951796129311901140c243c746c445cd4cce4fcb4ac849c7c644c541c042c34bca48c94dcc4ecf4e1f9d1c98199b1a921391109415971695b436b733b230b139b83abb3fbe3cbd3c6def6eea6be968e061e362e667e564e322a021a524a627af2eac2da928aa2baafb79f87cfd7ffe76f775f470f173f27150d253d756d455dd5cde5fdb5ad859d8890b8a0e8f0d8c04850786028301800;
  0x1f062d347b624950d7cee5fcb3aa8198928ba0b9f6efc4dd5a4368713e270c1518012a337c654e57d0c9e2fbb4ad869f958ca7bef1e8c3da5d446f7639200b121108233a756c475ed9c0ebf2bda48f969c85aeb7f8e1cad3544d667f3029021b160f243d726b4059dec7ecf5baa388919b82a9b0ffe6cdd4534a6178372e051c031a3128677e554ccbd2f9e0afb69d848e97bca5eaf3d8c1465f746d223b1009041d362f6079524bccd5fee7a8b19a838990bba2edf4dfc64158736a253c170e0d143f2669705b42c5dcf7eea1b8938a8099b2abe4fdd6cf48517a632c351e070a1338216e775c45c2dbf0e9a6bf948d879eb5ace3fad1c84f567d642b321900;
  0x0319372d6b715f45d3c9e7fdbba18f95bea48a90d6cce2f86e745a40061c3228647e504a0c163822b4ae809adcc6e8f2d9c3edf7b1ab859f09133d27617b554fcdd7f9e3a5bf918b1d072933756f415b706a445e18022c36a0ba948ec8d2fce6aab09e84c2d8f6ec7a604e541208263c170d23397f654b51c7ddf3e9afb59b818298b6aceaf0dec45248667c3a200e143f250b11574d6379eff5dbc1879db3a9e5ffd1cb8d97b9a3352f011b5d47697358426c76302a041e8892bca6e0fad4ce4c567862243e100a9c86a8b2f4eec0daf1ebc5df9983adb7213b150f49537d672b311f054359776dfbe1cfd59389a7bd968ca2b8fee4cad0465c72682e341a00;
  0xfce7cad1908ba6bd243f120948537e65514a677c3d260b108992bfa4e5fed3c8bba08d96d7cce1fa6378554e0f143922160d203b7a614c57ced5f8e3a2b9948f7269445f1e052833aab19c87c6ddf0ebdfc4e9f2b3a8859e071c312a6b705d46352e031859426f74edf6dbc0819ab7ac9883aeb5f4efc2d9405b766d2c371a01fde6cbd0918aa7bc253e130849527f64504b667d3c270a118893bea5e4ffd2c9baa18c97d6cde0fb6279544f0e153823170c213a7b604d56cfd4f9e2a3b8958e7368455e1f042932abb09d86c7dcf1eadec5e8f3b2a9849f061d302b6a715c47342f021958436e75ecf7dac1809bb6ad9982afb4f5eec3d8415a776c2d361b00;
  0x3b27031f4b57736fdbc7e3ffabb7938fe6fadec2968aaeb2061a3e22766a4e529c80a4b8ecf0d4c87c6044580c103428415d7965312d0915a1bd9985d1cde9f56874504c1804203c8894b0acf8e4c0dcb5a98d91c5d9fde155496d7125391d01cfd3f7ebbfa3879b2f33170b5f43677b120e2a36627e5a46f2eecad6829ebaa69d81a5b9edf1d5c97d6145590d113529405c7864302c0814a0bc9884d0cce8f43a26021e4a56726edac6e2feaab6928ee7fbdfc3978bafb3071b3f23776b4f53ced2f6eabea2869a2e32160a5e42667a130f2b37637f5b47f3efcbd7839fbba76975514d1905213d8995b1adf9e5c1ddb4a88c90c4d8fce054486c7024381c00;
  0xc4d9fee3b0ad8a972c31160b5845627f0914332e7d60475ae1fcdbc69588afb2435e7964372a0d10abb6918cdfc2e5f88e93b4a9fae7c0dd667b5c41120f2835d7caedf0a3be99843f2205184b56716c1a07203d6e735449f2efc8d5869bbca1504d6a7724391e03b8a5829fccd1f6eb9d80a7bae9f4d3ce75684f52011c3b26e2ffd8c5968bacb10a17302d7e6344592f3215085b46617cc7dafde0b3ae899465785f42110c2b368d90b7aaf9e4c3dea8b5928fdcc1e6fb405d7a6734290e13f1eccbd68598bfa21904233e6d70574a3c21061b4855726fd4c9eef3a0bd9a87766b4c51021f38259e83a4b9eaf7d0cdbba6819ccfd2f5e8534e6974273a1d00;
  0xd8c6e4faa0be9c822836140a504e6c72253b19075d43617fd5cbe9f7adb3918f3f21031d47597b65cfd1f3edb7a98b95c2dcfee0baa48698322c0e104a5476680b153729736d4f51fbe5c7d9839dbfa1f6e8cad48e90b2ac06183a247e60425cecf2d0ce948aa8b61c02203e647a5846110f2d336977554be1ffddc39987a5bb637d5f411b052739938dafb1ebf5d7c99e80a2bce6f8dac46e70524c16082a34849ab8a6fce2c0de746a48560c12302e7967455b011f3d238997b5abf1efcdd3b0ae8c92c8d6f4ea405e7c623826041a4d53716f352b0917bda3819fc5dbf9e757496b752f31130da7b99b85dfc1e3fdaab49688d2cceef05a446678223c1e00;
  0x273819065b44657adfc0e1fea3bc9d82cad5f4ebb6a98897322d0c134e51706fe0ffdec19c83a2bd18072639647b5a450d12332c716e4f50f5eacbd48996b7a8b4ab8a95c8d7f6e94c53726d302f0e1159466778253a1b04a1be9f80ddc2e3fc736c4d520f10312e8b94b5aaf7e8c9d69e81a0bfe2fddcc3667958471a05243b1c03223d607f5e41e4fbdac59887a6b9f1eecfd08d92b3ac09163728756a4b54dbc4e5faa7b89986233c1d025f40617e362908174a55746bced1f0efb2ad8c938f90b1aef3eccdd2776849560b14352a627d5c431e01203f9a85a4bbe6f9d8c748577669342b0a15b0af8e91ccd3f2eda5ba9b84d9c6e7f85d42637c213e1f00;
  0x96b6d6f6163656768babcbeb0b2b4b6bac8ceccc2c0c6c4cb191f1d131117151e2c2a28262422202ffdfbf9f7f5f3f1fd8f898b858781838c5e585a5456505257e5e3e1efedebe9e63432303e3c3a38344640424c4e484a459791939d9f999b90a2a4a6a8aaacaea1737577797b7d7f730107050b090f0d02d0d6d4dad8dedcd5b7b1b3bdbfb9bbb46660626c6e686a661412101e1c1a1817c5c3c1cfcdcbc9c2f0f6f4faf8fefcf32127252b292f2d21535557595b5d5f50828486888a8c8e8b393f3d333137353ae8eeece2e0e6e4e89a9c9e90929496994b4d4f414345474c7e787a747670727dafa9aba5a7a1a3afdddbd9d7d5d3d1de0c0a08060402000;
  0x69482b0aedccaf8e7c5d3e1ff8d9ba9b43620120c7e685a456771435d2f390b13d1c7f5eb998fbda28096a4bac8deecf1736557493b2d1f00223406186a7c4e5c1e083a245640726d4f596b750711233ebcaa9886f4e2d0cfedfbc9d7a5b381995b4d7f61130537280a1c2e304254667bf9efddc3b1a7958aa8be8c92e0f6c4d24056647a081e2c331107352b594f7d60e2f4c6d8aabc8e91b3a59789fbeddfc70513213f4d5b69765442706e1c0a3825a7b1839deff9cbd4f6e0d2ccbea89a88cadceef08294a6b99b8dbfa1d3c5f7ea687e4c522036041b392f1d037167554d8f99abb5c7d1e3fcdec8fae49680b2af2d3b09176573415e7c6a58463422100;
  0x75573113fddfb99b785a3c1ef0d2b4966f4d2b09e7c5a38162402604eac8ae8c41630527c9eb8daf4c6e082ac4e680a25b791f3dd3f197b556741230defc9ab81d3f597b95b7d1f31032547698badcfe072543618fadcbe90a284e6c82a0c6e4290b6d4fa183e5c724066042ac8ee8ca33117755bb99ffdd3e1c7a58b694f2d0a587e1c32d0f694ba88aecce20026446bf9dfbd937157351b290f6d43a187e5c91b3d5f7193b5d7f9cbed8fa143650728ba9cfed0321476586a4c2e00e2c4a68cdef89ab45670123c0e284a6486a0c2ed7f593b15f7d1b39daf89ebc52701634f9dbbd9f71533517f4d6b0927c5e381ae3c1a7856b492f0deeccaa8866442200;
  0x8aa9ccef062540638facc9ea0320456680a3c6e50c2f4a6985a6c3e0092a4f6c9ebdd8fb123154779bb8ddfe1734517294b7d2f1183b5e7d91b2d7f41d3e5b78a281e4c72e0d684ba784e1c22b086d4ea88beecd24076241ad8eebc821026744b695f0d33a197c5fb390f5d63f1c795abc9ffad930137655b99affdc35167350daf99cbf56751033dffc99ba53701536d0f396b55c7f1a39d5f693b0597a1f3cceed88ab42610427cbe88dae47640122c4e782a1486b0e2dc1e287a44d6e0b28f2d1b4977e5d381bf7d4b1927b583d1ef8dbbe9d74573211fddebb9871523714e6c5a0836a492c0fe3c0a5866f4c290aeccfaa8960432605e9caaf8c65462300;
  0x4d690521ddf995b17054381ce0c4a88c37137f5ba783efcb0a2e42669abed2f6b99df1d5290d614584a0cce814305c78c3e78baf53771b3ffedab6926e4a2602b89cf0d4280c604485a1cde915315d79c2e68aae52761a3effdbb7936f4b27034c680420dcf894b07155391de1c5a98d36127e5aa682eeca0b2f43679bbfd3f7ba9ef2d62a0e624687a3cfeb17335f7bc0e488ac5074183cfdd9b5916d4925014e6a0622defa96b273573b1fe3c7ab8f34107c58a480ecc8092d416599bdd1f54f6b0723dffb97b372563a1ee2c6aa8e35117d59a581edc9082c406498bcd0f4bb9ff3d72b0f634786a2ceea16325e7ac1e589ad5175193dfcd8b4906c482400;
  0xb297f8dd26036c4987a2cde81336597cd8fd92b74c690623edc8a782795c331666432c09f2d7b89d5376193cc7e28da80c29466398bdd2f7391c7356ad88e7c207224d6893b6d9fc3217785da683ecc96d482702f9dcb396587d1237cce986a3d3f699bc47620d28e6c3ac897257381db99cf3d62d0867428ca9c6e3183d5277c5e08faa51741b3ef0d5ba9f64412e0baf8ae5c03b1e71549abfd0f50e2b446111345b7e85a0cfea24016e4bb095fadf7b5e3114efcaa5804e6b0421daff90b570553a1fe4c1ae8b45600f2ad1f49bbe1a3f50758eabc4e12f0a6540bb9ef1d4a481eecb30157a5f91b4dbfe05204f6aceeb84a15a7f1035fbdeb1946f4a2500;
  0xae88e2c436107a5c83a5cfe91b3d5771f4d2b89e6c4a2006d9ff95b341670d2b1a3c567082a4cee837117b5daf89e3c540660c2ad8fe94b26d4b2107f5d3b99fdbfd97b143650f29f6d0ba9c6e48220481a7cdeb193f5573ac8ae0c63412785e6f492305f7d1bb9d42640e28dafc96b03513795fad8be1c7183e547280a6ccea4462082edcfa90b6694f2503f1d7bd9b1e38527486a0caec33157f59ab8de7c1f0d6bc9a684e2402ddfb91b74563092faa8ce6c032147e5887a1cbed1f39537531177d5ba98fe5c31c3a507684a2c8ee6b4d2701f3d5bf9946600a2cdef892b485a3c9ef1d3b5177a88ee4c230167c5adff993b547610b2df2d4be986a4c2600;
  0x51761f38cdea83a474533a1de8cfa6811b3c557287a0c9ee3e197057a285eccbc5e28bac597e1730e0c7ae897c5b32158fa8c1e613345d7aaa8de4c33611785f64432a0df8dfb69141660f28ddfa93b42e096047b295fcdb0b2c456297b0d9fef0d7be996c4b2205d5f29bbc496e0720ba9df4d32601684f9fb8d1f603244d6a3b1c7552a780e9ce1e39507782a5cceb71563f18edcaa38454731a3dc8ef86a1af88e1c633147d5a8aadc4e31631587fe5c2ab8c795e3710c0e78ea95c7b12350e29406792b5dcfb2b0c6542b790f9de44630a2dd8ff96b161462f08fddab3949abdd4f30621486fbf98f1d623046d4ad0f79eb94c6b0225f5d2bb9c694e2700;
  0x3d156d459db5cde560483018c0e890b887afd7ff270f775fdaf28aa27a522a02547c042cf4dca48c09215971a981f9d1eec6be964e661e36b39be3cb133b436befc7bf974f671f37b29ae2ca123a426a557d052df5dda58d08205870a880f8d086aed6fe260e765edbf38ba37b532b033c146c449cb4cce461493119c1e991b984acd4fc240c745cd9f189a1795129013e166e469eb6cee6634b331bc3eb93bbedc5bd954d651d35b098e0c810384068577f072ff7dfa78f0a225a72aa82fad2567e062ef6dea68e0b235b73ab83fbd3ecc4bc944c641c34b199e1c9113941693f176f479fb7cfe7624a321ac2ea92ba85add5fd250d755dd8f088a078502800;
  0xc2eb90b9664f341d97bec5ec331a614868413a13cce59eb73d146f4699b0cbe28ba2d9f02f067d54def78ca57a5328012108735a85acd7fe745d260fd0f982ab5079022bf4dda68f052c577ea188f3dafad3a8815e770c25af86fdd40b22597019304b62bd94efc64c651e37e8c1ba93b39ae1c8173e456ce6cfb49d426b1039fbd2a9805f760d24ae87fcd50a2358715178032af5dca78e042d567fa089f2dbb29be0c9163f446de7ceb59c436a113818314a63bc95eec74d641f36e9c0bb9269403b12cde49fb63c156e4798b1cae3c3ea91b8674e351c96bfc4ed321b60492009725b84add6ff755c270ed1f883aa8aa3d8f12e077c55dff68da47b522900;
  0xdef48aa0765c220893b9c7ed3b116f45446e103aecc6b89209235d77a18bf5dff7dda3895f750b21ba90eec41238466c6d473913c5ef91bb200a745e88a2dcf68ca6d8f2240e705ac1eb95bf69433d17163c4268be94eac05b710f25f3d9a78da58ff1db0d275973e8c2bc96406a143e3f156b4197bdc3e97258260cdaf08ea47a502e04d2f886ac371d63499fb5cbe1e0cab49e48621c36ad87f9d3052f517b5379072dfbd1af851e344a60b69ce2c8c9e39db7614b351f84aed0fa2c06785228027c5680aad4fe654f311bcde799b3b298e6cc1a304e64ffd5ab81577d0329012b557fa983fdd74c661832e4ceb09a9bb1cfe53319674dd6fc82a87e542a00;
  0x210a775c8da6dbf0644f3219c8e39eb5ab80fdd6072c517aeec5b8934269143f28037e5584afd2f96d463b10c1ea97bca289f4df0e255873e7ccb19a4b601d363318654e9fb4c9e2765d200bdaf18ca7b992efc4153e4368fcd7aa81507b062d3a116c4796bdc0eb7f542902d3f885aeb09be6cd1c374a61f5dea38859720f24052e5378a982ffd4406b163decc7ba918fa4d9f22308755ecae19cb7664d301b0c275a71a08bf6dd49621f34e5ceb39886add0fb2a017c57c3e895be6f443912173c416abb90edc65279042ffed5a8839db6cbe0311a674cd8f38ea5745f22091e354863b299e4cf5b700d26f7dca18a94bfc2e938136e45d1fa87ac7d562b00;
  0xe6cabe92567a0e229bb7c3ef2b07735f1c304468ac80f4d8614d3915d1fd89a50f23577bbf93e7cb725e2a06c2ee9ab6f5d9ad8145691d3188a4d0fc3814604c2905715d99b5c1ed54780c20e4c8bc90d3ff8ba7634f3b17ae82f6da1e32466ac0ec98b4705c2804bd91e5c90d2155793a16624e8aa6d2fe476b1f33f7dbaf8365493d11d5f98da11834406ca884f0dc9fb3c7eb2f03775be2ceba96527e0a268ca0d4f83c106448f1dda985416d1935765a2e02c6ea9eb20b27537fbb97e3cfaa86f2de1a36426ed7fb8fa3674b3f13507c0824e0ccb8942d0175599db1c5e9436f1b37f3dfab873e12664a8ea2d6fab995e1cd0925517dc4e89cb074582c00;
  0x1934436ead80f7da6c41361bd8f582aff3dea984476a1d3086abdcf1321f6845d0fd8aa764493e13a588ffd2113c4b663a17604d8ea3d4f94f621538fbd6a18c96bbcce1220f7855e3ceb994577a0d207c51260bc8e592bf0924537ebd90e7ca5f720528ebc6b19c2a07705d9eb3c4e9b598efc2012c5b76c0ed9ab774592e031a37406dae83f4d96f423518dbf681acf0ddaa8744691e3385a8dff2311c6b46d3fe89a4674a3d10a68bfcd1123f48653914634e8da0d7fa4c61163bf8d5a28f95b8cfe2210c7b56e0cdba9754790e237f522508cbe691bc0a27507dbe93e4c95c71062be8c5b29f2904735e9db0c7eab69becc1022f5875c3ee99b4775a2d00;
  0x052b5977bd93e1cf6846341ad0fe8ca2dff183ad67493b15b29ceec00a245678ac82f0de143a4866c1ef9db37957250b76582a04cee092bc1b354769a38dffd14a641638f2dcae8027097b559fb1c3ed90becce22806745afdd3a18f456b1937e3cdbf915b7507298ea0d2fc36186a443917654b81afddf3547a0826ecc2b09e9bb5c7e9230d7f51f6d8aa844e60123c416f1d33f9d7a58b2c02705e94bac8e6321c6e408aa4d6f85f71032de7c9bb95e8c6b49a507e0c2285abd9f73d13614fd4fa88a66c42301eb997e5cb012f5d730e20527cb698eac4634d3f11dbf587a97d53210fc5eb99b7103e4c62a886f4daa789fbd51f31436dcae496b8725c2e00;
  0xfad5a48b466918379fb0c1ee230c7d52301f6e418ca3d2fd557a0b24e9c6b798735c2d02cfe091be16394867aa85f4dbb996e7c8052a5b74dcf382ad604f3e11f5daab844966173890bfcee12c03725d3f10614e83acddf25a75042be6c9b8977c53220dc0ef9eb119364768a58afbd4b699e8c70a25547bd3fc8da26f40311ee4cbba955877062981aedff03d12634c2e01705f92bdcce34b64153af7d8a9866d42331cd1fe8fa008275679b49beac5a788f9d61b34456ac2ed9cb37e51200febc4b59a577809268ea1d0ff321d6c43210e7f509db2c3ec446b1a35f8d7a689624d3c13def180af07285976bb94e5caa887f6d9143b4a65cde293bc715e2f00;
  0xddedbd8d1d2d7d4d4070201080b0e0d0faca9aaa3a0a5a6a67570737a797c7f793a3f3c3536333030e3e6e5ecefeae9eb484d4e47444142429194979e9d989b94171211181b1e1d1dcecbc8c1c2c7c4c66560636a696c6f6fbcb9bab3b0b5b6b0f3f6f5fcfffaf9f92a2f2c25262320228184878e8d888b8b585d5e575451525f8c898a83808586865550535a595c5f5dfefbf8f1f2f7f4f4272221282b2e2d2b686d6e6764616262b1b4b7bebdb8bbb91a1f1c1516131010c3c6c5cccfcac9c64540434a494c4f4f9c999a9390959694373231383b3e3d3deeebe8e1e2e7e4e2a1a4a7aeada8abab787d7e7774717270d3d6d5dcdfdad9d90a0f0c050603000;
  0x22134071e6d784b5b786d5e47342112015247746d1e0b38280b1e2d3447526174c7d2e1f88b9eadbd9e8bb8a1d2c7f4e7b4a1928bf8eddeceedf8cbd2a1b4879fecf9cad3a0b58696b5a0938af9ecdfcc9f8ab9a0d3c6f5e5c6d3e0f98a9facb90a1f2c35465360705346756c1f0a392a796c5f46352013032035061f6c794a587b6e5d44372211012237041d6e7b485b081d2e37445162725144776e1d083b2e9d88bba2d1c4f7e7c4d1e2fb889daebdeefbc8d1a2b78494b7a29188fbeeddc5b6a39089faefdccceffac9d0a3b68596c5d0e3fa899cafbf9c89baa3d0c5f6e35045766f1c093a2a091c2f36455063702336051c6f7a49597a6f5c453623100;
  0x3e0c5a68f6c492a0b381d7e57b491f2d390b5d6ff1c395a7b486d0e27c4e182a30025466f8ca9caebd8fd9eb7547112337055361ffcd9ba9ba88deec7240162422104674ead88ebcaf9dcbf96755033125174173eddf89bba89accfe605204362c1e487ae4d680b2a193c5f7695b0d3f2b194f7de3d187b5a694c2f06e5c0a3806346250cefcaa988bb9efdd4371271501336557c9fbad9f8cbee8da44762012083a6c5ec0f2a49685b7e1d34d7f291b0f3d6b59c7f5a39182b0e6d44a782e1c1a287e4cd2e0b68497a5f3c15f6d3b091d2f794bd5e7b18390a2f4c6586a3c0e14267042dceeb88a99abfdcf5163350713217745dbe9bf8d9eacfac856643200;
  0xc1f2a7940d3e6b584477221188bbeeddd6e5b0831a297c4f536035069facf9caefdc89ba231045766a590c3fa695c0f3f8cb9ead340752617d4e1b28b182d7e49daefbc851623704182b7e4dd4e7b2818ab9ecdf467520130f3c695ac3f0a596b380d5e67f4c192a36055063fac99cafa497c2f1685b0e3d21124774edde8bb8794a1f2cb586d3e0fccf9aa9300356656e5d083ba291c4f7ebd88dbe27144172576431029ba8fdced2e1b4871e2d784b407326158cbfead9c5f6a390093a6f5c25164370e9da8fbca093c6f56c5f0a3932015467fecd98abb784d1e27b481d2e0b386d5ec7f4a1928ebde8db427124171c2f7a49d0e3b68599aaffcc55663300;
  0x06326e5ad6e2be8abb8fd3e76b5f03376155093db185d9eddce8b4800c386450c8fca094182c704475411d29a591cdf9af9bc7f37f4b172312267a4ec2f6aa9e87b3efdb57633f0b3a0e5266eade82b6e0d488bc3004586c5d6935018db9e5d1497d211599adf1c5f4c09ca824104c782e1a4672feca96a293a7fbcf43772b1f192d7145c9fda195a490ccf874401c287e4a1622ae9ac6f2c3f7ab9f13277b4fd7e3bf8b07336f5b6a5e0236ba8ed2e6b084d8ec6054083c0d396551dde9b58198acf0c4487c201425114d79f5c19da9ffcb97a32f1b477342762a1e92a6face56623e0a86b2eedaebdf83b73b0f53673105596de1d589bd8cb8e4d05c683400;
  0xf9cc93a62d1847724c79261398adf2c78ebbe4d15a6f30053b0e5164efda85b017227d48c3f6a99ca297c8fd76431c2960550a3fb481deebd5e0bf8a01346b5e380d5267ecd986b38db8e7d2596c33064f7a25109baef1c4facf90a52e1b4471d6e3bc890237685d6356093cb782dde8a194cbfe75401f2a14217e4bc0f5aa9f66530c39b287d8edd3e6b98c07326d5811247b4ec5f0af9aa491cefb70451a2f88bde2d75c6936033d085762e9dc83b6ffca95a02b1e41744a7f20159eabf4c1a792cdf87346192c1227784dc6f3ac99d0e5ba8f04316e5b65500f3ab184dbee497c23169da8f7c2fcc996a3281d42773e0b5461eadf80b58bbee1d45f6a3500;
  0xe5d389bf3d0b5167487e241290a6fccaa294cef87a4c16200f396355d7e1bb8d6b5d0731b385dfe9c6f0aa9c1e2872442c1a4076f4c298ae81b7eddb596f3503e4d288be3c0a5066497f251391a7fdcba395cff97b4d17210e386254d6e0ba8c6a5c0630b284dee8c7f1ab9d1f2973452d1b4177f5c399af80b6ecda586e3402e7d18bbd3f0953654a7c261092a4fec8a096ccfa784e14220d3b6157d5e3b98f695f0533b187ddebc4f2a89e1c2a70462e184274f6c09aac83b5efd95b6d3701e6d08abc3e0852644b7d271193a5ffc9a197cdfb794f15230c3a6056d4e2b88e685e0432b086dceac5f3a99f1d2b71472f194375f7c19bad82b4eed85a6c3600;
  0x1a2d7443c6f1a89fbf88d1e663540d3a4d7a231491a6ffc8e8df86b134035a6db483daed685f063111267f48cdfaa394e3d48dba3f0851664671281f9aadf4c35b6c350287b0e9defec990a722154c7b0c3b6255d0e7be89a99ec7f075421b2cf5c29bac291e477050673e098cbbe2d5a295ccfb7e4910270730695edbecb58298aff6c144732a1d3d0a5364e1d68fb8cff8a19613247d4a6a5d0433b681d8ef3601586feadd84b393a4fdca4f78211661560f38bd8ad3e4c4f3aa9d182f7641d9eeb78005326b5c7c4b1225a097cef98eb9e0d752653c0b2b1c4572f7c099ae7740192eab9cc5f2d2e5bc8b0e39605720174e79fccb92a585b2ebdc596e3700;
  0x764e063e96aee6deab93dbe34b733b03d1e9a199310941790c347c44ecd49ca4251d556dc5fdb58df8c088b01820685082baf2ca625a122a5f672f17bf87cff7d0e8a098300840780d357d45edd59da5774f073f97afe7dfaa92dae24a723a0283bbf3cb635b132b5e662e16be86cef6241c546cc4fcb48cf9c189b119216951271f576fc7ffb78ffac28ab21a226a5280b8f0c8605810285d652d15bd85cdf5744c043c94ace4dca991d9e149713901d3eba39b330b437b0e367e46eed69ea681b9f1c9615911295c642c14bc84ccf4261e566ec6feb68efbc38bb31b236b53d2eaa29a320a427a0f377f47efd79fa7754d053d95ade5dda890d8e048703800;
  0x89b0fbc26d541f265c652e17b881caf33e074c75dae3a891ebd299a00f367d44fac388b11e276c552f165d64cbf2b9804d743f06a990dbe298a1ead37c450e376f561d248bb2f9c0ba83c8f15e672c15d8e1aa933c054e770d347f46e9d09ba21c256e57f8c18ab3c9f0bb822d145f66ab92d9e04f763d047e470c359aa3e8d158612a13bc85cef78db4ffc669501b22efd69da40b3279403a034871dee7ac952b125960cff6bd84fec78cb51a2368519ca5eed778410a3349703b02ad94dfe6be87ccf55a6328116b5219208fb6fdc409307b42edd49fa6dce5ae9738014a73cdf4bf8629105b6218216a53fcc58eb77a4308319ea7ecd5af96dde44b723900;
  0x95afe1db7d47093358622c16b08ac4fe1228665cfac08eb4dfe5ab91370d437986bcf2c86e541a204b713f05a399d7ed013b754fe9d39da7ccf6b882241e506ab389c7fd5b612f157e440a3096ace2d8340e407adce6a892f9c38db7112b655fa09ad4ee48723c066d57192385bff1cb271d5369cff5bb81ead09ea40238764cd9e3ad97310b457f142e605afcc688b25e642a10b68cc2f893a9e7dd7b410f35caf0be842218566c073d7349efd59ba14d773903a59fd1eb80baf4ce68521c26ffc58bb1172d63593208467cdae0ae9478420c3690aae4deb58fc1fb5d672913ecd698a2043e704a211b556fc9f3bd876b511f2583b9f7cda69cd2e84e743a00;
  0x6a511c2786bdf0cbaf94d9e24378350efdc68bb0112a675c38034e75d4efa29959622f14b58ec3f89ca7ead1704b063dcef5b8832219546f0b307d46e7dc91aa0c377a41e0db96adc9f2bf84251e53689ba0edd6774c013a5e652813b289c4ff3f044972d3e8a59efac18cb7162d605ba893dee5447f32096d561b2081baf7cca69dd0eb4a713c076358152e8fb4f9c2310a477cdde6ab90f4cf82b918236e5595aee3d879420f34506b261dbc87caf10239744feed598a3c7fcb18a2b105d66c0fbb68d2c175a61053e7348e9d29fa4576c211abb80cdf692a9e4df7e450833f3c885be1f246952360d407bdae1ac97645f122988b3fec5a19ad7ec4d763b00;
  0xad91d5e95d612519506c2814a09cd8e44a76320eba86c2feb78bcff3477b3f037e42063a8eb2f6ca83bffbc7734f0b3799a5e1dd6955112d64581c2094a8ecd0162a6e52e6da9ea2ebd793af1b27635ff1cd89b5013d79450c307448fcc084b8c5f9bd8135094d713804407cc8f4b08c221e5a66d2eeaa96dfe3a79b2f13576bc6fabe82360a4e723b07437fcbf7b38f211d5965d1eda995dce0a4982c10546815296d51e5d99da1e8d490ac1824605cf2ce8ab6023e7a460f33774bffc387bb7d4105398db1f5c980bcf8c4704c08349aa6e2de6a56122e675b1f2397abefd3ae92d6ea5e62261a536f2b17a39fdbe74975310db985c1fdb488ccf044783c00;
  0x526f2815a69bdce1a79adde0536e2914a598dfe2516c2b16506d2a17a499dee3a19cdbe655682f1254692e13a09ddae7566b2c11a29fd8e5a39ed9e4576a2d10a994d3ee5d60271a5c61261ba895d2ef5e632419aa97d0edab96d1ec5f6225185a67201dae93d4e9af92d5e85b66211cad90d7ea5964231e5865221fac91d6ebb984c3fe4d70370a4c71360bb885c2ff4e733409ba87c0fdbb86c1fc4f7235084a77300dbe83c4f9bf82c5f84b76310cbd80c7fa4974330e4875320fbc81c6fb427f3805b68bccf1b78acdf0437e3904b588cff2417c3b06407d3a07b489cef3b18ccbf645783f0244793e03b08dcaf7467b3c01b28fc8f5b38ec9f4477a3d00;
  0x4e70320cb688caf4a39ddfe15b65271989b7f5cb714f0d33645a18269ca2e0dedde3a19f251b5967300e4c72c8f6b48a1a246658e2dc9ea0f7c98bb50f31734d754b09378db3f1cf98a6e4da605e1c22b28ccef04a7436085f61231da799dbe5e6d89aa41e20625c0b357749f3cd8fb1211f5d63d9e7a59bccf2b08e340a48763806447ac0febc82d5eba9972d13516fffc183bd07397b45122c6e50ead496a8ab95d7e9536d2f1146783a04be80c2fc6c52102e94aae8d681bffdc37947053b033d7f41fbc587b9eed092ac16286a54c4fab8863c02407e2917556bd1efad9390aeecd26856142a7d43013f85bbf9c757692b15af91d3edba84c6f8427c3e00;
  0xb18ecff04d72330c546b2a15a897d6e9665918279aa5e4db83bcfdc27f40013e023d7c43fec180bfe7d899a61b24655ad5eaab9429165768300f4e71ccf3b28dcaf5b48b360948772f10516ed3ecad921d22635ce1de9fa0f8c786b9043b7a457946073885bafbc49ca3e2dd605f1e21ae91d0ef526d2c134b74350ab788c9f647783906bb84c5faa29ddce35e61201f90afeed16c53122d754a0b3489b6f7c8f4cb8ab508377649112e6f50edd293ac231c5d62dfe0a19ec6f9b8873a05447b3c03427dc0ffbe81d9e6a798251a5b64ebd495aa172869560e31704ff2cd8cb38fb0f1ce734c0d326a55142b96a9e8d758672619a49bdae5bd82c3fc417e3f00;
  0x3171b1f12c6cacec0b4b8bcb165696d64505c5855818d8987f3fffbf6222e2a2d9995919c4844404e3a36323febe7e3eaded2d6db0f0307097d717578aca0a4afcbc7c3ce1a16121c6864606db9b5b1b88c8084895d51555b2f23272afef2f6f145494d4094989c92e6eaeee3373b3f36020e0a07d3dfdbd5a1ada9a4707c787b6f63676abeb2b6b8ccc0c4c91d11151c2824202df9f5f1ff8b87838e5a565255e1ede9e4303c3836424e4a47939f9b92a6aaaea3777b7f7105090d00d4d8dcd7b3bfbbb6626e6a64101c1815c1cdc9c0f4f8fcf125292d23575b5f52868a8e893d313538ece0e4ea9e92969b4f43474e7a76727faba7a3add9d5d1dc0804000;
  0xce8f4c0dd7965514fcbd7e3fe5a46726aaeb2869b3f2317098d91a5b81c00342064784c51f5e9ddc3475b6f72d6cafee6223e0a17b3af9b85011d2934908cb8a4302c1805a1bd8997130f3b26829eaab2766a5e43e7fbcfd155497d60c4d8ecf8bca094892d31051b9f83b7aa0e12263efae6d2cf6b77435dd9c5f1ec4854607c9884b0ad0915213fbba7938e2a36021adec2f6eb4f536779fde1d5c86c70445014083c218599adb3372b1f02a6ba8e96524e7a67c3dfebf5716d5944e0fcc8d4405c6875d1cdf9e7637f4b56f2eedac2061a2e33978bbfa125390d10b4a89c88ccd0e4f95d41756beff3c7da7e62564e8a96a2bf1b07332da9b5819c3824100;
  0xd2905614c7854301f8ba7c3eedaf692b86c4024093d11755acee286ab9fb3d7f7a38febc6f2deba95012d4964507c1832e6caae83b79bffd044680c2115395d79fdd1b598ac80e4cb5f73173a0e22466cb894f0dde9c5a18e1a36527f4b670323775b3f12260a6e41d5f99db084a8cce6321e7a57634f2b0490bcd8f5c1ed89a480acc8e5d1fd99b6220e6a47735f3b11c5e98da094b8dcf3674b2f02361a7e5e0a26426f5b77133ca884e0cdf9d5b19b4f63072a1e325679edc1a588bc90f4d054781c3105294d62f6dabe93a78befc5113d5974406c0827b39ffbd6e2ceaa8adef296bb8fa3c7e87c5034192d01654f9bb7d3fecae682ad3915715c6844200;
  0x2d6eabe83c7fbaf90f4c89ca1e5d98db692aefac783bfebd4b08cd8e5a19dc9fa5e62360b4f7327187c4014296d51053e1a26724f0b37635c3804506d29154172063a6e53172b7f4024184c7135095d66427e2a17536f3b04605c0835714d192a8eb2e6db9fa3f7c8ac90c4f9bd81d5eecaf6a29fdbe7b38ce8d480bdf9c591a3774b1f22665a0e3155693d0044782c17330f5b66221e4a75112d7944003c685bffc397aaeed286b9dde1b588ccf0a49fbb87d3eeaa96c2fd99a5f1cc88b4e0d3a79bcff2b68adee185b9edd094a8fcc7e3df8bb6f2ce9aa5c1fda994d0ecb88b2f13477a3e0256690d3165581c20744f6b57033e7a46122d4975211c5864300;
  0xeaae6226e7a36f2bf0b4783cfdb97531de9a5612d3975b1fc4804c08c98d410582c60a4e8fcb074398dc105495d11d59b6f23e7abbff3377ace82460a1e5296d3a7eb2f63773bffb2064a8ec2d69a5e10e4a86c203478bcf14509cd8195d91d55216da9e5f1bd793480cc0844501cd896622eeaa6b2fe3a77c38f4b07135f9bd5713df9b5a1ed2964d09c5814004c88c6327ebaf6e2ae6a2793df1b57430fcb83f7bb7f33276bafe2561ade9286ca0e40b4f83c706428eca115599dd1c5894d087c30f4b8ace02469dd9155190d4185cb3f73b7fbefa3672a9ed2165a4e02c68efab6723e2a66a2ef5b17d39f8bc7034db9f5317d6925e1ac185490dcc884400;
  0x15509fda1c5996d307428dc80e4b84c13174bbfe387db2f72366a9ec2a6fa0e55d18d7925411de9b4f0ac5804603cc89793cf3b67035fabf6b2ee1a46227e8ad85c00f4a8cc9064397d21d589edb1451a1e42b6ea8ed2267b3f6397cbaff3075cd884702c4814e0bdf9a5510d6935c19e9ac6326e0a56a2ffbbe7134f2b7783d286da2e72164abee3a7fb0f53376b9fc0c4986c305408fca1e5b94d117529dd86025eaaf692ce3a67237f8bd7b3ef1b44401ce8b4d08c7825613dc995f1ad590b8fd3277b1f43b7eaaef2065a3e6296c9cd9165395d01f5a8ecb044187c20d48f0b57a3ff9bc7336e2a7682debae6124d4915e1bdd985712c6834c09cf8a4500;
  0x094f85c30c4a80c603458fc906408acc1d5b91d7185e94d217519bdd12549ed82167adeb2462a8ee2b6da7e12e68a2e43573b9ff3076bcfa3f79b3f53a7cb6f0591fd5935c1ad0965315df995610da9c4d0bc187480ec4824701cb8d4204ce887137fdbb7432f8be7b3df7b17e38f2b46523e9af6026ecaa6f29e3a56a2ce6a0a9ef2563acea2066a3e52f69a6e02a6cbdfb3177b8fe3472b7f13b7db2f43e7881c70d4b84c2084e8bcd07418ec8024495d3195f90d61c5a9fd913559adc1650f9bf7533fcba7036f3b57f39f6b07a3cedab6127e8ae6422e7a16b2de2a46e28d1975d1bd492581edb9d5711de985214c583490fc0864c0acf894305ca8c4600;
  0xf6b1783ff7b0793ef4b37a3df5b27b3cf2b57c3bf3b47d3af0b77e39f1b67f38feb97037ffb87136fcbb7235fdba7334fabd7433fbbc7532f8bf7631f9be7730e6a1682fe7a0692ee4a36a2de5a26b2ce2a56c2be3a46d2ae0a76e29e1a66f28eea96027efa86126ecab6225edaa6324eaad6423ebac6522e8af6621e9ae6720d691581fd790591ed4935a1dd5925b1cd2955c1bd3945d1ad0975e19d1965f18de995017df985116dc9b5215dd9a5314da9d5413db9c5512d89f5611d99e5710c681480fc780490ec4834a0dc5824b0cc2854c0bc3844d0ac0874e09c1864f08ce894007cf884106cc8b4205cd8a4304ca8d4403cb8c4502c88f4601c98e4700;
  0x9ad20a42a7ef377fe0a87038dd954d056e26feb6531bc38b145c84cc2961b9f16f27ffb7521ac28a155d85cd2860b8f09bd30b43a6ee367ee1a97139dc944c046d25fdb55018c088175f87cf2a62baf299d10941a4ec347ce3ab733bde964e0698d00840a5ed357de2aa723adf974f076c24fcb45119c189165e86ce2b63bbf36921f9b1541cc48c135b83cb2e66bef69dd50d45a0e83078e7af773fda924a029cd40c44a1e93179e6ae763edb934b036820f8b0551dc58d125a82ca2f67bff79ed60e46a3eb337be4ac743cd99149016a22fab2571fc78f105880c82d65bdf56b23fbb3561ec68e115981c92c64bcf49fd70f47a2ea327ae5ad753dd8904800;
  0x652cf7be5c15ce87175e85cc2e67bcf581c8135ab8f12a63f3ba6128ca835811b0f9226b89c01b52c28b5019fbb26920541dc68f6d24ffb6266fb4fd1f568dc4d29b4009eba27930a0e9327b99d00b42367fa4ed0f469dd4440dd69f7d34efa6074e95dc3e77ace5753ce7ae4c05de97e3aa7138da93480191d8034aa8e13a73165f84cd2f66bdf4642df6bf5d14cf86f2bb6029cb82591080c9125bb9f02b62c38a5118fab36821b1f8236a88c11a53276eb5fc1e578cc5551cc78e6c25feb7a1e8337a98d10a43d39a4108eaa37831450cd79e7c35eea7377ea5ec0e479cd5743de6af4d04df96064f94dd3f76ade490d9024ba9e03b72e2ab7039db924900;
  0x7933eda74c06d892135987cd266cb2f8ade7397398d20c46c78d5319f2b8662ccc865812f9b36d27a6ec327893d9074d18528cc62d67b9f37238e6ac470dd3990e449ad03b71afe5642ef0ba511bc58fda904e04efa57b31b0fa246e85cf115bbbf12f658ec41a50d19b450fe4ae703a6f25fbb15a10ce84054f91db307aa4ee97dd0349a2e8367cfdb76923c8825c164309d79d763ce2a82963bdf71c5688c22268b6fc175d83c94802dc967d37e9a3f6bc6228c389571d9cd60842a9e33d77e0aa743ed59f410b8ac01e54bff52b61347ea0ea014b95df5e14ca806b21ffb5551fc18b602af4be3f75abe10a409ed481cb155fb4fe206aeba17f35de944a00;
  0x86cd105bb7fc216ae4af7239d59e43084209d49f7338e5ae206bb6fd115a87cc135885ce2269b4ff713ae7ac400bd69dd79c410ae6ad703bb5fe236884cf1259b1fa276c80cb165dd398450ee2a9743f753ee3a8440fd299175c81ca266db0fb246fb2f9155e83c8460dd09b773ce1aae0ab763dd19a470c82c9145fb3f8256ee8a37e35d9924f048ac11c57bbf02d662c67baf11d568bc04e05d8937f34e9a27d36eba04c07da911f5489c22e65b8f3b9f22f6488c31e55db904d06eaa17c37df944902eea57833bdf62b608cc71a511b508dc62a61bcf77932efa44803de954a01dc977b30eda62863bef519528fc48ec51853bff42962eca77a31dd964b00;
  0x410dd9956c20f4b81b5783cf367aaee2f5b96d21d894400cafe3377b82ce1a563478ace0195581cd6e22f6ba430fdb9780cc1854ade13579da96420ef7bb6f23abe7337f86ca1e52f1bd6925dc9044081f5387cb327eaae64509dd916824f0bcde92460af3bf6b2784c81c50a9e5317d6a26f2be470bdf93307ca8e41d5185c988c4105ca5e93d71d29e4a06ffb3672b3c70a4e8115d89c5662afeb24b07d39ffdb16529d09c4804a7eb3f738ac6125e4905d19d6428fcb0135f8bc73e72a6ea622efab64f03d79b3874a0ec15598dc1d69a4e02fbb7632f8cc01458a1ed3975175b8fc33a76a2ee4d01d599602cf8b4a3ef3b778ec2165af9b5612dd4984c00;
  0xbef3246997da0d40eca1763bc5885f121a5780cd337ea9e44805d29f612cfbb6eba6713cc28f5815b9f4236e90dd0a474f02d598662bfcb11d5087ca3479aee314598ec33d70a7ea460bdc916f22f5b8b0fd2a6799d4034ee2af7835cb86511c410cdb966825f2bf135e89c43a77a0ede5a87f32cc81561bb7fa2d609ed30449f7ba6d20de934409a5e83f728cc1165b531ec9847a37e0ad014c9bd62865b2ffa2ef38758bc6115cf0bd6a27d994430e064b9cd12f62b5f85419ce837d30e7aa5d10c78a7439eea30f4295d8266bbcf1f9b4632ed09d4a07abe6317c82cf1855084592df216cbbf65a17c08d733ee9a4ace1367b85c81f52feb36429d79a4d00;
  0xa2ec3e7087c91b55e8a6743acd83511f3678aae4135d8fc17c32e0ae5917c58b97d90b45b2fc2e60dd93410ff8b6642a034d9fd12668baf44907d59b6c22f0bec886541aeda3713f82cc1e50a7e93b755c12c08e7937e5ab16588ac4337dafe1fdb3612fd896440ab7f92b6592dc0e406927f5bb4c02d09e236dbff106489ad47638eaa4531dcf813c72a0ee195785cbe2ac7e30c7895b15a8e6347a8dc3115f430ddf916628fab4094795db2c62b0fed7994b05f2bc6e209dd3014fb8f6246a1c5280ce3977a5eb5618ca84733defa188c6145aade3317fc28c5e10e7a97b352967b5fb0c4290de632dffb14608da94bdf3216f98d6044af7b96b25d29c4e00;
  0x5d12c38c7c33e2ad1f5081ce3e71a0efd9964708f8b766299bd4054abaf5246b4807d6996926f7b80a4594db2b64b5facc83521deda2733c8ec1105fafe0317e7738e9a65619c887357aabe4145b8ac5f3bc6d22d29d4c03b1fe2f6090df0e41622dfcb3430cdd92206fbef1014e9fd0e6a97837c7885916a4eb3a7585ca1b54094697d82867b6f94b04d59a6a25f4bb8dc2135cace3327dcf80511eeea1703f1c5382cd3d72a3ec5e11c08f7f30e1ae98d70649b9f62768da95440bfbb4652a236cbdf2024d9cd3612effb0400fde91a7e8397686c91857e5aa7b34c48b5a153679a8e7175889c6743beaa5551acb84b2fd2c6393dc0d42f0bf6e21d19e4f00;
  0x7a2ada8a277787d7c09060309dcd3d6d1343b3e34e1eeebea9f90959f4a45404a8f80858f5a555051242b2e24f1fefbfc19161319ccc3c6c7b2bdb8b267686d6c39363339ece3e6e7929d989247484d4aafa0a5af7a757071040b0e04d1dedbd1141b1e14c1cecbcabfb0b5bf6a656067828d888257585d5c29262329fcf3f6f1545b5e54818e8b8afff0f5ff2a252027c2cdc8c217181d1c69666369bcb3b6bc79767379aca3a6a7d2ddd8d207080d0aefe0e5ef3a353031444b4e44919e9b9acfc0c5cf1a151011646b6e64b1bebbbc595653598c838687f2fdf8f227282d27e2ede8e237383d3c494643499c939691747b7e74a1aeabaadfd0d5df0a05000;
  0x85d42776dc8d7e2f376695c46e3fcc9dfcad5e0fa5f407564e1fecbd1746b5e47726d5842e7f8cddc59467369ccd3e6f0e5facfd5706f5a4bced1e4fe5b447167c2dde8f257487d6ce9f6c3d97c635640554a7f65c0dfeafb7e61544eebf4c1d8edf2c7dd78675243c6d9ecf6534c796f7a65504aeff0c5d4514e7b61c4dbeef6a3bc899336291c0d8897a2b81d023721342b1e04a1be8b9a1f00352f8a95a0b98c93a6bc19063322a7b88d97322d180e1b04312b8e91a4b5302f1a00a5ba8f993c23160ca9b6839217083d27829da8beabb4819b3e211405809faab0150a3f26130c39238699acbd38271208adb28791849baeb4110e3b2aafb0859f3a25100;
  0x99cb3d6fcc9e683a336197c56634c290d082742685d721737a28de8c2f7d8bd90b59affd5e0cfaa8a1f30557f4a650024210e6b41745b3e1e8ba4c1ebdef194ba0f20456f5a751030a58aefc5f0dfba9e9bb4d1fbcee184a4311e7b51644b2e0326096c46735c39198ca3c6ecd9f693b7b29df8d2e7c8ad8d183752784d62072ebb94f1dbeec1a484113e5b71446b0e2a2f00654f7a55301085aacfe5d0ff9ab792bdd8f2c7e88dad381772586d42270306294c66537c1939ac83e6ccf9d6b39d280762487d52371782adc8e2d7f89db9bc93f6dce9c6a38316395c76436c0924012e4b61547b1e3eab84e1cbfed1b49095badff5c0ef8aaa3f10755f6a45200;
  0x6635c093376491c2c497623195c633603f6c99ca6e3dc89b9dce3b68cc9f6a39d487722185d623707625d083277481d28dde2b78dc8f7a292f7c89da7e2dd88b1f4cb9ea4e1de8bbbdee1b48ecbf4a194615e0b31744b1e2e4b74211b5e61340adfe0b58fcaf5a090f5ca9fa5e0df8abf4a75201a5f603505605f0a30754a1f294c73261c5966330366590c36734c192cd9e6b389ccf3a696f3cc99a3e6d98cb267580d37724d18284d72271d58673207f2cd98a2e7d88dbdd8e7b288cdf2a79edbe4b18bcef1a494f1ce9ba1e4db8ebb4e71241e5b643101645b0e34714e1b25f0cf9aa0e5da8fbfdae5b08acff0a590655a0f35704f1a2a4f70251f5a65300;
  0xa1f5095decb844103b6f93c77622de8a88dc2074c5916d391246baee5f0bf7a3f3a75b0fbeea1642693dc19524708cd8da8e722697c33f6b4014e8bc0d59a5f10551adf9481ce0b49fcb3763d2867a2e2c7884d06135c99db6e21e4afbaf53075703ffab1a4eb2e6cd99653180d4287c7e2ad68233679bcfe4b04c18a9fd0155f4a05c08b9ed11456e3ac69223778bdfdd89752190c4386c4713efbb0a5ea2f6a6f20e5aebbf43173c6894c07125d98d8fdb2773c2966a3e1541bde9580cf0a45004f8ac1d49b5e1ca9e623687d32f7b792dd18534609cc8e3b74b1faefa06520256aafe4f1be7b398cc3064d5817d292b7f83d76632ce9ab1e5194dfca85400;
  0x5e0bf4a11742bde8cc99663385d02f7a6732cd982e7b84d1f5a05f0abce916432c7986d36530cf9abeeb1441f7a25d081540bfea5c09f6a387d22d78ce9b6431baef1045f3a6590c287d82d76134cb9e83d6297cca9f60351144bbee580df2a7c89d623781d42b7e5a0ff0a51346b9ecf1a45b0eb8ed12476336c99c2a7f80d58bde2174c297683d194cb3e65005faafb2e7184dfbae510420758adf693cc396f9ac5306b0e51a4f6b3ec194227788ddc0956a3f89dc23765207f8ad1b4eb1e46f3ac59026738cd9fda85702b4e11e4b5603fca91f4ab5e0c4916e3b8dd827721d48b7e25401feab8fda2570c6936c3924718edb6d38c792b6e31c49ffaa5500;
  0x4214eeb80751abfdc89e64328ddb21774b1de7b10e58a2f4c1976d3b84d2287e5006fcaa1543b9efda8c76209fc93365590ff5a31c4ab0e6d3857f2996c03a6c6630ca9c23758fd9ecba4016a9ff05536f39c3952a7c86d0e5b3491fa0f60c5a7422d88e31679dcbfea85204bbed17417d2bd187386e94c2f7a15b0db2e41e480a5ca6f04f19e3b580d62c7ac593693f0355aff94610eabc89df2573cc9a6036184eb4e25d0bf1a792c43e68d7817b2d1147bdeb5402f8ae9bcd3761de8872242e7882d46b3dc791a4f2085ee1b74d1b27718bdd6234ce98adfb0157e8be44123c6a90c6792fd583b6e01a4cf3a55f09356399cf7026dc8abfe91345faac5600;
  0xbdea1344fcab52053f6891c67e29d087a4f30a5de5b24b1c267188df6730c99e8fd82176ce9960370d5aa3f44c1be2b596c1386fd780792e1443baed5502fbacd98e772098cf36615b0cf5a21a4db4e3c0976e3981d62f784215ecbb0354adfaebbc4512aafd0453693ec790287f86d1f2a55c0bb3e41d4a7027de8931669fc87522db8c34639acdf7a0590eb6e1184f6c3bc2952d7a83d4eeb94017aff801564710e9be0651a8ffc5926b3c84d32a7d5e09f0a71f48b1e6dc8b72259dca33641146bfe85007fea993c43d6ad2857c2b085fa6f1491ee7b08add2473cb9c653223748dda6235cc9ba1f60f58e0b74e193a6d94c37b2cd582b8ef1641f9ae5700;
  0xd1896139acf41c442b739bc3560ee6be386088d0451df5adc29a722abfe70f571e46aef6633bd38be4bc540c99c12971f7af471f8ad23a620d55bde57028c098520ae2ba2f779fc7a8f01840d58d653dbbe30b53c69e762e4119f1a93c648cd49dc52d75e0b85008673fd78f1a42aaf2742cc49c0951b9e18ed63e66f3ab431bca927a22b7ef075f306880d84d15fda5237b93cb5e06eeb6d9816931a4fc144c055db5ed7820c890ffa74f1782da326aecb45c0491c92179164ea6fe6b33db834911f9a1346c84dcb3eb035bce967e26a0f81048dd856d355a02eab2277f97cf86de366efba34b137c24cc940159b1e96f37df87124aa2fa95cd257de8b05800;
  0x2e779cc5570ee5bcdc856e37a5fc174ed78e653caef71c45257c97ce5c05eeb7c198732ab8e10a53336a81d84a13f8a138618ad34118f3aaca937821b3ea0158edb45f0694cd267f1f46adf4663fd48d144da6ff6d34df86e6bf540d9fc62d74025bb0e97b22c990f0a9421b89d03b62fba2491082db30690950bbe27029c29bb5ec075ecc957e27471ef5ac3e678cd54c15fea7356c87debee70c55c79e752c5a03e8b1237a91c8a8f11a43d188633aa3fa1148da8368315108e3ba28719ac3762fc49d0f56bde484dd366ffda44f168fd63d64f6af441d7d24cf96045db6ef99c02b72e0b9520b6b32d980124ba0f96039d28b1940abf292cb2079ebb25900;
  0x326886dc471df3a9d8826c36adf71943fba14f158ed43a60114ba5ff643ed08abde70953c8927c26570de3b9227896cc742ec09a015bb5ef9ec42a70ebb15f05316b85df441ef0aadb816f35aef41a40f8a24c168dd739631248a6fc673dd389bee40a50cb917f25540ee0ba217b95cf772dc3990258b6ec9dc72973e8b25c06346e80da411bf5afde846a30abf11f45fda7491388d23c66174da3f96238d68cbbe10f55ce947a20510be5bf247e90ca7228c69c075db3e998c22c76edb75903376d83d94218f6acdd876933a8f21c46fea44a108bd13f65144ea0fa613bd58fb8e20c56cd9779235208e6bc277d93c9712bc59f045eb0ea9bc12f75eeb45a00;
  0xcd967b20bce70a512f7499c25e05e8b3144fa2f9653ed388f6ad401b87dc316a6239d48f1348a5fe80db366df1aa471cbbe00d56ca917c275902efb428739ec58ed53863ffa449126c37da811d46abf0570ce1ba267d90cbb5ee0358c49f7229217a97cc500be6bdc398752eb2e9045ff8a34e1589d23f641a41acf76b30dd864b10fda63a618cd7a9f21f44d8836e3592c9247fe3b8550e702bc69d015ab7ece4bf520995ce2378065db0eb772cc19a3d668bd04c17faa1df846932aef518430853bee57922cf94eab15c079bc02d76d18a673ca0fb164d336885de4219f4afa7fc114ad68d603b451ef3a8346f82d97e25c8930f54b9e29cc72a71edb65b00;
  0x0a56b2ee673bdf83d08c6834bde10559a3ff1b47ce92762a7925c19d1448acf04519fda1287490cc9fc3277bf2ae4a16ecb0540881dd3965366a8ed25b07e3bf94c82c70f9a5411d4e12f6aa237f9bc73d6185d9500ce8b4e7bb5f038ad6326edb87633fb6ea0e52015db9e56c30d488722eca961f43a7fba8f4104cc5997d212b7793cf461afea2f1ad49159cc0247882de3a66efb3570b5804e0bc35698dd16438dc800955b1edbee2065ad38f6b37cd917529a0fc1844174baff37a26c29eb5e90d51d884603c6f33d78b025ebae61c40a4f8712dc995c69a7e22abf7134ffaa6421e97cb2f73207c98c44d11f5a9530febb73e6286da89d5316de4b85c00;
  0xf5a84f129cc1267b277a9dc04e13f4a94c11f6ab25789fc29ec32479f7aa4d109ac7207df3ae49144815f2af217c9bc6237e99c44a17f0adf1ac4b1698c5227f2b7691cc421ff8a5f9a4431e90cd2a7792cf2875fba6411c401dfaa7297493ce4419fea32d7097ca96cb2c71ffa24518fda0471a94c92e732f7295c8461bfca15409eeb33d6087da86db3c61efb25508edb0570a84d93e633f6285d8560becb13b6681dc520fe8b5e9b4530e80dd3a6782df3865ebb6510c500deab7396483de8ad7306de3be59045805e2bf316c8bd6336e89d45a07e0bde1bc5b0688d5326fe5b85f028cd1366b376a8dd05e03e4b95c01e6bb35688fd28ed33469e7ba5d00;
  0xe9b7550b8cd2306e237d9fc14618faa4603edc82055bb9e7aaf41648cf91732de6b85a0483dd3f612c7290ce4917f5ab6f31d38d0a54b6e8a5fb1947c09e7c22f7a94b1592cc2e703d6381df5806e4ba7e20c29c1b45a7f9b4ea0856d18f6d33f8a6441a9dc3217f326c8ed05709ebb5712fcd93144aa8f6bbe50759de80623cd58b6937b0ee0c521f41a3fd7a24c6985c02e0be396785db96c82a74f3ad4f11da846638bfe1035d104eacf2752bc997530defb136688ad499c7257bfca2401ecb957729aef0124c015fbde3643ad886421cfea027799bc588d6346aedb3510fc49a7826a1ff1d430e50b2ec6b35d7894d13f1af287694ca87d93b65e2bc5e00;
  0x1649a8f77728c996d48b6a35b5ea0b548fd0316eeeb1500f4d12f3ac2c7392cd396687d85807e6b9fba4451a9ac5247ba0ff1e41c19e7f20623ddc83035cbde24817f6a9297697c88ad5346bebb4550ad18e6f30b0ef0e51134cadf2722dcc936738d9860659b8e7a5fa1b44c49b7a25fea1401f9fc0217e3c6382dd5d02e3bcaaf5144bcb94752a6837d6890956b7e8336c8dd2520decb3f1ae4f1090cf2e7185da3b64e4bb5a054718f9a6267998c71c43a2fd7d22c39cde81603fbfe0015ef4ab4a1595ca2b74366988d75708e9b66d32d38c0c53b2edaff0114ece91702fdb84653abae5045b1946a7f87827c699421dfca3237c9dc280df3e61e1be5f00;
  0xa7c767073a5afa9a80e040201d7dddbde98929497414b4d4ceae0e6e533393f33b5bfb9ba6c666061c7cdcbc81e141217515b5d5e8882848523292f2cfaf0f6f82e242221f7fdfbfa5c565053858f898ccac0c6c513191f1eb8b2b4b7616b6d61e7edebe83e343233959f999a4c46404503090f0cdad0d6d7717b7d7ea8a2a4aed8d2d4d7010b0d0caaa0a6a573797f7a3c363033e5efe9e84e444241979d9b97111b1d1ec8c2c4c563696f6cbab0b6b3f5fff9fa2c262021878d8b885e54525c8a80868553595f5ef8f2f4f7212b2d286e646261b7bdbbba1c161013c5cfc9c543494f4c9a909697313b3d3ee8e2e4e1a7adaba87e747273d5dfd9da0c06000;
  0x58399afbc1a003627716b5d4ee8f2c4d0667c4a59ffe5d3c2948eb8ab0d17213e48526477d1cbfdecbaa0968523390f1badb78192342e18095f457360c6dceaf3d5cff9ea4c566071273d0b18bea49286302a1c0fa9b38594c2d8eefd5b4177681e043221879dabbaecf6c0d3756f594dfbe1d7c462784e5f09132536908abca92f350310b6ac9a8bddc7f1e2445e687ccad0e6f553497f6e38221407a1bb8d92e4fec8db7d675140160c3a298f95a3b7011b2d3e9882b4a5f3e9dfcc6a70465f79635546e0faccdd8b91a7b412083e2a9c86b0a3051f29386e744251f7eddbc4b2a89e8d2b310716405a6c7fd9c3f5e1574d7b68ced4e2f3a5bf899a3c26100;
  0x442680e2d1b315777311b7d5e68422402a48ee8cbfdd7b191d7fd9bb88ea4c2e98fa5c3e0d6fc9abafcd6b093a58fe9cf69432506301a7c5c1a30567543690f2e18325477416b0d2d6b41270432187e58fed4b291a78debcb8da7c1e2d4fe98b3d5ff99ba8ca6c0e0a68ceac9ffd5b39533197f5c6a402606406a0c2f19335571371d7b586e442202446e082b1d375177d1fb9dbe88a2c4e4a288eecdfbd1b79cfad0b695a389efcf89a3c5e6d0fa9cba1c365073456f09296f452300361c7a5b6d472102341e78581e345271476d0b2d8ba1c7e4d2f89ebef8d2b497a18bedc6a08aeccff9d3b595d3f99fbc8aa0c6e0466c0a291f355373351f795a6c46200;
  0xbbd87d1e2a49ec8f84e742211576d3b0c5a60360543792f1fa993c5f6b08adce472481e2d6b51073781bbedde98a2f4c395aff9ca8cb6e0d0665c0a397f451325e3d98fbcfac096a6102a7c4f09336552043e685b1d277141f7cd9ba8eed482ba2c164073350f5969dfe5b380c6fcaa9dcbf1a794d2e8be8e38025467211b4d76c0faac9fd9e3b58533095f6c2a104671271d4b783e045262d4eeb88bcdf7a1990f356350162c7a4afcc690a3e5df89bee8d284b7f1cb9dad1b21774402386e589ea4f2c187bdebdb6d570132744e182f79431526605a0c3c8ab0e6d593a9ffc7516b3d0e48722414a298cefdbb81d7e0b68cdae9af95c3f3457f291a5c66300;
  0x7c18b4d0f195395d7b1fb3d7f6923e5a7216badeff9b37537511bdd9f89c30546004a8cced8925416703afcbea8e22466e0aa6c2e3872b4f690da1c5e4802c4844208ce8c9ad016543278befceaa06624a2e82e6c7a30f6b4d2985e1c0a4086c583c90f4d5b11d795f3b97f3d2b61a7e56329efadbbf1377513599fddcb814700c68c4a081e5492d0b6fc3a786e24e2a0266caae8feb47230561cda988ec40241074d8bc9df955311773dfbb9afe52361e7ad6b293f75b3f197dd1b594f05c383450fc98b9dd71153357fb9fbeda76123a5ef296b7d37f1b3d59f591b0d4781c284ce084a5c16d092f4be783a2c66a0e2642ee8aabcf63072145e98dacc86400;
  0x83e6492c0a6fc0a58ce946230560cfaa9df857321471debb92f7583d1b7ed1b4bfda75103653fc99b0d57a1f395cf396a1c46b0e284de287aecb64012742ed88fb9e31547217b8ddf4913e5b7d18b7d2e5802f4a6c09a6c3ea8f20456306a9ccc7a20d684e2b84e1c8ad026741248beed9bc137650359affd6b31c795f3a95f07316b9dcfa9f30557c19b6d3f5903f5a6d08a7c2e4812e4b6207a8cdeb8e21444f2a85e0c6a30c6940258aefc9ac036651349bfed8bd12775e3b94f1d7b21d780b6ec1a482e7482d0461ceab8de847221570dfba9cf956331a7fd0b593f6593c3752fd98bedb7411385df297b1d47b1e294ce386a0c56a0f2643ec89afca6500;
  0x9ff953351a7cd6b088ee44220d6bc1a7b1d77d1b3452f89ea6c06a0c2345ef89c3a50f6946208aecd4b2187e51379dfbed8b2147680ea4c2fa9c36507f19b3d52741eb8da2c46e083056fc9ab5d3791f096fc5a38cea40261e78d2b49bfd57317b1db7d1fe9832546c0aa0c6e98f2543553399ffd0b61c7a42248ee8c7a10b6df2943e587711bbdde583294f6006accadcba1076593f95f3cbad07614e2882e4aec862042b4de781b9df75133c5af09680e64c2a0563c9af97f15b3d1274deb84a2c86e0cfa903655d3b91f7d8be14726402a8cee1872d4b7315bfd9f6903a5c1670dabc93f55f390167cdab84e2482e385ef492bddb71172f49e385aacc6600;
  0x6007aec9e1862f487f18b1d6fe9930575e3990f7dfb8117641268fe8c0a70e691c7bd2b59dfa53340364cdaa82e54c2b2245ec8ba3c46d0a3d5af394bcdb721598ff5631197ed7b087e0492e0661c8afa6c1680f2740e98eb9de7710385ff691e4832a4d6502abccfb9c35527a1db4d3dabd14735b3c95f2c5a20b6c44238aed8dea43240c6bc2a592f55c3b1374ddbab3d47d1a3255fc9baccb62052d4ae384f1963f587017bed9ee8920476f08a1c6cfa801664e2980e7d0b71e7951369ff87512bbdcf4933a5d6a0da4c3eb8c25424b2c85e2caad046354339afdd5b21b7c096ec7a088ef46211671d8bf97f0593e3750f99eb6d1781f284fe681a9ce6700;
  0x0c64dcb4b1d961096b03bbd3d6be066ec2aa127a7f17afc7a5cd751d1870c8a08de55d353058e088ea823a52573f87ef432b93fbfe962e46244cf49c99f14921137bc3abaec67e16741ca4ccc9a11971ddb50d656008b0d8bad26a02076fd7bf92fa422a2f47ff97f59d254d482098f05c348ce4e18931593b53eb8386ee563e325ae28a8fe75f37553d85ede8803850fc942c44412991f99bf34b23264ef69eb3db630b0e66deb6d4bc046c6901b9d17d15adc5c0a810781a72caa2a7cf771f2d45fd9590f840284a229af2f79f274fe38b335b5e368ee684ec543c3951e981acc47c141179c1a9cba31b73761ea6ce620ab2dadfb70f67056dd5bdb8d06800;
  0xf39a21484a2398f19cf54e27254cf79e2d44ff9694fd462f422b90f9fb922940523b80e9eb8239503d54ef8684ed563f8ce55e37355ce78ee38a31585a3388e1acc57e17157cc7aec3aa11787a13a8c1721ba0c9cba219701d74cfa6a4cd761f0d64dfb6b4dd660f620bb0d9dbb20960d3ba01686a03b8d1bcd56e07056cd7be4d249ff6f49d264f224bf0999bf2492093fa41282a43f891fc952e47452c97feec853e57553c87ee83ea51383a53e881325be0898be259305d348fe6e48d365f127bc0a9abc279107d14afc6c4ad167fcca51e77751ca7cea3ca71181a73c8a1b3da61080a63d8b1dcb50e67650cb7de6d04bfd6d4bd066f026bd0b9bbd26900;
  0xef853b515a308ee498f24c262d47f993016bd5bfb4de600a761ca2c8c3a9177d2e44fa909bf14f2559338de7ec863852c0aa147e751fa1cbb7dd63090268d6bc701aa4cec5af117b076dd3b9b2d8660c9ef44a202b41ff95e9833d575c3688e2b1db650f046ed0bac6ac12787319a7cd5f358be1ea803e542842fc969df74923cca618727913adc7bbd16f050e64dab02248f69c97fd4329553f81ebe08a345e0d67d9b3b8d26c067a10aec4cfa51b71e389375d563c82e894fe402a214bf59f533987ede68c3258244ef09a91fb452fbdd769030862dcb6caa01e747f15abc192f8462c274df399e58f315b503a84ee7c16a8c2c9a31d770b61dfb5bed46a00;
  0x107bc6ada1ca771c6f04b9d2deb50863ee8538535f3489e291fa472c204bf69df19a274c402b96fd8ee558333f54e9820f64d9b2bed56803701ba6cdc1aa177ccfa419727e15a8c3b0db660d016ad7bc315ae78c80eb563d4e2598f3ff9429422e45f8939ff44922513a87ece08b365dd0bb066d610ab7dcafc479121e75c8a3b3d8650e0269d4bfcca71a717d16abc04d269bf0fc972a413259e48f83e8553e523984efe388355e2d46fb909cf74a21acc77a111d76cba0d3b8056e6209b4df6c07bad1ddb60b601378c5aea2c9741f92f9442f2348f59eed863b505c378ae18de65b303c57ea81f299244f432895fe7318a5cec2a9147f0c67dab1bdd66b00;
  0xd7bb0f637a16a2ce90fc48243d51e589593581edf4982c401e72c6aab3df6b07d6ba0e627b17a3cf91fd49253c50e488583480ecf5992d411f73c7abb2de6a06d5b90d617814a0cc92fe4a263f53e78b5b3783eff69a2e421c70c4a8b1dd6905d4b80c607915a1cd93ff4b273e52e68a5a3682eef79b2f431d71c5a9b0dc6804d3bf0b677e12a6ca94f84c203955e18d5d3185e9f09c28441a76c2aeb7db6f03d2be0a667f13a7cb95f94d213854e08c5c3084e8f19d29451b77c3afb6da6e02d1bd09657c10a4c896fa4e223b57e38f5f3387ebf29e2a461874c0acb5d96d01d0bc08647d11a5c997fb4f233a56e28e5e3286eaf39f2b471975c1adb4d86c00;
  0x2845f29f81ec5b36670abdd0cea31479b6db6c011f72c5a8f994234e503d8ae70964d3bea0cd7a17462b9cf1ef82355897fa4d203e53e489d8b5026f711cabc66a07b0ddc3ae19742548ff928ce1563bf4992e435d3087eabbd6610c127fc8a54b2691fce28f38550469deb3adc0771ad5b80f627c11a6cb9af7402d335ee984acc1761b0568dfb2e38e39544a2790fd325fe8859bf6412c7d10a7cad4b90e638de0573a2449fe93c2af18756b06b1dc137ec9a4bad7600d5c3186ebf5982f42ee833459472a9df0a1cc7b160865d2bf701daac7d9b4036e3f52e58896fb4c21cfa21578660bbcd180ed5a372944f39e513c8be6f895224f1e73c4a9b7da6d00;
  0x345ae88691ff4d23630dbfd1c6a81a749af446283f51e38dcda3117f6806b4da751ba9c7d0be0c62224cfe9087e95b35dbb507697e10a2cc8ce2503e2947f59bb6d86a04137dcfa1e18f3d53442a98f61876c4aabdd3610f4f2193fdea843658f7992b45523c8ee0a0ce7c12056bd9b7593785ebfc92204e0e60d2bcabc577192d43f19f88e6543a7a14a6c8dfb1036d83ed5f312648fa94d4ba0866711fadc36c02b0dec9a7157b3b55e7899ef0422cc2ac1e706709bbd595fb4927305eec82afc1731d0a64d6b8f896244a5d3381ef016fddb3a4ca781656388ae4f39d2f41ee80325c4b2597f9b9d7650b1c72c0ae402e9cf2e58b39571779cba5b2dc6e00;
  0xcba4157a6a05b4db94fb4a25355aeb84751aabc4d4bb0a652a45f49b8be4553aaac5741b0b64d5baf59a2b44543b8ae5147bcaa5b5da6b044b2495faea85345b0966d7b8a8c77619563988e7f7982946b7d869061679c8a7e8873659492697f86807b6d9c9a617783758e98696f94827d6b908677718a9c689e657382847f699523d8ce3f39c2d420d62d3bcacc3721dec83325d4d2293fcb3dc6d02127dcca3335ced8292fd4c236c03b2ddcda2137c8de2533c2c43f29dd2bd0c63731cadc290ff4e21315eef80cfa0117e6e01b0df2e41f09f8fe0513e711eafc0d0bf0e61f19e2f40503f8ee1aec1701f0f60d1be4f2091feee81305f107fcea1b1de6f00;
  0xec9c0c7c3141d1a14b3babdb96e67606bfcf5f2f621282f21868f888c5b525554a3aaada97e77707ed9d0d7d3040d0a01969f989c4b42454bece5e2e631383f3bdcd5d2d601080f01a6afa8ac7b72757ee9e0e7e3343d3a34939a9d994e474041b6bfb8bc6b62656bccc5c2c611181f14838a8d895e57505ef9f0f7f3242d2a24e3eaede93e37303e99909793444d4a41d6dfd8dc0b02050baca5a2a671787f7e89808783545d5a54f3fafdf92e27202bbcb5b2b661686f61c6cfc8cc1b121511f6fff8fc2b22252b8c85828651585f54c3cacdc91e17101eb9b0b7b3646d6a6b9c95929641484f41e6efe8ec3b32353ea9a0a7a3747d7a74d3daddd90e07000;
  0x1362f180cabb2859bccd5e2f651487f65021b2c389f86b1aff8e1d6c2657c4b595e477064c3daedf3a4bd8a9e3920170d6a734450f7eed9c79089beaa0d142330273e091dbaa3948addc4f3e740596e74130a3d298e97a0bee9f0c7d3746d5a484f566175d2cbfce2b5ac9b8f2831061c7b625541e6ffc8d68198afbb1c053223140d3a2e8990a7b9eef7c0d4736a5d4720390e1abda4938ddac3f4e0475e697b7c655246e1f8cfd1869fa8bc1b02352f48516672d5ccfbe5b2ab9c882f360112051c2b3f9881b6a8ffe6d1c5627b4c5631281f0bacb5829ccbd2e5f1564f786a6d744357f0e9dec0978eb9ad0a13243e59407763c4ddeaf4a3ba8d993e27100;
  0x0f7deb99daa83e4cb8ca5c2e6d1f89fb7c0e98eaa9db4d3fcbb92f5d1e6cfa88e99b0d7f3c4ed8aa5e2cbac88bf96f1d9ae87e0c4f3dabd92d5fc9bbf88a1c6edeac3a480b79ef9d691b8dffbcce582aaddf493b780a9cee1a68fe8ccfbd2b59384adcaeed9f097b8ffd6b195a28becc4b39afdd9eec7a08fc8e186a295bcdbfb0c25426651781f30775e391d2a03644c3b127551664f280740690e2a1d345375624b2c083f16715e19305773446d0a22557c1b3f082146692e076044735a3d1611385f7b4c65022d6a432400371e7951260f684c7b52351a5d74133700294e687f563115220b6c43042d4a6e5970173f48610622153c5b74331a7d596e47200;
  0xf08316652152c7b44f3ca9da9eed780b93e075064231a4d72c5fcab9fd8e1b683645d0a3e794017289fa6f1c582bbecd5526b3c084f76211ea990c7f3b48ddae611287f4b0c35625dead384b0f7ce99a0271e497d3a03546bdce5b286c1f8af9a7d44132760590e3186bfe8dc9ba2f5cc4b722511566f3807b089deeaad94c3fcfbc295a1e6df88b700396e5a1d24734acdf4a397d0e9be81360f586c2b12457097aef9cd8ab3e4db6c55023671481f26a198cffbbc85d2ed5a633400477e2915e2db8cb8ffc691ae19207743043d6a53d4edba8ec9f0a7982f164175320b5c698eb7e0d493aafdc2754c1b2f6851063fb881d6e2a59ccbf4437a2d195e67300;
  0x3743dfabfa8e1266b0c4582c7d0995e12450ccb8e99d0175a3d74b3f6e1a86f21165f98ddca8344096e27e0a5b2fb3c70276ea9ecfbb275385f16d19483ca0d47b0f93e7b6c25e2afc8814603145d9ad681c80f4a5d14d39ef9b07732256cabe5d29b5c190e4780cdaae32461763ff8b4e3aa6d283f76b1fc9bd21550470ec98afdb473362168afe285cc0b4e5910d79bcc85420710599ed3b4fd3a7f6821e6a89fd61154430acd80e7ae692c3b72b5f9aee72065723bfcb1d69f581d0a4384ce3970b7f2e5ac6b264108cf8a9dd4135f084186c3d49d5a177039febbace5226c5b12d59087ce0944236aade8ffb6713d6a23e4a1b6ff3875125b9cd9ce87400;
  0xc8bd22570174eb9e4732add88efb6411cbbe21540277e89d4431aedb8df86712cebb24510772ed984134abde88fd6217cdb827520471ee9b4237a8dd8bfe6114c4b12e5b0d78e7924b3ea1d482f7681dc7b22d580e7be491483da2d781f46b1ec2b7285d0b7ee1944d38a7d284f16e1bc1b42b5e087de2974e3ba4d187f26d18d0a53a4f196cf3865f2ab5c096e37c09d3a6394c1a6ff0855c29b6c395e07f0ad6a33c491f6af580592cb3c690e57a0fd5a03f4a1c69f6835a2fb0c593e6790cdca936431560ff8a5326b9cc9aef7005dfaa35401663fc895025bacf99ec7306daaf30451366f98c5520bfca9ce97603d9ac33461065fa8f5623bcc99fea7500;
  0xd4a2384e1167fd8b4335afd986f06a1ce7910b7d2254ceb870069ceab5c3592fb2c45e2877019bed2553c9bfe0960c7a81f76d1b4432a8de1660fa8cd3a53f49186ef482ddab31478ff963154a3ca6d02b5dc7b1ee980274bcca5026790f95e37e0892e4bbcd5721e99f05732c5ac0b64d3ba1d788fe6412daac36401f69f3855127bdcb94e2780ec6b02a5c0375ef9962148ef8a7d14b3df583196f3046dcaa3741dbadf2841e68a0d64c3a651389ff0472e89ec1b72d5b93e57f095620bacc9deb7107582eb4c20a7ce690cfb92355aed842346b1d87f1394fd5a3fc8a1066fb8d17613e48d2a46c1a80f6a9df4533c8be24520d7be1975f29b3c59aec7600;
  0x2b5cc5b2ea9d0473b4c35a2d75029bec087fe691c9be275097e0790e5621b8cf6d1a83f4acdb4235f2851c6b3344ddaa4e39a0d78ff86116d1a63f481067fe89a7d0493e661188ff384fd6a1f98e176084f36a1d4532abdc1b6cf582daad3443e1960f782057ceb97e0990e7bfc85126c2b52c5b0374ed9a5d2ab3c49ceb72052e59c0b7ef980176b1c65f2870079ee90d7ae394ccbb225592e57c0b5324bdca681f86f1a9de4730f780196e3641d8af4b3ca5d28afd6413d4a33a4d1562fb8ca2d54c3b63148dfa3d4ad3a4fc8b126581f66f184037aed91e69f087dfa83146e4930a7d2552cbbc7b0c95e2bacd5423c7b0295e0671e89f582fb6c199ee7700;
  0x473fb7cfbac24a32a0d850285d25add594ec641c691199e1730b83fb8ef67e06fc840c740179f1891b63eb93e69e166e2f57dfa7d2aa225ac8b03840354dc5bd2c54dca4d1a92159cbb33b43364ec6beff870f77027af28a1860e890e59d156d97ef671f6a129ae2700880f88df57d05443cb4ccb9c14931a3db532b5e26aed691e961196c149ce4760e86fe8bf37b03423ab2cabfc74f37a5dd552d5820a8d02a52daa2d7af275fcdb53d453048c0b8f9810971047cf48c1e66ee96e39b136bfa820a72077ff78f1d65ed95e09810682951d9a1d4ac245cceb63e46334bc3bb4139b1c9bcc44c34a6de562e5b23abd392ea621a6f179fe7750d85fd88f07800;
  0xb8c14a334138b3ca572ea5dcaed75c257b0289f082fb700994ed661f6d149fe6235ad1a8daa32851ccb53e47354cc7bee099126b1960eb920f76fd84f68f047d93ea61186a1398e17c058ef785fc770e5029a2dba9d05b22bfc64d34463fb4cd0871fa83f188037ae79e156c1e67ec95cbb23940324bc0b9245dd6afdda42f56ee971c65176ee59c0178f38af8810a732d54dfa6d4ad265fc2bb30493b42c9b0750c87fe8cf57e079ae36811631a91e8b6cf443d4f36bdc45920abd2a0d9522bc5bc374e3c45ceb72a53d8a1d3aa2158067ff48dff860d74e9901b621069e29b5e27acd5a7de552cb1c8433a4831bac39de46f16641d96ef720b80f98bf27900;
  0xa4de502a512ba5df5329a7dda6dc5228572da3d9a2d8562ca0da542e552fa1db5f25abd1aad05e24a8d25c265d27a9d3acd658225923add75b21afd5aed45a204f35bbc1bac04e34b8c24c364d37b9c3bcc648324933bdc74b31bfc5bec44a30b4ce403a413bb5cf4339b7cdb6cc4238473db3c9b2c8463cb0ca443e453fb1cb6f159be19ae06e1498e26c166d1799e39ce6681269139de76b119fe59ee46a1094ee601a611b95ef631997ed96ec6218671d93e992e8661c90ea641e651f91eb84fe700a710b85ff730987fd86fc7208770d83f982f8760c80fa740e750f81fb7f058bf18af07e0488f27c067d0789f38cf6780279038df77b018ff58ef47a00;
  0x5b20add6aad15c27a4df5229552ea3d8b8c34e354932bfc4473cb1cab6cd403b80fb760d710a87fc7f0489f28ef57803631895ee92e9641f9ce76a116d169be0f08b067d017af78c0f74f982fe8508731368e59ee299146fec971a611d66eb902b50dda6daa12c57d4af2259255ed3a8c8b33e453942cfb4374cc1bac6bd304b106be69de19a176cef9419621e65e893f388057e0279f48f0c77fa81fd860b70cbb03d463a41ccb7344fc2b9c5be33482853dea5d9a22f54d7ac215a265dd0abbbc04d364a31bcc7443fb2c9b5ce43385823aed5a9d25f24a7dc512a562da0db601b96ed91ea671c9fe469126e1598e383f8750e720984ff7c078af18df67b00;
  0x9ce06418710d89f55b27a3dfb6ca4e320f73f78be29e1a66c8b4304c2559dda1a7db5f234a36b2ce601c98e48df175093448ccb0d9a5215df38f0b771e62e69aea96126e077bff832d51d5a9c0bc3844790581fd94e86c10bec2463a532fabd7d1ad29553c40c4b8166aee92fb87037f423ebac6afd3572b85f97d01681490ec700c88f49de16519b7cb4f335a26a2dee39f1b670e72f68a2458dca0c9b5314d4b37b3cfa6da5e228cf07408611d99e5d8a4205c3549cdb11f63e79bf28e0a76067afe82eb97136fc1bd39452c50d4a895e96d11780480fc522eaad6bfc3473b3d41c5b9d0ac2854fa86027e176bef93aed2562a433fbbc7691591ed84f87c00;
  0x631e99e48af7700dacd1562b4538bfc2e09d1a670974f38e2f52d5a8c6bb3c41780582ff91ec6b16b7ca4d305e23a4d9fb86017c126fe8953449ceb3dda0275a5528afd2bcc1463b9ae7601d730e89f4d6ab2c513f42c5b81964e39ef08d0a774e33b4c9a7da5d2081fc7b06681592efcdb0374a2459dea3027ff885eb96116c0f72f588e69b1c61c0bd3a472954d3ae8cf1760b65189fe2433eb9c4aad7502d1469ee93fd80077adba6215c324fc8b597ea6d107e0384f95825a2dfb1cc4b363944c3bed0ad2a57f68b0c711f62e598bac7403d532ea9d475088ff29ce1661b225fd8a5cbb6314ced90176a0479fe83a1dc5b264835b2cf6e1394e987fa7d00;
  0x7f0183fd9ae46618a8d6542a4d33b1cfccb2304e2957d5ab1b65e799fe80027c047af886e19f1d63d3ad2f513648cab4b7c94b35522caed0601e9ce285fb790789f7750b6c1290ee5e20a2dcbbc547393a44c6b8dfa1235ded93116f0876f48af28c0e701769eb95255bd9a7c0be3c42413fbdc3a4da582696e86a14730d8ff18ef0720c6b1597e95927a5dbbcc2403e3d43c1bfd8a6245aea9416680f71f38df58b0977106eec92225cdea0c7b93b454638bac4a3dd5f2191ef6d13740a88f6780684fa9de3611fafd1532d4a34b6c8cbb537492e50d2ac1c62e09ef987057b037dff81e6981a64d4aa2856314fcdb3b0ce4c32552ba9d767199be582fc7e00;
  0x80ff7e01611e9fe05f20a1debec1403f235cdda2c2bd3c43fc83027d1d62e39cdba4255a3a45c4bb047bfa85e59a1b64780786f999e66718a7d859264639b8c73649c8b7d7a82956e99617680877f68995ea6b14740b8af54a35b4cbabd4552a6d1293ec8cf3720db2cd4c33532cadd2ceb1304f2f50d1ae116eef90f08f0e71f18e0f70106fee912e51d0afcfb0314e522dacd3b3cc4d328df2730c6c1392edaad5542b4b34b5ca750a8bf494eb6a150976f788e8971669d6a928573748c9b64738b9c6a6d9582798e76619790687f8e49b1a65057afb843b44c5badaa5245b1c63e29dfd82037cc3bc3d42225ddca3bfc0413e5e21a0df601f9ee181fe7f00;
  0x62e27fff58d845c516960b8b2cac31b18a0a9717b030ad2dfe7ee363c444d959af2fb23295158808db5bc646e161fc7c47c75ada7dfd60e033b32eae09891494e565f878df5fc24291118c0cab2bb6360d8d109037b72aaa79f964e443c35ede28a835b512920f8f5cdc41c166e67bfbc040dd5dfa7ae767b434a9298e0e931371f16cec4bcb56d6058518983fbf22a299198404a323be3eed6df070d757ca4abc3ca12186069b1bc848d555f272ef6f54d449c96eee73f320a03dbd1a9a0787f676eb6bcc4cd15182029f1fb838a5251e9e038324a439b96aea77f750d04dcd3bbb26a601811c9c4fcf52d275f568e8d353ce4ee969f474a727ba3a9d1d8000;
  0x9d1c8203a322bc3de160fe7fdf5ec04165e47afb5bda44c51998068727a638b970f16fee4ecf51d00c8d139232b32dac88099716b637a928f475eb6aca4bd5545adb45c464e57bfa26a739b818990786a223bd3c9c1d8302de5fc140e061ff7eb736a82989089617cb4ad455f574ea6b4fce50d171f06eef33b22cad0d8c12930e8f119030b12fae72f36dec4ccd53d2f677e968c849d7568a0b9514b435ab2ae362fc7ddd5cc2439f1e8001a120be3f1b9a048525a43abb67e678f959d846c7c948d657f776e869b534aa2b8b0a941531b02eaf0f8e10914dcc52d373f26ced24a53bba1a9b058458d947c666e779f8dc5dc342e263fd7ca021bf3e9e1f8100;
  0x8103981ab331aa28e567fc7ed755ce4c49cb50d27bf962e02daf34b61f9d06840c8e15973ebc27a568ea71f35ad843c1c446dd5ff674ef6da022b93b92108b0986049f1db436ad2fe260fb79d052c94b4ecc57d57cfe65e72aa833b1189a01830b89129039bb20a26fed76f45ddf44c6c341da58f173e86aa725be3c95178c0e8f0d9614bd3fa426eb69f270d95bc04247c55edc75f76cee23a13ab81193088a02801b9930b229ab66e47ffd54d64dcfca48d351f87ae163ae2cb7359c1e8507880a9113ba38a321ec6ef577de5cc74540c259db72f06be924a63dbf16940f8d05871c9e37b52eac61e378fa53d14ac8cd4fd456ff7de664a92bb0329b198200;
  0x7efd65e648cb53d01291098a24a73fbca625bd3e90138b08ca49d152fc7fe764d350c84be566fe7dbf3ca427890a92110b8810933dbe26a567e47cff51d24ac939ba22a10f8c149755d64ecd63e078fbe162fa79d754cc4f8d0e9615bb38a02394178f0ca221b93af87be360ce4dd5564ccf57d47af961e220a33bb816950d8ef073eb68c645dd5e9c1f8704aa29b13228ab33b01e9d058644c75fdc72f169ea5dde46c56be870f331b22aa907841c9f85069e1db330a82be96af271df5cc447b734ac2f81029a19db58c043ed6ef6756fec74f759da42c10380189b35b62ead1a9901822caf37b476f56dee40c35bd8c241d95af477ef6cae2db536981b8300;
  0xb93dac2893178602ed69f87cc743d256119504803bbf2eaa45c150d46feb7afef470e165de5acb4fa024b5318a0e9f1b5cd849cd76f263e7088c1d9922a637b323a736b2098d1c9877f362e65dd948cc8b0f9e1aa125b430df5bca4ef571e0646eea7bff44c051d53abe2fab10940581c642d357ec68f97d92168703b83cad2990148501ba3eaf2bc440d155ee6afb7f38bc2da9129607836ce879fd46c253d7dd59c84cf773e266890d9c18a327b63275f160e45fdb4ace21a534b00b8f1e9a0a8e1f9b20a435b15eda4bcf74f061e5a226b733880c9d19f672e367dc58c94d47c352d66de978fc1397068239bd2ca8ef6bfa7ec541d054bb3fae2a91158400;
  0x46c351d468ed7ffa1a9f0d8834b123a6fe7be96cd055c742a227b5308c099b1e2bae3cb90580129777f260e559dc4ecb93168401bd38aa2fcf4ad85de164f6739c198b0eb237a520c045d752ee6bf97c24a133b60a8f1d9878fd6fea56d341c4f174e663df5ac84dad28ba3f8306941149cc5edb67e270f5159002873bbe2ca9ef6af87dc144d653b336a4219d188a0f57d240c579fc6eeb0b8e1c9925a032b782079510ac29bb3ede5bc94cf075e7623abf2da81491038666e371f448cd5fda35b022a71b9e0c8969ec7efb47c250d58d089a1fa326b431d154c643ff7ae86d58dd4fca76f361e4048113962aaf3db8e065f772ce4bd95cbc39ab2e92178500;
  0x5adc4bcd78fe69ef1e980f893cba2dabd254c345f076e16796108701b432a52357d146c075f364e21395028431b720a6df59ce48fd7bec6a9b1d8a0cb93fa82e40c651d762e473f50482159326a037b1c84ed95fea6cfb7d8c0a9d1bae28bf394dcb5cda6fe97ef8098f189e2bad3abcc543d452e761f67081079016a325b2346ee87ff94cca5ddb2aac3bbd088e199fe660f771c442d553a224b3358006911763e572f441c750d627a136b005831492eb6dfa7cc94fd85eaf29be388d0b9c1a74f265e356d047c130b621a712940385fc7aed6bde58cf49b83ea92f9a1c8b0d79ff68ee5bdd4acc3dbb2caa1f990e88f177e066d355c244b533a42297118600;
  0xa522b63183049017e96efa7dcf48dc5b3dba2ea91b9c088f71f662e557d044c3880f9b1cae29bd3ac443d750e265f1761097038436b125a25cdb4fc87afd69eeff78ec6bd95eca4db334a0279512860167e074f341c652d52bac38bf0d8a1e99d255c146f473e7609e198d0ab83fab2c4acd59de6ceb7ff80681159220a733b41196028537b024a35dda4ec97bfc68ef890e9a1daf28bc3bc542d651e364f0773cbb2fa81a9d098e70f763e456d145c2a423b73082059116e86ffb7cce49dd5a4bcc58df6dea7ef90780149321a632b5d354c047f572e6619f188c0bb93eaa2d66e175f240c753d42aad39be0c8b1f98fe79ed6ad85fcb4cb235a12694138700;
  0xc941c44cd35bde56fd75f078e76fea62a129ac24bb33b63e951d98108f07820a1991149c038b0e862da520a837bf3ab271f97cf46be366ee45cd48c05fd752da74fc79f16ee663eb40c84dc55ad257df1c941199068e0b8328a025ad32ba3fb7a42ca921be36b33b90189d158a02870fcc44c149d65edb53f870f57de26aef67ae26a32bb43cb9319a12971f80088d05c64ecb43dc54d159f27aff77e860e56d7ef673fb64ec69e14ac247cf50d85dd5169e1b930c84018922aa2fa738b035bd139b1e960981048c27af2aa23db530b87bf376fe61e96ce44fc742ca55dd58d0c34bce46d951d45cf77ffa72ed65e068ab23a62eb139bc349f17921a850d8800;
  0x36bf39b028a127ae0a83058c149d1b924ec741c850d95fd672fb7df46ce563eac64fc940d851d75efa73f57ce46deb62be37b138a029af26820b8d049c15931acb42c44dd55cda53f77ef871e960e66fb33abc35ad24a22b8f06800991189e173bb234bd25ac2aa3078e08811990169f43ca4cc55dd452db7ff670f961e86ee7d158de57cf46c049ed64e26bf37afc75a920a62fb73eb831951c9a138b02840d21a82ea73fb630b91d94129b038a0c8559d056df47ce48c165ec6ae37bf274fd2ca523aa32bb3db410991f960e87018854dd5bd24ac345cc68e167ee76ff79f0dc55d35ac24bcd44e069ef66fe77f178a42dab22ba33b53c9811971e860f8900;
  0x2aa023a938b231bb0e84078d1c96159f62e86be170fa79f346cc4fc554de5dd7ba30b339a822a12b9e14971d8c06850ff278fb71e06ae963d65cdf55c44ecd47179d1e94058f0c8633b93ab021ab28a25fd556dc4dc744ce7bf172f869e360ea870d8e04951f9c16a329aa20b13bb832cf45c64cdd57d45eeb61e268f973f07a50da59d342c84bc174fe7df766ec6fe51892119b0a8003893cb635bf2ea427adc04ac943d258db51e46eed67f67cff758802810b9a109319ac26a52fbe34b73d6de764ee7ff576fc49c340ca5bd152d825af2ca637bd3eb4018b088213991a90fd77f47eef65e66cd953d05acb41c248b53fbc36a72dae24911b981283098a00;
  0xd55ede55c348c843f972f279ef64e46f8d06860d9b10901ba12aaa21b73cbc3765ee6ee573f878f349c242c95fd454df3db636bd2ba020ab119a1a91078c0c87a823a328be35b53e840f8f0492199912f07bfb70e66ded66dc57d75cca41c14a189313980e85058e34bf3fb422a929a240cb4bc056dd5dd66ce767ec7af171fa2fa424af39b232b903880883159e1e9577fc7cf761ea6ae15bd050db4dc646cd9f14941f89028209b338b833a52eae25c74ccc47d15ada51eb60e06bfd76f67d52d959d244cf4fc47ef575fe68e363e80a81018a1c97179c26ad2da630bb3bb0e269e962f47fff74ce45c54ed853d358ba31b13aac27a72c961d9d16800b8b00;
  0x129e179b18941d91068a038f0c8009853ab63fb330bc35b92ea22ba724a821ad42ce47cb48c44dc156da53df5cd059d56ae66fe360ec65e97ef27bf774f871fdb23eb73bb834bd31a62aa32fac20a9259a169f13901c95198e028b078408810de26ee76be864ed61f67af37ffc70f975ca46cf43c04cc549de52db57d458d15d4fc34ac645c940cc5bd75ed251dd54d867eb62ee6de168e473ff76fa79f57cf01f931a961599109c0b870e82018d048837bb32be3db138b423af26aa29a52ca0ef63ea66e569e06cfb77fe72f17df478c74bc24ecd41c844d35fd65ad955dc50bf33ba36b539b03cab27ae22a12da428971b921e9d119814830f860a89058c00;
  0xed60ea67e36ee469f17cf67bff72f875d558d25fdb56dc51c944ce43c74ac04d9d109a17931e9419810c860b8f028805a528a22fab26ac21b934be33b73ab03d0d800a87038e0489119c169b1f92189535b832bf3bb63cb129a42ea327aa20ad7df07af773fe74f961ec66eb6fe268e545c842cf4bc64cc159d45ed357da50dd30bd37ba3eb339b42ca12ba622af25a808850f82068b018c1499139e1a971d9040cd47ca4ec349c45cd15bd652df55d878f57ff276fb71fc64e963ee6ae76de0d05dd75ade53d954cc41cb46c24fc548e865ef62e66be16cf479f37efa77fd70a02da72aae23a924bc31bb36b23fb53898159f12961b911c8409830e8a078d00;
  0xf17ff07ef37df27cf57bf47af779f678f977f876fb75fa74fd73fc72ff71fe70e16fe06ee36de26ce56be46ae769e668e967e866eb65ea64ed63ec62ef61ee60d15fd05ed35dd25cd55bd45ad759d658d957d856db55da54dd53dc52df51de50c14fc04ec34dc24cc54bc44ac749c648c947c846cb45ca44cd43cc42cf41ce40b13fb03eb33db23cb53bb43ab739b638b937b836bb35ba34bd33bc32bf31be30a12fa02ea32da22ca52ba42aa729a628a927a826ab25aa24ad23ac22af21ae20911f901e931d921c951b941a97199618991798169b159a149d139c129f119e10810f800e830d820c850b840a87098608890788068b058a048d038c028f018e00;
  0x0e810d8208870b84028d018e048b07881699159a109f139c1a9519961c931f903eb13db238b73bb432bd31be34bb37b826a925aa20af23ac2aa529a62ca32fa06ee16de268e76be462ed61ee64eb67e876f975fa70ff73fc7af579f67cf37ff05ed15dd258d75bd452dd51de54db57d846c945ca40cf43cc4ac549c64cc34fc0ce41cd42c847cb44c24dc14ec44bc748d659d55ad05fd35cda55d956dc53df50fe71fd72f877fb74f27df17ef47bf778e669e56ae06fe36cea65e966ec63ef60ae21ad22a827ab24a22da12ea42ba728b639b53ab03fb33cba35b936bc33bf309e119d1298179b14921d911e941b97188609850a800f830c8a0589068c038f00;
  0x29b9148453c36efedd4de070a7379a0adc4ce171a6369b0b28b8158552c26fffde4ee373a43499092aba178750c06dfd2bbb168651c16cfcdf4fe272a5359808da4ae777a0309d0d2ebe138354c469f92fbf128255c568f8db4be676a1319c0c2dbd108057c76afad949e474a3339e0ed848e575a2329f0f2cbc118156c66bfbd242ef7fa838950526b61b8b5ccc61f127b71a8a5dcd60f0d343ee7ea939940425b518885fcf62f2d141ec7cab3b9606d040ed7daa3a970724b419895ece63f321b11c8c5bcb66f6d545e878af3f9202d444e979ae3e930320b01d8d5aca67f7d646eb7bac3c910122b21f8f58c865f523b31e8e59c964f4d747ea7aad3d9000;
  0xd647e978a83997062abb158454c56bfa33a20c9d4ddc72e3cf5ef061b1208e1f01903eaf7fee40d1fd6cc2538312bc2de475db4a9a0ba534188927b666f759c865f45acb1b8a24b59908a637e776d8498011bf2efe6fc1507ced43d202933dacb2238d1ccc5df3624edf71e030a10f9e57c668f929b81687ab3a9405d544ea7bad3c9203d342ec7d51c06eff2fbe108148d977e636a70998b4258b1aca5bf5647aeb45d404953baa8617b928f869c7569f0ea031e170de4f63f25ccd1d8c22b31e8f21b060f15fcee273dd4c9c0da332fb6ac4558514ba2b079638a979e846d7c958f667b726881935a40a9b4bda74e52cbd138252c36dfcd041ef7eae3f9100;
  0xca58f361b82a81132ebc17855cce65f71f8d26b46dff54c6fb69c250891bb0227def44d60f9d36a4990ba032eb79d240a83a9103da48e3714cde75e73eac0795b92b8012cb59f2605dcf64f62fbd16846cfe55c71e8c27b5881ab123fa68c3510e9c37a57cee45d7ea78d341980aa133db49e270a93b90023fad06944ddf74e62cbe15875ecc67f5c85af163ba288311f96bc0528b19b2201d8f24b66ffd56c49b09a230e97bd0427fed46d40d9f34a64edc77e53cae0597aa389301d84ae1735fcd66f42dbf1486bb298210c95bf0628a18b321f86ac1536efc57c51c8e25b7e87ad1439a08a3310c9e35a77eec47d53daf04964fdd76e4d94be072ab399200;
  0x35a60e9d43d078ebd94ae271af3c9407f063cb588615bd2e1c8f27b46af951c2a231990ad447ef7c4edd75e638ab039067f45ccf11822ab98b18b023fd6ec65506953dae70e34bd8ea79d1429c0fa734c350f86bb5268e1d2fbc148759ca62f19102aa39e774dc4f7dee46d50b9830a354c76ffc22b1198ab82b8310ce5df56653c068fb25b61e8dbf2c8417c95af2619605ad3ee073db487ae941d20c9f37a4c457ff6cb221891a28bb13805ecd65f601923aa977e44cdfed7ed6459b08a03360f35bc816852dbe8c1fb724fa69c152a5369e0dd340e87b49da72e13fac0497f764cc5f8112ba291b8820b36dfe56c532a1099a44d77fecde4de576a83b9300;
  0xf266c753980cad3926b213874cd879ed47d372e62db9188c9307a632f96dcc588511b024ef7bda4e51c564f03baf0e9a30a405915ace6ffbe470d1458e1abb2f1c8829bd76e243d7c85cfd69a2369703a93d9c08c357f6627de948dc178322b66bff5eca019534a0bf2b8a1ed541e074de4aeb7fb42081150a9e3fab60f455c133a7069259cd6cf8e773d2468d19b82c8612b327ec78d94d52c667f338ac0d9944d071e52eba1b8f9004a531fa6ecf5bf165c4509b0fae3a25b110844fdb7aeedd49e87cb7238216099d3ca863f756c268fc5dc9029637a3bc28891dd642e377aa3e9f0bc054f5617eea4bdf148021b51f8b2abe75e140d4cb5ffe6aa1359400;
  0x0d983aaf63f654c1d144e673bf2a881da83d9f0ac653f16474e143d61a8f2db85acf6df834a103968613b124e87ddf4aff6ac85d9104a63323b614814dd87aefa3369401cd58fa6f7fea48dd118426b3069331a468fd5fcada4fed78b4218316f461c3569a0fad3828bd1f8a46d371e451c466f33faa089d8d18ba2fe376d4414cd97bee22b715809005a732fe6bc95ce97cde4b8712b02535a002975bce6cf91b8e2cb975e042d7c752f065a93c9e0bbe2b891cd045e77262f755c00c993baee277d5408c19bb2e3eab099c50c567f247d270e529bc1e8b9b0eac39f560c257b5208217db4eec7969fc5ecb079230a5108527b27eeb49dccc59fb6ea2379500;
  0x118720b673e542d4d543e472b72186108412b523e670d74140d671e722b4138526b0178144d275e3e274d3458016b127b3258214d147e07677e146d0158324b27fe94ed81d8b2cbabb2d8a1cd94fe87eea7cdb4d881eb92f2eb81f894cda7deb48de79ef2abc1b8d8c1abd2bee78df49dd4bec7abf298e18198f28be7bed4adccd5bfc6aaf399e08099f38ae6bfd5acc58ce69ff3aac0b9d9c0aad3bfe68cf59fa6ccb5d980ea93f3ea80f995cca6dfb6ff95ec80d9b3caaab3d9a0cc95ff86ea3359204c157f06667f156c0059334a236a0079154c265f3f264c3559006a1379402a533f660c75150c661f732a40395019730a663f552c4c553f462a7319600;
  0xee79dd4a881fbb2c22b5118644d377e06bfc58cf0d9a3ea9a7309403c156f265f96eca5d9f08ac3b35a2069153c460f77ceb4fd81a8d29beb0278314d641e572c057f364a63195020c9b3fa86afd59ce45d276e123b41087891eba2def78dc4bd740e473b12682151b8c28bf7dea4ed952c561f634a307909e09ad3af86fcb5cb2258116d443e7707ee94dda188f2bbc37a0049351c662f5fb6cc85f9d0aae39a5329601c354f06769fe5acd0f983cab20b7138446d175e2ec7bdf488a1db92e9c0baf38fa6dc95e50c763f436a10592198e2abd7fe84cdbd542e671b32480178b1cb82fed7ade4947d074e321b612850e993daa68ff5bccc255f166a4339700;
  0x821aaf37d840f56d36ae1b836cf441d9f76fda42ad35801843db6ef6198134ac68f045dd32aa1f87dc44f169861eab331d8530a847df6af2a931841cf36bde464bd366fe11893ca4ff67d24aa53d88103ea6138b64fc49d18a12a73fd048fd65a1398c14fb63d64e158d38a04fd762fad44cf9618e16a33b60f84dd53aa2178f0d9520b857cf7ae2b921940ce37bce5678e055cd22ba0f97cc54e179960ebb23e77fca52bd25900853cb7ee6099124bc920abf27c850e57d26be0b937ce451c9c45ce9719e06b32b70e85dc52ab2079fb1299c04eb73c65e059d28b05fc772ea2eb6039b74ec59c19a02b72fc058ed755bc376ee01992cb4ef77c25ab52d9800;
  0x7de452cb23ba0c95c158ee779f06b029188137ae46df69f0a43d8b12fa63d54cb72e9801e970c65f0b9224bd55cc7ae3d24bfd648c15a33a6ef741d830a91f86f46ddb42aa33851c48d167fe168f39a09108be27cf56e0792db4029b73ea5cc53ea7118860f94fd6821bad34dc45f36a5bc274ed059c2ab3e77ec851b920960f72eb5dc42cb5039ace57e1789009bf26178e38a149d066ffab32841df56cda43b821970ee67fc950049d2bb25ac375ecdd44f26b831aac3561f84ed73fa61089fb62d44da53c8a1347de68f1198036af9e07b128c059ef7622bb0d947ce553ca31a81e876ff640d98d14a23bd34afc6554cd7be20a9325bce871c75eb62f9900;
  0x61fb48d233a91a80c55fec76970dbe2434ae1d8766fc4fd5900ab923c258eb71cb51e2789903b02a6ff546dc3da7148e9e04b72dcc56e57f3aa0138968f241db28b2019b7ae053c98c16a53fde44f76d7de754ce2fb5069cd943f06a8b11a2388218ab31d04af96326bc0f9574ee5dc7d74dfe64851fac3673e95ac021bb0892f369da40a13b881257cd7ee4059f2cb6a63c8f15f46edd4702982bb150ca79e359c370ea0b9122b8fd67d44eaf35861c0c9625bf5ec477eda832811bfa60d349ba209309e872c15b1e8437ad4cd665ffef75c65cbd27940e4bd162f8198330aa108a39a342d86bf1b42e9d07e67ccf5545df6cf6178d3ea4e17bc852b3299a00;
  0x9e05b52ec853e37832a9198264ff4fd4db40f06b8d16a63d77ec5cc721ba0a91148f3fa442d969f2b8239308ee75c55e51ca7ae1079c2cb7fd66d64dab30801b970cbc27c15aea713ba0108b6df646ddd249f962841faf347ee555ce28b303981d8636ad4bd060fbb12a9a01e77ccc5758c373e80e9525bef46fdf44a23989128c17a73cda41f16a20bb0b9076ed5dc6c952e2799f04b42f65fe4ed533a81883069d2db650cb7be0aa31811afc67d74c43d868f3158e3ea5ef74c45fb9229209851eae35d348f86329b202997fe454cfc05beb70960dbd266cf747dc3aa1118a0f9424bf59c272e9a3388813f56ede454ad161fa1c8737ace67dcd56b02b9b00;
  0x59c57ce0138f36aacd51e874871ba23e6cf049d526ba039ff864dd41b22e970b33af168a79e55cc0a73b821eed71c854069a23bf4cd069f5920eb72bd844fd618d11a834c75be27e19853ca053cf76eab8249d01f26ed74b2cb0099566fa43dfe77bc25ead31881473ef56ca39a51c80d24ef76b9804bd2146da63ff0c9029b5ec70c955a63a831f78e45dc132ae178bd945fc60930fb62a4dd168f4079b22be861aa33fcc50e975128e37ab58c47de1b32f960af965dc4027bb029e6df148d438a41d8172ee57cbac308915e67ac35f0d9128b447db62fe9905bc20d34ff66a52ce77eb18843da1c65ae37f8c10a93567fb42de2db10894f36fd64ab9259c00;
  0xa63b811ce875cf523aa71d8074e953ce831ea439cd50ea771f8238a551cc76ebec71cb56a23f851870ed57ca3ea31984c954ee73871aa03d55c872ef1b863ca132af15887ce15bc6ae338914e07dc75a178a30ad59c47ee38b16ac31c558e27f78e55fc236ab118ce479c35eaa378d105dc07ae7138e34a9c15ce67b8f12a835930eb429dd40fa670f9228b541dc66fbb62b910cf865df422ab70d9064f943ded944fe63970ab02d45d862ff0b962cb1fc61db46b22f950860fd47da2eb30994079a20bd49d46ef39b06bc21d548f26f22bf05986cf14bd6be239904f06dd74a4dd06af7039e24b9d14cf66b9f02b82568f54fd226bb019cf469d34eba279d00;
  0xba249b05f866d9473ea01f817ce25dc3af318e10ed73cc522bb50a9469f748d6900eb12fd24cf36d148a35ab56c877e9851ba43ac759e678019f20be43dd62fcee70cf51ac328d136af44bd528b60997fb65da44b92798067fe15ec03da31c82c45ae57b8618a73940de61ff029c23bdd14ff06e930db22c55cb74ea178936a8128c33ad50ce71ef9608b729d44af56b079926b845db64fa831da23cc15fe07e38a619877ae45bc5bc229d03fe60df412db30c926ff14ed0a9378816eb75ca5446d867f9049a25bbc25ce37d801ea13f53cd72ec118f30aed749f668950bb42a6cf24dd32eb00f91e876c957aa348b1579e758c63ba51a84fd63dc42bf219e00;
  0x45da66f9039c20bfc956ea758f10ac3340df63fc069925bacc53ef708a15a9364fd06cf309962ab5c35ce07f851aa6394ad569f60c932fb0c659e57a801fa33c51ce72ed178834abdd42fe619b04b82754cb77e8128d31aed847fb649e01bd225bc478e71d823ea1d748f46b910eb22d5ec17de218873ba4d24df16e940bb7286df24ed12bb40897e17ec25da738841b68f74bd42eb10d92e47bc758a23d811e67f844db21be029deb74c857ad328e1162fd41de24bb0798ee71cd52a8378b1479e65ac53fa01c83f56ad649b32c900f7ce35fc03aa51986f06fd34cb629950a73ec50cf35aa1689ff60dc43b9269a0576e955ca30af138cfa65d946bc239f00;
  0xf454a9094eee13b39d3dc06027877ada26867bdb9c3cc1614fef12b2f555a8084ded10b0f757aa0a248479d99e3ec3639f3fc262258578d8f656ab0b4cec11b19b3bc66621817cdcf252af0f48e815b549e914b4f353ae0e20807ddd9a3ac76722827fdf9838c5654beb16b6f151ac0cf050ad0d4aea17b79939c46423837ede2a8a77d79030cd6d43e31ebef959a404f858a50542e21fbf9131cc6c2b8b76d69333ce6e298974d4fa5aa70740e01dbd41e11cbcfb5ba606288875d59232cf6f45e518b8ff5fa2022c8c71d19636cb6b9737ca6a2d8d70d0fe5ea30344e419b9fc5ca10146e61bbb9535c8682f8f72d22e8e73d39434c96947e71abafd5da000;
  0x0baa54f5b514ea4b6acb3594d4758b2ac968963777d62889a809f75616b749e89233cd6c2c8d73d2f352ac0d4dec12b350f10faeee4fb11031906ecf8f2ed07124857bda9a3bc56445e41abbfb5aa405e647b91858f907a68726d879399866c7bd1ce24303a25cfddc7d832262c33d9c7fde2081c1609e3f1ebf41e0a001ff5e55f40aabeb4ab41534956bca8a2bd5749736c869298876d7f657a90848e917b6cc6d933272d32d8cad0cf25313b24ced0eaf51f0b011ef4e6fce3091d1708e2f7adb2584c4659b3a1bba44e5a504fa5bb819e74606a759f8d978862767c63899e342bc1d5dfc02a38223dd7c3c9d63c221807edf9f3ec06140e11fbefe5fa100;
  0x17b54eeca507fc5e6ecc3795dc7e8527e547bc1e57f50eac9c3ec5672e8c77d5ee4cb7155cfe05a79735ce6c25877cde1cbe45e7ae0cf75565c73c9ed7758e2cf85aa1034ae813b18123d87a33916ac80aa853f1b81ae14373d12a88c163983a01a358fab311ea4878da2183ca689331f351aa0841e318ba8a28d371389a61c3d4768d2f66c43f9dad0ff4561fbd46e426847fdd9436cd6f5ffd06a4ed4fb4162d8f74d69f3dc66454f60dafe644bf1ddf7d86246dcf3496a604ff5d14b64def3b9962c0892bd07242e01bb9f052a90bc96b90327bd92280b012e94b02a05bf9c2609b3970d2298bbb19e24009ab50f2309269cb8220db7949eb10b2fb59a200;
  0xe84bb3105efd05a6993ac2612f8c74d70aa951f2bc1fe7447bd82083cd6e963531926ac98724dc7f40e31bb8f655ad0ed370882b65c63e9da201f95a14b74fec47e41cbff152aa0936956dce8023db78a506fe5d13b048ebd4778f2c62c1399a9e3dc566288b73d0ef4cb41759fa02a17cdf2784ca6991320dae56f5bb18e043ab08f0531dbe46e5da7981226ccf379449ea12b1ff5ca407389b63c08e2dd57672d1298ac4679f3c03a058fbb516ee4d9033cb6826857ddee142ba1957f40caf04a75ffcb211e94a75d62e8dc360983be645bd1e50f30ba89734cc6f21827ad9dd7e86256bc83093ac0ff7541ab941e23f9c64c7892ad2714eed15b6f85ba300;
  0x2f8b7ade8521d07466c23397cc68993dbd19e84c17b342e6f450a1055efa0baf16b243e7bc18e94d5ffb0aaef551a0048420d1752e8a7bdfcd69983c67c332965df908acf753a20614b041e5be1aeb4fcf6b9a3e65c130948622d3772c8879dd64c03195ce6a9b3f2d8978dc8723d276f652a3075cf809adbf1bea4e15b140e4cb6f9e3a61c534908226d773288c7dd959fd0ca8f357a60210b445e1ba1eef4bf256a70358fc0da9bb1fee4a11b544e060c43591ca6e9f3b298d7cd88327d672b91dec4813b746e2f054a5015afe0fab2b8f7eda8125d47062c63793c86c9d398024d5712a8e7fdbc96d9c3863c7369212b647e3b81ced495bff0eaaf155a400;
  0xd07587227edb298c9134c6633f9a68cd52f705a0fc59ab0e13b644e1bd18ea4fc96c9e3b67c23095882ddf7a268371d44bee1cb9e540b2170aaf5df8a401f356e247b5104ce91bbea306f4510da85aff60c53792ce6b993c218476d38f2ad87dfb5eac0955f002a7ba1fed4814b143e679dc2e8bd7728025389d6fca9633c164b411e3461abf4de8f550a2075bfe0ca9369361c4983dcf6a77d22085d97c8e2bad08fa5f03a654f1ec49bb1e42e715b02f8a78dd8124d6736ecb399cc06597328623d174288d7fdac762903569cc3e9b04a153f6aa0ffd5845e012b7eb4ebc199f3ac86d319466c3de7b892c70d527821db84aefb316e4415cf90baef257a500;
  0xcc6a9d3b6ec83f999533c462379166c07ed82f89dc7a8d2b278176d08523d472b513e44217b146e0ec4abd1b4ee81fb907a156f0a503f4525ef80fa9fc5aad0b3e986fc99c3acd6b67c13690c56394328c2add7b2e887fd9d573842277d1268047e116b0e543b4121eb84fe9bc1aed4bf553a40257f106a0ac0afd5b0ea85ff9359364c29731c6606cca3d9bce689f398721d670258374d2de788f297cda2d8b4cea1dbbee48bf1915b344e2b711e640fe58af095cfa0daba701f65005a354f2c761963065c334929e38cf693c9a6dcb75d32482d77186202c8a7ddb8e28df79be18ef491cba4debe741b61045e314b20caa5dfbae08ff5955f304a2f751a600;
  0x339460c79532c66162c53196c46397309136c265379064c3c067933466c135926acd399ecc6b9f383b9c68cf9d3ace69c86f9b3c6ec93d9a993eca6d3f986ccb8126d275278074d3d077832476d12582238470d78522d67172d52186d4738720d87f8b2c7ed92d8a892eda7d2f887cdb7add298edc7b8f282b8c78df8d2ade794aed19beec4bbf181bbc48efbd1aee49e84fbb1c4ee91dbab91eea4d1fb84ceb13b440e7b512e64142e511b6e443b710b116e24517b044e3e047b31446e115b2f85fab0c5ef90daaa90efa5d0fa85cfb5afd09aefc5baf080bac58ffad0afe59a106f25507a054f3f057a30456f105a203a450f7a502f65152f501a6f453a700;
  0x5ff712bac56d882076de3b93ec44a1090da540e8973fda72248c69c1be16f35bfb53b61e61c92c84d27a9f3748e005ada901e44c339b7ed68028cd651ab257ff0aa247ef9038dd75238b6ec6b911f45c58f015bdc26a8f2771d93c94eb43a60eae06e34b349c79d1872fca621db550f8fc54b11966ce2b83d57d98304fe702aaf55db8106fc7228adc74913946ee0ba3a70fea423d9570d88e26c36b14bc59f151f91cb4cb63862e78d0359de24aaf0703ab4ee69931d47c2a8267cfb018fd55a008ed453a9277df8921c46c13bb5ef6f25abf1768c0258ddb73963e41e90ca404ac49e19e36d37b2d8560c8b71ffa5256fe1bb3cc6481297fd7329ae54da800;
  0xa009ef463e9771d88128ce671fb650f9e24bad047cd5339ac36a8c255df412bb248d6bc2ba13f55c05ac4ae39b32d47d66cf2980f851b71e47ee08a1d970963fb51cfa532b8264cd943ddb720aa345ecf75eb81169c0268fd67f993048e107ae31987ed7af06e04910b95ff68e27c16873da3c95ed44a20b52fb1db4cc65832a8a23c56c14bd5bf2ab02e44d359c7ad3c861872e56ff19b0e940a60f77de38910ea741e89039df762f8660c9b118fe574ce503aad27b9d346dc4228bf35abc159f36d07901a84ee7be17f15820896fc6dd74923b43ea0ca5fc55b31a62cb2d841bb254fd852cca633a9375dca40deb4259f016bfc76e882178d1379ee64fa900;
  0xbc16f55f2e8467cd852fcc6617bd5ef4ce64872d5cf615bff75dbe1465cf2c8658f211bbca60832961cb2882f359ba102a8063c9b812f15b13b95af0812bc86269c3208afb51b21850fa19b3c2688b211bb152f88923c06a22886bc1b01af9538d27c46e1fb556fcb41efd57268c6fc5ff55b61c6dc7248ec66c8f2554fe1db70ba142e89933d07a32987bd1a00ae94379d3309aeb41a20840ea09a3d2789b31ef45a60c7dd7349ed67c9f3544ee0da79d37d47e0fa546eca40eed47369c7fd5de74973d4ce605afe74dae0475df3c96ac06e54f3e9477dd953fdc7607ad4ee43a9073d9a802e14b03a94ae0913bd87248e201abda70933971db3892e349aa00;
  0x43e808a3d57e9e3572d93992e44faf04218a6ac1b71cfc5710bb5bf0862dcd66872ccc6711ba5af1b61dfd56208b6bc0e54eae0573d83893d47f9f3442e909a2d67d9d3640eb0ba0e74cac0771da3a91b41fff54228969c2852ece6513b858f312b959f2842fcf64238868c3b51efe5570db3b90e64dad0641ea0aa1d77c9c3774df3f94e249a90245ee0ea5d378983316bd5df6802bcb60278c6cc7b11afa51b01bfb50268d6dc6812aca6117bc5cf7d279993244ef0fa4e348a80375de3e95e14aaa0177dc3c97d07b9b3046ed0da68328c86315be5ef5b219f952248f6fc4258e6ec5b318f85314bf5ff48229c96247ec0ca7d17a9a3176dd3d96e04bab00;
  0x8428c16d0ea24be78d21c86407ab42ee963ad37f1cb059f59f33da7615b950fca00ce5492a866fc3a905ec40238f66cab21ef75b38947dd1bb17fe52319d74d8cc60892546ea03afc569802c4fe30aa6de729b3754f811bdd77b923e5df118b4e844ad0162ce278be14da4086bc72e82fa56bf1370dc3599f35fb61a79d53c9014b851fd9e32db771db158f4973bd27e06aa43ef8c20c9650fa34ae68529c06c309c75d9ba16ff5339957cd0b31ff65a228e67cba804ed412b876ec2a10de4485cf019b5d67a933f55f910bcdf739a364ee20ba7c468812d47eb02aecd61882478d43d91f25eb71b71dd3498fb57be126ac62f83e04ca50963cf268ae945ac00;
  0x7bd63c91f558b21f7ad73d90f459b31e79d43e93f75ab01d78d53f92f65bb11c7fd23895f15cb61b7ed33994f05db71a7dd03a97f35eb4197cd13b96f25fb51873de3499fd50ba1772df3598fc51bb1671dc369bff52b81570dd379afe53b91477da309df954be1376db319cf855bf1275d8329ffb56bc1174d9339efa57bd106bc62c81e548a20f6ac72d80e449a30e69c42e83e74aa00d68c52f82e64ba10c6fc22885e14ca60b6ec32984e04da70a6dc02a87e34ea4096cc12b86e24fa50863ce2489ed40aa0762cf2588ec41ab0661cc268bef42a80560cd278aee43a90467ca208de944ae0366cb218ce845af0265c8228feb46ac0164c9238eea47ad00;
  0x67c92688e54ba40a7ed03f91fc52bd1355fb14bad77996384ce20da3ce608f2103ad42ec812fc06e1ab45bf59836d977319f70deb31df25c288669c7aa04eb45af01ee402d836cc2b618f759349a75db9d33dc721fb15ef0842ac56b06a847e9cb658a2449e708a6d27c933d50fe11bff957b8167bd53a94e04ea10f62cc238dea44ab0568c62987f35db21c71df309ed87699375af41bb5c16f802e43ed02ac8e20cf610ca24de39739d67815bb54fabc12fd533e907fd1a50be44a278966c8228c63cda00ee14f3b957ad4b917f85610be51ff923cd37d09a748e68b25ca6446e807a9c46a852b5ff11eb0dd739c3274da359bf658b7196dc32c82ef41ae00;
  0x9837db741eb15df28926ca650fa04ce3ba15f9563c937fd0ab04e8472d826ec1dc739f305af519b6cd628e214be408a7fe51bd1278d73b94ef40ac0369c62a8510bf53fc9639d57a01ae42ed8728c46b329d71deb41bf758238c60cfa50ae64954fb17b8d27d913e45ea06a9c36c802f76d9359af05fb31c67c8248be14ea20d953ad67913bc50ff842bc76802ad41eeb718f45b319e72dda609e54a208f63ccd17e923d57f814bbc06f832c46e905aaf35cb01f75da3699e24da10e64cb27881db25ef19b34d8770ca34fe08a25c9663f907cd3b916fa552e816dc2a807eb4459f61ab5df709c3348e70ba4ce618d227bd43897fd52be116ac52986ec43af00;
  0xbf0fc27245f5388856e62b9bac1cd16170c00dbd8a3af7479929e45463d31eae3c8c41f1c676bb0bd565a8182f9f52e2f3438e3e09b974c41aaa67d7e0509d2da414d9695eee23934dfd3080b707ca7a6bdb16a69121ec5c8232ff4f78c805b527975aeadd6da010ce7eb303348449f9e858952512a26fdf01b17cccfb4b86368939f44473c30ebe60d01dad9a2ae75746f63b8bbc0cc171af1fd26255e528980aba77c7f0408d3de3539e2e19a964d4c575b8083f8f42f22c9c51e1d666ab1b9222ef5f68d815a57bcb06b68131fc4c5ded2090a717da6ab404c9794efe338311a16cdceb5b9626f848853502b27fcfde6ea313249459e937874afacd7db000;
  0x40f13f8ebe0fc170a110de6f5fee20919f2ee05161d01eaf7ecf01b08031ff4ee3529c2d1dac62d302b37dccfc4d83323c8d43f2c273bd0cdd6ca21323925ced1baa64d5e5549a2bfa4b853404b57bcac475bb0a3a8b45f425945aebdb6aa415b809c77646f7398859e82697a716d86967d618a99928e6578637f94878c907b6f647893808b977c617a668d9e9589627299856e7d766a819c879b706368749f855e42a9bab1ad465b405cb7a4afb35848a3bf54474c50bba6bda14a59524ea5bad1cd26353e22c9d4cfd3382b203cd7c72c30dbc8c3df3429322ec5d6ddc12a30ebf71c0f0418f3eef5e902111a06edfd160ae1f2f9e50e130814ffece7fb100;
  0x5cee2597ae1cd765a517dc6e57e52e9cb301ca7841f3388a4af83381b80ac1739f2de6546ddf14a666d41fad9426ed5f70c209bb8230fb49893bf0427bc902b0c775be0c35874cfe3e8c47f5cc7eb507289a51e3da68a311d163a81a23915ae804b67dcff6448f3dfd4f84360fbd76c4eb59922019ab60d212a06bd9e052992b77c50ebc8537fc4e8e3cf7457cce05b7982ae1536ad813a161d318aa9321ea58b406cd7f46f43f8d4dff3486bf0dc6745be92290a91bd062a210db6950e2299bec5e95271eac67d515a76cdee7559e2c03b17ac8f143883afa48833108ba71c32f9d56e4dd6fa416d664af1d24965defc072b90b32804bf9398b40f2cb79b200;
  0xa310d86b55e62e9d52e1299aa417df6c5cef2794aa19d162ad1ed6655be8209340f33b88b605cd7eb102ca7947f43c8fbf0cc47749fa32814efd3586b80bc37078cb03b08e3df546893af2417fcc04b78734fc4f71c20ab976c50dbe8033fb489b28e0536dde16a56ad911a29c2fe75464d71fac9221e95a9526ee5d63d018ab08bb73c0fe4d8536f94a82310fbc74c7f7448c3f01b27ac906b57dcef0438b38eb5890231dae66d51aa961d2ec5f972414a76fdce251992ae5569e2d13a068dbd360a81b25965eed229159ead467af1c2c9f57e4da69a112dd6ea6152b9850e330834bf8c675bd0ec172ba0937844cffcf7cb407398a42f13e8d45f6c87bb300;
  0x64d011a58e3afb4fad19d86c47f33286eb5f9e2a01b574c0229657e3c87cbd0967d312a68d39f84cae1adb6f44f03185e85c9d2902b677c3219554e0cb7fbe0a62d617a3883cfd49ab1fde6a41f53480ed59982c07b372c6249051e5ce7abb0f61d514a08b3ffe4aa81cdd6942f63783ee5a9b2f04b071c5279352e6cd79b80c68dc1da98236f743a115d4604bff3e8ae75392260db978cc2e9a5befc470b1056bdf1eaa8135f440a216d76348fc3d89e45091250eba7bcf2d9958ecc773b2066eda1baf8430f145a713d2664df9388ce15594200bbf7eca289c5de9c276b7036dd918ac8733f246a410d1654efa3b8fe256972308bc7dc92b9f5eeac175b400;
  0x9b2eec5975c002b75aef2d98b401c37604b173c6ea5f9d28c570b2072b9e5ce9b80dcf7a56e3219479cc0ebb9722e055279250e5c97cbe0be653912408bd7fcadd68aa1f338644f11ca96bdef247853042f73580ac19db6e8336f4416dd81aaffe4b893c10a567d23f8a48fdd164a61361d416a38f3af84da015d7624efb398c17a260d5f94c8e3bd663a114388d4ffa883dff4a66d311a449fc3e8ba712d065348143f6da6fad18f54082371bae6cd9ab1edc6945f032876adf1da88431f34651e42693bf0ac87d9025e7527ecb09bcce7bb90c209557e20fba78cde154962372c705b09c29eb5eb306c4715de82a9fed589a2f03b674c12c995beec277b500;
  0x8731f64065d314a25ee82f99bc0acd7b289e59efca7cbb0df147803613a562d4c472b503269057e11dab6cdaff498e386bdd1aac893ff84eb204c37550e6219701b770c6e3559224d86ea91f3a8c4bfdae18df694cfa3d8b77c106b09523e45242f43385a016d1679b2dea5c79cf08beed5b9c2a0fb97ec8348245f3d660a7119620e75174c205b34ff93e88ad1bdc6a398f48fedb6daa1ce056912702b473c5d563a412378146f00cba7dcbee589f297acc0bbd982ee95fa315d26441f7308610a661d7f2448335c97fb80e2b9d5aecbf09ce785deb2c9a66d017a18432f54353e52294b107c0768a3cfb4d68de19affc4a8d3b1ea86fd9259354e2c771b600;
  0x78cf0bbc9e29ed5aa91eda6d4ff83c8bc770b403219652e516a165d2f04783341bac68dffd4a8e39ca7db90e2c9b5fe8a413d76042f5318675c206b19324e057be09cd7a58ef2b9c6fd81cab893efa4d01b672c5e7509423d067a314368145f2dd6aae193b8c48ff0cbb7fc8ea5d992e62d511a68433f740b304c07755e22691e95e9a2d0fb87ccb388f4bfcde69ad1a56e12592b007c3748730f44361d612a58a3df94e6cdb1fa85bec289fbd0ace79358246f1d364a017e453972002b571c62f985cebc97eba0dfe498d3a18af6bdc9027e35476c105b241f63285a710d4634cfb3f88aa1dd96e9d2aee597bcc08bff344803715a266d1229551e6c473b700;
  0x14ac79c1ce76a31bbd05d06867df0ab25be3368e8139ec54f24a9f27289045fd8a32e75f50e83d85239b4ef6f941942cc57da8101fa772ca6cd401b9b60edb63358d58e0ef57823a9c24f14946fe2b937ac217afa018cd75d36bbe0609b164dcab13c67e71c91ca402ba6fd7d860b50de45c89313e8653eb4df52098972ffa4256ee3b838c34e159ff47922a259d48f019a174ccc37bae16b008dd656ad207bfc870a51d12aa7fc761d90cb4bb03d66e873fea525de530882e9643fbf44c992177cf1aa2ad15c078de66b30b04bc69d1388055ede25a8f379129fc444bf3269ee951843c338b5ee640f82d959a22f74fa61ecb737cc411a90fb762dad56db800;
  0xeb52843d358c5ae34af3259c942dfb42b40ddb626ad305bc15ac7ac3cb72a41d55ec3a838b32e45df44d9b222a9345fc0ab365dcd46dbb02ab12c47d75cc1aa38a33e55c54ed3b822b9244fdf54c9a23d56cba030bb264dd74cd1ba2aa13c57c348d5be2ea53853c952cfa434bf2249d6bd204bdb50cda63ca73a51c14ad7bc2299046fff74e98218831e75e56ef398076cf19a0a811c77ed76eb80109b066df972ef84149f0269f368f59e0e851873ec871a71e16af79c069d006bfb70ed86148f1279e962ff940e950863f378e58e117ae78c1c970a61fb60fd96068d107bef64f9920289147fe57ee38818930e65fa910c67f77ce18a108b167ded66fb900;
  0xf74d9e24259f4cf64ef4279d9c26f54f9822f14b4af02399219b48f2f3499a20299340fafb419228902af94342f82b9146fc2f95942efd47ff45962c2d9744fe56ec3f85843eed57ef55863c3d8754ee398350eaeb518238803ae95352e83b818832e15b5ae03389318b58e2e3598a30e75d8e34358f5ce65ee4378d8c36e55fa812c17b7ac013a911ab78c2c379aa10c77dae1415af7cc67ec417adac16c57f76cc1fa5a41ecd77cf75a61c1da774ce19a370cacb71a218a01ac97372c81ba109b360dadb61b208b00ad96362d80bb166dc0fb5b40edd67df65b60c0db764ded76dbe0405bf6cd66ed407bdbc06d56fb802d16b6ad003b901bb68d2d369ba00;
  0x08b363d8de65b50eb902d2696fd404bf77cc1ca7a11aca71c67dad1610ab7bc0f64d9d26209b4bf047fc2c97912afa418932e2595fe4348f388353e8ee55853ee95282393f8454ef58e333888e35e55e962dfd4640fb2b90279c4cf7f14a9a2117ac7cc7c17aaa11a61dcd7670cb1ba068d303b8be05d56ed962b2090fb464dfd76cbc0701ba6ad166dd0db6b00bdb60a813c3787ec515ae19a272c9cf74a41f299242f9ff44942f9823f3484ef5259e56ed3d86803beb50e75c8c37318a5ae1368d5de6e05b8b30873cec5751ea3a8149f222999f24f44ff84393282e9545fec873a3181ea575ce79c212a9af14c47fb70cdc6761da0ab106bd6dd6d06bbb00;
  0xcf73aa1605b960dc46fa239f8c30e955c07ca5190ab66fd349f52c90833fe65ad16db4081ba77ec258e43d81922ef74bde62bb0714a871cd57eb328e9d21f844f34f962a39855ce07ac61fa3b00cd569fc409925368a53ef75c910acbf03da66ed518834279b42fe64d801bdae12cb77e25e873b28944df16bd70eb2a11dc478b70bd26e7dc118a43e825be7f448912db804dd6172ce17ab318d54e8fb479e22a915cc7063df06ba209c45f9ea568f33a61ac37f6cd009b52f934af6e559803c8b37ee5241fd249802be67dbc874ad118438e15d4ef22b970db168d4c77ba21e9529f04c5fe33a861ca079c5d66ab30f9a26ff4350ec358913af76cad965bc00;
  0x308d57eafe439924b10cd66b7fc218a52f9248f5e15c863bae13c97460dd07ba0eb369d4c07da71a8f32e85541fc269b11ac76cbdf62b805902df74a5ee339844cf12b96823fe558cd70aa1703be64d953ee34899d20fa47d26fb5081ca17bc672cf15a8bc01db66f34e94293d805ae76dd00ab7a31ec479ec518b36229f45f8c875af1206bb61dc49f42e93873ae05dd76ab00d19a47ec356eb318c9825ff42f64b912c38855fe277ca10adb904de63e9548e33279a40fd68d50fb2a61bc17cb409d36e7ac71da0358852effb469c21ab16cc7165d802bf2a974df0e459833e8a37ed5044f9239e0bb66cd1c578a21f9528f24f5be63c8114a973ceda67bd00;
  0x2c924df3ee508f31b50bd46a77c916a803bd62dcc17fa01e9a24fb4558e6398772cc13adb00ed16feb558a34299748f65de33c829f21fe40c47aa51b06b867d9902ef14f52ec338d09b768d6cb75aa14bf01de607dc31ca2269847f9e45a853bce70af110cb26dd357e93688952bf44ae15f803e239d42fc78c619a7ba04db6549f728968b35ea54d06eb10f12ac73cd66d807b9a41ac57bff419e203d835ce217a976c8d56bb40a8e30ef514cf22d93388659e7fa449b25a11fc07e63dd02bcf54b942a378956e86cd20db3ae10cf71da64bb0518a679c743fd229c813fe05eab15ca7469d708b6328c53edf04e912f843ae55b46f827991da37cc2df61be00;
  0xd36cb00f15aa76c942fd219e843be758ec538f302a9549f67dc21ea1bb04d867ad12ce716bd408b73c835fe0fa459926922df14e54eb378803bc60dfc57aa6192f904cf3e9568a35be01dd6278c71ba410af73ccd669b50a813ee25d47f8249b51ee328d9728f44bc07fa31c06b965da6ed10db2a817cb74ff409c2339865ae5368955eaf04f932ca718c47b61de02bd09b66ad5cf70ac139827fb445ee13d8248f72b948e31ed52d966ba051fa07cc377c814abb10ed26de659853a209f43fcca75a9160cb36fd05be438879d22fe41f54a9629338c50ef64db07b8a21dc17eb40bd76872cd11ae259a46f9e35c803f8b34e8574df22e911aa579c6dc63bf00;
  0x5393ce0e74b4e9291ddd80403afaa767cf0f5292e82875b581411cdca6663bfb76b6eb2b5191cc0c38f8a5651fdf8242ea2a77b7cd0d5090a46439f983431ede19d984443efea3635797ca0a70b0ed2d854518d8a2623fffcb0b5696ec2c71b13cfca1611bdb864672b2ef2f5595c808a0603dfd87471adaee2e73b3c9095494c7075a9ae0207dbd894914d4ae6e33f35b9bc6067cbce12115d5884832f2af6fe2227fbfc5055898ac6c31f18b4b16d67ebee3235999c40430f0ad6d17d78a4a8d4d10d0aa6a37f7c3035e9ee42479b911d18c4c36f6ab6b5f9fc20278b8e525a86835f58f4f12d2e6267bbbc1015c9c34f4a96913d38e4e7abae7275d9dc000;
  0xac6d33f28f4e10d1ea2b75b4c908569720e1bf7e03c29c5d66a7f9384584da1ba96836f78a4b15d4ef2e70b1cc0d539225e4ba7b06c7995863a2fc3d4081df1ea66739f885441adbe0217fbec3025c9d2aebb57409c896576cadf3324f8ed011a3623cfd80411fdee5247abbc60759982feeb0710ccd935269a8f6374a8bd514b87927e69b5a04c5fe3f61a0dd1c428334f5ab6a17d6884972b3ed2c5190ce0fbd7c22e39e5f01c0fb3a64a5d819478631f0ae6f12d38d4c77b6e8295495cb0ab2732dec91500ecff4356baad71648893effa1601ddc824378b9e7265b9ac405b77628e994550bcaf1306eafd2134d8c3bfaa46518d987467dbce2235e9fc100;
  0xb07229eb9f5d06c4ee2c77b5c103589a0cce955723e1ba785290cb097dbfe426d5174c8efa3863a18b4912d0a4663dff69abf0324684df1d37f5ae6c18da81437ab8e3215597cc0e24e6bd7f0bc99250c6045f9de92b70b2985a01c3b7752eec1fdd864430f2a96b4183d81a6eacf735a3613af88c4e15d7fd3f64a6d2104b8939fba06216d48f4d67a5fe3c488ad11385471cdeaa6833f1db194280f4366daf5c9ec50773b1ea2802c09b592defb476e02279bbcf0d5694be7c27e5915308caf3316aa8dc1e4587ad6f34f682401bd94f8dd61460a2f93b11d3884a3efca76596540fcdb97b20e2c80a5193e7257ebc2ae8b37105c79c5e74b6ed2f5b99c200;
  0x4f8cd41764a7ff3c19da824132f1a96ae32078bbc80b5390b5762eed9e5d05c60ac9915221e2ba795c9fc70477b4ec2fa6653dfe8d4e16d5f0336ba8db184083c5065e9dee2d75b6935008cbb87b23e069aaf2314281d91a3ffca46714d78f4c80431bd8ab6830f3d6154d8efd3e66a52cefb77407c49c5f7ab9e1225192ca094685dd1e6daef63510d38b483bf8a063ea2971b2c1025a99bc7f27e497540ccf03c0985b28ebb3705596ce0d7ebde526af6c34f784471fdcf93a62a1d211498acc0f5794e7247cbf9a5901c2b1722ae960a3fb384b88d01336f5ad6e1dde8645894a12d1a26139fadf1c4487f4376fac25e6be7d0ecd955673b0e82b589bc300;
  0x884c1dd9bf7b2aeee62273b7d11544805490c10563a7f6323afeaf6b0dc9985c2de9b87c1ade8f4b4387d61274b0e125f13564a0c60253979f5b0acea86c3df9df1b4a8ee82c7db9b17524e0864213d703c7965234f0a1656da9f83c5a9ecf0b7abeef2b4d89d81c14d0814523e7b672a66233f7915504c0c80c5d99ff3b6aae26e2b37711d58440488cdd197fbbea2efa3e6fabcd09589c945001c5a36736f2834716d2b47021e5ed2978bcda1e4f8b5f9bca0e68acfd3931f5a46006c2935771b5e4204682d3171fdb8a4e28ecbd79ad6938fc9a5e0fcbc3075692f43061a5d4104185e32776b2ba7e2feb8d4918dc08cc9d593ffbaa6e66a2f3375195c400;
  0x77b2e0254481d31611d4864322e7b570bb7e2ce9884d1fdadd184a8fee2b79bcf23765a0c1045693945103c6a76230f53efba96c0dc89a5f589dcf0a6baefc3960a5f7325396c40106c3915435f0a267ac693bfe9f5a08cdca0f5d98f93c6eabe52072b7d6134184834614d1b07527e229ecbe7b1adf8d484f8ad81d7cb9eb2e599cce0b6aaffd383ffaa86d0cc99b5e955002c7a66331f4f33664a1c0055792dc194b8eef2a78bdba7f2de8894c1edb10d5874223e6b47176b3e1244580d2174e8bd91c7db8ea2f28edbf7a1bde8c49824715d0b17426e3e42173b6d7124085cb0e5c99f83d6faaad683aff9e5b09cc07c2905534f1a36661a4f6335297c500;
  0x6badfa3c5492c50315d384422aecbb7d975106c0a86e39ffe92f78bed61047818e481fd9b17720e6f03661a7cf095e9872b4e3254d8bdc1a0cca9d5b33f5a264bc7a2deb834512d4c2045395fd3b6caa4086d1177fb9ee283ef8af6901c79056599fc80e66a0f73127e1b67018de894fa56334f29a5c0bcddb1d4a8ce42275b3d81e498fe72176b0a66037f1995f08ce24e2b5731bdd8a4c5a9ccb0d65a3f4323dfbac6a02c493554385d2147cbaed2bc1075096fe386fa9bf792ee8804611d70fc99e5830f6a16771b7e0264e88df19f33562a4cc0a5d9b8d4b1cdab27423e5ea2c7bbdd5134482945205c3ab6d3afc16d0874129efb87e68aef93f5791c600;
  0x945307c0af683cfbe22571b6d91e4a8d78bfeb2c4384d0170ec99d5a35f2a6615196c2056aadf93e27e0b4731cdb8f48bd7a2ee9864115d2cb0c589ff03763a403c4905738ffab6c75b2e6214e89dd1aef287cbbd4134780995e0acda26531f6c6015592fd3a6ea9b07723e48b4c18df2aedb97e11d682455c9bcf0867a0f433a76034f39c5b0fc8d1164285ea2d79be4b8cd81f70b7e3243dfaae6906c1955262a5f136599eca0d14d387402fe8bc7b8e491ddab57226e1f83f6bacc304509730f7a3640bcc985f4681d5127dbaee29dc1b4f88e72074b3aa6d39fe915602c5f53266a1ce095d9a834410d7b87f2bec19de8a4d22e5b1766fa8fc3b5493c700;
  0xf83075bdff3772baf63e7bb3f1397cb4e42c69a1e32b6ea6ea2267afed2560a8c0084d85c70f4a82ce06438bc901448cdc145199db13569ed21a5f97d51d5890884005cd8f4702ca864e0bc381490cc4945c19d1935b1ed69a5217df9d5510d8b0783df5b77f3af2be7633fbb97134fcac6421e9ab6326eea26a2fe7a56d28e018d0955d1fd7925a16de9b5311d99c5404cc894103cb8e460ac2874f0dc5804820e8ad6527efaa622ee6a36b29e1a46c3cf4b1793bf3b67e32fabf7735fdb87068a0e52d6fa7e22a66aeeb2361a9ec2474bcf93173bbfe367ab2f73f7db5f0385098dd15579fda125e96d31b5991d41c4c84c1094b83c60e428acf07458dc800;
  0x07ce884104cd8b4201c88e4702cb8d440bc2844d08c1874e0dc4824b0ec781481fd690591cd5935a19d0965f1ad3955c13da9c5510d99f5615dc9a5316df995037feb87134fdbb7231f8be7732fbbd743bf2b47d38f1b77e3df4b27b3ef7b1782fe6a0692ce5a36a29e0a66f2ae3a56c23eaac6520e9af6625ecaa6326efa96067aee82164adeb2261a8ee2762abed246ba2e42d68a1e72e6da4e22b6ea7e1287fb6f0397cb5f33a79b0f63f7ab3f53c73bafc3570b9ff3675bcfa3376bff930579ed811549ddb125198de17529bdd145b92d41d5891d71e5d94d21b5e97d1184f86c0094c85c30a4980c60f4a83c50c438acc054089cf06458cca03468fc900;
  0x1bd1925814de9d5705cf8c460ac0834927edae6428e2a16b39f3b07a36fcbf7563a9ea206ca6e52f7db7f43e72b8fb315f95d61c509ad913418bc8024e84c70deb2162a8e42e6da7f53f7cb6fa3073b9d71d5e94d812519bc903408ac60c4f8593591ad09c5615df8d4704ce82480bc1af6526eca06a29e3b17b38f2be7437fde62c6fa5e92360aaf83271bbf73d7eb4da105399d51f5c96c40e4d87cb0142889e5417dd915b18d2804a09c38f4506cca2682be1ad6724eebc7635ffb3793af016dc9f5519d3905a08c2814b07cd8e442ae0a36925efac6634febd773bf1b2786ea4e72d61abe82270baf9337fb5f63c5298db115d97d41e4c86c50f4389ca00;
  0xe42f6fa4ef2464aff23979b2f93272b9c8034388c3084883de15559ed51e5e95bc7737fcb77c3cf7aa6121eaa16a2ae1905b1bd09b5010db864d0dc68d4606cd549fdf145f94d41f4289c9024982c20978b3f33873b8f8336ea5e52e65aeee250cc7874c07cc8c471ad1915a11da9a5120ebab602be0a06b36fdbd763df6b67d995212d9925919d28f4404cf844f0fc4b57e3ef5be7535fea36828e3a86323e8c10a4a81ca01418ad71c5c97dc17579ced2666ade62d6da6fb3070bbf03b7bb029e2a26922e9a9623ff4b47f34ffbf7405ce8e450ec5854e13d8985318d3935871bafa317ab1f13a67acec276ca7e72c5d96d61d569ddd164b80c00b408bcb00;
  0x23efa66a34f8b17d0dc188441ad69f537fb3fa3668a4ed21519dd418468ac30f9b571ed28c4009c5b57930fca26e27ebc70b428ed01c5599e9256ca0fe327bb74e82cb075995dc1060ace52977bbf23e12de975b05c9804c3cf0b9752be7ae62f63a73bfe12d64a8d8145d91cf034a86aa662fe3bd7138f4844801cd935f16daf9357cb0ee226ba7d71b529ec00c4589a56920ecb27e37fb8b470ec29c5019d5418dc408569ad31f6fa3ea2678b4fd311dd198540ac68f4333ffb67a24e8a16d945811dd834f06caba763ff3ad6128e4c8044d81df135a96e62a63aff13d74b82ce0a9653bf7be7202ce874b15d9905c70bcf53967abe22e5e92db174985cc00;
  0xdc115b96cf024885fa377db0e9246ea3905d17da834e04c9b67b31fca56822ef4489c30e579ad01d62afe52871bcf63b08c58f421bd69c512ee3a9643df0ba77f13c76bbe22f65a8d71a509dc409438ebd703af7ae6329e49b561cd188450fc269a4ee237ab7fd304f82c8055c91db1625e8a26f36fbb17c03ce844910dd975a864b01cc955812dfa06d27eab37e34f9ca074d80d9145e93ec216ba6ff3278b51ed399540dc08a4738f5bf722be6ac61529fd518418cc60b74b9f33e67aae02dab662ce1b8753ff28d400ac79e5319d4e72a60adf43973bec10c468bd21f559833feb47920eda76a15d8925f06cb814c7fb2f8356ca1eb265994de134a87cd00;
  0xc00e418fdf115e90fe307fb1e12f60aebc723df3a36d22ec824c03cd9d531cd238f6b97727e9a66806c8874919d79856448ac50b5b95da147ab4fb3565abe42a2de3ac6232fcb37d13dd925c0cc28d43519fd01e4e80cf016fa1ee2070bef13fd51b549aca044b85eb256aa4f43a75bba96728e6b67837f9975916d8884609c707c9864818d6995739f7b87626e8a7697bb5fa3464aae52b458bc40a5a94db15ff317eb0e02e61afc10f408ede105f91834d02cc9c521dd3bd733cf2a26c23edea246ba5f53b74bad41a559bcb054a84965817d9894708c6a86629e7b77936f812dc935d0dc38c422ce2ad6333fdb27c6ea0ef2171bff03e509ed11f4f81ce00;
  0x3ff0bc7324eba76809c68a4512dd915e539cd01f4887cb0465aae6297eb1fd32e72864abfc337fb0d11e529dca0549868b4408c7905f13dcbd723ef1a66925ea925d11de89460ac5a46b27e8bf703cf3fe317db2e52a66a9c8074b84d31c509f4a85c906519ed21d7cb3ff3067a8e42b26e9a56a3df2be7110df935c0bc4884778b7fb3463ace02f4e81cd02559ad61914db97580fc08c4322eda16e39f6ba75a06f23ecbb7438f7965915da8d420ec1cc034f80d718549bfa3579b6e12e62add51a5699ce014d82e32c60aff8377bb4b9763af5a26d21ee8f400cc3945b17d80dc28e4116d9955a3bf4b87720efa36c61aee22d7ab5f9365798d41b4c83cf00;
  0x18c8a5757fafc212d6066bbbb1610cdc994924f4fe2e43935787ea3a30e08d5d07d7ba6a60b0dd0dc91974a4ae7e13c386563bebe1315c8c4898f5252fff924226f69b4b4191fc2ce83855858f5f32e2a7771acac0107dad69b9d4040edeb36339e984545e8ee333f7274a9a90402dfdb86805d5df0f62b276a6cb1b11c1ac7c64b4d90903d3be6eaa7a17c7cd1d70a0e535588882523fef2bfb96464c9cf1217babc6161ccca171b56508d8d2026fbffa2a47979d4d20f034e489595383ee3e5a8ae7373ded8050944429f9f3234e9edb0b66b6bc6c01d115c5a87872a2cf1f4595f82822f29f4f8b5b36e6ec3c5181c41479a9a3731ece0adab7676dbdd000;
  0xe736588984553bea21f09e4f4293fd2c76a7c91815c4aa7bb0610fded3026cbdd80967b6bb6a04d51ecfa1707dacc2134998f6272afb95448f5e30e1ec3d5382994826f7fa2b45945f8ee0313ced835208d9b7666bbad405ce1f71a0ad7c12c3a67719c8c5147aab60b1df0e03d2bc6d37e688595485eb3af1204e9f92432dfc1bcaa47578a9c716dd0c62b3be6f01d08a5b35e4e93856874c9df3222ffe904124f59b4a4796f829e2335d8c81503eefb5640adbd60769b873a2cc1d10c1af7e65b4da0b06d7b968a3721ccdc0117faef4254b9a974628f932e38d5c5180ee3f5a8be53439e886579c4d23f2ff2e4091cb1a74a5a87917c60ddcb2636ebfd100;
  0xfb29429094462dff25f79c4e4a98f3215a88e33135e78c5e84563defeb395280a4761dcfcb1972a07aa8c31115c7ac7e05d7bc6e6ab8d301db0962b0b4660ddf4597fc2e2af893419b4922f0f4264d9fe4365d8f8b5932e03ae883515587ec3e1ac8a37175a7cc1ec4167dafab7912c0bb6902d0d4066dbf65b7dc0e0ad8b3619a4823f1f5274c9e4496fd2f2bf992403be982505486ed3fe5375c8e8a5833e1c5177caeaa7813c11bc9a27074a6cd1f64b6dd0f0bd9b260ba6803d1d5076cbe24f69d4f4b99f220fa28439195472cfe85573ceeea3853815b89e23034e68d5f7ba9c21014c6ad7fa5771cceca1873a1da0863b1b5670cde04d6bd6f6bb9d200;
  0x04d7bf6c6fbcd407d20169bab96a02d1b5660eddde0d65b663b0d80b08dbb3607ba8c01310c3ab78ad7e16c5c6157daeca1971a2a1721ac91ccfa77477a4cc1ffa29419291422af92cff97444794fc2f4b98f02320f39b489d4e26f5f6254d9e85563eedee3d55865380e83b38eb835034e78f5c5f8ce437e231598a895a32e1e5365e8d8e5d35e633e0885b588be3305487ef3c3fec8457825139eae93a52819a4921f2f1224a994c9ff72427f49c4f2bf890434093fb28fd2e469596452dfe1bc8a07370a3cb18cd1e76a5a6751dceaa7911c2c1127aa97cafc71417c4ac7f64b7df0c0fdcb467b26109dad90a62b1d5066ebdbe6d05d603d0b86b68bbd300;
  0xc31776a2b46001d52df9984c5a8eef3b02d6b76375a1c014ec38598d9b4f2efa5c88e93d2bff9e4ab26607d3c51170a49d4928fcea3e5f8b73a7c61204d0b165e0345581974322f60edabb6f79adcc1821f594405682e337cf1b7aaeb86c0dd97fabca1e08dcbd69914524f0e6325387be6a0bdfc91d7ca85084e53127f39246855130e4f22647936bbfde0a1cc8a97d4490f12533e78652aa7e1fcbdd0968bc1aceaf7b6db9d80cf4204195835736e2db0f6ebaac7819cd35e180544296f723a67213c7d10564b0489cfd293feb8a5e67b3d20610c4a571895d3ce8fe2a4b9f39ed8c584e9afb2fd70362b6a07415c1f82c4d998f5b3aee16c2a37761b5d400;
  0x3ce98b5e4f9af82dda0f6db8a97c1ecbed385a8f9e4b29fc0bdebc6978adcf1a835634e1f025479265b0d20716c3a1745287e53021f49643b46103d6c71270a55f8ae83d2cf99b4eb96c0edbca1f7da88e5b39ecfd284a9f68bddf0a1bceac79e0355782934624f106d3b16475a0c21731e486534297f520d70260b5a47113c6fa2f4d98895c3eeb1cc9ab7e6fbad80d2bfe9c49588def3acd187aafbe6b09dc4590f22736e38154a37614c1d00567b2944123f6e732508572a7c51001d4b663994c2efbea3f5d887faac81d0cd9bb6e489dff2a3bee8c59ae7b19ccdd086abf26f391445580e237c01577a2b36604d1f7224095845133e611c4a67362b7d500;
  0x20f691475f89ee38de086fb9a17710c6c11770a6be680fd93fe98e584096f127ff294e98805631e701d7b0667ea8cf191ec8af7961b7d006e03651879f492ef8835532e4fc2a4d9b7dabcc1a02d4b36562b4d3051dcbac7a9c4a2dfbe33552845c8aed3b23f59244a27413c5dd0b6cbabd6b0cdac21473a54395f2243cea8d5b7badca1c04d2b563855334e2fa2c4b9d9a4c2bfde533548264b2d5031bcdaa7ca47215c3db0d6abc5a8ceb3d25f394424593f4223aec8b5dbb6d0adcc41275a3d80e69bfa77116c026f09741598fe83e39ef885e4690f721c71176a0b86e09df07d1b66078aec91ff92f489e865037e1e6305781994f28fe18cea97f67b1d600;
  0xdf086cbba47317c029fe9a4d5285e1362ef99d4a5582e631d80f6bbca37410c720f793445b8ce83fd60165b2ad7a1ec9d10662b5aa7d19ce27f094435c8bef383ceb8f584790f423ca1d79aeb16602d5cd1a7ea9b66105d23bec885f4097f324c31470a7b86f0bdc35e286514e99fd2a32e58156499efa2dc41377a0bf680cdb04d3b7607fa8cc1bf2254196895e3aedf52246918e593dea03d4b06778afcb1cfb2c489f805733e40ddabe6976a1c5120addb96e71a6c215fc2b4f98875034e3e73054839c4b2ff811c6a2756abdd90e16c1a5726dbade09e03753849b4c28ff18cfab7c63b4d007ee395d8a954226f1e93e5a8d924521f61fc8ac7b64b3d700;
  0xb36b1ec6f42c59813de590487aa2d70fb26a1fc7f52d58803ce491497ba3d60eb1691cc4f62e5b833fe7924a78a0d50db0681dc5f72f5a823ee6934b79a1d40cb76f1ac2f0285d8539e1944c7ea6d30bb66e1bc3f1295c8438e0954d7fa7d20ab56d18c0f22a5f873be3964e7ca4d109b46c19c1f32b5e863ae2974f7da5d008bb6316cefc24518935ed984072aadf07ba6217cffd25508834ec994173abde06b96114ccfe26538b37ef9a4270a8dd05b86015cdff27528a36ee9b4371a9dc04bf6712caf820558d31e99c4476aedb03be6613cbf921548c30e89d4577afda02bd6510c8fa22578f33eb9e4674acd901bc6411c9fb23568e32ea9f4775add800;
  0x4c95e33a0fd6a079ca1365bc895026ff5d84f22b1ec7b168db0274ad984137ee6eb7c1182df4825be831479eab7204dd7fa6d0093ce5934af920568fba6315cc08d1a77e4b92e43d8e5721f8cd1462bb19c0b66f5a83f52c9f4630e9dc0573aa2af3855c69b0c61fac7503daef3640993be2944d78a1d70ebd6412cbfe275188c41d6bb2875e28f1429bed3401d8ae77d50c7aa3964f39e0538afc2510c9bf66e63f4990a57c0ad360b9cf1623fa8c55f72e5881b46d1bc271a8de0732eb9d4480592ff6c31a6cb506dfa970459cea3391483ee7d20b7da417ceb861548dfb22a27b0dd4e1384e9724fd8b5267bec811b36a1cc5f0295f8635ec9a4376afd900;
  0x508af9231fc5b66cce1467bd815b28f271abd8023ee4974def35469ca07a09d312c8bb615d87f42e8c5625ffc3196ab033e99a407ca6d50fad7704dee2384b91d40e7da79b4132e84a90e33905dfac76f52f5c86ba6013c96bb1c21824fe8d57964c3fe5d90370aa08d2a17b479dee34b76d1ec4f822518b29f3805a66bccf15459fec360ad0a379db0172a8944e3de764becd172bf18258fa205389b56f1cc607ddae744892e13b994330ead60c7fa526fc8f5569b3c01ab86211cbf72d5e84c11b68b28e5427fd5f85f62c10cab963e03a4993af7506dc7ea4d70d31eb984283592af0cc1665bf1dc7b46e5288fb21a2780bd1ed37449e3ce6954f73a9da00;
  0xaf7404dfe43f4f9439e2924972a9d9029e4535eed50e7ea508d3a3784398e833cd1666bd865d2df65b80f02b10cbbb60fc27578cb76c1cc76ab1c11a21fa8a516bb0c01b20fb8b50fd26568db66d1dc65a81f12a11caba61cc1767bc875c2cf709d2a2794299e9329f4434efd40f7fa438e3934873a8d803ae7505dee53e4e953ae1914a71aada01ac7707dce73c4c970bd0a07b409beb309d4636edd60d7da65883f32813c8b863ce1565be855e2ef569b2c21922f98952ff24548fb46f1fc4fe25558eb56e1ec568b3c31823f88853cf1464bf845f2ff45982f22912c9b9629c4737ecd70c7ca70ad1a17a419aea31ad7606dde63d4d963be0904b70abdb00;
  0x68b4cd113fe39a46c61a63bf914d34e829f58c507ea2db07875b22fed00c75a9ea364f93bd6118c44498e13d13cfb66aab770ed2fc20598505d9a07c528ef72b71add40826fa835fdf037aa688542df130ec954967bbc21e9e423be7c9156cb0f32f568aa47801dd5d81f8240ad6af73b26e17cbe539409c1cc0b9654b97ee325a86ff230dd1a874f428518da37f06da1bc7be624c90e935b56910cce23e479bd8047da18f532af676aad30f21fd845899453ce0ce126bb737eb924e60bcc519439fe63a14c8b16ded314894ba661fc302dea77b5589f02cac7009d5fb275e82c11d64b8964a33ef6fb3ca1638e49d41805c25f9d70b72ae2ef28b5779a5dc00;
  0x974a30edc41963be31ec964b62bfc518c61b61bc954832ef60bdc71a33ee944935e8924f66bbc11c934e34e9c01d67ba64b9c31e37ea904dc21f65b8914c36ebce1369b49d403ae768b5cf123be69c419f4238e5cc116bb639e49e436ab7cd106cb1cb163fe29845ca176db099443ee33de09a476eb3c9149b463ce1c8156fb225f8825f76abd10c835e24f9d00d77aa74a9d30e27fa805dd20f75a8815c26fb875a20fdd40973ae21fc865b72afd508d60b71ac855822ff70add70a23fe84597ca1db062ff28855da077da089542ef32df08a577ea3d9048b562cf1d8057fa2de0379a48d502af778a5df022bf68c518f5228f5dc017ba629f48e537aa7dd00;
  0x8b552af4d40a75ab35eb944a6ab4cb15ea344b95b56b14ca548af52b0bd5aa744997e83616c8b769f7295688a87609d728f6895777a9d608964837e9c91768b612ccb36d4d93ec32ac720dd3f32d528c73add20c2cf28d53cd136cb2924c33edd00e71af8f512ef06eb0cf1131ef904eb16f10ceee304f910fd1ae70508ef12fa47a05dbfb255a841ac4bb65459be43ac51b64ba9a443be57ba5da0424fa855b66b8c71939e79846d80679a7875926f807d9a6785886f927b96718c6e63847993de39c4262bcc31d835d22fcdc027da35c82fd2303dda27ce23c439dbd631cc2ff215e80a07e01df419fe03e1ec0bf619e403fe1c11f60be20fe815f7fa1de00;
  0x74abd7082ff08c53c21d61be99463ae505daa6795e81fd22b36c10cfe8374b94964935eacd126eb120ff835c7ba4d807e738449bbc631fc0518ef22d0ad5a976ad720ed1f629558a1bc4b867409fe33cdc037fa0875824fb6ab5c91631ee924d4f90ec3314cbb768f9265a85a27d01de3ee19d4265bac61988572bf4d30c70afdb0478a7805f23fc6db2ce1136e9954aaa7509d6f12e528d1cc3bf604798e43b39e69a4562bdc11e8f502cf3d40b77a84897eb3413ccb06ffe215d82a57a06d902dda17e5986fa25b46b17c8ef304c9373acd00f28f78b54c51a66b99e413de2e03f439cbb6418c75689f52a0dd2ae71914e32edca1569b627f8845b7ca3df00;
  0xc52518f86282bf5f96764bab31d1ec0c6383be5ec42419f930d0ed0d97774aaa947449a933d3ee0ec7271afa6080bd5d32d2ef0f957548a86181bc5cc6261bfb6787ba5ac0201dfd34d4e90993734eaec1211cfc6686bb5b92724faf35d5e80836d6eb0b91714cac6585b858c2221fff90704dad37d7ea0ac3231efe6484b9599c7c41a13bdbe606cf2f12f26888b5553adae7079d7d40a06989b454ce2e13f3cd2d10f06a8ab7579e7e43a339d9e4046b8bb656cc2c11f138d8e5059f7f42a23edee303997944a46d8db050ca2a17f7987845a53fdfe202cb2b16f66c8cb1516f8fb252c82815f53cdce1019b7b46a6c92914f46e8eb3539a7a47a73ddde000;
  0x3adbe504997846a76180be5fc2231dfc8c6d53b22fcef011d73608e97495ab4a4baa9475e80937d610f1cf2eb3526c8dfd1c22c35ebf8160a647799805e4da3bd83907e67b9aa44583625cbd20c1ff1e6e8fb150cd2c12f335d4ea0b967749a8a94876970aebd534f2132dcc51b08e6f1ffec021bc5d638244a59b7ae70638d9e3023cdd40a19f7eb85967861bfac42555b48a6bf61729c80eefd130ad4c729392734dac31d0ee0fc92816f76a8bb55424c5fb1a876658b97f9ea041dc3d03e201e0de3fa2437d9c5abb8564f91826c7b756688914f5cb2aec0d33d24fae90717091af4ed3320ced2bcaf415886957b6c62719f86584ba5b9d7c42a33edfe100;
  0x26c4ff1d896b50b26587bc5eca2813f1a042799b0fedd634e3013ad84cae957737d5ee0c987a41a37496ad4fdb3902e0b153688a1efcc725f2102bc95dbf846604e6dd3fab49729047a59e7ce80a31d382605bb92dcff416c12318fa6e8cb75515f7cc2eba58638156b48f6df91b20c293714aa83cdee507d03209eb7f9da6446280bb59cd2f14f621c3f81a8e6c57b5e4063ddf4ba99270a7457e9c08ead1337391aa48dc3e05e730d2e90b9f7d46a4f5172cce5ab88361b6546f8d19fbc02240a2997bef0d36d403e1da38ac4e7597c6241ffd698bb05285675cbe2ac8f31151b3886afe1c27c512f0cb29bd5f6486d7350eec789aa14394764daf3bd9e200;
  0xd93a02e17291a94a927149aa39dae2014fac9477e4073fdc04e7df3caf4c7497e80b33d043a0987ba340789b08ebd3307e9da546d5360eed35d6ee0d9e7d45a6bb58608310f3cb28f0132bc85bb880632dcef61586655dbe6685bd5ecd2e16f58a6951b221c2fa19c1221af96a89b1521cffc724b7546c8f57b48c6ffc1f27c41dfec625b6556d8e56b58d6efd1e26c58b6850b320c3fb18c0231bf86b88b0532ccff71487645cbf6784bc5fcc2f17f4ba59618211f2ca29f1122ac95ab981627f9ca447d4370fec34d7ef0c9f7c44a7e90a32d142a1997aa241799a09ead2314ead9576e5063edd05e6de3dae4d7596d83b03e07390a84b937048ab38dbe300;
  0x1efacb2fa94d7c986d89b85cda3e0febf81c2dc94fab9a7e8b6f5eba3cd8e90dcf2b1afe789cad49bc58698d0befde3a29cdfc189e7a4baf5abe8f6bed0938dca145749016f2c327d23607e36581b05447a39276f01425c134d0e105836756b27094a541c72312f603e7d632b4506185967243a721c5f410e50130d452b687637d99a84cca2e1ffb0eeadb3fb95d6c889b7f4eaa2cc8f91de80c3dd95fbb8a6eac48799d1bffce2adf3b0aee688cbd594aae9f7bfd1928cc39ddec088e6a5bbfc22617f37591a044b155648006e2d33724c0f115937746a257b38266e00435d113f7c622a44071956084b551d73302e6f51120c442a69773866253b731d5e400;
  0xe10436d352b785609a7f4da829ccfe1b17f2c025a44173966c89bb5edf3a08ed10f5c722a34674916b8ebc59d83d0feae60331d455b082679d784aaf2ecbf91c1efbc92cad487a9f6580b257d63301e4e80d3fda5bbe8c69937644a120c5f712ef0a38dd5cb98b6e947143a627c2f01519fcce2baa4f7d986287b550d13406e302e7d530b1546683799cae4bca2f1df8f41123c647a290758f6a58bd3cd9eb0ef31624c140a59772886d5fba3bdeec0905e0d237b65361847e9ba94ccd281afffd182acf4eab997c866351b435d0e2070beedc39b85d6f8a7095a742c32614f10ce9db3ebf5a688d7792a045c42113f6fa1f2dc849ac9e7b816456b332d7e500;
  0xfd1b2cca42a493759e784fa921c7f0163bddea0c846255b358be896fe70136d06c8abd5bd33502e40fe9de38b0566187aa4c7b9d15f3c422c92f18fe7690a741c22413f57d9bac4aa14770961ef8cf2904e2d533bb5d6a8c6781b650d83e09ef53b58264ec0a3ddb30d6e1078f695eb8957344a22accfb1df61027c149af987e836552b43cdaed0be00631d75fb98e6845a39472fa1c2bcd26c0f711997f48ae12f4c325ad4b7c9a7197a046ce281ff9d43205e36b8dba5cb751668008eed93fbc5a6d8b03e5d234df390ee86086b1577a9cab4dc52314f219ffc82ea64077912dcbfc1a927443a54ea89f79f11720c6eb0d3adc54b28563886e59bf37d1e600;
  0x02e5d136b95e6a8d698eba5dd23501e6d43307e06f88bc5bbf586c8b04e3d730b354608708efdb3cd83f0bec6384b0576582b651de390dea0ee9dd3ab55266817d9aae49c62115f216f1c522ad4a7e99ab4c789f10f7c324c02713f47b9ca84fcc2b1ff87790a443a74074931cfbcf281afdc92ea14672957196a245ca2d19fefc1b2fc847a09473977044a32ccbff182acdf91e917642a541a69275fa1d29ce4daa9e79f61125c226c1f5129d7a4ea99b7c48af20c7f314f01723c44bac987f836450b738dfeb0ce80f3bdc53b4806755b28661ee093dda3ed9ed0a856256b132d5e106896e5abd59be8a6de20531d6e40337d05fb88c6b8f685cbb34d3e700;
  0x6e86a34be90124cc7d95b058fa1237df48a0856dcf2702ea5bb3967edc3411f922caef07a54d688031d9fc14b65e7b9304ecc921836b4ea617ffda3290785db5f61e3bd37199bc54e50d28c0628aaf47d0381df557bf9a72c32b0ee644ac8961ba52779f3dd5f018a941648c2ec6e30b9c7451b91bf3d63e8f6742aa08e0c52d43ab8e66c42c09e150b89d75d73f1af2658da840e20a2fc7769ebb53f1193cd40fe7c22a886045ad1cf4d1399b7356be29c1e40cae46638b3ad2f71fbd557098db3316fe5cb49179c82005ed4fa7826afd1530d87a92b75fee0623cb6981a44c977f5ab210f8dd35846c49a103ebce26b1597c9436defb13a24a6f8725cde800;
  0x91785eb712fbdd348a6345ac09e0c62fa74e688124cdeb02bc55739a3fd6f019fd1432db7e97b158e60f29c0658caa43cb2204ed48a1876ed0391ff653ba9c7549a0866fca2305ec52bb9d74d1381ef77f96b059fc1533da648dab42e70e28c125ccea03a64f69803ed7f118bd54729b13fadc3590795fb608e1c72e8b6244ad3cd5f31abf56709927cee801a44d6b820ae3c52c896046af11f8de37927b5db450b99f76d33a1cf54ba2846dc82107ee668fa940e50c2ac37d94b25bfe1731d8e40d2bc2678ea841ff1630d97c95b35ad23b1df451b89e77c92006ef4aa3856c886147ae0be2c42d937a5cb510f9df36be5771983dd4f21ba54c6a8326cfe900;
  0x8d6744ae02e8cb218e6447ad01ebc8228b6142a804eecd27886241ab07edce24816b48a20ee4c72d82684ba10de7c42e876d4ea408e2c12b846e4da70be1c228957f5cb61af0d339967c5fb519f3d03a93795ab01cf6d53f907a59b31ff5d63c997350ba16fcdf359a7053b915ffdc369f7556bc10fad9339c7655bf13f9da30bd57749e32d8fb11be54779d31dbf812bb51729834defd17b852719b37ddfe14b15b78923ed4f71db2587b913dd7f41eb75d7e9438d2f11bb45e7d973bd1f218a54f6c862ac0e309a64c6f8529c3e00aa3496a802cc6e50fa04a69832fc5e60ca943608a26ccef05aa40638925cfec06af45668c20cae903ac46658f23c9ea00;
  0x7299b952f91232d97992b259f21939d2648faf44ef0424cf6f84a44fe40f2fc45eb5957ed53e1ef555be9e75de3515fe48a38368c32808e343a88863c82303e82ac1e10aa14a6a8121caea01aa41618a3cd7f71cb75c7c9737dcfc17bc57779c06edcd268d6646ad0de6c62d866d4da610fbdb309b7050bb1bf0d03b907b5bb0c22909e249a28269c92202e942a98962d43f1ff45fb4947fdf3414ff54bf9f74ee0525ce658eae45e50e2ec56e85a54ef81333d87398b853f31838d37893b3589a7151ba11fada31917a5ab11af1d13a8c6747ac07eccc27876c4ca70ce7c72cb65d7d963dd6f61dbd56769d36ddfd16a04b6b802bc0e00bab40608b20cbeb00;
  0xb559709c22cee70b866a43af11fdd438d33f16fa44a8816de00c25c9779bb25e7995bc50ee022bc74aa68f63dd3118f41ff3da3688644da12cc0e905bb577e9230dcf519a74b628e03efc62a947851bd56ba937fc12d04e86589a04cf21e37dbfc1039d56b87ae42cf230ae658b49d719a765fb30de1c824a9456c803ed2fb17a24e678b35d9f01c917d54b806eac32fc42801ed53bf967af71b32de608ca5496e82ab47f9153cd05db19874ca260fe308e4cd219f735ab63bd7fe12ac40698527cbe20eb05c759914f8d13d836f46aa41ad8468d63a13ff729eb75be50920cceb072ec27c90b955d8341df14fa38a668d6148a41af6df33be527b9729c5ec00;
  0x4aa78d60d9341ef3719cb65be20f25c83cd1fb16af42688507eac02d947953bea64b618c35d8f21f9d705ab70ee3c924d03d17fa43ae8469eb062cc17895bf528f6248a51cf1db36b459739e27cae00df9143ed36a87ad40c22f05e851bc967b638ea449f01d37da58b59f72cb260ce115f8d23f866b41ac2ec3e904bd507a97dd301af74ea38964e60b21cc7598b25fab466c8138d5ff12907d57ba03eec42931dcf61ba24f65880ae7cd2099745eb347aa806dd43913fe7c91bb56ef0228c518f5df328b664ca123cee409b05d779a6e83a944fd103ad755b8927fc62b01ecf41933de678aa04dcf2208e55cb19b76826f45a811fcd63bb9547e932ac7ed00;
  0x56b89779c92708e6759bb45aea042bc510fed13f8f614ea033ddf21cac426d83da341bf545ab846af91738d66688a7499c725db303edc22cbf517e9020cee10f53bd927ccc220de3709eb15fef012ec015fbd43a8a644ba536d8f719a9476886df311ef040ae816ffc123dd3638da24c997758b606e8c729ba547b9525cbe40a5cb29d73c32d02ec7f91be50e00e21cf1af4db35856b44aa39d7f816a6486789d03e11ff4fa18e60f31d32dc6c82ad43967857b909e7c826b55b749a2ac4eb0559b79876c62807e97a94bb55e50b24ca1ff1de30806e41af3cd2fd13a34d628cd53b14fa4aa48b65f61837d96987a846937d52bc0ce2cd23b05e719f2fc1ee00;
  0xa9466a8532ddf11e826d41ae19f6da35ff103cd3648ba748d43b17f84fa08c6305eac6299e715db22ec1ed02b55a769953bc907fc8270be47897bb54e30c20cfec032fc07798b45bc72804eb5cb39f70ba55799621cee20d917e52bd0ae5c92640af836cdb3418f76b84a847f01f33dc16f9d53a8d624ea13dd2fe11a649658a23cce00fb8577b9408e7cb24937c50bf759ab659ee012dc25eb19d72c52a06e98f604ca314fbd738a44b67883fd0fc13d9361af542ad816ef21d31de6986aa456689a54afd123ed14da28e61d63915fa30dff31cab4468871bf4d837806f43acca2509e651be927de10e22cd7a95b9569c735fb007e8c42bb758749b2cc3ef00;
  0x8e7e7383699994645dada050ba4a47b735c5c838d2222fdfe6161beb01f1fc0ce51518e802f2ff0f36c6cb3bd1212cdc5eaea353b94944b48d7d70806a9a976758a8a555bf4f42b28b7b76866c9c9161e3131eee04f4f90930c0cd3dd7272ada33c3ce3ed42429d9e0101ded07f7fa0a887875856f9f92625baba656bc4c41b13fcfc232d82825d5ec1c11e10bfbf6068474798963939e6e57a7aa5ab0404dbd54a4a959b3434ebe87777a8a60909d6def1f12e208f8f5053cccc131db2b26d6e91914e40efef3033acac737dd2d20d052a2af5fb54548b881717c8c66969b6b82727f8f6595986851a1ac5cb6464bbb39c9c434de2e23d3ea1a17e70dfdf000;
  0x71808e7f92636d9caa5b55a449b8b647da2b25d439c8c63701f0fe0fe2131dec3acbc534d92826d7e1101eef02f3fd0c91606e9f72838d7c4abbb544a95856a7e71618e904f5fb0a3ccdc332df2e20d14cbdb342af5e50a19766689974858b7aac5d53a24fbeb0417786887994656b9a07f6f809e4151beadc2d23d23fcec03140b1bf4ea3525cad9b6a649578898776eb1a14e508f9f70630c1cf3ed3222cdd0bfaf405e81917e6d0212fde33c2cc3da0515fae43b2bc4d7b8a847598696796d62729d835c4ca3b0dfcf203ee1f11e07d8c82739e6f6190a65759a845b4ba4b9d6c62937e8f817046b7b948a5545aab36c7c938d5242adbed1c12e30efff100;
  0x6d9f946682707b89ae5c57a541b3b84af6040ffd19ebe01235c7cc3eda2823d146b4bf4da95b50a285777c8e6a989361dd2f24d632c0cb391eece715f10308fa3bc9c230d4262ddff80a01f317e5ee1ca05259ab4fbdb64463919a688c7e758710e2e91bff0d06f4d3212ad83ccec5378b79728064969d6f48bab143a7555eacc13338ca2edcd72502f0fb09ed1f14e65aa8a351b5474cbe996b609276848f7dea1813e105f7fc0e29dbd022c6343fcd7183887a9e6c6795b2404bb95dafa45697656e9c788a817354a6ad5fbb4942b00cfef507e3111ae8cf3d36c420d2d92bbc4e45b753a1aa587f8d86749062699b27d5de2cc83a31c3e4161def0bf9f200;
  0x9261699a798a827159aaa251b24149ba19eae211f20109fad22129da39cac231996a62917281897a52a1a95ab94a42b112e1e91af90a02f1d92a22d132c1c93a84777f8c6f9c94674fbcb447a4575fac0ffcf407e4171fecc4373fcc2fdcd4278f7c748764979f6c44b7bf4caf5c54a704f7ff0cef1c14e7cf3c34c724d7df2cbe4d45b655a6ae5d75868e7d9e6d659635c6ce3dde2d25d6fe0d05f615e6ee1db5464ebd5eada5567e8d857695666e9d3ecdc536d5262eddf5060efd1eede516a85b53a043b0b84b6390986b887b738023d0d82bc83b33c0e81b13e003f0f80ba35058ab48bbb340689b93608370788b28dbd320c33038cbe31018eb08fbf300;
  0x55a1a054a25657a3a65253a751a5a450ae5a5baf59adac585da9a85caa5e5fabbe4a4bbf49bdbc484db9b84cba4e4fbb45b1b044b24647b3b64243b741b5b4409e6a6b9f699d9c686d99986c9a6e6f9b65919064926667939662639761959460758180748276778386727387718584708e7a7b8f798d8c787d89887c8a7e7f8bde2a2bdf29dddc282dd9d82cda2e2fdb25d1d024d22627d3d62223d721d5d42035c1c034c23637c3c63233c731c5c430ce3a3bcf39cdcc383dc9c83cca3e3fcb15e1e014e21617e3e61213e711e5e410ee1a1bef19edec181de9e81cea1e1febfe0a0bff09fdfc080df9f80cfa0e0ffb05f1f004f20607f3f60203f701f5f400;
  0xaa5f5da859acae5b51a4a653a25755a041b4b643b24745b0ba4f4db849bcbe4b61949663926765909a6f6d98699c9e6b8a7f7d88798c8e7b718486738277758021d4d623d22725d0da2f2dd829dcde2bca3f3dc839ccce3b31c4c633c23735c0ea1f1de819ecee1b11e4e613e21715e001f4f603f20705f0fa0f0df809fcfe0ba15456a352a7a5505aafad58a95c5eab4abfbd48b94c4ebbb14446b342b7b5406a9f9d68996c6e9b916466936297956081747683728785707a8f8d78897c7e8b2adfdd28d92c2edbd12426d322d7d520c13436c332c7c5303acfcd38c93c3ecbe11416e312e7e5101aefed18e91c1eeb0afffd08f90c0efbf10406f302f7f500;
  0xb64047b149bfb84e55a3a452aa5c5bad6d9b9c6a926463958e787f89718780761debec1ae21413e5fe080ff901f7f006c63037c139cfc83e25d3d422da2c2bddfd0b0cfa02f4f3051ee8ef19e11710e626d0d721d92f28dec53334c23acccb3d56a0a751a95f58aeb54344b24abcbb4d8d7b7c8a728483756e989f699167609620d6d127df292ed8c33532c43ccacd3bfb0d0afc04f2f50318eee91fe71116e08b7d7a8c74828573689e996f9761669050a6a157af595ea8b34542b44cbabd4b6b9d9a6c94626593887e798f77818670b04641b74fb9be4853a5a254ac5a5dabc03631c73fc9ce3823d5d224dc2a2ddb1bedea1ce41215e3f80e09ff07f1f600;
  0x49beba4db24541b6a25551a659aeaa5d82757186798e8a7d699e9a6d92656196c23531c639ceca3d29deda2dd22521d609fefa0df20501f6e21511e619eeea1d42b5b146b94e4abda95e5aad52a5a156897e7a8d7285817662959166996e6a9dc93e3acd32c5c13622d5d126d92e2add02f5f106f90e0afde91e1aed12e5e1165fa8ac5ba45357a0b44347b04fb8bc4b946367906f989c6b7f888c7b84737780d42327d02fd8dc2b3fc8cc3bc43337c01fe8ec1be41317e0f40307f00ff8fc0b54a3a750af585cabbf484cbb44b3b7409f686c9b64939760748387708f787c8bdf282cdb24d3d72034c3c730cf383ccb14e3e710ef181cebff080cfb04f3f700;
  0x25ddc830e21a0ff7b64e5ba371899c641ee6f30bd92134cc8d7560984ab2a75f53abbe46946c7981c0382dd507ffea126890857daf5742bafb0316ee3cc4d129c93124dc0ef6e31b5aa2b74f9d657088f20a1fe735cdd82061998c74a65e4bb3bf4752aa7880956d2cd4c139eb1306fe847c699143bbae5617effa02d0283dc5e0180df527dfca32738b9e66b44c59a1db2336ce1ce4f10948b0a55d8f77629a966e7b8351a9bc4405fde810c23a2fd7ad5540b86a92877f3ec6d32bf90114ec0cf4e119cb3326de9f67728a58a0b54d37cfda22f0081de5a45c49b1639b8e767a82976fbd4550a8e91104fc2ed6c33b41b9ac54867e6b93d22a3fc715edf800;
  0xda2335cc19e0f60f41b8ae57827b6d94f1081ee732cbdd246a93857ca95046bf8c75639a4fb6a05917eef801d42d3bc2a75e48b1649d8b723cc5d32aff0610e9768f9960b54c5aa3ed1402fb2ed7c1385da4b24b9e677188c63f29d005fcea1320d9cf36e31a0cf5bb4254ad7881976e0bf2e41dc83127de90697f8653aabc459f6670895ca5b34a04fdeb12c73e28d1b44d5ba2778e98612fd6c039ec1503fac93026df0af3e51c52abbd4491687e87e21b0df421d8ce377980966fba4355ac33cadc25f0091fe6a85147be6b92847d18e1f70edb2234cd837a6c9540b9af56659c8a73a65f49b0fe0711e83dc4d22b4eb7a1588d74629bd52c3ac316eff900;
  0xc63c2fd509f3e01a45bfac568a706399dd2734ce12e8fb015ea4b74d916b7882f00a19e33fc5d62c73899a60bc4655afeb1102f824decd376892817ba75d4eb4aa5043b9659f8c7629d3c03ae61c0ff5b14b58a27e84976d32c8db21fd0714ee9c66758f53a9ba401fe5f60cd02a39c3877d6e9448b2a15b04feed17cb3122d81ee4f70dd12b38c29d67748e52a8bb4105ffec16ca3023d9867c6f9549b3a05a28d2c13be71d0ef4ab5142b8649e8d7733c9da20fc0615efb04a59a37f85966c72889b61bd4754aef10b18e23ec4d72d6993807aa65c4fb5ea1003f925dfcc3644bead578b716298c73d2ed408f2e11b5fa5b64c906a7983dc2635cf13e9fa00;
  0x39c2d229f20919e2b24959a27982926932c9d922f90212e9b94252a9728999622fd4c43fe41f0ff4a45f4fb46f94847f24dfcf34ef1404ffaf5444bf649f8f7415eefe05de2535ce9e65758e55aebe451ee5f50ed52e3ec5956e7e855ea5b54e03f8e813c83323d88873639843b8a85308f3e318c33828d38378689348b3a358619a8a71aa5141baea1101fa21daca316a91817aa15a4ab1e11a0af12ad1c13a778c9c67bc4757acfc0717ec37ccdc277c87976cb74c5ca7f70c1ce73cc7d72c4db6a65d867d6d96c63d2dd60df6e61d46bdad568d76669dcd3626dd06fded165ba0b04b906b7b80d02b3bc01be0f00b50abbb409b60708bdb2030cb10ebfb00;
  0xfe021be729d5cc304db1a8549a667f838579609c52aeb74b36cad32fe11d04f808f4ed11df233ac6bb475ea26c908975738f966aa45841bdc03c25d917ebf20e0ff3ea16d8243dc1bc4059a56b978e727488916da35f46bac73b22de10ecf509f9051ce02ed2cb374ab6af539d617884827e679b55a9b04c31cdd428e61a03ff01fde418d62a33cfb24e57ab6599807c7a869f63ad5148b4c9352cd01ee2fb07f70b12ee20dcc53944b8a15d936f768a8c7069955ba7be423fc3da26e8140df1f00c15e927dbc23e43bfa65a9468718d8b776e925ca0b94538c4dd21ef130af606fae31fd12d34c8b54950ac629e877b7d819864aa564fb3ce322bd719e5fc00;
  0x01fce61bd22f35c8ba475da069948e736a978d70b9445ea3d12c36cb02ffe518d72a30cd04f9e31e6c918b76bf4258a5bc415ba66f92887507fae01dd42933ceb04d57aa639e84790bf6ec11d8253fc2db263cc108f5ef12609d877ab34e54a9669b817cb54852afdd203ac70ef3e9140df0ea17de2339c4b64b51ac6598827f7e839964ad504ab7c53822df16ebf10c15e8f20fc63b21dcae5349b47d809a67a8554fb27b869c6113eef409c03d27dac33e24d910edf70a78859f62ab564cb1cf3228d51ce1fb067489936ea75a40bda45943be778a906d1fe2f805cc312bd619e4fe03ca372dd0a25f45b8718c966b728f9568a15c46bbc9342ed31ae7fd00;
  0x1de3fc02c23c23ddbe405fa1619f807e46b8a75999677886e51b04fa3ac4db25ab554ab4748a956b08f6e917d72936c8f00e11ef2fd1ce3053adb24c8c726d936c928d73b34d52accf312ed010eef10f37c9d628e81609f7946a758b4bb5aa54da243bc505fbe41a79879866a65847b9817f609e5ea0bf4122dcc33dfd031ce2ff011ee020dec13f5ca2bd43837d629ca45a45bb7b859a6407f9e618d82639c749b7a85696687789ea140bf535cbd42a12ecf30dcd332cd2b14f50ae6e908f718e706f9151afb04e2dd3cc32f20c13edd52b34ca0af4eb1576889769a95748b638c6d927e71906f89b657a8444baa55b639d827cbc425da3c03e21df1fe1fe00;
  0xe21d01fe39c6da2549b6aa55926d718ea9564ab5728d916e02fde11ed9263ac5748b9768af504cb3df203cc304fbe7183fc0dc23e41b07f8946b77884fb0ac53d32c30cf08f7eb1478879b64a35c40bf98677b8443bca05f33ccd02fe8170bf445baa6599e617d82ee110df235cad6290ef1ed12d52a36c9a55a46b97e819d62807f639c5ba4b8472bd4c837f00f13eccb3428d710eff30c609f837cbb4458a716e9f50acd322ed1bd425ea16699857a5da2be418679659af60915ea2dd2ce31b14e52ad6a9589761ae5f906c13e22ddfa0519e621dec23d51aeb24d8a75699627d8c43bfc031fe08c736f9057a8b44b6c938f70b74854abc73824db1ce3ff00]%Z : list Z).

Definition entry (row : bytes) (b : byte) : byte := nth (Z.to_nat (bz b)) row Byte.x00.

Definition gfMul (a b : byte) : byte := entry (nth (Z.to_nat (bz a)) mulTable []) b.
Definition gfInv (a : byte) : byte := entry inverseTable a.

(** The exclusive or of bytes. *)
Definition gfAdd (a b : byte) : byte := zb (Z.lxor (bz a) (bz b)).

Lemma gfInv_entry a : entry inverseTable a = gfInv a.
Proof. done. Qed.

Lemma gfAdd_lxor x y : (0 <= x < 256)%Z -> (0 <= y < 256)%Z -> zb (Z.lxor x y) = gfAdd (zb x) (zb y).
Proof. intros Hx Hy. unfold gfAdd. by rewrite !bz_zb, !Z.mod_small. Qed.

(** ** All bytes *)
Definition all_bytes : list byte := zb <$> seqZ 0 256.

Lemma all_bytes_in b : In b all_bytes.
Proof.
  rewrite <- (zb_bz b). unfold all_bytes. apply list_elem_of_In, list_elem_of_fmap. exists (bz b). split; [done|].
  apply elem_of_seqZ. pose proof (bz_range b). lia.
Qed.

(** What holds of all bytes, or pairs of bytes, can be computed. *)
Lemma check_bytes (P : byte -> bool) : forallb P all_bytes = true -> forall a, P a = true.
Proof. intros H a. rewrite forallb_forall in H. apply H, all_bytes_in. Qed.

Lemma check_pairs (P : byte -> byte -> bool) :
  forallb (fun a => forallb (P a) all_bytes) all_bytes = true -> forall a b, P a b = true.
Proof. intros H a. apply check_bytes. by apply (check_bytes _ H a). Qed.

(** ** Addition *)
Lemma bz_gfAdd a b : bz (gfAdd a b) = Z.lxor (bz a) (bz b).
Proof.
  revert a b. enough (H : forall a b, (bz (gfAdd a b) =? Z.lxor (bz a) (bz b))%Z = true) by (intros a b; by apply Z.eqb_eq).
  apply check_pairs. vm_compute. reflexivity.
Qed.

Lemma bz_inj a b : bz a = bz b -> a = b.
Proof. intros H. by rewrite <- (zb_bz a), H, zb_bz. Qed.

Lemma gfAdd_comm a b : gfAdd a b = gfAdd b a.
Proof. apply bz_inj. rewrite !bz_gfAdd. apply Z.lxor_comm. Qed.

Lemma gfAdd_assoc a b c : gfAdd a (gfAdd b c) = gfAdd (gfAdd a b) c.
Proof. apply bz_inj. rewrite !bz_gfAdd. symmetry. apply Z.lxor_assoc. Qed.

Lemma gfAdd_0 a : gfAdd Byte.x00 a = a.
Proof. apply bz_inj. rewrite bz_gfAdd. apply Z.lxor_0_l. Qed.

Lemma gfAdd_self a : gfAdd a a = Byte.x00.
Proof. apply bz_inj. rewrite bz_gfAdd. apply Z.lxor_nilpotent. Qed.

(** ** Products of polynomials *)

(** The product with [x], and with the polynomial of the lowest [n] bits of [b]. *)
Definition xtime (a : byte) : byte :=
  let s := Z.shiftl (bz a) 1 in zb (if (256 <=? s)%Z then Z.lxor s 0x11d else s).

Fixpoint product (n : nat) (a : byte) (b : Z) : byte :=
  match n with
  | O => Byte.x00
  | S n => let r := product n (xtime a) (Z.shiftr b 1) in if Z.odd b then gfAdd a r else r
  end.

(** All products of [a], in the order of the other factor. *)
Fixpoint products (n : nat) (a : byte) : bytes :=
  match n with O => [Byte.x00] | S n => concat ((fun r => [r; gfAdd a r]) <$> products n (xtime a)) end.

Lemma pairs_lookup {A} (f g : A -> A) (l : list A) i :
  concat ((fun r => [f r; g r]) <$> l) !! i = (if Nat.odd i then g else f) <$> (l !! Nat.div2 i).
Proof.
  revert i; induction l as [|x l IH]; intros i; [by destruct (Nat.odd i)|].
  destruct i as [|[|i]]; [done|done|]. cbn [fmap list_fmap concat app lookup list_lookup Nat.div2]. rewrite IH.
  by rewrite Nat.odd_succ, Nat.even_succ.
Qed.

Lemma products_lookup n a b : (0 <= b < 2 ^ Z.of_nat n)%Z -> products n a !! Z.to_nat b = Some (product n a b).
Proof.
  revert a b; induction n as [|n IH]; intros a b Hb.
  { assert (b = 0%Z) as -> by (cbn in Hb; lia). done. }
  cbn [products product]. rewrite (pairs_lookup (fun r => r) (gfAdd a)).
  assert (Hdiv : Nat.div2 (Z.to_nat b) = Z.to_nat (Z.shiftr b 1)).
  { rewrite Nat.div2_div, Z.shiftr_div_pow2, Z2Nat.inj_div by lia. done. }
  rewrite Hdiv, IH. 2: { rewrite Z.shiftr_div_pow2 by lia. rewrite Nat2Z.inj_succ, Z.pow_succ_r in Hb by lia.
    split; [apply Z.div_pos; lia|apply Z.div_lt_upper_bound; lia]. }
  assert (Nat.odd (Z.to_nat b) = Z.odd b) as ->.
  { rewrite <- (Z2Nat.id b) at 2 by lia. generalize (Z.to_nat b). intros m. induction m as [|m IHm]; [done|].
    by rewrite Nat2Z.inj_succ, Nat.odd_succ, Z.odd_succ, <- Nat.negb_odd, <- Z.negb_odd, IHm. }
  by destruct (Z.odd b).
Qed.

Lemma gfMul_product a b : gfMul a b = product 8 a (bz b).
Proof.
  assert (H : forall a, bool_decide (nth (Z.to_nat (bz a)) mulTable [] = products 8 a) = true).
  { apply check_bytes. vm_compute. reflexivity. }
  specialize (H a). apply bool_decide_eq_true in H. unfold gfMul, entry. rewrite H.
  apply nth_lookup_Some, products_lookup. apply bz_range.
Qed.

Lemma product_add n a x y : product n a (Z.lxor x y) = gfAdd (product n a x) (product n a y).
Proof.
  revert a x y; induction n as [|n IH]; intros a x y; cbn [product]; [by rewrite gfAdd_self|].
  rewrite Z.shiftr_lxor, IH, <- !Z.bit0_odd, Z.lxor_spec.
  set (p := product n (xtime a) (Z.shiftr x 1)). set (q := product n (xtime a) (Z.shiftr y 1)).
  assert (Hswap : forall u v w, gfAdd u (gfAdd v w) = gfAdd v (gfAdd u w)) by (intros u v w; by rewrite !gfAdd_assoc, (gfAdd_comm u v)).
  destruct (Z.testbit x 0), (Z.testbit y 0); cbn [xorb].
  - by rewrite <- gfAdd_assoc, (Hswap p), gfAdd_assoc, gfAdd_self, gfAdd_0.
  - by rewrite gfAdd_assoc.
  - apply Hswap.
  - done.
Qed.

Lemma gfMul_add_r a b c : gfMul a (gfAdd b c) = gfAdd (gfMul a b) (gfMul a c).
Proof. rewrite !gfMul_product, bz_gfAdd. apply product_add. Qed.


(** ** Logarithms *)

(** The powers of [x], which generates all elements but zero. *)
Fixpoint powers (n : nat) (a : byte) : bytes := match n with O => [] | S n => a :: powers n (xtime a) end.
Definition expTable : bytes := powers 255 Byte.x01.

Fixpoint index_of (b : byte) (l : bytes) : nat :=
  match l with [] => 0 | a :: l => if Byte.eqb a b then 0 else S (index_of b l) end.
Definition logTable : list nat := (fun b => index_of b expTable) <$> all_bytes.

Definition gfExp (n : nat) : byte := nth (n mod 255) expTable Byte.x00.
Definition gfLog (a : byte) : nat := nth (Z.to_nat (bz a)) logTable 0.

Definition zero (a : byte) : bool := Byte.eqb a Byte.x00.

Lemma zero_spec a : zero a = true <-> a = Byte.x00.
Proof. split; [apply Byte.byte_dec_bl|by intros ->]. Qed.

Lemma gfMul_log a b : gfMul a b = if zero a || zero b then Byte.x00 else gfExp (gfLog a + gfLog b).
Proof.
  revert a b. enough (H : forall a b, Byte.eqb (gfMul a b) (if zero a || zero b then Byte.x00 else gfExp (gfLog a + gfLog b)) = true)
    by (intros a b; specialize (H a b); by apply Byte.byte_dec_bl in H).
  apply check_pairs. vm_compute. reflexivity.
Qed.

Lemma log_exp n : gfLog (gfExp n) = n mod 255 /\ zero (gfExp n) = false.
Proof.
  unfold gfExp. pose proof (Nat.mod_upper_bound n 255 ltac:(done)) as Hn. revert Hn. generalize (n mod 255). clear n. intros n Hn.
  assert (H : forallb (fun n => (gfLog (nth n expTable Byte.x00) =? n) && negb (zero (nth n expTable Byte.x00))) (seq 0 255) = true)
    by (vm_compute; reflexivity).
  rewrite forallb_forall in H. specialize (H n ltac:(apply in_seq; lia)). apply andb_true_iff in H as [H1 H2].
  split; [by apply Nat.eqb_eq|by apply negb_true_iff].
Qed.

Lemma gfMul_comm a b : gfMul a b = gfMul b a.
Proof. rewrite !gfMul_log, orb_comm. by rewrite Nat.add_comm. Qed.

Lemma gfMul_0 a : gfMul Byte.x00 a = Byte.x00.
Proof. by rewrite gfMul_log. Qed.

Lemma gfMul_0_r a : gfMul a Byte.x00 = Byte.x00.
Proof. by rewrite gfMul_comm, gfMul_0. Qed.

Lemma gfMul_nonzero a b : zero a = false -> zero b = false -> zero (gfMul a b) = false /\ gfLog (gfMul a b) = (gfLog a + gfLog b) mod 255.
Proof. intros Ha Hb. rewrite gfMul_log, Ha, Hb. cbn [orb]. split; apply log_exp. Qed.

Lemma gfMul_assoc a b c : gfMul a (gfMul b c) = gfMul (gfMul a b) c.
Proof.
  destruct (zero a) eqn:Ha; [apply zero_spec in Ha as ->; by rewrite !gfMul_0|].
  destruct (zero b) eqn:Hb; [apply zero_spec in Hb as ->; by rewrite gfMul_0_r, !gfMul_0, gfMul_0_r|].
  destruct (zero c) eqn:Hc; [apply zero_spec in Hc as ->; by rewrite !gfMul_0_r|].
  destruct (gfMul_nonzero a b Ha Hb) as [Hab Lab], (gfMul_nonzero b c Hb Hc) as [Hbc Lbc].
  rewrite (gfMul_log a (gfMul b c)), (gfMul_log (gfMul a b) c), Ha, Hab, Hbc, Hc, Lab, Lbc. cbn [orb]. unfold gfExp. f_equal.
  rewrite Nat.Div0.add_mod_idemp_r, Nat.Div0.add_mod_idemp_l. f_equal. lia.
Qed.

Lemma gfMul_1 a : gfMul Byte.x01 a = a.
Proof.
  revert a. enough (H : forall a, Byte.eqb (gfMul Byte.x01 a) a = true) by (intros a; specialize (H a); by apply Byte.byte_dec_bl in H).
  apply check_bytes. vm_compute. reflexivity.
Qed.

Lemma gfInv_l a : a <> Byte.x00 -> gfMul (gfInv a) a = Byte.x01.
Proof.
  revert a. enough (H : forall a, (zero a || Byte.eqb (gfMul (gfInv a) a) Byte.x01) = true).
  { intros a Ha. specialize (H a). apply orb_true_iff in H as [H|H]; [by apply zero_spec in H|by apply Byte.byte_dec_bl in H]. }
  apply check_bytes. vm_compute. reflexivity.
Qed.

(** ** The field *)
Definition gfSub := gfAdd.
Definition gfOpp (a : byte) : byte := a.
Definition gfDiv (a b : byte) : byte := gfMul a (gfInv b).

Lemma gf_field : field_theory Byte.x00 Byte.x01 gfAdd gfMul gfSub gfOpp gfDiv gfInv (@eq byte).
Proof.
  constructor; [constructor| | |].
  - apply gfAdd_0.
  - apply gfAdd_comm.
  - apply gfAdd_assoc.
  - apply gfMul_1.
  - apply gfMul_comm.
  - apply gfMul_assoc.
  - intros a b c. rewrite gfMul_comm, gfMul_add_r, (gfMul_comm c a), (gfMul_comm c b). done.
  - done.
  - apply gfAdd_self.
  - done.
  - done.
  - apply gfInv_l.
Qed.

(** From here on only the laws are used. *)
#[global] Opaque gfMul gfAdd gfInv.

Add Field gf : gf_field.
End GF.
