(* ===== verification/ErasureProps.v ===== *)
(** * Correctness of the erasure code

    Vectors over the field of [GaloisField] are lists of bytes.  A Cauchy matrix
    has no kernel, hence any rows of the generator that are as many as there are
    data rows have none; elimination inverts a matrix without kernel; encoding
    and reconstruction are products with matrices. *)

From S2P Require Import Prelude Encoding GaloisField Distributed ErasureCoding.
From Stdlib Require Import Field.
Import GF RS.
Open Scope nat_scope.

Declare Scope gf_scope.
Infix "⊕" := gfAdd (at level 50, left associativity) : gf_scope.
Infix "⊗" := gfMul (at level 40, left associativity) : gf_scope.
Open Scope gf_scope.

(** ** Vectors *)
Fixpoint dot (u v : bytes) : byte :=
  match u, v with a :: u, b :: v => a ⊗ b ⊕ dot u v | _, _ => Byte.x00 end.

Definition elt (v : bytes) (i : nat) : byte := nth i v Byte.x00.
Abbreviation zeros := Encoding.Encoding.zeros.
Definition unit_vec (n i : nat) : bytes := <[i := Byte.x01]> (zeros n).

Lemma zeros_cons n : zeros (S n) = Byte.x00 :: zeros n.
Proof. done. Qed.

Lemma elt_zeros n i : elt (zeros n) i = Byte.x00.
Proof. revert i; induction n as [|n IH]; intros [|i]; [done..|]. apply IH. Qed.

Lemma elt_insert_eq v i z : i < length v -> elt (<[i := z]> v) i = z.
Proof. intros Hi. unfold elt. apply nth_lookup_Some. by apply list_lookup_insert_eq. Qed.

Lemma elt_insert_ne v i j z : i <> j -> elt (<[i := z]> v) j = elt v j.
Proof. intros Hi. unfold elt. rewrite !nth_lookup. by rewrite list_lookup_insert_ne. Qed.

Lemma vec_eq (u v : bytes) : length u = length v -> (forall i, i < length u -> elt u i = elt v i) -> u = v.
Proof. intros Hl He. apply (nth_ext _ _ Byte.x00 Byte.x00); [done|]. intros i Hi. by apply He. Qed.

Lemma dot_nil_r u : dot u [] = Byte.x00.
Proof. by destruct u. Qed.

Lemma dot_scale c u x : dot ((fun a => a ⊗ c) <$> u) x = dot u x ⊗ c.
Proof. revert x; induction u as [|a u IH]; intros [|b x]; cbn; [ring..|]. cbn in IH. rewrite IH. ring. Qed.

(** Adding a multiple of a row. *)
Lemma dot_add c u v x : length u = length v -> dot (zip_with (fun a b => a ⊕ c ⊗ b) u v) x = dot u x ⊕ c ⊗ dot v x.
Proof.
  revert v x; induction u as [|a u IH]; intros [|b v] [|y x] Hl; cbn; try done; [ring..|]. rewrite IH by (cbn in Hl; lia). ring.
Qed.

Lemma dot_zero u x : (forall i, i < length u -> elt u i = Byte.x00 \/ elt x i = Byte.x00) -> dot u x = Byte.x00.
Proof.
  revert x; induction u as [|a u IH]; intros [|b x] Hz; cbn; [done..|]. rewrite IH.
  - destruct (Hz 0) as [H|H]; [cbn; lia|cbn in H; subst; ring..].
  - intros i Hi. apply (Hz (S i)). cbn. lia.
Qed.

Lemma dot_insert u x k z : k < length x -> length u = length x -> dot u (<[k := z]> x) = dot u x ⊕ elt u k ⊗ (z ⊕ elt x k).
Proof.
  revert x k; induction u as [|a u IH]; intros [|b x] k Hk Hl; cbn in *; [lia..|]. destruct k as [|k]; cbn.
  - transitivity (a ⊗ b ⊕ dot u x ⊕ (a ⊗ z ⊕ a ⊗ b)); [|ring].
    transitivity (a ⊗ z ⊕ dot u x ⊕ (a ⊗ b ⊕ a ⊗ b)); [|ring]. rewrite gfAdd_self. ring.
  - rewrite IH by lia. unfold elt. ring.
Qed.

Lemma dot_unit n i x : i < n -> length x = n -> dot (unit_vec n i) x = elt x i.
Proof.
  revert i x; induction n as [|n IH]; intros i [|b x] Hi Hl; cbn in Hl; [lia..|]. unfold unit_vec. rewrite zeros_cons.
  destruct i as [|i]; cbn [insert list_insert dot elt nth].
  - rewrite dot_zero; [ring|]. intros i Hi'. left. apply elt_zeros.
  - change (<[i := Byte.x01]> (zeros n)) with (unit_vec n i). rewrite IH by lia. unfold elt. ring.
Qed.

Lemma length_unit n i : length (unit_vec n i) = n.
Proof. unfold unit_vec. rewrite length_insert. apply length_replicate. Qed.

(** ** Elimination *)
Definition apply (M : matrix) (x : bytes) : bytes := (fun r => dot r x) <$> M.

(** The augmented matrix of the elimination: the left half of a row, applied to
    a vector, is the right half applied to the product of [M] with it; and the
    left halves have no kernel. *)
Record augmented (n : nat) (M m : matrix) : Prop := {
  aug_rows : length m = n;
  aug_width : forall i, i < n -> length (row m i) = n + n;
  aug_sem : forall i x, i < n -> length x = n -> dot (take n (row m i)) x = dot (drop n (row m i)) (apply M x);
  aug_kernel : forall x, length x = n -> (forall i, i < n -> dot (take n (row m i)) x = Byte.x00) -> x = zeros n;
}.

Lemma row_insert_eq m i r : i < length m -> row (<[i := r]> m) i = r.
Proof. intros Hi. unfold row. apply nth_lookup_Some. by apply list_lookup_insert_eq. Qed.

Lemma row_insert_ne m i j r : i <> j -> row (<[i := r]> m) j = row m j.
Proof. intros Hi. unfold row. rewrite !nth_lookup. by rewrite list_lookup_insert_ne. Qed.

(** A row is replaced by a combination from which it can be regained. *)
Lemma augmented_insert n M m i r :
  augmented n M m -> i < n -> length r = n + n ->
  (forall x, length x = n -> dot (take n r) x = dot (drop n r) (apply M x)) ->
  (forall x, length x = n -> (forall j, j < n -> j <> i -> dot (take n (row m j)) x = Byte.x00) ->
     dot (take n r) x = Byte.x00 -> dot (take n (row m i)) x = Byte.x00) ->
  augmented n M (<[i := r]> m).
Proof.
  intros [Hr Hw Hs Hk] Hi Hlr Hsr Hback. split.
  - by rewrite length_insert.
  - intros j Hj. destruct (decide (i = j)) as [<-|]; [by rewrite row_insert_eq by lia|rewrite row_insert_ne by done; auto].
  - intros j x Hj Hx. destruct (decide (i = j)) as [<-|]; [rewrite row_insert_eq by lia; auto|rewrite row_insert_ne by done; auto].
  - intros x Hx Hz. assert (Hj : forall j, j < n -> j <> i -> dot (take n (row m j)) x = Byte.x00).
    { intros j Hj Hne. specialize (Hz j Hj). by rewrite row_insert_ne in Hz by done. }
    apply Hk; [done|]. intros j Hjn. destruct (decide (j = i)) as [->|]; [|by apply Hj].
    apply Hback; [done|done|]. specialize (Hz i Hi). by rewrite row_insert_eq in Hz by lia.
Qed.

Lemma augmented_clear n M m r i : augmented n M m -> r < n -> i < n -> r <> i -> augmented n M (clear r m i).
Proof.
  intros Ha Hr Hi Hne. unfold clear. destruct (zero (cell m i r)); [done|]. set (c := cell m i r).
  pose proof (aug_width _ _ _ Ha i Hi) as Hwi. pose proof (aug_width _ _ _ Ha r Hr) as Hwr.
  assert (Hx : forall x, dot (take n (zip_with (fun x y => x ⊕ c ⊗ y) (row m i) (row m r))) x = dot (take n (row m i)) x ⊕ c ⊗ dot (take n (row m r)) x).
  { intros x. rewrite zip_with_take. apply dot_add. rewrite !length_take. lia. }
  apply augmented_insert; [done|done|rewrite length_zip_with; lia| |].
  - intros x Hl. rewrite Hx, zip_with_drop, dot_add by (rewrite !length_drop; lia). by rewrite !(aug_sem _ _ _ Ha) by done.
  - intros x Hl Hz H0. rewrite Hx, (Hz r) in H0 by done. rewrite <- H0. ring.
Qed.

Lemma augmented_normalize n M m r : augmented n M m -> r < n -> zero (cell m r r) = false -> augmented n M (normalize m r).
Proof.
  intros Ha Hr Hz. unfold normalize. destruct (Byte.eqb _ _); [done|]. set (c := gfInv (cell m r r)).
  assert (Hc : cell m r r <> Byte.x00) by (intros E; apply zero_spec in E; congruence).
  apply augmented_insert; [done|done|rewrite length_fmap; by apply (aug_width _ _ _ Ha)| |].
  - intros x Hl. rewrite <- fmap_take, <- fmap_drop, !dot_scale. by rewrite (aug_sem _ _ _ Ha) by done.
  - intros x Hl _ H0. rewrite <- fmap_take, dot_scale in H0.
    transitivity (dot (take n (row m r)) x ⊗ c ⊗ cell m r r); [unfold c; field; done|]. rewrite H0. ring.
Qed.

Lemma augmented_swap n M m r i : augmented n M m -> r < n -> i < n -> augmented n M (swapRows m r i).
Proof.
  intros Ha Hr Hi. pose proof Ha as [Hl Hw Hs Hk]. unfold swapRows.
  assert (Hrow : forall j, j < n -> row (<[r := row m i]> (<[i := row m r]> m)) j = row m (if decide (j = r) then i else if decide (j = i) then r else j)).
  { intros j Hj. destruct (decide (j = r)) as [->|]; [by rewrite row_insert_eq by (rewrite length_insert; lia)|].
    rewrite row_insert_ne by done. destruct (decide (j = i)) as [->|]; [by rewrite row_insert_eq by lia|by rewrite row_insert_ne by done]. }
  assert (Hlt : forall j, j < n -> (if decide (j = r) then i else if decide (j = i) then r else j) < n) by (intros j Hj; by repeat case_decide).
  split.
  - by rewrite !length_insert.
  - intros j Hj. rewrite Hrow by done. auto.
  - intros j x Hj Hx. rewrite Hrow by done. auto.
  - intros x Hx Hz. apply Hk; [done|]. intros j Hj. specialize (Hz _ (Hlt j Hj)). rewrite Hrow in Hz by auto.
    repeat case_decide; congruence.
Qed.

(** *** Entries *)
Lemma cell_clear r m i k c :
  i < length m -> length (row m i) = length (row m r) ->
  cell (clear r m i) k c = if decide (k = i) then cell m i c ⊕ cell m i r ⊗ cell m r c else cell m k c.
Proof.
  intros Hi Hw. unfold clear. destruct (zero (cell m i r)) eqn:Hz.
  - apply zero_spec in Hz. rewrite Hz. case_decide; [subst; ring|done].
  - unfold cell at 1. case_decide as Hk; [subst k; rewrite row_insert_eq by done|rewrite row_insert_ne by done; done].
    unfold cell. set (s := nth r (row m i) Byte.x00). clearbody s. revert Hw c. generalize (row m i) (row m r). clear.
    intros u v Hw c. revert v c Hw. induction u as [|a u IH]; intros [|b v] [|c] Hw; cbn; try done; [ring..|]. apply IH. by injection Hw.
Qed.

Lemma length_clear r m i : length (clear r m i) = length m.
Proof. unfold clear. destruct (zero _); [done|apply length_insert]. Qed.

Lemma augmented_clears n M r l : forall m, augmented n M m -> r < n -> Forall (fun i => i < n /\ r <> i) l -> augmented n M (foldl (clear r) m l).
Proof.
  induction l as [|i l IH]; intros m Ha Hr Hl; [done|]. apply Forall_cons in Hl as [[Hi Hne] Hl]. cbn [foldl]. apply IH; [|done|done].
  by apply augmented_clear.
Qed.

Lemma cell_clears n M r l : forall m k c, augmented n M m -> r < n -> NoDup l -> Forall (fun i => i < n /\ r <> i) l ->
  cell (foldl (clear r) m l) k c = if decide (k ∈ l) then cell m k c ⊕ cell m k r ⊗ cell m r c else cell m k c.
Proof.
  induction l as [|i l IH]; intros m k c Ha Hr Hnd Hl.
  { rewrite decide_False; [done|apply not_elem_of_nil]. }
  apply NoDup_cons in Hnd as [Hi Hnd]. apply Forall_cons in Hl as [[Hin Hne] Hl]. cbn [foldl].
  pose proof Ha as [Hlen Hw _ _].
  assert (Hcell : forall k c, cell (clear r m i) k c = if decide (k = i) then cell m i c ⊕ cell m i r ⊗ cell m r c else cell m k c)
    by (intros; apply cell_clear; [lia|by rewrite !Hw]).
  rewrite IH by (done || by apply augmented_clear). rewrite !Hcell.
  rewrite (decide_False (P := r = i)) by done. destruct (decide (k = i)) as [->|Hk].
  - rewrite decide_False by done. rewrite decide_True by apply list_elem_of_here. done.
  - destruct (decide (k ∈ l)) as [H|H]; [rewrite decide_True by (by apply list_elem_of_further); done|].
    rewrite decide_False; [done|]. by intros [?|?]%elem_of_cons.
Qed.

(** The first [r] columns are those of a triangular matrix with ones on the diagonal. *)
Definition triangular (n r : nat) (m : matrix) : Prop :=
  (forall c, c < r -> cell m c c = Byte.x01) /\ (forall c i, c < r -> c < i -> i < n -> cell m i c = Byte.x00).

Lemma elt_take n v i : i < n -> elt (take n v) i = elt v i.
Proof. intros Hi. unfold elt. rewrite !nth_lookup. by rewrite lookup_take_lt. Qed.

Lemma cell_elt n m i c : c < n -> elt (take n (row m i)) c = cell m i c.
Proof. intros Hc. rewrite elt_take by done. done. Qed.

(** Back substitution: a vector that the rows before [r] map to 0. *)
Lemma back_substitution n M m r : augmented n M m -> triangular n r m -> r < n ->
  forall k, k <= r -> exists x, length x = n /\ elt x r = Byte.x01 /\ (forall c, r < c -> elt x c = Byte.x00) /\
    forall j, r - k <= j -> j < r -> dot (take n (row m j)) x = Byte.x00.
Proof.
  intros Ha [Hdiag Hlow] Hr k. induction k as [|k IH]; intros Hk.
  { exists (unit_vec n r). split_and!; [apply length_unit| | |lia].
    - unfold unit_vec. apply elt_insert_eq. unfold zeros. by rewrite length_replicate.
    - intros c Hc. unfold unit_vec. rewrite elt_insert_ne by lia. apply elt_zeros. }
  destruct IH as (x & Hl & Hx & Hz & Hj); [lia|]. set (j0 := r - S k). set (u := take n (row m j0)).
  assert (Hu : forall j, j < n -> length (take n (row m j)) = length x) by (intros j Hjn; rewrite length_take, (aug_width _ _ _ Ha) by done; lia).
  exists (<[j0 := elt x j0 ⊕ dot u x]> x). split_and!.
  - by rewrite length_insert.
  - by rewrite elt_insert_ne by lia.
  - intros c Hc. rewrite elt_insert_ne by lia. auto.
  - intros j Hj1 Hj2. rewrite dot_insert by (rewrite ?Hu; lia). destruct (decide (j = j0)) as [->|Hne].
    + rewrite cell_elt, Hdiag by lia. fold u. transitivity (dot u x ⊕ dot u x ⊕ (elt x j0 ⊕ elt x j0)); [ring|]. rewrite !gfAdd_self. ring.
    + rewrite Hj, cell_elt, (Hlow j0 j) by lia. ring.
Qed.

(** There is a pivot in every column of a matrix without kernel. *)
Lemma pivot_exists n M m r : augmented n M m -> triangular n r m -> r < n ->
  (forall i, r <= i -> i < n -> cell m i r = Byte.x00) -> False.
Proof.
  intros Ha Ht Hr Hcol. destruct (back_substitution n M m r Ha Ht Hr r) as (x & Hl & Hx & Hz & Hj); [lia|].
  assert (x = zeros n) as ->; [|by rewrite elt_zeros in Hx].
  apply (aug_kernel _ _ _ Ha); [done|]. intros i Hi. destruct (decide (i < r)) as [Hir|Hir]; [apply Hj; lia|].
  apply dot_zero. intros c Hc. rewrite length_take in Hc. destruct (decide (c < r)) as [H|H].
  - left. rewrite cell_elt by lia. apply (proj2 Ht); lia.
  - destruct (decide (c = r)) as [->|]; [left; rewrite cell_elt by lia; apply Hcol; lia|right; apply Hz; lia].
Qed.

Lemma pivot_spec n M m r : augmented n M m -> triangular n r m -> r < n ->
  augmented n M (pivot m r) /\ triangular n r (pivot m r) /\ zero (cell (pivot m r) r r) = false.
Proof.
  intros Ha Ht Hr. unfold pivot. destruct (zero (cell m r r)) eqn:Hz; [|done].
  pose proof (aug_rows _ _ _ Ha) as Hlen.
  destruct (List.find _ _) as [i|] eqn:Hf.
  - apply find_some in Hf as [Hin Hi]. apply in_seq in Hin. apply negb_true_iff in Hi.
    assert (Hrow : forall k, row (swapRows m r i) k = row m (if decide (k = r) then i else if decide (k = i) then r else k)).
    { intros k. unfold swapRows. destruct (decide (k = r)) as [->|]; [by rewrite row_insert_eq by (rewrite length_insert; lia)|].
      rewrite row_insert_ne by done. destruct (decide (k = i)) as [->|]; [by rewrite row_insert_eq by lia|by rewrite row_insert_ne by done]. }
    split_and!.
    + apply augmented_swap; [done|done|lia].
    + destruct Ht as [Hd Hlow]. split.
      * intros c Hc. unfold cell. rewrite Hrow, !decide_False by lia. by apply Hd.
      * intros c k Hc Hck Hk. unfold cell. rewrite Hrow. repeat case_decide; apply Hlow; lia.
    + unfold cell. rewrite Hrow, decide_True by done. exact Hi.
  - exfalso. apply (pivot_exists n M m r Ha Ht Hr). intros i Hi Hin. destruct (decide (i = r)) as [->|Hne]; [by apply zero_spec|].
    pose proof (find_none _ _ Hf i) as Hx. cbn in Hx. apply zero_spec, negb_false_iff, Hx, in_seq. lia.
Qed.

Lemma normalize_spec n M m r : augmented n M m -> triangular n r m -> r < n -> zero (cell m r r) = false ->
  augmented n M (normalize m r) /\ triangular n r (normalize m r) /\ cell (normalize m r) r r = Byte.x01.
Proof.
  intros Ha Ht Hr Hz. pose proof (augmented_normalize n M m r Ha Hr Hz) as Han. split; [done|].
  assert (Hc : cell m r r <> Byte.x00) by (intros E; apply zero_spec in E; congruence).
  pose proof (aug_rows _ _ _ Ha) as Hlen. unfold normalize in *.
  destruct (Byte.eqb (cell m r r) Byte.x01) eqn:E1; [apply Byte.byte_dec_bl in E1; done|].
  assert (Hcell : forall k c, cell (<[r := (fun x => x ⊗ gfInv (cell m r r)) <$> row m r]> m) k c =
    if decide (k = r) then cell m r c ⊗ gfInv (cell m r r) else cell m k c).
  { intros k c. unfold cell at 1. case_decide as Hk; [subst k; rewrite row_insert_eq by lia|by rewrite row_insert_ne].
    unfold cell at 2. generalize (row m r). intros u. revert c. induction u as [|a u IHu]; intros [|c]; cbn; [by rewrite gfMul_0..|done|apply IHu]. }
  split; [|rewrite Hcell, decide_True by done; field; done]. destruct Ht as [Hd Hlow]. split.
  - intros c Hcr. rewrite Hcell, decide_False by lia. auto.
  - intros c k Hcr Hck Hk. rewrite Hcell. case_decide; [rewrite (Hlow c r) by lia; apply gfMul_0|auto].
Qed.

Lemma eliminate_spec n M m r : augmented n M m -> triangular n r m -> r < n ->
  exists m', eliminate m r = Ok m' /\ augmented n M m' /\ triangular n (S r) m'.
Proof.
  intros Ha Ht Hr. unfold eliminate. destruct (pivot_spec n M m r Ha Ht Hr) as (Ha1 & Ht1 & Hz). rewrite Hz.
  destruct (normalize_spec n M _ r Ha1 Ht1 Hr Hz) as (Ha2 & Ht2 & H1). set (m2 := normalize (pivot m r) r) in *.
  pose proof (aug_rows _ _ _ Ha2) as Hlen.
  assert (Hl : Forall (fun i => i < n /\ r <> i) (seq (S r) (length m2 - S r))).
  { apply Forall_forall. intros i Hi%elem_of_seq. lia. }
  pose proof (NoDup_seq (S r) (length m2 - S r)) as Hnd. eexists. split; [done|].
  pose proof (fun k c => cell_clears n M r (seq (S r) (length m2 - S r)) m2 k c Ha2 Hr Hnd Hl) as Hcell.
  split; [by apply augmented_clears|]. destruct Ht2 as [Hd Hlow]. split.
  - intros c Hc. rewrite Hcell, decide_False by (intros H%elem_of_seq; lia). destruct (decide (c = r)) as [->|]; [done|apply Hd; lia].
  - intros c k Hc Hck Hk. rewrite Hcell. destruct (decide (c = r)) as [->|Hne].
    + rewrite decide_True by (apply elem_of_seq; lia). rewrite H1. transitivity (cell m2 k r ⊕ cell m2 k r); [ring|apply gfAdd_self].
    + case_decide; [|apply Hlow; lia]. rewrite (Hlow c r), (Hlow c k) by lia. ring.
Qed.

Lemma below_spec n M : forall len r m, augmented n M m -> triangular n r m -> r + len = n ->
  exists m', below m (seq r len) = Ok m' /\ augmented n M m' /\ triangular n n m'.
Proof.
  induction len as [|len IH]; intros r m Ha Ht Hr.
  { exists m. assert (r = n) as -> by lia. done. }
  cbn [seq below]. destruct (eliminate_spec n M m r Ha Ht) as (m1 & -> & Ha1 & Ht1); [lia|]. cbn [obind]. apply IH; [done|done|lia].
Qed.

(** The first [d] columns are those of the identity. *)
Definition diagonal (n d : nat) (m : matrix) : Prop :=
  triangular n n m /\ forall c i, c < d -> i < n -> i <> c -> cell m i c = Byte.x00.

Lemma above_step n M m d : augmented n M m -> diagonal n d m -> d < n ->
  augmented n M (foldl (clear d) m (seq 0 d)) /\ diagonal n (S d) (foldl (clear d) m (seq 0 d)).
Proof.
  intros Ha [[Hd Hlow] Hv] Hdn.
  assert (Hl : Forall (fun i => i < n /\ d <> i) (seq 0 d)) by (apply Forall_forall; intros i Hi%elem_of_seq; lia).
  split; [by apply augmented_clears|].
  pose proof (fun k c => cell_clears n M d (seq 0 d) m k c Ha Hdn (NoDup_seq 0 d) Hl) as Hcell. split; [split|].
  - intros c Hc. rewrite Hcell. case_decide as H; [|by apply Hd]. apply elem_of_seq in H. rewrite Hd, (Hlow c d) by lia. ring.
  - intros c i Hc Hci Hi. rewrite Hcell. case_decide as H; [|by apply Hlow]. apply elem_of_seq in H.
    rewrite (Hlow c i), (Hlow c d) by lia. ring.
  - intros c i Hc Hi Hne. rewrite Hcell. destruct (decide (c = d)) as [->|Hcd].
    + case_decide as H; [|apply Hlow; rewrite elem_of_seq in H; lia]. rewrite (Hd d) by done.
      transitivity (cell m i d ⊕ cell m i d); [ring|apply gfAdd_self].
    + case_decide as H; [|apply Hv; lia]. apply elem_of_seq in H. rewrite (Hv c i), (Hlow c d) by lia. ring.
Qed.

Lemma above_spec n M : forall len d m, augmented n M m -> diagonal n d m -> d + len = n ->
  augmented n M (above m (seq d len)) /\ diagonal n n (above m (seq d len)).
Proof.
  induction len as [|len IH]; intros d m Ha Hd Hl; [assert (d = n) as -> by lia; done|].
  destruct (above_step n M m d Ha Hd) as [Ha1 Hd1]; [lia|]. cbn [seq above foldl].
  apply (IH (S d) (foldl (clear d) m (seq 0 d)) Ha1 Hd1). lia.
Qed.

Lemma row_fmap {A} (f : A -> bytes) l i x : l !! i = Some x -> row (f <$> l) i = f x.
Proof. intros Hi. unfold row. apply nth_lookup_Some. by rewrite list_lookup_fmap, Hi. Qed.

(** Elimination inverts a matrix without kernel. *)
Lemma invert_spec n M :
  length M = n -> (forall i, i < n -> length (row M i) = n) ->
  (forall x, length x = n -> (forall i, i < n -> dot (row M i) x = Byte.x00) -> x = zeros n) ->
  exists R, invert M = Ok R /\ length R = n /\ (forall l, l < n -> length (row R l) = n) /\
    forall l x, l < n -> length x = n -> dot (row R l) (apply M x) = elt x l.
Proof.
  intros Hlen Hw Hker. set (m0 := augIM M (identityMatrix (length M))).
  assert (Hrow : forall i, i < n -> row m0 i = row M i ++ unit_vec n i).
  { intros i Hi. unfold row at 1, m0, augIM. apply nth_lookup_Some. rewrite lookup_zip_with.
    destruct (lookup_lt_is_Some_2 M i) as [r Hr]; [lia|]. rewrite Hr. cbn. unfold identityMatrix.
    rewrite list_lookup_fmap, lookup_seq_lt by lia. cbn. rewrite Hlen. unfold row. by rewrite (nth_lookup_Some _ _ _ _ Hr). }
  assert (Ha : augmented n M m0).
  { split.
    - unfold m0, augIM, identityMatrix. rewrite length_zip_with, length_fmap, length_seq. lia.
    - intros i Hi. by rewrite Hrow, length_app, Hw, length_unit.
    - intros i x Hi Hx. rewrite Hrow, take_app_exact, drop_app_exact by (done || by rewrite Hw). rewrite dot_unit; [|done|unfold apply; by rewrite length_fmap].
      unfold elt, apply. symmetry. apply nth_lookup_Some. rewrite list_lookup_fmap. destruct (lookup_lt_is_Some_2 M i) as [r Hr]; [lia|].
      rewrite Hr. cbn. unfold row. by rewrite (nth_lookup_Some _ _ _ _ Hr).
    - intros x Hx Hz. apply Hker; [done|]. intros i Hi. specialize (Hz i Hi). by rewrite Hrow, take_app_exact in Hz by (done || by rewrite Hw). }
  destruct (below_spec n M n 0 m0 Ha) as (m1 & Hb & Ha1 & Ht1); [split; lia|done|].
  destruct (above_spec n M n 0 m1 Ha1) as [Ha2 [Ht2 Hd2]]; [by split; [|lia]|done|]. set (m2 := above m1 (seq 0 n)) in *.
  unfold invert, gaussJordan. fold m0. rewrite (aug_rows _ _ _ Ha), Hb. cbn [obind]. rewrite (aug_rows _ _ _ Ha1). fold m2.
  exists (subMatrix (length M) m2). split; [done|].
  assert (Hr2 : forall l, l < n -> row (subMatrix (length M) m2) l = drop n (row m2 l)).
  { intros l Hl. unfold subMatrix. rewrite (row_fmap _ _ l l) by (rewrite lookup_seq_lt; [done|lia]).
    rewrite Hlen, take_ge; [done|]. rewrite length_drop, (aug_width _ _ _ Ha2) by done. lia. }
  split; [unfold subMatrix; by rewrite length_fmap, length_seq|]. split.
  - intros l Hl. rewrite Hr2, length_drop, (aug_width _ _ _ Ha2) by done. lia.
  - intros l x Hl Hx. rewrite Hr2, <- (aug_sem _ _ _ Ha2) by done.
    assert (take n (row m2 l) = unit_vec n l) as ->; [|by apply dot_unit].
    apply vec_eq; [rewrite length_unit, length_take, (aug_width _ _ _ Ha2) by done; lia|].
    intros c Hc. rewrite length_take, (aug_width _ _ _ Ha2) in Hc by done. rewrite cell_elt by lia. unfold unit_vec.
    destruct (decide (l = c)) as [->|Hne].
    + rewrite elt_insert_eq by (unfold zeros; rewrite length_replicate; lia). apply Ht2. lia.
    + rewrite elt_insert_ne, elt_zeros by done. apply Hd2; lia.
Qed.

(** ** The Cauchy matrix *)
Fixpoint gsum {A} (f : A -> byte) (l : list A) : byte := match l with [] => Byte.x00 | b :: l => f b ⊕ gsum f l end.

Lemma gsum_ext {A} (f g : A -> byte) l : (forall b, b ∈ l -> f b = g b) -> gsum f l = gsum g l.
Proof.
  induction l as [|b l IH]; intros H; [done|]. cbn [gsum]. rewrite (H b) by apply list_elem_of_here.
  rewrite IH; [done|]. intros c Hc. apply H. by apply list_elem_of_further.
Qed.

Lemma gsum_zero {A} (l : list A) : gsum (fun _ => Byte.x00) l = Byte.x00.
Proof. induction l as [|b l IH]; [done|]. cbn [gsum]. rewrite IH. ring. Qed.

Lemma gsum_linear {A} c e (f g : A -> byte) l : gsum (fun b => c ⊗ f b ⊕ e ⊗ g b) l = c ⊗ gsum f l ⊕ e ⊗ gsum g l.
Proof. induction l as [|b l IH]; cbn [gsum]; [ring|]. rewrite IH. ring. Qed.

Lemma gsum_perm {A} (f : A -> byte) l k : l ≡ₚ k -> gsum f l = gsum f k.
Proof. induction 1; cbn [gsum]; [done|congruence|ring|congruence]. Qed.

Lemma gsum_app {A} (f : A -> byte) l k : gsum f (l ++ k) = gsum f l ⊕ gsum f k.
Proof. induction l as [|b l IH]; cbn [app gsum]; [ring|]. rewrite IH. ring. Qed.

Lemma gsum_fmap {A B} (h : A -> B) (f : B -> byte) l : gsum f (h <$> l) = gsum (fun a => f (h a)) l.
Proof. induction l as [|a l IH]; [done|]. cbn [fmap list_fmap gsum] in *. by rewrite IH. Qed.

Lemma gfAdd_ne a b : a <> b -> a ⊕ b <> Byte.x00.
Proof. intros Hne E. apply Hne. transitivity (a ⊕ b ⊕ b); [|rewrite E; ring]. rewrite <- gfAdd_assoc, gfAdd_self. ring. Qed.

Lemma gfMul_cancel a b : b <> Byte.x00 -> a ⊗ b = Byte.x00 -> a = Byte.x00.
Proof. intros Hb E. transitivity (a ⊗ b ⊗ gfInv b); [field; done|]. rewrite E. ring. Qed.

Lemma gfInv_ne a : a <> Byte.x00 -> gfInv a <> Byte.x00.
Proof. intros Ha E. pose proof (gfInv_l a Ha) as H. rewrite E, gfMul_0 in H. done. Qed.

Lemma partial_fractions a a0 b b0 : a <> a0 -> a <> b -> a0 <> b ->
  (b ⊕ b0) ⊗ gfInv (a0 ⊕ b) ⊗ gfInv (a ⊕ b) =
  (a ⊕ b0) ⊗ gfInv (a ⊕ a0) ⊗ gfInv (a ⊕ b) ⊕ (a0 ⊕ b0) ⊗ gfInv (a ⊕ a0) ⊗ gfInv (a0 ⊕ b).
Proof.
  intros H1 H2 H3. apply gfAdd_ne in H1, H2, H3.
  assert (Hnum : (a ⊕ b0) ⊗ (a0 ⊕ b) ⊕ (a0 ⊕ b0) ⊗ (a ⊕ b) = (b ⊕ b0) ⊗ (a ⊕ a0)).
  { transitivity ((b ⊕ b0) ⊗ (a ⊕ a0) ⊕ (a ⊗ a0 ⊕ a ⊗ a0) ⊕ (b0 ⊗ b ⊕ b0 ⊗ b)); [ring|]. rewrite !gfAdd_self. ring. }
  symmetry. transitivity (((a ⊕ b0) ⊗ (a0 ⊕ b) ⊕ (a0 ⊕ b0) ⊗ (a ⊕ b)) ⊗ gfInv (a ⊕ a0) ⊗ gfInv (a ⊕ b) ⊗ gfInv (a0 ⊕ b));
    [field; done|]. rewrite Hnum. field. done.
Qed.

(** A square Cauchy matrix has no kernel. *)
Lemma cauchy_kernel : forall (rows cols : bytes) (f : byte -> byte),
  length rows = length cols -> NoDup rows -> NoDup cols -> (forall a b, a ∈ rows -> b ∈ cols -> a <> b) ->
  (forall a, a ∈ rows -> gsum (fun b => f b ⊗ gfInv (a ⊕ b)) cols = Byte.x00) ->
  forall b, b ∈ cols -> f b = Byte.x00.
Proof.
  induction rows as [|a0 rows IH]; intros [|b0 cols] f Hl Hr Hc Hd Hz b Hb; try done; [by apply not_elem_of_nil in Hb|].
  apply NoDup_cons in Hr as [Ha0 Hr], Hc as [Hb0 Hc].
  pose proof (list_elem_of_here a0 rows) as Hina. pose proof (list_elem_of_here b0 cols) as Hinb.
  assert (Hrest : forall b, b ∈ cols -> f b = Byte.x00).
  { intros c Hin. apply (gfMul_cancel _ ((c ⊕ b0) ⊗ gfInv (a0 ⊕ c))).
    - intros E. apply gfMul_cancel in E; [|apply gfInv_ne, gfAdd_ne, Hd; [done|by apply list_elem_of_further]].
      revert E. apply gfAdd_ne. by intros ->.
    - revert c Hin. apply (IH cols (fun b => f b ⊗ ((b ⊕ b0) ⊗ gfInv (a0 ⊕ b)))); [by injection Hl|done|done| |].
      { intros a c Ha Hin. apply Hd; by apply list_elem_of_further. }
      intros a Ha. assert (Haa : a <> a0) by (by intros ->).
      transitivity (gsum (fun b => f b ⊗ ((b ⊕ b0) ⊗ gfInv (a0 ⊕ b)) ⊗ gfInv (a ⊕ b)) (b0 :: cols)).
      { cbn [gsum]. rewrite gfAdd_self. ring. }
      transitivity (gsum (fun b => (a ⊕ b0) ⊗ gfInv (a ⊕ a0) ⊗ (f b ⊗ gfInv (a ⊕ b)) ⊕ (a0 ⊕ b0) ⊗ gfInv (a ⊕ a0) ⊗ (f b ⊗ gfInv (a0 ⊕ b))) (b0 :: cols)).
      { apply gsum_ext. intros c Hin. transitivity (f c ⊗ ((c ⊕ b0) ⊗ gfInv (a0 ⊕ c) ⊗ gfInv (a ⊕ c))); [ring|].
        rewrite partial_fractions; [ring|done|apply Hd; [by apply list_elem_of_further|done]|by apply Hd]. }
      rewrite gsum_linear, !Hz by (done || by apply list_elem_of_further). ring. }
  apply elem_of_cons in Hb as [->|Hb]; [|by apply Hrest]. specialize (Hz a0 Hina). cbn [gsum] in Hz.
  rewrite (gsum_ext _ (fun _ => Byte.x00)), gsum_zero in Hz by (intros c Hin; rewrite (Hrest c Hin); ring).
  apply (gfMul_cancel _ (gfInv (a0 ⊕ b0))); [by apply gfInv_ne, gfAdd_ne, Hd|]. rewrite <- Hz. ring.
Qed.

(** ** The generator *)
Definition nb (i : nat) : byte := zb (Z.of_nat i).

Lemma nb_inj i j : i < 256 -> j < 256 -> nb i = nb j -> i = j.
Proof. intros Hi Hj E. apply (f_equal bz) in E. unfold nb in E. rewrite !bz_zb, !Z.mod_small in E by lia. lia. Qed.

Lemma nb_of i : i < 256 -> Z.to_nat (bz (nb i)) = i.
Proof. intros Hi. unfold nb. rewrite bz_zb, Z.mod_small, Nat2Z.id by lia. done. Qed.

Lemma dot_gsum (g : nat -> byte) x : forall n s, length x = n -> dot (g <$> seq s n) x = gsum (fun j => g j ⊗ elt x (j - s)) (seq s n).
Proof.
  induction x as [|b x IH]; intros [|n] s Hl; try done. cbn [seq fmap list_fmap dot gsum]. rewrite Nat.sub_diag. cbn [elt nth].
  f_equal. rewrite (IH n (S s)) by (by injection Hl). apply gsum_ext. intros j Hj%elem_of_seq. f_equal.
  replace (j - s) with (S (j - S s)) by lia. done.
Qed.

Lemma row_identity n i : i < n -> row (identityMatrix n) i = unit_vec n i.
Proof. intros Hi. unfold identityMatrix. rewrite (row_fmap _ _ i i); [done|]. by rewrite lookup_seq_lt. Qed.

Lemma row_app_r m k i : length m <= i -> row (m ++ k) i = row k (i - length m).
Proof. intros Hi. unfold row. by rewrite app_nth2. Qed.

Lemma row_app_l m k i : i < length m -> row (m ++ k) i = row m i.
Proof. intros Hi. unfold row. by rewrite app_nth1. Qed.

Lemma row_generator d p i : d + p < 256 -> i < d + p ->
  row (GenEncodeMatrix d p) i = if decide (i < d) then unit_vec d i else (fun j => gfInv (nb i ⊕ nb j)) <$> seq 0 d.
Proof.
  intros Hdp Hi. unfold GenEncodeMatrix. assert (Hl : length (identityMatrix d) = d) by (unfold identityMatrix; by rewrite length_fmap, length_seq).
  destruct (decide (i < d)) as [H|H]; [rewrite row_app_l by lia; by apply row_identity|].
  rewrite row_app_r, Hl by lia. unfold genCauchyMatrix. rewrite (row_fmap _ _ _ i) by (rewrite lookup_seq_lt by lia; f_equal; lia).
  apply list_fmap_ext. intros k j Hj%list_elem_of_lookup_2%elem_of_seq. rewrite gfInv_entry. f_equal. apply gfAdd_lxor; lia.
Qed.

(** Rows as many as the data rows have no kernel together. *)
Lemma generator_kernel d p rows x :
  d + p < 256 -> length rows = d -> NoDup rows -> Forall (fun i => i < d + p) rows -> length x = d ->
  (forall i, i ∈ rows -> dot (row (GenEncodeMatrix d p) i) x = Byte.x00) -> x = zeros d.
Proof.
  intros Hdp Hlen Hnd Hlt Hx Hz. rewrite Forall_forall in Hlt.
  set (kept := filter (fun j => j ∈ rows) (seq 0 d)). set (lost := filter (fun j => j ∉ rows) (seq 0 d)).
  assert (Hsplit : seq 0 d ≡ₚ kept ++ lost) by (symmetry; apply (filter_app_complement (fun j => j ∈ rows))).
  assert (Hkept : forall j, j ∈ kept -> elt x j = Byte.x00).
  { intros j [Hj Hjd%elem_of_seq]%list_elem_of_filter. specialize (Hz j Hj). rewrite row_generator, decide_True in Hz by lia.
    by rewrite dot_unit in Hz by lia. }
  set (high := filter (fun i => ~ i < d) rows).
  assert (Hcount : length high = length lost).
  { assert (length (filter (fun i => i < d) rows) = length kept).
    { apply Permutation_length, NoDup_Permutation; [by apply NoDup_filter|apply NoDup_filter, NoDup_seq|].
      intros j. unfold kept. rewrite !list_elem_of_filter, elem_of_seq. intuition lia. }
    pose proof (Permutation_length Hsplit) as H1. rewrite length_seq, length_app in H1.
    pose proof (Permutation_length (filter_app_complement (fun i => i < d) rows)) as H2. rewrite length_app in H2. unfold high. lia. }
  assert (Hhigh : forall i, i ∈ high -> i ∈ rows /\ d <= i /\ i < d + p).
  { intros i [Hi Hir]%list_elem_of_filter. specialize (Hlt i Hir). split; [done|lia]. }
  assert (Hlow : forall j, j ∈ lost -> j < d) by (intros j [_ Hj%elem_of_seq]%list_elem_of_filter; lia).
  assert (Hlost : forall b, b ∈ nb <$> lost -> elt x (Z.to_nat (bz b)) = Byte.x00).
  { apply (cauchy_kernel (nb <$> high) (nb <$> lost) (fun b => elt x (Z.to_nat (bz b)))).
    - by rewrite !length_fmap.
    - apply NoDup_fmap_2_strong; [|by apply NoDup_filter]. intros i j Hi Hj. apply nb_inj; apply Hhigh in Hi, Hj; lia.
    - apply NoDup_fmap_2_strong; [|apply NoDup_filter, NoDup_seq]. intros i j Hi Hj. apply nb_inj; apply Hlow in Hi, Hj; lia.
    - intros a b (i & -> & Hi)%list_elem_of_fmap (j & -> & Hj)%list_elem_of_fmap E. apply Hhigh in Hi. apply Hlow in Hj.
      apply nb_inj in E; lia.
    - intros a (i & -> & Hi)%list_elem_of_fmap. pose proof (Hhigh i Hi) as (Hir & Hid & Hip). specialize (Hz i Hir).
      rewrite row_generator, decide_False, dot_gsum, (gsum_perm _ _ _ Hsplit), gsum_app in Hz by lia.
      rewrite (gsum_ext _ (fun _ => Byte.x00) kept), gsum_zero, gfAdd_0 in Hz
        by (intros j Hj; rewrite Nat.sub_0_r, (Hkept j Hj); ring).
      rewrite gsum_fmap. rewrite <- Hz. apply gsum_ext. intros j Hj. rewrite Nat.sub_0_r, nb_of by (apply Hlow in Hj; lia). ring. }
  apply vec_eq; [unfold zeros; by rewrite length_replicate|]. intros j Hj. rewrite elt_zeros.
  assert (Hin : j ∈ kept ++ lost) by (rewrite <- Hsplit; apply elem_of_seq; lia). apply elem_of_app in Hin as [H|H]; [by apply Hkept|].
  specialize (Hlost (nb j)). rewrite nb_of in Hlost by lia. apply Hlost. by apply list_elem_of_fmap_2.
Qed.

(** ** Encoding *)

(** The bytes of the rows at a position. *)
Definition column (m : matrix) (t : nat) : bytes := (fun r => elt r t) <$> m.

Lemma length_column m t : length (column m t) = length m.
Proof. apply length_fmap. Qed.

Lemma elt_column m t i : i < length m -> elt (column m t) i = elt (row m i) t.
Proof.
  intros Hi. destruct (lookup_lt_is_Some_2 m i Hi) as [r Hr]. unfold elt at 1, column. apply nth_lookup_Some.
  rewrite list_lookup_fmap, Hr. cbn. unfold row. by rewrite (nth_lookup_Some _ _ _ _ Hr).
Qed.

Lemma dot_elts u x n : length u = n -> length x = n -> dot u x = gsum (fun i => elt u i ⊗ elt x i) (seq 0 n).
Proof.
  intros Hu Hx. transitivity (dot (elt u <$> seq 0 n) x).
  - f_equal. apply vec_eq; [by rewrite length_fmap, length_seq|]. intros i Hi. symmetry. unfold elt at 1. apply nth_lookup_Some.
    rewrite list_lookup_fmap, lookup_seq_lt by lia. done.
  - rewrite dot_gsum by done. apply gsum_ext. intros i _. by rewrite Nat.sub_0_r.
Qed.

(** All rows have the size. *)
Definition sized (size : nat) (m : matrix) : Prop := forall i, i < length m -> length (row m i) = size.

Lemma sized_forall size m : Forall (fun r => length r = size) m <-> sized size m.
Proof.
  rewrite Forall_lookup. unfold sized, row. split.
  - intros H i Hi. destruct (lookup_lt_is_Some_2 m i Hi) as [r Hr]. rewrite (nth_lookup_Some _ _ _ _ Hr). eauto.
  - intros H i r Hr. specialize (H i (lookup_lt_Some _ _ _ Hr)). by rewrite (nth_lookup_Some _ _ _ _ Hr) in H.
Qed.

Lemma sized_app size m k : sized size m -> sized size k -> sized size (m ++ k).
Proof. rewrite <- !sized_forall. apply Forall_app_2. Qed.

Lemma sized_NewMatrix p size : sized size (NewMatrix p size).
Proof. apply sized_forall, Forall_replicate. apply length_replicate. Qed.

Lemma row_imap f m i : i < length m -> row (imap f m) i = f i (row m i).
Proof.
  intros Hi. destruct (lookup_lt_is_Some_2 m i Hi) as [r Hr]. unfold row. rewrite (nth_lookup_Some _ _ _ _ Hr).
  apply nth_lookup_Some. by rewrite list_lookup_imap, Hr.
Qed.

Lemma mulBase_spec c u v : length u = length v -> length (mulBase c u v) = length v /\ forall t, t < length v -> elt (mulBase c u v) t = c ⊗ elt u t.
Proof.
  intros Hl. unfold mulBase. rewrite drop_ge, app_nil_r by lia. split; [by rewrite length_fmap|]. intros t Ht.
  destruct (lookup_lt_is_Some_2 u t) as [a Ha]; [lia|]. unfold elt. rewrite (nth_lookup_Some _ _ _ _ Ha). apply nth_lookup_Some.
  by rewrite list_lookup_fmap, Ha.
Qed.

Lemma mulXORBase_spec c u v : length u = length v -> length (mulXORBase c u v) = length v /\
  forall t, t < length v -> elt (mulXORBase c u v) t = elt v t ⊕ c ⊗ elt u t.
Proof.
  intros Hl. unfold mulXORBase. rewrite drop_ge, app_nil_r by lia. split; [rewrite length_zip_with; lia|]. intros t Ht.
  destruct (lookup_lt_is_Some_2 u t) as [a Ha]; [lia|]. destruct (lookup_lt_is_Some_2 v t) as [b Hb]; [lia|].
  unfold elt. rewrite (nth_lookup_Some _ _ _ _ Ha), (nth_lookup_Some _ _ _ _ Hb). apply nth_lookup_Some.
  by rewrite lookup_zip_with, Hb, Ha.
Qed.

Lemma encode_rows gen in_ size : sized size in_ -> forall n out, n <= length in_ -> sized size out -> 
  let res := foldl (encode_row gen in_) out (seq 0 n) in
  length res = length out /\ sized size res /\
  (0 < n -> forall oi t, oi < length out -> t < size -> elt (row res oi) t = gsum (fun i => cell gen oi i ⊗ elt (row in_ i) t) (seq 0 n)).
Proof.
  cbv zeta. intros Hin. induction n as [|n IH]; intros out Hn Hout; [split_and!; [done|done|lia]|].
  destruct (IH out) as (Hl & Hs & Hc); [lia|done|]. rewrite seq_S, foldl_app. cbn [foldl]. rewrite Nat.add_0_l in *.
  set (res := foldl (encode_row gen in_) out (seq 0 n)) in *. unfold encode_row. split_and!.
  - by rewrite length_imap.
  - intros i Hi. rewrite length_imap in Hi. rewrite row_imap by done.
    assert (length (row in_ n) = length (row res i)) by (rewrite Hin, Hs by lia; done).
    destruct (n =? 0); [rewrite (proj1 (mulBase_spec _ _ _ ltac:(done)))|rewrite (proj1 (mulXORBase_spec _ _ _ ltac:(done)))]; by apply Hs.
  - intros _ oi t Hoi Ht. rewrite row_imap by lia. rewrite gsum_app. cbn [gsum].
    assert (Hlen : length (row in_ n) = length (row res oi)) by (rewrite Hin, Hs by lia; done).
    assert (Htl : t < length (row res oi)) by (rewrite Hs by lia; done).
    destruct (Nat.eqb_spec n 0) as [->|Hn0]; [rewrite (proj2 (mulBase_spec _ _ _ Hlen)) by done; cbn; ring|].
    rewrite (proj2 (mulXORBase_spec _ _ _ Hlen)), Hc by (done || lia). ring.
Qed.

Lemma check_rows d p shards size : length shards = d + p -> 0 < d -> sized size shards -> 0 < size -> CheckEncodeShards d p shards = None.
Proof.
  intros Hl Hd Hs Hsz. unfold CheckEncodeShards, CheckMatrixRows, CheckShardSize.
  rewrite <- Hl, Nat.eqb_refl. rewrite (Hs 0) by lia. destruct (Nat.eqb_spec size 0); [lia|].
  assert (forallb (fun i => length (row shards i) =? size) (seq 1 (length shards - 1)) = true) as ->; [|done].
  apply forallb_forall. intros i Hi%in_seq. apply Nat.eqb_eq, Hs. lia.
Qed.

(** The rows behind the data are the products of the generator with the columns. *)
Lemma Encode_spec r in_ out size :
  length in_ = data r -> length out = parity r -> 0 < data r -> 0 < size -> sized size in_ -> sized size out ->
  (forall i, i < parity r -> length (row (gen r) i) = data r) ->
  exists parities, Encode r (in_ ++ out) = Ok (in_ ++ parities) /\ length parities = parity r /\ sized size parities /\
    forall oi t, oi < parity r -> t < size -> elt (row parities oi) t = dot (row (gen r) oi) (column in_ t).
Proof.
  intros Hin Hout Hd Hsz Hsi Hso Hgen. unfold Encode.
  rewrite (check_rows _ _ _ size) by (done || (rewrite length_app; lia) || by apply sized_app).
  rewrite take_app_length', drop_app_length' by done.
  destruct (encode_rows (gen r) in_ size Hsi (data r) out) as (Hl & Hs & Hc); [lia|done|].
  eexists. split; [done|]. split; [lia|]. split; [done|]. intros oi t Hoi Ht. rewrite Hc by lia.
  rewrite (dot_elts _ _ (data r)) by (rewrite ?length_column; auto). apply gsum_ext. intros i Hi%elem_of_seq.
  rewrite elt_column by lia. done.
Qed.

(** ** The code *)
Section Code.
Context (d p : nat) (Hd : 0 < d) (Hp : 0 < p) (Hdp : d + p < 256).
Definition the_code : rsBase := {| data := d; parity := p; gen := genCauchyMatrix d p |}.

Lemma gen_row i : i < p -> row (genCauchyMatrix d p) i = row (GenEncodeMatrix d p) (d + i).
Proof using All.
  intros Hi. unfold GenEncodeMatrix. assert (Hl : length (identityMatrix d) = d) by (unfold identityMatrix; by rewrite length_fmap, length_seq).
  rewrite row_app_r by lia. f_equal. lia.
Qed.

Lemma length_generator_row i : i < d + p -> length (row (GenEncodeMatrix d p) i) = d.
Proof using All. intros Hi. rewrite row_generator by done. case_decide; [apply length_unit|by rewrite length_fmap, length_seq]. Qed.

Lemma encode_rows_law rows size :
  length rows = d -> sized size rows -> 0 < size ->
  exists parities, Encode the_code (rows ++ NewMatrix p size) = Ok (rows ++ parities) /\ length parities = p /\ sized size parities /\
    forall i t, i < d + p -> t < size -> elt (row (rows ++ parities) i) t = dot (row (GenEncodeMatrix d p) i) (column rows t).
Proof using All.
  intros Hl Hs Hsz. destruct (Encode_spec the_code rows (NewMatrix p size) size) as (ps & He & Hlp & Hsp & Hc);
    [done|by apply length_replicate|done|done|done|apply sized_NewMatrix| |].
  { intros i Hi. cbn [the_code gen data parity] in *. rewrite gen_row by done. apply length_generator_row. lia. }
  exists ps. split_and!; [done|done|done|]. intros i t Hi Ht. rewrite row_generator by done. case_decide as Hid.
  - rewrite row_app_l by lia. rewrite dot_unit; [|done|by rewrite length_column]. rewrite elt_column by lia. done.
  - rewrite row_app_r by lia. rewrite Hc by (cbn; lia). cbn [the_code gen]. rewrite gen_row by lia.
    replace (d + (i - length rows)) with i by lia. by rewrite row_generator, decide_False by lia.
Qed.

(** *** The rows that are there *)
Definition is_here (shards : list slice) (i : nat) : bool := match nth i shards None with Some _ => true | None => false end.

Definition haves (shards : list slice) (i n : nat) : list nat := List.filter (is_here shards) (seq i n).
Definition losts (shards : list slice) (i n : nat) (f : nat -> bool) : list nat :=
  List.filter (fun k => negb (is_here shards k) && f k) (seq i n).

Lemma stat_loop_spec shards size : 0 < size -> (forall i b, shards !! i = Some (Some b) -> length b = size) ->
  forall rest i s, drop i shards = rest -> (RS.size s = 0 /\ have s = [] \/ RS.size s = size) ->
  exists s', stat_loop d i rest s = Ok s' /\ have s' = have s ++ haves shards i (length rest) /\
    dataLost s' = dataLost s ++ losts shards i (length rest) (fun k => k <? d) /\
    parityLost s' = parityLost s ++ losts shards i (length rest) (fun k => negb (k <? d)) /\
    (have s' = [] \/ RS.size s' = size).
Proof using All.
  intros Hsz Hsh. induction rest as [|x rest IH]; intros i s Hdrop Hs.
  { exists s. cbn. rewrite !app_nil_r. split_and!; try done. destruct Hs as [[_ ?]|?]; auto. }
  assert (Hx : shards !! i = Some x) by (rewrite <- (Nat.add_0_r i), <- lookup_drop, Hdrop; done).
  assert (Hrest : drop (S i) shards = rest) by (rewrite <- Nat.add_1_r, <- drop_drop, Hdrop; done).
  assert (Hn : nth i shards None = x) by (by apply nth_lookup_Some).
  unfold haves, losts, is_here in *. cbn [length seq List.filter]. rewrite Hn.
  destruct x as [b|]; cbn [stat_loop negb andb].
  - specialize (Hsh i b Hx). rewrite Hsh. destruct (Nat.eqb_spec size 0); [lia|].
    destruct Hs as [[Hs0 Hh]|Hs]; rewrite ?Hs0, ?Hs.
    + cbn [Nat.eqb]. destruct (IH (S i) {| have := have s ++ [i]; dataLost := dataLost s; parityLost := parityLost s; RS.size := size |} Hrest)
        as (s' & -> & H1 & H2 & H3 & H4); [by right|]. exists s'. cbn in *. rewrite <- app_assoc in H1. by split_and!.
    + destruct (Nat.eqb_spec size 0); [lia|]. rewrite Nat.eqb_refl. cbn [negb].
      destruct (IH (S i) {| have := have s ++ [i]; dataLost := dataLost s; parityLost := parityLost s; RS.size := size |} Hrest)
        as (s' & -> & H1 & H2 & H3 & H4); [by right|]. exists s'. cbn in *. rewrite <- app_assoc in H1. by split_and!.
  - destruct (i <? d).
    + destruct (IH (S i) {| have := have s; dataLost := dataLost s ++ [i]; parityLost := parityLost s; RS.size := RS.size s |} Hrest)
        as (s' & -> & H1 & H2 & H3 & H4); [done|]. exists s'. cbn in *. rewrite <- app_assoc in H2. by split_and!.
    + destruct (IH (S i) {| have := have s; dataLost := dataLost s; parityLost := parityLost s ++ [i]; RS.size := RS.size s |} Hrest)
        as (s' & -> & H1 & H2 & H3 & H4); [done|]. exists s'. cbn in *. rewrite <- app_assoc in H3. by split_and!.
Qed.

(** Every row is there or lost. *)
Lemma count_rows shards i n : length (haves shards i n) + length (losts shards i n (fun k => k <? d)) +
  length (losts shards i n (fun k => negb (k <? d))) = n.
Proof using All.
  unfold haves, losts. revert i; induction n as [|n IH]; intros i; [done|]. cbn [seq List.filter]. specialize (IH (S i)).
  destruct (is_here shards i), (i <? d); cbn [negb andb length]; lia.
Qed.

Lemma elem_of_haves shards i n k : k ∈ haves shards i n <-> i <= k < i + n /\ is_here shards k = true.
Proof using All. unfold haves. rewrite list_elem_of_In, filter_In, in_seq. done. Qed.

Lemma elem_of_losts shards i n f k : k ∈ losts shards i n f <-> i <= k < i + n /\ is_here shards k = false /\ f k = true.
Proof using All. unfold losts. rewrite list_elem_of_In, filter_In, in_seq, andb_true_iff, negb_true_iff. done. Qed.

Lemma NoDup_haves shards i n : NoDup (haves shards i n).
Proof using All. unfold haves. apply NoDup_ListNoDup, List.NoDup_filter, NoDup_ListNoDup, NoDup_seq. Qed.

Lemma count_haves shards rest i : drop i shards = rest ->
  length (haves shards i (length rest)) = length (List.filter (fun x : slice => match x with Some _ => true | None => false end) rest).
Proof using All.
  revert i; induction rest as [|x rest IH]; intros i Hdrop; [done|].
  assert (Hx : shards !! i = Some x) by (rewrite <- (Nat.add_0_r i), <- lookup_drop, Hdrop; done).
  assert (Hrest : drop (S i) shards = rest) by (rewrite <- Nat.add_1_r, <- drop_drop, Hdrop; done).
  unfold haves, is_here in *. cbn [length seq List.filter]. rewrite (nth_lookup_Some _ _ _ _ Hx). specialize (IH (S i) Hrest).
  destruct x; cbn [length]; lia.
Qed.

Lemma present_haves got : present got = length (haves (nil_row <$> got) 0 (length got)).
Proof using All.
  rewrite <- (length_fmap nil_row got). rewrite (count_haves _ (nil_row <$> got)) by done. unfold present.
  induction got as [|b got IH]; [done|]. cbn [fmap list_fmap List.filter]. destruct b; cbn; lia.
Qed.

(** *** Filling in *)
Lemma lookup_fill (g : nat -> bytes) (target : nat -> bytes) ps : forall shards k,
  (forall i l, (i, l) ∈ ps -> g i = target l /\ l < length shards) ->
  length (foldl (fun sh '(i, l) => <[l := Some (g i)]> sh) shards ps) = length shards /\
  foldl (fun sh '(i, l) => <[l := Some (g i)]> sh) shards ps !! k = if decide (k ∈ ps.*2) then Some (Some (target k)) else shards !! k.
Proof using All.
  induction ps as [|[i l] ps IH]; intros shards k Hps; cbn [foldl].
  { split; [done|]. rewrite decide_False; [done|apply not_elem_of_nil]. }
  destruct (Hps i l) as [Hg Hl]; [apply list_elem_of_here|].
  destruct (IH (<[l := Some (g i)]> shards) k) as [Hlen ->].
  { intros i' l' Hin. rewrite length_insert. apply Hps. by apply list_elem_of_further. }
  split; [by rewrite Hlen, length_insert|]. cbn [fmap list_fmap snd].
  destruct (decide (k ∈ ps.*2)) as [Hk|Hk]; [rewrite decide_True by (by apply list_elem_of_further); done|].
  destruct (decide (k = l)) as [->|Hne].
  - rewrite decide_True by apply list_elem_of_here. rewrite list_lookup_insert_eq by done. by rewrite Hg.
  - rewrite decide_False by (by intros [?|?]%elem_of_cons). by rewrite list_lookup_insert_ne.
Qed.

Lemma elem_of_imap_pair {A} (l : list A) i x : (i, x) ∈ imap pair l <-> l !! i = Some x.
Proof using All.
  rewrite list_elem_of_lookup. setoid_rewrite list_lookup_imap. split.
  - intros (j & Hj). destruct (l !! j) as [y|] eqn:Hy; [|done]. cbn in Hj. injection Hj as <- <-. done.
  - intros Hx. exists i. by rewrite Hx.
Qed.

Lemma imap_pair_snd {A} (l : list A) : (imap pair l).*2 = l.
Proof using All. apply list_eq. intros i. rewrite list_lookup_fmap, list_lookup_imap. by destruct (l !! i). Qed.

(** ** Reconstruction *)
Section Rows.
Context (rows parities : matrix) (size : nat).
Let enc := rows ++ parities.
Context (Hrows : length rows = d) (Hpar : length parities = p) (Hsr : sized size rows) (Hsp : sized size parities) (Hsz : 0 < size).
Context (Henc : forall i t, i < d + p -> t < size -> elt (row enc i) t = dot (row (GenEncodeMatrix d p) i) (column rows t)).

(** Shards of which each is the row or nil. *)
Context (shards : list slice) (Hlen : length shards = d + p).
Context (Hsh : forall i b, shards !! i = Some (Some b) -> b = row enc i).

Lemma sized_enc : sized size enc.
Proof using All. by apply sized_app. Qed.

Lemma shard_here i : i < d + p -> is_here shards i = true -> nth i shards None = Some (row enc i).
Proof using All.
  intros Hi. unfold is_here. destruct (lookup_lt_is_Some_2 shards i) as [x Hx]; [lia|]. rewrite (nth_lookup_Some _ _ _ _ Hx).
  destruct x as [b|]; [|done]. intros _. by rewrite (Hsh _ _ Hx).
Qed.

Let hv := haves shards 0 (d + p).
Let dl := losts shards 0 (d + p) (fun k => k <? d).
Context (Hhv : d <= length hv).

Lemma have_row i : i < d -> nth i hv 0 < d + p /\ nth (nth i hv 0) shards None = Some (row enc (nth i hv 0)).
Proof using All.
  intros Hi. destruct (lookup_lt_is_Some_2 hv i) as [h Hh]; [lia|]. rewrite (nth_lookup_Some _ _ _ _ Hh).
  apply list_elem_of_lookup_2, elem_of_haves in Hh as [Hb Hh]. split; [lia|]. apply shard_here; [lia|done].
Qed.

Lemma nth_haves : (fun i => nth i hv 0) <$> seq 0 d = take d hv.
Proof using All.
  apply list_eq. intros i. rewrite list_lookup_fmap. destruct (decide (i < d)) as [Hi|Hi].
  - rewrite lookup_seq_lt by done. rewrite lookup_take_lt by done. destruct (lookup_lt_is_Some_2 hv i) as [h Hh]; [lia|]. rewrite Hh.
    cbn. by rewrite (nth_lookup_Some _ _ _ _ Hh).
  - rewrite lookup_seq_ge, lookup_take_ge by lia. done.
Qed.

(** The matrix of the first [d] rows that are there has an inverse. *)
Let M := (fun i => row (GenEncodeMatrix d p) (nth i hv 0)) <$> seq 0 d.

Lemma M_row i : i < d -> row M i = row (GenEncodeMatrix d p) (nth i hv 0).
Proof using All. intros Hi. unfold M. rewrite (row_fmap _ _ i i); [done|]. by rewrite lookup_seq_lt. Qed.

Lemma M_invert : exists R, invert M = Ok R /\ length R = d /\ (forall l, l < d -> length (row R l) = d) /\
  forall l x, l < d -> length x = d -> dot (row R l) (apply M x) = elt x l.
Proof using All.
  apply invert_spec.
  - unfold M. by rewrite length_fmap, length_seq.
  - intros i Hi. rewrite M_row by done. apply length_generator_row. by apply have_row.
  - intros x Hx Hz. apply (generator_kernel d p (take d hv)); [done|rewrite length_take; lia| | |done|].
    + pose proof (NoDup_haves shards 0 (d + p)) as Hnd. fold hv in Hnd. rewrite <- (take_drop d hv) in Hnd. by apply NoDup_app in Hnd as [Hnd _].
    + apply Forall_take, Forall_forall. intros h [Hb _]%elem_of_haves. lia.
    + intros h Hh. rewrite <- nth_haves in Hh. apply list_elem_of_fmap in Hh as (i & -> & Hi%elem_of_seq). rewrite <- M_row by lia. apply Hz. lia.
Qed.

Let inrows := (fun i => slice_bytes (nth (nth i hv 0) shards None)) <$> seq 0 d.

Lemma inrows_row i : i < d -> row inrows i = row enc (nth i hv 0).
Proof using All.
  intros Hi. unfold inrows. rewrite (row_fmap _ _ i i) by (by rewrite lookup_seq_lt). destruct (have_row i Hi) as [_ ->]. done.
Qed.

Lemma length_inrows : length inrows = d.
Proof using All. unfold inrows. by rewrite length_fmap, length_seq. Qed.

Lemma sized_inrows : sized size inrows.
Proof using All.
  intros i Hi. rewrite length_inrows in Hi. rewrite inrows_row by done. apply sized_enc. unfold enc. rewrite length_app.
  destruct (have_row i Hi). lia.
Qed.

Lemma column_inrows t : t < size -> column inrows t = apply M (column rows t).
Proof using All.
  intros Ht. apply vec_eq; [unfold apply; rewrite length_column, length_inrows, length_fmap; unfold M; by rewrite length_fmap, length_seq|].
  intros i Hi. rewrite length_column, length_inrows in Hi. rewrite elt_column by (by rewrite length_inrows). rewrite inrows_row by done.
  destruct (have_row i Hi) as [Hh _]. rewrite Henc by done. rewrite <- M_row by done. unfold elt, apply. symmetry. apply nth_lookup_Some.
  rewrite list_lookup_fmap. unfold row, M. rewrite list_lookup_fmap, lookup_seq_lt by done. cbn. f_equal. f_equal. symmetry.
  apply nth_lookup_Some. by rewrite list_lookup_fmap, lookup_seq_lt.
Qed.

(** What is computed for the lost rows. *)
Lemma reconstData_spec :
  exists full, reconstData the_code shards size hv dl = Ok full /\ length full = d + p /\
    forall i, i < d -> full !! i = Some (Some (row rows i)).
Proof using All.
  unfold reconstData, genReconstMatrix. cbn [the_code data parity]. fold M. fold inrows.
  destruct M_invert as (R & HR & HlR & HwR & Hinv). fold M in HR. rewrite HR. cbn [obind].
  set (r' := {| data := d; parity := length dl; gen := (fun l => row R l) <$> dl |}).
  destruct (Encode_spec r' inrows ((fun _ => zeros size) <$> dl) size) as (ps & He & Hlp & Hps & Hc).
  { apply length_inrows. } { by rewrite length_fmap. } { done. } { done. } { apply sized_inrows. }
  { apply sized_forall, Forall_forall. intros x (l & -> & _)%list_elem_of_fmap. apply length_replicate. }
  { intros i Hi. cbn [r' gen data parity] in *. destruct (lookup_lt_is_Some_2 dl i Hi) as [l Hl]. rewrite (row_fmap _ _ _ l) by done.
    apply HwR. apply list_elem_of_lookup_2, elem_of_losts in Hl as (_ & _ & Hl). by apply Nat.ltb_lt. }
  cbn [r' data parity] in He. rewrite He. set (g := fun i => row (inrows ++ ps) (i + d)).
  assert (Hg : forall i l, (i, l) ∈ imap pair dl -> g i = row rows l /\ l < length shards).
  { intros i l Hi%elem_of_imap_pair. pose proof (lookup_lt_Some _ _ _ Hi) as Hil.
    pose proof Hi as Hl. apply list_elem_of_lookup_2, elem_of_losts in Hl as (Hlb & _ & Hl%Nat.ltb_lt). split; [|lia].
    unfold g. rewrite row_app_r by (rewrite length_inrows; lia). rewrite length_inrows, Nat.add_sub.
    apply vec_eq; [rewrite Hps, Hsr by (cbn [r' parity] in *; lia); done|]. intros t Ht. rewrite Hps in Ht by (cbn [r' parity] in *; lia).
    rewrite Hc by (cbn [r' parity]; lia). cbn [r' gen]. rewrite (row_fmap _ _ _ l) by done. rewrite column_inrows by done.
    rewrite Hinv by (rewrite ?length_column; lia). by rewrite elt_column by lia. }
  exists (foldl (fun sh '(i, l) => <[l := Some (g i)]> sh) shards (imap pair dl)). split; [done|].
  split; [by rewrite (proj1 (lookup_fill g (row rows) _ shards 0 Hg))|]. intros i Hi.
  rewrite (proj2 (lookup_fill g (row rows) _ shards i Hg)), imap_pair_snd. case_decide as Hx; [done|].
  assert (Hh : is_here shards i = true).
  { destruct (is_here shards i) eqn:E; [done|]. exfalso. apply Hx, elem_of_losts. split_and!; [lia|lia|done|by apply Nat.ltb_lt]. }
  destruct (lookup_lt_is_Some_2 shards i) as [x Hxs]; [lia|]. pose proof (shard_here i ltac:(lia) Hh) as Hn.
  rewrite (nth_lookup_Some _ _ _ _ Hxs) in Hn. rewrite Hxs, Hn. unfold enc. by rewrite row_app_l by lia.
Qed.
End Rows.

(** All rows of a partial set, as the library sees them. *)
Lemma ReconstructData_spec rows parities size got :
  length rows = d -> length parities = p -> sized size rows -> sized size parities -> 0 < size ->
  (forall i t, i < d + p -> t < size -> elt (row (rows ++ parities) i) t = dot (row (GenEncodeMatrix d p) i) (column rows t)) ->
  partial (rows ++ parities) got -> d <= present got ->
  exists full, ReconstructData the_code (nil_row <$> got) = Ok full /\ length full = d + p /\
    forall i, i < d -> full !! i = Some (Some (row rows i)).
Proof using All.
  intros Hr Hpl Hsr Hsp Hsz Henc [Hgl Hgot] Hpres. set (shards := nil_row <$> got). rewrite length_app in Hgl.
  assert (Hlen : length shards = d + p) by (unfold shards; rewrite length_fmap; lia).
  assert (Hsh : forall i b, shards !! i = Some (Some b) -> b = row (rows ++ parities) i /\ length b = size).
  { intros i b Hi. unfold shards in Hi. rewrite list_lookup_fmap in Hi. destruct (got !! i) as [x|] eqn:Hx; [|done]. cbn in Hi.
    injection Hi as Hi. destruct (Hgot i x Hx) as [->|He]; [done|]. assert (x = b) as -> by (destruct x; [done|by injection Hi]).
    unfold row. rewrite (nth_lookup_Some _ _ _ _ He). split; [done|].
    pose proof (sized_app size rows parities Hsr Hsp) as Hs. rewrite <- sized_forall, Forall_lookup in Hs. by eapply Hs. }
  assert (Hhv : d <= length (haves shards 0 (d + p))) by (unfold shards; rewrite present_haves, Hgl, Hr, Hpl in Hpres; exact Hpres).
  unfold ReconstructData, getReconstStat, CheckMatrixRows. cbn [the_code data parity]. rewrite Hlen, Nat.eqb_refl.
  destruct (stat_loop_spec shards size Hsz (fun i b Hi => proj2 (Hsh i b Hi)) shards 0
    {| have := []; dataLost := []; parityLost := []; RS.size := 0 |} (drop_0 _)) as (s & -> & H1 & H2 & H3 & H4); [by left|].
  cbn [have dataLost parityLost app obind] in *. rewrite Hlen in H1, H2, H3.
  pose proof (count_rows shards 0 (d + p)) as Hcount. rewrite <- H1, <- H2, <- H3 in Hcount. rewrite <- H1 in Hhv.
  assert (HsN : RS.size s = size) by (destruct H4 as [H4|H4]; [rewrite H4 in Hhv; cbn in Hhv; lia|done]).
  assert (Hdone : dataLost s = [] -> length shards = d + p /\ forall i, i < d -> shards !! i = Some (Some (row rows i))).
  { intros E. split; [done|]. intros i Hi. destruct (lookup_lt_is_Some_2 shards i) as [x Hx]; [lia|]. rewrite Hx.
    destruct x as [b|].
    - destruct (Hsh i b Hx) as [-> _]. by rewrite row_app_l by lia.
    - exfalso. rewrite H2 in E. assert (Hin : i ∈ losts shards 0 (d + p) (fun k => k <? d)).
      { apply elem_of_losts. unfold is_here. rewrite (nth_lookup_Some _ _ _ _ Hx). split_and!; [lia|lia|done|by apply Nat.ltb_lt]. }
      rewrite E in Hin. by apply not_elem_of_nil in Hin. }
  destruct (Nat.ltb_spec (length (have s)) d); [lia|].
  destruct (Nat.eqb_spec (length (dataLost s) + length (parityLost s)) 0) as [E0|E0].
  { rewrite bool_decide_eq_true_2 by done. exists shards. split; [done|]. apply Hdone, length_zero_iff_nil. lia. }
  destruct (Nat.ltb_spec p (length (dataLost s) + length (parityLost s))); [lia|]. rewrite andb_true_r.
  destruct (Nat.eqb_spec (length (have s) + length (parityLost s)) (d + p)) as [E1|E1].
  { rewrite bool_decide_eq_true_2 by done. exists shards. split; [done|]. apply Hdone, length_zero_iff_nil. lia. }
  destruct (Nat.ltb_spec 0 (length (dataLost s))); [|lia]. rewrite HsN, H1, H2. rewrite H1 in Hhv.
  eapply reconstData_spec; try done. intros i b Hi. by apply Hsh.
Qed.

(** What [Distributed] expects of an erasure code. *)
Lemma the_code_laws : ErasureCode (coder the_code) d p.
Proof using All.
  split.
  - intros rows size Hl Hs Hsz. apply sized_forall in Hs. destruct (encode_rows_law rows size Hl Hs Hsz) as (ps & He & Hlp & Hsp & _).
    exists ps. split_and!; [done|done|by apply sized_forall].
  - intros rows size parities got Hl Hs Hsz He Hpart Hpres. apply sized_forall in Hs.
    destruct (encode_rows_law rows size Hl Hs Hsz) as (ps & He' & Hlp & Hsp & Henc). cbn [coder er_Encode] in He. rewrite He in He'.
    injection He' as Heq. apply (app_inv_head rows) in Heq as ->.
    destruct (ReconstructData_spec rows ps size got Hl Hlp Hs Hsp Hsz Henc Hpart Hpres) as (full & Hf & Hlf & Hrow).
    exists (slice_bytes <$> full). split; [cbn [coder er_ReconstructData]; by rewrite Hf|].
    apply list_eq. intros i. destruct (decide (i < d)) as [Hi|Hi].
    + rewrite lookup_take_lt, list_lookup_fmap, Hrow by done. cbn. destruct (lookup_lt_is_Some_2 rows i) as [x Hx]; [lia|].
      rewrite Hx. unfold row. by rewrite (nth_lookup_Some _ _ _ _ Hx).
    + rewrite lookup_take_ge by lia. symmetry. apply lookup_ge_None_2. lia.
Qed.
End Code.

(** The constructor that a configuration is given, for [System]: whatever it
    makes is an erasure code. *)
Definition NewReedSolomon (d p : Z) : outcome EncodeReconster := let! r := RS.New d p in Ok (coder r).

Lemma library_code d p er : NewReedSolomon d p = Ok er -> ErasureCode er (Z.to_nat d) (Z.to_nat p).
Proof.
  unfold NewReedSolomon, RS.New, checkShards. destruct (Z.leb_spec d 0); [done|]. destruct (Z.leb_spec p 0); [done|]. cbn [orb].
  destruct (Z.leb_spec 255 (d + p)); [done|]. cbn [obind]. intros [= <-]. apply the_code_laws; lia.
Qed.

