(* ===== verification/Pipeline.v ===== *)
(** * Pipelines ([client/datastor/pipeline])

    A pipeline splits what it reads into chunks, hashes and processes them, and
    hands them to a chunk storage; reading goes the other way and checks the
    hashes.  [SingleObject] models the sequential pipeline, [AsyncSplitter] the
    parallel one.  What the goroutines leave open is an argument of the
    operation: [first] is the order in which the tasks reach the storage,
    [second] the order in which the last stage receives the results, [extra] the
    number of tasks that are still attempted after a first error, and [race]
    says which of two errors is reported when two stages fail.  The hasher and
    the processor are parameters. *)

From stdpp Require Import pretty.
From S2P Require Import Prelude Encoding Spread.
Open Scope nat_scope.

(** ** Data and interfaces *)

(** [metatypes.Chunk] *)
Record Chunk := { ch_Size : Z; ch_Objects : list MetaObject; ch_Hash : bytes }.

(** [storage.ChunkStorage] *)
Class ChunkStorage (W : Type) := {
  WriteChunk : bytes -> prog W ChunkConfig;
  ReadChunk : ChunkConfig -> prog W bytes;
  CheckChunk : ChunkConfig -> bool -> prog W CheckStatus;
  RepairChunk : ChunkConfig -> prog W ChunkConfig;
  DeleteChunk : ChunkConfig -> prog W unit;
}.

(** [chunk_at w cfg d]: the chunk [cfg] is stored, with the data [d].
    [storage_good n w]: the storage is in order and has room for [n] more
    chunks.  [ready]: enough of what the storage depends on can be reached.  What
    is stored stays stored while more is written or read; a read gives back the
    data or fails, and does not fail when the storage is ready. *)
Class ChunkStorageLaws (W : Type) `{ChunkStorage W} := {
  storage_good : nat -> W -> Prop;
  chunk_at : W -> ChunkConfig -> bytes -> Prop;
  ready : Prop;
  storage_less n w : storage_good (S n) w -> storage_good n w;
  write_law d w r w' n : WriteChunk d w = (r, w') -> storage_good (S n) w ->
    storage_good n w' /\ (forall cfg' d', chunk_at w cfg' d' -> chunk_at w' cfg' d') /\
    (forall cfg, r = Ok cfg -> chunk_at w' cfg d);
  read_law cfg d w r w' n : ReadChunk cfg w = (r, w') -> chunk_at w cfg d -> storage_good n w ->
    storage_good n w' /\ (forall cfg' d', chunk_at w cfg' d' -> chunk_at w' cfg' d') /\
    no_panic r /\ (forall x, r = Ok x -> x = d) /\ (ready -> r = Ok d);
}.

(** A chunk of which every object has a key, and chunks without a common object. *)
Definition named (cfg : ChunkConfig) : Prop := Forall (fun o => mo_Key o <> []) (cfg_Objects cfg).

Definition apart (cfg cfg' : ChunkConfig) : Prop := forall o, o ∈ cfg_Objects cfg -> o ∉ cfg_Objects cfg'.

(** Who uses which objects.  [taken w o]: the object was given out by a write
    before.  New chunks consist of new objects; no call touches the chunks that
    are apart from its own, also when the chunk it is called with is damaged or
    gone; a repair gives a chunk of the same data.  [full]: everything the
    storage depends on can be reached. *)
Class ChunkStorageOwn (W : Type) `{ChunkStorageLaws W} := {
  taken : W -> MetaObject -> Prop;
  full : Prop;
  write_own d w r w' n : WriteChunk d w = (r, w') -> storage_good (S n) w ->
    (forall o, taken w o -> taken w' o) /\
    (forall cfg o, r = Ok cfg -> o ∈ cfg_Objects cfg -> mo_Key o <> [] /\ ~ taken w o /\ taken w' o);
  read_own cfg w r w' n : ReadChunk cfg w = (r, w') -> named cfg -> storage_good n w ->
    storage_good n w' /\ (forall cfg' d', chunk_at w cfg' d' -> chunk_at w' cfg' d') /\ (forall o, taken w o -> taken w' o);
  check_own cfg fast w r w' n : CheckChunk cfg fast w = (r, w') -> named cfg -> storage_good n w ->
    storage_good n w' /\ (forall cfg' d', chunk_at w cfg' d' -> chunk_at w' cfg' d') /\ (forall o, taken w o -> taken w' o);
  check_law cfg d fast w r w' n : CheckChunk cfg fast w = (r, w') -> chunk_at w cfg d -> storage_good n w ->
    (ready -> exists st, r = Ok st /\ st <> CheckStatusInvalid) /\ (full -> fast = false -> r = Ok CheckStatusOptimal);
  repair_own cfg w r w' n : RepairChunk cfg w = (r, w') -> named cfg -> storage_good (S n) w ->
    storage_good n w' /\ (forall cfg' d', chunk_at w cfg' d' -> chunk_at w' cfg' d') /\ (forall o, taken w o -> taken w' o) /\
    (forall cfg', r = Ok cfg' ->
       (forall o, o ∈ cfg_Objects cfg' -> mo_Key o <> [] /\ (o ∈ cfg_Objects cfg \/ ~ taken w o /\ taken w' o)) /\
       (forall d, chunk_at w cfg d -> chunk_at w' cfg' d));
  delete_own cfg w r w' n : DeleteChunk cfg w = (r, w') -> named cfg -> storage_good n w ->
    storage_good n w' /\ (forall o, taken w o -> taken w' o) /\
    (forall cfg' d', chunk_at w cfg' d' -> apart cfg cfg' -> chunk_at w' cfg' d');
}.

(** [processing.Processor]; the copies that the pipeline makes when a
    processor shares its buffer keep the values apart, so processing is a
    function on values. *)
Record Processor := { WriteProcess : bytes -> outcome bytes; ReadProcess : bytes -> outcome bytes }.

(** The hasher and processor constructors of a pipeline. *)
Record Config := {
  hasher : outcome (bytes -> bytes);
  processor : outcome Processor;
}.

Definition NopProcessor : Processor := {| WriteProcess := Ok; ReadProcess := Ok |}.

Definition DefaultProcessorConstructor : outcome Processor := Ok NopProcessor.

(** What both pipeline constructors make of the two optional constructors. *)
Definition NewConfig (defaultHasher : outcome (bytes -> bytes)) (pc : option (outcome Processor))
    (hc : option (outcome (bytes -> bytes))) : Config :=
  {| hasher := default defaultHasher hc; processor := default DefaultProcessorConstructor pc |}.

Definition chunk_cfg (c : Chunk) : ChunkConfig := {| cfg_Size := ch_Size c; cfg_Objects := ch_Objects c |}.

Definition chunk_of (c : ChunkConfig) (hash : bytes) : Chunk :=
  {| ch_Size := cfg_Size c; ch_Objects := cfg_Objects c; ch_Hash := hash |}.

Definition EOF := Encoding.Buffer.EOF.

Definition errUnexpectedChunkCount :=
  ErrVar "pipeline" "errUnexpectedChunkCount"
    "unexpected chunk count, SingleObjectPipeline requires one and only one chunk".
Definition errInvalidCheckStatus := ErrVar "pipeline" "errInvalidCheckStatus" "invalid check status".

(** [io.Writer], with its own state; what it was given before an error stays. *)
Definition Writer (Out : Type) := Out -> bytes -> Out * option error.

(** A program that fails before anything is written. *)
Definition or_fail {W A Out} (out : Out) (m : prog W A) (k : A -> prog W (Out * option error))
  : prog W (Out * option error) :=
  fun w => match m w with
           | (Ok a, w1) => k a w1
           | (Err e, w1) => (Ok (out, Some e), w1)
           | (Panic p, w1) => (Panic p, w1)
           end.

(** ** Workers over a channel of tasks

    The tasks are run in the given order; after the first error at most [extra]
    more are.  The results and the first error. *)
Fixpoint par {W A B} (extra : nat) (f : A -> prog W B) (l : list A) (err : option error)
  : prog W (list B * option error) :=
  match l with
  | [] => pret ([], err)
  | a :: rest =>
      match err, extra with
      | Some _, O => pret ([], err)
      | _, _ =>
          let extra' := match err with Some _ => extra - 1 | None => extra end in
          fun w =>
            match f a w with
            | (Ok b, w1) => (do! r := par extra' f rest err in pret (b :: r.1, r.2)) w1
            | (Err e, w1) => par extra' f rest (match err with Some _ => err | None => Some e end) w1
            | (Panic p, w1) => (Panic p, w1)
            end
      end
  end.

Lemma par_failed {W A B} extra (f : A -> prog W B) l e w r w' :
  par extra f l (Some e) w = (Ok r, w') -> r.2 = Some e.
Proof.
  revert extra w r w'; induction l as [|a l IH]; intros extra w r w'; cbn [par]; [by intros [= <- _]|].
  destruct extra as [|n]; [by intros [= <- _]|].
  destruct (f a w) as [[b|e'|p] w1]; [|apply IH|done]. unfold pbind, pret.
  destruct (par (S n - 1) f l (Some e) w1) as [[r'|e2|p2] w2] eqn:E; [|done..]. intros [= <- _]. cbn [snd]. by eapply IH.
Qed.

(** A run without error, with a property of the results that later tasks keep;
    every task may use up one unit of what [I] counts. *)
Lemma par_ok {W A B} (I : nat -> W -> Prop) (P : W -> A -> B -> Prop) extra (f : A -> prog W B) n l w bs w' :
  (forall n a b w w', a ∈ l -> f a w = (Ok b, w') -> I (S n) w ->
     I n w' /\ P w' a b /\ (forall a' b', P w a' b' -> P w' a' b')) ->
  par extra f l None w = (Ok (bs, None), w') -> I (length l + n) w ->
  I n w' /\ Forall2 (P w') l bs /\ (forall a' b', P w a' b' -> P w' a' b').
Proof.
  revert w bs; induction l as [|a l IH]; intros w bs Hf; cbn [par].
  { intros [= <- <-] Hi. split_and!; [done|constructor|done]. }
  destruct (f a w) as [[b|e|p] w1] eqn:E; [|intros Hx; by apply par_failed in Hx|done].
  unfold pbind, pret. destruct (par extra f l None w1) as [[[bs' err]|e2|p2] w2] eqn:E2; [|done..].
  cbn [fst snd length]. intros [= <- -> <-] Hi. destruct (Hf _ _ _ _ _ (list_elem_of_here _ _) E Hi) as (Hi1 & Hb & Hk).
  destruct (IH w1 bs') as (Hi2 & Hall & Hk2); [|done..|].
  { intros ? a' ? ? ? Ha'. apply Hf. by apply list_elem_of_further. } split_and!; [done|constructor; auto|auto].
Qed.

(** However a run ends, it keeps what its tasks keep. *)
Lemma par_frame {W A B} (I : nat -> W -> Prop) extra (f : A -> prog W B) n l err w r w' :
  (forall n w, I (S n) w -> I n w) -> (forall n a w, a ∈ l -> I (S n) w -> I n (f a w).2) ->
  par extra f l err w = (r, w') -> I (length l + n) w -> I n w'.
Proof.
  intros Hless. assert (Hall : forall k w, I (k + n) w -> I n w) by (induction k as [|k IH]; cbn; auto).
  revert extra err w r; induction l as [|a l IH]; intros extra err w r Hf; cbn [par].
  { intros [= _ <-]. apply (Hall 0). }
  assert (Hcont : forall extra' err', match f a w with
      | (Ok b, w1) => (do! r := par extra' f l err in pret (b :: r.1, r.2)) w1
      | (Err e, w1) => par extra' f l (err' e) w1
      | (Panic p, w1) => (Panic p, w1)
      end = (r, w') -> I (length (a :: l) + n) w -> I n w').
  { assert (Hf' : forall n a w, a ∈ l -> I (S n) w -> I n (f a w).2).
    { intros ? a' ? Ha'. apply Hf. by apply list_elem_of_further. }
    intros extra' err' Hr Hi. cbn [length Nat.add] in Hi. apply (Hf _ a) in Hi; [|apply list_elem_of_here].
    destruct (f a w) as [[b|e|p] w1]; cbn [snd] in Hi.
    - unfold pbind, pret in Hr. destruct (par extra' f l err w1) as [[x|e|p] w2] eqn:E; injection Hr as _ <-; by eapply IH.
    - by eapply IH.
    - injection Hr as _ <-. by eapply Hall. }
  destruct err as [e0|]; [destruct extra as [|k]|].
  - intros [= _ <-]. apply Hall.
  - apply (Hcont (S k - 1) (fun _ => Some e0)).
  - apply (Hcont extra Some).
Qed.

(** Tasks that do not panic give results or an error, and no error when none of
    them can fail. *)
Lemma par_sound {W A B} (I : W -> Prop) (P : A -> B -> Prop) extra (f : A -> prog W B) l err w :
  (forall a w r w', a ∈ l -> I w -> f a w = (r, w') -> no_panic r /\ I w' /\ (forall b, r = Ok b -> P a b)) -> I w ->
  exists bs err' w', par extra f l err w = (Ok (bs, err'), w') /\ I w' /\ (err' = None -> Forall2 P l bs) /\
    (err = None -> (forall a w, a ∈ l -> I w -> exists b w', f a w = (Ok b, w')) -> err' = None).
Proof.
  revert extra err w; induction l as [|a l IH]; intros extra err w Hf Hi; cbn [par].
  { exists [], err, w. split_and!; try done. }
  destruct (f a w) as [r w1] eqn:E. destruct (Hf a w r w1 (list_elem_of_here _ _) Hi E) as (Hnp & Hi1 & Hb).
  assert (Hf' : forall a w r w', a ∈ l -> I w -> f a w = (r, w') -> no_panic r /\ I w' /\ (forall b, r = Ok b -> P a b)).
  { intros a' w0 r' w' Ha'. apply Hf. by apply list_elem_of_further. }
  assert (Hgo : forall x, exists bs err' w',
    match r with
    | Ok b => (do! r := par x f l err in pret (b :: r.1, r.2)) w1
    | Err e => par x f l (match err with Some _ => err | None => Some e end) w1
    | Panic p => (Panic p, w1)
    end = (Ok (bs, err'), w') /\ I w' /\ (err' = None -> Forall2 P (a :: l) bs) /\
    (err = None -> (forall a' w, a' ∈ a :: l -> I w -> exists b w', f a' w = (Ok b, w')) -> err' = None)).
  { intros x. destruct r as [b|e|p]; [| |done].
    - destruct (IH x err w1 Hf' Hi1) as (bs & err' & w' & Hp & Hi' & Hall & Hno). exists (b :: bs), err', w'.
      rewrite (pbind_Ok _ _ _ _ _ Hp). split_and!; [done|done| |].
      + intros En. constructor; auto.
      + intros En Hs. apply Hno; [done|]. intros a' w0 Ha'. apply Hs. by apply list_elem_of_further.
    - destruct (IH x (match err with Some _ => err | None => Some e end) w1 Hf' Hi1) as (bs & err' & w' & Hp & Hi' & _ & _).
      assert (Hse : exists e', err' = Some e') by (destruct err as [e0|]; apply par_failed in Hp; cbn in Hp; by eexists).
      destruct Hse as [e' ->]. exists bs, (Some e'), w'. split_and!; try done.
      intros _ Hs. destruct (Hs a w (list_elem_of_here _ _) Hi) as (b & w2 & Hx). by rewrite E in Hx. }
  destruct err as [e0|]; [destruct extra as [|x]|].
  - exists [], (Some e0), w. by split_and!.
  - destruct (Hgo (S x - 1)) as (bs & err' & w' & Hp & Hrest). exists bs, err', w'. split; [|exact Hrest]. rewrite <- Hp, E. by destruct r.
  - destruct (Hgo extra) as (bs & err' & w' & Hp & Hrest). exists bs, err', w'. split; [|exact Hrest]. rewrite <- Hp, E. by destruct r.
Qed.

(** ** The sequential pipeline *)
Module SingleObject.
Section SingleObject.
Context `{ChunkStorage W} (cfg : Config).

(** [r] is what [ioutil.ReadAll] makes of the reader, if one is given. *)
Definition Write (r : option (outcome bytes)) : prog W (list Chunk) :=
  match r with
  | None => pfail (ErrNew "no reader given to read from")
  | Some input =>
      do! hash := plift (hasher cfg) in
      do! proc := plift (processor cfg) in
      do! input := plift input in
      do! data := plift (WriteProcess proc input) in
      do! c := WriteChunk data in
      pret [chunk_of c (hash input)]
  end.

Definition Read {Out} (chunks : list Chunk) (w : option (Writer Out)) (out : Out) : prog W (Out * option error) :=
  match chunks with
  | [c] =>
      match w with
      | None => pret (out, Some (ErrNew "nil writer"))
      | Some wr =>
          or_fail out
            (do! hash := plift (hasher cfg) in
             do! proc := plift (processor cfg) in
             do! data := ReadChunk (chunk_cfg c) in
             do! data := plift (ReadProcess proc data) in
             if negb (bool_decide (ch_Hash c = hash data))
             then pfail (ErrNew "object chunk's data and hash do not match")
             else pret data)
            (fun data => pret (wr out data))
      end
  | _ => pret (out, Some errUnexpectedChunkCount)
  end.

Definition Check (chunks : list Chunk) (fast : bool) : prog W CheckStatus :=
  match chunks with
  | [c] => CheckChunk (chunk_cfg c) fast
  | _ => pfail errUnexpectedChunkCount
  end.

Definition Repair (chunks : list Chunk) : prog W (list Chunk) :=
  match chunks with
  | [c] => do! r := RepairChunk (chunk_cfg c) in pret [chunk_of r (ch_Hash c)]
  | _ => pfail errUnexpectedChunkCount
  end.

Definition Delete (chunks : list Chunk) : prog W unit :=
  match chunks with
  | [c] => DeleteChunk (chunk_cfg c)
  | _ => pfail errUnexpectedChunkCount
  end.
End SingleObject.
End SingleObject.

(** ** The parallel pipeline *)
Module AsyncSplitter.

Record AsyncSplitterPipeline := {
  config : Config;
  storageJobCount : nat;
  processorJobCount : nat;
  chunkSize : Z;
}.

Definition NewAsyncSplitterPipeline (DefaultJobCount : nat) (defaultHasher : outcome (bytes -> bytes))
    (chunkSize : Z) (pc : option (outcome Processor)) (hc : option (outcome (bytes -> bytes))) (jobCount : Z)
  : outcome AsyncSplitterPipeline :=
  if (chunkSize <=? 0)%Z then Panic "chunk size has to be positive"
  else
    let jobCount := if (jobCount <=? 0)%Z then DefaultJobCount else Z.to_nat jobCount in
    Ok {| config := NewConfig defaultHasher pc hc; storageJobCount := jobCount * 2;
          processorJobCount := jobCount; chunkSize := chunkSize |}.

(** What the successive [Read] calls of an [io.Reader] return, for buffers of
    the chunk size: the bytes and the error.  After them the reader is at its
    end. *)
Definition Reader := list (bytes * option error).

(** [newAsyncDataSplitter]: every read without error is a chunk, [io.EOF] ends
    the data, another error is the splitter's; bytes that come together with an
    error are not used. *)
Fixpoint splitter (r : Reader) : list (outcome bytes) :=
  match r with
  | [] => []
  | (data, None) :: r' => Ok data :: splitter r'
  | (_, Some e) :: _ => if bool_decide (e = EOF) then [] else [Err e]
  end.

(** The state of the collector of [Write]: the buffer, its size, the number of
    chunks received and the length of the result so far. *)
Record collector := { c_chunks : list Chunk; c_buffer : nat; c_received : nat; c_size : nat }.

Definition no_chunk : Chunk := {| ch_Size := 0; ch_Objects := []; ch_Hash := [] |}.

Definition collect1 (s : collector) (ic : nat * Chunk) : collector :=
  let '(index, chunk) := ic in
  let bufferSize := if (c_buffer s <=? index) then index + c_buffer s * 2 else c_buffer s in
  let chunks := if (c_buffer s <=? index)
                then c_chunks s ++ replicate (bufferSize - length (c_chunks s)) no_chunk
                else c_chunks s in
  {| c_chunks := <[index := chunk]> chunks; c_buffer := bufferSize; c_received := S (c_received s);
     c_size := if (c_size s <=? index) then S index else c_size s |}.

Definition collect_chunks (storageJobCount : nat) (arrived : list (nat * Chunk)) : outcome (list Chunk) :=
  let s := foldl collect1 {| c_chunks := replicate storageJobCount no_chunk; c_buffer := storageJobCount;
                             c_received := 0; c_size := 0 |} arrived in
  if negb (c_received s =? c_size s) then Err (ErrNew "not all chunks were received")
  else Ok (take (c_size s) (c_chunks s)).

(** The composer of [Read]: chunks that are not expected yet are buffered. *)
Record composer (Out : Type) := { co_out : Out; co_expected : nat; co_buffer : gmap nat bytes }.
Arguments co_out {Out}.
Arguments co_expected {Out}.
Arguments co_buffer {Out}.

Section Composer.
Context {Out : Type} (wr : Writer Out).

(** The inner loop; every round but the first takes one entry of the buffer. *)
Fixpoint flush (fuel : nat) (data : bytes) (s : composer Out) : composer Out * option error :=
  match fuel with
  | O => (s, None)
  | S fuel' =>
      match wr (co_out s) data with
      | (out, Some e) => ({| co_out := out; co_expected := co_expected s; co_buffer := co_buffer s |}, Some e)
      | (out, None) =>
          let s := {| co_out := out; co_expected := S (co_expected s); co_buffer := co_buffer s |} in
          match co_buffer s !! co_expected s with
          | Some data => flush fuel' data s
          | None => (s, None)
          end
      end
  end.

Definition compose1 (s : composer Out) (output : nat * bytes) : composer Out * option error :=
  let '(index, data) := output in
  if negb (index =? co_expected s)
  then ({| co_out := co_out s; co_expected := co_expected s; co_buffer := <[index := data]> (co_buffer s) |}, None)
  else flush (S (size (co_buffer s))) data s.

Fixpoint compose (s : composer Out) (arrived : list (nat * bytes)) : composer Out * option error :=
  match arrived with
  | [] => (s, None)
  | output :: rest =>
      match compose1 s output with
      | (s', None) => compose s' rest
      | (s', Some e) => (s', Some e)
      end
  end.
End Composer.

Section AsyncSplitter.
Context `{ChunkStorage W} (asp : AsyncSplitterPipeline).

Definition Write (extra : nat) (race : bool) (first : list (nat * outcome bytes) -> list (nat * outcome bytes))
    (second : list (nat * Chunk) -> list (nat * Chunk)) (r : option Reader) : prog W (list Chunk) :=
  match r with
  | None => pfail (ErrNew "no reader given to read from")
  | Some r =>
      do! hash := plift (hasher (config asp)) in
      do! proc := plift (processor (config asp)) in
      do! stored := par extra (fun '(index, input) =>
          do! input := plift input in
          do! data := plift (WriteProcess proc input) in
          do! c := WriteChunk data in
          pret (index, chunk_of c (hash input)))
        (first (imap pair (splitter r))) None in
      match stored.2, collect_chunks (storageJobCount asp) (second stored.1) with
      | None, chunks => plift chunks
      | Some e, Err e' => pfail (if race then e' else e)
      | Some e, _ => pfail e
      end
  end.

Definition Read {Out} (extra : nat) (race : bool)
    (first : list (nat * Chunk) -> list (nat * Chunk)) (second : list (nat * bytes) -> list (nat * bytes))
    (chunks : list Chunk) (w : option (Writer Out)) (out : Out) : prog W (Out * option error) :=
  match chunks with
  | [] => pret (out, Some (ErrNew "no chunks given to read"))
  | [_] => SingleObject.Read (config asp) chunks w out
  | _ =>
      match w with
      | None => pret (out, Some (ErrNew "no writer given to write to"))
      | Some wr =>
          match (let! hash := hasher (config asp) in let! proc := processor (config asp) in Ok (hash, proc)) with
          | Ok (hash, proc) =>
              do! outputs := par extra (fun '(index, c) =>
                  do! data := ReadChunk (chunk_cfg c) in
                  do! data := plift (ReadProcess proc data) in
                  if negb (bool_decide (ch_Hash c = hash data))
                  then pfail (ErrNew ("object chunk #" +:+ pretty index +:+ "'s data and hash do not match"))
                  else pret (index, data))
                (first (imap pair chunks)) None in
              let '(s, werr) := compose wr {| co_out := out; co_expected := 0; co_buffer := ∅ |} (second outputs.1) in
              pret (co_out s, if race then union werr outputs.2 else union outputs.2 werr)
          | Err e =>
              (* the storage goroutines have started *)
              do! _ := par extra (fun ic => ReadChunk (chunk_cfg ic.2)) (first (imap pair chunks)) (Some e) in
              pret (out, Some e)
          | Panic p => ppanic p
          end
      end
  end.

Definition Check (extra : nat) (first : list Chunk -> list Chunk) (chunks : list Chunk) (fast : bool)
  : prog W CheckStatus :=
  match chunks with
  | [] => pfail (ErrNew "no chunks given to check")
  | [_] => SingleObject.Check chunks fast
  | _ =>
      do! results := par extra (fun c =>
          do! status := CheckChunk (chunk_cfg c) fast in
          if bool_decide (status = CheckStatusInvalid) then pfail errInvalidCheckStatus
          else pret (bool_decide (status = CheckStatusOptimal))) (first chunks) None in
      match results.2 with
      | None => pret (if forallb id results.1 then CheckStatusOptimal else CheckStatusValid)
      | Some e => if bool_decide (e = errInvalidCheckStatus) then pret CheckStatusInvalid else pfail e
      end
  end.

Definition Repair (extra : nat) (first : list (nat * Chunk) -> list (nat * Chunk)) (chunks : list Chunk)
  : prog W (list Chunk) :=
  match chunks with
  | [] => pfail (ErrNew "no chunks given to repair")
  | [_] => SingleObject.Repair chunks
  | _ =>
      do! results := par extra (fun '(index, c) =>
          do! r := RepairChunk (chunk_cfg c) in pret (index, chunk_of r (ch_Hash c)))
        (first (imap pair chunks)) None in
      match results.2 with
      | None => pret (foldl (fun out r => <[r.1 := r.2]> out) (replicate (length chunks) no_chunk) results.1)
      | Some e => pfail e
      end
  end.

Definition Delete (extra : nat) (first : list Chunk -> list Chunk) (chunks : list Chunk) : prog W unit :=
  match chunks with
  | [] => pfail (ErrNew "no chunks given to delete")
  | [_] => SingleObject.Delete chunks
  | _ =>
      do! results := par extra (fun c => DeleteChunk (chunk_cfg c)) (first chunks) None in
      match results.2 with None => pret tt | Some e => pfail e end
  end.
End AsyncSplitter.

(** *** The collector restores the order *)
Definition collected (arrived : list (nat * Chunk)) (s : collector) : Prop :=
  length (c_chunks s) = c_buffer s /\ 0 < c_buffer s /\ c_received s = length arrived /\
  (forall i c, (i, c) ∈ arrived -> c_chunks s !! i = Some c) /\
  (forall i, i ∈ arrived.*1 -> i < c_size s) /\
  (c_size s = 0 \/ c_size s - 1 ∈ arrived.*1).

Lemma collect1_spec arrived s i c :
  collected arrived s -> i ∉ arrived.*1 -> collected (arrived ++ [(i, c)]) (collect1 s (i, c)).
Proof.
  intros (Hlen & Hpos & Hrec & Hat & Hlt & Hmax) Hni. unfold collected, collect1.
  cbn [c_chunks c_buffer c_received c_size].
  set (chunks := if c_buffer s <=? i then _ else _).
  assert (Hl : length chunks = if c_buffer s <=? i then i + c_buffer s * 2 else c_buffer s).
  { unfold chunks. destruct (Nat.leb_spec (c_buffer s) i); [|done]. rewrite length_app, length_replicate. lia. }
  assert (Hi : i < length chunks) by (rewrite Hl; destruct (Nat.leb_spec (c_buffer s) i); lia).
  assert (Hold : forall j c', (j, c') ∈ arrived -> chunks !! j = Some c').
  { intros j c' Hj. apply Hat in Hj. unfold chunks. destruct (c_buffer s <=? i); [|done].
    rewrite lookup_app_l; [done|]. by eapply lookup_lt_Some. }
  rewrite length_insert, length_app, fmap_app. cbn [fmap list_fmap fst]. split_and!.
  - rewrite Hl. by destruct (c_buffer s <=? i).
  - destruct (Nat.leb_spec (c_buffer s) i); lia.
  - cbn. lia.
  - intros j c' Hj. apply elem_of_app in Hj as [Hj|Hj].
    + rewrite list_lookup_insert_ne; [by apply Hold|]. intros ->. apply Hni, list_elem_of_fmap. by exists (j, c').
    + apply list_elem_of_singleton in Hj as [= -> ->]. by rewrite list_lookup_insert_eq.
  - intros j Hj. apply elem_of_app in Hj as [Hj|Hj].
    + apply Hlt in Hj. destruct (Nat.leb_spec (c_size s) i); lia.
    + apply list_elem_of_singleton in Hj as ->. destruct (Nat.leb_spec (c_size s) i); lia.
  - right. destruct (Nat.leb_spec (c_size s) i).
    + replace (S i - 1) with i by lia. apply elem_of_app. right. by apply list_elem_of_singleton.
    + destruct Hmax as [Hm|Hm]; [lia|]. apply elem_of_app. by left.
Qed.

Lemma collect_fold arrived pre s :
  collected pre s -> NoDup ((pre ++ arrived).*1) -> collected (pre ++ arrived) (foldl collect1 s arrived).
Proof.
  revert pre s; induction arrived as [|[i c] arrived IH]; intros pre s Hs Hnd; cbn [foldl]; [by rewrite app_nil_r|].
  replace (pre ++ (i, c) :: arrived) with ((pre ++ [(i, c)]) ++ arrived) in * by (by rewrite <- app_assoc).
  apply IH; [|done]. apply collect1_spec; [done|]. rewrite !fmap_app in Hnd.
  apply NoDup_app in Hnd as [Hnd _]. apply NoDup_app in Hnd as (_ & Hd & _). intros Hin. apply (Hd i Hin). set_solver.
Qed.

Lemma imap_pair_lookup {A} (l : list A) i x : (i, x) ∈ imap pair l <-> l !! i = Some x.
Proof.
  rewrite list_elem_of_lookup. setoid_rewrite list_lookup_imap. split.
  - intros (k & Hk). destruct (l !! k) eqn:E; [|done]. by injection Hk as -> ->.
  - intros Hi. exists i. by rewrite Hi.
Qed.

Lemma imap_pair_fst {A} (l : list A) : (imap pair l).*1 = seq 0 (length l).
Proof.
  rewrite fmap_imap. apply list_eq. intros i. rewrite list_lookup_imap.
  destruct (decide (i < length l)) as [Hi|Hi].
  - rewrite lookup_seq_lt by done. by destruct (lookup_lt_is_Some_2 l i Hi) as [p ->].
  - rewrite lookup_seq_ge by lia. by rewrite lookup_ge_None_2 by lia.
Qed.

(** Whatever the order of arrival, the collector returns the chunks in order. *)
Lemma collect_chunks_spec jobs arrived chunks :
  0 < jobs -> arrived ≡ₚ imap pair chunks -> collect_chunks jobs arrived = Ok chunks.
Proof.
  intros Hj Hp. assert (Hidx : arrived.*1 ≡ₚ seq 0 (length chunks)) by (rewrite Hp; by rewrite imap_pair_fst).
  assert (Hlen : length arrived = length chunks) by (rewrite Hp; apply length_imap).
  unfold collect_chunks. set (s0 := {| c_chunks := _; c_buffer := _; c_received := _; c_size := _ |}).
  assert (H0 : collected [] s0).
  { unfold collected, s0. cbn. rewrite length_replicate. split_and!; try done; [| |by left].
    all: intros *; intros Hi; by apply not_elem_of_nil in Hi. }
  destruct (collect_fold arrived [] s0 H0) as (Hl & _ & Hr & Hat & Hlt & Hmax).
  { cbn [app]. rewrite Hidx. apply NoDup_seq. }
  cbn [app] in *. set (s := foldl collect1 s0 arrived) in *.
  assert (Hsize : c_size s = length chunks).
  { destruct Hmax as [E|Hin].
    - destruct (length chunks) as [|n] eqn:El; [done|]. specialize (Hlt n). rewrite Hidx, elem_of_seq in Hlt. lia.
    - destruct (decide (c_size s = 0)) as [E|E].
      + rewrite E in *. destruct (length chunks) as [|n] eqn:El; [done|].
        specialize (Hlt n). rewrite Hidx, elem_of_seq in Hlt. lia.
      + rewrite Hidx, elem_of_seq in Hin. destruct (length chunks) as [|n] eqn:El; [lia|].
        specialize (Hlt n). rewrite Hidx, elem_of_seq in Hlt. lia. }
  rewrite Hr, Hsize, Hlen, Nat.eqb_refl. cbn [negb]. f_equal. apply list_eq. intros i.
  destruct (decide (i < length chunks)) as [Hi|Hi].
  - rewrite lookup_take_lt by done. destruct (lookup_lt_is_Some_2 chunks i Hi) as [c Hc]. rewrite Hc. apply Hat.
    rewrite Hp. by apply imap_pair_lookup.
  - rewrite lookup_take_ge by lia. by rewrite lookup_ge_None_2 by lia.
Qed.

(** *** The composer writes in order *)
Definition append : Writer bytes := fun out d => (out ++ d, None).

Definition composed (out0 : bytes) (datas : list bytes) (s : composer bytes) : Prop :=
  co_out s = out0 ++ concat (take (co_expected s) datas) /\ co_expected s <= length datas /\
  co_buffer s !! co_expected s = None /\ (forall i d, co_buffer s !! i = Some d -> datas !! i = Some d).

(** The inner loop writes the expected chunk and the buffered ones after it. *)
Lemma flush_spec out0 datas fuel data s :
  co_out s = out0 ++ concat (take (co_expected s) datas) ->
  datas !! co_expected s = Some data -> (forall i d, co_buffer s !! i = Some d -> datas !! i = Some d) ->
  size (filter (fun i => co_expected s < i) (dom (co_buffer s))) < fuel ->
  exists s', flush append fuel data s = (s', None) /\ composed out0 datas s' /\
    co_buffer s' = co_buffer s /\ co_expected s < co_expected s' /\
    (forall k, co_expected s < k < co_expected s' -> is_Some (co_buffer s !! k)).
Proof.
  revert data s; induction fuel as [|fuel IH]; intros data s Hout Hd Hb Hf; [lia|].
  cbn [flush append]. set (s1 := {| co_out := _; co_expected := _; co_buffer := _ |}).
  assert (Hout1 : co_out s1 = out0 ++ concat (take (co_expected s1) datas)).
  { cbn [co_out co_expected s1]. rewrite Hout, (take_S_r _ _ _ Hd), concat_app. cbn. by rewrite app_nil_r, <- app_assoc. }
  pose proof (lookup_lt_Some _ _ _ Hd) as Hlt.
  destruct (co_buffer s1 !! co_expected s1) as [d'|] eqn:E.
  - destruct (IH d' s1 Hout1) as (s' & Hfl & Hc & Hbuf & Hexp & Hbet); [by apply Hb|done| |].
    { eapply Nat.lt_le_trans; [|apply Nat.lt_succ_r, Hf]. apply subset_size. cbn [co_expected co_buffer s1].
      split; [intros i; rewrite !elem_of_filter; intros [? ?]; split; [lia|done]|].
      intros Hsub. specialize (Hsub (S (co_expected s))). rewrite !elem_of_filter in Hsub.
      destruct Hsub as [Hx _]; [|lia]. split; [lia|]. apply elem_of_dom. by exists d'. }
    cbn [co_expected co_buffer s1] in *. exists s'. split_and!; try done; [lia|].
    intros k Hk. destruct (decide (k = S (co_expected s))) as [->|]; [by exists d'|]. apply Hbet. lia.
  - exists s1. split_and!; try done; cbn [co_expected co_buffer s1]; [lia..|intros k Hk; lia].
Qed.

(** Chunks that have arrived are written or buffered. *)
Lemma compose_fold out0 datas l s :
  composed out0 datas s -> (forall i d, (i, d) ∈ l -> datas !! i = Some d) ->
  NoDup (l.*1) -> (forall i, i ∈ l.*1 -> co_expected s <= i /\ co_buffer s !! i = None) ->
  exists s', compose append s l = (s', None) /\ composed out0 datas s' /\
    (forall i, i < co_expected s \/ is_Some (co_buffer s !! i) \/ i ∈ l.*1 ->
       i < co_expected s' \/ is_Some (co_buffer s' !! i)).
Proof.
  revert s; induction l as [|[i d] l IH]; intros s Hs Hl Hnd Hnew; cbn [compose].
  { exists s. split_and!; try done. intros i [?|[?|Hx]]; [by left|by right|by apply not_elem_of_nil in Hx]. }
  cbn [fmap list_fmap fst] in Hnd, Hnew. apply NoDup_cons in Hnd as [Hni Hnd].
  destruct Hs as (Hout & Hle & Hb0 & Hb). pose proof (Hl i d (list_elem_of_here _ _)) as Hd.
  assert (Hl' : forall j e, (j, e) ∈ l -> datas !! j = Some e) by (intros; apply Hl; by apply list_elem_of_further).
  assert (Hnew' : forall j, j ∈ l.*1 -> j <> i /\ co_expected s <= j /\ co_buffer s !! j = None).
  { intros j Hj. split; [by intros ->|]. apply Hnew. by apply list_elem_of_further. }
  cbn [compose1]. destruct (Nat.eqb_spec i (co_expected s)) as [->|Hne]; cbn [negb].
  - destruct (flush_spec out0 datas (S (size (co_buffer s))) d s Hout Hd Hb) as (s1 & -> & Hc1 & Hbuf & Hexp & Hbet).
    { apply Nat.lt_succ_r. rewrite <- size_dom. apply subseteq_size. set_solver. }
    destruct (IH s1 Hc1 Hl' Hnd) as (s' & Hcmp & Hc' & Hall).
    { intros j Hj. rewrite Hbuf. destruct (Hnew' j Hj) as (Hj0 & Hj1 & Hj2). split; [|done].
      destruct (decide (j < co_expected s1)) as [Hlt|]; [|lia].
      destruct (Hbet j ltac:(lia)) as [x Hx]. congruence. }
    exists s'. split_and!; try done. intros j Hj. apply Hall. rewrite Hbuf.
    destruct Hj as [Hj|[Hj|Hj]]; [left; lia|by right; left|]. apply elem_of_cons in Hj as [->|Hj]; [by left|by right; right].
  - destruct (IH {| co_out := co_out s; co_expected := co_expected s; co_buffer := <[i := d]> (co_buffer s) |})
      as (s' & Hcmp & Hc' & Hall); try done.
    + split_and!; try done; cbn [co_buffer co_expected].
      * by rewrite lookup_insert_ne.
      * intros j e Hj. apply lookup_insert_Some in Hj as [[<- <-]|[_ Hj]]; [done|by apply Hb].
    + intros j Hj. cbn [co_buffer co_expected]. destruct (Hnew' j Hj) as (Hj0 & Hj1 & Hj2).
      split; [done|]. by rewrite lookup_insert_ne.
    + exists s'. split_and!; try done. intros j Hj. apply Hall. cbn [co_buffer co_expected].
      destruct Hj as [Hj|[Hj|Hj]]; [by left| |].
      * right; left. destruct (decide (i = j)) as [->|]; [by rewrite lookup_insert_eq|by rewrite lookup_insert_ne].
      * apply elem_of_cons in Hj as [->|Hj]; [right; left; by rewrite lookup_insert_eq|by right; right].
Qed.

(** A writer that only appends gives no error. *)
Lemma compose_append s l : exists s', compose append s l = (s', None).
Proof.
  assert (Hflush : forall fuel d (s : composer bytes), exists s', flush append fuel d s = (s', None)).
  { induction fuel as [|fuel IH]; intros d s0; cbn [flush append]; [by exists s0|].
    case_match; [apply IH|by eexists]. }
  revert s; induction l as [|[i d] l IH]; intros s; cbn [compose]; [by exists s|].
  unfold compose1. destruct (negb _); [apply IH|]. destruct (Hflush (S (size (co_buffer s))) d s) as [s' ->]. apply IH.
Qed.

(** The composer writes the concatenation for every order of arrival. *)
Lemma compose_spec out0 datas arrived :
  arrived ≡ₚ imap pair datas ->
  exists s, compose append {| co_out := out0; co_expected := 0; co_buffer := ∅ |} arrived = (s, None) /\
    co_out s = out0 ++ concat datas.
Proof.
  intros Hp. assert (Hidx : arrived.*1 ≡ₚ seq 0 (length datas)) by (rewrite Hp; by rewrite imap_pair_fst).
  destruct (compose_fold out0 datas arrived {| co_out := out0; co_expected := 0; co_buffer := ∅ |})
    as (s & Hs & (Hout & Hle & Hnone & _) & Hall).
  - split_and!; cbn; [by rewrite app_nil_r|lia|done|done].
  - intros i d Hi. apply imap_pair_lookup. by rewrite <- Hp.
  - rewrite Hidx. apply NoDup_seq.
  - intros i _. cbn. split; [lia|done].
  - exists s. split; [done|]. rewrite Hout, take_ge; [done|].
    destruct (decide (co_expected s < length datas)) as [Hlt|]; [|lia].
    destruct (Hall (co_expected s)) as [Hx|[x Hx]]; [|lia|congruence].
    right; right. rewrite Hidx, elem_of_seq. lia.
Qed.
(** *** Indexed results *)
Lemma indexed_results {A B} (Q : A -> B -> Prop) (xs : list A) tasks (ys : list (nat * B)) :
  tasks ≡ₚ imap pair xs -> Forall2 (fun t r => t.1 = r.1 /\ Q t.2 r.2) tasks ys ->
  exists zs, Forall2 Q xs zs /\ ys ≡ₚ imap pair zs.
Proof.
  intros Hp Hf. destruct (Permutation_Forall2 Hp Hf) as (ys' & Hys & Hf'). exists (ys'.*2).
  assert (Hlen : length xs = length ys') by (rewrite <- (Forall2_length _ _ _ Hf'); by rewrite length_imap).
  assert (Hat : forall i x, xs !! i = Some x -> exists y, ys' !! i = Some (i, y) /\ Q x y).
  { intros i x Hx. destruct (Forall2_lookup_l _ _ _ i (i, x) Hf') as ([j y] & Hy & Hj & Hq).
    - by rewrite list_lookup_imap, Hx.
    - cbn in Hj, Hq. subst j. by exists y. }
  split.
  - apply Forall2_same_length_lookup. split; [by rewrite length_fmap|]. intros i x y Hx Hy.
    destruct (Hat i x Hx) as (y' & Hy' & Hq). rewrite list_lookup_fmap, Hy' in Hy. by injection Hy as <-.
  - rewrite Hys. match goal with |- ?l ≡ₚ ?k => enough (E : l = k) by (by rewrite <- E) end. apply list_eq. intros i. rewrite list_lookup_imap, list_lookup_fmap.
    destruct (xs !! i) as [x|] eqn:Hx.
    + destruct (Hat i x Hx) as (y & -> & _). done.
    + apply lookup_ge_None in Hx. by rewrite lookup_ge_None_2 by lia.
Qed.

(** *** Reading [bytes.Reader] *)
Fixpoint bytes_reader (n fuel : nat) (input : bytes) : Reader :=
  match fuel, input with
  | S fuel', _ :: _ => (take n input, None) :: bytes_reader n fuel' (drop n input)
  | _, _ => [([], Some EOF)]
  end.

Lemma bytes_reader_parts n fuel input parts :
  0 < n -> length input <= fuel -> splitter (bytes_reader n fuel input) = Ok <$> parts ->
  concat parts = input /\ Forall (fun p => 0 < length p <= n) parts.
Proof.
  intros Hn. revert input parts; induction fuel as [|fuel IH]; intros input parts Hf Hs.
  { destruct input; [|cbn in Hf; lia]. cbn in Hs. rewrite bool_decide_true in Hs by done. by destruct parts. }
  destruct input as [|b input]. { cbn in Hs. rewrite bool_decide_true in Hs by done. by destruct parts. }
  cbn [bytes_reader splitter] in Hs. destruct parts as [|p parts]; [done|]. injection Hs as Hp Hs.
  assert (Hlen : length (drop n (b :: input)) <= fuel) by (rewrite length_drop; cbn [length] in *; lia).
  destruct (IH _ _ Hlen Hs) as [Hc Hall]. split.
  - cbn [concat]. by rewrite Hc, <- Hp, take_drop.
  - constructor; [|done]. rewrite <- Hp, length_take. cbn [length]. lia.
Qed.

Section Properties.
Context `{ChunkStorage W} (asp : AsyncSplitterPipeline) (hash : bytes -> bytes) (proc : Processor).
Context (Hhash : hasher (config asp) = Ok hash) (Hproc : processor (config asp) = Ok proc).

(** What a parallel read hands out is verified: whatever the storage
    returns, and for every order in which chunks are fetched and arrive, a read
    that reports no error has written, in the order of the chunks, one piece of
    data per chunk whose hash is the one recorded for that chunk. *)
Theorem async_read_verified (extra : nat) (race : bool) (first : list (nat * Chunk) -> list (nat * Chunk))
    (second : list (nat * bytes) -> list (nat * bytes)) (chunks : list Chunk) (out out' : bytes) (w w' : W) :
  (forall l, first l ≡ₚ l) -> (forall l, second l ≡ₚ l) ->
  Read asp extra race first second chunks (Some append) out w = (Ok (out', None), w') ->
  chunks <> [] /\ exists datas, out' = out ++ concat datas /\ Forall2 (fun c d => ch_Hash c = hash d) chunks datas.
Proof using Hhash Hproc.
  intros Hfirst Hsecond Hr. destruct chunks as [|c [|c2 rest]]; [done| |]; (split; [done|]).
  - cbn [Read SingleObject.Read] in Hr. unfold or_fail, pbind, plift in Hr. rewrite Hhash, Hproc in Hr.
    destruct (ReadChunk (chunk_cfg c) w) as [[x|e|p] w1]; [|done..].
    destruct (ReadProcess proc x) as [d|e|p]; [|done..].
    destruct (bool_decide_reflect (ch_Hash c = hash d)) as [Hh|]; [|done]. cbn in Hr. injection Hr as <- _.
    exists [d]. split; [cbn; by rewrite app_nil_r|by repeat constructor].
  - set (chunks := c :: c2 :: rest) in *. unfold Read in Hr. cbn [chunks] in Hr. fold chunks in Hr.
    rewrite Hhash, Hproc in Hr. cbn [obind] in Hr.
    apply pbind_Ok_inv in Hr as ([outputs err] & w1 & Hpar & Hr). cbn [fst snd] in Hr.
    destruct (compose append _ (second outputs)) as [s werr] eqn:Hc. injection Hr as <- Herr _.
    assert (err = None /\ werr = None) as [-> ->] by (by destruct race, err, werr).
    apply (par_ok (fun _ _ => True) (fun _ t r => t.1 = r.1 /\ ch_Hash t.2 = hash r.2) _ _ 0) in Hpar as (_ & Hall & _); [|clear|done].
    + destruct (indexed_results (fun c d => ch_Hash c = hash d) chunks _ _ (Hfirst _) Hall) as (datas & Hd & Ho).
      exists datas. split; [|done].
      destruct (compose_spec out datas (second outputs)) as (s' & Hs' & Hout); [by rewrite Hsecond|].
      rewrite Hc in Hs'. by injection Hs' as ->.
    + intros _ [i ch] [j d] v v' _ Hf _. unfold pbind, plift in Hf.
      destruct (ReadChunk (chunk_cfg ch) v) as [[x|e|p] v1]; [|done..].
      destruct (ReadProcess proc x) as [d'|e|p]; [|done..].
      destruct (bool_decide_reflect (ch_Hash ch = hash d')) as [Hh|]; [|done]. cbn in Hf. injection Hf as <- <- _.
      by split_and!.
Qed.

Context `{!ChunkStorageLaws W}.
Context (Hinv : forall d x, WriteProcess proc d = Ok x -> ReadProcess proc x = Ok d).
Context (Hjobs : 0 < storageJobCount asp).

(** [c] is the stored chunk of [d]. *)
Definition stored_as (w : W) (d : bytes) (c : Chunk) : Prop :=
  ch_Hash c = hash d /\ exists x, WriteProcess proc d = Ok x /\ chunk_at w (chunk_cfg c) x.

Lemma Write_spec extra race first second r chunks n w w' :
  (forall l, first l ≡ₚ l) -> (forall l, second l ≡ₚ l) -> storage_good (length (splitter r) + n) w ->
  Write asp extra race first second (Some r) w = (Ok chunks, w') ->
  storage_good n w' /\ (forall cfg d, chunk_at w cfg d -> chunk_at w' cfg d) /\
  exists parts, splitter r = Ok <$> parts /\ Forall2 (stored_as w') parts chunks.
Proof using Hhash Hproc Hjobs.
  intros Hfirst Hsecond Hg Hw. unfold Write in Hw. apply pbind_Ok_inv in Hw as (h & w1 & Hh & Hw).
  unfold plift in Hh. rewrite Hhash in Hh. injection Hh as <- <-.
  apply pbind_Ok_inv in Hw as (p & w1 & Hp & Hw). unfold plift in Hp. rewrite Hproc in Hp. injection Hp as <- <-.
  apply pbind_Ok_inv in Hw as ([stored err] & w1 & Hpar & Hw). cbn [fst snd] in Hw.
  destruct err as [e|]; [destruct (collect_chunks _ _), race; done|]. unfold plift in Hw. injection Hw as Hcol <-.
  apply (par_ok (fun n v => storage_good n v /\ forall cfg d, chunk_at w cfg d -> chunk_at v cfg d)
           (fun w t r => t.1 = r.1 /\ exists d, t.2 = Ok d /\ stored_as w d r.2) _ _ n)
    in Hpar as ([Hg' Hk] & Hall & _); [| |by rewrite Hfirst, length_imap].
  - split_and!; [done|done|].
    destruct (indexed_results (fun t c => exists d, t = Ok d /\ stored_as w1 d c) _ _ _ (Hfirst _) Hall) as (cs & Hcs & Hst).
    rewrite (collect_chunks_spec _ _ cs) in Hcol; [|done|by rewrite Hsecond]. injection Hcol as <-.
    clear -Hcs. induction Hcs as [|t c ts cs (d & -> & Hd) Hcs (parts & -> & Hf)]; [by exists []|].
    exists (d :: parts). split; [done|by constructor].
  - clear Hg. intros k [i t] [j c] v v' _ Hf [Hv Hvk]. apply pbind_Ok_inv in Hf as (d & v1 & Hd & Hf). injection Hd as -> <-.
    apply pbind_Ok_inv in Hf as (x & v1 & Hx & Hf). injection Hx as Hx <-.
    apply pbind_Ok_inv in Hf as (cfg & v1 & Hcfg & Hf). injection Hf as <- <- <-.
    destruct (write_law _ _ _ _ _ Hcfg Hv) as (Hv1 & Hkeep & Hat). split_and!; [done|auto|done| |].
    + exists d. split; [done|]. split; [done|]. exists x. split; [done|]. destruct cfg. by apply Hat.
    + intros a b (Ha & d' & Hd' & Hh & x' & Hx' & Hat'). split; [done|]. exists d'. split; [done|]. split; [done|].
      exists x'. auto.
Qed.

(** A write, also one that fails, leaves what is stored readable. *)
Lemma Write_frame extra race first second r n w res w' :
  (forall l, first l ≡ₚ l) -> storage_good (length (splitter r) + n) w ->
  Write asp extra race first second (Some r) w = (res, w') ->
  storage_good n w' /\ forall cfg d, chunk_at w cfg d -> chunk_at w' cfg d.
Proof using Hhash Hproc.
  intros Hfirst Hg Hw. unfold Write in Hw. unfold pbind at 1 2, plift at 1 2 in Hw. rewrite Hhash, Hproc in Hw.
  match type of Hw with pbind (par extra ?f ?l None) _ w = _ => 
    destruct (par extra f l None w) as [x w1] eqn:Hpar end.
  assert (w' = w1) as ->.
  { unfold pbind at 1 in Hw. rewrite Hpar in Hw. destruct x as [[stored [e|]]|e|p]; try by injection Hw.
    cbn [fst snd] in Hw. by destruct (collect_chunks _ _), race; injection Hw. }
  eapply (par_frame (fun n v => storage_good n v /\ forall cfg d, chunk_at w cfg d -> chunk_at v cfg d)); [| |exact Hpar|].
  - intros k v [Hv ?]. split; [by apply storage_less|done].
  - intros k [i t] v _ [Hv Hk]. unfold pbind, plift. destruct t as [d|e|p]; [|by split; [apply storage_less|]..].
    destruct (WriteProcess proc d) as [y|e|p]; [|by split; [apply storage_less|]..].
    destruct (WriteChunk y v) as [c v1] eqn:Hc. destruct (write_law _ _ _ _ _ Hc Hv) as (Hv1 & Hkeep & _).
    destruct c; cbn; split; auto.
  - by rewrite Hfirst, length_imap.
Qed.

(** A chunk that is stored is read with its data, or the read fails. *)
Lemma read_stored {A} (k : bytes -> A) e d c n w r w' :
  stored_as w d c -> storage_good n w ->
  (do! data := ReadChunk (chunk_cfg c) in
   do! data := plift (ReadProcess proc data) in
   if negb (bool_decide (ch_Hash c = hash data)) then pfail e else pret (k data)) w = (r, w') ->
  storage_good n w' /\ (forall cfg d, chunk_at w cfg d -> chunk_at w' cfg d) /\
  no_panic r /\ (forall x, r = Ok x -> x = k d) /\ (ready -> r = Ok (k d)).
Proof using Hinv.
  intros (Hh & x & Hx & Hat) Hg. unfold pbind, plift. destruct (ReadChunk (chunk_cfg c) w) as [r1 w1] eqn:E.
  destruct (read_law _ _ _ _ _ _ E Hat Hg) as (Hg1 & Hk1 & Hnp & Hs & Hr).
  destruct r1 as [y|e1|p]; [| |done].
  - rewrite (Hs y eq_refl), (Hinv _ _ Hx), bool_decide_true by done. intros [= <- <-].
    split_and!; try done. by intros z [= <-].
  - intros [= <- <-]. split_and!; try done. intros Hrd. by apply Hr in Hrd.
Qed.

Lemma Read_spec extra race first second parts chunks out n w :
  (forall l, first l ≡ₚ l) -> (forall l, second l ≡ₚ l) -> storage_good n w ->
  parts <> [] -> Forall2 (stored_as w) parts chunks ->
  exists out' err w', Read asp extra race first second chunks (Some append) out w = (Ok (out', err), w') /\
    storage_good n w' /\ (forall cfg d, chunk_at w cfg d -> chunk_at w' cfg d) /\
    (err = None -> out' = out ++ concat parts) /\ (ready -> err = None).
Proof using Hhash Hproc Hinv.
  intros Hfirst Hsecond Hg Hne Hst. destruct chunks as [|c [|c2 rest]].
  - by apply Forall2_nil_inv_r in Hst.
  - destruct parts as [|d [|? ?]]; [done| |by apply Forall2_length in Hst].
    apply Forall2_cons in Hst as [Hc _]. cbn [Read SingleObject.Read]. unfold or_fail.
    unfold pbind at 1 2, plift at 1 2. rewrite Hhash, Hproc.
    match goal with |- context [match ?m w with _ => _ end] => destruct (m w) as [r w1] eqn:E end.
    destruct (read_stored (fun d => d) _ d c n w r w1 Hc Hg E) as (Hg1 & Hk1 & Hnp & Hs & Hr).
    destruct r as [x|e|p]; [| |done].
    + eexists _, None, w1. split; [done|]. rewrite (Hs x eq_refl). cbn. by rewrite app_nil_r.
    + exists out, (Some e), w1. split_and!; try done. intros Hrd. by apply Hr in Hrd.
  - set (chunks := c :: c2 :: rest) in *. unfold Read. cbn [chunks]. fold chunks. rewrite Hhash, Hproc. cbn [obind].
    set (g := fun ic : nat * Chunk => (ic.1, default [] (parts !! ic.1))).
    match goal with |- context [par extra ?f ?l None] =>
      pose proof (par_sound (fun v => storage_good n v /\ forall cfg d, chunk_at w cfg d -> chunk_at v cfg d)
        (fun ic b => b = g ic) extra f l None w) as Hpar end.
    destruct Hpar as (bs & err & w' & Hpar & [Hg' Hk'] & Hall & Hno).
    { intros [i ch] v r v' Hi [Hv Hkeep] E. rewrite (Hfirst _), imap_pair_lookup in Hi.
      destruct (Forall2_lookup_r _ _ _ _ _ Hst Hi) as (d & Hd & Hh & x & Hx & Hat).
      destruct (read_stored (pair i) _ d ch n v r v' ltac:(split; [done|]; exists x; auto) Hv E) as (Hv1 & Hk1 & Hnp & Hs & _).
      split_and!; [done|done|auto|]. unfold g. cbn [fst]. rewrite Hd. exact Hs. }
    { by split. }
    rewrite (pbind_Ok _ _ _ _ _ Hpar). cbn [fst snd].
    destruct (compose_append {| co_out := out; co_expected := 0; co_buffer := ∅ |} (second bs)) as [s Hs]. rewrite Hs.
    exists (co_out s), err, w'. split_and!; [by destruct race, err|done|done| |].
    + intros ->. assert (bs = g <$> first (imap pair chunks)) as ->.
      { specialize (Hall eq_refl). clear -Hall. induction Hall as [|t b ts bs Hb _ IH]; [done|]. cbn. by rewrite Hb, IH. }
      destruct (compose_spec out parts (second (g <$> first (imap pair chunks)))) as (s' & Hs' & Hout); [|rewrite Hs in Hs'; injection Hs' as <-; exact Hout].
      rewrite Hsecond, (Hfirst _). match goal with |- ?l ≡ₚ ?k => enough (E : l = k) by (by rewrite <- E) end. apply list_eq. intros i.
      rewrite list_lookup_fmap, !list_lookup_imap. destruct (chunks !! i) as [ch|] eqn:Hc; cbn; unfold g; cbn [fst].
      * destruct (Forall2_lookup_r _ _ _ _ _ Hst Hc) as (d & -> & _). done.
      * apply lookup_ge_None in Hc. rewrite <- (Forall2_length _ _ _ Hst) in Hc. by rewrite lookup_ge_None_2.
    + intros Hrd. apply Hno; [done|]. intros [i ch] v Hi [Hv Hkeep]. rewrite (Hfirst _), imap_pair_lookup in Hi.
      destruct (Forall2_lookup_r _ _ _ _ _ Hst Hi) as (d & Hd & Hh & x & Hx & Hat).
      match goal with |- exists b w', ?m = _ => destruct m as [r v'] eqn:E end.
      destruct (read_stored (pair i) _ d ch n v r v' ltac:(split; [done|]; exists x; auto) Hv E) as (_ & _ & _ & _ & Hr).
      rewrite (Hr Hrd). by eexists _, _.
Qed.

(** Writing and reading back through the parallel pipeline: if a write
    succeeds then the reader gave no error but the end of its data, there is one
    chunk for each piece the splitter made, and, when there is at least one,
    reading the chunks appends exactly the pieces in their order -- for every
    order in which goroutines store, fetch and deliver chunks on either side.
    For an in-memory reader the pieces are the whole input, none is empty and
    none exceeds the chunk size.  The processor has to undo its own work, and
    the storage to have room for the chunks and to be ready. *)
Theorem async_write_then_read (extra extra' : nat) (race race' : bool)
    (first : list (nat * outcome bytes) -> list (nat * outcome bytes)) (second : list (nat * Chunk) -> list (nat * Chunk))
    (first' : list (nat * Chunk) -> list (nat * Chunk)) (second' : list (nat * bytes) -> list (nat * bytes))
    (r : Reader) (chunks : list Chunk) (out : bytes) (w w' : W) :
  (forall l, first l ≡ₚ l) -> (forall l, second l ≡ₚ l) -> (forall l, first' l ≡ₚ l) -> (forall l, second' l ≡ₚ l) ->
  ready -> storage_good (length (splitter r)) w -> Write asp extra race first second (Some r) w = (Ok chunks, w') ->
  exists parts, splitter r = Ok <$> parts /\ length chunks = length parts /\
    (parts <> [] -> exists w'',
       Read asp extra' race' first' second' chunks (Some append) out w' = (Ok (out ++ concat parts, None), w'')) /\
    (forall input, (0 < chunkSize asp)%Z -> r = bytes_reader (Z.to_nat (chunkSize asp)) (length input) input ->
       concat parts = input /\ Forall (fun p => 0 < length p <= Z.to_nat (chunkSize asp)) parts).
Proof using Hhash Hproc Hinv Hjobs.
  intros H1 H2 H3 H4 Hrd Hg Hw. rewrite <- (Nat.add_0_r (length _)) in Hg.
  destruct (Write_spec _ _ _ _ _ _ _ _ _ H1 H2 Hg Hw) as (Hg' & _ & parts & Hs & Hst).
  exists parts. split_and!; [done|by rewrite (Forall2_length _ _ _ Hst)| |].
  - intros Hne. destruct (Read_spec extra' race' first' second' parts chunks out 0 w') as (out' & err & w'' & Hr & _ & _ & Ho & He); try done.
    specialize (He Hrd). subst err. exists w''. by rewrite Hr, Ho.
  - intros input Hc ->. apply (bytes_reader_parts _ (length input)); [lia|done|done].
Qed.
End Properties.

(** An empty input is written as no chunks, which cannot be read. *)
Lemma empty_input_unreadable `{ChunkStorage W} (asp : AsyncSplitterPipeline) hash proc extra race (w : W) :
  hasher (config asp) = Ok hash -> processor (config asp) = Ok proc ->
  Write asp extra race id id (Some (bytes_reader (Z.to_nat (chunkSize asp)) 0 [])) w = (Ok [], w) /\
  Read asp extra race id id [] (Some append) [] w = (Ok ([], Some (ErrNew "no chunks given to read")), w).
Proof.
  intros Hh Hp. split; [|done]. unfold Write, pbind, plift. rewrite Hh, Hp. cbn [bytes_reader splitter].
  rewrite bool_decide_true by done. cbn. by destruct race.
Qed.

(** Bytes that a reader returns together with [io.EOF] are dropped. *)
Lemma eof_bytes_dropped data last :
  splitter [(data, None); (last, Some EOF)] = [Ok data].
Proof. cbn [splitter]. by rewrite bool_decide_true. Qed.
End AsyncSplitter.

(** ** A list of chunks as storage, for the witnesses *)
Section Demo.
Import AsyncSplitter.

Definition list_index (cfg : ChunkConfig) : option nat :=
  match cfg_Objects cfg with [o] => Some (length (mo_Key o)) | _ => None end.

#[export] Instance list_storage : ChunkStorage (list bytes) := {|
  WriteChunk d := fun w =>
    (Ok {| cfg_Size := Z.of_nat (length d);
           cfg_Objects := [{| mo_Key := replicate (length w) Byte.x00; mo_ShardID := "a" |}] |}, w ++ [d]);
  ReadChunk cfg := fun w =>
    match list_index cfg ≫= fun i => w !! i with Some d => (Ok d, w) | None => (Err (ErrNew "not found"), w) end;
  CheckChunk cfg fast := pret CheckStatusOptimal;
  RepairChunk cfg := pfail ErrNotSupported;
  DeleteChunk cfg := pfail ErrNotSupported;
|}.

#[export] Instance list_storage_laws : ChunkStorageLaws (list bytes).
Proof.
  refine {| storage_good := fun _ _ => True; ready := True; chunk_at := fun w cfg d => list_index cfg ≫= (fun i => w !! i) = Some d |}.
  - done.
  - intros d w r w' n [= <- <-] _. split_and!; [done| |].
    + intros cfg d'. destruct (list_index cfg) as [i|]; [|done]. cbn. intros Hi.
      by apply lookup_app_l_Some.
    + intros cfg [= <-]. cbn. rewrite length_replicate. by rewrite lookup_app_r, Nat.sub_diag by lia.
  - intros cfg d w r w' n Hr Hd _. cbn in Hr. rewrite Hd in Hr. injection Hr as <- <-. split_and!; try done. by intros x [= <-].
Defined.

Definition reversing : Processor :=
  {| WriteProcess d := Ok (reverse d); ReadProcess d := Ok (reverse d) |}.

Definition demo_pipeline : AsyncSplitterPipeline :=
  {| config := {| hasher := Ok (take 2); processor := Ok reversing |};
     storageJobCount := 2; processorJobCount := 1; chunkSize := 3 |}.

Definition demo_chunks : list Chunk :=
  imap (fun i h => {| ch_Size := (if Nat.eqb i 3 then 1 else 3);
                      ch_Objects := [{| mo_Key := replicate (3 - i) Byte.x00; mo_ShardID := "a" |}];
                      ch_Hash := str_bytes h |}) ["ze"; "o-"; "to"; "!"]%string.
End Demo.

Lemma async_read_verified_witness :
  exists datas, str_bytes "zero-stor!" = [] ++ concat datas /\
    Forall2 (fun c d => ch_Hash c = take 2 d) demo_chunks datas.
Proof.
  refine (proj2 (AsyncSplitter.async_read_verified demo_pipeline (take 2) reversing eq_refl eq_refl 0 false reverse reverse
    demo_chunks [] (str_bytes "zero-stor!")
    (reverse <$> [str_bytes "!"; str_bytes "tor"; str_bytes "o-s"; str_bytes "zer"]) _ _ _ _)).
  - intros l. apply reverse_Permutation.
  - intros l. apply reverse_Permutation.
  - vm_compute. reflexivity.
Defined.

Lemma async_write_then_read_witness :
  exists parts, str_bytes "zero-stor!" = concat parts /\ length parts = 4%nat.
Proof.
  destruct (AsyncSplitter.async_write_then_read demo_pipeline (take 2) reversing eq_refl eq_refl
    ltac:(intros d x [= <-]; cbn; by rewrite reverse_involutive) ltac:(cbn; lia) 0 0 false true reverse id reverse reverse
    (AsyncSplitter.bytes_reader 3 10 (str_bytes "zero-stor!")) demo_chunks [] [] _
    (fun l => reverse_Permutation l) (fun l => Permutation_refl l) (fun l => reverse_Permutation l)
    (fun l => reverse_Permutation l) I I ltac:(vm_compute; reflexivity)) as (parts & _ & Hl & _ & Hb).
  exists parts. split; [symmetry; apply Hb; [cbn; lia|reflexivity]|by rewrite <- Hl].
Defined.
