(* ===== verification/Crew.v ===== *)
(** * The goroutines of a parallel check, repair and delete
      ([client/datastor/pipeline/async_splitter.go], [errgroup])

    [Pipeline] runs the tasks of these calls one after the other, in an order that
    is an argument.  Here is what they start: a goroutine that feeds the indices of
    the chunks, workers in an error group, and, for a check and a repair, a
    goroutine that waits for the workers and closes the channel behind them, and
    one that fetches the results.  A step of the relation is one action of one
    goroutine; a call of the storage and what the worker does with its error are
    one action.  It is shown that the goroutines never block each other, that
    they come to an end, and that whatever they do is what [Pipeline] says for some
    order of the tasks.  What one order of tasks does, and how it relates to
    [par], is used by [Network] too. *)

From S2P Require Import Prelude Encoding Spread Pipeline.
Import AsyncSplitter.
Open Scope nat_scope.

(** ** Error groups *)

(** [errOnce]: a group keeps the first error that one of its functions returns. *)
Definition group_returns (r : option error) (g : option error) : option error := match g with Some _ => g | None => r end.

(** [Wait] of a group of workers; then the channel is closed and the error returned. *)
Inductive wait_state := Waiting | Closed | Returned.

Ltac by_groups :=
  unfold group_returns; repeat match goal with |- context [match ?x with _ => _ end] => destruct x end;
  intuition (discriminate || congruence).

Lemma Forall_eq_elem {A} (x : A) l : 0 < length l -> Forall (eq x) l -> x ∈ l.
Proof. intros Hl Hf. destruct Hf as [|y l <-]; [cbn in Hl; lia|]. apply list_elem_of_here. Qed.

Lemma done_or_not {A} (x : A) l :
  (forall y, x = y \/ x <> y) -> Forall (eq x) l \/ exists l1 y l2, l = l1 ++ y :: l2 /\ x <> y.
Proof.
  intros Hx. induction l as [|y l [IH|(l1 & z & l2 & -> & Hz)]]; [by left| |right; by exists (y :: l1), z, l2].
  destruct (Hx y) as [<-|Hy]; [left; by constructor|right; by exists [], y, l].
Qed.

Lemma sum_list_replicate {A} (f : A -> nat) n x : f x = 1 -> sum_list (f <$> replicate n x) = n.
Proof. intros Hx. induction n as [|n IH]; [done|]. cbn. by rewrite Hx, IH. Qed.

(** An order of the tasks, or of the results, of one run. *)
Definition order_of {A} `{EqDecision A} (l order : list A) : list A -> list A := fun x => if decide (x = l) then order else x.

Lemma order_of_perm {A} `{EqDecision A} (l order : list A) : order ≡ₚ l -> forall x, order_of l order x ≡ₚ x.
Proof. intros Ho x. unfold order_of. by destruct (decide (x = l)) as [->|]. Qed.

Lemma order_of_at {A} `{EqDecision A} (l order : list A) : order_of l order l = order.
Proof. unfold order_of. by rewrite decide_True. Qed.

(** ** Tasks in order

    A run of several tasks, every one tried, with the results and the first
    error. *)
Section Tries.
Context {W T B : Type} (f : T -> prog W B).

Inductive tries : option error -> list T -> W -> list B -> option error -> W -> Prop :=
  | tries_nil e w : tries e [] w [] e w
  | tries_ok e t l w b w1 bs e' w' :
      f t w = (Ok b, w1) -> tries e l w1 bs e' w' -> tries e (t :: l) w (b :: bs) e' w'
  | tries_err e t l w x w1 bs e' w' :
      f t w = (Err x, w1) -> tries (group_returns (Some x) e) l w1 bs e' w' -> tries e (t :: l) w bs e' w'.

Lemma tries_snoc_ok e l w bs e' w' t b w2 :
  tries e l w bs e' w' -> f t w' = (Ok b, w2) -> tries e (l ++ [t]) w (bs ++ [b]) e' w2.
Proof. induction 1; intros Ht; [eapply tries_ok; [done|constructor]|eapply tries_ok|eapply tries_err]; eauto. Qed.

Lemma tries_snoc_err e l w bs e' w' t x w2 :
  tries e l w bs e' w' -> f t w' = (Err x, w2) -> tries e (l ++ [t]) w bs (group_returns (Some x) e') w2.
Proof. induction 1; intros Ht; [eapply tries_err; [done|constructor]|eapply tries_ok|eapply tries_err]; eauto. Qed.

Lemma tries_keep_error e l w bs e' w' : tries e l w bs e' w' -> forall x, e = Some x -> e' = Some x.
Proof. induction 1; intros z Hz; subst; eauto. Qed.

(** Which error is kept does not change what is done. *)
Lemma tries_from e l w bs e' w' : tries e l w bs e' w' -> forall x, exists e2, tries x l w bs e2 w'.
Proof.
  induction 1 as [e w|e t l w b w1 bs e' w' Ht _ IH|e t l w y w1 bs e' w' Ht _ IH]; intros x.
  - exists x. constructor.
  - destruct (IH x) as [e2 H2]. exists e2. by econstructor.
  - destruct (IH (group_returns (Some y) x)) as [e2 H2]. exists e2. by eapply tries_err.
Qed.

(** After an error the workers try as many tasks as they happen to. *)
Lemma tries_after_error e l w bs e' w' rest :
  tries (Some e) l w bs e' w' -> par (length l) f (l ++ rest) (Some e) w = (Ok (bs, Some e), w').
Proof.
  remember (Some e) as x eqn:Hx. induction 1 as [x w|x t l w b w1 bs e' w' Ht _ IH|x t l w y w1 bs e' w' Ht _ IH]; subst x.
  - by destruct rest.
  - cbn [length app par]. rewrite Ht. cbn. rewrite Nat.sub_0_r. unfold pbind. by rewrite IH by done.
  - cbn [length app par]. rewrite Ht. cbn [Nat.sub]. rewrite Nat.sub_0_r. by apply IH.
Qed.

Lemma tries_without_error extra x l w bs e w' :
  tries x l w bs e w' -> x = None -> e = None -> par extra f l None w = (Ok (bs, None), w').
Proof.
  induction 1 as [x w|x t l w b w1 bs e' w' Ht _ IH|x t l w y w1 bs e' w' Ht Hl _]; intros Hx He; subst.
  - done.
  - cbn [par]. rewrite Ht. unfold pbind. by rewrite IH by done.
  - by pose proof (tries_keep_error _ _ _ _ _ _ Hl y eq_refl).
Qed.

Lemma tries_to_error l w bs x e w' rest :
  tries x l w bs (Some e) w' -> x = None -> exists extra, par extra f (l ++ rest) None w = (Ok (bs, Some e), w').
Proof.
  remember (Some e) as y eqn:Hy. induction 1 as [x w|x t l w b w1 bs e' w' Ht _ IH|x t l w z w1 bs e' w' Ht Hl _]; intros ->; subst.
  - done.
  - destruct IH as [extra He]; [done..|]. exists extra. cbn [app par]. rewrite Ht. unfold pbind. by rewrite He.
  - exists (length l). cbn [app par]. rewrite Ht. cbn in Hl.
    pose proof (tries_keep_error _ _ _ _ _ _ Hl z eq_refl) as [= ->]. by eapply tries_after_error.
Qed.
End Tries.

(** ** States

    The feeder: what is still to be sent, or that it has closed its channel. *)
Inductive worker_state (B : Type) := WIdle | WHold (b : B) | WDone.
Arguments WIdle {B}.
Arguments WHold {B}.
Arguments WDone {B}.

(** The feeder and its channel; the workers, the error of their group, and who
    waits for them; the channel of the results, those that were fetched, and
    whether the fetcher has returned; the servers.  The last three are history:
    the tasks that were tried, those that were given up, and the results that were. *)
Inductive crew (W T B : Type) := Crew
  (feed : option (list T)) (ch : list T) (ws : list (worker_state B)) (err : option error) (wait : wait_state)
  (resultCh : list B) (got : list B) (fetched : bool) (w : W) (tried lost : list T) (dropped : list B).
Arguments Crew {W T B}.

Section Crew.
Context {W T B : Type} (f : T -> prog W B) (results : bool) (jobCount : nat).

(** The context: it is cancelled by the first error of a worker, and when the
    workers were waited for. *)
Definition ctx_done (err : option error) (wait : wait_state) : Prop := err <> None \/ wait <> Waiting.

(** ** Steps *)
Inductive crew_step : crew W T B -> crew W T B -> Prop :=
  | feed_sends t l c ws e wt rc got fd w tr lo dr :
      length c < jobCount ->
      crew_step (Crew (Some (t :: l)) c ws e wt rc got fd w tr lo dr) (Crew (Some l) (c ++ [t]) ws e wt rc got fd w tr lo dr)
  | feed_cancelled l c ws e wt rc got fd w tr lo dr :
      ctx_done e wt ->
      crew_step (Crew (Some l) c ws e wt rc got fd w tr lo dr) (Crew None c ws e wt rc got fd w tr (l ++ lo) dr)
  | feed_ends c ws e wt rc got fd w tr lo dr :
      crew_step (Crew (Some []) c ws e wt rc got fd w tr lo dr) (Crew None c ws e wt rc got fd w tr lo dr)
  | work_takes s t c w1 w2 e wt rc got fd w b w' tr lo dr :
      results = true -> f t w = (Ok b, w') ->
      crew_step (Crew s (t :: c) (w1 ++ WIdle :: w2) e wt rc got fd w tr lo dr)
           (Crew s c (w1 ++ WHold b :: w2) e wt rc got fd w' (tr ++ [t]) lo dr)
  | work_silent s t c w1 w2 e wt rc got fd w b w' tr lo dr :
      results = false -> f t w = (Ok b, w') ->
      crew_step (Crew s (t :: c) (w1 ++ WIdle :: w2) e wt rc got fd w tr lo dr)
           (Crew s c (w1 ++ WIdle :: w2) e wt rc got fd w' (tr ++ [t]) lo dr)
  | work_fails s t c w1 w2 e wt rc got fd w x w' tr lo dr :
      f t w = (Err x, w') ->
      crew_step (Crew s (t :: c) (w1 ++ WIdle :: w2) e wt rc got fd w tr lo dr)
           (Crew s c (w1 ++ WDone :: w2) (group_returns (Some x) e) wt rc got fd w' (tr ++ [t]) lo dr)
  | work_ends w1 w2 e wt rc got fd w tr lo dr :
      crew_step (Crew None [] (w1 ++ WIdle :: w2) e wt rc got fd w tr lo dr)
           (Crew None [] (w1 ++ WDone :: w2) e wt rc got fd w tr lo dr)
  | work_sends s c w1 w2 b e wt rc got fd w tr lo dr :
      length rc < jobCount ->
      crew_step (Crew s c (w1 ++ WHold b :: w2) e wt rc got fd w tr lo dr)
           (Crew s c (w1 ++ WIdle :: w2) e wt (rc ++ [b]) got fd w tr lo dr)
  | work_cancelled s c w1 w2 b e wt rc got fd w tr lo dr :
      ctx_done e wt ->
      crew_step (Crew s c (w1 ++ WHold b :: w2) e wt rc got fd w tr lo dr)
           (Crew s c (w1 ++ WDone :: w2) e wt rc got fd w tr lo (b :: dr))
  | work_done s c ws e rc got fd w tr lo dr :
      Forall (eq WDone) ws ->
      crew_step (Crew s c ws e Waiting rc got fd w tr lo dr) (Crew s c ws e Closed rc got fd w tr lo dr)
  | work_returns s c ws e rc got fd w tr lo dr :
      crew_step (Crew s c ws e Closed rc got fd w tr lo dr) (Crew s c ws e Returned rc got fd w tr lo dr)
  | fetch_receives s c ws e wt b rc got w tr lo dr :
      crew_step (Crew s c ws e wt (b :: rc) got false w tr lo dr) (Crew s c ws e wt rc (got ++ [b]) false w tr lo dr)
  | fetch_ends s c ws e wt got w tr lo dr :
      wt <> Waiting ->
      crew_step (Crew s c ws e wt [] got false w tr lo dr) (Crew s c ws e wt [] got true w tr lo dr).

(** What a call starts; a delete has nothing to fetch. *)
Definition crew_started (tasks : list T) (w : W) : crew W T B :=
  Crew (Some tasks) [] (replicate jobCount WIdle) None Waiting [] [] (negb results) w [] [] [].

Definition crew_reaches (tasks : list T) (w : W) (s : crew W T B) : Prop := rtc crew_step (crew_started tasks w) s.

(** [group.Wait] has returned; the feeder is not waited for. *)
Definition crew_ended (s : crew W T B) : Prop :=
  let '(Crew _ _ _ _ wt _ _ fd _ _ _ _) := s in wt = Returned /\ fd = true.

(** ** Invariants *)
Definition hold (s : worker_state B) : list B := match s with WHold b => [b] | _ => [] end.
Definition holding (ws : list (worker_state B)) : list B := concat (hold <$> ws).

Lemma holding_mid w1 s w2 : holding (w1 ++ s :: w2) = holding w1 ++ hold s ++ holding w2.
Proof. unfold holding. by rewrite fmap_app, concat_app. Qed.

Lemma done_holding ws : Forall (eq WDone) ws -> holding ws = [].
Proof. unfold holding. induction 1 as [|p ps <- _ IH]; [done|]. by cbn. Qed.

(** Every task is in one place. *)
Definition tasks_ok (tasks : list T) (s : crew W T B) : Prop :=
  let '(Crew feed c _ _ _ _ _ _ _ tr lo _) := s in default [] feed ++ c ++ tr ++ lo ≡ₚ tasks.

(** The servers are as after the tasks that were tried, and the results are somewhere. *)
Definition results_ok (w0 : W) (s : crew W T B) : Prop :=
  let '(Crew _ _ ws e _ rc got _ w tr _ dr) := s in
  exists bs, tries f None tr w0 bs e w /\ (results = true -> bs ≡ₚ holding ws ++ rc ++ got ++ dr).

Definition workers_ok (s : crew W T B) : Prop :=
  let '(Crew feed c ws e wt rc _ fd _ _ lo dr) := s in
  length ws = jobCount /\ (wt <> Waiting -> Forall (eq WDone) ws) /\
  (WDone ∈ ws -> (feed = None /\ c = []) \/ e <> None) /\
  (lo <> [] -> e <> None) /\ (dr <> [] -> e <> None) /\
  (fd = true -> results = true -> wt <> Waiting /\ rc = []) /\ (results = false -> fd = true /\ holding ws = []).

Lemma tasks_step tasks s s' : tasks_ok tasks s -> crew_step s s' -> tasks_ok tasks s'.
Proof. intros Hc Hs. destruct Hs; unfold tasks_ok in *; rewrite <- Hc; cbn; solve_Permutation. Qed.

Lemma results_step w0 s s' : results_ok w0 s -> crew_step s s' -> results_ok w0 s'.
Proof.
  intros Hr Hs. destruct Hs; cbn [results_ok] in *; destruct Hr as (bs & Ht & Hbs).
  all: revert Hbs; rewrite ?holding_mid; cbn [hold app]; intros Hbs.
  all: try (exists bs; split; [done|intros Hx; rewrite Hbs by done; solve_Permutation]).
  - exists (bs ++ [b]). split; [by eapply tries_snoc_ok|]. intros Hx. rewrite Hbs by done. solve_Permutation.
  - exists (bs ++ [b]). split; [by eapply tries_snoc_ok|congruence].
  - exists bs. split; [by eapply tries_snoc_err|]. intros Hx. rewrite Hbs by done. solve_Permutation.
Qed.

Context (Hjobs : 0 < jobCount) (Hf : forall t w p, (f t w).1 <> Panic p).

(** A context that is cancelled while the feeder has something to send, or a worker. *)
Lemma cancelled_by_error l c ws e wt rc got fd w tr lo dr :
  workers_ok (Crew (Some l) c ws e wt rc got fd w tr lo dr) -> ctx_done e wt -> e <> None.
Proof using Hjobs.
  intros (Hl & Hd & Hx & _) [?|Hw]; [done|]. destruct Hx as [[? _]|?]; [|done..]. apply Forall_eq_elem; [lia|auto].
Qed.

Lemma held_by_error s c w1 b w2 e wt rc got fd w tr lo dr :
  workers_ok (Crew s c (w1 ++ WHold b :: w2) e wt rc got fd w tr lo dr) -> ctx_done e wt -> e <> None.
Proof using.
  intros (_ & Hd & _) [?|Hw]; [done|]. apply Hd, Forall_app in Hw as [_ Hw]. by apply Forall_cons_1 in Hw as [? _].
Qed.

Lemma workers_step s s' : workers_ok s -> crew_step s s' -> workers_ok s'.
Proof using Hjobs.
  intros Hp Hs. destruct Hs as [| | | | | | | |s c w1 w2 b e wt rc got fd w tr lo dr Hctx| | | |].
  2: assert (e <> None) by (by eapply cancelled_by_error).
  9: assert (e <> None) by (by eapply held_by_error).
  all: cbn [workers_ok] in *; destruct Hp as (Hl & Hw & Hd & Hlo & Hdr & Hfd & Hr).
  all: rewrite ?holding_mid in *; cbn [hold] in *.
  all: rewrite ?length_app, ?Forall_app, ?Forall_cons, ?elem_of_app, ?elem_of_cons in *; cbn [length] in *.
  all: clear Hjobs Hf; split_and!; try done.
  all: try (clear Hw Hlo Hdr Hfd Hr; by_groups).
  all: try (clear Hd; by_groups).
  all: intros Hx; destruct (Hr Hx) as [_ Hh]; by destruct (holding w1).
Qed.

Lemma crew_ok tasks w0 s : crew_reaches tasks w0 s -> tasks_ok tasks s /\ results_ok w0 s /\ workers_ok s.
Proof using Hjobs.
  revert s. apply (rtc_ind_r _ (crew_started tasks w0)).
  - assert (Hh : holding (replicate jobCount WIdle) = []) by (unfold holding; clear; by induction jobCount).
    cbn. rewrite Hh, length_replicate, app_nil_r. split_and!; try done.
    + exists []. split; [constructor|done].
    + intros Hx. by apply elem_of_replicate in Hx as [? _].
    + by destruct results.
    + by intros ->.
  - intros s s' _ Hs (Ht & Hr & Hw). split_and!; [by eapply tasks_step|by eapply results_step|by eapply workers_step].
Qed.

(** ** Progress *)
Lemma WDone_dec (y : worker_state B) : WDone = y \/ WDone <> y.
Proof. destruct y; auto. Qed.

Lemma crew_never_blocked tasks w0 s : crew_reaches tasks w0 s -> crew_ended s \/ exists s', crew_step s s'.
Proof using Hjobs Hf.
  intros Hr. destruct (crew_ok _ _ _ Hr) as (_ & _ & Hw). clear Hr.
  destruct s as [feed c ws e wt rc got fd w tr lo dr]. destruct Hw as (Hl & Hd & _ & _ & _ & Hfd & Hno).
  destruct wt; [| |destruct fd; [by left|]].
  - right. destruct (done_or_not WDone ws WDone_dec) as [Hx|(w1 & x & w2 & -> & Hx)]; [eexists; by apply work_done|].
    destruct x as [|b|]; [| |done].
    + destruct c as [|t c].
      * destruct feed as [[|t l]|]; [eexists; apply feed_ends|eexists; by apply feed_sends|eexists; apply work_ends].
      * destruct (f t w) as [[b|x|p] w'] eqn:E; [|eexists; by eapply work_fails|].
        -- destruct results eqn:Hres; eexists; [by eapply work_takes|by eapply work_silent].
        -- exfalso. apply (Hf t w p). by rewrite E.
    + destruct rc as [|b0 rc]; [eexists; by apply work_sends|].
      destruct fd; [|eexists; apply fetch_receives]. destruct results.
      * by destruct Hfd as [_ ?].
      * destruct Hno as [_ Hno]; [done|]. rewrite holding_mid in Hno. by destruct (holding w1).
  - right. eexists. apply work_returns.
  - right. destruct rc as [|b rc]; [eexists; by apply fetch_ends|eexists; apply fetch_receives].
Qed.

(** ** Termination *)
Definition left_of_worker (s : worker_state B) : nat := match s with WIdle => 1 | WHold _ => 3 | WDone => 0 end.

Definition crew_steps_left (s : crew W T B) : nat :=
  let '(Crew feed c ws _ wt rc _ fd _ _ _ _) := s in
  match feed with Some l => 4 * length l + 1 | None => 0 end + 3 * length c + sum_list (left_of_worker <$> ws) +
  match wt with Waiting => 2 | Closed => 1 | Returned => 0 end + length rc + (if fd then 0 else 1).

Lemma crew_step_decreases s s' : crew_step s s' -> crew_steps_left s' < crew_steps_left s.
Proof.
  clear Hf. destruct 1; cbn [crew_steps_left length].
  all: rewrite ?fmap_app, ?length_app, ?sum_list_with_app, ?sum_list_app; cbn; lia.
Qed.

Lemma crew_steps_bounded n s s' : nsteps crew_step n s s' -> n + crew_steps_left s' <= crew_steps_left s.
Proof. induction 1 as [|n s s1 s' Hs _ IH]; [done|]. apply crew_step_decreases in Hs. lia. Qed.

Lemma crew_bounded tasks w n s : nsteps crew_step n (crew_started tasks w) s -> n <= 4 * length tasks + jobCount + 4.
Proof.
  intros Hn. apply crew_steps_bounded in Hn. revert Hn. cbn. rewrite sum_list_replicate by done. clear Hf.
  destruct results; cbn; lia.
Qed.

(** ** What a run returns *)
Lemma crew_refines tasks w0 feed c ws e wt rc got fd w tr lo dr :
  crew_reaches tasks w0 (Crew feed c ws e wt rc got fd w tr lo dr) -> wt = Returned -> fd = true ->
  exists extra order bs, order ≡ₚ tasks /\ par extra f order None w0 = (Ok (bs, e), w) /\
    (e = None -> results = true -> got ≡ₚ bs).
Proof using Hjobs.
  intros Hr -> ->. destruct (crew_ok _ _ _ Hr) as (Ht & (bs & Hbs & Hgot) & Hl & Hd & Hx & Hlo & Hdr & Hfd & _). clear Hr.
  cbn in Ht. destruct e as [e|].
  - destruct (tries_to_error _ _ _ _ _ _ _ (c ++ lo ++ default [] feed) Hbs eq_refl) as [extra He].
    exists extra, (tr ++ c ++ lo ++ default [] feed), bs. split_and!; [rewrite <- Ht; solve_Permutation|done|done].
  - specialize (Hd ltac:(done)). destruct Hx as [[-> ->]|]; [apply Forall_eq_elem; [lia|done]| |done].
    assert (lo = []) as -> by (destruct lo; [done|by destruct Hlo]).
    assert (dr = []) as -> by (destruct dr; [done|by destruct Hdr]).
    exists 0, tr, bs. split_and!.
    + rewrite <- Ht. cbn. by rewrite app_nil_r.
    + by apply (tries_without_error f 0 None tr w0 bs None).
    + intros _ Hres. destruct (Hfd eq_refl Hres) as [_ ->]. rewrite Hgot, done_holding by done. cbn. by rewrite app_nil_r.
Qed.

(** A run from any state that is reached comes to its end. *)
Lemma crew_comes_to_an_end tasks w0 s : crew_reaches tasks w0 s -> exists s', crew_reaches tasks w0 s' /\ crew_ended s'.
Proof using Hjobs Hf.
  induction s as [s IH] using (well_founded_induction (Wf_nat.well_founded_ltof _ crew_steps_left)). intros Hr.
  destruct (crew_never_blocked _ _ _ Hr) as [He|[s' Hs]]; [by exists s|].
  apply (IH s' (crew_step_decreases _ _ Hs)). by eapply rtc_r.
Qed.

(** The goroutines never block each other, take a bounded number of steps,
    can end, and [Q] holds when they have. *)
Definition crew_runs (tasks : list T) (w0 : W) (Q : crew W T B -> Prop) : Prop :=
  (forall s, crew_reaches tasks w0 s -> crew_ended s \/ exists s', crew_step s s') /\
  (forall n s, nsteps crew_step n (crew_started tasks w0) s -> n <= 4 * length tasks + jobCount + 4) /\
  (exists s, crew_reaches tasks w0 s /\ crew_ended s) /\
  (forall s, crew_reaches tasks w0 s -> crew_ended s -> Q s).

Lemma crew_runs_intro tasks w0 (Q : crew W T B -> Prop) :
  (forall feed c ws e rc got w tr lo dr extra order bs, order ≡ₚ tasks -> par extra f order None w0 = (Ok (bs, e), w) ->
     (e = None -> results = true -> got ≡ₚ bs) -> Q (Crew feed c ws e Returned rc got true w tr lo dr)) ->
  crew_runs tasks w0 Q.
Proof using Hjobs Hf.
  intros Hq. split_and!.
  - apply crew_never_blocked.
  - apply crew_bounded.
  - eapply crew_comes_to_an_end. apply rtc_refl.
  - intros [feed c ws e wt rc got fd w tr lo dr] Hs [-> ->].
    destruct (crew_refines _ _ _ _ _ _ _ _ _ _ _ _ _ _ Hs eq_refl eq_refl) as (extra & order & bs & Ho & Hp & Hg). by eapply Hq.
Qed.
End Crew.

#[export] Instance Chunk_eq_dec : EqDecision Chunk.
Proof. solve_decision. Defined.

(** ** Check, repair and delete *)
Section Upkeep.
Context `{ChunkStorage W} (asp : AsyncSplitterPipeline).

(** The number of workers is limited to the number of chunks. *)
Definition limited (chunks : list Chunk) : nat := if length chunks <? storageJobCount asp then length chunks else storageJobCount asp.

Definition check_task (fast : bool) : Chunk -> prog W bool := fun c =>
  do! status := CheckChunk (chunk_cfg c) fast in
  if bool_decide (status = CheckStatusInvalid) then pfail errInvalidCheckStatus
  else pret (bool_decide (status = CheckStatusOptimal)).

Definition repair_task : nat * Chunk -> prog W (nat * Chunk) := fun '(index, c) =>
  do! r := RepairChunk (chunk_cfg c) in pret (index, chunk_of r (ch_Hash c)).

Definition delete_task : Chunk -> prog W unit := fun c => DeleteChunk (chunk_cfg c).

(** What the calls return, from the error of the group and what was fetched. *)
Definition check_returned (s : crew W Chunk bool) : outcome CheckStatus * W :=
  let '(Crew _ _ _ e _ _ got _ w _ _ _) := s in
  (match e with
   | None => Ok (if forallb id got then CheckStatusOptimal else CheckStatusValid)
   | Some e => if bool_decide (e = errInvalidCheckStatus) then Ok CheckStatusInvalid else Err e
   end, w).

Definition repair_returned (chunks : list Chunk) (s : crew W (nat * Chunk) (nat * Chunk)) : outcome (list Chunk) * W :=
  let '(Crew _ _ _ e _ _ got _ w _ _ _) := s in
  (match e with
   | None => Ok (foldl (fun out r => <[r.1 := r.2]> out) (replicate (length chunks) no_chunk) got)
   | Some e => Err e
   end, w).

Definition delete_returned (s : crew W Chunk unit) : outcome unit * W :=
  let '(Crew _ _ _ e _ _ _ _ w _ _ _) := s in (match e with None => Ok tt | Some e => Err e end, w).

(** Results with different indices can be put in their places in any order. *)
Lemma insert_perm {A} (l k : list (nat * A)) : l ≡ₚ k -> NoDup l.*1 ->
  forall out : list A, foldl (fun (out : list A) r => <[r.1 := r.2]> out) out l = foldl (fun (out : list A) r => <[r.1 := r.2]> out) out k.
Proof.
  induction 1 as [|x l k _ IH|x y l|l k m Hlk IH1 _ IH2]; intros Hnd out; cbn in *; [done| | |].
  - apply IH. by apply NoDup_cons in Hnd as [_ ?].
  - apply NoDup_cons in Hnd as [Hy _]. rewrite list_insert_insert_ne; [done|]. set_solver.
  - rewrite IH1 by done. apply IH2. by rewrite <- Hlk.
Qed.

Lemma repaired_indices extra l w bs w' :
  par extra repair_task l None w = (Ok (bs, None), w') -> bs.*1 = l.*1.
Proof.
  revert w bs; induction l as [|[i c] l IH]; intros w bs; cbn [par]; [by intros [= <- _]|].
  assert (Ht : repair_task (i, c) w = match RepairChunk (chunk_cfg c) w with
    | (Ok r, w1) => (Ok (i, chunk_of r (ch_Hash c)), w1) | (Err e, w1) => (Err e, w1) | (Panic p, w1) => (Panic p, w1) end).
  { cbn. unfold pbind. by destruct (RepairChunk _ _) as [[] ?]. }
  rewrite Ht. destruct (RepairChunk (chunk_cfg c) w) as [[r|e|p] w1]; [| |done].
  - unfold pbind. destruct (par extra repair_task l None w1) as [[[bs' e]|e|p] w2] eqn:E; [|done..].
    intros [= <- -> ->]. cbn. by rewrite (IH _ _ E).
  - intros Hx. by apply par_failed in Hx.
Qed.

Context (HS : 0 < storageJobCount asp).
Context (Hcheck : forall cfg fast w p, (CheckChunk cfg fast w).1 <> Panic p).
Context (Hrepair : forall cfg w p, (RepairChunk cfg w).1 <> Panic p).
Context (Hdelete : forall cfg w p, (DeleteChunk cfg w).1 <> Panic p).

(** C8. The goroutines of a parallel check, repair and delete of more than one
    chunk, with their channels and error groups: they never block each other, in
    whatever order they run and whatever fails, take a number of steps that is
    linear in the number of chunks and workers, and return, and leave on the
    servers, what the sequential definitions of [Pipeline] give for some order of
    the chunks.  The storage returns, and there are workers. *)
Theorem parallel_upkeep_network (chunks : list Chunk) (fast : bool) (w0 : W) :
  2 <= length chunks ->
  crew_runs (check_task fast) true (limited chunks) chunks w0 (fun s =>
    exists extra first, (forall l, first l ≡ₚ l) /\ Check extra first chunks fast w0 = check_returned s) /\
  crew_runs repair_task true (limited chunks) (imap pair chunks) w0 (fun s =>
    exists extra first, (forall l, first l ≡ₚ l) /\ Repair extra first chunks w0 = repair_returned chunks s) /\
  crew_runs delete_task false (limited chunks) chunks w0 (fun s =>
    exists extra first, (forall l, first l ≡ₚ l) /\ Delete extra first chunks w0 = delete_returned s).
Proof using HS Hcheck Hrepair Hdelete.
  intros Hlen. assert (Hjobs : 0 < limited chunks) by (unfold limited; destruct (Nat.ltb_spec (length chunks) (storageJobCount asp)); lia).
  destruct chunks as [|c1 [|c2 rest]]; [cbn in Hlen; lia..|]. set (chunks := c1 :: c2 :: rest) in *.
  split_and!; (apply crew_runs_intro; [done| |]).
  - intros c w p. unfold check_task, pbind. pose proof (Hcheck (chunk_cfg c) fast w). destruct (CheckChunk _ _ _) as [[st|e|q] w1]; [|done|naive_solver].
    by case_bool_decide.
  - intros feed c ws e rc got w tr lo dr extra order bs Ho Hp Hg. exists extra, (order_of chunks order).
    split; [by apply order_of_perm|]. unfold Check. cbn [chunks]. fold chunks. rewrite order_of_at.
    change (fun c => pbind _ _) with (check_task fast). unfold pbind. rewrite Hp. cbn. destruct e as [e|].
    + by case_bool_decide.
    + by rewrite (Spread.forallb_perm id got bs) by auto.
  - intros [i c] w p. unfold repair_task, pbind. pose proof (Hrepair (chunk_cfg c) w). destruct (RepairChunk _ _) as [[st|e|q] w1]; [done..|naive_solver].
  - intros feed c ws e rc got w tr lo dr extra order bs Ho Hp Hg. exists extra, (order_of (imap pair chunks) order).
    split; [by apply order_of_perm|]. unfold Repair. cbn [chunks]. fold chunks. rewrite order_of_at.
    change (fun '(index, c) => _) with repair_task. unfold pbind. rewrite Hp. cbn [snd fst]. destruct e as [e|]; [done|].
    unfold pret, repair_returned. rewrite (insert_perm bs got); [done|by rewrite Hg|].
    rewrite (repaired_indices _ _ _ _ _ Hp), Ho, imap_pair_fst. apply NoDup_seq.
  - intros c w p. apply Hdelete.
  - intros feed c ws e rc got w tr lo dr extra order bs Ho Hp Hg. exists extra, (order_of chunks order).
    split; [by apply order_of_perm|]. unfold Delete. cbn [chunks]. fold chunks. rewrite order_of_at.
    change (fun c => DeleteChunk _) with delete_task. unfold pbind. rewrite Hp. by destruct e.
Qed.
End Upkeep.

Lemma parallel_upkeep_network_witness :
  exists s, crew_reaches (check_task true) true (limited demo_pipeline demo_chunks) demo_chunks ([] : list bytes) s /\ crew_ended s.
Proof.
  destruct (parallel_upkeep_network demo_pipeline ltac:(cbn; lia) ltac:(done) ltac:(done) ltac:(done) demo_chunks true ([] : list bytes)
    ltac:(vm_compute; lia)) as ((_ & _ & Hs & _) & _). exact Hs.
Defined.
