(* ===== verification/Network.v ===== *)
(** * The goroutines and channels of a parallel write
      ([client/datastor/pipeline/async_splitter.go])

    [Pipeline] runs the tasks of a parallel write one after the other, in an
    order that is an argument.  Here is what [Write] starts: a splitter, workers
    that hash and process, workers that store, two goroutines that wait for the
    workers and close the channel behind them, and a collector, with buffered
    channels between them and an error group that cancels all of them.  A step of
    the relation is one action of one goroutine.  It is shown that the goroutines
    never block each other, that they come to an end, and that whatever they do
    is what [Pipeline] says for some order of the tasks. *)

From S2P Require Import Prelude Encoding Spread Pipeline Crew.
Import AsyncSplitter.
Open Scope nat_scope.

Section Network.
Context `{ChunkStorage W} (asp : AsyncSplitterPipeline) (hash : bytes -> bytes) (proc : Processor).

(** ** States *)

(** The splitter: what is still to be read, and the piece that it is sending. *)
Inductive splitter_state := SRead (l : list (nat * outcome bytes)) | SHold (index : nat) (data : bytes) (l : list (nat * outcome bytes)) | SDone.

(** A worker that processes waits for input, sends what it made, or has returned. *)
Inductive processor_state := PIdle | PHold (index : nat) (input data : bytes) | PDone.

Inductive storage_state := TIdle | THold (chunk : nat * Chunk) | TDone.

(** The state: the splitter and its channel; the processors, the error of their
    group, who waits for them, and their channel; the same for the storage
    workers; what the collector received and what it returned; the error of the
    whole group, which is cancelled by it; the servers.  The last three are
    history: the pieces that were handed to the storage, those that were not, and the chunks
    that were stored but given up. *)
Inductive net := Net
  (src : splitter_state) (inputCh : list (nat * bytes))
  (procs : list processor_state) (perr : option error) (pwait : wait_state) (dataCh : list (nat * bytes * bytes))
  (stors : list storage_state) (serr : option error) (swait : wait_state) (chunkCh : list (nat * Chunk))
  (received : list (nat * Chunk)) (coll : option (option error)) (gerr : option error) (w : W)
  (tried : list (nat * bytes)) (lost : list (nat * outcome bytes)) (dropped : list (nat * Chunk)).

Definition collector_error (l : list (nat * Chunk)) : option error :=
  match collect_chunks (storageJobCount asp) l with Err e => Some e | _ => None end.

(** ** Steps *)
Inductive net_step : net -> net -> Prop :=
  | split_read i d l ic ps pe pw dc ts te tw cc rc co g w tr lo dr :
      net_step (Net (SRead ((i, Ok d) :: l)) ic ps pe pw dc ts te tw cc rc co g w tr lo dr)
           (Net (SHold i d l) ic ps pe pw dc ts te tw cc rc co g w tr lo dr)
  | split_fails i e l ic ps pe pw dc ts te tw cc rc co g w tr lo dr :
      net_step (Net (SRead ((i, Err e) :: l)) ic ps pe pw dc ts te tw cc rc co g w tr lo dr)
           (Net SDone ic ps pe pw dc ts te tw cc rc co (group_returns (Some e) g) w tr ((i, Err e) :: l ++ lo) dr)
  | split_ends ic ps pe pw dc ts te tw cc rc co g w tr lo dr :
      net_step (Net (SRead []) ic ps pe pw dc ts te tw cc rc co g w tr lo dr)
           (Net SDone ic ps pe pw dc ts te tw cc rc co g w tr lo dr)
  | split_sends i d l ic ps pe pw dc ts te tw cc rc co g w tr lo dr :
      length ic < processorJobCount asp ->
      net_step (Net (SHold i d l) ic ps pe pw dc ts te tw cc rc co g w tr lo dr)
           (Net (SRead l) (ic ++ [(i, d)]) ps pe pw dc ts te tw cc rc co g w tr lo dr)
  | split_cancelled i d l ic ps pe pw dc ts te tw cc rc co e w tr lo dr :
      net_step (Net (SHold i d l) ic ps pe pw dc ts te tw cc rc co (Some e) w tr lo dr)
           (Net SDone ic ps pe pw dc ts te tw cc rc co (Some e) w tr ((i, Ok d) :: l ++ lo) dr)
  | proc_takes s i d ic p1 p2 y pe pw dc ts te tw cc rc co g w tr lo dr :
      WriteProcess proc d = Ok y ->
      net_step (Net s ((i, d) :: ic) (p1 ++ PIdle :: p2) pe pw dc ts te tw cc rc co g w tr lo dr)
           (Net s ic (p1 ++ PHold i d y :: p2) pe pw dc ts te tw cc rc co g w tr lo dr)
  | proc_fails s i d ic p1 p2 e pe pw dc ts te tw cc rc co g w tr lo dr :
      WriteProcess proc d = Err e ->
      net_step (Net s ((i, d) :: ic) (p1 ++ PIdle :: p2) pe pw dc ts te tw cc rc co g w tr lo dr)
           (Net s ic (p1 ++ PDone :: p2) (group_returns (Some e) pe) pw dc ts te tw cc rc co g w tr ((i, Ok d) :: lo) dr)
  | proc_ends p1 p2 pe pw dc ts te tw cc rc co g w tr lo dr :
      net_step (Net SDone [] (p1 ++ PIdle :: p2) pe pw dc ts te tw cc rc co g w tr lo dr)
           (Net SDone [] (p1 ++ PDone :: p2) pe pw dc ts te tw cc rc co g w tr lo dr)
  | proc_sends s ic p1 p2 i d y pe pw dc ts te tw cc rc co g w tr lo dr :
      length dc < storageJobCount asp ->
      net_step (Net s ic (p1 ++ PHold i d y :: p2) pe pw dc ts te tw cc rc co g w tr lo dr)
           (Net s ic (p1 ++ PIdle :: p2) pe pw (dc ++ [(i, d, y)]) ts te tw cc rc co g w tr lo dr)
  | proc_cancelled s ic p1 p2 i d y pe pw dc ts te tw cc rc co e w tr lo dr :
      net_step (Net s ic (p1 ++ PHold i d y :: p2) pe pw dc ts te tw cc rc co (Some e) w tr lo dr)
           (Net s ic (p1 ++ PDone :: p2) pe pw dc ts te tw cc rc co (Some e) w tr ((i, Ok d) :: lo) dr)
  | procs_done s ic ps pe dc ts te tw cc rc co g w tr lo dr :
      Forall (eq PDone) ps ->
      net_step (Net s ic ps pe Waiting dc ts te tw cc rc co g w tr lo dr)
           (Net s ic ps pe Closed dc ts te tw cc rc co g w tr lo dr)
  | procs_return s ic ps pe dc ts te tw cc rc co g w tr lo dr :
      net_step (Net s ic ps pe Closed dc ts te tw cc rc co g w tr lo dr)
           (Net s ic ps pe Returned dc ts te tw cc rc co (group_returns pe g) w tr lo dr)
  | stor_takes s ic ps pe pw i d y dc t1 t2 te tw cc rc co g w c w' tr lo dr :
      WriteChunk y w = (Ok c, w') ->
      net_step (Net s ic ps pe pw ((i, d, y) :: dc) (t1 ++ TIdle :: t2) te tw cc rc co g w tr lo dr)
           (Net s ic ps pe pw dc (t1 ++ THold (i, chunk_of c (hash d)) :: t2) te tw cc rc co g w' (tr ++ [(i, d)]) lo dr)
  | stor_fails s ic ps pe pw i d y dc t1 t2 te tw cc rc co g w e w' tr lo dr :
      WriteChunk y w = (Err e, w') ->
      net_step (Net s ic ps pe pw ((i, d, y) :: dc) (t1 ++ TIdle :: t2) te tw cc rc co g w tr lo dr)
           (Net s ic ps pe pw dc (t1 ++ TDone :: t2) (group_returns (Some e) te) tw cc rc co g w' (tr ++ [(i, d)]) lo dr)
  | stor_ends s ic ps pe pw t1 t2 te tw cc rc co g w tr lo dr :
      pw <> Waiting ->
      net_step (Net s ic ps pe pw [] (t1 ++ TIdle :: t2) te tw cc rc co g w tr lo dr)
           (Net s ic ps pe pw [] (t1 ++ TDone :: t2) te tw cc rc co g w tr lo dr)
  | stor_sends s ic ps pe pw dc t1 t2 x te tw cc rc co g w tr lo dr :
      length cc < storageJobCount asp ->
      net_step (Net s ic ps pe pw dc (t1 ++ THold x :: t2) te tw cc rc co g w tr lo dr)
           (Net s ic ps pe pw dc (t1 ++ TIdle :: t2) te tw (cc ++ [x]) rc co g w tr lo dr)
  | stor_cancelled s ic ps pe pw dc t1 t2 x te tw cc rc co e w tr lo dr :
      net_step (Net s ic ps pe pw dc (t1 ++ THold x :: t2) te tw cc rc co (Some e) w tr lo dr)
           (Net s ic ps pe pw dc (t1 ++ TDone :: t2) te tw cc rc co (Some e) w tr lo (x :: dr))
  | stors_done s ic ps pe pw dc ts te cc rc co g w tr lo dr :
      Forall (eq TDone) ts ->
      net_step (Net s ic ps pe pw dc ts te Waiting cc rc co g w tr lo dr)
           (Net s ic ps pe pw dc ts te Closed cc rc co g w tr lo dr)
  | stors_return s ic ps pe pw dc ts te cc rc co g w tr lo dr :
      net_step (Net s ic ps pe pw dc ts te Closed cc rc co g w tr lo dr)
           (Net s ic ps pe pw dc ts te Returned cc rc co (group_returns te g) w tr lo dr)
  | coll_receives s ic ps pe pw dc ts te tw x cc rc g w tr lo dr :
      net_step (Net s ic ps pe pw dc ts te tw (x :: cc) rc None g w tr lo dr)
           (Net s ic ps pe pw dc ts te tw cc (rc ++ [x]) None g w tr lo dr)
  | coll_ends s ic ps pe pw dc ts te tw rc g w tr lo dr :
      tw <> Waiting ->
      net_step (Net s ic ps pe pw dc ts te tw [] rc None g w tr lo dr)
           (Net s ic ps pe pw dc ts te tw [] rc (Some (collector_error rc)) (group_returns (collector_error rc) g) w tr lo dr).

(** What [Write] starts. *)
Definition net_started (r : Reader) (w : W) : net :=
  Net (SRead (imap pair (splitter r))) [] (replicate (processorJobCount asp) PIdle) None Waiting []
    (replicate (storageJobCount asp) TIdle) None Waiting [] [] None None w [] [] [].

Definition net_reaches (r : Reader) (w : W) (s : net) : Prop := rtc net_step (net_started r w) s.

(** [group.Wait] returns. *)
Definition net_ended (s : net) : Prop :=
  let '(Net src _ _ _ pw _ _ _ tw _ _ co _ _ _ _ _) := s in src = SDone /\ pw = Returned /\ tw = Returned /\ co <> None.

(** What [Write] returns then. *)
Definition net_returned (s : net) : outcome (list Chunk) * W :=
  let '(Net _ _ _ _ _ _ _ _ _ _ rc _ g w _ _ _) := s in
  (match g with Some e => Err e | None => collect_chunks (storageJobCount asp) rc end, w).

(** What one task of [Write] does. *)
Definition write_task : nat * outcome bytes -> prog W (nat * Chunk) := fun '(index, input) =>
  do! input := plift input in
  do! data := plift (WriteProcess proc input) in
  do! c := WriteChunk data in
  pret (index, chunk_of c (hash input)).

(** ** Where a task is *)
Definition mark (t : nat * bytes) : nat * outcome bytes := (t.1, Ok t.2).

Definition src_tasks (s : splitter_state) : list (nat * outcome bytes) :=
  match s with SRead l => l | SHold i d l => (i, Ok d) :: l | SDone => [] end.

Definition proc_task (p : processor_state) : list (nat * bytes * bytes) :=
  match p with PHold i d y => [(i, d, y)] | _ => [] end.

Definition stor_chunk (t : storage_state) : list (nat * Chunk) := match t with THold x => [x] | _ => [] end.

Definition processing (ps : list processor_state) : list (nat * bytes * bytes) := concat (proc_task <$> ps).
Definition storing (ts : list storage_state) : list (nat * Chunk) := concat (stor_chunk <$> ts).

Lemma processing_mid p1 p p2 : processing (p1 ++ p :: p2) = processing p1 ++ proc_task p ++ processing p2.
Proof. unfold processing. by rewrite fmap_app, concat_app. Qed.

Lemma storing_mid t1 t t2 : storing (t1 ++ t :: t2) = storing t1 ++ stor_chunk t ++ storing t2.
Proof. unfold storing. by rewrite fmap_app, concat_app. Qed.

(** ** Invariants *)

(** No piece is lost or doubled: every piece that the splitter makes is in one
    place. *)
Definition conserved (r : Reader) (s : net) : Prop :=
  let '(Net src ic ps _ _ dc _ _ _ _ _ _ _ _ tr lo _) := s in
  src_tasks src ++ (mark <$> ic) ++ (mark ∘ fst <$> processing ps) ++ (mark ∘ fst <$> dc) ++ (mark <$> tr) ++ lo
    ≡ₚ imap pair (splitter r).

(** What is sent to the storage is what the processor made of the piece. *)
Definition processed_ok (s : net) : Prop :=
  let '(Net _ _ ps _ _ dc _ _ _ _ _ _ _ _ _ _ _) := s in
  Forall (fun '(_, d, y) => WriteProcess proc d = Ok y) (processing ps ++ dc).

(** The servers are as after the tasks that were handed to the storage; their results are on their
    way to the collector, with it, or were given up. *)
Definition stored (w0 : W) (s : net) : Prop :=
  let '(Net _ _ _ _ _ _ ts te _ cc rc _ _ w tr _ dr) := s in
  exists bs, tries write_task None (mark <$> tr) w0 bs te w /\ bs ≡ₚ storing ts ++ cc ++ rc ++ dr.

(** The processors: when they are waited for, why one stops, what is given up. *)
Definition processors_ok (s : net) : Prop :=
  let '(Net src ic ps pe pw _ _ _ _ _ _ _ g _ _ lo _) := s in
  length ps = processorJobCount asp /\ (pw <> Waiting -> Forall (eq PDone) ps) /\
  (pw = Returned -> pe <> None -> g <> None) /\
  (PDone ∈ ps -> (src = SDone /\ ic = []) \/ pe <> None \/ g <> None) /\
  (lo <> [] -> pe <> None \/ g <> None).

Definition storages_ok (s : net) : Prop :=
  let '(Net _ _ _ _ pw dc ts te tw cc _ co g _ _ _ dr) := s in
  length ts = storageJobCount asp /\ (tw <> Waiting -> Forall (eq TDone) ts) /\
  (tw = Returned -> te <> None -> g <> None) /\
  (TDone ∈ ts -> (pw <> Waiting /\ dc = []) \/ te <> None \/ g <> None) /\
  (dr <> [] -> g <> None) /\ (co <> None -> tw <> Waiting /\ cc = []).

Lemma conserved_step r s s' : conserved r s -> net_step s s' -> conserved r s'.
Proof.
  intros Hc Hs. destruct Hs; unfold conserved in *; rewrite <- Hc; clear Hc.
  all: rewrite ?processing_mid; cbn [src_tasks proc_task]; rewrite ?fmap_app; cbn; solve_Permutation.
Qed.

Lemma processed_step s s' : processed_ok s -> net_step s s' -> processed_ok s'.
Proof.
  intros Hp Hs. destruct Hs; unfold processed_ok in *; revert Hp; rewrite ?processing_mid; cbn [proc_task app].
  all: rewrite ?Forall_app, ?Forall_cons, ?Forall_app, ?Forall_cons, ?Forall_nil; naive_solver.
Qed.

Lemma stored_step w0 s s' : processed_ok s -> stored w0 s -> net_step s s' -> stored w0 s'.
Proof.
  intros Hp Hst Hs. destruct Hs; cbn [stored processed_ok] in *; destruct Hst as (bs & Ht & Hbs).
  all: revert Hbs; rewrite ?storing_mid; cbn [stor_chunk app]; intros Hbs.
  all: try (exists bs; split; [done|rewrite Hbs; solve_Permutation]).
  - apply Forall_app in Hp as [_ Hp]. apply Forall_cons_1 in Hp as [Hy _].
    exists (bs ++ [(i, chunk_of c (hash d))]). rewrite fmap_app. split; [|rewrite Hbs; solve_Permutation].
    eapply tries_snoc_ok; [done|]. cbn. unfold pbind, plift. by rewrite Hy, H0.
  - apply Forall_app in Hp as [_ Hp]. apply Forall_cons_1 in Hp as [Hy _].
    exists bs. rewrite fmap_app. split; [|rewrite Hbs; solve_Permutation].
    eapply tries_snoc_err; [done|]. cbn. unfold pbind, plift. by rewrite Hy, H0.
Qed.

Lemma processors_step s s' : processors_ok s -> net_step s s' -> processors_ok s'.
Proof.
  intros Hp Hs. destruct Hs; cbn [processors_ok] in *; destruct Hp as (Hl & Hw & Hr & Hd & Hlo).
  all: rewrite ?length_app, ?Forall_app, ?Forall_cons, ?elem_of_app, ?elem_of_cons in *; cbn [length] in *.
  all: split_and!; try done; first [clear Hw Hr Hlo; by_groups | by_groups].
Qed.

Lemma storages_step s s' : processors_ok s -> storages_ok s -> net_step s s' -> storages_ok s'.
Proof.
  intros Hps Hp Hs. destruct Hs; cbn [storages_ok] in *; destruct Hp as (Hl & Hw & Hr & Hd & Hdr & Hco).
  all: rewrite ?length_app, ?Forall_app, ?Forall_cons, ?elem_of_app, ?elem_of_cons in *; cbn [length] in *.
  9: assert (pw = Waiting) as -> by (destruct Hps as (_ & Hps & _); rewrite Forall_app, Forall_cons in Hps; destruct pw; naive_solver).
  all: clear Hps; split_and!; try done; first [clear Hw Hr Hdr Hco; by_groups | by_groups].
Qed.

(** Where an error comes from. *)
Definition errors_ok (s : net) : Prop :=
  let '(Net _ _ _ pe _ _ _ te _ _ rc co g _ _ lo dr) := s in
  (forall e, pe = Some e -> exists i d, (i, Ok d) ∈ lo /\ WriteProcess proc d = Err e) /\
  (forall e, g = Some e -> (exists i, (i, Err e) ∈ lo) \/ pe = Some e \/ te = Some e \/
     (collector_error rc = Some e /\ co <> None /\ dr = [] /\ (pe <> None \/ te <> None))).

Lemma done_processing ps : Forall (eq PDone) ps -> processing ps = [].
Proof. unfold processing. induction 1 as [|p ps <- _ IH]; [done|]. cbn. done. Qed.

Lemma done_storing ts : Forall (eq TDone) ts -> storing ts = [].
Proof. unfold storing. induction 1 as [|p ps <- _ IH]; [done|]. cbn. done. Qed.

(** [collect_chunks] with the results of all the tasks. *)
Lemma tries_collected r l w bs e w' :
  0 < storageJobCount asp -> l ≡ₚ imap pair (splitter r) -> tries write_task None l w bs e w' -> e = None ->
  forall rc, rc ≡ₚ bs -> exists chunks, collect_chunks (storageJobCount asp) rc = Ok chunks.
Proof.
  intros HS Hp Ht He rc Hrc.
  assert (Hf : forall x l w bs e w', tries write_task x l w bs e w' -> x = None -> e = None -> Forall2 (fun t c => t.1 = c.1 /\ True) l bs).
  { clear. induction 1 as [x w|x [i t] l w b w1 bs e' w' Ht _ IH|x t l w y w1 bs e' w' Ht Hl _]; intros Hx He; subst; [by constructor| |].
    - constructor; [|by apply IH]. split; [|done]. cbn in Ht. unfold pbind, plift, pret in Ht.
      repeat case_match; by simplify_eq.
    - by pose proof (tries_keep_error _ _ _ _ _ _ _ Hl y eq_refl). }
  specialize (Hf _ _ _ _ _ _ Ht eq_refl He).
  destruct (indexed_results (fun _ _ => True) _ _ _ Hp Hf) as (cs & _ & Hcs). exists cs. apply collect_chunks_spec; [done|].
  by rewrite Hrc.
Qed.

Section Wide.
Context (HP : 0 < processorJobCount asp) (HS : 0 < storageJobCount asp).

(** Storage workers that stopped without any error have stored everything. *)
Lemma all_stored r src ic ps pe pw dc ts te tw cc rc co g w tr lo dr :
  let s := Net src ic ps pe pw dc ts te tw cc rc co g w tr lo dr in
  conserved r s -> processors_ok s -> storages_ok s ->
  tw <> Waiting -> pe = None -> te = None -> g = None -> mark <$> tr ≡ₚ imap pair (splitter r) /\ dr = [] /\ storing ts = [].
Proof using HP HS.
  intros s Hc Hp Hst Htw -> -> ->. cbn in Hc.
  destruct Hp as (Hlp & Hpd & _ & Hpx & Hlo). destruct Hst as (Hlt & Htd & _ & Htx & Hdr & _).
  specialize (Htd Htw). destruct Htx as [[Hpw ->]|[|]]; [apply Forall_eq_elem; [lia|done]| |done..].
  specialize (Hpd Hpw). destruct Hpx as [[-> ->]|[|]]; [apply Forall_eq_elem; [lia|done]| |done..].
  assert (lo = []) as -> by (destruct lo; [done|]; by destruct Hlo).
  assert (dr = []) as -> by (destruct dr; [done|]; by destruct Hdr).
  split; [|split; [done|by apply done_storing]].
  rewrite <- Hc, (done_processing ps) by done. cbn. by rewrite app_nil_r.
Qed.

Lemma errors_step r w0 s s' :
  conserved r s -> stored w0 s -> processors_ok s -> storages_ok s -> errors_ok s -> net_step s s' -> errors_ok s'.
Proof using HP HS.
  intros Hc Hst Hp Ht He Hs. destruct Hs; cbn [errors_ok] in *; destruct He as [Hpe Hg].
  21: { split; [done|]. intros e He. destruct g as [e0|]; [injection He as <-; destruct (Hg e0 eq_refl) as [|[|[|(_ & ? & _)]]]; by auto|].
        cbn in He. do 3 right. split; [done|]. split; [done|]. pose proof Ht as (_ & _ & _ & _ & Hdr & _).
        assert (dr = []) as -> by (destruct dr; [done|by destruct Hdr]).
        split; [done|]. destruct pe as [|]; [by left|]. destruct te as [|]; [by right|]. exfalso.
        destruct (all_stored _ _ _ _ _ _ _ _ _ _ _ _ _ _ _ _ _ _ Hc Hp Ht) as (Htr & _ & Hts); [done..|].
        destruct Hst as (bs & Hbs & Hrc). rewrite Hts, app_nil_r in Hrc. cbn in Hrc.
        destruct (tries_collected _ _ _ _ _ _ HS Htr Hbs eq_refl rc) as [cs Hcs]; [by rewrite Hrc|].
        unfold collector_error in He. by rewrite Hcs in He. }
  17: { split; [done|]. intros e0 He0. destruct (Hg e0 He0) as [|[|[|(_ & Hco & _)]]]; [by auto..|exfalso].
        destruct Ht as (_ & Htd & _ & _ & _ & Hcc). apply Hcc in Hco as [Hco _]. apply Htd in Hco.
        apply Forall_app in Hco as [_ Hco]. by apply Forall_cons_1 in Hco as [? _]. }
  all: clear Hc Hst Hp Ht; try setoid_rewrite elem_of_cons; try setoid_rewrite elem_of_app.
  all: split; [intros e1 He1|intros e1 He1].
  all: try (destruct (Hpe e1 He1) as (i1 & d1 & ? & ?); eauto 8).
  all: try (destruct (Hg e1 He1) as [[i1 ?]|[?|[?|(? & ? & ? & ?)]]]; eauto 10; fail).
  all: clear HP HS; destruct g, pe, te; cbn [group_returns] in *; simplify_eq; naive_solver.
Qed.

(** *** Every state that is reached *)
Lemma reached_ok r w0 s :
  net_reaches r w0 s -> conserved r s /\ processed_ok s /\ stored w0 s /\ processors_ok s /\ storages_ok s /\ errors_ok s.
Proof using HP HS.
  revert s. apply (rtc_ind_r _ (net_started r w0)); [|intros s s' _ Hs (Hc & Hp & Hst & Hpo & Hso & He)].
  - assert (Hrep : forall n, processing (replicate n PIdle) = [] /\ storing (replicate n TIdle) = []).
    { intros n. unfold processing, storing. by induction n as [|n [IHp IHs]]. }
    assert (Hno : forall {A} n (x y : A), x ∈ replicate n y -> x = y) by (intros A n x y Hx; by apply elem_of_replicate in Hx as [? _]).
    unfold net_started. cbn. rewrite (proj1 (Hrep _)), (proj2 (Hrep _)), !length_replicate. cbn. rewrite app_nil_r. split_and!; try done.
    + exists []. split; [constructor|done].
    + intros Hx. by apply Hno in Hx.
    + intros Hx. by apply Hno in Hx.
  - split_and!; [by eapply conserved_step|by eapply processed_step|by eapply stored_step|by eapply processors_step
      |by eapply storages_step|by eapply errors_step].
Qed.

(** ** Progress *)
Context (Hwp : forall d p, WriteProcess proc d <> Panic p).
Context (Hwc : forall y w p, (WriteChunk y w).1 <> Panic p).

Lemma PDone_dec y : PDone = y \/ PDone <> y.
Proof. destruct y; auto. Qed.

Lemma TDone_dec y : TDone = y \/ TDone <> y.
Proof. destruct y; auto. Qed.

Lemma splitter_returns r i p : (i, Panic p) ∉ imap pair (splitter r).
Proof.
  rewrite imap_pair_lookup. intros Hi. apply list_elem_of_lookup_2 in Hi. revert Hi.
  induction r as [|[d [e|]] r IH]; cbn; [by apply not_elem_of_nil| |].
  - case_bool_decide; rewrite ?elem_of_cons, ?elem_of_nil; naive_solver.
  - rewrite elem_of_cons. naive_solver.
Qed.

(** The splitter goes on when it reads, when there is room, or when it is cancelled. *)
Lemma splitter_steps r src ic ps pe pw dc ts te tw cc rc co g w tr lo dr :
  conserved r (Net src ic ps pe pw dc ts te tw cc rc co g w tr lo dr) -> src <> SDone ->
  length ic < processorJobCount asp \/ g <> None ->
  exists s', net_step (Net src ic ps pe pw dc ts te tw cc rc co g w tr lo dr) s'.
Proof.
  intros Hc Hs Hroom. destruct src as [[|[i [d|e|p]] l]|i d l|]; [eexists; constructor..| | |done].
  - exfalso. apply (splitter_returns r i p). cbn in Hc. rewrite <- Hc. apply list_elem_of_here.
  - destruct Hroom as [Hl|Hg]; [eexists; by constructor|]. destruct g as [e|]; [eexists; apply split_cancelled|done].
Qed.

(** The processors go on as long as they are waited for, when there is room
    behind them or they are cancelled. *)
Lemma processors_go r src ic ps pe dc ts te tw cc rc co g w tr lo dr :
  conserved r (Net src ic ps pe Waiting dc ts te tw cc rc co g w tr lo dr) ->
  dc = [] \/ g <> None ->
  exists s', net_step (Net src ic ps pe Waiting dc ts te tw cc rc co g w tr lo dr) s'.
Proof using HP HS Hwp.
  intros Hc Hroom. destruct (done_or_not PDone ps PDone_dec) as [Hd|(p1 & p & p2 & -> & Hd)]; [eexists; by apply procs_done|].
  destruct p as [|i d y|]; [| |done].
  - destruct ic as [|[i d] ic].
    + destruct src as [l|i d l|]; [eapply splitter_steps; eauto..|eexists; apply proc_ends].
    + destruct (WriteProcess proc d) as [y|e|p] eqn:Hy; [eexists; by eapply proc_takes|eexists; by eapply proc_fails|by apply Hwp in Hy].
  - destruct Hroom as [->|Hg]; [eexists; by apply proc_sends|]. destruct g as [e|]; [eexists; apply proc_cancelled|done].
Qed.

(** No state that is reached blocks. *)
Lemma never_blocked r w0 s : net_reaches r w0 s -> net_ended s \/ exists s', net_step s s'.
Proof using HP HS Hwp Hwc.
  intros Hr. destruct (reached_ok _ _ _ Hr) as (Hc & _ & _ & Hp & Hs & _). clear Hr.
  destruct s as [src ic ps pe pw dc ts te tw cc rc co g w tr lo dr].
  destruct Hp as (Hlp & Hpd & Hpr & Hpx & _). destruct Hs as (Hlt & Htd & Htr & Htx & _ & Hco).
  destruct co as [co|].
  - destruct Hco as [Htw ->]; [done|]. specialize (Htd Htw). destruct tw; [done|right; eexists; apply stors_return|].
    assert (Hts : TDone ∈ ts) by (apply Forall_eq_elem; [lia|done]). destruct pw.
    + right. eapply processors_go; [done|]. right. naive_solver.
    + right; eexists; apply procs_return.
    + destruct src as [l|i d l|]; [| |by left].
      all: right; eapply splitter_steps; [done..|]; right.
      all: destruct Hpx as [[? _]|[?|?]]; [apply Forall_eq_elem; [lia|auto]|done|auto|auto].
  - right. destruct cc as [|x cc]; [|eexists; apply coll_receives].
    destruct tw; [|eexists; by apply coll_ends..].
    destruct (done_or_not TDone ts TDone_dec) as [Hd|(t1 & t & t2 & -> & Hd)]; [eexists; by apply stors_done|].
    destruct t as [|x|]; [|eexists; by apply stor_sends|done].
    destruct dc as [|[[i d] y] dc].
    + destruct pw; [eapply processors_go; eauto|eexists; by apply stor_ends..].
    + destruct (WriteChunk y w) as [[c|e|p] w'] eqn:Hy; [eexists; by eapply stor_takes|eexists; by eapply stor_fails|].
      exfalso. apply (Hwc y w p). by rewrite Hy.
Qed.

(** ** Termination

    Every step moves a piece on, or ends a goroutine. *)
Definition left_of_src (s : splitter_state) : nat :=
  match s with SRead l => 8 * length l + 1 | SHold _ _ l => 8 * length l + 8 | SDone => 0 end.
Definition left_of_proc (p : processor_state) : nat := match p with PIdle => 1 | PHold _ _ _ => 6 | PDone => 0 end.
Definition left_of_stor (t : storage_state) : nat := match t with TIdle => 1 | THold _ => 4 | TDone => 0 end.
Definition left_of_wait (t : wait_state) : nat := match t with Waiting => 2 | Closed => 1 | Returned => 0 end.

Definition steps_left (s : net) : nat :=
  let '(Net src ic ps _ pw dc ts _ tw cc _ co _ _ _ _ _) := s in
  left_of_src src + 6 * length ic + sum_list (left_of_proc <$> ps) + left_of_wait pw + 4 * length dc +
  sum_list (left_of_stor <$> ts) + left_of_wait tw + 2 * length cc + match co with None => 1 | Some _ => 0 end.

Lemma step_decreases s s' : net_step s s' -> steps_left s' < steps_left s.
Proof.
  clear. destruct 1; cbn [steps_left left_of_src left_of_wait length].
  all: rewrite ?fmap_app, ?length_app, ?sum_list_with_app, ?sum_list_app; cbn; lia.
Qed.

Lemma steps_bounded n s s' : nsteps net_step n s s' -> n + steps_left s' <= steps_left s.
Proof. induction 1 as [|n s s1 s' Hs _ IH]; [done|]. apply step_decreases in Hs. lia. Qed.

Lemma steps_left_started r w :
  steps_left (net_started r w) = 8 * length (splitter r) + processorJobCount asp + storageJobCount asp + 6.
Proof.
  cbn. rewrite length_imap, !sum_list_replicate by done. lia.
Qed.

(** A run from any state that is reached comes to its end. *)
Lemma comes_to_an_end r w0 s : net_reaches r w0 s -> exists s', net_reaches r w0 s' /\ net_ended s'.
Proof using HP HS Hwp Hwc.
  induction s as [s IH] using (well_founded_induction (Wf_nat.well_founded_ltof _ steps_left)). intros Hr.
  destruct (never_blocked _ _ _ Hr) as [He|[s' Hs]]; [by exists s|].
  apply (IH s' (step_decreases _ _ Hs)). by eapply rtc_r.
Qed.

(** ** The network writes as [Write] does *)

(** A run that failed with [e], from a task that was not stored or one that was tried. *)
Lemma failing_order tasks tr lo rest w0 bs te w e :
  (mark <$> tr) ++ lo ++ rest ≡ₚ tasks -> tries write_task None (mark <$> tr) w0 bs te w ->
  (exists t, t ∈ lo /\ write_task t w0 = (Err e, w0)) \/ te = Some e ->
  exists extra order, order ≡ₚ tasks /\ par extra write_task order None w0 = (Ok (bs, Some e), w).
Proof.
  intros Hp Ht [(t & Hlo & Hf)| ->].
  - apply elem_of_Permutation in Hlo as [lo' Hlo]. destruct (tries_from _ _ _ _ _ _ _ Ht (Some e)) as [e2 H2].
    exists (length (mark <$> tr)), (t :: (mark <$> tr) ++ lo' ++ rest). split.
    + rewrite <- Hp, Hlo. solve_Permutation.
    + cbn [par]. rewrite Hf. by eapply tries_after_error.
  - destruct (tries_to_error _ _ _ _ _ _ _ (lo ++ rest) Ht eq_refl) as [extra He].
    by exists extra, ((mark <$> tr) ++ lo ++ rest).
Qed.

Context (Hhash : hasher (config asp) = Ok hash) (Hproc : processor (config asp) = Ok proc).

Lemma Write_in_order r w0 extra order bs err w race got :
  order ≡ₚ imap pair (splitter r) -> par extra write_task order None w0 = (Ok (bs, err), w) -> got ≡ₚ bs ->
  exists first second, (forall l, first l ≡ₚ l) /\ (forall l, second l ≡ₚ l) /\
    Write asp extra race first second (Some r) w0 =
      (match err with
       | None => collect_chunks (storageJobCount asp) got
       | Some e => Err (match collector_error got with Some e' => if race : bool then e' else e | None => e end)
       end, w).
Proof using Hhash Hproc.
  intros Ho Hp Hg. exists (order_of (imap pair (splitter r)) order), (order_of bs got).
  split; [by apply order_of_perm|]. split; [by apply order_of_perm|].
  unfold Write. unfold pbind at 1 2, plift at 1 2. rewrite Hhash, Hproc, order_of_at. unfold pbind at 1.
  change (fun '(index, input) => _) with write_task. rewrite Hp. cbn [fst snd]. rewrite order_of_at. unfold collector_error.
  by destruct err, (collect_chunks _ _).
Qed.

(** Why a run that ends with [e] failed: the error of a task, or the collector's when a task failed too. *)
Lemma failing_cause src ic ps pe pw dc ts te tw cc rc co w tr lo dr e w0 bs :
  errors_ok (Net src ic ps pe pw dc ts te tw cc rc co (Some e) w tr lo dr) -> rc ++ dr ≡ₚ bs ->
  exists e0 got (race : bool), ((exists t, t ∈ lo /\ write_task t w0 = (Err e0, w0)) \/ te = Some e0) /\
    got ≡ₚ bs /\ match collector_error got with Some e' => if race then e' else e0 | None => e0 end = e.
Proof.
  intros [Hpe Hg] Hbs.
  assert (Hpt : forall e0, pe = Some e0 -> exists t, t ∈ lo /\ write_task t w0 = (Err e0, w0)).
  { intros e0 He0. destruct (Hpe e0 He0) as (i & d & Hin & Hd). exists (i, Ok d). split; [done|].
    cbn. unfold pbind, plift. by rewrite Hd. }
  assert (Hfirst : match collector_error bs with Some e' => if false then e' else e | None => e end = e)
    by (by destruct (collector_error bs)).
  destruct (Hg e eq_refl) as [[i Hi]|[Hx|[Hx|(Hx & _ & -> & Hy)]]].
  - exists e, bs, false. split_and!; [left; by exists (i, Err e)|done|done].
  - exists e, bs, false. split_and!; [left; auto|done|done].
  - exists e, bs, false. split_and!; [by right|done|done].
  - rewrite app_nil_r in Hbs.
    assert (exists e0, pe = Some e0 \/ te = Some e0) as [e0 He0] by (destruct pe, te; naive_solver).
    exists e0, rc, true. rewrite Hx. split_and!; [destruct He0; auto|done|done].
Qed.

(** What a run returns is what [Write] returns, in some order of its tasks. *)
Lemma network_refines r w0 s :
  net_reaches r w0 s -> net_ended s ->
  exists extra race first second, (forall l, first l ≡ₚ l) /\ (forall l, second l ≡ₚ l) /\
    Write asp extra race first second (Some r) w0 = net_returned s.
Proof using HP HS Hhash Hproc.
  intros Hr He. destruct (reached_ok _ _ _ Hr) as (Hc & _ & Hst & Hp & Hs & Herr). clear Hr.
  destruct s as [src ic ps pe pw dc ts te tw cc rc co g w tr lo dr]. destruct He as (-> & -> & -> & Hco).
  pose proof Hs as (_ & Htd & Htr & _ & _ & Hcc). destruct (Hcc Hco) as [_ ->]. destruct Hst as (bs & Ht & Hbs).
  rewrite (done_storing ts) in Hbs by auto. cbn in Hbs. destruct g as [e|].
  - assert (Hfail : exists e0 got race, ((exists t, t ∈ lo /\ write_task t w0 = (Err e0, w0)) \/ te = Some e0) /\
              got ≡ₚ bs /\ match collector_error got with Some e' => if race : bool then e' else e0 | None => e0 end = e).
    { eapply failing_cause; [done|]. by rewrite Hbs. }
    destruct Hfail as (e0 & got & race & Hfail & Hgot & He).
    destruct (failing_order (imap pair (splitter r)) tr lo ((mark <$> ic) ++ (mark ∘ fst <$> dc)) w0 bs te w e0) as (extra & order & Ho & Hpar); [|done..|].
    { cbn in Hc. rewrite <- Hc, (done_processing ps); [cbn; solve_Permutation|]. by apply Hp. }
    destruct (Write_in_order r w0 extra order bs (Some e0) w race got Ho Hpar Hgot) as (first & second & Hf1 & Hf2 & Hw).
    exists extra, race, first, second. split; [done|]. split; [done|]. rewrite Hw. cbn. by rewrite He.
  - assert (pe = None) as -> by (destruct Hp as (_ & _ & Hpr & _); destruct pe; [by destruct Hpr|done]).
    assert (te = None) as -> by (destruct te; [by destruct Htr|done]).
    destruct (all_stored _ _ _ _ _ _ _ _ _ _ _ _ _ _ _ _ _ _ Hc Hp Hs) as (Hall & -> & _); [done..|].
    rewrite app_nil_r in Hbs. apply (tries_without_error _ 0) in Ht; [|done..].
    destruct (Write_in_order r w0 0 (mark <$> tr) bs None w false rc Hall Ht) as (first & second & Hf1 & Hf2 & Hw); [done|].
    by exists 0, false, first, second.
Qed.

(** C6. The goroutines of a parallel write, with their channels and error
    groups: they never block each other, whatever order they run in and whatever
    fails, so that they go on until [Write] returns; that takes at most a number
    of steps that is linear in the number of pieces and workers; and what [Write]
    returns, and leaves on the servers, is what the sequential definition of
    [Pipeline] gives for some order of the tasks and of the results.  The
    processor and the storage return, and there are workers. *)
Theorem parallel_write_network (r : Reader) (w0 : W) :
  (forall s, net_reaches r w0 s -> net_ended s \/ exists s', net_step s s') /\
  (forall n s, nsteps net_step n (net_started r w0) s ->
     n <= 8 * length (splitter r) + processorJobCount asp + storageJobCount asp + 6) /\
  (exists s, net_reaches r w0 s /\ net_ended s) /\
  (forall s, net_reaches r w0 s -> net_ended s ->
     exists extra race first second, (forall l, first l ≡ₚ l) /\ (forall l, second l ≡ₚ l) /\
       Write asp extra race first second (Some r) w0 = net_returned s).
Proof using HP HS Hwp Hwc Hhash Hproc.
  split_and!.
  - apply never_blocked.
  - intros n s Hn. apply steps_bounded in Hn. rewrite steps_left_started in Hn. lia.
  - eapply comes_to_an_end. apply rtc_refl.
  - apply network_refines.
Qed.
End Wide.
End Network.

(** ** A run, for the witness *)
Definition net_reader : Reader := [(str_bytes "zer", None); (str_bytes "o-", None); ([], Some EOF)].

Lemma parallel_write_network_witness :
  (forall n s, nsteps (net_step demo_pipeline (take 2) reversing) n (net_started demo_pipeline net_reader ([] : list bytes)) s -> n <= 25) /\
  exists s extra race first second,
    net_reaches demo_pipeline (take 2) reversing net_reader ([] : list bytes) s /\ net_ended s /\
    Write demo_pipeline extra race first second (Some net_reader) [] = net_returned demo_pipeline s.
Proof.
  destruct (parallel_write_network demo_pipeline (take 2) reversing ltac:(cbn; lia) ltac:(cbn; lia) ltac:(done) ltac:(done)
    eq_refl eq_refl net_reader ([] : list bytes)) as (_ & H2 & (s & Hs & He) & H4). split.
  - intros n s' Hn. etransitivity; [exact (H2 n s' Hn)|]. vm_compute. lia.
  - destruct (H4 s Hs He) as (extra & race & first & second & _ & _ & Hw). by exists s, extra, race, first, second.
Defined.
