(* ===== verification/ReadNet.v ===== *)
(** * The goroutines and channels of a parallel read
      ([client/datastor/pipeline/async_splitter.go])

    What [Read] starts for more than one chunk: a goroutine that feeds the chunks,
    workers that fetch them, workers that process and verify what was fetched, two
    goroutines that wait for the workers and close the channel behind them, and one
    that writes the pieces in order, which may end early when its writer fails.  A
    step of the relation is one action of one goroutine, as in [Network].  It is
    shown that the goroutines never block each other, that they come to an end,
    that only verified data is handed to the writer, that a read without error is what
    [Pipeline] says for some order of the tasks, and where an error comes from. *)

From stdpp Require Import pretty.
From S2P Require Import Prelude Encoding Spread Pipeline Crew.
Import AsyncSplitter.
Open Scope nat_scope.

Section ReadNet.
Context `{ChunkStorage W} {Out : Type} (wr : Writer Out) (hash : bytes -> bytes) (proc : Processor).
Context (storageJobs processorJobs : nat).

(** ** What the workers do *)

(** A chunk that was fetched: its index, its data and the hash it should have. *)
Abbreviation input := (nat * bytes * bytes)%type.

Definition fetch_task : nat * Chunk -> prog W input := fun '(index, c) =>
  do! data := ReadChunk (chunk_cfg c) in pret (index, data, ch_Hash c).

Definition verify_input : input -> outcome (nat * bytes) := fun '(index, data, h) =>
  let! data := ReadProcess proc data in
  if negb (bool_decide (h = hash data))
  then Err (ErrNew ("object chunk #" +:+ pretty index +:+ "'s data and hash do not match"))
  else Ok (index, data).

(** ** States *)

(** The feeder and its channel; the workers that fetch, the error of their group,
    who waits for them, and their channel; the same for those that verify; the
    state of the composer and what it returned; the error of the whole group,
    which cancels it; the servers.  The rest is history: the chunks that were
    fetched and those that were not, the inputs that were verified and those that
    were given up, and what the composer received and what did not reach it. *)
Inductive rnet := RNet
  (feed : option (list (nat * Chunk))) (chunkCh : list (nat * Chunk))
  (fs : list (worker_state input)) (ferr : option error) (fwait : wait_state) (inputCh : list input)
  (vs : list (worker_state (nat * bytes))) (verr : option error) (vwait : wait_state) (outputCh : list (nat * bytes))
  (comp : composer Out) (coll : option (option error)) (gerr : option error) (w : W)
  (tried lost : list (nat * Chunk)) (seen unseen : list input) (received dropped : list (nat * bytes)).

(** ** Steps *)
Inductive rstep : rnet -> rnet -> Prop :=
  | rfeed_sends t l c fs fe fw ic vs ve vw oc cs co g w tr lo se un re dr :
      length c < storageJobs ->
      rstep (RNet (Some (t :: l)) c fs fe fw ic vs ve vw oc cs co g w tr lo se un re dr)
            (RNet (Some l) (c ++ [t]) fs fe fw ic vs ve vw oc cs co g w tr lo se un re dr)
  | rfeed_cancelled l c fs fe fw ic vs ve vw oc cs co g w tr lo se un re dr :
      g <> None ->
      rstep (RNet (Some l) c fs fe fw ic vs ve vw oc cs co g w tr lo se un re dr)
            (RNet None c fs fe fw ic vs ve vw oc cs co g w tr (l ++ lo) se un re dr)
  | rfeed_ends c fs fe fw ic vs ve vw oc cs co g w tr lo se un re dr :
      rstep (RNet (Some []) c fs fe fw ic vs ve vw oc cs co g w tr lo se un re dr)
            (RNet None c fs fe fw ic vs ve vw oc cs co g w tr lo se un re dr)
  | fetch_takes s t c f1 f2 x w' fe fw ic vs ve vw oc cs co g w tr lo se un re dr :
      fetch_task t w = (Ok x, w') ->
      rstep (RNet s (t :: c) (f1 ++ WIdle :: f2) fe fw ic vs ve vw oc cs co g w tr lo se un re dr)
            (RNet s c (f1 ++ WHold x :: f2) fe fw ic vs ve vw oc cs co g w' (tr ++ [t]) lo se un re dr)
  | fetch_fails s t c f1 f2 e w' fe fw ic vs ve vw oc cs co g w tr lo se un re dr :
      fetch_task t w = (Err e, w') ->
      rstep (RNet s (t :: c) (f1 ++ WIdle :: f2) fe fw ic vs ve vw oc cs co g w tr lo se un re dr)
            (RNet s c (f1 ++ WDone :: f2) (group_returns (Some e) fe) fw ic vs ve vw oc cs co g w' (tr ++ [t]) lo se un re dr)
  | fetch_worker_ends f1 f2 fe fw ic vs ve vw oc cs co g w tr lo se un re dr :
      rstep (RNet None [] (f1 ++ WIdle :: f2) fe fw ic vs ve vw oc cs co g w tr lo se un re dr)
            (RNet None [] (f1 ++ WDone :: f2) fe fw ic vs ve vw oc cs co g w tr lo se un re dr)
  | fetch_sends s c f1 x f2 fe fw ic vs ve vw oc cs co g w tr lo se un re dr :
      length ic < processorJobs ->
      rstep (RNet s c (f1 ++ WHold x :: f2) fe fw ic vs ve vw oc cs co g w tr lo se un re dr)
            (RNet s c (f1 ++ WIdle :: f2) fe fw (ic ++ [x]) vs ve vw oc cs co g w tr lo se un re dr)
  | fetch_cancelled s c f1 x f2 fe fw ic vs ve vw oc cs co g w tr lo se un re dr :
      g <> None ->
      rstep (RNet s c (f1 ++ WHold x :: f2) fe fw ic vs ve vw oc cs co g w tr lo se un re dr)
            (RNet s c (f1 ++ WDone :: f2) fe fw ic vs ve vw oc cs co g w tr lo se (x :: un) re dr)
  | fetchers_done s c fs fe ic vs ve vw oc cs co g w tr lo se un re dr :
      Forall (eq WDone) fs ->
      rstep (RNet s c fs fe Waiting ic vs ve vw oc cs co g w tr lo se un re dr)
            (RNet s c fs fe Closed ic vs ve vw oc cs co g w tr lo se un re dr)
  | fetchers_return s c fs fe ic vs ve vw oc cs co g w tr lo se un re dr :
      rstep (RNet s c fs fe Closed ic vs ve vw oc cs co g w tr lo se un re dr)
            (RNet s c fs fe Returned ic vs ve vw oc cs co (group_returns fe g) w tr lo se un re dr)
  | verify_takes s c fs fe fw x ic v1 v2 y ve vw oc cs co g w tr lo se un re dr :
      verify_input x = Ok y ->
      rstep (RNet s c fs fe fw (x :: ic) (v1 ++ WIdle :: v2) ve vw oc cs co g w tr lo se un re dr)
            (RNet s c fs fe fw ic (v1 ++ WHold y :: v2) ve vw oc cs co g w tr lo (se ++ [x]) un re dr)
  | verify_fails s c fs fe fw x ic v1 v2 e ve vw oc cs co g w tr lo se un re dr :
      verify_input x = Err e ->
      rstep (RNet s c fs fe fw (x :: ic) (v1 ++ WIdle :: v2) ve vw oc cs co g w tr lo se un re dr)
            (RNet s c fs fe fw ic (v1 ++ WDone :: v2) (group_returns (Some e) ve) vw oc cs co g w tr lo se (x :: un) re dr)
  | verify_worker_ends s c fs fe fw v1 v2 ve vw oc cs co g w tr lo se un re dr :
      fw <> Waiting ->
      rstep (RNet s c fs fe fw [] (v1 ++ WIdle :: v2) ve vw oc cs co g w tr lo se un re dr)
            (RNet s c fs fe fw [] (v1 ++ WDone :: v2) ve vw oc cs co g w tr lo se un re dr)
  | verify_sends s c fs fe fw ic v1 y v2 ve vw oc cs co g w tr lo se un re dr :
      length oc < processorJobs ->
      rstep (RNet s c fs fe fw ic (v1 ++ WHold y :: v2) ve vw oc cs co g w tr lo se un re dr)
            (RNet s c fs fe fw ic (v1 ++ WIdle :: v2) ve vw (oc ++ [y]) cs co g w tr lo se un re dr)
  | verify_cancelled s c fs fe fw ic v1 y v2 ve vw oc cs co g w tr lo se un re dr :
      g <> None ->
      rstep (RNet s c fs fe fw ic (v1 ++ WHold y :: v2) ve vw oc cs co g w tr lo se un re dr)
            (RNet s c fs fe fw ic (v1 ++ WDone :: v2) ve vw oc cs co g w tr lo se un re (y :: dr))
  | verifiers_done s c fs fe fw ic vs ve oc cs co g w tr lo se un re dr :
      Forall (eq WDone) vs ->
      rstep (RNet s c fs fe fw ic vs ve Waiting oc cs co g w tr lo se un re dr)
            (RNet s c fs fe fw ic vs ve Closed oc cs co g w tr lo se un re dr)
  | verifiers_return s c fs fe fw ic vs ve oc cs co g w tr lo se un re dr :
      rstep (RNet s c fs fe fw ic vs ve Closed oc cs co g w tr lo se un re dr)
            (RNet s c fs fe fw ic vs ve Returned oc cs co (group_returns ve g) w tr lo se un re dr)
  | comp_writes s c fs fe fw ic vs ve vw y oc cs cs' g w tr lo se un re dr :
      compose1 wr cs y = (cs', None) ->
      rstep (RNet s c fs fe fw ic vs ve vw (y :: oc) cs None g w tr lo se un re dr)
            (RNet s c fs fe fw ic vs ve vw oc cs' None g w tr lo se un (re ++ [y]) dr)
  | comp_fails s c fs fe fw ic vs ve vw y oc cs cs' e g w tr lo se un re dr :
      compose1 wr cs y = (cs', Some e) ->
      rstep (RNet s c fs fe fw ic vs ve vw (y :: oc) cs None g w tr lo se un re dr)
            (RNet s c fs fe fw ic vs ve vw oc cs' (Some (Some e)) (group_returns (Some e) g) w tr lo se un (re ++ [y]) dr)
  | comp_ends s c fs fe fw ic vs ve vw cs g w tr lo se un re dr :
      vw <> Waiting ->
      rstep (RNet s c fs fe fw ic vs ve vw [] cs None g w tr lo se un re dr)
            (RNet s c fs fe fw ic vs ve vw [] cs (Some None) g w tr lo se un re dr).

Definition composer_start (out : Out) : composer Out := {| co_out := out; co_expected := 0; co_buffer := ∅ |}.

Definition rstarted (chunks : list Chunk) (out : Out) (w : W) : rnet :=
  RNet (Some (imap pair chunks)) [] (replicate storageJobs WIdle) None Waiting []
    (replicate processorJobs WIdle) None Waiting [] (composer_start out) None None w [] [] [] [] [] [].

Definition rreaches (chunks : list Chunk) (out : Out) (w : W) (s : rnet) : Prop := rtc rstep (rstarted chunks out w) s.

(** [group.Wait] has returned; the feeder is not waited for. *)
Definition rended (s : rnet) : Prop :=
  let '(RNet _ _ _ _ fw _ _ _ vw _ _ co _ _ _ _ _ _ _ _) := s in fw = Returned /\ vw = Returned /\ co <> None.

(** What the writer was given and what [Read] returns, and the servers. *)
Definition rreturned (s : rnet) : outcome (Out * option error) * W :=
  let '(RNet _ _ _ _ _ _ _ _ _ _ cs _ g w _ _ _ _ _ _) := s in (Ok (co_out cs, g), w).

(** ** Invariants *)
Definition made (x : input) : list (nat * bytes) := match verify_input x with Ok y => [y] | _ => [] end.

Definition rtasks_ok (chunks : list Chunk) (s : rnet) : Prop :=
  let '(RNet feed c _ _ _ _ _ _ _ _ _ _ _ _ tr lo _ _ _ _) := s in default [] feed ++ c ++ tr ++ lo ≡ₚ imap pair chunks.

(** What was fetched is on its way to be verified, was verified, or given up. *)
Definition fetched_ok (w0 : W) (s : rnet) : Prop :=
  let '(RNet _ _ fs fe _ ic _ _ _ _ _ _ _ w tr _ se un _ _) := s in
  exists xs, tries fetch_task None tr w0 xs fe w /\ xs ≡ₚ holding fs ++ ic ++ se ++ un.

(** What was verified is on its way to the composer, reached it, or was given up. *)
Definition verified_ok (s : rnet) : Prop :=
  let '(RNet _ _ _ _ _ _ vs _ _ oc _ _ _ _ _ _ se _ re dr) := s in
  concat (made <$> se) ≡ₚ holding vs ++ oc ++ re ++ dr /\ Forall (fun x => exists y, verify_input x = Ok y) se.

Definition composed_ok (out : Out) (s : rnet) : Prop :=
  let '(RNet _ _ _ _ _ _ _ _ _ _ cs co _ _ _ _ _ _ re _) := s in
  compose wr (composer_start out) re = (cs, match co with Some e => e | None => None end).

Definition fetchers_ok (s : rnet) : Prop :=
  let '(RNet feed c fs fe fw _ _ _ _ _ _ _ g _ _ lo _ _ _ _) := s in
  length fs = storageJobs /\ (fw <> Waiting -> Forall (eq WDone) fs) /\ (fw = Returned -> fe <> None -> g <> None) /\
  (WDone ∈ fs -> (feed = None /\ c = []) \/ fe <> None \/ g <> None) /\ (lo <> [] -> g <> None).

Definition verifiers_ok (s : rnet) : Prop :=
  let '(RNet _ _ _ _ fw ic vs ve vw oc _ co g _ _ _ _ un _ dr) := s in
  length vs = processorJobs /\ (vw <> Waiting -> Forall (eq WDone) vs) /\ (vw = Returned -> ve <> None -> g <> None) /\
  (WDone ∈ vs -> (fw <> Waiting /\ ic = []) \/ ve <> None \/ g <> None) /\ (un <> [] -> ve <> None \/ g <> None) /\
  (dr <> [] -> g <> None) /\ (co = Some None -> vw <> Waiting /\ oc = []) /\ (co <> None -> co <> Some None -> g <> None).

Definition rerrors_ok (s : rnet) : Prop :=
  let '(RNet _ _ _ fe _ _ _ ve _ _ _ co g _ _ _ _ un _ _) := s in
  (forall e, ve = Some e -> exists x, x ∈ un /\ verify_input x = Err e) /\
  (forall e, g = Some e -> fe = Some e \/ ve = Some e \/ co = Some (Some e)).

Lemma compose_snoc s l y :
  compose wr s (l ++ [y]) = match compose wr s l with (s', None) => compose1 wr s' y | r => r end.
Proof.
  revert s; induction l as [|x l IH]; intros s; cbn [compose app].
  - by destruct (compose1 wr s y) as [s' [e|]].
  - destruct (compose1 wr s x) as [s' [e|]]; [done|apply IH].
Qed.

Lemma rtasks_step chunks s s' : rtasks_ok chunks s -> rstep s s' -> rtasks_ok chunks s'.
Proof. intros Hc Hs. destruct Hs; unfold rtasks_ok in *; rewrite <- Hc; cbn; solve_Permutation. Qed.

Lemma fetched_step w0 s s' : fetched_ok w0 s -> rstep s s' -> fetched_ok w0 s'.
Proof.
  intros Hr Hs. destruct Hs; cbn [fetched_ok] in *; destruct Hr as (xs & Ht & Hxs).
  all: revert Hxs; rewrite ?holding_mid; cbn [hold app]; intros Hxs.
  all: try (exists xs; split; [done|rewrite Hxs; solve_Permutation]).
  - exists (xs ++ [x]). split; [by eapply tries_snoc_ok|]. rewrite Hxs. solve_Permutation.
  - exists xs. split; [by eapply tries_snoc_err|]. rewrite Hxs. solve_Permutation.
Qed.

Lemma verified_step s s' : verified_ok s -> rstep s s' -> verified_ok s'.
Proof.
  intros Hr Hs. destruct Hs; cbn [verified_ok] in *; destruct Hr as (Hm & Hse).
  all: revert Hm; rewrite ?holding_mid, ?fmap_app, ?concat_app; cbn [hold app]; intros Hm.
  all: try (split; [rewrite Hm; solve_Permutation|done]).
  rewrite Hm. cbn. unfold made. match goal with H : verify_input _ = Ok _ |- _ => rewrite H end. cbn. split; [solve_Permutation|].
  apply Forall_app. split; [done|]. constructor; [by exists y|done].
Qed.

Lemma composed_step out s s' : composed_ok out s -> rstep s s' -> composed_ok out s'.
Proof.
  intros Hr Hs. destruct Hs; cbn [composed_ok] in *; try done.
  all: by rewrite compose_snoc, Hr.
Qed.

Lemma fetchers_step s s' : fetchers_ok s -> rstep s s' -> fetchers_ok s'.
Proof.
  intros Hp Hs. destruct Hs; cbn [fetchers_ok] in *; destruct Hp as (Hl & Hw & Hr & Hd & Hlo).
  all: rewrite ?length_app, ?Forall_app, ?Forall_cons, ?elem_of_app, ?elem_of_cons in *; cbn [length] in *.
  all: split_and!; try done; first [clear Hw Hr Hlo; by_groups | by_groups].
Qed.

Lemma verifiers_step s s' : fetchers_ok s -> verifiers_ok s -> rstep s s' -> verifiers_ok s'.
Proof.
  intros Hf Hp Hs. destruct Hs; cbn [verifiers_ok] in *; destruct Hp as (Hl & Hw & Hr & Hd & Hun & Hdr & Hco & Hce).
  all: rewrite ?length_app, ?Forall_app, ?Forall_cons, ?elem_of_app, ?elem_of_cons in *; cbn [length] in *.
  7: assert (fw = Waiting) as -> by (destruct Hf as (_ & Hf & _); rewrite Forall_app, Forall_cons in Hf; destruct fw; naive_solver).
  all: clear Hf; split_and!; try done; first [clear Hw Hr Hun Hdr Hco Hce; by_groups | clear Hd; by_groups].
Qed.

Lemma rerrors_step s s' : rerrors_ok s -> rstep s s' -> rerrors_ok s'.
Proof.
  intros He Hs. destruct Hs; cbn [rerrors_ok] in *; destruct He as [Hv Hg].
  all: try setoid_rewrite elem_of_cons; split; [intros e1 He1|intros e1 He1]; try (by eauto).
  all: try (destruct (Hg e1 He1) as [?|[?|?]]; by eauto).
  all: destruct g, fe, ve; cbn [group_returns] in *; naive_solver.
Qed.

Lemma rreached_ok chunks out w0 s :
  rreaches chunks out w0 s ->
  rtasks_ok chunks s /\ fetched_ok w0 s /\ verified_ok s /\ composed_ok out s /\ fetchers_ok s /\ verifiers_ok s /\ rerrors_ok s.
Proof.
  revert s. apply (rtc_ind_r _ (rstarted chunks out w0)).
  - assert (Hh : forall {A} n, @holding A (replicate n WIdle) = []) by (unfold holding; intros A n; by induction n).
    assert (Hno : forall {A} n, WDone ∈ replicate n (@WIdle A) -> False) by (intros A n Hx; by apply elem_of_replicate in Hx as [? _]).
    cbn. rewrite !Hh, !length_replicate, app_nil_r. split_and!; try done.
    + exists []. split; [constructor|done].
    + intros Hx. by apply Hno in Hx.
    + intros Hx. by apply Hno in Hx.
  - intros s s' _ Hs (H1 & H2 & H3 & H4 & H5 & H6 & H7).
    split_and!; [by eapply rtasks_step|by eapply fetched_step|by eapply verified_step|by eapply composed_step
      |by eapply fetchers_step|by eapply verifiers_step|by eapply rerrors_step].
Qed.

(** ** Progress *)
Context (HF : 0 < storageJobs) (HV : 0 < processorJobs).
Context (Hrc : forall cfg w p, (ReadChunk cfg w).1 <> Panic p) (Hrp : forall d p, ReadProcess proc d <> Panic p).

Lemma fetch_returns t w p w' : fetch_task t w <> (Panic p, w').
Proof using Hrc.
  destruct t as [i c]. cbn. unfold pbind. pose proof (Hrc (chunk_cfg c) w) as Hx. destruct (ReadChunk _ _) as [[d|e|q] w1]; [done..|naive_solver].
Qed.

Lemma verify_returns x p : verify_input x <> Panic p.
Proof using Hrp.
  destruct x as [[i d] h]. cbn. pose proof (Hrp d) as Hx. destruct (ReadProcess proc d) as [y|e|q]; cbn; [|done|naive_solver].
  by case_bool_decide.
Qed.

(** The workers that fetch go on as long as they are waited for, when there is
    room behind them or they are cancelled. *)
Lemma fetchers_go feed c fs fe ic vs ve vw oc cs co g w tr lo se un re dr :
  ic = [] \/ g <> None ->
  exists s', rstep (RNet feed c fs fe Waiting ic vs ve vw oc cs co g w tr lo se un re dr) s'.
Proof using HF HV Hrc.
  intros Hroom. destruct (done_or_not WDone fs WDone_dec) as [Hd|(f1 & x & f2 & -> & Hd)]; [eexists; by apply fetchers_done|].
  destruct x as [|x|]; [| |done].
  - destruct c as [|t c].
    + destruct feed as [[|t l]|]; [eexists; apply rfeed_ends|eexists; by apply rfeed_sends|eexists; apply fetch_worker_ends].
    + destruct (fetch_task t w) as [[x|e|p] w'] eqn:E; [eexists; by eapply fetch_takes|eexists; by eapply fetch_fails|by apply fetch_returns in E].
  - destruct Hroom as [->|Hg]; [eexists; by apply fetch_sends|eexists; by apply fetch_cancelled].
Qed.

Lemma verifiers_go feed c fs fe fw ic vs ve oc cs co g w tr lo se un re dr :
  oc = [] \/ g <> None ->
  exists s', rstep (RNet feed c fs fe fw ic vs ve Waiting oc cs co g w tr lo se un re dr) s'.
Proof using HF HV Hrc Hrp.
  intros Hroom. destruct (done_or_not WDone vs WDone_dec) as [Hd|(v1 & y & v2 & -> & Hd)]; [eexists; by apply verifiers_done|].
  destruct y as [|y|]; [| |done].
  - destruct ic as [|x ic].
    + destruct fw; [apply fetchers_go; by left|eexists; by apply verify_worker_ends..].
    + destruct (verify_input x) as [y|e|p] eqn:E; [eexists; by eapply verify_takes|eexists; by eapply verify_fails|by apply verify_returns in E].
  - destruct Hroom as [->|Hg]; [eexists; by apply verify_sends|eexists; by apply verify_cancelled].
Qed.

Lemma read_never_blocked chunks out w0 s : rreaches chunks out w0 s -> rended s \/ exists s', rstep s s'.
Proof using HF HV Hrc Hrp.
  intros Hr. destruct (rreached_ok _ _ _ _ Hr) as (_ & _ & _ & _ & Hfe & Hve & _). clear Hr.
  destruct s as [feed c fs fe fw ic vs ve vw oc cs co g w tr lo se un re dr].
  destruct Hve as (Hl & Hd & Hr & Hx & _ & _ & Hc & Hce). destruct co as [co|].
  - destruct vw.
    + right. apply verifiers_go. destruct co as [e|]; [right; by apply Hce|by destruct Hc].
    + right. eexists. apply verifiers_return.
    + destruct fw; [|right; eexists; apply fetchers_return|by left]. right. apply fetchers_go. right.
      destruct Hx as [[? _]|[?|?]]; [apply Forall_eq_elem; [lia|auto]|done|auto|auto].
  - right. destruct oc as [|y oc].
    + destruct vw; [apply verifiers_go; by left|eexists; by apply comp_ends..].
    + destruct (compose1 wr cs y) as [cs' [e|]] eqn:E; eexists; [by eapply comp_fails|by eapply comp_writes].
Qed.

(** ** Termination *)
Definition left_of {A} (n : nat) (s : worker_state A) : nat := match s with WIdle => 1 | WHold _ => n | WDone => 0 end.
Definition wait_left (t : wait_state) : nat := match t with Waiting => 2 | Closed => 1 | Returned => 0 end.

Definition read_steps_left (s : rnet) : nat :=
  let '(RNet feed c fs _ fw ic vs _ vw oc _ co _ _ _ _ _ _ _ _) := s in
  match feed with Some l => 8 * length l + 1 | None => 0 end + 7 * length c + sum_list (left_of 7 <$> fs) + wait_left fw +
  5 * length ic + sum_list (left_of 5 <$> vs) + wait_left vw + 3 * length oc + match co with None => 1 | Some _ => 0 end.

Lemma read_step_decreases s s' : rstep s s' -> read_steps_left s' < read_steps_left s.
Proof.
  clear. destruct 1; cbn [read_steps_left length wait_left].
  all: rewrite ?fmap_app, ?length_app, ?sum_list_with_app, ?sum_list_app; cbn; lia.
Qed.

Lemma read_steps_bounded n s s' : nsteps rstep n s s' -> n + read_steps_left s' <= read_steps_left s.
Proof. induction 1 as [|n s s1 s' Hs _ IH]; [done|]. apply read_step_decreases in Hs. lia. Qed.

Lemma read_bounded chunks out w n s :
  nsteps rstep n (rstarted chunks out w) s -> n <= 8 * length chunks + storageJobs + processorJobs + 6.
Proof.
  intros Hn. apply read_steps_bounded in Hn. revert Hn. cbn. rewrite length_imap, !sum_list_replicate by done. clear. lia.
Qed.

Lemma read_comes_to_an_end chunks out w0 s : rreaches chunks out w0 s -> exists s', rreaches chunks out w0 s' /\ rended s'.
Proof using HF HV Hrc Hrp.
  induction s as [s IH] using (well_founded_induction (Wf_nat.well_founded_ltof _ read_steps_left)). intros Hr.
  destruct (read_never_blocked _ _ _ _ Hr) as [He|[s' Hs]]; [by exists s|].
  apply (IH s' (read_step_decreases _ _ Hs)). by eapply rtc_r.
Qed.

(** ** What a run returns *)
Definition read_task : nat * Chunk -> prog W (nat * bytes) := fun '(index, c) =>
  do! data := ReadChunk (chunk_cfg c) in
  do! data := plift (ReadProcess proc data) in
  if negb (bool_decide (ch_Hash c = hash data))
  then pfail (ErrNew ("object chunk #" +:+ pretty index +:+ "'s data and hash do not match"))
  else pret (index, data).

(** Fetching everything and then verifying it is fetching and verifying piece by piece. *)
Lemma fetch_then_verify x tr w xs e w' :
  tries fetch_task x tr w xs e w' -> x = None -> e = None -> Forall (fun x => exists y, verify_input x = Ok y) xs ->
  tries read_task None tr w (concat (made <$> xs)) None w'.
Proof.
  induction 1 as [x w|x [i c] l w b w1 bs e' w' Ht _ IH|x t l w y w1 bs e' w' Ht Hl _]; intros Hx He Hall; subst; [constructor| |].
  - apply Forall_cons in Hall as [[z Hb] Hall]. cbn. unfold made at 1. rewrite Hb. eapply tries_ok; [|by apply IH].
    cbn in Ht |- *. unfold pbind in *. destruct (ReadChunk (chunk_cfg c) w) as [[d|e|p] w2]; [|done..].
    injection Ht as <- <-. cbn in Hb. unfold plift. destruct (ReadProcess proc d) as [y|e|p]; cbn in Hb; [|done..].
    case_bool_decide; cbn in *; by simplify_eq.
  - by pose proof (tries_keep_error _ _ _ _ _ _ _ Hl y eq_refl).
Qed.

(** What was fetched is the data of a chunk, with the hash of that chunk. *)
Lemma fetched_from x tr w xs e w' : tries fetch_task x tr w xs e w' ->
  forall i d h, (i, d, h) ∈ xs -> exists c v, (i, c) ∈ tr /\ h = ch_Hash c /\ (ReadChunk (chunk_cfg c) v).1 = Ok d.
Proof.
  induction 1 as [x w|x [j c] l w b w1 bs e' w' Ht _ IH|x t l w y w1 bs e' w' Ht Hl IH]; intros i d h Hin.
  - by apply not_elem_of_nil in Hin.
  - apply elem_of_cons in Hin as [<-|Hin].
    + cbn in Ht. unfold pbind in Ht. destruct (ReadChunk (chunk_cfg c) w) as [[d'|e|p] w2] eqn:E; [|done..].
      injection Ht as -> -> <- _. exists c, w. split; [apply list_elem_of_here|]. by rewrite E.
    + destruct (IH i d h Hin) as (c' & v & Hc & ?). exists c', v. split; [by apply list_elem_of_further|done].
  - destruct (IH i d h Hin) as (c' & v & Hc & ?). exists c', v. split; [by apply list_elem_of_further|done].
Qed.

Lemma fetch_error_from x tr w xs e w' : tries fetch_task x tr w xs e w' ->
  forall z, x = None -> e = Some z -> exists i c v, (i, c) ∈ tr /\ (ReadChunk (chunk_cfg c) v).1 = Err z.
Proof.
  induction 1 as [x w|x [j c] l w b w1 bs e' w' Ht _ IH|x [j c] l w y w1 bs e' w' Ht Hl _]; intros z Hx Hz; subst.
  - done.
  - destruct (IH z eq_refl eq_refl) as (i & c' & v & Hc & ?). exists i, c', v. split; [by apply list_elem_of_further|done].
  - pose proof (tries_keep_error _ _ _ _ _ _ _ Hl y eq_refl) as [= <-]. exists j, c, w. split; [apply list_elem_of_here|].
    cbn in Ht. unfold pbind in Ht. destruct (ReadChunk (chunk_cfg c) w) as [[d'|e|p] w2] eqn:E; cbn in Ht; by simplify_eq.
Qed.

(** Where the error of a read comes from: the writer, a chunk that could not be
    fetched, or one whose data could not be processed or is not the data that
    was written. *)
Definition read_error (chunks : list Chunk) (werr : option error) (e : error) : Prop :=
  werr = Some e \/
  (exists i c v, chunks !! i = Some c /\ (ReadChunk (chunk_cfg c) v).1 = Err e) \/
  (exists i c v d, chunks !! i = Some c /\ (ReadChunk (chunk_cfg c) v).1 = Ok d /\ verify_input (i, d, ch_Hash c) = Err e).

(** What the writer was given came from chunks with the hash of what was given. *)
Definition verified (chunks : list Chunk) (re : list (nat * bytes)) : Prop :=
  forall i d, (i, d) ∈ re -> exists c, chunks !! i = Some c /\ ch_Hash c = hash d.

Lemma made_verified x i d : (i, d) ∈ made x -> exists y, x = (i, y, hash d).
Proof.
  destruct x as [[j y] h]. unfold made. cbn. destruct (ReadProcess proc y) as [z|e|p]; cbn; [|by intros ?%not_elem_of_nil..].
  case_bool_decide as Hh; cbn; [|by intros ?%not_elem_of_nil]. intros [= -> ->]%list_elem_of_singleton. exists y. by rewrite Hh.
Qed.

Lemma read_returns chunks out w0 feed c fs fe fw ic vs ve vw oc cs co g w tr lo se un re dr :
  rreaches chunks out w0 (RNet feed c fs fe fw ic vs ve vw oc cs co g w tr lo se un re dr) ->
  fw = Returned -> vw = Returned -> co <> None ->
  verified chunks re /\ compose wr (composer_start out) re = (cs, default None co) /\
  match g with
  | Some e => read_error chunks (default None co) e
  | None => exists outs, tries read_task None tr w0 outs None w /\ tr ≡ₚ imap pair chunks /\ re ≡ₚ outs /\ co = Some None
  end.
Proof using HF HV Hrc Hrp.
  intros Hr -> -> Hco. destruct (rreached_ok _ _ _ _ Hr) as (Ht & (xs & Hxs & Hin) & (Hm & Hse) & Hc & Hfe & Hve & He & Hg). clear Hr.
  cbn in Ht, Hc.
  assert (Hfrom : forall i d h, (i, d, h) ∈ xs -> exists c v, chunks !! i = Some c /\ h = ch_Hash c /\ (ReadChunk (chunk_cfg c) v).1 = Ok d).
  { intros i d h Hx. destruct (fetched_from _ _ _ _ _ _ Hxs i d h Hx) as (c' & v & Hc' & ?). exists c', v. split; [|done].
    apply imap_pair_lookup. rewrite <- Ht. set_solver. }
  split_and!.
  - intros i d Hid. assert (Hx : (i, d) ∈ concat (made <$> se)) by (rewrite Hm; set_solver).
    apply list_elem_of_In, in_concat in Hx as (l & Hl & Hx). apply list_elem_of_In in Hl, Hx.
    apply list_elem_of_fmap in Hl as (x & -> & Hx2).
    apply made_verified in Hx as [y ->]. destruct (Hfrom i y (hash d)) as (c' & v & Hc' & Hh & _); [rewrite Hin; set_solver|].
    by exists c'.
  - by destruct co.
  - destruct g as [e|].
    + destruct (Hg e eq_refl) as [->|[->| ->]]; [right; left|right; right|by left].
      * destruct (fetch_error_from _ _ _ _ _ _ Hxs e eq_refl eq_refl) as (i & c' & v & Hc' & ?). exists i, c', v.
        split; [|done]. apply imap_pair_lookup. rewrite <- Ht. set_solver.
      * destruct (He e eq_refl) as ([[i d] h] & Hun & Hx). destruct (Hfrom i d h) as (c' & v & Hc' & -> & ?); [rewrite Hin; set_solver|].
        by exists i, c', v, d.
    + destruct Hfe as (Hl1 & Hd1 & Hr1 & Hx1 & Hlo). destruct Hve as (Hl2 & Hd2 & Hr2 & Hx2 & Hun & Hdr & Hc1 & Hc2).
      assert (fe = None) as -> by (destruct fe; [by destruct Hr1|done]).
      assert (ve = None) as -> by (destruct ve; [by destruct Hr2|done]).
      assert (co = Some None) as -> by (destruct co as [[e|]|]; [by destruct Hc2|done|done]). destruct Hc1 as [_ ->]; [done|].
      assert (lo = []) as -> by (destruct lo; [done|by destruct Hlo]).
      assert (un = []) as -> by (destruct un; [done|by destruct Hun]).
      assert (dr = []) as -> by (destruct dr; [done|by destruct Hdr]).
      destruct Hx2 as [[_ ->]|[?|?]]; [apply Forall_eq_elem; [lia|auto]| |done..].
      destruct Hx1 as [[-> ->]|[?|?]]; [apply Forall_eq_elem; [lia|auto]| |done..].
      rewrite (done_holding fs) in Hin by auto. rewrite (done_holding vs) in Hm by auto. cbn in Hin, Hm, Ht. rewrite app_nil_r in Hin, Hm, Ht.
      exists (concat (made <$> xs)). split_and!; [|done| |done].
      * eapply fetch_then_verify; [done..|]. by rewrite Hin.
      * by rewrite Hin, Hm.
Qed.
End ReadNet.

(** ** [Read] *)
Section Read.
Context `{ChunkStorage W} {Out : Type} (asp : AsyncSplitterPipeline) (hash : bytes -> bytes) (proc : Processor).
Context (HP : 0 < processorJobCount asp) (HS : 0 < storageJobCount asp).
Context (Hrc : forall cfg w p, (ReadChunk cfg w).1 <> Panic p) (Hrp : forall d p, ReadProcess proc d <> Panic p).
Context (Hhash : hasher (config asp) = Ok hash) (Hproc : processor (config asp) = Ok proc).

(** The numbers of workers for few chunks: those that fetch, those that verify. *)
Definition read_jobs (chunks : list Chunk) : nat * nat :=
  let n := length chunks in
  if n <? storageJobCount asp then (n, n)
  else (storageJobCount asp, if n <? processorJobCount asp then n else processorJobCount asp).

Lemma Read_in_order wr chunks out w0 order outs w re cs :
  2 <= length chunks -> order ≡ₚ imap pair chunks -> tries (read_task hash proc) None order w0 outs None w -> re ≡ₚ outs ->
  compose wr (composer_start out) re = (cs, None) ->
  exists first second, (forall l, first l ≡ₚ l) /\ (forall l, second l ≡ₚ l) /\
    Read asp 0 false first second chunks (Some wr) out w0 = (Ok (co_out (Out := Out) cs, None), w).
Proof using HP HS Hhash Hproc.
  intros Hlen Ho Ht Hre Hc. exists (order_of (imap pair chunks) order), (order_of outs re).
  split; [by apply order_of_perm|]. split; [by apply order_of_perm|].
  destruct chunks as [|c1 [|c2 rest]]; [cbn in Hlen; lia..|]. set (chunks := c1 :: c2 :: rest) in *.
  unfold Read. cbn [chunks]. fold chunks. rewrite Hhash, Hproc. cbn [obind]. rewrite order_of_at.
  change (fun '(index, c) => _) with (read_task hash proc).
  unfold pbind. rewrite (tries_without_error _ 0 _ _ _ _ _ _ Ht eq_refl eq_refl). cbn [fst snd]. rewrite order_of_at.
  unfold composer_start in Hc. by rewrite Hc.
Qed.

(** C7. The goroutines of a parallel read of more than one chunk, with their
    channels and error groups: they never block each other, in whatever order
    they run, whatever fails, and also when the writer fails and the composer
    stops early; they take a number of steps that is linear in the number of
    chunks and workers.  When they have ended, what the writer was given is what the
    composer made of pieces whose hashes are those of their chunks, also when the
    read failed; a read without error returns, and leaves on the servers, what the
    sequential definition of [Pipeline] gives for some order of the tasks and of
    the results; and the error of a read that failed is that of the writer, of the
    storage for one of the chunks, or of the verification of what the storage returned. *)
Theorem parallel_read_network (wr : Writer Out) (chunks : list Chunk) (out : Out) (w0 : W) :
  2 <= length chunks ->
  let '(storageJobs, processorJobs) := read_jobs chunks in
  let reached := rreaches wr hash proc storageJobs processorJobs chunks out w0 in
  (forall s, reached s -> rended s \/ exists s', rstep wr hash proc storageJobs processorJobs s s') /\
  (forall n s, nsteps (rstep wr hash proc storageJobs processorJobs) n (rstarted storageJobs processorJobs chunks out w0) s ->
     n <= 8 * length chunks + storageJobs + processorJobs + 6) /\
  (exists s, reached s /\ rended s) /\
  (forall s, reached s -> rended s ->
     exists re cs werr, verified hash chunks re /\ compose wr (composer_start out) re = (cs, werr) /\
       exists r w, rreturned s = (Ok (co_out cs, r), w) /\
       match r with
       | None => exists extra race first second, (forall l, first l ≡ₚ l) /\ (forall l, second l ≡ₚ l) /\
                   Read asp extra race first second chunks (Some wr) out w0 = rreturned s
       | Some e => read_error hash proc chunks werr e
       end).
Proof using HP HS Hrc Hrp Hhash Hproc.
  intros Hlen. destruct (read_jobs chunks) as [st pr] eqn:Hj.
  assert (0 < st /\ 0 < pr) as [Hst Hpr].
  { unfold read_jobs in Hj. destruct (Nat.ltb_spec (length chunks) (storageJobCount asp)); [injection Hj as <- <-; lia|].
    injection Hj as <- <-. destruct (Nat.ltb_spec (length chunks) (processorJobCount asp)); lia. }
  split_and!.
  - by apply read_never_blocked.
  - by apply read_bounded.
  - eapply read_comes_to_an_end; [done..|apply rtc_refl].
  - intros [feed c fs fe fw ic vs ve vw oc cs co g w tr lo se un re dr] Hs (Hf & Hv & Hco).
    destruct (read_returns _ _ _ _ _ Hst Hpr Hrc Hrp _ _ _ _ _ _ _ _ _ _ _ _ _ _ _ _ _ _ _ _ _ _ _ Hs Hf Hv Hco) as (Hver & Hcomp & Hg).
    exists re, cs, (default None co). split; [done|]. split; [done|]. exists g, w. split; [done|].
    destruct g as [e|]; [done|]. destruct Hg as (outs & Ht & Htr & Hre & ->).
    destruct (Read_in_order wr chunks out w0 tr outs w re cs) as (first & second & H1 & H2 & Hr); [done..|].
    by exists 0, false, first, second.
Qed.
End Read.

Lemma parallel_read_network_witness :
  exists s, rreaches append (take 2) reversing 2 1 demo_chunks [] (reverse <$> [str_bytes "!"; str_bytes "tor"; str_bytes "o-s"; str_bytes "zer"]) s /\ rended s.
Proof.
  destruct (parallel_read_network demo_pipeline (take 2) reversing ltac:(cbn; lia) ltac:(cbn; lia)
    ltac:(intros cfg w p; cbn; by case_match) ltac:(done) eq_refl eq_refl append demo_chunks []
    (reverse <$> [str_bytes "!"; str_bytes "tor"; str_bytes "o-s"; str_bytes "zer"]) ltac:(vm_compute; lia)) as (_ & _ & Hs & _). exact Hs.
Defined.
