(* ===== verification/Storages.v ===== *)
(** * The chunk storages behind the interface of the pipelines

    [ShardFresh] adds to the shard interface that a creation never overwrites
    and never gives out a key twice: a fleet of servers that are only filled
    through their API has this while sequence numbers are left.  With it, the
    random, the replicated and the distributed storage meet [ChunkStorageLaws]
    and [ChunkStorageOwn], so that every theorem about a pipeline holds over each
    of them.  The laws are relative to a list [D] of shards that may not answer:
    what is stored on other shards can be reached, and the storage is ready when
    [D] is not longer than the storage tolerates.  Schedules, iterators and
    orders of arrival are arguments, as before. *)

From S2P Require Import Prelude Encoding Keys DB Jwt ServerAPI ServerProps Datastor Spread Fleet Replicated ReplicatedProps Distributed DistributedProps.
From S2P Require Import Pipeline.
Import Encoding.Encoding Spread.Spread.
Open Scope nat_scope.

(** No room is used, and what was given out stays given out. *)
Definition no_less {W} (roomy : nat -> W -> Prop) (issued : W -> string -> bytes -> Prop) (w w' : W) : Prop :=
  (forall n, roomy n w -> roomy n w') /\ (forall sh k, issued w sh k -> issued w' sh k).

(** [roomy n w]: [n] more creations overwrite nothing.  [issued w sh k]: the
    shard has returned the key [k] for some creation. *)
Class ShardFresh (W : Type) `{ShardLaws W} := {
  roomy : nat -> W -> Prop;
  issued : W -> string -> bytes -> Prop;
  roomy_le n m w : n <= m -> roomy m w -> roomy n w;
  create_fresh sh d w r w' n : Spread.CreateObject sh d w = (r, w') -> good w -> roomy (S n) w ->
    roomy n w' /\ (forall sh' k' x, holds w sh' k' = Some x -> holds w' sh' k' = Some x) /\
    (forall sh' k' x, holds w' sh' k' = Some x -> holds w sh' k' = Some x \/ up w sh') /\
    (forall sh' k', issued w sh' k' -> issued w' sh' k') /\
    (forall k, r = Ok k -> up w sh /\ ~ issued w sh k /\ issued w' sh k);
  get_fresh sh k w r w' : Spread.GetObject sh k w = (r, w') -> good w -> k <> [] -> no_less roomy issued w w';
  status_fresh sh k w r w' : Spread.GetObjectStatus sh k w = (r, w') -> good w -> k <> [] -> no_less roomy issued w w';
  delete_fresh sh k w r w' : Spread.DeleteObject sh k w = (r, w') -> good w -> k <> [] ->
    no_less roomy issued w w' /\ (forall sh' k' x, holds w' sh' k' = Some x -> holds w sh' k' = Some x);
  shard_fresh sh w r w' : GetShard sh w = (r, w') -> good w -> no_less roomy issued w w';
}.

#[export] Instance no_less_preorder {W} (roomy : nat -> W -> Prop) issued : PreOrder (no_less roomy issued).
Proof. split; [by split|]. intros w1 w2 w3 [Hr1 Hi1] [Hr2 Hi2]. split; auto. Qed.

(** What is stored in [w] is stored in [w'], on shards that are as reachable;
    what is new is on shards that can be reached. *)
Definition grows `{ShardLaws W} (w w' : W) : Prop :=
  (forall sh, up w' sh <-> up w sh) /\ (forall sh k x, holds w sh k = Some x -> holds w' sh k = Some x) /\
  (forall sh k x, holds w' sh k = Some x -> holds w sh k = Some x \/ up w sh).

#[export] Instance grows_preorder `{ShardLaws W} : PreOrder grows.
Proof.
  split; [intros w; split_and!; by auto|]. intros w1 w2 w3 (Hu1 & Hh1 & Hn1) (Hu2 & Hh2 & Hn2). split_and!; [|auto|].
  - intros sh. by rewrite Hu2.
  - intros sh k x [Hx|Hx]%Hn2; [auto|]. right. by apply Hu1.
Qed.

(** ** A fleet filled through its servers *)
Section Fleet.
Context `{DBLaws St} `{RateCounter RC} (namespace : string).
Local Abbreviation Fleet := (FleetOf St RC).
Local Existing Instance fleet_ops.
Local Existing Instance fleet_laws.

(** Every server has numbers left in the scope of the namespace. *)
Definition fleet_roomy (n : nat) (w : Fleet) : Prop :=
  forall sh b s, w !! sh = Some (b, s) ->
    db_scoped s.1 /\ exists m, n <= m /\ db_room m (dkey namespace []) s.1.

Definition fleet_issued (w : Fleet) (sh : string) (k : bytes) : Prop :=
  exists b s, w !! sh = Some (b, s) /\ db_issued (dkey namespace k) s.1.

Lemma fleet_roomy_insert n (w : Fleet) sh b s' m :
  fleet_roomy n w -> db_scoped s'.1 -> n <= m -> db_room m (dkey namespace []) s'.1 ->
  fleet_roomy n (<[sh := (b, s')]> w).
Proof using.
  intros Hw Hs Hn Hm sh' b' x Hx. apply lookup_insert_Some in Hx as [[_ [= _ <-]]|[_ Hx]]; [|by eapply Hw].
  split; [done|by exists m].
Qed.

Lemma fleet_roomy_le n m (w : Fleet) : n <= m -> fleet_roomy m w -> fleet_roomy n w.
Proof using.
  intros Hn Hw sh b s Hx. destruct (Hw _ _ _ Hx) as (Hs & k & Hk & Hr). split; [done|]. exists k. split; [lia|done].
Qed.

Lemma fleet_issued_insert (w : Fleet) sh b b' s s' sh' k :
  w !! sh = Some (b, s) -> (forall x, db_issued x s.1 -> db_issued x s'.1) ->
  fleet_issued w sh' k -> fleet_issued (<[sh := (b', s')]> w) sh' k.
Proof using.
  intros Hw Hs (b1 & s1 & Hl & Hi). destruct (decide (sh = sh')) as [<-|Hne].
  - rewrite Hw in Hl. injection Hl as <- <-. exists b', s'. rewrite lookup_insert_eq. auto.
  - exists b1, s1. by rewrite lookup_insert_ne.
Qed.

#[export] Instance fleet_fresh : @ShardFresh Fleet (fleet_ops namespace) (fleet_laws namespace).
Proof using All.
  refine {| roomy := fleet_roomy; issued := fleet_issued; roomy_le := fleet_roomy_le |}.
  - intros sh d w r w' n Hc Hg Hr. cbn in Hc. unfold on_shard in Hc.
    destruct (w !! sh) as [[[] s]|] eqn:Hw.
    2,3: injection Hc as <- <-; split_and!; [by eapply (fleet_roomy_le _ (S n)); [lia|]|by auto..|done].
    pose proof (Hg sh _ Hw) as Hups. cbn in Hups. destruct d as [|b d].
    { rewrite cl_CreateObject_nil in Hc. injection Hc as <- <-. rewrite fleet_read_same by done.
      split_and!; [by eapply (fleet_roomy_le _ (S n)); [lia|]|by auto..|done]. }
    destruct (cl_CreateObject_spec namespace (b :: d) s Hups ltac:(done)) as (g & s1 & Hcr & Hup1 & Hgn & Hm & Hfresh).
    rewrite Hcr in Hc. injection Hc as <- <-.
    destruct (Hr _ _ _ Hw) as (Hsc & m & Hmn & Hroom). destruct m as [|m]; [lia|].
    destruct (Hfresh m Hsc Hroom) as (Hnone & Hsc1 & Hroom1 & Hni & Hi & Hmono). split_and!.
    + eapply (fleet_roomy_insert _ _ _ _ _ m); [by eapply (fleet_roomy_le _ (S n)); [lia|]|done|lia|done].
    + intros sh' k' x Hx. cbn [holds fleet_laws] in *. rewrite fleet_holds_insert. case_decide; [subst sh'|done].
      erewrite fleet_holds_here in Hx by exact Hw. cbn [fst]. rewrite Hm, lookup_insert_ne; [done|].
      intros E. rewrite <- E, Hnone in Hx. done.
    + intros sh' k' x Hx. cbn [holds fleet_laws up] in *. rewrite fleet_holds_insert in Hx.
      case_decide; [subst sh'; right; by exists s|by left].
    + intros sh' k'. by apply fleet_issued_insert with true s.
    + intros k [= <-]. split_and!; [by exists s| |].
      * intros (b1 & s2 & Hl & Hx). rewrite Hw in Hl. by injection Hl as <- <-.
      * exists true, (s1, s.2). by rewrite lookup_insert_eq.
  - intros sh k w r w' Hc Hg Hk. cbn in Hc. unfold on_shard in Hc.
    destruct (w !! sh) as [[[] s]|] eqn:Hw; [|by injection Hc as <- <-..].
    pose proof (Hg sh _ Hw) as Hups. cbn in Hups. unfold pbind, pret in Hc.
    rewrite cl_GetObject_spec in Hc by done.
    assert (w' = <[sh := (true, s)]> w) as -> by (repeat case_match; by simplify_eq). by rewrite (fleet_read_same _ _ _ Hw).
  - intros sh k w r w' Hc Hg Hk. cbn in Hc. unfold on_shard in Hc.
    destruct (w !! sh) as [[[] s]|] eqn:Hw; [|by injection Hc as <- <-..].
    pose proof (Hg sh _ Hw) as Hups. cbn in Hups. rewrite cl_GetObjectStatus_spec in Hc by done.
    injection Hc as _ <-. by rewrite (fleet_read_same _ _ _ Hw).
  - intros sh k w r w' Hc Hg Hk. cbn in Hc. unfold on_shard in Hc.
    destruct (w !! sh) as [[[] s]|] eqn:Hw; [|by injection Hc as <- <-..].
    pose proof (Hg sh _ Hw) as Hups. cbn in Hups.
    destruct (cl_DeleteObject_spec namespace k s Hups Hk) as (s1 & Hdel & Hup1 & Hm & Hsc & Hroom & Hiss).
    rewrite Hdel in Hc. injection Hc as <- <-. split; [split|].
    + intros n Hr. destruct (Hr _ _ _ Hw) as (Hs & m & Hmn & Hm'). eapply fleet_roomy_insert; cbn [fst]; eauto.
    + intros sh' k'. by apply fleet_issued_insert with true s.
    + intros sh' k' x Hx. cbn [holds fleet_laws] in *. rewrite fleet_holds_insert in Hx. case_decide; [subst sh'|done].
      rewrite (fleet_holds_here _ _ _ _ _ _ Hw). cbn [fst] in Hx. rewrite Hm in Hx.
      destruct (delete _ _ !! dkey namespace k') as [raw|] eqn:E; [|done]. apply lookup_delete_Some in E as [_ ->]. done.
  - intros sh w r w' Hc. cbn in Hc. by injection Hc as _ <-.
Defined.
End Fleet.

(** ** Servers that stop and come back

    [set_up sh b w]: the server of [sh] stops answering, or answers again with
    what it has. *)
Class ShardOutage (W : Type) `{ShardFresh W} := {
  set_up : string -> bool -> W -> W;
  set_up_good sh b w : good w -> good (set_up sh b w);
  set_up_fresh sh b w : no_less roomy issued w (set_up sh b w);
  set_up_holds sh b w sh' k : holds (set_up sh b w) sh' k = holds w sh' k;
  set_up_other sh b w sh' : sh' <> sh -> up w sh' -> up (set_up sh b w) sh';
  set_up_back sh w k x : holds w sh k = Some x -> up (set_up sh true w) sh;
}.

Section FleetOutage.
Context `{DBLaws St} `{RateCounter RC} (namespace : string).
Local Abbreviation Fleet := (FleetOf St RC).

Definition fleet_set_up (sh : string) (b : bool) (w : Fleet) : Fleet :=
  match w !! sh with Some (_, s) => <[sh := (b, s)]> w | None => w end.

#[export] Instance fleet_outage : @ShardOutage Fleet (fleet_ops namespace) (fleet_laws namespace) (fleet_fresh namespace).
Proof using All.
  refine {| set_up := fleet_set_up |}; intros sh; unfold fleet_set_up.
  - intros b w Hg. destruct (w !! sh) as [[b0 s]|] eqn:Hw; [|done]. intros sh' x Hx.
    apply lookup_insert_Some in Hx as [[_ <-]|[_ Hx]]; [exact (Hg sh _ Hw)|by eapply Hg].
  - intros b w. destruct (w !! sh) as [[b0 s]|] eqn:Hw; [|done]. split.
    + intros n Hr. destruct (Hr _ _ _ Hw) as (Hs & m & Hm & Hrm). by eapply fleet_roomy_insert.
    + intros sh' k. by apply fleet_issued_insert with b0 s.
  - intros b w sh' k. destruct (w !! sh) as [[b0 s]|] eqn:Hw; [|done]. cbn [holds fleet_laws]. unfold fleet_holds.
    rewrite lookup_insert. case_decide; [subst sh'; by rewrite Hw|done].
  - intros b w sh' Hne [s Hs]. destruct (w !! sh) as [[b0 s0]|] eqn:Hw; [|by exists s]. exists s. by rewrite lookup_insert_ne.
  - intros w k x Hx. cbn [holds fleet_laws] in Hx. unfold fleet_holds in Hx.
    destruct (w !! sh) as [[b0 s]|] eqn:Hw; [|done]. exists s. by rewrite lookup_insert_eq.
Defined.
End FleetOutage.

(** ** The parallel write overwrites nothing *)
Section FreshWrite.
Context `{ShardFresh W}.

(** The creations that a state can still make. *)
Definition writing (x : worker) : list unit := match x with Writing _ _ => [tt] | _ => [] end.

Definition cost (s : state W) : nat := length (shards s) + length (List.flat_map writing (workers s)).

(** An object that was given out between [w0] and [w]. *)
Definition new_object (w0 w : W) (o : MetaObject) : Prop :=
  mo_Key o <> [] /\ ~ issued w0 (mo_ShardID o) (mo_Key o) /\ issued w (mo_ShardID o) (mo_Key o).

Record fresh_inv (n : nat) (w0 : W) (s : state W) : Prop := {
  fi_room : roomy (cost s + n) (world s);
  fi_grows : grows w0 (world s);
  fi_issued sh k : issued w0 sh k -> issued (world s) sh k;
  fi_new : Forall (fun r => new_object w0 (world s) r.2) (results s ++ List.flat_map sent (workers s));
}.

Lemma create_grows sh d w r w' n :
  Spread.CreateObject sh d w = (r, w') -> good w -> roomy (S n) w -> grows w w' /\ roomy n w'.
Proof using.
  intros Hc Hg Hr. destruct (create_law _ _ _ _ _ Hc Hg) as (_ & _ & Hu & _).
  destruct (create_fresh _ _ _ _ _ _ Hc Hg Hr) as (Hr' & Hh & Hn & _). by split.
Qed.

Lemma fresh_exec n w0 ev s s' :
  good (world s) -> fresh_inv n w0 s -> exec ev s = Some s' -> fresh_inv n w0 s'.
Proof using.
  intros Hg [Hroom Hgr Hiss Hup] He. unfold cost in Hroom.
  destruct ev as [i|i|i|i|i]; cbn [exec] in He.
  all: destruct (workers s !! i) as [x|] eqn:Hi; try (by destruct (cancelled s)); try done.
  all: destruct (update_perm _ _ _ Hi) as (rest & Hold & Hnew).
  all: rewrite Hold in Hroom, Hup; cbn [List.flat_map] in Hroom, Hup.
  - destruct x; try done. destruct (queue s) as [|j q]; injection He as <-;
      (split; unfold cost; cbn [move world results workers shards]; rewrite ?Hnew; done).
  - destruct x as [|j| | |]; try done. destruct (shards s) as [|sh rest'] eqn:Hs; injection He as <-;
      (split; unfold cost; cbn [world results workers shards]; rewrite ?Hnew; try done).
    cbn [List.flat_map writing app length] in *. by rewrite Nat.add_succ_r.
  - destruct x as [| |j sh| |]; try done. cbn [writing app length] in Hroom. rewrite Nat.add_succ_r in Hroom.
    destruct (Spread.CreateObject sh (job_data j) (world s)) as [r w'] eqn:Hc.
    destruct (create_grows _ _ _ _ _ _ Hc Hg Hroom) as [Hgr' Hroom'].
    destruct (create_fresh _ _ _ _ _ _ Hc Hg Hroom) as (_ & _ & _ & Hmono & Hreach).
    destruct (create_law _ _ _ _ _ Hc Hg) as (_ & _ & _ & _ & Hok & _).
    assert (Hup' : Forall (fun r => new_object w0 w' r.2) (results s ++ List.flat_map sent rest)).
    { eapply Forall_impl; [exact Hup|]. intros x (Hx1 & Hx2 & Hx3). split_and!; auto. }
    destruct r as [key|e|p]; [| |done]; injection He as <-;
      (split; unfold cost; cbn [world results workers shards]; rewrite ?Hnew; [done|by etrans|by auto|]); try done.
    cbn [List.flat_map sent app]. rewrite <- Permutation_middle. constructor; [|done].
    destruct (Hreach key eq_refl) as (_ & Hn & Hy). split_and!; [by apply (Hok key)|by auto|done].
  - destruct x as [| | |j obj|]; try done. injection He as <-.
    split; unfold cost; cbn [world results workers shards]; rewrite ?Hnew; [done..|].
    cbn [List.flat_map sent app]. by rewrite <- app_assoc.
  - destruct (cancelled s); [|done]. cbn [negb] in He.
    destruct x as [|j| |j obj|]; try done; injection He as <-;
      (split; unfold cost; cbn [move world results workers shards]; rewrite ?Hnew; try done).
    cbn [sent] in Hup. rewrite Forall_app in Hup |- *. destruct Hup as [? Hup]. split; [done|].
    by apply Forall_cons in Hup as [].
Qed.

Lemma fresh_run n order jobs evs w0 s s' :
  NoDup order -> inv order jobs s -> fresh_inv n w0 s -> run evs s = Some s' -> fresh_inv n w0 s'.
Proof using.
  intros Hnd. revert s; induction evs as [|ev evs IH]; intros s Hi Hf; cbn; [by intros [= <-]|].
  destruct (exec ev s) as [s1|] eqn:E; [|done]. cbn. intros Hr. apply (IH s1); [by eapply inv_exec| |done].
  eapply fresh_exec; [|done..]. apply (inv_good _ _ _ Hi).
Qed.

Lemma fresh_init n k jobs order w :
  roomy (length order + n) w -> fresh_inv n w (init k jobs order w).
Proof using.
  intros Hr. split; unfold cost; cbn [init world results workers shards];
    rewrite ?flat_map_replicate by done; cbn [length]; [by rewrite Nat.add_0_r|done|done|constructor].
Qed.
End FreshWrite.

(** ** Calls that only look *)
Section Frame.
Context `{ShardFresh W}.

(** What reading calls leave of a world, for a list of shards [D] that may not
    answer: room for [n] more chunks over at most [k] shards each. *)
Definition outside (D : list string) (w : W) : Prop := forall sh k x, holds w sh k = Some x -> sh ∉ D -> up w sh.

Definition room_for (D : list string) (k n : nat) (w : W) : Prop := good w /\ roomy (n * k) w /\ outside D w.

Definition frame (w w' : W) : Prop := good w' /\ no_less roomy issued w w' /\ same_world w w'.

Lemma get_object_frame w0 sh k : k <> [] -> stays (frame w0) (Spread.GetObject sh k).
Proof using.
  intros Hk w (Hg & Hn & Hs). destruct (Spread.GetObject sh k w) as [r w'] eqn:E.
  destruct (get_law _ _ _ _ _ E Hg Hk) as (Hg' & _ & Hu & Hh & _). split_and!; [done| |].
  - etrans; [done|]. by eapply get_fresh.
  - etrans; [done|]. by split.
Qed.

Lemma status_frame w0 sh k : k <> [] -> stays (frame w0) (Spread.GetObjectStatus sh k).
Proof using.
  intros Hk w (Hg & Hn & Hs). destruct (Spread.GetObjectStatus sh k w) as [r w'] eqn:E.
  destruct (status_law _ _ _ _ _ E Hg Hk) as (Hg' & _ & Hu & Hh & _). split_and!; [done| |].
  - etrans; [done|]. by eapply status_fresh.
  - etrans; [done|]. by split.
Qed.

Lemma shard_frame w0 sh : stays (frame w0) (GetShard sh).
Proof using.
  intros w (Hg & Hn & Hs). destruct (GetShard sh w) as [r w'] eqn:E.
  destruct (shard_law _ _ _ _ E Hg) as (Hg' & _ & Hu & Hh & _). split_and!; [done| |].
  - etrans; [done|]. by eapply shard_fresh.
  - etrans; [done|]. by split.
Qed.

Hint Resolve get_object_frame status_frame shard_frame : zstor.

(** The next state after a call [m] in the state of [Hw]. *)
Ltac next_state m Hw :=
  match type of Hw with
  | frame ?w0 ?w =>
      let Hn := fresh in
      assert (Hn : stays (frame w0) m) by auto with zstor; specialize (Hn w Hw);
      destruct (m w) as [[?|?|?] ?]; cbn [snd] in Hn; clear Hw; rename Hn into Hw;
      repeat match goal with u : unit |- _ => destruct u end
  end.

Lemma try_read_frame w0 o : mo_Key o <> [] -> stays (frame w0) (try_read o).
Proof using.
  intros Hk w Hw. unfold try_read. next_state (GetShard (mo_ShardID o)) Hw; [|done..].
  next_state (Spread.GetObject (mo_ShardID o) (mo_Key o)) Hw; done.
Qed.

Lemma object_valid_frame w0 o : mo_Key o <> [] -> stays (frame w0) (object_valid o).
Proof using.
  intros Hk w Hw. unfold object_valid. next_state (GetShard (mo_ShardID o)) Hw; [|done..].
  next_state (Spread.GetObjectStatus (mo_ShardID o) (mo_Key o)) Hw; done.
Qed.

Hint Resolve try_read_frame object_valid_frame : zstor.

Lemma read_objects_frame w0 size objs : Replicated.keyed objs -> stays (frame w0) (Replicated.read_objects size objs).
Proof using.
  intros Hk. induction Hk as [|o objs Ho _ IH]; cbn [Replicated.read_objects]; [auto with zstor|].
  apply stays_bind; [auto with zstor|]. intros [d|]; [|done]. destruct (_ =? _)%Z; auto with zstor.
Qed.

Lemma count_valid_frame w0 limit objs count : Replicated.keyed objs -> stays (frame w0) (Replicated.count_valid limit objs count).
Proof using.
  intros Hk. revert count. induction Hk as [|o objs Ho _ IH]; intros count; cbn [Replicated.count_valid]; [auto with zstor|].
  apply stays_bind; [auto with zstor|]. intros []; cbn [negb]; [|done]. destruct (_ =? limit); auto with zstor.
Qed.

Lemma split_frame w0 objs : Replicated.keyed objs -> stays (frame w0) (Replicated.splitObjects objs).
Proof using.
  intros Hk. induction Hk as [|o objs Ho _ IH]; cbn [Replicated.splitObjects]; [auto with zstor|]. intros w Hw.
  next_state (GetShard (mo_ShardID o)) Hw; [|by apply IH|done].
  next_state (Spread.GetObjectStatus (mo_ShardID o) (mo_Key o)) Hw; [| |done].
  all: apply stays_bind; [exact IH|intros [? ?]; auto with zstor|done].
Qed.

Lemma repair_read_frame w0 size objs ob : Replicated.keyed objs -> stays (frame w0) (Replicated.repair_read size objs ob).
Proof using.
  intros Hk. revert ob. induction Hk as [|o objs Ho _ IH]; intros ob; cbn [Replicated.repair_read]; [auto with zstor|]. intros w Hw.
  next_state (GetShard (mo_ShardID o)) Hw; [|by apply IH|done].
  next_state (Spread.GetObject (mo_ShardID o) (mo_Key o)) Hw; [|by apply IH|done].
  destruct (negb _); [by apply IH|done].
Qed.

Lemma collect_frame w0 m objs arrival got count :
  Replicated.keyed objs -> stays (frame w0) (Distributed.collect m objs arrival got count).
Proof using.
  intros Hk. revert got count. induction arrival as [|i arrival IH]; intros got count; cbn [Distributed.collect]; [auto with zstor|].
  destruct (objs !! i) as [o|] eqn:Ho; [|auto with zstor].
  assert (mo_Key o <> []) by (unfold Replicated.keyed in Hk; rewrite Forall_forall in Hk; eapply Hk, list_elem_of_lookup_2, Ho).
  apply stays_bind; [auto with zstor|]. intros [d|]; [|done]. destruct (_ =? m); auto with zstor.
Qed.
End Frame.
#[export] Hint Resolve get_object_frame status_frame shard_frame try_read_frame object_valid_frame read_objects_frame
  count_valid_frame split_frame repair_read_frame collect_frame : zstor.

(** ** Rooms and objects *)
Section Rooms.
Context `{ShardFresh W}.

Definition taken_object (w : W) (o : MetaObject) : Prop := issued w (mo_ShardID o) (mo_Key o).

(** An object that is stored with the data. *)
Definition held_as (w : W) (o : MetaObject) (d : bytes) : Prop :=
  mo_Key o <> [] /\ holds w (mo_ShardID o) (mo_Key o) = Some d.

Lemma room_less D k n w : room_for D k (S n) w -> room_for D k n w.
Proof using. intros (Hg & Hr & Ho). split_and!; [done| |done]. eapply roomy_le; [|exact Hr]. cbn. lia. Qed.

Lemma frame_refl w : good w -> frame w w.
Proof using. intros Hg. by split_and!. Qed.

(** What a call that only looks keeps. *)
Lemma frame_keeps D k n w w' : room_for D k n w -> frame w w' ->
  room_for D k n w' /\ (forall o d, held_as w o d -> held_as w' o d) /\ (forall o, taken_object w o -> taken_object w' o).
Proof using.
  intros (Hg & Hr & Ho) (Hg' & [Hr' Hi'] & Hu & Hh). split; [split_and!; [done|auto|]|split].
  - intros sh k' x Hx Hni. apply Hu. rewrite Hh in Hx. by eapply Ho.
  - intros o d [Hk Hd]. split; [done|]. by rewrite Hh.
  - intros o. apply Hi'.
Qed.

(** What a call that creates objects leaves, with room for [n] creations. *)
Definition extends (n : nat) (w w' : W) : Prop :=
  good w' /\ roomy n w' /\ grows w w' /\ (forall sh k, issued w sh k -> issued w' sh k).

Lemma extends_keeps D k n w w' : room_for D k (S n) w -> extends (n * k) w w' ->
  room_for D k n w' /\ (forall o d, held_as w o d -> held_as w' o d) /\ (forall o, taken_object w o -> taken_object w' o).
Proof using.
  intros (Hg & Hr & Ho) (Hg' & Hr' & (Hu & Hh & Hn) & Hi). split; [split_and!; [done|done|]|split].
  - intros sh k' x [Hx|Hx]%Hn Hni; apply Hu; [by eapply Ho|done].
  - intros o d [Hk Hd]. split; [done|auto].
  - intros o. apply Hi.
Qed.

Lemma frame_extends n w w' : frame w w' -> roomy n w -> extends n w w'.
Proof using.
  intros (Hg & [Hr Hi] & Hu & Hh) Hn. split_and!; [done|auto| |done].
  split_and!; [done| |]; intros sh k x; rewrite Hh; auto.
Qed.

Lemma extends_trans n n' w w1 w2 : extends n w w1 -> extends n' w1 w2 -> extends n' w w2.
Proof using. intros (_ & _ & Hg & Hi) (Hg' & Hr' & Hgr' & Hi'). split_and!; [done|done|by etrans|auto]. Qed.

Lemma new_object_earlier n w w1 w2 o : extends n w w1 -> new_object w1 w2 o -> new_object w w2 o.
Proof using. intros (_ & _ & _ & Hi) (Hk & Hn & Hy). split_and!; auto. Qed.

Lemma new_object_later n w w1 w2 o : extends n w1 w2 -> new_object w w1 o -> new_object w w2 o.
Proof using. intros (_ & _ & _ & Hi) (Hk & Hn & Hy). split_and!; auto. Qed.

Lemma create_extends sh d w r w' n :
  Spread.CreateObject sh d w = (r, w') -> good w -> roomy (S n) w -> extends n w w'.
Proof using.
  intros Hc Hg Hr. destruct (create_law _ _ _ _ _ Hc Hg) as (Hg' & _).
  destruct (create_grows _ _ _ _ _ _ Hc Hg Hr) as [Hgr Hr']. destruct (create_fresh _ _ _ _ _ _ Hc Hg Hr) as (_ & _ & _ & Hi & _).
  by split_and!.
Qed.

Lemma held_readable D w o d : outside D w -> mo_ShardID o ∉ D -> held_as w o d -> readable w o d.
Proof using. intros Ho Hni [_ Hd]. split; [by eapply Ho|done]. Qed.

(** At most as many of different shards are in [D] as [D] has. *)
Definition avoids (D : list string) (o : MetaObject) : bool := negb (bool_decide (mo_ShardID o ∈ D)).

Lemma shards_outside D objs : NoDup (mo_ShardID <$> objs) ->
  length objs <= length D + length (List.filter (avoids D) objs).
Proof using.
  intros Hnd. rewrite <- (length_fmap mo_ShardID objs), <- (length_fmap mo_ShardID (List.filter _ _)), <- length_app.
  apply submseteq_length, NoDup_submseteq; [done|]. intros sh (o & -> & Ho)%list_elem_of_fmap.
  apply elem_of_app. destruct (decide (mo_ShardID o ∈ D)) as [|Hni]; [by left|right].
  apply list_elem_of_fmap. exists o. split; [done|]. apply list_elem_of_In, List.filter_In.
  split; [by apply list_elem_of_In|]. unfold avoids. by rewrite bool_decide_false.
Qed.

(** Of objects on different shards, those that answer for sure. *)
Definition sure (D : list string) (objs : list MetaObject) : list string := mo_ShardID <$> List.filter (avoids D) objs.

Lemma sure_up D w objs : outside D w -> Forall (fun o => exists d, held_as w o d) objs -> forall sh, sh ∈ sure D objs -> up w sh.
Proof using.
  intros Hout Hall sh (o & -> & Ho)%list_elem_of_fmap. apply list_elem_of_In, List.filter_In in Ho as [Ho Hav].
  apply list_elem_of_In in Ho. rewrite Forall_forall in Hall. destruct (Hall o Ho) as (d & Hd).
  unfold avoids in Hav. apply negb_true_iff, bool_decide_eq_false in Hav. by destruct (held_readable D w o d Hout Hav Hd).
Qed.

Lemma reach_outside D w objs arr : arr ≡ₚ objs -> NoDup (mo_ShardID <$> objs) -> Forall (fun o => exists d, held_as w o d) objs ->
  length objs <= length D + length (List.filter (Replicated.reachable (sure D objs) w) arr).
Proof using.
  intros Hp Hnd Hall. pose proof (shards_outside D objs Hnd) as Hle.
  enough (length (List.filter (avoids D) objs) <= length (List.filter (Replicated.reachable (sure D objs) w) arr)) by lia.
  assert (Hsub : forall l, (forall o, o ∈ l -> o ∈ objs) ->
    length (List.filter (avoids D) l) <= length (List.filter (Replicated.reachable (sure D objs) w) l)).
  { clear -Hall. induction l as [|o l IH]; intros Hl; [done|]. cbn [List.filter]. specialize (IH ltac:(set_solver)).
    destruct (avoids D o) eqn:Hav; [|destruct (Replicated.reachable _ _ _); cbn; lia].
    replace (Replicated.reachable (sure D objs) w o) with true; [cbn; lia|]. symmetry. unfold Replicated.reachable.
    rewrite andb_true_iff, !bool_decide_eq_true. split.
    - apply list_elem_of_fmap. exists o. split; [done|]. apply list_elem_of_In, List.filter_In.
      split; [apply list_elem_of_In; apply Hl, list_elem_of_here|done].
    - rewrite Forall_forall in Hall. destruct (Hall o (Hl o (list_elem_of_here _ _))) as (d & _ & ->). by eexists. }
  etrans; [|apply Hsub; intros o; by rewrite Hp]. clear -Hp. induction Hp; cbn; repeat case_match; cbn; lia.
Qed.

(** *** Deleting *)
Definition trimmed (objs : list MetaObject) (w w' : W) : Prop :=
  good w' /\ no_less roomy issued w w' /\ (forall sh, up w' sh <-> up w sh) /\
  (forall sh k x, holds w' sh k = Some x -> holds w sh k = Some x) /\
  (forall o, o ∉ objs -> holds w' (mo_ShardID o) (mo_Key o) = holds w (mo_ShardID o) (mo_Key o)).

Lemma delete_object_trims objs w0 o : o ∈ objs -> mo_Key o <> [] -> stays (trimmed objs w0) (delete_object o).
Proof using.
  intros Ho Hk w (Hg & Hn & Hu & Hh & Hs). unfold delete_object, pbind.
  destruct (GetShard (mo_ShardID o) w) as [r1 w1] eqn:E1.
  destruct (shard_law _ _ _ _ E1 Hg) as (Hg1 & _ & Hu1 & Hh1 & _). pose proof (shard_fresh _ _ _ _ E1 Hg) as Hn1.
  assert (H1' : trimmed objs w0 w1).
  { split_and!; [done|by etrans| | |]; intros; rewrite ?Hu1, ?Hh1 in *; auto. }
  destruct r1 as [[]|e|p]; [|done..]. clear Hg Hn Hu Hh Hs Hu1 Hh1 Hn1. destruct H1' as (_ & Hn & Hu & Hh & Hs).
  destruct (Spread.DeleteObject (mo_ShardID o) (mo_Key o) w1) as [r2 w2] eqn:E2.
  destruct (delete_law _ _ _ _ _ E2 Hg1 Hk) as (Hg2 & _ & Hu2 & Hh2 & _).
  destruct (delete_fresh _ _ _ _ _ E2 Hg1 Hk) as [Hn2 Hd2]. split_and!; [done|by etrans| |by auto|].
  - intros sh. by rewrite Hu2.
  - intros o' Hni. rewrite Hh2; [by auto|]. intros [= E3 E4]. apply Hni.
    assert (o' = o) as -> by (destruct o, o'; cbn in *; congruence). done.
Qed.

Lemma delete_all_trims objs w0 extra l err :
  (forall o, o ∈ l -> o ∈ objs) -> Replicated.keyed l -> stays (trimmed objs w0) (delete_all extra l err).
Proof using.
  intros Hsub Hk. revert extra err. induction Hk as [|o l Ho _ IH]; intros extra err; cbn [delete_all].
  { destruct err; auto with zstor. }
  intros w Hw. assert (Hw1 : trimmed objs w0 (delete_object o w).2).
  { apply delete_object_trims; [apply Hsub, list_elem_of_here|done|done]. }
  assert (IH' : forall x e, stays (trimmed objs w0) (delete_all x l e)).
  { apply IH. intros o' Ho'. by apply Hsub, list_elem_of_further. }
  destruct err as [e|]; [destruct extra as [|x]; [done|]|]; destruct (delete_object o w) as [[[]|e'|p] w1]; cbn [snd] in Hw1; by try apply IH'.
Qed.

Lemma DeleteChunk_trims extra arrival cfg w0 :
  arrival ≡ₚ cfg_Objects cfg -> named cfg -> stays (trimmed (cfg_Objects cfg) w0) (Replicated.DeleteChunk extra arrival cfg).
Proof using.
  intros Hp Hk. unfold Replicated.DeleteChunk. destruct (cfg_Objects cfg) as [|o [|o2 rest]] eqn:E; [auto with zstor| |].
  - unfold named in Hk. rewrite E in Hk. apply Forall_cons in Hk as [Hk _]. apply delete_object_trims; [apply list_elem_of_here|done].
  - apply delete_all_trims; [intros o'; by rewrite Hp|]. unfold named in Hk. unfold Replicated.keyed. by rewrite Hp, <- E.
Qed.

Lemma trimmed_refl objs w : good w -> trimmed objs w w.
Proof using. intros Hg. by split_and!. Qed.

(** What a deletion keeps. *)
Lemma trimmed_keeps D k n cfg w w' : room_for D k n w -> trimmed (cfg_Objects cfg) w w' ->
  room_for D k n w' /\ (forall o, taken_object w o -> taken_object w' o) /\
  (forall o d, o ∉ cfg_Objects cfg -> held_as w o d -> held_as w' o d).
Proof using.
  intros (Hg & Hr & Ho) (Hg' & [Hr' Hi'] & Hu & Hh & Hs). split; [split_and!; [done|auto|]|split].
  - intros sh k' x Hx Hni. apply Hu. by eapply Ho; [apply Hh|].
  - intros o. apply Hi'.
  - intros o d Hni [Hk Hd]. split; [done|]. by rewrite Hs.
Qed.
End Rooms.

(** What a storage returns when its schedule is complete; a nil configuration
    without an error is dereferenced by the caller. *)
Definition finish {W} (w : W) (r : option (outcome (option ChunkConfig * option error) * W)) : outcome ChunkConfig * W :=
  match r with
  | None => (Panic "incomplete schedule", w)
  | Some (Ok (_, Some e), w') => (Err e, w')
  | Some (Ok (Some cfg, None), w') => (Ok cfg, w')
  | Some (Ok (None, None), w') => (Panic "invalid memory address or nil pointer dereference", w')
  | Some (Err e, w') => (Err e, w')
  | Some (Panic p, w') => (Panic p, w')
  end.

Lemma finish_cases {W} (w : W) r c w' : finish w r = (c, w') ->
  r = None /\ w' = w /\ (forall cfg, c <> Ok cfg) \/
  exists x, r = Some (x, w') /\ (forall cfg, c = Ok cfg -> x = Ok (Some cfg, None)).
Proof.
  destruct r as [[[[[cfg|] [e|]]|e|p] w1]|]; cbn; intros [= <- <-].
  7: by left.
  all: right; eexists; (split; [done|]); try done. by intros ? [= <-].
Qed.

(** A call that only looks, in a world with room. *)
Lemma looks `{ShardFresh W} {A} D k n (m : prog W A) w r w' :
  m w = (r, w') -> room_for D k n w -> stays (frame w) m ->
  room_for D k n w' /\ (forall o d, held_as w o d -> held_as w' o d) /\ (forall o, taken_object w o -> taken_object w' o).
Proof.
  intros E Hw Hm. eapply frame_keeps; [done|]. specialize (Hm w (frame_refl w (proj1 Hw))). by rewrite E in Hm.
Qed.

(** A call that deletes objects of a chunk. *)
Lemma deletes `{ShardFresh W} {A} D k n (m : prog W A) cfg w r w' :
  m w = (r, w') -> room_for D k n w -> stays (trimmed (cfg_Objects cfg) w) m ->
  room_for D k n w' /\ (forall o, taken_object w o -> taken_object w' o) /\
  (forall o d, o ∉ cfg_Objects cfg -> held_as w o d -> held_as w' o d).
Proof.
  intros E Hw Hm. eapply trimmed_keeps; [done|]. specialize (Hm w (trimmed_refl _ w (proj1 Hw))). by rewrite E in Hm.
Qed.

(** ** Random storage *)
Section Random.
Context `{ShardFresh W} (order : W -> list string).

Lemma random_read_frame w0 cfg : named cfg -> stays (frame w0) (Random.ReadChunk cfg).
Proof using.
  intros Hk. unfold Random.ReadChunk. unfold named in Hk. destruct (cfg_Objects cfg) as [|o [|]]; auto with zstor.
  apply Forall_cons in Hk as [Hk _]. apply stays_bind; [auto with zstor|]. intros _.
  apply stays_bind; [auto with zstor|]. intros x. destruct (negb _); auto with zstor.
Qed.

Lemma random_check_frame w0 cfg fast : named cfg -> stays (frame w0) (Random.CheckChunk cfg fast).
Proof using.
  intros Hk. unfold Random.CheckChunk. unfold named in Hk. destruct (cfg_Objects cfg) as [|o [|]]; auto with zstor.
  apply Forall_cons in Hk as [Hk _]. auto with zstor.
Qed.

#[local] Instance random_storage : ChunkStorage W := {|
  Pipeline.WriteChunk d := fun w => Random.WriteChunk (order w) d w;
  Pipeline.ReadChunk := Random.ReadChunk;
  Pipeline.CheckChunk := Random.CheckChunk;
  Pipeline.RepairChunk := Random.RepairChunk;
  Pipeline.DeleteChunk := Random.DeleteChunk;
|}.

Definition random_at (w : W) (cfg : ChunkConfig) (d : bytes) : Prop :=
  cfg_Size cfg = Z.of_nat (length d) /\ exists o, cfg_Objects cfg = [o] /\ held_as w o d.

Lemma random_at_mono w w' cfg d :
  (forall o x, o ∈ cfg_Objects cfg -> held_as w o x -> held_as w' o x) -> random_at w cfg d -> random_at w' cfg d.
Proof using.
  intros Hm (Hs & o & Ho & Hd). split; [done|]. exists o. split; [done|]. apply Hm; [|done]. rewrite Ho. apply list_elem_of_here.
Qed.

Lemma random_write l d n w r w' :
  Random.WriteChunk l d w = (r, w') -> good w -> roomy (length l + n) w ->
  extends n w w' /\ (forall cfg, r = Ok cfg -> random_at w' cfg d /\ Forall (new_object w w') (cfg_Objects cfg)).
Proof using.
  revert w; induction l as [|sh l IH]; intros w Hw Hg Hr; cbn [Random.WriteChunk] in Hw.
  { injection Hw as <- <-. by split. }
  destruct (Spread.CreateObject sh d w) as [[key|e|p] w1] eqn:E.
  all: destruct (create_law _ _ _ _ _ E Hg) as (Hg1 & Hnp & _ & _ & Hok & _).
  all: pose proof (create_extends _ _ _ _ _ _ E Hg Hr) as He.
  3: done.
  - injection Hw as <- <-. destruct He as (_ & Hr1 & Hgr & Hi).
    split; [split_and!; [done|eapply (roomy_le n (length l + n)); [lia|done]|done|done]|].
    intros cfg [= <-]. destruct (Hok key eq_refl) as [Hk Hh].
    destruct (create_fresh _ _ _ _ _ _ E Hg Hr) as (_ & _ & _ & _ & Hnew). destruct (Hnew key eq_refl) as (_ & Hn1 & Hn2). split.
    + split; [done|]. eexists. by split.
    + constructor; [|done]. by split_and!.
  - destruct (IH w1 Hw Hg1 ltac:(apply He)) as [He' Hat]. split; [by eapply extends_trans|].
    intros cfg Hcfg. destruct (Hat cfg Hcfg) as [Ha Hall]. split; [done|]. eapply Forall_impl; [exact Hall|].
    intros o. by eapply new_object_earlier.
Qed.

Lemma random_read o size d w r w' :
  Random.ReadChunk {| cfg_Size := size; cfg_Objects := [o] |} w = (r, w') -> good w -> held_as w o d -> size = Z.of_nat (length d) ->
  no_panic r /\ (forall x, r = Ok x -> x = d) /\ (readable w o d -> r = Ok d).
Proof using.
  intros Hr Hg [Hk Hd] ->. unfold Random.ReadChunk, pbind in Hr. cbn [cfg_Objects cfg_Size] in Hr.
  destruct (GetShard (mo_ShardID o) w) as [r1 w1] eqn:E1. destruct (shard_law _ _ _ _ E1 Hg) as (Hg1 & Hp1 & Hu1 & Hh1 & Hok1).
  destruct r1 as [[]|e|p]; [| |done].
  2: { injection Hr as <- <-. split_and!; try done. intros [Hu _]. by apply Hok1 in Hu. }
  destruct (Spread.GetObject (mo_ShardID o) (mo_Key o) w1) as [r2 w2] eqn:E2.
  destruct (get_law _ _ _ _ _ E2 Hg1 Hk) as (_ & Hp2 & _ & _ & Hg2 & Hup2). rewrite Hh1 in Hg2, Hup2.
  destruct r2 as [x|e|p]; [| |done].
  - specialize (Hg2 x eq_refl). rewrite Hd in Hg2. injection Hg2 as <-. rewrite Z.eqb_refl in Hr. injection Hr as <- <-.
    split_and!; try done. by intros y [= <-].
  - injection Hr as <- <-. split_and!; try done. intros [Hu _]. apply Hu1 in Hu. by specialize (Hup2 d Hu Hd).
Qed.

Context (D : list string) (k : nat) (Horder : forall w, length (order w) <= k).

#[local] Instance random_storage_laws : ChunkStorageLaws W.
Proof using All.
  refine {| storage_good := room_for D k; chunk_at := random_at; ready := length D <= 0 |}.
  - intros n w. apply room_less.
  - intros d w r w' n Hw Hroom. cbn in Hw. pose proof Hroom as (Hg & Hr & _).
    destruct (random_write (order w) d (n * k) w r w' Hw Hg) as [He Hat].
    { eapply roomy_le; [|exact Hr]. pose proof (Horder w). cbn. lia. }
    destruct (extends_keeps D k n w w' Hroom He) as (Hroom' & Hkeep & _). split_and!; [done| |].
    + intros cfg' d'. apply random_at_mono. auto.
    + intros cfg Hcfg. by apply Hat.
  - intros cfg d w r w' n Hr (Hs & o & Ho & Hd) Hroom. cbn in Hr.
    destruct (looks _ _ _ _ _ _ _ Hr Hroom (random_read_frame w cfg ltac:(unfold named; rewrite Ho; constructor; [apply Hd|done])))
      as (Hroom' & Hkeep & _). destruct cfg as [size objs]. cbn in Ho, Hs. subst objs.
    destruct (random_read _ _ _ _ _ _ Hr (proj1 Hroom) Hd Hs) as (Hnp & Hx & Hok). split_and!; [done| |done|done|].
    + intros cfg' d'. apply random_at_mono. auto.
    + intros HD. apply Hok. destruct D; [|cbn in HD; lia]. eapply held_readable; [apply Hroom|apply not_elem_of_nil|done].
Defined.

#[local] Instance random_storage_own : ChunkStorageOwn W.
Proof using All.
  refine {| taken := taken_object; full := D = [] |}.
  - intros d w r w' n Hw Hroom. cbn in Hw. pose proof Hroom as (Hg & Hr & _).
    destruct (random_write (order w) d (n * k) w r w' Hw Hg) as [He Hat].
    { eapply roomy_le; [|exact Hr]. pose proof (Horder w). cbn. lia. }
    split; [intros o; apply He|]. intros cfg o Hcfg Ho. destruct (Hat cfg Hcfg) as [_ Hall]. rewrite Forall_forall in Hall. by apply Hall.
  - intros cfg w r w' n Hr Hk Hroom. destruct (looks _ _ _ _ _ _ _ Hr Hroom (random_read_frame w cfg Hk)) as (Hroom' & Hkeep & Ht).
    split_and!; [done| |done]. intros cfg' d'. apply random_at_mono. auto.
  - intros cfg fast w r w' n Hr Hk Hroom. destruct (looks _ _ _ _ _ _ _ Hr Hroom (random_check_frame w cfg fast Hk)) as (Hroom' & Hkeep & Ht).
    split_and!; [done| |done]. intros cfg' d'. apply random_at_mono. auto.
  - intros cfg d fast w r w' n Hr (Hs & o & Ho & Hd) (Hg & _ & Hout). cbn in Hr. unfold Random.CheckChunk, pbind in Hr. rewrite Ho in Hr.
    destruct (object_valid_spec o w Hg (proj1 Hd)) as (b & w1 & E & _ & _ & _ & Hv). rewrite E in Hr. injection Hr as <- <-.
    assert (Hb : D = [] -> b = true).
    { intros ->. apply (Hv d). eapply held_readable; [done|apply not_elem_of_nil|done]. }
    split; [|by intros HD _; rewrite (Hb HD)]. intros HD. rewrite Hb by (cbn in HD; destruct D; [done|cbn in HD; lia]). by eexists.
  - intros cfg w r w' n [= <- <-] _ Hroom. split_and!; [by apply room_less|done..].
  - intros cfg w r w' n Hr Hk Hroom. cbn in Hr.
    destruct (deletes D k n _ cfg w r w' Hr Hroom) as (Hroom' & Htk & Hkeep).
    { unfold Random.DeleteChunk. destruct (cfg_Objects cfg) as [|o [|]] eqn:Ho; auto with zstor.
      unfold named in Hk. rewrite Ho in Hk. apply Forall_cons in Hk as [Hk _]. apply delete_object_trims; [apply list_elem_of_here|done]. }
    split_and!; [done|done|].
    intros cfg' d' Hat Hap. eapply random_at_mono; [|exact Hat]. intros o x Ho. apply Hkeep. intros Ho'. by apply (Hap o).
Defined.
End Random.

(** ** Replicated storage *)
Section Replicated.
Context `{ShardFresh W} (rs : Replicated.ReplicatedChunkStorage).
(** What the random iterator hands out and how the goroutines of a write are
    scheduled; [arrival] is the order in which objects are examined, [iter] what
    the iterator without some shards hands out. *)
Context (order : W -> list string) (evs : W -> bytes -> list event)
  (arrival : list MetaObject -> list MetaObject) (iter : W -> list string -> list string)
  (evs' : W -> ChunkConfig -> list event) (extra : nat).

#[local] Instance replicated_storage : ChunkStorage W := {|
  Pipeline.WriteChunk d := fun w => finish w
    ('((cfg, err), w') ← Replicated.WriteChunk rs (order w) (evs w d) d w; Some (Ok (Some cfg, err), w'));
  Pipeline.ReadChunk := Replicated.ReadChunk;
  Pipeline.CheckChunk cfg fast := Replicated.CheckChunk rs (arrival (cfg_Objects cfg)) cfg fast;
  Pipeline.RepairChunk cfg := fun w => finish w
    (Replicated.RepairChunk rs (arrival (cfg_Objects cfg)) (iter w) (evs' w cfg) cfg w);
  Pipeline.DeleteChunk cfg := Replicated.DeleteChunk extra (arrival (cfg_Objects cfg)) cfg;
|}.

(** The copies of the chunk, on different shards. *)
Definition replicated_at (w : W) (cfg : ChunkConfig) (d : bytes) : Prop :=
  cfg_Size cfg = Z.of_nat (length d) /\ NoDup (mo_ShardID <$> cfg_Objects cfg) /\
  Replicated.dataShardCount rs <= length (cfg_Objects cfg) /\ Forall (fun o => held_as w o d) (cfg_Objects cfg).

Lemma replicated_at_mono w w' cfg d :
  (forall o x, o ∈ cfg_Objects cfg -> held_as w o x -> held_as w' o x) -> replicated_at w cfg d -> replicated_at w' cfg d.
Proof using.
  intros Hm (Hs & Hnd & Hl & Hall). split_and!; try done. rewrite Forall_forall in Hall |- *. intros o Ho. by apply Hm, Hall.
Qed.

Lemma replicated_write l es m d n w cfg err w' :
  NoDup l -> Replicated.write rs l es m d w = Some ((cfg, err), w') -> good w -> roomy (length l + n) w ->
  extends n w w' /\ Forall (new_object w w') (cfg_Objects cfg).
Proof using.
  intros Hnd Hw Hg Hr. unfold Replicated.write in Hw. cbv zeta in Hw.
  set (workers0 := if _ <? _ then _ else _) in Hw. set (jobs := replicate _ _) in Hw.
  destruct (run es _) as [s|] eqn:Hrun; [|done]. cbn [mbind option_bind] in Hw. destruct (finished s); [|done].
  injection Hw as <- _ <-. pose proof (inv_init workers0 jobs l w Hg) as Hi0.
  destruct (fresh_run n _ _ _ w _ _ Hnd Hi0 (fresh_init _ _ _ _ _ Hr) Hrun) as [Hr' Hgr Hi Hnew]. split.
  - split_and!; [apply (inv_good _ _ _ (inv_run _ _ _ _ _ Hnd Hi0 Hrun))|by eapply roomy_le; [|exact Hr']; lia|done|done].
  - cbn [cfg_Objects]. apply Forall_app in Hnew as [Hnew _]. by apply Forall_fmap.
Qed.

Lemma repair_read_sub size objs ob w r rest w' :
  Replicated.repair_read size objs ob w = (Ok (r, rest), w') -> forall o, o ∈ rest -> o ∈ objs.
Proof using.
  revert ob w; induction objs as [|x objs IH]; intros ob w; cbn [Replicated.repair_read]; [by intros [= <- <- _]|].
  intros Hr o Ho. destruct (GetShard (mo_ShardID x) w) as [[[]|e|p] w1]; [|by eapply list_elem_of_further, IH|done].
  destruct (Spread.GetObject (mo_ShardID x) (mo_Key x) w1) as [[d|e|p] w2]; [|by eapply list_elem_of_further, IH|done].
  destruct (negb _); [by eapply list_elem_of_further, IH|]. by injection Hr as _ <- _.
Qed.

(** A repair, also of a damaged chunk, only adds objects. *)
Lemma replicated_repair k arr it es cfg n w x w' :
  named cfg -> arr ≡ₚ cfg_Objects cfg -> (forall except, NoDup (it except) /\ length (it except) <= k) ->
  Replicated.RepairChunk rs arr it es cfg w = Some (x, w') -> good w -> roomy (k + n) w ->
  extends n w w' /\ (forall cfg', x = Ok (Some cfg', None) -> forall o, o ∈ cfg_Objects cfg' -> o ∈ cfg_Objects cfg \/ new_object w w' o).
Proof using.
  intros Hk Hp Hit Hrep Hg Hr. assert (Hr0 : roomy n w) by (eapply roomy_le; [|exact Hr]; lia).
  assert (Hka : Replicated.keyed arr) by (unfold Replicated.keyed; by rewrite Hp).
  assert (Hlook : forall w1, frame w w1 -> extends n w w1) by (intros w1 Hf; by apply frame_extends).
  unfold Replicated.RepairChunk in Hrep. unfold named in Hk. destruct (cfg_Objects cfg) as [|o [|o2 rest]] eqn:Ho.
  - injection Hrep as <- <-. split; [by apply Hlook, frame_refl|done].
  - apply Forall_cons in Hk as [Hk _]. pose proof (object_valid_frame w o Hk w (frame_refl w Hg)) as Hf.
    destruct (object_valid o w) as [[[]|e|p] w1]; injection Hrep as <- <-; (split; [by apply Hlook|]); try done.
    intros cfg' [= <-] o'. rewrite Ho. by left.
  - pose proof (split_frame w arr Hka w (frame_refl w Hg)) as Hf1.
    destruct (Replicated.splitObjects arr w) as [[[v iv]|e|p] w1] eqn:Hsp; cbn [snd] in Hf1;
      [|by injection Hrep as <- <-; split; [apply Hlook|]..].
    destruct (Replicated.splitObjects_spec arr w Hg Hka) as (v' & iv' & w1' & Hsp' & _ & _ & Hsub & _).
    rewrite Hsp in Hsp'. injection Hsp' as <- <- <-.
    assert (Hv : forall o', o' ∈ v -> o' ∈ arr) by (intros o' Ho'; eapply elem_of_submseteq; [|exact Hsub]; apply elem_of_app; by left).
    assert (Hkv : Replicated.keyed v).
    { unfold Replicated.keyed in Hka |- *. rewrite Forall_forall in Hka |- *. auto. }
    destruct (length v =? 0); [injection Hrep as <- <-; by split; [apply Hlook|]|].
    destruct (_ <=? length v).
    { injection Hrep as <- <-. split; [by apply Hlook|]. intros cfg' [= <-] o' Ho'. left. rewrite <- Hp. auto. }
    pose proof (repair_read_frame w (cfg_Size cfg) v None Hkv w1 Hf1) as Hf2.
    destruct (Replicated.repair_read (cfg_Size cfg) v None w1) as [[[[data|] v']|e|p] w2] eqn:Hrr; cbn [snd] in Hf2;
      [|by injection Hrep as <- <-; split; [apply Hlook|]..].
    set (except := (mo_ShardID <$> iv) ++ (mo_ShardID <$> v')) in *. destruct (Hit except) as [Hnd Hle].
    destruct (Replicated.write rs (it except) es _ data w2) as [[[oc err] w3]|] eqn:Hwr; [|done].
    destruct (replicated_write _ _ _ _ n _ _ _ _ Hnd Hwr (proj1 Hf2)) as [He Hnew].
    { eapply roomy_le; [|apply Hf2, Hr]. lia. }
    assert (He' : extends n w w3) by (eapply extends_trans; [apply (Hlook w2 Hf2)|done]).
    cbn [mbind option_bind] in Hrep. destruct err as [e|]; [by injection Hrep as <- <-; split|]. cbv zeta in Hrep.
    destruct (_ <? Replicated.dataShardCount rs); injection Hrep as <- <-; (split; [done|]); [done|].
    intros cfg' [= <-] o' [Ho'|Ho']%elem_of_app.
    + left. rewrite <- Hp. apply Hv. by eapply repair_read_sub.
    + right. rewrite Forall_forall in Hnew. eapply new_object_earlier; [apply (Hlook w2 Hf2)|auto].
Qed.

Context (D : list string) (k : nat) (Horder : forall w, NoDup (order w) /\ length (order w) <= k).
Context (Hdata : 0 < Replicated.dataShardCount rs).

(** A copy outside [D]. *)
Lemma replicated_available w cfg d : replicated_at w cfg d -> outside D w -> length D < Replicated.dataShardCount rs ->
  exists o, o ∈ cfg_Objects cfg /\ readable w o d.
Proof using Hdata.
  intros (_ & Hnd & Hl & Hall) Hout HD. pose proof (shards_outside D _ Hnd) as Hs.
  destruct (List.filter (avoids D) (cfg_Objects cfg)) as [|o rest] eqn:Ef; [cbn in Hs; lia|].
  assert (Hin : In o (List.filter (avoids D) (cfg_Objects cfg))) by (rewrite Ef; by left).
  apply List.filter_In in Hin as [Hin Hav]. apply list_elem_of_In in Hin. exists o. split; [done|].
  unfold avoids in Hav. apply negb_true_iff, bool_decide_eq_false in Hav.
  eapply held_readable; [done|done|]. rewrite Forall_forall in Hall. auto.
Qed.

Lemma held_copies w objs d : Forall (fun o => held_as w o d) objs -> Replicated.keyed objs /\ Replicated.copies w objs d.
Proof using.
  intros Hall. split; [eapply Forall_impl; [exact Hall|]; by intros o []|]. intros o x Ho Hx.
  rewrite Forall_forall in Hall. destruct (Hall o Ho) as [_ Hd]. congruence.
Qed.

#[local] Instance replicated_storage_laws : ChunkStorageLaws W.
Proof using All.
  refine {| storage_good := room_for D k; chunk_at := replicated_at; ready := length D < Replicated.dataShardCount rs |}.
  - intros n w. apply room_less.
  - intros d w r w' n Hw Hroom. cbn in Hw. pose proof Hroom as (Hg & Hr & _). destruct (Horder w) as [Hnd Hlen].
    apply finish_cases in Hw as [(_ & -> & Hno)|(x & Hw & Hx)].
    { split_and!; [by apply room_less|done|]. intros cfg Hcfg. by destruct (Hno cfg). }
    destruct (Replicated.WriteChunk rs (order w) (evs w d) d w) as [[[cfg err] w1]|] eqn:E; [|done]. cbn in Hw. injection Hw as <- <-.
    unfold Replicated.WriteChunk in E. destruct (replicated_write _ _ _ _ (n * k) _ _ _ _ Hnd E Hg) as [He _].
    { eapply roomy_le; [|exact Hr]. cbn. lia. }
    destruct (extends_keeps D k n w w1 Hroom He) as (Hroom' & Hkeep & _). split_and!; [done| |].
    + intros cfg' d'. apply replicated_at_mono. auto.
    + intros cfg' Hcfg. specialize (Hx cfg' Hcfg). injection Hx as <- ->.
      destruct (Replicated.write_spec _ _ _ _ _ _ _ _ _ Hnd Hg E) as (_ & Hsz & _ & Hsub & Hall & Herr & _).
      split_and!; [done|by eapply submseteq_keeps_NoDup|by rewrite (proj1 Herr eq_refl)|done].
  - intros cfg d w r w' n Hr Hat Hroom. cbn in Hr. pose proof Hat as (Hs & Hnd & Hl & Hall). destruct (held_copies _ _ _ Hall) as [Hk Hcp].
    assert (Hst : stays (frame w) (Replicated.ReadChunk cfg)).
    { unfold Replicated.ReadChunk. destruct (_ =? 0); auto with zstor. }
    destruct (looks _ _ _ _ _ _ _ Hr Hroom Hst) as (Hroom' & Hkeep & _). unfold Replicated.ReadChunk in Hr.
    destruct (Nat.eqb_spec (length (cfg_Objects cfg)) 0); [lia|].
    destruct (Replicated.read_objects_spec (cfg_Size cfg) (cfg_Objects cfg) d w (proj1 Hroom) Hk Hcp Hs) as [Hor Hok].
    rewrite Hr in Hor, Hok. cbn [fst] in Hor, Hok. split_and!; [done| |by destruct Hor as [->| ->]|by destruct Hor as [->| ->]; intros ? [= <-]|].
    + intros cfg' d'. apply replicated_at_mono. auto.
    + intros HD. apply Hok. eapply replicated_available; [done|apply Hroom|done].
Defined.

Context (Harrival : forall l, arrival l ≡ₚ l)
  (Hiter : forall w except, NoDup (iter w except) /\ length (iter w except) <= k /\ forall sh, sh ∈ except -> sh ∉ iter w except).

#[local] Instance replicated_storage_own : ChunkStorageOwn W.
Proof using All.
  refine {| taken := taken_object; full := D = [] |}.
  - intros d w r w' n Hw Hroom. cbn in Hw. pose proof Hroom as (Hg & Hr & _). destruct (Horder w) as [Hnd Hlen].
    apply finish_cases in Hw as [(_ & -> & Hno)|(x & Hw & Hx)].
    { split; [done|]. intros cfg o Hcfg. by destruct (Hno cfg). }
    destruct (Replicated.WriteChunk rs (order w) (evs w d) d w) as [[[cfg err] w1]|] eqn:E; [|done]. cbn in Hw. injection Hw as <- <-.
    unfold Replicated.WriteChunk in E. destruct (replicated_write _ _ _ _ (n * k) _ _ _ _ Hnd E Hg) as [He Hnew].
    { eapply roomy_le; [|exact Hr]. cbn. lia. }
    split; [intros o; apply He|]. intros cfg' o Hcfg Ho. specialize (Hx cfg' Hcfg). injection Hx as <- ->.
    rewrite Forall_forall in Hnew. by apply Hnew.
  - intros cfg w r w' n Hr Hk Hroom.
    assert (Hst : stays (frame w) (Replicated.ReadChunk cfg)).
    { unfold Replicated.ReadChunk. destruct (_ =? 0); auto with zstor. }
    destruct (looks _ _ _ _ _ _ _ Hr Hroom Hst) as (Hroom' & Hkeep & Ht).
    split_and!; [done| |done]. intros cfg' d'. apply replicated_at_mono. auto.
  - intros cfg fast w r w' n Hr Hk Hroom. cbn in Hr.
    assert (Hka : Replicated.keyed (arrival (cfg_Objects cfg))) by (unfold Replicated.keyed; by rewrite Harrival).
    assert (Hst : stays (frame w) (Replicated.CheckChunk rs (arrival (cfg_Objects cfg)) cfg fast)).
    { unfold Replicated.CheckChunk. destruct (_ =? 0); [auto with zstor|]. destruct fast; (apply stays_bind; [auto with zstor|]); auto with zstor. }
    destruct (looks _ _ _ _ _ _ _ Hr Hroom Hst) as (Hroom' & Hkeep & Ht).
    split_and!; [done| |done]. intros cfg' d'. apply replicated_at_mono. auto.
  - intros cfg d fast w r w' n Hr (Hs & Hnd & Hl & Hall) (Hg & _ & Hout). cbn in Hr.
    assert (Hst : Forall (fun o => exists d, held_as w o d) (cfg_Objects cfg)).
    { eapply Forall_impl; [exact Hall|]. intros o Ho; by exists d. }
    pose proof (reach_outside D w _ _ (Harrival (cfg_Objects cfg)) Hnd Hst) as Hreach.
    destruct (replicated_check_sound rs (sure D (cfg_Objects cfg)) (arrival (cfg_Objects cfg)) cfg w) as [Hfull Hfast]; try done.
    + unfold Replicated.keyed. rewrite Harrival. apply (held_copies _ _ _ Hall).
    + intros E. pose proof (Permutation_length (Harrival (cfg_Objects cfg))) as Hle. rewrite E in Hle. cbn in Hle. lia.
    + by apply sure_up.
    + unfold ready, replicated_storage_laws. destruct fast.
      * destruct Hfast as (st & E & Hi & _). rewrite Hr in E. cbn in E. subst r. split; [|done]. intros HD. exists st. split; [done|].
        intros ->. specialize (Hi eq_refl). lia.
      * destruct Hfull as (st & E & _ & Hopt & Hi & _). rewrite Hr in E. cbn in E. subst r. split.
        -- intros HD. exists st. split; [done|]. intros ->. specialize (Hi eq_refl). lia.
        -- intros HD _. rewrite Hopt; [done|]. rewrite HD in *. cbn in Hreach. lia.
  - intros cfg w r w' n Hw Hk Hroom. cbn in Hw. pose proof Hroom as (Hg & Hr & _).
    apply finish_cases in Hw as [(_ & -> & Hno)|(x & Hw & Hx)].
    { split_and!; [by apply room_less|done|done|]. intros cfg' Hcfg. by destruct (Hno cfg'). }
    destruct (replicated_repair k _ _ _ _ (n * k) _ _ _ Hk (Harrival _) (fun e => conj (proj1 (Hiter w e)) (proj1 (proj2 (Hiter w e)))) Hw Hg) as [He Hnew].
    { eapply roomy_le; [|exact Hr]. cbn. lia. }
    destruct (extends_keeps D k n w w' Hroom He) as (Hroom' & Hkeep & Ht). split_and!; [done| |done|].
    { intros cfg' d'. apply replicated_at_mono. auto. }
    intros cfg' Hcfg. rewrite (Hx cfg' Hcfg) in Hw. split.
    + intros o Ho. destruct (Hnew cfg' (Hx cfg' Hcfg) o Ho) as [Hin|(Hkey & Hn)]; [|by split; [|right]].
      split; [|by left]. unfold named in Hk. rewrite Forall_forall in Hk. auto.
    + intros d (Hs & Hnd & Hl & Hall). destruct (held_copies _ _ _ Hall) as [Hkd Hcp].
      destruct (replicated_repair_restores rs (arrival (cfg_Objects cfg)) (iter w) (evs' w cfg) cfg cfg' d w w') as (Hsz & Hh & Hnd' & Hlen); try done.
      * unfold Replicated.keyed. by rewrite Harrival.
      * intros o x0 Ho. apply Hcp. by rewrite <- Harrival.
      * by rewrite Harrival.
      * intros e. destruct (Hiter w e) as (? & _ & ?). by split.
      * split_and!; [congruence|done| |done]. destruct Hlen as [[_ ->]|]; [lia|done].
  - intros cfg w r w' n Hr Hk Hroom. cbn in Hr.
    destruct (deletes D k n _ cfg w r w' Hr Hroom (DeleteChunk_trims _ _ _ _ (Harrival _) Hk)) as (Hroom' & Htk & Hkeep).
    split_and!; [done|done|]. intros cfg' d' Hat Hap. eapply replicated_at_mono; [|exact Hat]. intros o x Ho. apply Hkeep. intros Ho'. by apply (Hap o).
Defined.
End Replicated.

(** ** Distributed storage *)
Section Distributed.
Import ReedSolomon.
Context `{ShardFresh W} (ds : Distributed.DistributedChunkStorage).
Local Abbreviation dec := (Distributed.dec ds).
Context (order : W -> list string) (evs : W -> bytes -> list event).
(** The order in which the parts of a chunk arrive, and objects are examined. *)
Context (arrival : list nat -> list nat) (examined : list MetaObject -> list MetaObject)
  (order' : W -> list string) (evs' : W -> ChunkConfig -> list event) (extra : nat).

Definition indices (cfg : ChunkConfig) : list nat := arrival (seq 0 (length (cfg_Objects cfg))).

#[local] Instance distributed_storage : ChunkStorage W := {|
  Pipeline.WriteChunk d := fun w => finish w (Distributed.WriteChunk ds (order w) (evs w d) d w);
  Pipeline.ReadChunk cfg := Distributed.ReadChunk ds (indices cfg) cfg;
  Pipeline.CheckChunk cfg fast := Distributed.CheckChunk ds (examined (cfg_Objects cfg)) cfg fast;
  Pipeline.RepairChunk cfg := fun w => finish w
    (Distributed.RepairChunk ds (indices cfg) (order' w) (evs' w cfg) cfg w);
  Pipeline.DeleteChunk cfg := Distributed.DeleteChunk extra (examined (cfg_Objects cfg)) cfg;
|}.

(** Every part of the chunk is there, on a shard of its own. *)
Definition distributed_at (w : W) (cfg : ChunkConfig) (d : bytes) : Prop :=
  d <> [] /\ cfg_Size cfg = Z.of_nat (length d) /\ NoDup (mo_ShardID <$> cfg_Objects cfg) /\
  exists parts, Encode dec d = Ok parts /\ Forall2 (fun o p => held_as w o p) (cfg_Objects cfg) parts.

Lemma distributed_at_mono w w' cfg d :
  (forall o x, o ∈ cfg_Objects cfg -> held_as w o x -> held_as w' o x) -> distributed_at w cfg d -> distributed_at w' cfg d.
Proof using.
  intros Hm (Hne & Hs & Hnd & parts & Henc & Hall). split_and!; [done..|]. exists parts. split; [done|].
  apply Forall2_same_length_lookup. split; [by eapply Forall2_length|]. intros i o p Ho Hp.
  apply Hm; [by eapply list_elem_of_lookup_2|]. by eapply Forall2_lookup_lr.
Qed.

Lemma distributed_read_frame w0 arr cfg : named cfg -> stays (frame w0) (Distributed.ReadChunk ds arr cfg).
Proof using.
  intros Hk. unfold Distributed.ReadChunk. cbv zeta. destruct (negb _); [auto with zstor|].
  apply stays_bind; [auto with zstor|]. intros [parts c]. destruct (_ <? _); [auto with zstor|].
  apply stays_bind; [auto with zstor|]. intros data. destruct (negb _); auto with zstor.
Qed.

Context `{!ErasureCode (er dec) (dataShardCount dec) (parityShardCount dec)}.
Context (Hd : 0 < dataShardCount dec) (Hcount : shardCount dec = dataShardCount dec + parityShardCount dec).

(** A slot with a key holds the object of a result. *)
Lemma slots_result m rs i o :
  Distributed.slots m rs !! i = Some o -> mo_Key o <> [] -> exists j, (j, o) ∈ rs.
Proof using.
  intros Ho Hk. assert (Hgen : forall l (acc : list MetaObject), o ∈ foldl (fun objects r => <[job_index r.1 := r.2]> objects) acc l ->
    o ∈ acc \/ exists j, (j, o) ∈ l).
  { clear. induction l as [|[j x] l IH]; intros acc Hin; [by left|]. cbn [foldl] in Hin.
    destruct (IH _ Hin) as [Ha|(j' & Hj')]; [|right; exists j'; set_solver].
    apply list_elem_of_lookup in Ha as [a Ha]. apply list_lookup_insert_Some in Ha as [(_ & <- & _)|[_ Ha]].
    - right. exists j. set_solver.
    - left. by eapply list_elem_of_lookup_2. }
  apply list_elem_of_lookup_2 in Ho. destruct (Hgen _ _ Ho) as [Hn|]; [|done].
  apply elem_of_replicate in Hn as [-> _]. done.
Qed.

Lemma distributed_write l es d n w r w' :
  NoDup l -> Distributed.WriteChunk ds l es d w = Some (r, w') -> good w -> roomy (length l + n) w ->
  extends n w w' /\
  (forall cfg, r = Ok (Some cfg, None) -> distributed_at w' cfg d /\ Forall (new_object w w') (cfg_Objects cfg)).
Proof using Hd Hcount ErasureCode0.
  intros Hnd Hw Hg Hr. pose proof Hw as Hw'. unfold Distributed.WriteChunk in Hw.
  destruct (decide (d = [])) as [->|Hne].
  { cbn in Hw. injection Hw as <- <-. split; [|done]. apply frame_extends; [by apply frame_refl|]. eapply roomy_le; [|exact Hr]. lia. }
  destruct (encode_decode dec Hd Hcount d Hne) as (parts & Henc & Hpl & _). rewrite Henc in Hw. cbv zeta in Hw.
  set (workers0 := if _ <? _ then _ else _) in Hw.
  destruct (run es _) as [s|] eqn:Hrun; [|done]. cbn [mbind option_bind] in Hw. destruct (finished s); [|done].
  pose proof (inv_init workers0 (Distributed.jobs_of parts) l w Hg) as Hi0.
  destruct (fresh_run n _ _ _ w _ _ Hnd Hi0 (fresh_init _ _ _ _ _ Hr) Hrun) as [Hr' Hgr Hi Hnew].
  pose proof (inv_good _ _ _ (inv_run _ _ _ _ _ Hnd Hi0 Hrun)) as Hg'.
  injection Hw as Er <-. split; [split_and!; [done|by eapply roomy_le; [|exact Hr']; lia|done|done]|].
  intros cfg Ecfg. rewrite Ecfg in Hw'.
  destruct (Distributed.write_stores ds l es d parts w cfg _ Hnd Hg Henc Hw') as (_ & Hsz & Hlen & Hndo & Hst).
  split.
  - split_and!; [done|done|done|]. exists parts. split; [done|].
    apply Forall2_same_length_lookup. split; [done|]. intros i o p Ho Hp.
    destruct (Hst i o Ho) as (Hk & p' & Hp' & Hh). rewrite Hp in Hp'. by injection Hp' as <-.
  - apply Forall_lookup_2. intros i o Ho. destruct (Hst i o Ho) as (Hk & _).
    rewrite Ecfg in Er. injection Er as Ecfg' _. subst cfg. cbn [cfg_Objects] in Ho.
    destruct (slots_result _ _ _ _ Ho Hk) as (j & Hj). rewrite Forall_forall in Hnew. apply (Hnew (j, o)). apply elem_of_app. by left.
Qed.

Context (D : list string) (k : nat) (Horder : forall w, NoDup (order w) /\ length (order w) <= k) (Harrival : forall l, arrival l ≡ₚ l).

(** A read of a stored chunk gives the data or fails. *)
Lemma distributed_read w cfg d r w' :
  Distributed.ReadChunk ds (indices cfg) cfg w = (r, w') -> good w -> outside D w -> distributed_at w cfg d ->
  no_panic r /\ (forall x, r = Ok x -> x = d) /\ (length D <= parityShardCount dec -> r = Ok d).
Proof using Hd Hcount ErasureCode0 Harrival.
  intros Hr Hg Hout (Hne & Hs & Hnd & parts & Henc & Hall). pose proof (Forall2_length _ _ _ Hall) as Hlen.
  set (alive := fun i => match cfg_Objects cfg !! i with Some o => avoids D o | None => false end).
  destruct (read_sound ds Hd Hcount (indices cfg) cfg parts d alive w) as (r' & w1 & Hread & Hg' & Hor & Hok); try done.
  - apply Forall_forall. intros o Ho. apply list_elem_of_lookup in Ho as [i Hi].
    by destruct (Forall2_lookup_l _ _ _ _ _ Hall Hi) as (p & _ & Hk & _).
  - unfold indices. by rewrite Harrival, Hlen.
  - intros i o p Ho Hh. destruct (Forall2_lookup_l _ _ _ _ _ Hall Ho) as (p' & Hp' & _ & Hh'). congruence.
  - intros i o Ho Hav. unfold alive in Hav. rewrite Ho in Hav. unfold avoids in Hav. apply negb_true_iff, bool_decide_eq_false in Hav.
    destruct (Forall2_lookup_l _ _ _ _ _ Hall Ho) as (p & _ & Hp). exists p. by eapply held_readable.
  - rewrite Hr in Hread. injection Hread as -> ->. split_and!; [by destruct Hor as [->| ->]|by destruct Hor as [->| ->]; intros ? [= <-]|].
    intros HD. apply Hok. destruct (encode_decode dec Hd Hcount d Hne) as (parts' & Henc' & Hpl & _).
    rewrite Henc in Henc'. injection Henc' as <-. pose proof (shards_outside D _ Hnd) as Hs'.
    enough (length (List.filter alive (indices cfg)) = length (List.filter (avoids D) (cfg_Objects cfg))) by lia.
    assert (Hperm : forall l l', l ≡ₚ l' -> length (List.filter alive l) = length (List.filter alive l')).
    { clear. induction 1; cbn; repeat case_match; cbn; lia. }
    unfold indices. rewrite (Hperm _ _ (Harrival _)). clear. subst alive. generalize (cfg_Objects cfg) as objs.
    induction objs as [|o objs IH] using rev_ind; [done|].
    rewrite length_app, seq_app, !List.filter_app, !length_app. cbn [length seq List.filter Nat.add]. f_equal.
    + rewrite <- IH. f_equal. apply List.filter_ext_in. intros i Hi. apply in_seq in Hi. by rewrite lookup_app_l by lia.
    + rewrite lookup_app_r, Nat.sub_diag by lia. cbn. by destruct (avoids D o).
Qed.

#[local] Instance distributed_storage_laws : ChunkStorageLaws W.
Proof using All.
  refine {| storage_good := room_for D k; chunk_at := distributed_at; ready := length D <= parityShardCount dec |}.
  - intros n w. apply room_less.
  - intros d w r w' n Hw Hroom. cbn in Hw. pose proof Hroom as (Hg & Hr & _). destruct (Horder w) as [Hnd Hlen].
    apply finish_cases in Hw as [(_ & -> & Hno)|(x & Hw & Hx)].
    { split_and!; [by apply room_less|done|]. intros cfg Hcfg. by destruct (Hno cfg). }
    destruct (distributed_write _ _ _ (n * k) _ _ _ Hnd Hw Hg) as [He Hat]; [eapply roomy_le; [|exact Hr]; cbn; lia|].
    destruct (extends_keeps D k n w w' Hroom He) as (Hroom' & Hkeep & _). split_and!; [done| |].
    + intros cfg' d'. apply distributed_at_mono. auto.
    + intros cfg Hcfg. by apply Hat, Hx.
  - intros cfg d w r w' n Hr Hat Hroom. cbn in Hr.
    assert (Hk : named cfg).
    { destruct Hat as (_ & _ & _ & parts & _ & Hall). apply Forall_lookup_2. intros i o Ho.
      by destruct (Forall2_lookup_l _ _ _ _ _ Hall Ho) as (p & _ & Hk & _). }
    destruct (looks _ _ _ _ _ _ _ Hr Hroom (distributed_read_frame _ _ _ Hk)) as (Hroom' & Hkeep & _).
    destruct (distributed_read _ _ _ _ _ Hr (proj1 Hroom) (proj2 (proj2 Hroom)) Hat) as (Hnp & Hx & Hok).
    split_and!; [done| |done|done|done]. intros cfg' d'. apply distributed_at_mono. auto.
Defined.

Context (Hpar : 0 < parityShardCount dec) (Hexamined : forall l, examined l ≡ₚ l) (Horder' : forall w, NoDup (order' w) /\ length (order' w) <= k).

#[local] Instance distributed_storage_own : ChunkStorageOwn W.
Proof using All.
  refine {| taken := taken_object; full := D = [] |}.
  - intros d w r w' n Hw Hroom. cbn in Hw. pose proof Hroom as (Hg & Hr & _). destruct (Horder w) as [Hnd Hlen].
    apply finish_cases in Hw as [(_ & -> & Hno)|(x & Hw & Hx)].
    { split; [done|]. intros cfg o Hcfg. by destruct (Hno cfg). }
    destruct (distributed_write _ _ _ (n * k) _ _ _ Hnd Hw Hg) as [He Hat]; [eapply roomy_le; [|exact Hr]; cbn; lia|].
    split; [intros o; apply He|]. intros cfg o Hcfg Ho. destruct (Hat cfg (Hx cfg Hcfg)) as [_ Hnew]. rewrite Forall_forall in Hnew. by apply Hnew.
  - intros cfg w r w' n Hr Hk Hroom. destruct (looks _ _ _ _ _ _ _ Hr Hroom (distributed_read_frame _ _ _ Hk)) as (Hroom' & Hkeep & Ht).
    split_and!; [done| |done]. intros cfg' d'. apply distributed_at_mono. auto.
  - intros cfg fast w r w' n Hr Hk Hroom. cbn in Hr.
    assert (Hka : Replicated.keyed (examined (cfg_Objects cfg))) by (unfold Replicated.keyed; by rewrite Hexamined).
    assert (Hst : stays (frame w) (Distributed.CheckChunk ds (examined (cfg_Objects cfg)) cfg fast)).
    { unfold Distributed.CheckChunk. cbv zeta. destruct (negb _); auto with zstor. }
    destruct (looks _ _ _ _ _ _ _ Hr Hroom Hst) as (Hroom' & Hkeep & Ht).
    split_and!; [done| |done]. intros cfg' d'. apply distributed_at_mono. auto.
  - intros cfg d fast w r w' n Hr (Hne & Hs & Hnd & parts & Henc & Hall) (Hg & _ & Hout). cbn in Hr.
    assert (Hst : Forall (fun o => exists d, held_as w o d) (cfg_Objects cfg)).
    { apply Forall_lookup_2. intros i o Ho. destruct (Forall2_lookup_l _ _ _ _ _ Hall Ho) as (p & _ & Hp). by exists p. }
    pose proof (reach_outside D w _ _ (Hexamined (cfg_Objects cfg)) Hnd Hst) as Hreach.
    destruct (encode_decode dec Hd Hcount d Hne) as (parts' & Henc' & Hpl & _). rewrite Henc in Henc'. injection Henc' as <-.
    pose proof (Forall2_length _ _ _ Hall) as Hlen.
    destruct (distributed_check_sound ds (sure D (cfg_Objects cfg)) (examined (cfg_Objects cfg)) cfg fast w) as [_ Hchk]; try done.
    + unfold Replicated.keyed. rewrite Hexamined. eapply Forall_impl; [exact Hst|]. by intros o (? & ? & _).
    + lia.
    + by apply sure_up.
    + destruct Hchk as (st & E & _ & Hopt & Hi & _); [rewrite (Permutation_length (Hexamined _)); lia|].
      rewrite Hr in E. cbn in E. subst r. unfold ready, distributed_storage_laws. split.
      * intros HD. exists st. split; [done|]. intros ->. specialize (Hi eq_refl). lia.
      * intros HD Hf. rewrite Hopt; [done| |done]. rewrite HD in *. cbn in Hreach.
        pose proof (List.filter_length_le (Replicated.reachable (sure [] (cfg_Objects cfg)) w) (examined (cfg_Objects cfg))) as Hle.
        rewrite (Permutation_length (Hexamined _)) in Hle. lia.
  - intros cfg w r w' n Hw Hk Hroom. cbn in Hw. pose proof Hroom as (Hg & Hr & Hout). destruct (Horder' w) as [Hnd Hle].
    apply finish_cases in Hw as [(_ & -> & Hno)|(x & Hw & Hx)].
    { split_and!; [by apply room_less|done|done|]. intros cfg' Hcfg. by destruct (Hno cfg'). }
    unfold Distributed.RepairChunk in Hw. destruct (Distributed.ReadChunk ds (indices cfg) cfg w) as [rd w1] eqn:Erd.
    pose proof (distributed_read_frame w (indices cfg) cfg Hk w (frame_refl w Hg)) as Hf. rewrite Erd in Hf. cbn [snd] in Hf.
    assert (Hr1 : roomy (length (order' w) + n * k) w1) by (eapply roomy_le; [|apply Hf, Hr]; cbn; lia).
    assert (He1 : forall m, roomy m w -> extends m w w1) by (intros m Hm; by apply frame_extends).
    assert (Hall : extends (n * k) w w' /\ (forall cfg', r = Ok cfg' -> exists obj, rd = Ok obj /\
      distributed_at w' cfg' obj /\ Forall (new_object w w') (cfg_Objects cfg'))).
    { destruct rd as [obj|e|p].
      - destruct (distributed_write _ _ _ (n * k) _ _ _ Hnd Hw (proj1 Hf) Hr1) as [He Hat]. split; [eapply extends_trans; [apply (He1 _ Hr)|done]|].
        intros cfg' Hcfg. destruct (Hat cfg' (Hx cfg' Hcfg)) as [Ha Hnew]. exists obj. split_and!; [done|done|].
        eapply Forall_impl; [exact Hnew|]. intros o. by eapply new_object_earlier, (He1 _ Hr).
      - injection Hw as <- <-. split; [apply He1; eapply roomy_le; [|exact Hr]; cbn; lia|]. intros cfg' Hcfg. by specialize (Hx cfg' Hcfg).
      - injection Hw as <- <-. split; [apply He1; eapply roomy_le; [|exact Hr]; cbn; lia|]. intros cfg' Hcfg. by specialize (Hx cfg' Hcfg). }
    destruct Hall as [He Hat]. destruct (extends_keeps D k n w w' Hroom He) as (Hroom' & Hkeep & Ht). split_and!; [done| |done|].
    { intros cfg' d'. apply distributed_at_mono. auto. }
    intros cfg' Hcfg. destruct (Hat cfg' Hcfg) as (obj & -> & Ha & Hnew). split.
    + intros o Ho. rewrite Forall_forall in Hnew. destruct (Hnew o Ho) as (Hko & Hno). by split; [|right].
    + intros d Hd'. destruct (distributed_read _ _ _ _ _ Erd Hg Hout Hd') as (_ & Hx' & _). by rewrite <- (Hx' obj eq_refl).
  - intros cfg w r w' n Hr Hk Hroom. cbn in Hr. unfold Distributed.DeleteChunk in Hr.
    destruct (deletes D k n _ cfg w r w' Hr Hroom (DeleteChunk_trims _ _ _ _ (Hexamined _) Hk)) as (Hroom' & Htk & Hkeep).
    split_and!; [done|done|]. intros cfg' d' Hat Hap. eapply distributed_at_mono; [|exact Hat]. intros o x Ho. apply Hkeep. intros Ho'. by apply (Hap o).
Defined.
End Distributed.
