(* ===== verification/MetaProto.v ===== *)
(** * Metadata and its encoding ([client/metastor/metatypes], [client/metastor/encoding])

    The metadata of stored data and its protobuf encoding.  [Wire] models the
    generated code of [encoding/proto/metadata.pb.go] on the level of indices
    into the buffer, with 64-bit arithmetic, so that malformed input behaves as
    it does there; [MarshalMetadata] and [UnmarshalMetadata] are the functions
    of [encoding/proto/proto.go] around it. *)

From stdpp Require Import pretty.
From S2P Require Import Prelude Encoding Spread Pipeline.
Open Scope Z_scope.

(** ** [metatypes.Metadata] *)
Record Metadata := {
  Key : bytes;
  Size : Z;
  CreationEpoch : Z;
  LastWriteEpoch : Z;
  Chunks : list Chunk;
  PreviousKey : slice;
  NextKey : slice;
}.

Definition zero_metadata : Metadata :=
  {| Key := []; Size := 0; CreationEpoch := 0; LastWriteEpoch := 0; Chunks := [];
     PreviousKey := None; NextKey := None |}.

(** ** Signed conversions and strings *)
Definition i64 (z : Z) : Z := let u := u64 z in if u <? 2 ^ 63 then u else u - 2 ^ 64.
Definition i32 (z : Z) : Z := let u := u32 z in if u <? 2 ^ 31 then u else u - 2 ^ 32.

Definition is_i64 (z : Z) : Prop := - 2 ^ 63 <= z < 2 ^ 63.

Lemma i64_id z : is_i64 z -> i64 z = z.
Proof.
  unfold is_i64, i64, u64. intros Hz. destruct (Z.ltb_spec (z mod 2 ^ 64) (2 ^ 63)) as [Hm|Hm].
  - destruct (decide (0 <= z)); [apply Z.mod_small; lia|].
    rewrite <- (Z.mod_add z 1 (2 ^ 64)) in Hm by lia. rewrite Z.mod_small in Hm; lia.
  - destruct (decide (0 <= z)); [rewrite Z.mod_small in Hm; lia|].
    rewrite <- (Z.mod_add z 1 (2 ^ 64)) by lia. rewrite Z.mod_small; lia.
Qed.

Lemma i64_u64 z : i64 (u64 z) = i64 z.
Proof. unfold i64, u64. by rewrite Z.mod_mod. Qed.

Fixpoint bytes_str (l : bytes) : string :=
  match l with [] => EmptyString | b :: l' => String (Ascii.ascii_of_byte b) (bytes_str l') end.

Lemma bytes_str_bytes s : bytes_str (str_bytes s) = s.
Proof. induction s as [|a s IH]; [done|]. cbn. by rewrite IH, Ascii.ascii_of_byte_of_ascii. Qed.

(** ** The generated code *)
Module Wire.

Definition ErrUnexpectedEOF := ErrVar "io" "ErrUnexpectedEOF" "unexpected EOF".
Definition ErrInvalidLengthMetadata :=
  ErrVar "proto" "ErrInvalidLengthMetadata" "proto: negative length found during unmarshaling".
Definition ErrIntOverflowMetadata := ErrVar "proto" "ErrIntOverflowMetadata" "proto: integer overflow".

(** What a model run with too little fuel ends with; the code has no such
    panic, and [Unmarshal_total] shows that the fuel given is enough. *)
Definition out_of_fuel : string := "out of fuel".

Definition zlen (l : bytes) : Z := Z.of_nat (length l).

(** [dAtA[i]] *)
Definition byte_at (dAtA : bytes) (i : Z) : outcome byte :=
  if i <? 0 then Panic "index out of range"
  else match dAtA !! Z.to_nat i with Some b => Ok b | None => Panic "index out of range" end.

(** [dAtA[i:j]] *)
Definition slice_of (dAtA : bytes) (i j : Z) : outcome bytes :=
  if (i <? 0) || (j <? i) || (zlen dAtA <? j) then Panic "slice bounds out of range"
  else Ok (take (Z.to_nat (j - i)) (drop (Z.to_nat i) dAtA)).

(** The loop that reads a varint; [n] is the number of bytes it may still read
    ([shift] starts at 0 and has to stay below 64). *)
Fixpoint varint (n : nat) (shift acc : Z) (dAtA : bytes) (i : Z) : outcome (Z * Z) :=
  match n with
  | O => Err ErrIntOverflowMetadata
  | S n' =>
      if zlen dAtA <=? i then Err ErrUnexpectedEOF
      else
        let! b := byte_at dAtA i in
        let acc := Z.lor acc (u64 (Z.shiftl (Z.land (bz b) 127) shift)) in
        if bz b <? 128 then Ok (acc, i + 1) else varint n' (shift + 7) acc dAtA (i + 1)
  end.

Definition read_varint (dAtA : bytes) (i : Z) : outcome (Z * Z) := varint 10 0 0 dAtA i.

(** A length-delimited field: its content and the index after it. *)
Definition read_bytes (dAtA : bytes) (i : Z) : outcome (bytes * Z) :=
  let! (len, i) := read_varint dAtA i in
  let byteLen := i64 len in
  if byteLen <? 0 then Err ErrInvalidLengthMetadata
  else
    let postIndex := i64 (i + byteLen) in
    if zlen dAtA <? postIndex then Err ErrUnexpectedEOF
    else let! field := slice_of dAtA i postIndex in Ok (field, postIndex).

(** [skipMetadata]; with [group] the loop over the fields of a group. *)
Fixpoint skip_at (fuel : nat) (group : bool) (dAtA : bytes) (i : Z) : outcome Z :=
  match fuel with
  | O => Panic out_of_fuel
  | S fuel' =>
      if group then
        let! (innerWire, i1) := read_varint dAtA i in
        if Z.land innerWire 7 =? 4 then Ok i1
        else
          let! next := skip_at fuel' false (drop (Z.to_nat i) dAtA) 0 in
          skip_at fuel' true dAtA (i64 (i + next))
      else if zlen dAtA <=? i then Panic "unreachable"
      else
        let! (wire, i) := read_varint dAtA i in
        let wireType := Z.land wire 7 in
        if wireType =? 0 then let! (_, i) := read_varint dAtA i in Ok i
        else if wireType =? 1 then Ok (i + 8)
        else if wireType =? 2 then
          let! (len, i) := read_varint dAtA i in
          if i64 len <? 0 then Err ErrInvalidLengthMetadata else Ok (i64 (i + i64 len))
        else if wireType =? 3 then skip_at fuel' true dAtA i
        else if wireType =? 4 then Ok i
        else if wireType =? 5 then Ok (i + 4)
        else Err (ErrNew ("proto: illegal wireType " +:+ pretty wireType))
  end.

Definition skipMetadata (dAtA : bytes) : outcome Z := skip_at (2 * length dAtA + 2) false dAtA 0.

(** The loop of the three [Unmarshal] methods; [field] handles the known fields
    of the message and is [None] on an unknown one. *)
Section Unmarshal.
Context {M : Type} (name : string) (field : M -> Z -> Z -> bytes -> Z -> option (outcome (M * Z))).

Fixpoint unmarshal (fuel : nat) (dAtA : bytes) (i : Z) (m : M) : outcome M :=
  match fuel with
  | O => Panic out_of_fuel
  | S fuel' =>
      if i <? zlen dAtA then
        let! (wire, i1) := read_varint dAtA i in
        let fieldNum := i32 (Z.shiftr wire 3) in
        let wireType := Z.land wire 7 in
        if wireType =? 4 then Err (ErrNew ("proto: " +:+ name +:+ ": wiretype end group for non-group"))
        else if fieldNum <=? 0
        then Err (ErrNew ("proto: " +:+ name +:+ ": illegal tag " +:+ pretty fieldNum +:+ " (wire type " +:+ pretty wire +:+ ")"))
        else match field m fieldNum wireType dAtA i1 with
             | Some r => let! (m', i') := r in unmarshal fuel' dAtA i' m'
             | None =>
                 let! rest := slice_of dAtA i (zlen dAtA) in
                 let! skippy := skipMetadata rest in
                 if skippy <? 0 then Err ErrInvalidLengthMetadata
                 else if zlen dAtA <? i64 (i + skippy) then Err ErrUnexpectedEOF
                 else unmarshal fuel' dAtA (i64 (i + skippy)) m
             end
      else if zlen dAtA <? i then Err ErrUnexpectedEOF
      else Ok m
  end.
End Unmarshal.

Definition wrong_type {A} (wireType : Z) (name : string) : outcome A :=
  Err (ErrNew ("proto: wrong wireType = " +:+ pretty wireType +:+ " for field " +:+ name)).

(** A field of a given wire type. *)
Definition int_field {M} (name : string) (wireType : Z) (dAtA : bytes) (i : Z) (set : Z -> M) : outcome (M * Z) :=
  if negb (wireType =? 0) then wrong_type wireType name
  else let! (v, i) := read_varint dAtA i in Ok (set (i64 v), i).

Definition bytes_field {M} (name : string) (wireType : Z) (dAtA : bytes) (i : Z) (set : bytes -> outcome M)
  : outcome (M * Z) :=
  if negb (wireType =? 2) then wrong_type wireType name
  else
    let! (v, i) := read_bytes dAtA i in
    let! m := set v in
    Ok (m, i).

(** *** Messages *)
Record pbObject := { o_Key : bytes; o_ShardID : string }.
Record pbChunk := { k_SizeInBytes : Z; k_Objects : list pbObject; k_Hash : bytes }.
Record pbMetadata := {
  p_Key : slice; p_SizeInBytes : Z; p_CreationEpoch : Z; p_LastWriteEpoch : Z; p_Chunks : list pbChunk;
  p_PreviousKey : slice; p_NextKey : slice;
}.

Definition object_field (m : pbObject) (fieldNum wireType : Z) (dAtA : bytes) (i : Z) : option (outcome (pbObject * Z)) :=
  if fieldNum =? 1 then Some (bytes_field "Key" wireType dAtA i
    (fun v => Ok {| o_Key := v; o_ShardID := o_ShardID m |}))
  else if fieldNum =? 2 then Some (bytes_field "ShardID" wireType dAtA i
    (fun v => Ok {| o_Key := o_Key m; o_ShardID := bytes_str v |}))
  else None.

Definition Object_Unmarshal (dAtA : bytes) (m : pbObject) : outcome pbObject :=
  unmarshal "Object" object_field (S (length dAtA)) dAtA 0 m.

Definition chunk_field (m : pbChunk) (fieldNum wireType : Z) (dAtA : bytes) (i : Z) : option (outcome (pbChunk * Z)) :=
  if fieldNum =? 1 then Some (int_field "SizeInBytes" wireType dAtA i
    (fun v => {| k_SizeInBytes := v; k_Objects := k_Objects m; k_Hash := k_Hash m |}))
  else if fieldNum =? 2 then Some (bytes_field "Objects" wireType dAtA i
    (fun v => let! o := Object_Unmarshal v {| o_Key := []; o_ShardID := EmptyString |} in
              Ok {| k_SizeInBytes := k_SizeInBytes m; k_Objects := k_Objects m ++ [o]; k_Hash := k_Hash m |}))
  else if fieldNum =? 3 then Some (bytes_field "Hash" wireType dAtA i
    (fun v => Ok {| k_SizeInBytes := k_SizeInBytes m; k_Objects := k_Objects m; k_Hash := v |}))
  else None.

Definition Chunk_Unmarshal (dAtA : bytes) (m : pbChunk) : outcome pbChunk :=
  unmarshal "Chunk" chunk_field (S (length dAtA)) dAtA 0 m.

Definition zero_chunk : pbChunk := {| k_SizeInBytes := 0; k_Objects := []; k_Hash := [] |}.

Definition metadata_field (m : pbMetadata) (fieldNum wireType : Z) (dAtA : bytes) (i : Z)
  : option (outcome (pbMetadata * Z)) :=
  let '{| p_Key := k; p_SizeInBytes := s; p_CreationEpoch := ce; p_LastWriteEpoch := le; p_Chunks := cs;
          p_PreviousKey := pk; p_NextKey := nk |} := m in
  if fieldNum =? 1 then Some (bytes_field "Key" wireType dAtA i (fun v =>
    Ok {| p_Key := Some v; p_SizeInBytes := s; p_CreationEpoch := ce; p_LastWriteEpoch := le; p_Chunks := cs;
          p_PreviousKey := pk; p_NextKey := nk |}))
  else if fieldNum =? 2 then Some (int_field "SizeInBytes" wireType dAtA i (fun v =>
    {| p_Key := k; p_SizeInBytes := v; p_CreationEpoch := ce; p_LastWriteEpoch := le; p_Chunks := cs;
       p_PreviousKey := pk; p_NextKey := nk |}))
  else if fieldNum =? 3 then Some (int_field "CreationEpoch" wireType dAtA i (fun v =>
    {| p_Key := k; p_SizeInBytes := s; p_CreationEpoch := v; p_LastWriteEpoch := le; p_Chunks := cs;
       p_PreviousKey := pk; p_NextKey := nk |}))
  else if fieldNum =? 4 then Some (int_field "LastWriteEpoch" wireType dAtA i (fun v =>
    {| p_Key := k; p_SizeInBytes := s; p_CreationEpoch := ce; p_LastWriteEpoch := v; p_Chunks := cs;
       p_PreviousKey := pk; p_NextKey := nk |}))
  else if fieldNum =? 5 then Some (bytes_field "Chunks" wireType dAtA i (fun v =>
    let! c := Chunk_Unmarshal v zero_chunk in
    Ok {| p_Key := k; p_SizeInBytes := s; p_CreationEpoch := ce; p_LastWriteEpoch := le; p_Chunks := cs ++ [c];
          p_PreviousKey := pk; p_NextKey := nk |}))
  else if fieldNum =? 6 then Some (bytes_field "PreviousKey" wireType dAtA i (fun v =>
    Ok {| p_Key := k; p_SizeInBytes := s; p_CreationEpoch := ce; p_LastWriteEpoch := le; p_Chunks := cs;
          p_PreviousKey := Some v; p_NextKey := nk |}))
  else if fieldNum =? 7 then Some (bytes_field "NextKey" wireType dAtA i (fun v =>
    Ok {| p_Key := k; p_SizeInBytes := s; p_CreationEpoch := ce; p_LastWriteEpoch := le; p_Chunks := cs;
          p_PreviousKey := pk; p_NextKey := Some v |}))
  else None.

Definition zero_pb : pbMetadata :=
  {| p_Key := None; p_SizeInBytes := 0; p_CreationEpoch := 0; p_LastWriteEpoch := 0; p_Chunks := [];
     p_PreviousKey := None; p_NextKey := None |}.

Definition Metadata_Unmarshal (dAtA : bytes) (m : pbMetadata) : outcome pbMetadata :=
  unmarshal "Metadata" metadata_field (S (length dAtA)) dAtA 0 m.

(** *** Marshalling *)

(** [encodeVarintMetadata] on an [uint64], which has at most ten groups of
    seven bits. *)
Fixpoint put_varint (n : nat) (v : Z) : bytes :=
  match n with
  | O => [zb v]
  | S n' => if 128 <=? v then zb (Z.lor (Z.land v 127) 128) :: put_varint n' (Z.shiftr v 7) else [zb v]
  end.

Definition encodeVarintMetadata (v : Z) : bytes := put_varint 9 (u64 v).

(** [sovMetadata]; the last round cannot be reached by an [uint64]. *)
Fixpoint sov (n : nat) (x : Z) : Z :=
  match n with
  | O => 1
  | S n' => if Z.shiftr x 7 =? 0 then 1 else 1 + sov n' (Z.shiftr x 7)
  end.

Definition sovMetadata (x : Z) : Z := sov 9 (u64 x).

Definition put_bytes (tag : byte) (v : bytes) : bytes :=
  if (0 <? length v)%nat then tag :: encodeVarintMetadata (zlen v) ++ v else [].

Definition put_int (tag : byte) (v : Z) : bytes :=
  if negb (v =? 0) then tag :: encodeVarintMetadata v else [].

Definition size_bytes (v : bytes) : Z := if (0 <? length v)%nat then 1 + zlen v + sovMetadata (zlen v) else 0.
Definition size_int (v : Z) : Z := if negb (v =? 0) then 1 + sovMetadata v else 0.

Definition Object_Size (m : pbObject) : Z := size_bytes (o_Key m) + size_bytes (str_bytes (o_ShardID m)).

Definition Object_MarshalTo (m : pbObject) : bytes :=
  put_bytes Byte.x0a (o_Key m) ++ put_bytes Byte.x12 (str_bytes (o_ShardID m)).

Definition size_message (l : Z) : Z := 1 + l + sovMetadata l.

Definition Chunk_Size (m : pbChunk) : Z :=
  size_int (k_SizeInBytes m) + foldr (fun o n => size_message (Object_Size o) + n) 0 (k_Objects m) +
  size_bytes (k_Hash m).

Definition Chunk_MarshalTo (m : pbChunk) : bytes :=
  put_int Byte.x08 (k_SizeInBytes m) ++
  List.flat_map (fun o => Byte.x12 :: encodeVarintMetadata (Object_Size o) ++ Object_MarshalTo o) (k_Objects m) ++
  put_bytes Byte.x1a (k_Hash m).

Definition Metadata_Size (m : pbMetadata) : Z :=
  size_bytes (slice_bytes (p_Key m)) + size_int (p_SizeInBytes m) + size_int (p_CreationEpoch m) +
  size_int (p_LastWriteEpoch m) + foldr (fun c n => size_message (Chunk_Size c) + n) 0 (p_Chunks m) +
  size_bytes (slice_bytes (p_PreviousKey m)) + size_bytes (slice_bytes (p_NextKey m)).

Definition Metadata_MarshalTo (m : pbMetadata) : bytes :=
  put_bytes Byte.x0a (slice_bytes (p_Key m)) ++ put_int Byte.x10 (p_SizeInBytes m) ++
  put_int Byte.x18 (p_CreationEpoch m) ++ put_int Byte.x20 (p_LastWriteEpoch m) ++
  List.flat_map (fun c => Byte.x2a :: encodeVarintMetadata (Chunk_Size c) ++ Chunk_MarshalTo c) (p_Chunks m) ++
  put_bytes Byte.x32 (slice_bytes (p_PreviousKey m)) ++ put_bytes Byte.x3a (slice_bytes (p_NextKey m)).

(** [Marshal] writes into a buffer of [Size] bytes. *)
Definition Metadata_Marshal (m : pbMetadata) : outcome bytes :=
  let dAtA := Metadata_MarshalTo m in
  if Metadata_Size m <? zlen dAtA then Panic "index out of range" else Ok dAtA.
End Wire.

(** ** [encoding/proto/proto.go] *)
Import Wire.

Definition to_pbObject (o : MetaObject) : pbObject := {| o_Key := mo_Key o; o_ShardID := mo_ShardID o |}.
Definition to_pbChunk (c : Chunk) : pbChunk :=
  {| k_SizeInBytes := ch_Size c; k_Objects := to_pbObject <$> ch_Objects c; k_Hash := ch_Hash c |}.

Definition to_pb (md : Metadata) : pbMetadata :=
  {| p_Key := Some (Key md); p_SizeInBytes := Size md; p_CreationEpoch := CreationEpoch md;
     p_LastWriteEpoch := LastWriteEpoch md; p_Chunks := to_pbChunk <$> Chunks md;
     p_PreviousKey := PreviousKey md; p_NextKey := NextKey md |}.

Definition MarshalMetadata (md : Metadata) : outcome bytes := Metadata_Marshal (to_pb md).

Definition of_pbObject (o : pbObject) : MetaObject := {| mo_Key := o_Key o; mo_ShardID := o_ShardID o |}.
Definition of_pbChunk (c : pbChunk) : Chunk :=
  {| ch_Size := k_SizeInBytes c; ch_Objects := of_pbObject <$> k_Objects c; ch_Hash := k_Hash c |}.

(** The value that the pointer [md] points to is overwritten; its chunks stay
    when the decoded message has none. *)
Definition UnmarshalMetadata (b : slice) (md : option Metadata) : outcome Metadata :=
  match b, md with
  | None, _ => Panic "no bytes given to unmarshal to metadata"
  | Some _, None => Panic "no metadata given to unmarshal to"
  | Some b, Some md =>
      let! s := Metadata_Unmarshal b zero_pb in
      Ok {| Key := slice_bytes (p_Key s); Size := p_SizeInBytes s; CreationEpoch := p_CreationEpoch s;
            LastWriteEpoch := p_LastWriteEpoch s;
            Chunks := if (0 <? length (p_Chunks s))%nat then of_pbChunk <$> p_Chunks s else Chunks md;
            PreviousKey := p_PreviousKey s; NextKey := p_NextKey s |}
  end.
