(* ===== verification/MetaProtoProps.v ===== *)
(** * Properties of the metadata encoding

    Round trip of the generated protobuf code and of the functions around it,
    the sizes that [Size] predicts, and termination of the decoder on every
    input. *)

From S2P Require Import Prelude Encoding Spread Pipeline MetaProto.
Import Wire.
Open Scope Z_scope.

(** ** Varints *)
Lemma byte_at_mid pre b post : byte_at (pre ++ b :: post) (zlen pre) = Ok b.
Proof.
  unfold byte_at, zlen. destruct (Z.ltb_spec (Z.of_nat (length pre)) 0); [lia|].
  by rewrite Nat2Z.id, lookup_app_r, Nat.sub_diag by lia.
Qed.

Lemma zlen_app l k : zlen (l ++ k) = zlen l + zlen k.
Proof. unfold zlen. rewrite length_app. lia. Qed.

Lemma zlen_cons b l : zlen (b :: l) = 1 + zlen l.
Proof. unfold zlen. cbn [length]. lia. Qed.

Lemma zlen_nonneg l : 0 <= zlen l.
Proof. unfold zlen. lia. Qed.

Lemma land_127 v : Z.land v 127 = v mod 128.
Proof. change 127 with (Z.ones 7). by rewrite Z.land_ones. Qed.

(** One byte of the loop: the last one, and one with a continuation bit. *)
Lemma varint_last n s acc v pre post :
  0 <= s -> 0 <= acc < 2 ^ s -> 0 <= v < 128 -> v * 2 ^ s < 2 ^ 64 ->
  varint (S n) s acc (pre ++ zb v :: post) (zlen pre) = Ok (acc + v * 2 ^ s, zlen pre + 1).
Proof.
  intros Hs Hacc Hv H64. cbn [varint].
  destruct (Z.leb_spec (zlen (pre ++ zb v :: post)) (zlen pre)) as [Hl|_].
  { rewrite zlen_app, zlen_cons in Hl. pose proof (zlen_nonneg post). lia. }
  rewrite byte_at_mid. cbn [obind]. rewrite bz_zb, (Z.mod_small v 256) by lia.
  destruct (Z.ltb_spec v 128); [|lia]. rewrite land_127, (Z.mod_small v) by lia.
  unfold u64. rewrite (Z.mod_small (Z.shiftl v s)) by (rewrite Z.shiftl_mul_pow2; lia).
  by rewrite lor_shiftl_add by lia.
Qed.

Lemma varint_more n s acc v pre post :
  0 <= s -> 0 <= acc < 2 ^ s -> 0 <= v -> 128 * 2 ^ s <= 2 ^ 64 ->
  varint (S n) s acc (pre ++ zb (Z.lor (Z.land v 127) 128) :: post) (zlen pre) =
  varint n (s + 7) (acc + v mod 128 * 2 ^ s) (pre ++ zb (Z.lor (Z.land v 127) 128) :: post) (zlen pre + 1).
Proof.
  intros Hs Hacc Hv H64. cbn [varint]. set (b := zb _).
  destruct (Z.leb_spec (zlen (pre ++ b :: post)) (zlen pre)) as [Hl|_].
  { rewrite zlen_app, zlen_cons in Hl. pose proof (zlen_nonneg post). lia. }
  rewrite byte_at_mid. cbn [obind].
  pose proof (Z.mod_pos_bound v 128 ltac:(lia)) as Hm.
  assert (Hb : bz b = v mod 128 + 1 * 128).
  { unfold b. rewrite bz_zb, land_127. change 128 with (Z.shiftl 1 7) at 2. rewrite lor_shiftl_add by lia.
    change (2 ^ 7) with 128. rewrite Z.mod_small; lia. }
  rewrite Hb. destruct (Z.ltb_spec (v mod 128 + 1 * 128) 128); [lia|].
  rewrite land_127, Z.mod_add, Z.mod_mod by lia.
  unfold u64. rewrite (Z.mod_small (Z.shiftl _ s)) by (rewrite Z.shiftl_mul_pow2 by lia; nia).
  by rewrite lor_shiftl_add by lia.
Qed.

Lemma varint_put k v acc pre post :
  (k <= 9)%nat -> 0 <= v < 2 ^ (7 * Z.of_nat k + 1) -> 0 <= acc < 2 ^ (63 - 7 * Z.of_nat k) ->
  varint (S k) (63 - 7 * Z.of_nat k) acc (pre ++ put_varint k v ++ post) (zlen pre) =
    Ok (acc + v * 2 ^ (63 - 7 * Z.of_nat k), zlen pre + zlen (put_varint k v)).
Proof.
  revert v acc pre; induction k as [|k IH]; intros v acc pre Hk Hv Hacc.
  - change (7 * Z.of_nat 0 + 1) with 1 in Hv. change (63 - 7 * Z.of_nat 0) with 63 in *. cbn [put_varint app].
    rewrite varint_last by lia. done.
  - set (s := 63 - 7 * Z.of_nat (S k)) in *. assert (Hs : 0 <= s) by lia.
    assert (Hs7 : 2 ^ (63 - 7 * Z.of_nat k) = 2 ^ s * 128).
    { replace (63 - 7 * Z.of_nat k) with (s + 7) by lia. rewrite Z.pow_add_r by lia. done. }
    assert (H63 : 2 ^ s * 128 <= 2 ^ 63) by (rewrite <- Hs7; apply Z.pow_le_mono_r; lia).
    cbn [put_varint]. destruct (Z.leb_spec 128 v) as [Hbig|Hsmall]; [|cbn [app]; rewrite varint_last; [done|lia..|nia]].
    cbn [app]. rewrite varint_more by lia. set (b := zb _). pose proof (Z.mod_pos_bound v 128 ltac:(lia)) as Hm.
    replace (zlen pre + 1) with (zlen (pre ++ [b])) by (rewrite zlen_app, zlen_cons; done).
    replace (pre ++ b :: put_varint k (Z.shiftr v 7) ++ post)
      with ((pre ++ [b]) ++ put_varint k (Z.shiftr v 7) ++ post) by (by rewrite <- app_assoc).
    replace (s + 7) with (63 - 7 * Z.of_nat k) by lia. rewrite IH; [|lia| |rewrite Hs7; nia].
    + rewrite Hs7, Z.shiftr_div_pow2, zlen_app, !zlen_cons by lia. change (2 ^ 7) with 128. change (zlen []) with 0.
      pose proof (Z.div_mod v 128 ltac:(lia)). f_equal. f_equal; [nia|lia].
    + rewrite Z.shiftr_div_pow2 by lia. split; [apply Z.div_pos; lia|]. apply Z.div_lt_upper_bound; [lia|].
      replace (7 * Z.of_nat (S k) + 1) with (7 + (7 * Z.of_nat k + 1)) in Hv by lia.
      rewrite Z.pow_add_r in Hv by lia. lia.
Qed.

Lemma read_varint_put v pre post :
  read_varint (pre ++ encodeVarintMetadata v ++ post) (zlen pre) =
    Ok (u64 v, zlen pre + zlen (encodeVarintMetadata v)).
Proof.
  unfold read_varint, encodeVarintMetadata, u64. pose proof (Z.mod_pos_bound v (2 ^ 64) ltac:(lia)) as Hm.
  change 0 with (63 - 7 * Z.of_nat 9) at 1. rewrite varint_put; [|lia|exact Hm|cbn; lia].
  f_equal. f_equal. cbn. lia.
Qed.

Lemma read_tag tag pre post :
  bz tag < 128 -> read_varint (pre ++ tag :: post) (zlen pre) = Ok (bz tag, zlen pre + 1).
Proof.
  intros Ht. pose proof (bz_range tag). rewrite <- (zb_bz tag) at 1. unfold read_varint.
  rewrite varint_last by lia. f_equal. f_equal. lia.
Qed.

Lemma read_bytes_put v pre post :
  zlen (pre ++ encodeVarintMetadata (zlen v) ++ v ++ post) < 2 ^ 63 ->
  read_bytes (pre ++ encodeVarintMetadata (zlen v) ++ v ++ post) (zlen pre) =
    Ok (v, zlen pre + zlen (encodeVarintMetadata (zlen v)) + zlen v).
Proof.
  intros Hlen. unfold read_bytes. rewrite read_varint_put. cbn [obind]. rewrite i64_u64.
  set (e := encodeVarintMetadata (zlen v)) in *.
  assert (Hn : zlen (pre ++ e ++ v ++ post) = zlen pre + zlen e + zlen v + zlen post) by (rewrite !zlen_app; lia).
  pose proof (zlen_nonneg pre). pose proof (zlen_nonneg e). pose proof (zlen_nonneg v). pose proof (zlen_nonneg post).
  rewrite i64_id by (unfold is_i64; lia). destruct (Z.ltb_spec (zlen v) 0); [lia|].
  rewrite i64_id by (unfold is_i64; lia). rewrite Hn.
  destruct (Z.ltb_spec (zlen pre + zlen e + zlen v + zlen post) (zlen pre + zlen e + zlen v)); [lia|].
  unfold slice_of. rewrite Hn. rewrite !(proj2 (Z.ltb_ge _ _)) by lia. cbn [orb obind]. f_equal. f_equal.
  rewrite app_assoc, drop_app_exact by (rewrite length_app; unfold zlen; lia).
  apply take_app_exact. unfold zlen. lia.
Qed.

(** ** Messages *)

(** [enc] is read as the fields that turn [m] into [m'], wherever it is. *)
Section Parses.
Context {M : Type} (name : string) (field : M -> Z -> Z -> bytes -> Z -> option (outcome (M * Z))).

Definition parses (enc : bytes) (m m' : M) : Prop :=
  forall pre post fuel, zlen (pre ++ enc ++ post) < 2 ^ 63 -> (length enc <= fuel)%nat ->
  exists fuel', (fuel - length enc <= fuel')%nat /\
    unmarshal name field fuel (pre ++ enc ++ post) (zlen pre) m =
    unmarshal name field fuel' (pre ++ enc ++ post) (zlen (pre ++ enc)) m'.

Lemma parses_nil m : parses [] m m.
Proof using. intros pre post fuel _ _. exists fuel. rewrite app_nil_r. split; [cbn; lia|done]. Qed.

Lemma parses_app e1 e2 m m1 m2 : parses e1 m m1 -> parses e2 m1 m2 -> parses (e1 ++ e2) m m2.
Proof using.
  intros H1 H2 pre post fuel Hlen Hf. rewrite length_app in Hf. rewrite <- app_assoc in Hlen |- *.
  destruct (H1 pre (e2 ++ post) fuel Hlen ltac:(lia)) as (f1 & Hf1 & ->).
  rewrite !(app_assoc pre) in *. destruct (H2 (pre ++ e1) post f1 Hlen ltac:(lia)) as (f2 & Hf2 & ->).
  exists f2. split; [rewrite length_app; lia|]. by rewrite <- !app_assoc.
Qed.

Lemma parses_all enc m m' :
  parses enc m m' -> zlen enc < 2 ^ 63 -> unmarshal name field (S (length enc)) enc 0 m = Ok m'.
Proof using.
  intros Hp Hlen. destruct (Hp [] [] (S (length enc))) as (f & Hf & Hu); [by rewrite app_nil_r|lia|].
  cbn [app] in Hu. rewrite app_nil_r in Hu. change (zlen []) with 0 in Hu. rewrite Hu.
  destruct f as [|f]; [lia|]. cbn [unmarshal]. by rewrite Z.ltb_irrefl.
Qed.

Lemma parses_field tag payload m m' :
  bz tag < 128 -> Z.land (bz tag) 7 <> 4 -> 0 < i32 (Z.shiftr (bz tag) 3) ->
  (forall pre post, zlen (pre ++ payload ++ post) < 2 ^ 63 ->
     field m (i32 (Z.shiftr (bz tag) 3)) (Z.land (bz tag) 7) (pre ++ payload ++ post) (zlen pre) =
       Some (Ok (m', zlen (pre ++ payload)))) ->
  parses (tag :: payload) m m'.
Proof using.
  intros Ht Hw Hn Hfield pre post fuel Hlen Hf. cbn [length] in Hf. destruct fuel as [|fuel]; [lia|].
  exists fuel. split; [cbn; lia|]. cbn [app unmarshal]. cbn [app] in Hlen.
  destruct (Z.ltb_spec (zlen pre) (zlen (pre ++ tag :: payload ++ post))) as [_|Hl].
  2: { rewrite zlen_app, zlen_cons in Hl. pose proof (zlen_nonneg (payload ++ post)). lia. }
  rewrite read_tag by done. cbn [obind]. rewrite (proj2 (Z.eqb_neq _ _) Hw), (proj2 (Z.leb_gt _ _) Hn).
  replace (pre ++ tag :: payload ++ post) with ((pre ++ [tag]) ++ payload ++ post) in * by (by rewrite <- app_assoc).
  replace (zlen pre + 1) with (zlen (pre ++ [tag])) by (rewrite zlen_app, zlen_cons; done).
  rewrite (Hfield _ _ Hlen). cbn [obind]. by rewrite <- !app_assoc.
Qed.
End Parses.

Lemma int_field_put {M} name v pre post (set : Z -> M) :
  is_i64 v -> int_field name 0 (pre ++ encodeVarintMetadata v ++ post) (zlen pre) set =
    Ok (set v, zlen (pre ++ encodeVarintMetadata v)).
Proof.
  intros Hv. unfold int_field. cbn [Z.eqb negb]. rewrite read_varint_put. cbn [obind].
  by rewrite i64_u64, i64_id, zlen_app.
Qed.

Lemma bytes_field_put {M} name v pre post (set : bytes -> outcome M) m' :
  zlen (pre ++ (encodeVarintMetadata (zlen v) ++ v) ++ post) < 2 ^ 63 -> set v = Ok m' ->
  bytes_field name 2 (pre ++ (encodeVarintMetadata (zlen v) ++ v) ++ post) (zlen pre) set =
    Ok (m', zlen (pre ++ encodeVarintMetadata (zlen v) ++ v)).
Proof.
  intros Hlen Hs. unfold bytes_field. cbn [Z.eqb negb Pos.eqb]. rewrite <- app_assoc in *.
  rewrite read_bytes_put by done. cbn [obind]. rewrite Hs. cbn [obind]. by rewrite !zlen_app, Z.add_assoc.
Qed.

(** *** Sizes *)
Lemma length_put_varint k v : 0 <= v < 2 ^ (7 * Z.of_nat k + 1) -> zlen (put_varint k v) = sov k v.
Proof.
  revert v; induction k as [|k IH]; intros v Hv; [done|]. cbn [put_varint sov].
  rewrite Z.shiftr_div_pow2 by lia. change (2 ^ 7) with 128.
  destruct (Z.leb_spec 128 v); destruct (Z.eqb_spec (v / 128) 0) as [E|E].
  - pose proof (Z.div_le_lower_bound v 128 1 ltac:(lia)). lia.
  - rewrite zlen_cons, IH; [done|]. split; [apply Z.div_pos; lia|]. apply Z.div_lt_upper_bound; [lia|].
    replace (7 * Z.of_nat (S k) + 1) with (7 + (7 * Z.of_nat k + 1)) in Hv by lia. rewrite Z.pow_add_r in Hv by lia. lia.
  - done.
  - rewrite Z.div_small in E by lia. done.
Qed.

Lemma zlen_varint v : zlen (encodeVarintMetadata v) = sovMetadata v.
Proof. apply length_put_varint. apply Z.mod_pos_bound. lia. Qed.

Lemma zlen_put_bytes tag v : zlen (put_bytes tag v) = size_bytes v.
Proof. unfold put_bytes, size_bytes. destruct (0 <? length v)%nat; [|done]. rewrite zlen_cons, zlen_app, zlen_varint. lia. Qed.

Lemma zlen_put_int tag v : zlen (put_int tag v) = size_int v.
Proof. unfold put_int, size_int. destruct (negb _); [|done]. by rewrite zlen_cons, zlen_varint. Qed.

Lemma zlen_flat_map {A} (f : A -> bytes) (size : A -> Z) l :
  (forall x, zlen (f x) = size x) -> zlen (List.flat_map f l) = foldr (fun x n => size x + n) 0 l.
Proof. intros Hf. induction l as [|x l IH]; [done|]. cbn. by rewrite zlen_app, Hf, IH. Qed.

Lemma Object_Size_spec o : zlen (Object_MarshalTo o) = Object_Size o.
Proof. unfold Object_MarshalTo, Object_Size. by rewrite zlen_app, !zlen_put_bytes. Qed.

Lemma Chunk_Size_spec c : zlen (Chunk_MarshalTo c) = Chunk_Size c.
Proof.
  unfold Chunk_MarshalTo, Chunk_Size. rewrite !zlen_app, zlen_put_int, zlen_put_bytes.
  rewrite (zlen_flat_map _ (fun o => size_message (Object_Size o))); [lia|]. intros o.
  rewrite zlen_cons, zlen_app, zlen_varint, Object_Size_spec. unfold size_message. lia.
Qed.

Lemma Metadata_Size_spec m : zlen (Metadata_MarshalTo m) = Metadata_Size m.
Proof.
  unfold Metadata_MarshalTo, Metadata_Size. rewrite !zlen_app, !zlen_put_int, !zlen_put_bytes.
  rewrite (zlen_flat_map _ (fun c => size_message (Chunk_Size c))); [lia|]. intros c.
  rewrite zlen_cons, zlen_app, zlen_varint, Chunk_Size_spec. unfold size_message. lia.
Qed.

Lemma Marshal_spec m : Metadata_Marshal m = Ok (Metadata_MarshalTo m).
Proof. unfold Metadata_Marshal. by rewrite Metadata_Size_spec, Z.ltb_irrefl. Qed.

(** *** Fields *)
Section Fields.
Context {M : Type} (name : string) (field : M -> Z -> Z -> bytes -> Z -> option (outcome (M * Z))).

Lemma parses_message tag fname v m m' set :
  bz tag < 128 -> Z.land (bz tag) 7 = 2 -> 0 < i32 (Z.shiftr (bz tag) 3) ->
  (forall d i, field m (i32 (Z.shiftr (bz tag) 3)) 2 d i = Some (bytes_field fname 2 d i set)) ->
  set v = Ok m' -> parses name field (tag :: encodeVarintMetadata (zlen v) ++ v) m m'.
Proof using.
  intros Ht Hw Hn Hfield Hs. apply parses_field; [done|by rewrite Hw|done|].
  intros pre post Hlen. rewrite Hw, Hfield. f_equal. by apply bytes_field_put.
Qed.

Lemma parses_put_bytes tag fname v m m' set :
  bz tag < 128 -> Z.land (bz tag) 7 = 2 -> 0 < i32 (Z.shiftr (bz tag) 3) ->
  (forall d i, field m (i32 (Z.shiftr (bz tag) 3)) 2 d i = Some (bytes_field fname 2 d i set)) ->
  (v <> [] -> set v = Ok m') -> (v = [] -> m' = m) -> parses name field (put_bytes tag v) m m'.
Proof using.
  intros Ht Hw Hn Hfield Hs Hz. unfold put_bytes. destruct v as [|b v]; cbn [length Nat.ltb Nat.leb].
  - rewrite Hz by done. apply parses_nil.
  - eapply parses_message; eauto.
Qed.

Lemma parses_put_int tag fname v m set :
  bz tag < 128 -> Z.land (bz tag) 7 = 0 -> 0 < i32 (Z.shiftr (bz tag) 3) ->
  (forall d i, field m (i32 (Z.shiftr (bz tag) 3)) 0 d i = Some (int_field fname 0 d i set)) ->
  is_i64 v -> set 0 = m -> parses name field (put_int tag v) m (set v).
Proof using.
  intros Ht Hw Hn Hfield Hv Hz. unfold put_int. destruct (Z.eqb_spec v 0) as [->|Hne]; cbn [negb].
  - rewrite Hz. apply parses_nil.
  - apply parses_field; [done|by rewrite Hw|done|]. intros pre post Hlen. rewrite Hw, Hfield. f_equal.
    by apply int_field_put.
Qed.

(** A repeated field, one element at a time. *)
Lemma parses_flat_map {A} (f : A -> bytes) (add : M -> A -> M) l m (ok : A -> Prop) :
  (forall m x, ok x -> parses name field (f x) m (add m x)) -> Forall ok l ->
  parses name field (List.flat_map f l) m (foldl add m l).
Proof using.
  intros Hf Hok. revert m; induction Hok as [|x l Hx Hl IH]; intros m; [apply parses_nil|].
  cbn. eapply parses_app; [by apply Hf|apply IH].
Qed.
End Fields.

Lemma Object_roundtrip o :
  zlen (Object_MarshalTo o) < 2 ^ 63 ->
  Object_Unmarshal (Object_MarshalTo o) {| o_Key := []; o_ShardID := EmptyString |} = Ok o.
Proof.
  intros Hlen. apply (parses_all "Object" object_field); [|done]. destruct o as [k s]. unfold Object_MarshalTo.
  cbn [o_Key o_ShardID]. eapply parses_app.
  - eapply parses_put_bytes; [done|done|done|intros d i; reflexivity|intros _; reflexivity|by intros ->].
  - cbn [o_Key o_ShardID]. eapply parses_put_bytes; [done|done|done|intros d i; reflexivity| |].
    + intros _. cbn. by rewrite bytes_str_bytes.
    + by destruct s.
Qed.

Definition fits_chunk (c : pbChunk) : Prop := is_i64 (k_SizeInBytes c) /\ zlen (Chunk_MarshalTo c) < 2 ^ 63.

Lemma zlen_flat_map_le {A} (f : A -> bytes) l x : x ∈ l -> zlen (f x) <= zlen (List.flat_map f l).
Proof.
  induction l as [|y l IH]; intros Hx; [by apply not_elem_of_nil in Hx|]. cbn. rewrite zlen_app.
  apply elem_of_cons in Hx as [->|Hx]; [pose proof (zlen_nonneg (List.flat_map f l)); lia|].
  specialize (IH Hx). pose proof (zlen_nonneg (f y)). lia.
Qed.

Lemma foldl_objects l m :
  foldl (fun m o => {| k_SizeInBytes := k_SizeInBytes m; k_Objects := k_Objects m ++ [o]; k_Hash := k_Hash m |}) m l =
  {| k_SizeInBytes := k_SizeInBytes m; k_Objects := k_Objects m ++ l; k_Hash := k_Hash m |}.
Proof.
  revert m; induction l as [|o l IH]; intros m; [destruct m; cbn; by rewrite app_nil_r|].
  cbn [foldl]. rewrite IH. cbn. by rewrite <- app_assoc.
Qed.

Lemma Chunk_roundtrip c : fits_chunk c -> Chunk_Unmarshal (Chunk_MarshalTo c) zero_chunk = Ok c.
Proof.
  intros [Hi Hlen]. apply (parses_all "Chunk" chunk_field); [|done]. destruct c as [s os h].
  unfold Chunk_MarshalTo in *. cbn [k_SizeInBytes k_Objects k_Hash] in *. rewrite !zlen_app in Hlen.
  pose proof (zlen_nonneg (put_int Byte.x08 s)). pose proof (zlen_nonneg (put_bytes Byte.x1a h)).
  eapply parses_app; [|eapply parses_app].
  - eapply parses_put_int; [done|done|done|intros d i; reflexivity|done|done].
  - eapply (parses_flat_map _ _ _ _ _ _ (fun o => zlen (Object_MarshalTo o) < 2 ^ 63)).
    + intros m o Ho. rewrite <- Object_Size_spec.
      eapply parses_message; [done|done|done|intros d i; reflexivity|]. cbn beta. rewrite Object_roundtrip by done. reflexivity.
    + apply Forall_forall. intros o Ho.
      apply (zlen_flat_map_le (fun o => Byte.x12 :: encodeVarintMetadata (Object_Size o) ++ Object_MarshalTo o)) in Ho.
      rewrite zlen_cons, zlen_app in Ho.
      pose proof (zlen_nonneg (encodeVarintMetadata (Object_Size o))). eapply Z.le_lt_trans; [|exact Hlen]. lia.
  - rewrite foldl_objects. cbn [k_SizeInBytes k_Objects k_Hash zero_chunk app].
    eapply parses_put_bytes; [done|done|done|intros d i; reflexivity|intros _; reflexivity|by intros ->].
Qed.

(** What is lost: an empty key is not written, so it is nil afterwards. *)
Definition nonempty (s : slice) : slice := match s with Some [] => None | _ => s end.

Definition fits (m : pbMetadata) : Prop :=
  is_i64 (p_SizeInBytes m) /\ is_i64 (p_CreationEpoch m) /\ is_i64 (p_LastWriteEpoch m) /\
  Forall (fun c => is_i64 (k_SizeInBytes c)) (p_Chunks m) /\ zlen (Metadata_MarshalTo m) < 2 ^ 63.

Definition add_chunk (m : pbMetadata) (c : pbChunk) : pbMetadata :=
  {| p_Key := p_Key m; p_SizeInBytes := p_SizeInBytes m; p_CreationEpoch := p_CreationEpoch m;
     p_LastWriteEpoch := p_LastWriteEpoch m; p_Chunks := p_Chunks m ++ [c]; p_PreviousKey := p_PreviousKey m;
     p_NextKey := p_NextKey m |}.

Lemma foldl_chunks l m :
  foldl add_chunk m l =
  {| p_Key := p_Key m; p_SizeInBytes := p_SizeInBytes m; p_CreationEpoch := p_CreationEpoch m;
     p_LastWriteEpoch := p_LastWriteEpoch m; p_Chunks := p_Chunks m ++ l; p_PreviousKey := p_PreviousKey m;
     p_NextKey := p_NextKey m |}.
Proof.
  revert m; induction l as [|c l IH]; intros m; [destruct m; cbn; by rewrite app_nil_r|].
  cbn [foldl]. rewrite IH. cbn. by rewrite <- app_assoc.
Qed.

Lemma nonempty_bytes s : slice_bytes s <> [] -> Some (slice_bytes s) = nonempty s.
Proof. by destruct s as [[|b l]|]. Qed.

Lemma nonempty_nil s : slice_bytes s = [] -> nonempty s = None.
Proof. destruct s as [[|b l]|]; done. Qed.

(** Every field is read back; the chunks come in their order. *)
Lemma Metadata_roundtrip m : fits m ->
  Metadata_Unmarshal (Metadata_MarshalTo m) zero_pb =
    Ok {| p_Key := nonempty (p_Key m); p_SizeInBytes := p_SizeInBytes m; p_CreationEpoch := p_CreationEpoch m;
          p_LastWriteEpoch := p_LastWriteEpoch m; p_Chunks := p_Chunks m;
          p_PreviousKey := nonempty (p_PreviousKey m); p_NextKey := nonempty (p_NextKey m) |}.
Proof.
  intros (Hs & Hce & Hle & Hcs & Hlen). apply (parses_all "Metadata" metadata_field); [|done].
  destruct m as [k s ce le cs pk nk]. unfold Metadata_MarshalTo in *.
  cbn [p_Key p_SizeInBytes p_CreationEpoch p_LastWriteEpoch p_Chunks p_PreviousKey p_NextKey] in *.
  assert (Hfl : zlen (List.flat_map (fun c => Byte.x2a :: encodeVarintMetadata (Chunk_Size c) ++ Chunk_MarshalTo c) cs) < 2 ^ 63).
  { rewrite !zlen_app in Hlen. repeat match type of Hlen with context [zlen (put_bytes ?t ?v)] =>
      pose proof (zlen_nonneg (put_bytes t v)); generalize dependent (zlen (put_bytes t v)); intros
    | context [zlen (put_int ?t ?v)] =>
      pose proof (zlen_nonneg (put_int t v)); generalize dependent (zlen (put_int t v)); intros end. lia. }
  eapply parses_app; [|eapply parses_app; [|eapply parses_app; [|eapply parses_app; [|eapply parses_app; [|eapply parses_app]]]]].
  - eapply (parses_put_bytes _ _ _ _ _ _ {| p_Key := nonempty k; p_SizeInBytes := 0; p_CreationEpoch := 0;
      p_LastWriteEpoch := 0; p_Chunks := []; p_PreviousKey := None; p_NextKey := None |});
      [done|done|done|intros d i; reflexivity|intros Hne; cbn; by rewrite (nonempty_bytes _ Hne)|intros E; by rewrite (nonempty_nil _ E)].
  - eapply parses_put_int; [done|done|done|intros d i; reflexivity|done|done].
  - eapply parses_put_int; [done|done|done|intros d i; reflexivity|done|done].
  - eapply parses_put_int; [done|done|done|intros d i; reflexivity|done|done].
  - eapply (parses_flat_map _ _ _ add_chunk _ _ fits_chunk).
    + intros m c Hc. rewrite <- Chunk_Size_spec. destruct m.
      eapply parses_message; [done|done|done|intros d i; reflexivity|]. cbn beta. rewrite Chunk_roundtrip by done. reflexivity.
    + rewrite Forall_forall in Hcs |- *. intros c Hc. split; [by apply Hcs|].
      apply (zlen_flat_map_le (fun c => Byte.x2a :: encodeVarintMetadata (Chunk_Size c) ++ Chunk_MarshalTo c)) in Hc.
      rewrite zlen_cons, zlen_app in Hc. pose proof (zlen_nonneg (encodeVarintMetadata (Chunk_Size c))).
      eapply Z.le_lt_trans; [|exact Hfl]. lia.
  - rewrite foldl_chunks. cbn [p_Key p_SizeInBytes p_CreationEpoch p_LastWriteEpoch p_Chunks p_PreviousKey p_NextKey app].
    eapply (parses_put_bytes _ _ _ _ _ _ {| p_Key := nonempty k; p_SizeInBytes := s; p_CreationEpoch := ce;
      p_LastWriteEpoch := le; p_Chunks := cs; p_PreviousKey := nonempty pk; p_NextKey := None |});
      [done|done|done|intros d i; reflexivity|intros Hne; cbn; by rewrite (nonempty_bytes _ Hne)|intros E; by rewrite (nonempty_nil _ E)].
  - cbn [p_Key p_SizeInBytes p_CreationEpoch p_LastWriteEpoch p_Chunks p_PreviousKey p_NextKey].
    eapply (parses_put_bytes _ _ _ _ _ _ _ (fun v => Ok _));
      [done|done|done|intros d i; reflexivity|intros Hne; f_equal; by rewrite (nonempty_bytes _ Hne)|intros E; by rewrite (nonempty_nil _ E)].
Qed.

(** ** The decoder ends on every input *)
Definition ends {A} (r : outcome A) : Prop := r <> Panic out_of_fuel.

Lemma ends_bind {A B} (m : outcome A) (k : A -> outcome B) :
  ends m -> (forall a, m = Ok a -> ends (k a)) -> ends (obind m k).
Proof. unfold ends. destruct m; cbn; [auto|done|congruence]. Qed.

Lemma varint_progress n s acc d i :
  ends (varint n s acc d i) /\ forall v j, varint n s acc d i = Ok (v, j) -> 0 <= i < j /\ j <= zlen d.
Proof.
  revert s acc i; induction n as [|n IH]; intros s acc i; cbn [varint]; [done|].
  destruct (Z.leb_spec (zlen d) i); [done|]. unfold byte_at. destruct (Z.ltb_spec i 0); [done|].
  destruct (d !! Z.to_nat i) as [b|]; [|done]. cbn [obind].
  destruct (bz b <? 128); [split; [done|]; intros v j [= _ <-]; lia|].
  destruct (IH (s + 7) (Z.lor acc (u64 (Z.shiftl (Z.land (bz b) 127) s))) (i + 1)) as [He Hp].
  split; [done|]. intros v j Hv. apply Hp in Hv. lia.
Qed.

Lemma read_varint_ends d i : ends (read_varint d i).
Proof. apply varint_progress. Qed.

Lemma read_varint_progress d i v j : read_varint d i = Ok (v, j) -> 0 <= i < j /\ j <= zlen d.
Proof. apply varint_progress. Qed.

Lemma i64_sum i n : 0 <= i < 2 ^ 63 -> 0 <= n < 2 ^ 63 -> i64 (i + n) = i + n /\ i + n < 2 ^ 63 \/
  i64 (i + n) = i + n - 2 ^ 64 /\ 2 ^ 63 <= i + n.
Proof.
  intros Hi Hn. unfold i64, u64. rewrite Z.mod_small by lia. destruct (Z.ltb_spec (i + n) (2 ^ 63)); [by left|by right].
Qed.

Lemma i64_range z : is_i64 (i64 z).
Proof.
  unfold is_i64, i64, u64. pose proof (Z.mod_pos_bound z (2 ^ 64) ltac:(lia)).
  destruct (Z.ltb_spec (z mod 2 ^ 64) (2 ^ 63)); lia.
Qed.

Lemma read_bytes_progress d i v j : read_bytes d i = Ok (v, j) -> 0 <= i < j /\ j <= zlen d.
Proof.
  unfold read_bytes. intros ([len k] & Hv & H)%obind_Ok_inv. apply read_varint_progress in Hv.
  destruct (Z.ltb_spec (i64 len) 0); [done|]. destruct (Z.ltb_spec (zlen d) (i64 (k + i64 len))); [done|].
  apply obind_Ok_inv in H as (f & Hf & [= _ <-]). unfold slice_of in Hf.
  destruct (Z.ltb_spec (i64 (k + i64 len)) k); [by rewrite orb_true_r in Hf|]. lia.
Qed.

Lemma read_bytes_ends d i : ends (read_bytes d i).
Proof.
  unfold read_bytes. apply ends_bind; [apply read_varint_ends|]. intros [len k] _.
  destruct (i64 len <? 0); [done|]. destruct (zlen d <? _); [done|]. apply ends_bind; [|done].
  unfold slice_of. by destruct (_ || _).
Qed.

(** Skipping a field moves forward, or overflows to a very negative index. *)
Definition moved (i j : Z) : Prop := i < j < 2 ^ 63 \/ - 2 ^ 63 <= j < - 2 ^ 62.

Lemma skip_progress fuel g d i j :
  skip_at fuel g d i = Ok j -> zlen d < 2 ^ 62 -> 0 <= i < zlen d /\ moved i j.
Proof.
  unfold moved. revert g d i j; induction fuel as [|fuel IH]; intros g d i j; cbn [skip_at]; [done|]. intros H Hd. destruct g.
  - apply obind_Ok_inv in H as ([w i1] & Hv & H). apply read_varint_progress in Hv. split; [lia|].
    destruct (_ =? 4); [injection H as <-; lia|]. apply obind_Ok_inv in H as (next & Hn & H).
    apply IH in Hn as [_ Hn]; [|unfold zlen in *; rewrite length_drop; lia]. apply IH in H as [[Hi' _] Hj]; [|done].
    destruct Hn as [Hn|Hn].
    + destruct (i64_sum i next) as [E|E]; [lia..| |]; lia.
    + exfalso. rewrite i64_id in Hi' by (unfold is_i64; lia). lia.
  - destruct (Z.leb_spec (zlen d) i) as [|Hlt]; [done|].
    apply obind_Ok_inv in H as ([w i1] & Hv & H). apply read_varint_progress in Hv. split; [lia|].
    repeat (destruct (_ =? _) in H); try done.
    + apply obind_Ok_inv in H as ([v i2] & Hv2 & [= <-]). apply read_varint_progress in Hv2. lia.
    + injection H as <-. lia.
    + apply obind_Ok_inv in H as ([len i2] & Hv2 & H). apply read_varint_progress in Hv2.
      destruct (Z.ltb_spec (i64 len) 0); [done|]. injection H as <-. pose proof (i64_range len) as Hr. unfold is_i64 in Hr.
      destruct (i64_sum i2 (i64 len)) as [E|E]; [lia..| |]; lia.
    + apply IH in H as [_ H]; [lia|done].
    + injection H as <-. lia.
    + injection H as <-. lia.
Qed.

Lemma skip_ends fuel (g : bool) d i :
  zlen d < 2 ^ 62 -> (1 <= fuel)%nat ->
  (0 <= i -> (if g then 2 * Z.to_nat (zlen d - i) + 1 <= fuel else 2 * Z.to_nat (zlen d - i) <= fuel)%nat) ->
  ends (skip_at fuel g d i).
Proof.
  revert g d i; induction fuel as [|fuel IH]; intros g d i Hd H1 Hf; [lia|]. cbn [skip_at]. destruct g.
  - apply ends_bind; [apply read_varint_ends|]. intros [w i1] Hv. apply read_varint_progress in Hv.
    destruct (_ =? 4); [done|]. specialize (Hf ltac:(lia)).
    assert (Hsub : zlen (drop (Z.to_nat i) d) = zlen d - i) by (unfold zlen in *; rewrite length_drop; lia).
    apply ends_bind.
    + apply IH; [lia|lia|]. intros _. rewrite Hsub. lia.
    + intros next Hn. apply skip_progress in Hn as [_ Hn]; [|lia]. apply IH; [done|lia|]. intros Hp.
      destruct Hn as [Hn|Hn].
      * destruct (i64_sum i next) as [E|E]; [lia..| |]; lia.
      * rewrite i64_id in Hp by (unfold is_i64; lia). lia.
  - destruct (Z.leb_spec (zlen d) i); [done|]. apply ends_bind; [apply read_varint_ends|]. intros [w i1] Hv.
    apply read_varint_progress in Hv. specialize (Hf ltac:(lia)).
    repeat match goal with |- context [if ?b then _ else _] => destruct b end; try done.
    + apply ends_bind; [apply read_varint_ends|]. by intros [v i2] _.
    + apply ends_bind; [apply read_varint_ends|]. intros [v i2] _. by destruct (i64 v <? 0).
    + apply IH; [done|lia|]. intros _. lia.
Qed.

Lemma skipMetadata_ends d : zlen d < 2 ^ 62 -> ends (skipMetadata d).
Proof. intros Hd. apply skip_ends; [done|lia|]. intros _. unfold zlen. lia. Qed.

Lemma skipMetadata_progress d j : skipMetadata d = Ok j -> zlen d < 2 ^ 62 -> moved 0 j.
Proof. intros H Hd. by apply skip_progress in H as [_ H]. Qed.

(** What the [Unmarshal] loop needs of the fields of a message. *)
Definition field_ends {M} (field : M -> Z -> Z -> bytes -> Z -> option (outcome (M * Z))) : Prop :=
  forall m n w d i r, zlen d < 2 ^ 62 -> field m n w d i = Some r ->
    ends r /\ forall m' j, r = Ok (m', j) -> i < j <= zlen d.

Lemma unmarshal_ends {M} name (field : M -> Z -> Z -> bytes -> Z -> option (outcome (M * Z))) fuel d i m :
  field_ends field -> zlen d < 2 ^ 62 -> (Z.to_nat (zlen d - i) < fuel)%nat -> ends (unmarshal name field fuel d i m).
Proof.
  intros Hfield Hd. revert i m; induction fuel as [|fuel IH]; intros i m Hf; [lia|]. cbn [unmarshal].
  destruct (Z.ltb_spec i (zlen d)); [|by destruct (zlen d <? i)].
  apply ends_bind; [apply read_varint_ends|]. intros [wire i1] Hv. apply read_varint_progress in Hv.
  destruct (_ =? 4); [done|]. destruct (_ <=? 0); [done|]. destruct (field _ _ _ _ _) as [r|] eqn:Hr.
  - apply Hfield in Hr as [He Hp]; [|done]. apply ends_bind; [done|]. intros [m' j] ->.
    specialize (Hp _ _ eq_refl). apply IH. lia.
  - unfold slice_of. destruct (_ || _); [done|]. cbn [obind].
    set (rest := take _ _). assert (Hrest : zlen rest < 2 ^ 62).
    { unfold rest, zlen in *. rewrite length_take, length_drop. lia. }
    apply ends_bind; [by apply skipMetadata_ends|]. intros j Hj. apply skipMetadata_progress in Hj; [|done].
    destruct (Z.ltb_spec j 0); [done|]. destruct Hj as [Hj|Hj]; [|lia].
    destruct (Z.ltb_spec (zlen d) (i64 (i + j))) as [|Hle]; [done|].
    destruct (i64_sum i j) as [[E _]|[E Hov]]; [lia..| |].
    + apply IH. lia.
    + destruct fuel as [|fuel]; [lia|]. cbn [unmarshal]. destruct (Z.ltb_spec (i64 (i + j)) (zlen d)); [|lia].
      unfold read_varint. cbn [varint]. rewrite (proj2 (Z.leb_gt _ _)) by lia. unfold byte_at.
      by rewrite (proj2 (Z.ltb_lt _ _)) by lia.
Qed.

Lemma bytes_field_ends {M} name w d i (set : bytes -> outcome M) :
  (forall v, zlen v <= zlen d -> ends (set v)) ->
  ends (bytes_field name w d i set) /\
  forall m' j, bytes_field name w d i set = Ok (m', j) -> i < j <= zlen d.
Proof.
  intros Hset. unfold bytes_field. destruct (negb _); [done|]. split.
  - apply ends_bind; [apply read_bytes_ends|]. intros [v j] Hv. apply ends_bind; [|done]. apply Hset.
    unfold read_bytes in Hv. apply obind_Ok_inv in Hv as ([len k] & _ & Hv).
    destruct (_ <? 0); [done|]. destruct (_ <? _); [done|]. apply obind_Ok_inv in Hv as (f & Hf & [= <- _]).
    unfold slice_of in Hf. destruct (_ || _); [done|]. injection Hf as <-. unfold zlen. rewrite length_take, length_drop. lia.
  - intros m' j ([v k] & Hv & (m & _ & [= _ <-])%obind_Ok_inv)%obind_Ok_inv.
    apply read_bytes_progress in Hv. lia.
Qed.

Lemma int_field_ends {M} name w d i (set : Z -> M) :
  ends (int_field name w d i set) /\ forall m' j, int_field name w d i set = Ok (m', j) -> i < j <= zlen d.
Proof.
  unfold int_field. destruct (negb _); [done|]. split.
  - apply ends_bind; [apply read_varint_ends|]. by intros [v j] _.
  - intros m' j ([v k] & Hv & [= _ <-])%obind_Ok_inv. apply read_varint_progress in Hv. lia.
Qed.

(** Each known field of a message is read by [bytes_field] or [int_field]. *)
Ltac solve_field_ends :=
  repeat match goal with
         | H : (if ?b then _ else _) = Some _ |- _ => destruct b; [injection H as <-|]
         end; try done; first [apply int_field_ends | apply bytes_field_ends; intros v Hv; try done].

Lemma object_field_ends : field_ends object_field.
Proof. intros m n w d i r Hd H. unfold object_field in H. solve_field_ends. Qed.

Lemma Object_Unmarshal_ends d m : zlen d < 2 ^ 62 -> ends (Object_Unmarshal d m).
Proof. intros Hd. apply unmarshal_ends; [apply object_field_ends|done|unfold zlen; lia]. Qed.

Lemma chunk_field_ends : field_ends chunk_field.
Proof.
  intros m n w d i r Hd H. unfold chunk_field in H. solve_field_ends.
  apply ends_bind; [apply Object_Unmarshal_ends; lia|done].
Qed.

Lemma Chunk_Unmarshal_ends d m : zlen d < 2 ^ 62 -> ends (Chunk_Unmarshal d m).
Proof. intros Hd. apply unmarshal_ends; [apply chunk_field_ends|done|unfold zlen; lia]. Qed.

Lemma metadata_field_ends : field_ends metadata_field.
Proof.
  intros m n w d i r Hd H. destruct m. cbn [metadata_field] in H. solve_field_ends.
  apply ends_bind; [apply Chunk_Unmarshal_ends; lia|done].
Qed.

(** ** The functions of [proto.go] *)

(** The integers of the metadata are [int64] values and its encoding is a
    slice. *)
Definition encodable (md : Metadata) : Prop :=
  is_i64 (Size md) /\ is_i64 (CreationEpoch md) /\ is_i64 (LastWriteEpoch md) /\
  Forall (fun c => is_i64 (ch_Size c)) (Chunks md) /\ zlen (Metadata_MarshalTo (to_pb md)) < 2 ^ 63.

(** What decoding [md] into a value with the chunks [old] leaves there. *)
Definition decoded (old : list Chunk) (md : Metadata) : Metadata :=
  {| Key := Key md; Size := Size md; CreationEpoch := CreationEpoch md; LastWriteEpoch := LastWriteEpoch md;
     Chunks := if (0 <? length (Chunks md))%nat then Chunks md else old;
     PreviousKey := nonempty (PreviousKey md); NextKey := nonempty (NextKey md) |}.

Lemma of_to_pbChunk c : of_pbChunk (to_pbChunk c) = c.
Proof.
  destruct c as [s os h]. unfold of_pbChunk, to_pbChunk. cbn. f_equal. rewrite <- list_fmap_compose.
  rewrite <- (list_fmap_id os) at 2. apply list_fmap_ext. by intros ? [k i] _.
Qed.

Lemma encodable_fits md : encodable md -> fits (to_pb md).
Proof.
  intros (Hs & Hc & Hl & Hcs & Hlen). split_and!; try done. cbn. rewrite Forall_fmap.
  by eapply Forall_impl; [exact Hcs|].
Qed.

Definition encoding (md : Metadata) : bytes := Metadata_MarshalTo (to_pb md).

Lemma MarshalMetadata_spec md : MarshalMetadata md = Ok (encoding md).
Proof. apply Marshal_spec. Qed.

Lemma UnmarshalMetadata_encoding md md0 :
  encodable md -> UnmarshalMetadata (Some (encoding md)) (Some md0) = Ok (decoded (Chunks md0) md).
Proof.
  intros H. unfold UnmarshalMetadata, encoding. rewrite Metadata_roundtrip by by apply encodable_fits. cbn [obind].
  unfold to_pb, decoded. cbn [p_Key p_SizeInBytes p_CreationEpoch p_LastWriteEpoch p_Chunks p_PreviousKey p_NextKey].
  rewrite length_fmap. f_equal. f_equal.
  - by destruct (Key md).
  - destruct (0 <? length (Chunks md))%nat; [|done]. rewrite <- list_fmap_compose.
    rewrite <- (list_fmap_id (Chunks md)) at 2. apply list_fmap_ext. intros. apply of_to_pbChunk.
Qed.


(** C16. Metadata round trip: encoding metadata always succeeds, and decoding the
    result gives every field back, each chunk with its objects and hash in its
    place.  Empty neighbour keys come back as nil keys; metadata without chunks
    leaves the chunks of the value it is decoded into. *)
Theorem metadata_roundtrip md md0 :
  encodable md ->
  exists b, MarshalMetadata md = Ok b /\ UnmarshalMetadata (Some b) (Some md0) = Ok (decoded (Chunks md0) md).
Proof.
  intros H. exists (encoding md). split; [apply MarshalMetadata_spec|by apply UnmarshalMetadata_encoding].
Qed.

Definition sample_metadata : Metadata :=
  {| Key := str_bytes "k"; Size := 300; CreationEpoch := -5; LastWriteEpoch := 2 ^ 40;
     Chunks := [{| ch_Size := 300; ch_Objects := [{| mo_Key := [Byte.x00]; mo_ShardID := "s1" |}]; ch_Hash := [Byte.xff] |}];
     PreviousKey := Some []; NextKey := Some (str_bytes "n") |}.

Lemma metadata_roundtrip_witness :
  exists b, MarshalMetadata sample_metadata = Ok b /\
    UnmarshalMetadata (Some b) (Some zero_metadata) = Ok (decoded [] sample_metadata).
Proof.
  apply (metadata_roundtrip sample_metadata zero_metadata). unfold encodable, is_i64.
  split; [|split; [|split; [|split]]]; [vm_compute; split; congruence..| |vm_compute; done].
  constructor; [vm_compute; split; congruence|constructor].
Defined.

(** C17. The decoder ends: on every input the rounds the model gives its loops are
    enough, also for nested messages, unknown fields, nested groups and lengths
    whose sum with the index overflows. *)
Theorem decoder_ends b md :
  zlen (slice_bytes b) < 2 ^ 62 -> UnmarshalMetadata b md <> Panic out_of_fuel.
Proof.
  intros Hb. destruct b as [d|]; [|done]. destruct md as [md|]; [|done]. change (ends (UnmarshalMetadata (Some d) (Some md))).
  cbn [UnmarshalMetadata].
  apply ends_bind; [|done]. apply unmarshal_ends; [apply metadata_field_ends|done|unfold zlen; lia].
Qed.

(** The decoder is not total on hostile input: a length near [2^63] makes the
    sum with the index negative and the slice expression panic. *)
Definition overlong : bytes :=
  [Byte.x0a; Byte.xff; Byte.xff; Byte.xff; Byte.xff; Byte.xff; Byte.xff; Byte.xff; Byte.xff; Byte.x7f].

Lemma decoder_ends_witness :
  UnmarshalMetadata (Some overlong) (Some zero_metadata) = Panic "slice bounds out of range" /\
  UnmarshalMetadata (Some overlong) (Some zero_metadata) <> Panic out_of_fuel.
Proof. split; [vm_compute; reflexivity|]. apply decoder_ends. vm_compute. reflexivity. Defined.
