(* ===== verification/Metastor.v ===== *)
(** * The metadata client ([client/metastor])

    [MetaDB] is the interface [db.DB] of the metadata databases and
    [MetaDBLaws] what they promise while they are available and nobody else
    writes, [MetaDBFaults] what is left of it when requests fail; [client.go] is
    modelled over it.  The callback of an update may change the database and
    the variables it captures, of type [L]; a database may call it several
    times. *)

From S2P Require Import Prelude Encoding Spread Pipeline MetaProto MetaProtoProps.
Import Wire.
Open Scope nat_scope.

(** ** [db.go] *)
Definition ErrNotFound := ErrVar "db" "ErrNotFound" "metastor: key couldn't be found".
Definition ErrTimeout := ErrVar "db" "ErrTimeout" "metastor: database timed out".
Definition ErrUnavailable := ErrVar "db" "ErrUnavailable" "metastor: database is unavailable".

(** [&InternalError{type, err}]: a new error value with the text of its
    [Error] method. *)
Definition InternalError (Type_ : string) (err : option error) : error :=
  match err with
  | None => ErrNew ("metastor: internal " +:+ Type_ +:+ " database error")
  | Some e => ErrNew ("metastor: internal " +:+ Type_ +:+ " database error: " +:+ error_text e)
  end.

(** The interface [DB]. *)
Class MetaDB (M : Type) := {
  md_Set : bytes -> bytes -> prog M unit;
  md_Get : bytes -> prog M slice;
  md_Delete : bytes -> prog M unit;
  md_Update : forall {L : Type}, bytes -> (slice -> prog (M * L) bytes) -> prog (M * L) unit;
  md_Close : prog M unit;
}.

(** What holds of an update whatever others do: only the callback changes its
    variables, and it is not called again after an error of its own.
    [md_conflict e]: an error with which a callback asks for another attempt. *)
Class MetaDBCalls (M : Type) `{MetaDB M} := {
  md_conflict : error -> bool;
  update_inv L k (cb : slice -> prog (M * L) bytes) (I J : L -> Prop) m l r m' l' :
    (forall b m l r m' l', I l -> cb b (m, l) = (r, (m', l')) ->
       match r with Ok _ => I l' | Err e => if md_conflict e then I l' else J l' | Panic _ => J l' end) ->
    I l -> md_Update k cb (m, l) = (r, (m', l')) -> I l' \/ J l';
}.

(** [md_entry m k] is the value stored under [k] with the version of the entry.
    [md_ok m]: the database is available and nobody else writes.  Databases
    limit what they store: [md_key k], a key that can be in the database, and
    [md_fits k v], a value that can be stored under it. *)
Class MetaDBLaws (M : Type) `{MetaDBCalls M} := {
  md_ok : M -> Prop;
  md_entry : M -> bytes -> option (bytes * Z);
  md_key : bytes -> Prop;
  md_fits : bytes -> bytes -> Prop;
  key_nonempty k : md_key k -> k <> [];
  fits_key k v : md_fits k v -> md_key k;
  entry_key m k e : md_ok m -> md_entry m k = Some e -> md_key k;
  set_law k v m : md_ok m -> md_fits k v -> exists m' n, md_Set k v m = (Ok tt, m') /\ md_ok m' /\
    md_entry m' k = Some (v, n) /\ forall k', k' <> k -> md_entry m' k' = md_entry m k';
  get_law k m : md_ok m -> k <> [] -> exists m',
    md_Get k m = (match md_entry m k with Some (v, _) => Ok (Some v) | None => Err ErrNotFound end, m') /\
    md_ok m' /\ forall k', md_entry m' k' = md_entry m k';
  delete_law k m : md_ok m -> md_key k -> exists m', md_Delete k m = (Ok tt, m') /\ md_ok m' /\
    md_entry m' k = None /\ forall k', k' <> k -> md_entry m' k' = md_entry m k';
  (** An update finds nothing. *)
  update_missing L k (cb : slice -> prog (M * L) bytes) m l : md_ok m -> k <> [] -> md_entry m k = None ->
    exists m', md_Update k cb (m, l) = (Err ErrNotFound, (m', l)) /\ md_ok m' /\
      forall k', md_entry m' k' = md_entry m k';
  (** The callback is called with the stored value.  Its error is returned and
      what it did stays; when it leaves the entry alone its result is stored. *)
  update_law L k (cb : slice -> prog (M * L) bytes) m l v n : md_ok m -> md_entry m k = Some (v, n) ->
    exists m1, md_ok m1 /\ (forall k', md_entry m1 k' = md_entry m k') /\
      forall r m2 l2, cb (Some v) (m1, l) = (r, (m2, l2)) -> md_ok m2 ->
        match r with
        | Ok v' => md_fits k v' -> md_entry m2 k = Some (v, n) ->
            exists m' n', md_Update k cb (m, l) = (Ok tt, (m', l2)) /\ md_ok m' /\ md_entry m' k = Some (v', n') /\
              forall k', k' <> k -> md_entry m' k' = md_entry m2 k'
        | Err e => md_conflict e = false ->
            exists m', md_Update k cb (m, l) = (Err e, (m', l2)) /\ md_ok m' /\ forall k', md_entry m' k' = md_entry m2 k'
        | Panic p => exists m', md_Update k cb (m, l) = (Panic p, (m', l2))
        end;
}.

(** What holds of reads and deletes also while requests fail and nobody else
    writes: a read changes nothing, and what it returns is there; a delete that fails has
    removed its entry or nothing. *)
Class MetaDBFaults (M : Type) `{MetaDB M} := {
  md_value : M -> bytes -> option bytes;
  get_faults k m r m' : md_Get k m = (r, m') ->
    (forall k', md_value m' k' = md_value m k') /\ (forall b, r = Ok b -> exists v, b = Some v /\ md_value m k = Some v);
  delete_faults k m r m' : md_Delete k m = (r, m') ->
    (forall k', k' <> k -> md_value m' k' = md_value m k') /\
    (md_value m' k = None \/ r <> Ok tt /\ md_value m' k = md_value m k);
}.

(** ** [client.go] *)
Definition ErrNilKey := ErrVar "metastor" "ErrNilKey" "nil key given".

(** A pair of encoding functions; [Unmarshal] writes through a pointer, and returns what
    is there afterwards. *)
Record MarshalFuncPair := {
  Marshal : Metadata -> outcome bytes;
  Unmarshal : slice -> option Metadata -> outcome Metadata;
}.

Definition proto_pair : MarshalFuncPair := {| Marshal := MarshalMetadata; Unmarshal := UnmarshalMetadata |}.

(** The pair with a processor made by [pc] around it. *)
Definition processed (pc : outcome Processor) (p : MarshalFuncPair) : MarshalFuncPair := {|
  Marshal md :=
    let! processor := pc in
    let! b := Marshal p md in
    WriteProcess processor b;
  Unmarshal b md :=
    let! processor := pc in
    let! b := ReadProcess processor (slice_bytes b) in
    Unmarshal p (Some b) md;
|}.

(** [Config]: a function of a given pair may be missing. *)
Record Config := {
  Database : bool;
  FuncPair : option (option (Metadata -> outcome bytes) * option (slice -> option Metadata -> outcome Metadata));
  ProcessorConstructor : option (outcome Processor);
}.

(** The client keeps its database, which is the state of the operations, and
    the two functions. *)
Definition NewClient (cfg : Config) : outcome MarshalFuncPair :=
  if negb (Database cfg) then Err (ErrNew "NewClient: no metastor database given")
  else
    let! base :=
      match FuncPair cfg with
      | None => Ok proto_pair
      | Some (None, _) => Err (ErrNew "NewClient: marshal function missing")
      | Some (Some _, None) => Err (ErrNew "NewClient: unmarshal function missing")
      | Some (Some e, Some d) => Ok {| Marshal := e; Unmarshal := d |}
      end in
    Ok (match ProcessorConstructor cfg with None => base | Some pc => processed pc base end).

Definition nil_pointer : string := "invalid memory address or nil pointer dereference".

Section Client.
Context `{MetaDB M} (c : MarshalFuncPair).

Definition SetMetadata (md : Metadata) : prog M unit :=
  if (length (Key md) =? 0) then pfail ErrNilKey
  else do! b := plift (Marshal c md) in md_Set (Key md) b.

Definition GetMetadata (key : bytes) : prog M Metadata :=
  if (length key =? 0) then pfail ErrNilKey
  else do! b := md_Get key in plift (Unmarshal c b (Some zero_metadata)).

Definition DeleteMetadata (key : bytes) : prog M unit :=
  if (length key =? 0) then pfail ErrNilKey else md_Delete key.

(** [UpdateMetadataFunc]: it returns a pointer and an error. *)
Definition UpdateMetadataFunc (L : Type) := Metadata -> prog (M * L) (option Metadata * option error).

(** The closure that [UpdateMetadata] hands to the database; the variable
    [metadata] it shares with its surroundings is the last part of the state. *)
Definition update_step {L} (cb : UpdateMetadataFunc L) (b : slice) : prog (M * (L * option Metadata)) bytes :=
  fun '(m, (l, metadata)) =>
    match Unmarshal c b metadata with
    | Err e => (Err e, (m, (l, metadata)))
    | Panic p => (Panic p, (m, (l, metadata)))
    | Ok md =>
        match cb md (m, l) with
        | (Ok (metadata, Some e), (m, l)) => (Err e, (m, (l, metadata)))
        | (Ok (None, None), (m, l)) => (Panic nil_pointer, (m, (l, None)))
        | (Ok (Some md, None), (m, l)) => (Marshal c md, (m, (l, Some md)))
        | (Err e, (m, l)) => (Err e, (m, (l, None)))
        | (Panic p, (m, l)) => (Panic p, (m, (l, Some md)))
        end
    end.

Definition UpdateMetadata {L} (key : bytes) (cb : UpdateMetadataFunc L) : prog (M * L) (option Metadata * option error) :=
  if (length key =? 0) then pret (None, Some ErrNilKey)
  else fun '(m, l) =>
    match md_Update key (update_step cb) (m, (l, Some zero_metadata)) with
    | (Ok _, (m, (l, metadata))) => (Ok (metadata, None), (m, l))
    | (Err e, (m, (l, metadata))) => (Ok (metadata, Some e), (m, l))
    | (Panic p, (m, (l, _))) => (Panic p, (m, l))
    end.

Definition Close : prog M unit := md_Close.
End Client.

(** Whatever the database does, only the callback changes its variables. *)
Lemma UpdateMetadata_inv `{MetaDBCalls M} (c : MarshalFuncPair) {L} k (cb : UpdateMetadataFunc L) (I J : L -> Prop) m l r m' l' :
  (forall md m l res m' l', I l -> cb md (m, l) = (res, (m', l')) ->
     match res with
     | Ok (_, None) => I l'
     | Ok (_, Some e) | Err e => if md_conflict e then I l' else J l'
     | Panic _ => J l'
     end) ->
  (forall l, I l -> J l) -> I l -> UpdateMetadata c k cb (m, l) = (r, (m', l')) -> J l'.
Proof.
  intros Hcb HIJ Hl. unfold UpdateMetadata. destruct (_ =? _); [intros [= _ _ <-]; auto|].
  destruct (md_Update k _ _) as [u [m1 [l1 ptr]]] eqn:Hu. intros Hr.
  assert (l' = l1) as -> by (destruct u; by injection Hr). clear Hr.
  enough (I l1 \/ J l1) as [?|?] by auto.
  apply (update_inv (L * option Metadata) k (update_step c cb) (fun l => I l.1) (fun l => J l.1)) in Hu; [done| |done].
  assert (Hfin : forall A l (x : outcome A), I l -> match x with Ok _ => I l | Err e => if md_conflict e then I l else J l | Panic _ => J l end).
  { intros A l0 [?|e|?] Hi; [done|destruct (md_conflict e); auto|auto]. }
  clear -Hcb HIJ Hfin. intros b m [l ptr] r m' [l' ptr'] Hi. cbn [fst] in *. unfold update_step.
  destruct (Unmarshal c b ptr) as [md|e|p]; [|intros [= <- _ <- _]; by apply (Hfin bytes l (Err e))|intros [= <- _ <- _]; auto].
  destruct (cb md (m, l)) as [res [m1 l1]] eqn:Hc. specialize (Hcb _ _ _ _ _ _ Hi Hc).
  destruct res as [[[md'|] [e|]]|e|p]; intros [= <- _ <- _]; auto. by apply Hfin.
Qed.

(** ** The client over a database that keeps its promises *)

(** What a pair of encoding functions promises. *)
Class Codec (c : MarshalFuncPair) := {
  enc_ok : Metadata -> Prop;
  codec_law md : enc_ok md -> exists b, Marshal c md = Ok b /\
    forall old, Unmarshal c (Some b) (Some old) = Ok (decoded (Chunks old) md);
}.

#[export] Instance proto_codec : Codec proto_pair.
Proof.
  refine {| enc_ok := encodable |}. intros md Hmd. exists (encoding md).
  split; [apply MarshalMetadata_spec|]. intros old. by apply UnmarshalMetadata_encoding.
Defined.

(** A processor that undoes its own work keeps the promise. *)
#[export] Instance processed_codec proc p `{!Codec p}
    (Hinv : forall d x, WriteProcess proc d = Ok x -> ReadProcess proc x = Ok d) : Codec (processed (Ok proc) p).
Proof.
  refine {| enc_ok := fun md => enc_ok md /\ forall b, Marshal p md = Ok b -> exists x, WriteProcess proc b = Ok x |}.
  intros md [Hmd Hw]. destruct (codec_law md Hmd) as (b & Hb & Hu). destruct (Hw b Hb) as [x Hx]. exists x.
  split; [cbn; by rewrite Hb|]. intros old. cbn. rewrite (Hinv _ _ Hx). apply Hu.
Defined.

Lemma nonempty_idemp s : nonempty (nonempty s) = nonempty s.
Proof. by destruct s as [[|]|]. Qed.

Lemma decoded_idemp old md : decoded old (decoded [] md) = decoded old md.
Proof.
  unfold decoded. cbn [Key Size CreationEpoch LastWriteEpoch Chunks PreviousKey NextKey].
  rewrite !nonempty_idemp. by destruct (Chunks md).
Qed.

Section Properties.
Context `{MetaDBLaws M} (c : MarshalFuncPair) `{!Codec c}.

Definition same_entries (m m' : M) : Prop := forall k, md_entry m' k = md_entry m k.
Definition same_but (k : bytes) (m m' : M) : Prop := forall k', k' <> k -> md_entry m' k' = md_entry m k'.

(** The database holds the metadata [md] under [k]. *)
Definition has (m : M) (k : bytes) (md : Metadata) : Prop :=
  exists b n, md_entry m k = Some (b, n) /\ forall old, Unmarshal c (Some b) (Some old) = Ok (decoded (Chunks old) md).

(** The metadata can be encoded, and stored under [k]. *)
Definition storable (k : bytes) (md : Metadata) : Prop := enc_ok md /\ forall b, Marshal c md = Ok b -> md_fits k b.

Lemma storable_codec k md : storable k md -> exists b, Marshal c md = Ok b /\ md_fits k b /\ k <> [] /\
  forall old, Unmarshal c (Some b) (Some old) = Ok (decoded (Chunks old) md).
Proof using.
  intros [He Hf]. destruct (codec_law md He) as (b & Hb & Hu). exists b. split_and!; auto.
  eapply key_nonempty, fits_key, Hf, Hb.
Qed.

Lemma has_entry m m' k md : md_entry m' k = md_entry m k -> has m k md -> has m' k md.
Proof using. intros E (b & n & He & Hu). exists b, n. by rewrite E. Qed.

Lemma has_decoded m k md : has m k md -> has m k (decoded [] md).
Proof using. intros (b & n & He & Hu). exists b, n. split; [done|]. intros old. by rewrite Hu, decoded_idemp. Qed.

Lemma has_nonempty m k md : md_ok m -> has m k md -> k <> [].
Proof using. intros Hm (b & n & He & _). eapply key_nonempty, entry_key; eauto. Qed.

Lemma length_nonempty {A} (l : list A) : l <> [] -> (length l =? 0) = false.
Proof using. by destruct l. Qed.

Lemma SetMetadata_spec md m :
  md_ok m -> storable (Key md) md ->
  exists m', SetMetadata c md m = (Ok tt, m') /\ md_ok m' /\ has m' (Key md) md /\ same_but (Key md) m m'.
Proof using.
  intros Hm (b & Hb & Hf & Hk & Hu)%storable_codec. unfold SetMetadata. rewrite length_nonempty by done.
  destruct (set_law (Key md) b m Hm Hf) as (m' & n & Hs & Hm' & He & Ho).
  exists m'. unfold pbind, plift. rewrite Hb, Hs. split; [done|]. split; [done|]. split; [by exists b, n|done].
Qed.

Lemma GetMetadata_spec k md m :
  md_ok m -> has m k md ->
  exists m', GetMetadata c k m = (Ok (decoded [] md), m') /\ md_ok m' /\ same_entries m m'.
Proof using.
  intros Hm Hh. pose proof (has_nonempty _ _ _ Hm Hh) as Hk. destruct Hh as (b & n & He & Hu).
  unfold GetMetadata. rewrite length_nonempty by done. destruct (get_law k m Hm Hk) as (m' & Hg & Hm' & Hs). rewrite He in Hg. exists m'.
  unfold pbind, plift. rewrite Hg, Hu. by split.
Qed.

Lemma GetMetadata_missing k m :
  md_ok m -> k <> [] -> md_entry m k = None ->
  exists m', GetMetadata c k m = (Err ErrNotFound, m') /\ md_ok m' /\ same_entries m m'.
Proof using.
  intros Hm Hk He. unfold GetMetadata. rewrite length_nonempty by done.
  destruct (get_law k m Hm Hk) as (m' & Hg & Hm' & Hs). rewrite He in Hg. exists m'.
  unfold pbind. rewrite Hg. by split.
Qed.

Lemma DeleteMetadata_spec k m :
  md_ok m -> md_key k ->
  exists m', DeleteMetadata k m = (Ok tt, m') /\ md_ok m' /\ md_entry m' k = None /\ same_but k m m'.
Proof using.
  intros Hm Hk. unfold DeleteMetadata. rewrite length_nonempty by (by apply key_nonempty). by apply delete_law.
Qed.

(** An update calls the callback with the stored metadata. *)
Lemma UpdateMetadata_spec {L} k (cb : UpdateMetadataFunc L) md m l :
  md_ok m -> has m k md ->
  exists m1, md_ok m1 /\ same_entries m m1 /\
    forall ptr err m2 l2, cb (decoded [] md) (m1, l) = (Ok (ptr, err), (m2, l2)) -> md_ok m2 ->
      match err, ptr with
      | None, Some md' => storable k md' -> md_entry m2 k = md_entry m k ->
          exists m', UpdateMetadata c k cb (m, l) = (Ok (Some md', None), (m', l2)) /\ md_ok m' /\
            has m' k md' /\ same_but k m2 m'
      | Some e, _ => md_conflict e = false ->
          exists m', UpdateMetadata c k cb (m, l) = (Ok (ptr, Some e), (m', l2)) /\ md_ok m' /\ same_entries m2 m'
      | None, None => True
      end.
Proof using.
  intros Hm Hh. pose proof (has_nonempty _ _ _ Hm Hh) as Hk. destruct Hh as (b & n & He & Hu).
  destruct (update_law (L * option Metadata) k (update_step c cb) m (l, Some zero_metadata) b n Hm He)
    as (m1 & Hm1 & Hs1 & Hup).
  exists m1. split_and!; [done|done|]. intros ptr err m2 l2 Hcb Hm2. unfold UpdateMetadata. rewrite length_nonempty by done.
  assert (Hstep : forall r x, (match err, ptr with
      | Some e, _ => (Err e, ptr) | None, None => (Panic nil_pointer, None) | None, Some md' => (Marshal c md', Some md') end) = (r, x) ->
    update_step c cb (Some b) (m1, (l, Some zero_metadata)) = (r, (m2, (l2, x)))).
  { intros r x Hx. unfold update_step. rewrite Hu. change (Chunks zero_metadata) with (@nil Chunk).
    rewrite Hcb. destruct err, ptr; by injection Hx as <- <-. }
  destruct err as [e|]; [|destruct ptr as [md'|]; [|done]].
  - intros Hc. specialize (Hup _ _ _ (Hstep _ _ eq_refl) Hm2 Hc) as (m' & -> & Hm' & Hs'). by exists m'.
  - intros (b' & Hb' & Hf & _ & Hu')%storable_codec Hsame.
    assert (Hs2 : update_step c cb (Some b) (m1, (l, Some zero_metadata)) = (Ok b', (m2, (l2, Some md')))).
    { apply Hstep. by rewrite Hb'. }
    specialize (Hup _ _ _ Hs2 Hm2). rewrite Hsame, He in Hup. destruct (Hup Hf eq_refl) as (m' & n' & -> & Hm' & He' & Ho).
    exists m'. split; [done|]. split; [done|]. split; [by exists b', n'|done].
Qed.

Lemma UpdateMetadata_missing {L} k (cb : UpdateMetadataFunc L) m l :
  md_ok m -> k <> [] -> md_entry m k = None ->
  exists m', UpdateMetadata c k cb (m, l) = (Ok (Some zero_metadata, Some ErrNotFound), (m', l)) /\ md_ok m' /\
    same_entries m m'.
Proof using.
  intros Hm Hk He. unfold UpdateMetadata. rewrite length_nonempty by done.
  destruct (update_missing _ k (update_step c cb) m (l, Some zero_metadata) Hm Hk He) as (m' & -> & Hm' & Hs). by exists m'.
Qed.
End Properties.
