(* ===== verification/MetaMem.v ===== *)
(** * The in-memory metadata database ([client/metastor/db/test/in_memory_db.go])

    Entries carry a version, and an update commits only when the version is the
    one it read.  [others] gives what other goroutines do during a round of
    [Update]: before the callback runs, and between its return and the lock
    that the commit takes. *)

From S2P Require Import Prelude Encoding Spread Pipeline MetaProto MetaProtoProps Metastor.
Open Scope Z_scope.

Module MetaMem.

Record DB := { md : gmap bytes bytes; versions : gmap bytes Z }.

Definition New : DB := {| md := ∅; versions := ∅ |}.

(** A missing key of a Go map reads as zero; [versions[k]++] is on [uint64]. *)
Definition version (db : DB) (k : bytes) : Z := default 0 (versions db !! k).

Definition put (k v : bytes) (db : DB) : DB :=
  {| md := <[k := v]> (md db); versions := <[k := u64 (version db k + 1)]> (versions db) |}.

Definition Set_ (key metadata : bytes) : prog DB unit := fun db => (Ok tt, put key metadata db).

Definition Get (key : bytes) : prog DB slice :=
  fun db => (match md db !! key with Some v => Ok (Some v) | None => Err ErrNotFound end, db).

Definition remove (k : bytes) (db : DB) : DB := {| md := delete k (md db); versions := delete k (versions db) |}.

Definition Delete (key : bytes) : prog DB unit := fun db => (Ok tt, remove key db).

Definition Close : prog DB unit := fun _ => (Ok tt, New).

(** An operation of another goroutine. *)
Inductive op := OpSet (k v : bytes) | OpDelete (k : bytes) | OpClose.

Definition do_op (db : DB) (o : op) : DB :=
  match o with OpSet k v => put k v db | OpDelete k => remove k db | OpClose => New end.

Definition do_ops (l : list op) (db : DB) : DB := foldl do_op db l.

(** What the model of a run with too few rounds ends with. *)
Definition retrying : string := "still retrying".

Section Update.
Context {L : Type} (others : nat -> list op * list op) (key : bytes) (cb : slice -> prog (DB * L) bytes).

(** The loop of [Update], for [rounds] rounds. *)
Fixpoint Update (rounds : nat) : prog (DB * L) unit :=
  match rounds with
  | O => ppanic retrying
  | S rounds' => fun '(db, l) =>
      match md db !! key with
      | None => (Err ErrNotFound, (db, l))
      | Some metadataIn =>
          let read := version db key in
          match cb (Some metadataIn) (do_ops (others rounds').1 db, l) with
          | (Err e, s) => (Err e, s)
          | (Panic p, s) => (Panic p, s)
          | (Ok metadataOut, (db, l)) =>
              let db := do_ops (others rounds').2 db in
              if negb (version db key =? read) then Update rounds' (db, l)
              else (Ok tt, (put key metadataOut db, l))
          end
      end
  end.
End Update.

(** ** The database as an implementation of the interface *)
#[local] Instance mem_db (others : nat -> list op * list op) (rounds : nat) : MetaDB DB := {|
  md_Set := Set_; md_Get := Get; md_Delete := Delete;
  md_Update L key cb := Update others key cb rounds;
  md_Close := Close;
|}.

Definition nobody (_ : nat) : list op * list op := ([], []).

Definition entry (db : DB) (k : bytes) : option (bytes * Z) := v ← md db !! k; Some (v, version db k).

Lemma entry_put k v db k' : entry (put k v db) k' = if decide (k = k') then Some (v, u64 (version db k + 1)) else entry db k'.
Proof.
  unfold entry, put, version. cbn [md versions]. case_decide; [subst k'; by rewrite !lookup_insert_eq|].
  by rewrite !lookup_insert_ne.
Qed.

Lemma entry_remove k db k' : entry (remove k db) k' = if decide (k = k') then None else entry db k'.
Proof.
  unfold entry, remove, version. cbn [md versions]. case_decide; [subst k'; by rewrite !lookup_delete_eq|].
  by rewrite !lookup_delete_ne.
Qed.

Lemma entry_Some db k v n : entry db k = Some (v, n) <-> md db !! k = Some v /\ version db k = n.
Proof. unfold entry. destruct (md db !! k); cbn; naive_solver. Qed.

(** Only the callback changes its variables, whatever the others do. *)
Lemma Update_inv {L} others k (cb : slice -> prog (DB * L) bytes) (I J : L -> Prop) rounds db l r db' l' :
  (forall b db l r db' l', I l -> cb b (db, l) = (r, (db', l')) -> match r with Ok _ => I l' | _ => J l' end) ->
  I l -> Update others k cb rounds (db, l) = (r, (db', l')) -> I l' \/ J l'.
Proof.
  intros Hcb. revert db l; induction rounds as [|rounds IH]; intros db l Hl; cbn [Update]; [intros [= _ _ <-]; by left|].
  destruct (md db !! k) as [v|]; [|intros [= _ _ <-]; by left].
  destruct (cb (Some v) _) as [[v'|e|p] [db1 l1]] eqn:E; pose proof (Hcb _ _ _ _ _ _ Hl E) as Hl1.
  2,3: intros [= _ _ <-]; by right.
  destruct (negb _); [by apply IH|]. intros [= _ _ <-]. by left.
Qed.

#[local] Instance mem_db_calls (others : nat -> list op * list op) (rounds : nat) : @MetaDBCalls DB (mem_db others rounds).
Proof.
  refine (@Build_MetaDBCalls _ (mem_db others rounds) (fun _ => false) _).
  intros L k cb I J m l r m' l' Hcb. by apply Update_inv.
Defined.

(** No entry under the empty key. *)
Definition keyed (db : DB) : Prop := md db !! [] = None.

Lemma keyed_put k v db : k <> [] -> keyed db -> keyed (put k v db).
Proof. intros Hk Hd. unfold keyed, put. cbn [md]. by rewrite lookup_insert_ne. Qed.

Lemma keyed_remove k db : keyed db -> keyed (remove k db).
Proof. intros Hd. unfold keyed, remove. cbn [md]. by apply lookup_delete_None; right. Qed.

#[local] Hint Resolve keyed_put keyed_remove : zstor.

(** What [put] does to the entries, as the interface promises it. *)
Lemma put_law k v db : exists n, entry (put k v db) k = Some (v, n) /\ forall k', k' <> k -> entry (put k v db) k' = entry db k'.
Proof.
  exists (u64 (version db k + 1)). split; [|intros k' Hk]; rewrite entry_put; [by rewrite decide_True|by rewrite decide_False].
Qed.

(** Without interference every update ends in its first round, unless its
    callback writes the entry itself. *)
#[local] Instance mem_db_laws (rounds : nat) : @MetaDBLaws DB (mem_db nobody (S rounds)) (mem_db_calls nobody (S rounds)).
Proof.
  refine (@Build_MetaDBLaws _ (mem_db nobody (S rounds)) (mem_db_calls nobody (S rounds)) keyed entry
    (fun k => k <> []) (fun k _ => k <> []) _ _ _ _ _ _ _ _).
  - done.
  - done.
  - intros m k [v n] Hm [Hv _]%entry_Some ->. by rewrite Hm in Hv.
  - intros k v m Hm Hk. destruct (put_law k v m) as (n & He & Ho). exists (put k v m), n. split_and!; auto with zstor.
  - intros k m Hm _. exists m. split_and!; [|done|done]. cbn. unfold Get, entry. by destruct (md m !! k).
  - intros k m Hm _. exists (remove k m). split_and!; [done|auto with zstor| |].
    + rewrite entry_remove. by rewrite decide_True.
    + intros k' Hk. rewrite entry_remove. by rewrite decide_False.
  - intros L k cb m l Hm _ He. exists m. cbn. unfold entry in He. destruct (md m !! k); [done|]. by split_and!.
  - intros L k cb m l v n Hm [Hv Hn]%entry_Some. exists m. split_and!; [done|done|]. intros r m2 l2 Hcb Hm2.
    cbn [md_Update mem_db Update]. rewrite Hv. cbn [nobody fst snd do_ops foldl]. rewrite Hcb.
    destruct r as [v'|e|p]; [|by exists m2..]. intros Hk [Hv2 Hn2]%entry_Some. rewrite Hn2, Hn, Z.eqb_refl. cbn [negb].
    destruct (put_law k v' m2) as (n' & He & Ho). exists (put k v' m2), n'. split_and!; auto with zstor.
Defined.

#[local] Instance mem_db_faults others (rounds : nat) : @MetaDBFaults DB (mem_db others rounds).
Proof.
  refine (@Build_MetaDBFaults _ (mem_db others rounds) (fun db k => md db !! k) _ _).
  - intros k m r m' [= <- <-]. split; [done|]. intros b. destruct (md m !! k) as [v|]; intros [= <-]. by exists v.
  - intros k m r m' [= <- <-]. cbn [remove md]. split; [intros k' Hk; by rewrite lookup_delete_ne|left; by rewrite lookup_delete_eq].
Defined.

(** ** Updates are atomic with respect to other writers *)
Definition touches (k : bytes) (o : op) : bool :=
  match o with OpSet k' _ => bool_decide (k' = k) | OpDelete k' => bool_decide (k' = k) | OpClose => true end.

Definition keeps_entries (k : bytes) (o : op) : bool :=
  match o with OpSet _ _ => true | OpDelete k' => negb (bool_decide (k' = k)) | OpClose => false end.

Lemma do_op_other k o db : touches k o = false -> md (do_op db o) !! k = md db !! k /\ version (do_op db o) k = version db k.
Proof.
  destruct o as [k' v|k'|]; cbn [touches]; [| |done]; rewrite bool_decide_eq_false; intros Hk;
    unfold version; cbn [do_op put remove md versions]; by rewrite ?lookup_insert_ne, ?lookup_delete_ne.
Qed.

(** The version counts the writes to the key. *)
Lemma do_ops_version k l db :
  forallb (keeps_entries k) l = true ->
  u64 (version (do_ops l db) k) = u64 (version db k + Z.of_nat (length (List.filter (touches k) l))) /\
  (List.filter (touches k) l = [] -> md (do_ops l db) !! k = md db !! k).
Proof.
  unfold do_ops. revert db; induction l as [|o l IH]; intros db; cbn [forallb foldl List.filter].
  { intros _. split; [|done]. cbn. by rewrite Z.add_0_r. }
  rewrite andb_true_iff. intros [Ho Hl]. destruct (IH (do_op db o) Hl) as [Hv Hm].
  destruct (touches k o) eqn:Ht.
  - split; [|done]. rewrite Hv. destruct o as [k' v|k'|]; cbn in Ht, Ho; try done.
    + apply bool_decide_eq_true in Ht as ->. unfold version at 1. cbn [do_op put versions]. rewrite lookup_insert_eq.
      cbn [default from_option id length]. unfold u64. rewrite Zplus_mod_idemp_l. f_equal. lia.
    + rewrite Ht in Ho. done.
  - destruct (do_op_other k o db Ht) as [Hm1 Hv1]. rewrite Hv, Hv1. split; [done|]. intros E. by rewrite Hm.
Qed.

(** The same version means the same value, for fewer than [2^64] writes. *)
Lemma same_version k l db :
  forallb (keeps_entries k) l = true -> Z.of_nat (length l) < 2 ^ 64 ->
  version (do_ops l db) k = version db k -> md (do_ops l db) !! k = md db !! k.
Proof.
  intros Hl Hn Hv. destruct (do_ops_version k l db Hl) as [Hc Hm]. apply Hm. rewrite Hv in Hc.
  set (n := length (List.filter (touches k) l)) in *.
  assert (Hle : (n <= length l)%nat) by (apply List.filter_length_le).
  apply nil_length_inv. fold n. unfold u64 in Hc.
  assert (Z.of_nat n mod 2 ^ 64 = 0) as Hz.
  { pose proof (Zminus_mod (version db k + Z.of_nat n) (version db k) (2 ^ 64)) as Hd.
    rewrite <- Hc, Z.sub_diag in Hd. by replace (version db k + Z.of_nat n - version db k) with (Z.of_nat n) in Hd by lia. }
  rewrite Z.mod_small in Hz; lia.
Qed.
(** Two states with the same entry under [k]. *)
Definition agree (k : bytes) (a b : DB) : Prop := md a !! k = md b !! k /\ version a k = version b k.

Lemma do_op_agree k o a b : agree k a b -> agree k (do_op a o) (do_op b o).
Proof.
  intros [Hm Hv]. destruct (touches k o) eqn:Ht.
  - destruct o as [k' v|k'|]; cbn in Ht; [apply bool_decide_eq_true in Ht as ->..|done].
    + split; [cbn; by rewrite !lookup_insert_eq|]. unfold version in *. cbn. rewrite !lookup_insert_eq. cbn.
      unfold version. by rewrite Hv.
    + split; [cbn; by rewrite !lookup_delete_eq|]. unfold version in *. cbn. by rewrite !lookup_delete_eq.
  - destruct (do_op_other k o a Ht) as [Ha1 Ha2], (do_op_other k o b Ht) as [Hb1 Hb2].
    split; congruence.
Qed.

Lemma do_ops_agree k l a b : agree k a b -> agree k (do_ops l a) (do_ops l b).
Proof. unfold do_ops. revert a b; induction l as [|o l IH]; intros a b Hab; [done|]. by apply IH, do_op_agree. Qed.

Section Atomic.
Context {L : Type} (others : nat -> list op * list op) (k : bytes) (cb : slice -> prog (DB * L) bytes).
(** Others write, but do not remove the entry, and write less than [2^64] times
    in a round; the callback leaves the entry alone. *)
Context (Hothers : forall n, forallb (keeps_entries k) ((others n).1 ++ (others n).2) = true)
  (Hcount : forall n, Z.of_nat (length ((others n).1 ++ (others n).2)) < 2 ^ 64)
  (Hcb : forall b s, agree k (cb b s).2.1 s.1).

Lemma round_agree n db l v r db1 l1 :
  cb v (do_ops (others n).1 db, l) = (r, (db1, l1)) ->
  agree k (do_ops (others n).2 db1) (do_ops ((others n).1 ++ (others n).2) db).
Proof using Hcb.
  intros E. specialize (Hcb v (do_ops (others n).1 db, l)). rewrite E in Hcb. cbn [fst snd] in Hcb.
  unfold do_ops at 2. rewrite foldl_app. by apply do_ops_agree.
Qed.

(** An update of the in-memory database is atomic with respect to other
    writers: however often others write the entry while it runs, if it succeeds
    then the value it replaces is the very value its callback computed the new
    one from, in that last attempt, and nothing else changes in that step.  It
    gives up only on a missing entry, on an error of the callback, or as long
    as somebody writes the entry in every round. *)
Theorem update_atomic (rounds : nat) (db : DB) (l : L) (r : outcome unit) (db' : DB) (l' : L) :
  Update others k cb rounds (db, l) = (r, (db', l')) ->
  match r with
  | Ok _ => exists v v' db0 s s', md db0 !! k = Some v /\ cb (Some v) s = (Ok v', s') /\ s'.2 = l' /\ db' = put k v' db0
  | Err e => md db' !! k = None \/ exists v s, cb (Some v) s = (Err e, (db', l'))
  | Panic p => (exists v s, cb (Some v) s = (Panic p, (db', l'))) \/
      p = retrying /\ forall n, (n < rounds)%nat -> existsb (touches k) ((others n).1 ++ (others n).2) = true
  end.
Proof using Hothers Hcount Hcb.
  revert db l; induction rounds as [|n IH]; intros db l; cbn [Update].
  { intros [= <- _ _]. right. split; [done|]. lia. }
  destruct (md db !! k) as [v|] eqn:Hv; [|intros [= <- <- _]; by left].
  destruct (cb (Some v) _) as [[v'|e|p] s] eqn:E; cycle 1.
  { intros [= <- ->]. right. by eexists _, _. } { intros [= <- ->]. left. by eexists _, _. }
  destruct s as [db1 l1]. destruct (round_agree n db l _ _ _ _ E) as [Hm Hver].
  destruct (Z.eqb_spec (version (do_ops (others n).2 db1) k) (version db k)) as [Hsame|Hdiff]; cbn [negb].
  - intros [= <- <- <-]. exists v, v', (do_ops (others n).2 db1), (do_ops (others n).1 db, l), (db1, l1).
    split_and!; [|done|done|done]. rewrite Hm, (same_version k _ db); [done|done|done|congruence].
  - intros Hu. specialize (IH _ _ Hu). destruct r as [[]|e|p]; [done|done|].
    destruct IH as [IH|[-> IH]]; [by left|right; split; [done|]]. intros j Hj.
    destruct (decide (j = n)) as [->|]; [|apply IH; lia].
    apply not_false_is_true. intros Hno. apply Hdiff. rewrite Hver. clear -Hno.
    generalize dependent db. induction ((others n).1 ++ (others n).2) as [|o os IHo]; intros db; [done|].
    cbn [existsb] in Hno. apply orb_false_iff in Hno as [Ho Hno]. cbn [do_ops foldl].
    etrans; [by apply IHo|]. by apply do_op_other.
Qed.
End Atomic.

(** ** Runs *)
Definition kx : bytes := str_bytes "k".

(** The callback appends a byte to the value it is given, and counts its calls. *)
Definition append_bang : slice -> prog (DB * nat) bytes :=
  fun b '(db, n) => (Ok (slice_bytes b ++ str_bytes "!"), (db, S n)).

(** Another writer sets the key during the first of two rounds. *)
Definition one_writer (n : nat) : list op * list op :=
  if (n =? 1)%nat then ([], [OpSet kx (str_bytes "new")]) else ([], []).

Lemma update_atomic_witness :
  exists v v' db0 s s', md db0 !! kx = Some v /\ append_bang (Some v) s = (Ok v', s') /\ s'.2 = 2%nat /\
    put kx (str_bytes "new!") (put kx (str_bytes "new") (put kx (str_bytes "old") New)) = put kx v' db0.
Proof.
  refine (update_atomic one_writer kx append_bang _ _ _ 2 (put kx (str_bytes "old") New) 0%nat (Ok tt) _ _ _).
  - intros n. unfold one_writer. by destruct (n =? 1)%nat.
  - intros n. unfold one_writer. by destruct (n =? 1)%nat.
  - intros b [db n]. split; reflexivity.
  - vm_compute. reflexivity.
Defined.

(** The versions start again when an entry is removed: an update that read the
    entry before it was removed and set anew overwrites a value that its
    callback never saw. *)
Lemma recreated_entry_is_overwritten :
  let others _ := ([], [OpDelete kx; OpSet kx (str_bytes "new")]) in
  let r := Update others kx append_bang 1 (put kx (str_bytes "old") New, 0%nat) in
  r.1 = Ok tt /\ md r.2.1 !! kx = Some (str_bytes "old!").
Proof. by vm_compute. Qed.
End MetaMem.
