(* ===== verification/MetaBadger.v ===== *)
(** * The badger metadata database ([client/metastor/db/badger])

    The embedded store is [Badger.Engine] with the transaction oracle added:
    from the vendored [transaction.go], every commit gets a timestamp, the
    oracle keeps the timestamp of the last commit of each key fingerprint, and
    a transaction that read a key with a later timestamp than its snapshot is
    refused.  [Update] retries for as long as it is refused.  Other goroutines
    are functions from stores to stores that run between the snapshot and the
    callback, and between the callback and the commit.

    A commit takes effect at once, and its timestamps are integers without
    bound; the oracle forgets commits only when no transaction runs, which
    refuses nothing that would otherwise be accepted. *)

From S2P Require Import Prelude Keys DB Badger BadgerInv Spread Pipeline MetaProto MetaProtoProps Metastor.
Open Scope Z_scope.

Module MetaBadger.

(** [mapBadgerError] *)
Definition databaseType : string := "Badger".

Definition mapBadgerError (err : error) : error :=
  if bool_decide (err = Engine.ErrKeyNotFound) then Metastor.ErrNotFound else InternalError databaseType (Some err).

Definition map_error {A} (r : outcome A) : outcome A :=
  match r with Err e => Err (mapBadgerError e) | r => r end.

(** What the model of a run with too few rounds ends with. *)
Definition retrying : string := "still retrying".

Section Database.
(** [fingerprint] is [farm.Fingerprint64] of another package. *)
Context `{Engine.Disk W} (fingerprint : bytes -> Z).

(** ** The oracle *)
Record oracle := { curRead : Z; nextCommit : Z; commits : gmap Z Z }.

Record store := { eng : Engine.badger W; orc : oracle }.

(** A transaction also remembers what it read. *)
Record txn := { tx : Engine.Txn W; readTs : Z; reads : list Z }.

(** The oracle of a store that was opened with [version] as its last commit. *)
Definition opened (version : Z) (d : Engine.badger W) : store :=
  {| eng := d; orc := {| curRead := version; nextCommit := version + 1; commits := ∅ |} |}.

Definition NewTransaction (s : store) : txn :=
  {| tx := Engine.NewTransaction (eng s); readTs := curRead (orc s); reads := [] |}.

Definition with_tx (x : Engine.Txn W) (t : txn) : txn := {| tx := x; readTs := readTs t; reads := reads t |}.

(** A key is tracked before it is looked up, unless the transaction wrote it. *)
Definition txn_Get (key : bytes) (t : txn) : outcome Engine.item * txn :=
  if (length key =? 0)%nat then (Err Engine.ErrEmptyKey, t)
  else match Engine.pendingWrites (tx t) !! key with
  | Some _ => (Engine.tx_Get key (tx t), t)
  | None => (Engine.tx_Get key (tx t), {| tx := tx t; readTs := readTs t; reads := fingerprint key :: reads t |})
  end.

Definition hasConflict (t : txn) (o : oracle) : bool :=
  existsb (fun ro => match commits o !! ro with Some ts => readTs t <? ts | None => false end) (reads t).

(** The timestamp of a commit, recorded for everything it writes. *)
Definition newCommitTs (t : txn) (o : oracle) : oracle :=
  {| curRead := curRead o; nextCommit := nextCommit o + 1;
     commits := map_fold (fun k _ m => <[fingerprint k := nextCommit o]> m) (commits o) (Engine.pendingWrites (tx t)) |}.

Definition doneCommit (cts : Z) (o : oracle) : oracle :=
  {| curRead := Z.max (curRead o) cts; nextCommit := nextCommit o; commits := commits o |}.

(** The commit is recorded before it is written, and stays so if that fails. *)
Definition Commit (t : txn) (s : store) : outcome unit * store :=
  if bool_decide (Engine.pendingWrites (tx t) = ∅) then (Ok tt, s)
  else if hasConflict t (orc s) then (Err Engine.ErrConflict, s)
  else
    let '(r, d) := Engine.Commit (tx t) (eng s) in
    (r, {| eng := d; orc := doneCommit (nextCommit (orc s)) (newCommitTs t (orc s)) |}).

(** [db.badger.Update] with a function that only writes. *)
Definition update (fn : Engine.Txn W -> outcome (Engine.Txn W)) (s : store) : outcome unit * store :=
  match fn (tx (NewTransaction s)) with
  | Ok x => Commit (with_tx x (NewTransaction s)) s
  | Err e => (Err e, s)
  | Panic p => (Panic p, s)
  end.

(** ** [badger.go] *)
Record Options := { SyncWrites : bool; Dir : string; ValueDir : string }.

(** The file system and [badgerdb.Open]: the store, and the last version in it. *)
Context (MkdirAll : string -> option error) (Open : Options -> outcome (Z * Engine.badger W)).

Definition NewWithOpts (opts : Options) : outcome store :=
  match MkdirAll (Dir opts) with
  | Some err => Err err
  | None =>
      match MkdirAll (ValueDir opts) with
      | Some err => Err err
      | None => let! vd := Open opts in Ok (opened vd.1 vd.2)
      end
  end.

Definition New (data meta : string) : outcome store :=
  if (String.length data =? 0)%nat then Err (ErrNew "no data directory defined")
  else if (String.length meta =? 0)%nat then Err (ErrNew "no meta directory defined")
  else NewWithOpts {| SyncWrites := true; Dir := meta; ValueDir := data |}.

Definition Set_ (key metadata : bytes) : prog store unit :=
  fun s => let '(r, s) := update (Engine.tx_Set key metadata) s in (map_error r, s).

Definition Get (key : bytes) : prog store slice :=
  pread (fun s =>
    map_error (let! v := Engine.View (fun x => let! item := Engine.tx_Get key x in Engine.item_Value item x) (eng s) in
      Ok (Some v))).

Definition Delete (key : bytes) : prog store unit :=
  fun s => let '(r, s) := update (Engine.tx_Delete key) s in (map_error r, s).

Section Update.
Context {L : Type} (others : nat -> (store -> store) * (store -> store)) (key : bytes) (cb : slice -> prog (store * L) bytes).

(** One call of [db.badger.Update]; the error of the callback is not mapped,
    and neither is that of the commit. *)
Definition attempt (n : nat) : prog (store * L) unit := fun '(s, l) =>
  match txn_Get key (NewTransaction s) with
  | (Err e, _) => (Err (mapBadgerError e), (s, l))
  | (Panic p, _) => (Panic p, (s, l))
  | (Ok item, t) =>
      match Engine.item_Value item (tx t) with
      | Err e => (Err (mapBadgerError e), (s, l))
      | Panic p => (Panic p, (s, l))
      | Ok metadata =>
          match cb (Some metadata) ((others n).1 s, l) with
          | (Err e, sl) => (Err e, sl)
          | (Panic p, sl) => (Panic p, sl)
          | (Ok metadata, (s, l)) =>
              match Engine.tx_Set key metadata (tx t) with
              | Err e => (Err (mapBadgerError e), (s, l))
              | Panic p => (Panic p, (s, l))
              | Ok x => let '(r, s) := Commit (with_tx x t) ((others n).2 s) in (r, (s, l))
              end
          end
      end
  end.

(** The loop, for [rounds] rounds. *)
Fixpoint Update (rounds : nat) : prog (store * L) unit :=
  match rounds with
  | O => ppanic retrying
  | S n => fun sl =>
      match attempt n sl with
      | (Err e, sl) => if bool_decide (e = Engine.ErrConflict) then Update n sl else (Err e, sl)
      | r => r
      end
  end.
End Update.

(** The error of closing the store is mapped, and dropped. *)
Definition Close : prog store unit := fun s =>
  match Engine.close_fault (Engine.disk (eng s)) with
  | Some err => let _ := mapBadgerError err in (Ok tt, s)
  | None => (Ok tt, s)
  end.

(** ** Garbage collection: it changes no pair, and reports to the log. *)
Definition ErrNoRewrite := ErrVar "badger" "ErrNoRewrite" "Value log GC attempt didn't result in any cleanup".

(** What [PurgeOlderVersions] and [RunValueLogGC] report at a tick. *)
Inductive gc_event := Tick (purge gc : option error) | CtxDone.

Inductive log_entry := Debugf (e : error) | Errorf (e : error).

Definition collectGarbage (purge gc : option error) : option error :=
  match purge with Some err => Some err | None => gc end.

Fixpoint runGC (events : list gc_event) : list log_entry :=
  match events with
  | [] => []
  | CtxDone :: _ => []
  | Tick purge gc :: rest =>
      match collectGarbage purge gc with
      | Some err => (if bool_decide (err = ErrNoRewrite) then Debugf err else Errorf err) :: runGC rest
      | None => runGC rest
      end
  end.
End Database.
Arguments store : clear implicits.
Arguments txn : clear implicits.

(** ** What a commit does *)

(** The pairs after the writes of a transaction. *)
Lemma apply_writes_lookup (ws : Engine.writes) m k :
  map_fold Engine.apply_write m ws !! k = match ws !! k with Some o => o | None => m !! k end.
Proof.
  induction ws as [|i o ws Hi Hfst IH] using map_first_key_ind; [done|].
  rewrite map_fold_insert_first_key by done. destruct (decide (i = k)) as [->|Hne].
  - rewrite lookup_insert_eq. destruct o; cbn [Engine.apply_write]; [by rewrite lookup_insert_eq|by rewrite lookup_delete_eq].
  - rewrite lookup_insert_ne, <- IH by done.
    destruct o; cbn [Engine.apply_write]; [by rewrite lookup_insert_ne|by rewrite lookup_delete_ne].
Qed.

Lemma stamp_lookup (fp : bytes -> Z) (ts : Z) (ws : Engine.writes) (m : gmap Z Z) f :
  let m' := map_fold (fun k _ m => <[fp k := ts]> m) m ws in
  (exists k, is_Some (ws !! k) /\ fp k = f) /\ m' !! f = Some ts \/ (forall k, is_Some (ws !! k) -> fp k <> f) /\ m' !! f = m !! f.
Proof.
  cbv zeta. induction ws as [|i o ws Hi Hfst IH] using map_first_key_ind.
  { right. split; [|done]. intros k [? Hk]. by rewrite lookup_empty in Hk. }
  rewrite map_fold_insert_first_key by done. destruct (decide (fp i = f)) as [<-|Hne].
  { left. rewrite lookup_insert_eq. split; [|done]. exists i. by rewrite lookup_insert_eq. }
  rewrite lookup_insert_ne by done. destruct IH as [[(k & Hk & Hf) IH]|[Hno IH]]; [left|right]; (split; [|done]).
  - exists k. split; [|done]. rewrite lookup_insert_ne; [done|]. by intros ->.
  - intros k [x Hk]. apply lookup_insert_Some in Hk as [[<- _]|[_ Hk]]; [done|]. apply Hno. by exists x.
Qed.

Section Commits.
Context `{Engine.Disk W} (fingerprint : bytes -> Z).
Local Abbreviation store := (store W).
Implicit Types (s : store) (t : txn W).

Definition pairs s : gmap bytes bytes := Engine.content (eng s).

(** Steps of other goroutines: transactions that commit, or fail to. *)
Inductive step : relation store :=
  | step_commit t s r s' : Commit fingerprint t s = (r, s') -> step s s'.

(** Since a snapshot at [ts] in which [k] had the value [v], either nobody wrote
    the key, or the oracle knows. *)
Definition since (k : bytes) (v : option bytes) (ts : Z) s : Prop :=
  ts < nextCommit (orc s) /\ (pairs s !! k = v \/ exists ts', commits (orc s) !! fingerprint k = Some ts' /\ ts < ts').

Lemma Commit_cases t s r s' :
  Commit fingerprint t s = (r, s') ->
  s' = s \/
  orc s' = doneCommit (nextCommit (orc s)) (newCommitTs fingerprint t (orc s)) /\
  (pairs s' = pairs s \/ pairs s' = map_fold Engine.apply_write (pairs s) (Engine.pendingWrites (tx t))).
Proof using.
  unfold Commit, Engine.Commit, pairs. repeat case_match; intros [= <- <-]; simplify_eq/=; auto.
Qed.

Lemma step_since k v ts s s' : step s s' -> since k v ts s -> since k v ts s'.
Proof using.
  intros [t ? r ? Hc] [Hlt Hv]. destruct (Commit_cases _ _ _ _ Hc) as [->|[Ho Hp]]; [by split|].
  unfold since. rewrite Ho. cbn [doneCommit newCommitTs nextCommit commits]. split; [lia|].
  destruct (stamp_lookup fingerprint (nextCommit (orc s0)) (Engine.pendingWrites (tx t)) (commits (orc s0)) (fingerprint k))
    as [[_ ->]|[Hno ->]]; [by right; eauto|].
  destruct Hv as [Hv|Hv]; [left|by right]. assert (Hk : Engine.pendingWrites (tx t) !! k = None).
  { apply eq_None_not_Some. intros Hs. by apply (Hno k Hs). }
  destruct Hp as [-> | ->]; [done|]. by rewrite apply_writes_lookup, Hk.
Qed.

Lemma steps_since k v ts s s' : rtc step s s' -> since k v ts s -> since k v ts s'.
Proof using. induction 1 as [|s1 s2 s3 Hstep _ IH]; [done|]. intros Hs. by eapply IH, step_since. Qed.

(** The oracle is ahead of everything that was committed. *)
Record sound s : Prop := {
  sound_read : 0 <= curRead (orc s) < nextCommit (orc s);
  sound_commits f ts : commits (orc s) !! f = Some ts -> ts <= curRead (orc s);
}.

Lemma Commit_sound t s r s' : Commit fingerprint t s = (r, s') -> sound s -> sound s'.
Proof using.
  intros Hc [Hr Hs]. destruct (Commit_cases _ _ _ _ Hc) as [->|[Ho _]]; [by split|].
  split; rewrite Ho; cbn [doneCommit newCommitTs curRead nextCommit commits]; [lia|]. intros f ts.
  destruct (stamp_lookup fingerprint (nextCommit (orc s)) (Engine.pendingWrites (tx t)) (commits (orc s)) f)
    as [[_ ->]|[_ ->]]; [intros [= <-]; lia|]. intros Hts. apply Hs in Hts. lia.
Qed.

Lemma steps_sound s s' : rtc (step) s s' -> sound s -> sound s'.
Proof using. induction 1 as [|s1 s2 s3 [t ? r ? Hc] _ IH]; [done|]. intros Hs. by eapply IH, Commit_sound. Qed.

(** Every operation of the database is such a step. *)
Lemma update_steps fn s : rtc step s (update fingerprint fn s).2.
Proof using.
  unfold update. destruct (fn _) as [x|e|p]; [|apply rtc_refl..].
  destruct (Commit fingerprint _ s) as [r s'] eqn:E. apply rtc_once. by econstructor.
Qed.

Lemma Set_steps k v s : rtc step s (Set_ fingerprint k v s).2.
Proof using. unfold Set_. pose proof (update_steps (Engine.tx_Set k v) s) as Hs. by destruct (update _ _ s). Qed.

Lemma Delete_steps k s : rtc step s (Delete fingerprint k s).2.
Proof using. unfold Delete. pose proof (update_steps (Engine.tx_Delete k) s) as Hs. by destruct (update _ _ s). Qed.

Lemma opened_sound version d : 0 <= version -> sound (opened version d).
Proof using. split; cbn; [lia|]. intros f ts. by rewrite lookup_empty. Qed.

(** A read of a new transaction. *)
Lemma txn_Get_new key s :
  key <> [] -> txn_Get fingerprint key (NewTransaction s) =
    (Engine.tx_Get key (Engine.NewTransaction (eng s)),
     {| tx := Engine.NewTransaction (eng s); readTs := curRead (orc s); reads := [fingerprint key] |}).
Proof using. intros Hk. unfold txn_Get. destruct key; [done|]. cbn. by rewrite lookup_empty. Qed.

Lemma tx_Get_pairs key s item :
  Engine.tx_Get key (Engine.NewTransaction (eng s)) = Ok item ->
  key <> [] /\ pairs s !! key = Some (Engine.val_ item).
Proof using.
  unfold Engine.tx_Get, pairs. destruct key as [|b key]; [done|]. cbn [length Nat.eqb Engine.NewTransaction Engine.pendingWrites Engine.snapshot].
  rewrite lookup_empty. repeat case_match; try done. intros [= <-]. by split.
Qed.

(** The transaction of an attempt: it read the key and writes it. *)
Definition attempt_txn (key v : bytes) s : txn W :=
  {| tx := Engine.record_write key (Some v) (tx (NewTransaction s)); readTs := curRead (orc s); reads := [fingerprint key] |}.

(** Only its reads and writes matter for a commit. *)
Lemma Commit_same t t' s :
  Engine.pendingWrites (tx t') = Engine.pendingWrites (tx t) -> readTs t' = readTs t -> reads t' = reads t ->
  Commit fingerprint t' s = Commit fingerprint t s.
Proof using.
  intros Hp Hr Hs. unfold Commit, Engine.Commit, hasConflict, newCommitTs. by rewrite Hp, Hr, Hs.
Qed.

(** A commit of an attempt: refused when the key was written since, and
    otherwise it replaces the value that was read. *)
Lemma commit_attempt key v s0 s r s' :
  Commit fingerprint (attempt_txn key v s0) s = (r, s') -> since key (pairs s0 !! key) (curRead (orc s0)) s ->
  match r with
  | Ok _ => pairs s !! key = pairs s0 !! key /\ pairs s' = <[key := v]> (pairs s)
  | Err e => pairs s' = pairs s
  | Panic _ => False
  end.
Proof using.
  intros Hc [_ Hs]. unfold Commit, Engine.Commit, hasConflict in Hc. cbn [attempt_txn tx reads readTs existsb NewTransaction] in Hc.
  cbn [Engine.record_write Engine.pendingWrites Engine.NewTransaction] in Hc.
  rewrite insert_empty, bool_decide_eq_false_2 in Hc by apply map_non_empty_singleton. rewrite orb_false_r in Hc.
  destruct (match commits _ !! _ with Some ts => _ | None => _ end) eqn:Hconf; [by injection Hc as <- <-|].
  destruct (Engine.commit_fault _ _) as [[e|] w]; injection Hc as <- <-; [done|]. unfold pairs at 3. cbn [eng Engine.content].
  rewrite map_fold_singleton. cbn [Engine.apply_write]. split; [|done].
  destruct Hs as [Hs|(ts & Hts & Hlt)]; [done|]. rewrite Hts in Hconf. apply Z.ltb_ge in Hconf. lia.
Qed.
End Commits.

(** ** Updates *)
Section Updates.
Context `{Engine.Disk W} (fingerprint : bytes -> Z) {L : Type}.
Local Abbreviation store := (store W).
Context (others : nat -> (store -> store) * (store -> store)) (key : bytes) (cb : slice -> prog (store * L) bytes).

(** One attempt: the value cannot be read, or the callback is called with it;
    then its result cannot be written, or is committed. *)
Lemma attempt_cases n s l r s' l' :
  attempt fingerprint others key cb n (s, l) = (r, (s', l')) ->
  (exists e, r = Err (mapBadgerError e) /\ s' = s /\ l' = l) \/
  exists v x s1 l1, pairs s !! key = Some v /\ cb (Some v) ((others n).1 s, l) = (x, (s1, l1)) /\ l' = l1 /\
    match x with
    | Ok v' => (exists e, r = Err (mapBadgerError e) /\ s' = s1) \/
        Commit fingerprint (attempt_txn fingerprint key v' s) ((others n).2 s1) = (r, s')
    | Err e => r = Err e /\ s' = s1
    | Panic p => r = Panic p /\ s' = s1
    end.
Proof using.
  unfold attempt. destruct (txn_Get fingerprint key (NewTransaction s)) as [[item|e|p] t] eqn:Hg;
    [|intros [= <- <- <-]; left; by exists e|].
  2: { exfalso. unfold txn_Get, Engine.tx_Get in Hg. repeat case_match; by simplify_eq. }
  assert (Hk : key <> []) by (intros ->; by unfold txn_Get in Hg).
  rewrite txn_Get_new in Hg by done. injection Hg as Hg <-. apply tx_Get_pairs in Hg as [_ Hv]. cbn [tx].
  destruct (Engine.item_Value item _) as [v|e|p] eqn:Hval; [|intros [= <- <- <-]; left; by exists e|].
  2: { exfalso. unfold Engine.item_Value in Hval. repeat case_match; by simplify_eq. }
  assert (v = Engine.val_ item) as -> by (unfold Engine.item_Value in Hval; repeat case_match; by simplify_eq).
  destruct (cb _ _) as [[v'|e|p] [s1 l1]] eqn:Hcb.
  2, 3: intros [= <- <- <-]; right; by eexists _, _, _, _.
  destruct (Engine.tx_Set key v' _) as [x|e|p] eqn:Hset.
  - destruct (Commit _ _ _) as [r1 s2] eqn:Hc. intros [= <- <- <-]. right. eexists _, _, _, _. split_and!; [done..|right].
    rewrite <- Hc. apply Commit_same; [|done..]. unfold Engine.tx_Set, Engine.checkSize, obind in Hset.
    repeat case_match; try done. by simplify_eq.
  - intros [= <- <- <-]. right. eexists _, _, _, _. split_and!; [done..|left]. by exists e.
  - exfalso. unfold Engine.tx_Set, Engine.checkSize, obind in Hset. repeat case_match; by simplify_eq.
Qed.

(** Only the callback changes its variables. *)
Lemma badger_Update_inv (I J : L -> Prop) rounds s l r s' l' :
  (forall b s l r s' l', I l -> cb b (s, l) = (r, (s', l')) ->
     match r with Ok _ => I l' | Err e => if bool_decide (e = Engine.ErrConflict) then I l' else J l' | Panic _ => J l' end) ->
  I l -> Update fingerprint others key cb rounds (s, l) = (r, (s', l')) -> I l' \/ J l'.
Proof using.
  intros Hcb. revert s l; induction rounds as [|n IH]; intros s l Hl; cbn [Update]; [intros [= _ _ <-]; by left|].
  destruct (attempt _ _ _ _ n (s, l)) as [r1 [s1 l1]] eqn:Ha.
  destruct (attempt_cases _ _ _ _ _ _ Ha) as [(e & -> & -> & ->)|(v & x & s2 & l2 & _ & Hc & -> & Hx)].
  { case_bool_decide; [by apply IH|]. intros [= _ _ <-]. by left. }
  specialize (Hcb _ _ _ _ _ _ Hl Hc). destruct x as [v'|e|p].
  - destruct r1 as [[]|e|p]; [intros [= _ _ <-]; by left| |intros [= _ _ <-]; by left].
    case_bool_decide; [by apply IH|]. intros [= _ _ <-]. by left.
  - destruct Hx as [-> ->]. case_bool_decide; [by apply IH|]. intros [= _ _ <-]. by right.
  - destruct Hx as [-> ->]. intros [= _ _ <-]. by right.
Qed.

(** Other goroutines, and the callback, run transactions. *)
Context (Hothers : forall n s, rtc (step fingerprint) s ((others n).1 s) /\ rtc (step fingerprint) s ((others n).2 s))
  (Hcb : forall b s l, rtc (step fingerprint) s (cb b (s, l)).2.1).

(** A round in which nobody writes: not the others, not the callback where the
    oracle could confuse it with the key, and not the disk. *)
Definition quiet (n : nat) : Prop :=
  (forall s, (others n).1 s = s /\ (others n).2 s = s) /\
  (forall b s l, commits (orc (cb b (s, l)).2.1) !! fingerprint key = commits (orc s) !! fingerprint key) /\
  (forall b sl sl', cb b sl <> (Err Engine.ErrConflict, sl')) /\
  (forall ws w w', Engine.commit_fault ws w <> (Some Engine.ErrConflict, w')).

Lemma attempt_sound n s l r s' l' :
  sound s -> attempt fingerprint others key cb n (s, l) = (r, (s', l')) -> sound s'.
Proof using Hothers Hcb.
  intros Hs Ha. destruct (attempt_cases _ _ _ _ _ _ Ha) as [(e & _ & -> & _)|(v & x & s2 & l2 & _ & Hc & _ & Hx)]; [done|].
  assert (Hs2 : sound s2).
  { pose proof (steps_sound _ _ _ (proj1 (Hothers n s)) Hs) as H1. pose proof (Hcb (Some v) ((others n).1 s) l) as H2.
    rewrite Hc in H2. by apply (steps_sound _ _ _ H2). }
  destruct x as [v'|e|p]; [|by destruct Hx as [_ ->]..]. destruct Hx as [(e & _ & ->)|Hx]; [done|].
  eapply Commit_sound; [exact Hx|]. by apply (steps_sound _ _ _ (proj2 (Hothers n s2))).
Qed.

Lemma quiet_attempt n s l s' l' :
  quiet n -> sound s -> attempt fingerprint others key cb n (s, l) <> (Err Engine.ErrConflict, (s', l')).
Proof using.
  intros (Hn & Hkey & Hc & Hd) Hs Ha. destruct (attempt_cases _ _ _ _ _ _ Ha) as [(e & He & _)|(v & x & s2 & l2 & Hv & Hcall & -> & Hx)].
  { unfold mapBadgerError, InternalError in He. by case_bool_decide. }
  destruct x as [v'|e|p]; [|destruct Hx as [[= <-] _]; by eapply Hc|by destruct Hx].
  destruct Hx as [(e & He & _)|Hx]; [unfold mapBadgerError, InternalError in He; by case_bool_decide|].
  specialize (Hkey (Some v) s l). destruct (Hn s) as [E _]. rewrite E in Hcall. rewrite Hcall in Hkey. cbn [fst snd] in Hkey.
  destruct (Hn s2) as [_ E2]. rewrite E2 in Hx. unfold Commit, Engine.Commit, hasConflict in Hx.
  cbn [attempt_txn tx reads readTs existsb NewTransaction Engine.record_write Engine.pendingWrites Engine.NewTransaction] in Hx.
  rewrite insert_empty, bool_decide_eq_false_2 in Hx by apply map_non_empty_singleton. rewrite orb_false_r, Hkey in Hx.
  destruct (commits (orc s) !! fingerprint key) as [ts|] eqn:Hts.
  - apply (sound_commits _ Hs) in Hts. destruct (Z.ltb_spec (curRead (orc s)) ts); [lia|].
    destruct (Engine.commit_fault _ _) as [[e|] w] eqn:Hf; [|done]. injection Hx as -> _; by eapply Hd.
  - destruct (Engine.commit_fault _ _) as [[e|] w] eqn:Hf; [|done]. injection Hx as -> _; by eapply Hd.
Qed.

(** What an attempt means, if it is not a conflict. *)
Lemma attempt_atomic n s l r s' l' :
  sound s -> attempt fingerprint others key cb n (s, l) = (r, (s', l')) ->
  match r with
  | Ok _ => exists v v' s0 sl sl', pairs s0 !! key = Some v /\ cb (Some v) sl = (Ok v', sl') /\
      rtc (step fingerprint) sl'.1 s0 /\ l' = sl'.2 /\ pairs s' = <[key := v']> (pairs s0)
  | Err e => (exists e0, e = mapBadgerError e0) \/ (exists v sl, cb (Some v) sl = (Err e, (s', l'))) \/
       exists t s0, Commit fingerprint t s0 = (Err e, s') /\ pairs s' = pairs s0
  | Panic p => exists v sl, cb (Some v) sl = (Panic p, (s', l'))
  end.
Proof using Hothers Hcb.
  intros Hs Ha. destruct (attempt_cases _ _ _ _ _ _ Ha) as [(e & -> & _)|(v & x & s2 & l2 & Hv & Hc & -> & Hx)]; [eauto|].
  destruct x as [v'|e|p]; [|destruct Hx as [-> ->]; eauto..]. destruct Hx as [(e & -> & _)|Hx]; [eauto|].
  assert (Hsince : since fingerprint key (pairs s !! key) (curRead (orc s)) ((others n).2 s2)).
  { apply (steps_since _ _ _ _ s2); [apply Hothers|]. pose proof (Hcb (Some v) ((others n).1 s) l) as H2. rewrite Hc in H2.
    apply (steps_since _ _ _ _ _ _ H2). apply (steps_since _ _ _ _ s); [apply Hothers|]. split; [apply Hs|by left]. }
  pose proof (commit_attempt _ _ _ _ _ _ _ Hx Hsince) as Hr. destruct r as [[]|e|p]; [|eauto 10|done].
  destruct Hr as [Hsame Hput]. eexists v, v', ((others n).2 s2), _, _.
  split_and!; [by rewrite Hsame|exact Hc|apply Hothers|done|done].
Qed.

(** C12. An update of the badger metadata database is atomic: whatever
    transactions other goroutines run while it works, before, during and after
    the calls of its callback, a success means that the value it replaced was
    the very value from which its callback computed the new one in that last
    attempt, and that nothing else changed in that commit.  Its error is the
    callback's own, or one of the store that it could not read or write, and
    then its commit has changed nothing; it is never a conflict.  It goes on for ever
    only if no round is quiet. *)
Theorem badger_update_atomic (rounds : nat) (s : store) (l : L) (r : outcome unit) (s' : store) (l' : L) :
  sound s -> Update fingerprint others key cb rounds (s, l) = (r, (s', l')) ->
  match r with
  | Ok _ => exists v v' s0 sl sl', pairs s0 !! key = Some v /\ cb (Some v) sl = (Ok v', sl') /\
      rtc (step fingerprint) sl'.1 s0 /\ l' = sl'.2 /\ pairs s' = <[key := v']> (pairs s0)
  | Err e => e <> Engine.ErrConflict /\
      ((exists e0, e = mapBadgerError e0) \/ (exists v sl, cb (Some v) sl = (Err e, (s', l'))) \/
       exists t s0, Commit fingerprint t s0 = (Err e, s') /\ pairs s' = pairs s0)
  | Panic p => (exists v sl, cb (Some v) sl = (Panic p, (s', l'))) \/ p = retrying /\ forall n, (n < rounds)%nat -> ~ quiet n
  end.
Proof using Hothers Hcb.
  revert s l; induction rounds as [|n IH]; intros s l Hs; cbn [Update].
  { intros [= <- _ _]. right. split; [done|]. lia. }
  destruct (attempt _ _ _ _ n (s, l)) as [r1 [s1 l1]] eqn:Ha. pose proof (attempt_atomic _ _ _ _ _ _ Hs Ha) as Hr1.
  destruct r1 as [[]|e|p]; [by intros [= <- <- <-]| |intros [= <- <- <-]; by left].
  case_bool_decide as He; [|intros [= <- <- <-]; by split]. subst e. intros Hu.
  specialize (IH _ _ (attempt_sound _ _ _ _ _ _ Hs Ha) Hu). destruct r as [[]|e|p]; [done|done|].
  destruct IH as [IH|[-> IH]]; [by left|right; split; [done|]]. intros k Hk Hq.
  destruct (decide (k = n)) as [->|]; [by eapply quiet_attempt|by apply (IH k); [lia|]].
Qed.
End Updates.

(** ** The database as an implementation of the interface *)
#[local] Instance badger_db `{Engine.Disk W} (fingerprint : bytes -> Z)
    (others : nat -> (store W -> store W) * (store W -> store W)) (rounds : nat) : MetaDB (store W) := {|
  md_Set := Set_ fingerprint; md_Get := Get; md_Delete := Delete fingerprint;
  md_Update L key cb := Update fingerprint others key cb rounds;
  md_Close := Close;
|}.

Lemma map_error_Ok {A} (r : outcome A) a : map_error r = Ok a -> r = Ok a.
Proof. by destruct r. Qed.

(** Whatever the disk does. *)
#[local] Instance badger_db_faults `{Engine.Disk W} (fingerprint : bytes -> Z)
    (others : nat -> (store W -> store W) * (store W -> store W)) (rounds : nat) :
  @MetaDBFaults (store W) (badger_db fingerprint others rounds).
Proof.
  refine (@Build_MetaDBFaults _ (badger_db fingerprint others rounds) (fun s k => Engine.content (eng s) !! k) _ _).
  - intros k s r s'. cbn [md_Get badger_db]. unfold Get, pread. intros [= <- <-]. split; [done|].
    intros b (v & Hv & [= <-])%map_error_Ok%obind_Ok_inv. exists v. split; [done|].
    unfold Engine.View in Hv. apply obind_Ok_inv in Hv as (item & Hi & Hv). unfold Engine.tx_Get in Hi.
    destruct (length k =? 0)%nat; [done|]. cbn [Engine.NewTransaction Engine.pendingWrites Engine.snapshot] in Hi. rewrite lookup_empty in Hi.
    destruct (Engine.get_fault _ _); [done|]. destruct (Engine.content (eng s) !! k) as [x|]; [|done]. injection Hi as <-.
    unfold Engine.item_Value in Hv. cbn in Hv. destruct (Engine.value_fault _ _); [done|]. by injection Hv as ->.
  - intros k s r s'. cbn [md_Delete badger_db]. unfold Delete, update, Engine.tx_Delete.
    destruct (length k =? 0)%nat; [by intros [= <- <-]; split; [|right]|].
    destruct (_ <? _); [by intros [= <- <-]; split; [|right]|]. unfold Engine.checkSize. cbv zeta.
    destruct (_ || _); cbn [obind]; [by intros [= <- <-]; split; [|right]|].
    unfold Commit. cbn [with_tx tx Engine.record_write Engine.pendingWrites Engine.NewTransaction NewTransaction].
    rewrite bool_decide_eq_false_2 by apply insert_non_empty. destruct (hasConflict _ _); [by intros [= <- <-]; split; [|right]|].
    unfold Engine.Commit. cbn [Engine.pendingWrites]. rewrite bool_decide_eq_false_2 by apply insert_non_empty.
    destruct (Engine.commit_fault _ _) as [[e|] w]; intros [= <- <-]; cbn [eng Engine.content]; [by split; [|right]|].
    rewrite insert_empty, map_fold_singleton. cbn [Engine.apply_write].
    split; [intros k' Hk; by rewrite lookup_delete_ne|left; by rewrite lookup_delete_eq].
Defined.

#[local] Instance badger_db_calls `{Engine.Disk W} (fingerprint : bytes -> Z)
    (others : nat -> (store W -> store W) * (store W -> store W)) (rounds : nat) :
  @MetaDBCalls (store W) (badger_db fingerprint others rounds).
Proof.
  refine (@Build_MetaDBCalls _ (badger_db fingerprint others rounds) (fun e => bool_decide (e = Engine.ErrConflict)) _).
  intros L k cb I J m l r m' l' Hcb. by apply badger_Update_inv.
Defined.

(** A disk without faults, from some state on. *)
Class Healthy (W : Type) `{Engine.Disk W} := {
  healthy : W -> Prop;
  healthy_get k w : healthy w -> Engine.get_fault k w = None;
  healthy_value k w : healthy w -> Engine.value_fault k w = None;
  healthy_commit ws w : healthy w -> exists w', Engine.commit_fault ws w = (None, w') /\ healthy w';
}.

Definition nobody {W} (_ : nat) : (store W -> store W) * (store W -> store W) := (fun s => s, fun s => s).

Section Laws.
(** No two keys in use have the same fingerprint. *)
Context `{Healthy W} (fingerprint : bytes -> Z) (inuse : bytes -> Prop)
  (Hfp : forall k k', inuse k -> inuse k' -> fingerprint k = fingerprint k' -> k = k').
Local Abbreviation store := (store W).
Implicit Types (s : store).

Definition entry s (k : bytes) : option (bytes * Z) :=
  v ← pairs s !! k; Some (v, default 0 (commits (orc s) !! fingerprint k)).

Definition key_ok (k : bytes) : Prop := inuse k /\ k <> [] /\ Z.of_nat (length k) <= Engine.maxKeySize.
Definition fits (k v : bytes) : Prop := key_ok k /\ Z.of_nat (length v) <= Engine.ValueLogFileSize.

Record available s : Prop := {
  av_sound : sound s;
  av_disk : healthy (Engine.disk (eng s));
  av_keys k v : pairs s !! k = Some v -> key_ok k;
}.

Lemma badger_entry_Some s k v n : entry s k = Some (v, n) <-> pairs s !! k = Some v /\ n = default 0 (commits (orc s) !! fingerprint k).
Proof using. unfold entry. destruct (pairs s !! k); cbn; naive_solver. Qed.

Lemma checkSize_ok k v (d : Engine.badger W) :
  Z.of_nat (length k) <= Engine.maxKeySize -> exists x,
    Engine.checkSize k v (Engine.NewTransaction d) = Ok x /\ Engine.pendingWrites x = ∅.
Proof using.
  intros Hk. unfold Engine.checkSize. set (c := (_ <=? _) || _).
  assert (c = false) as -> by (unfold c; apply orb_false_iff; split; [by vm_compute|]; apply Z.leb_gt;
    unfold Engine.estimateSize; cbn [Engine.NewTransaction Engine.txn_size];
    change Engine.maxBatchSize with 10066329; change Engine.maxKeySize with 65536 in Hk;
    change (Z.of_nat (length Engine.txnKey)) with 11; change Engine.ValueThreshold with 20;
    destruct (Z.ltb_spec (Z.of_nat (length v)) 20); lia).
  by eexists.
Qed.

Lemma badger_tx_Set_fits k v (d : Engine.badger W) :
  fits k v -> exists x, Engine.tx_Set k v (Engine.NewTransaction d) = Ok x /\ Engine.pendingWrites x = {[k := Some v]}.
Proof using.
  intros ((_ & Hne & Hk) & Hv). unfold Engine.tx_Set. rewrite length_nonempty by done.
  destruct (Z.ltb_spec Engine.maxKeySize (Z.of_nat (length k))); [lia|].
  destruct (Z.ltb_spec Engine.ValueLogFileSize (Z.of_nat (length v))); [lia|].
  destruct (checkSize_ok k v d Hk) as (x & -> & Hx). eexists. split; [done|]. cbn. by rewrite Hx.
Qed.

Lemma tx_Delete_fits k (d : Engine.badger W) :
  key_ok k -> exists x, Engine.tx_Delete k (Engine.NewTransaction d) = Ok x /\ Engine.pendingWrites x = {[k := None]}.
Proof using.
  intros (_ & Hne & Hk). unfold Engine.tx_Delete. rewrite length_nonempty by done.
  destruct (Z.ltb_spec Engine.maxKeySize (Z.of_nat (length k))); [lia|].
  destruct (checkSize_ok k [] d Hk) as (x & -> & Hx). eexists. split; [done|]. cbn. by rewrite Hx.
Qed.

(** The commit of one write on a healthy disk. *)
Lemma commit_law t k o s :
  available s -> key_ok k -> hasConflict t (orc s) = false -> Engine.pendingWrites (tx t) = {[k := o]} ->
  exists s', Commit fingerprint t s = (Ok tt, s') /\ available s' /\
    (exists n, entry s' k = (v ← o; Some (v, n))) /\ forall k', k' <> k -> entry s' k' = entry s k'.
Proof using Hfp.
  intros [Hs Hd Hk] Hkk Hc Hp. destruct (Commit fingerprint t s) as [r s'] eqn:Hcom.
  pose proof (Commit_sound _ _ _ _ _ Hcom Hs) as Hs'. unfold Commit, newCommitTs in Hcom.
  rewrite Hp, bool_decide_eq_false_2, Hc in Hcom by apply map_non_empty_singleton.
  rewrite (BadgerInv.Commit_one _ _ _ _ Hp) in Hcom. unfold BadgerInv.commit_one in Hcom.
  destruct (healthy_commit {[k := o]} _ Hd) as (w & Hw & Hw'). rewrite Hw, map_fold_singleton in Hcom.
  injection Hcom as <- Hs''.
  assert (Hpairs : pairs s' = Engine.apply_write k o (pairs s)) by (by subst s').
  assert (Hcommits : commits (orc s') = <[fingerprint k := nextCommit (orc s)]> (commits (orc s))) by (by subst s').
  exists s'. split; [done|]. split_and!.
  - split; [done|by subst s'|]. intros k' v. rewrite Hpairs. destruct o as [x|]; cbn [Engine.apply_write].
    + intros [[<- _]|[_ Hv]]%lookup_insert_Some; [done|]. by apply (Hk k' v).
    + intros [_ Hv]%lookup_delete_Some. by apply (Hk k' v).
  - exists (nextCommit (orc s)). unfold entry. rewrite Hpairs, Hcommits. destruct o as [x|]; cbn [Engine.apply_write].
    + by rewrite !lookup_insert_eq.
    + by rewrite lookup_delete_eq.
  - intros k' Hne. unfold entry. rewrite Hpairs, Hcommits.
    assert (Engine.apply_write k o (pairs s) !! k' = pairs s !! k') as ->.
    { destruct o; cbn [Engine.apply_write]; [by rewrite lookup_insert_ne|by rewrite lookup_delete_ne]. }
    destruct (pairs s !! k') as [v'|] eqn:Hv'; [|done]. cbn. do 2 f_equal. rewrite lookup_insert_ne; [done|].
    intros E. apply Hne. symmetry. apply Hfp; [apply Hkk|by apply (Hk k' v')|done].
Qed.

Lemma read_law k s : available s -> k <> [] ->
  Engine.tx_Get k (Engine.NewTransaction (eng s)) =
    match pairs s !! k with
    | Some v => Ok {| Engine.key_ := k; Engine.val_ := v; Engine.prefetched := false |}
    | None => Err Engine.ErrKeyNotFound
    end.
Proof using.
  intros Hs Hk. unfold Engine.tx_Get, pairs. rewrite length_nonempty by done.
  cbn [Engine.NewTransaction Engine.pendingWrites Engine.snapshot]. by rewrite lookup_empty, healthy_get by apply Hs.
Qed.

Lemma value_law k v s : available s ->
  Engine.item_Value {| Engine.key_ := k; Engine.val_ := v; Engine.prefetched := false |} (Engine.NewTransaction (eng s)) = Ok v.
Proof using. intros Hs. unfold Engine.item_Value. cbn. by rewrite healthy_value by apply Hs. Qed.

(** An update in its first round. *)
Lemma badger_Update_first {L} k (cb : slice -> prog (store * L) bytes) s l v rounds r s2 l2 :
  available s -> pairs s !! k = Some v -> cb (Some v) (s, l) = (r, (s2, l2)) ->
  match r with
  | Ok v' => available s2 -> fits k v' -> entry s2 k = entry s k ->
      exists s' n, Update fingerprint nobody k cb (S rounds) (s, l) = (Ok tt, (s', l2)) /\ available s' /\
        entry s' k = Some (v', n) /\ forall k', k' <> k -> entry s' k' = entry s2 k'
  | Err e => e <> Engine.ErrConflict -> Update fingerprint nobody k cb (S rounds) (s, l) = (Err e, (s2, l2))
  | Panic p => Update fingerprint nobody k cb (S rounds) (s, l) = (Panic p, (s2, l2))
  end.
Proof using Hfp.
  intros Hs Hv Hcb. assert (Hk : key_ok k) by (by apply (av_keys _ Hs k v)).
  cbn [Update]. unfold attempt. rewrite txn_Get_new, (read_law k s Hs), Hv by apply Hk. cbn [tx].
  rewrite (value_law k v s Hs). cbn [nobody fst snd]. rewrite Hcb.
  destruct r as [v'|e|p]; [|intros He; by rewrite bool_decide_eq_false_2|done].
  intros Hs2 Hf Hent. destruct (badger_tx_Set_fits k v' (eng s) Hf) as (x & -> & Hx).
  edestruct (commit_law (with_tx x {| tx := Engine.NewTransaction (eng s); readTs := curRead (orc s); reads := [fingerprint k] |})
    k (Some v') s2 Hs2 Hk) as (s' & -> & Hs' & [n Hn] & Ho); [|done|by exists s', n].
  unfold hasConflict. cbn [with_tx reads existsb readTs]. rewrite orb_false_r.
  destruct (commits (orc s2) !! fingerprint k) as [ts|] eqn:Hts; [|done]. apply Z.ltb_ge.
  unfold entry in Hent. rewrite Hv, Hts in Hent. destruct (pairs s2 !! k); [|done]. injection Hent as _ Hn.
  cbn [default from_option id] in Hn. rewrite Hn. destruct (commits (orc s) !! fingerprint k) as [ts'|] eqn:Hts'; cbn.
  - by apply (sound_commits _ (av_sound _ Hs) _ _ Hts').
  - apply Hs.
Qed.

Lemma has_entry_missing s k : entry s k = None -> pairs s !! k = None.
Proof using. unfold entry. by destruct (pairs s !! k). Qed.

(** On a healthy disk and without other writers, the database keeps the
    promises of the interface. *)
#[local] Instance badger_db_laws (rounds : nat) :
  @MetaDBLaws store (badger_db fingerprint nobody (S rounds)) (badger_db_calls fingerprint nobody (S rounds)).
Proof using All.
  refine (@Build_MetaDBLaws _ (badger_db fingerprint nobody (S rounds)) (badger_db_calls fingerprint nobody (S rounds))
    available entry key_ok fits _ _ _ _ _ _ _ _).
  - by intros k (_ & Hk & _).
  - by intros k v [Hk _].
  - intros s k [v n] Hs [Hv _]%badger_entry_Some. by apply (av_keys _ Hs k v).
  - intros k v s Hs Hf. cbn. unfold Set_, update. destruct (badger_tx_Set_fits k v (eng s) Hf) as (x & E & Hx). cbn [NewTransaction tx].
    rewrite E. destruct (commit_law (with_tx x (NewTransaction s)) k (Some v) s Hs (proj1 Hf) eq_refl Hx) as (s' & -> & Hs' & [n Hn] & Ho).
    by exists s', n.
  - intros k s Hs Hk. exists s. split_and!; [|done|done]. cbn. unfold Get, pread, Engine.View. rewrite (read_law k s Hs Hk).
    unfold entry. destruct (pairs s !! k) as [v|]; [|done]. cbn [obind]. by rewrite value_law.
  - intros k s Hs Hk. cbn. unfold Delete, update. destruct (tx_Delete_fits k (eng s) Hk) as (x & E & Hx). cbn [NewTransaction tx].
    rewrite E. destruct (commit_law (with_tx x (NewTransaction s)) k None s Hs Hk eq_refl Hx) as (s' & -> & Hs' & [n Hn] & Ho).
    by exists s'.
  - intros L k cb s l Hs Hk He%has_entry_missing. exists s. split_and!; [|done|done]. cbn. unfold attempt.
    by rewrite txn_Get_new, (read_law k s Hs), He.
  - intros L k cb s l v n Hs [Hv Hn]%badger_entry_Some. exists s. split_and!; [done|done|]. intros r s2 l2 Hcb Hs2.
    pose proof (badger_Update_first k cb s l v rounds r s2 l2 Hs Hv Hcb) as Hu. destruct r as [v'|e|p]; cbn [md_Update badger_db].
    + intros Hf He. apply Hu; [done|done|]. rewrite He. symmetry. by apply badger_entry_Some.
    + intros He%bool_decide_eq_false. exists s2. split_and!; [by apply Hu|done|done].
    + by exists s2.
Defined.
End Laws.

(** ** Runs *)
#[local] Instance fine_disk : Engine.Disk unit.
Proof.
  refine {| Engine.get_fault _ _ := None; Engine.value_fault _ _ := None; Engine.close_fault _ := None;
    Engine.commit_fault _ w := (None, w); Engine.conflicts _ := O |}; done.
Defined.

#[local] Instance fine_healthy : Healthy unit.
Proof. refine {| healthy _ := True |}; [done|done|]. intros ws []. by exists tt. Defined.

Definition kx : bytes := str_bytes "k".
Definition start : store unit := (Set_ le_get kx (str_bytes "old") (opened 0 {| Engine.content := ∅; Engine.disk := tt |})).2.

(** Another goroutine sets the key during the first of two rounds. *)
Definition set_new (s : store unit) : store unit := (update le_get (Engine.tx_Set kx (str_bytes "new")) s).2.
Definition one_writer (n : nat) : (store unit -> store unit) * (store unit -> store unit) :=
  if (n =? 1)%nat then (set_new, fun s => s) else nobody n.

(** The callback appends a byte to the value it is given, and counts its calls. *)
Definition append_bang : slice -> prog (store unit * nat) bytes :=
  fun b '(s, n) => (Ok (slice_bytes b ++ str_bytes "!"), (s, S n)).

Lemma badger_update_atomic_witness :
  exists v v' s0 sl sl', pairs s0 !! kx = Some v /\ append_bang (Some v) sl = (Ok v', sl') /\
      rtc (step le_get) sl'.1 s0 /\ 2%nat = sl'.2 /\ <[kx := str_bytes "new!"]> (∅ : gmap bytes bytes) = <[kx := v']> (pairs s0).
Proof.
  set (run := Update le_get one_writer kx append_bang 2 (start, O)).
  refine (badger_update_atomic le_get one_writer kx append_bang _ _ 2 start O (Ok tt) run.2.1 2%nat _ _).
  - intros n s. unfold one_writer. destruct (n =? 1)%nat; split; try apply rtc_refl. apply update_steps.
  - intros b s n. apply rtc_refl.
  - eapply steps_sound; [apply Set_steps|]. by apply opened_sound.
  - vm_compute. reflexivity.
Defined.

(** An I/O error at the commit of an update is returned as badger reports it,
    and an error when the store is closed is lost. *)
Definition full_disk : Engine.Disk unit.
Proof.
  refine {| Engine.get_fault _ _ := None; Engine.value_fault _ _ := None; Engine.close_fault _ := Some (ErrNew "no space left");
    Engine.commit_fault _ w := (Some (ErrNew "no space left"), w); Engine.conflicts _ := O |}; done.
Defined.

Lemma unmapped_and_lost_errors :
  (Update (H := full_disk) le_get nobody kx append_bang 1 (start, O)).1 = Err (ErrNew "no space left") /\
  (Set_ (H := full_disk) le_get kx [] start).1 = Err (mapBadgerError (ErrNew "no space left")) /\
  (Close (H := full_disk) start).1 = Ok tt.
Proof. by vm_compute. Qed.
End MetaBadger.
