(* ===== verification/MetaEtcd.v ===== *)
(** * The etcd metadata database ([client/metastor/db/etcd])

    The cluster is a map with a revision: every write raises it and stamps the
    keys it writes ([ModRevision]); transactions compare stamps and then run
    one of two lists of operations at once.  The network is a parameter that
    decides the fate of every request: answered, refused or lost, or executed
    with the answer lost.  The errors of the client library ([toErr]) and its
    software transactional memory ([concurrency/stm.go]) are modelled from the
    vendored sources, as far as [Update] uses them: it reads and writes one
    key, with the default isolation.  Other clients of the cluster are
    functions on it that run while the callback runs, and between the callback and the
    commit. *)

From S2P Require Import Prelude Spread Pipeline MetaProto MetaProtoProps Metastor.
Open Scope Z_scope.

Module MetaEtcd.

(** ** The cluster *)

(** The pairs with the revision of their last change. *)
Record cluster := { kvs : gmap bytes (bytes * Z); revision : Z }.

Record GetResponse := { Revision : Z; Kvs : option (bytes * Z) }.

Definition range (k : bytes) (c : cluster) : GetResponse := {| Revision := revision c; Kvs := kvs c !! k |}.

Definition put (k v : bytes) (c : cluster) : cluster :=
  {| kvs := <[k := (v, revision c + 1)]> (kvs c); revision := revision c + 1 |}.

(** Removing what is not there changes nothing. *)
Definition remove (k : bytes) (c : cluster) : cluster :=
  match kvs c !! k with
  | None => c
  | Some _ => {| kvs := delete k (kvs c); revision := revision c + 1 |}
  end.

Definition ModRevision (k : bytes) (c : cluster) : Z := match kvs c !! k with Some (_, r) => r | None => 0 end.

(** The comparisons of a transaction. *)
Inductive Cmp := CmpEqual (k : bytes) (r : Z) | CmpLess (k : bytes) (r : Z).

Definition compare (c : cluster) (x : Cmp) : bool :=
  match x with CmpEqual k r => ModRevision k c =? r | CmpLess k r => ModRevision k c <? r end.

(** ** Requests *)
Inductive Op := OpGet (k : bytes) | OpPut (k v : bytes).

Inductive request :=
  | PutRequest (k v : bytes)
  | RangeRequest (k : bytes)
  | DeleteRequest (k : bytes)
  | TxnRequest (cmps : list Cmp) (thn els : list Op).

(** What happens to a request.  [expired]: the deadline of its context has passed. *)
Inductive fate := Answered | Broken (applied expired : bool) (err : error).

(** [known desc]: a message that servers send ([errStringToError]). *)
Class Network (W : Type) := {
  call : request -> W -> fate * W;
  known : string -> bool;
}.

Definition codes_Canceled : Z := 1.
Definition codes_DeadlineExceeded : Z := 4.
Definition codes_FailedPrecondition : Z := 9.
Definition codes_Unavailable : Z := 14.

Definition DeadlineExceeded := ErrVar "context" "DeadlineExceeded" "context deadline exceeded".
Definition ErrClientConnClosing := ErrVar "grpc" "ErrClientConnClosing" "grpc: the client connection is closing".

(** [rpctypes.EtcdError], a struct and no status error. *)
Definition EtcdError (desc : string) : error := ErrVar "rpctypes" "EtcdError" desc.

Definition databaseType : string := "ETCD".

(** [mapETCDError]; [status.FromError] recognises status errors only. *)
Definition mapETCDError (err : error) : error :=
  match err with
  | ErrStatus code _ =>
      if code =? codes_Unavailable then ErrUnavailable
      else if code =? codes_DeadlineExceeded then ErrTimeout
      else InternalError databaseType (Some err)
  | _ => InternalError databaseType (Some err)
  end.

(** [checkPutRequest] and its like: what a server refuses for its key. *)
Definition empty_key (req : request) : bool :=
  match req with
  | PutRequest k _ | RangeRequest k | DeleteRequest k => (length k =? 0)%nat
  | TxnRequest cmps thn els =>
      existsb (fun x => match x with CmpEqual k _ | CmpLess k _ => length k =? 0 end)%nat cmps ||
      existsb (fun x => match x with OpGet k | OpPut k _ => length k =? 0 end)%nat (thn ++ els)
  end.

Definition ErrGRPCEmptyKey := ErrStatus 3 "etcdserver: key is not provided".

(** What the model of a run with too few rounds ends with. *)
Definition retrying : string := "still retrying".

Section Database.
Context `{Network W}.

Record etcd := { kv : cluster; link : W }.

Definition on_cluster (f : cluster -> cluster) (s : etcd) : etcd := {| kv := f (kv s); link := link s |}.

(** [toErr] *)
Definition toErr (expired : bool) (err : error) : error :=
  if known (error_text err) then EtcdError (error_text err)
  else match err with
  | ErrStatus code _ =>
      if (code =? codes_DeadlineExceeded) || (code =? codes_Canceled) then (if expired then DeadlineExceeded else err)
      else if code =? codes_FailedPrecondition then ErrClientConnClosing
      else err
  | _ => err
  end.

(** A request and its effect on the cluster. *)
Definition rpc {A} (req : request) (run : cluster -> A * cluster) : prog etcd A := fun s =>
  let '(f, w) := call req (link s) in
  match f with
  | Answered =>
      if empty_key req then (Err (toErr false ErrGRPCEmptyKey), {| kv := kv s; link := w |})
      else let '(a, c) := run (kv s) in (Ok a, {| kv := c; link := w |})
  | Broken applied expired err =>
      (Err (toErr expired err), {| kv := if applied && negb (empty_key req) then (run (kv s)).2 else kv s; link := w |})
  end.

(** ** Software transactional memory *)
Record stm := { rset : gmap bytes GetResponse; wset : gmap bytes bytes; prefetch : gmap bytes GetResponse }.

(** [mkSTM] *)
Definition new_stm : stm := {| rset := ∅; wset := ∅; prefetch := ∅ |}.

Definition reset (t : stm) : stm := {| rset := ∅; wset := ∅; prefetch := prefetch t |}.

Definition respToValue (resp : GetResponse) : bytes := match Kvs resp with Some (v, _) => v | None => [] end.

(** [fetch] and [Get] of one key.  An error is thrown, and ends the run. *)
Definition fetch (k : bytes) (t : stm) (s : etcd) : outcome (GetResponse * stm) * etcd :=
  match rset t !! k with
  | Some resp => (Ok (resp, t), s)
  | None =>
      match rpc (TxnRequest [] [OpGet k] []) (fun c => (range k c, c)) s with
      | (Ok resp, s) => (Ok (resp, {| rset := <[k := resp]> (rset t); wset := wset t; prefetch := prefetch t |}), s)
      | (Err e, s) => (Err e, s)
      | (Panic p, s) => (Panic p, s)
      end
  end.

Definition stm_Get (k : bytes) (t : stm) (s : etcd) : outcome (bytes * stm) * etcd :=
  match wset t !! k with
  | Some v => (Ok (v, t), s)
  | None =>
      let t := match prefetch t !! k with
               | Some resp => {| rset := <[k := resp]> (rset t); wset := wset t; prefetch := delete k (prefetch t) |}
               | None => t
               end in
      let '(r, s) := fetch k t s in
      (let! x := r in Ok (respToValue x.1, x.2), s)
  end.

Definition stm_Put (k v : bytes) (t : stm) : stm := {| rset := rset t; wset := <[k := v]> (wset t); prefetch := prefetch t |}.

Definition isKeyCurrent (k : bytes) (r : GetResponse) : Cmp :=
  match Kvs r with Some (_, rev) => CmpEqual k rev | None => CmpEqual k 0 end.

(** [readSet.first]: [math.MaxInt64 - 1] when nothing was read. *)
Definition first (rs : gmap bytes GetResponse) : Z :=
  default (2 ^ 63 - 2) (map_fold (fun _ resp ret => Some (from_option (Z.min (Revision resp)) (Revision resp) ret)) None rs).

Definition conflicts (t : stm) : list Cmp :=
  ((fun x => isKeyCurrent x.1 x.2) <$> map_to_list (rset t)) ++
  ((fun x => CmpLess x.1 (first (rset t) + 1)) <$> map_to_list (wset t)).

(** All writes of a transaction get the same revision. *)
Definition put_all (puts : gmap bytes bytes) (c : cluster) : cluster :=
  if bool_decide (puts = ∅) then c
  else {| kvs := map_fold (fun k v m => <[k := (v, revision c + 1)]> m) (kvs c) puts; revision := revision c + 1 |}.

(** The commit writes, or reads again what was read. *)
Definition stm_commit (t : stm) (s : etcd) : outcome (bool * stm) * etcd :=
  let cmps := conflicts t in
  let keys := (map_to_list (rset t)).*1 in
  rpc (TxnRequest cmps ((fun x => OpPut x.1 x.2) <$> map_to_list (wset t)) (OpGet <$> keys)) (fun c =>
    if forallb (compare c) cmps then ((true, t), put_all (wset t) c)
    else
      let rs := foldl (fun m k => <[k := range k c]> m) (rset t) keys in
      ((false, {| rset := rs; wset := wset t; prefetch := rs |}), c)) s.

(** ** [etcd.go] *)

(** [clientv3.New] connects, or fails. *)
Definition New (connect : list string -> outcome etcd) (endpoints : list string) : outcome etcd :=
  if (length endpoints =? 0)%nat then Err (ErrNew "no endpoints given")
  else match connect endpoints with
  | Err err => Err (mapETCDError err)
  | r => r
  end.

Definition Set_ (key metadata : bytes) : prog etcd unit :=
  on_err mapETCDError (rpc (PutRequest key metadata) (fun c => (tt, put key metadata c))).

Definition Get (key : bytes) : prog etcd slice :=
  do! resp := on_err mapETCDError (rpc (RangeRequest key) (fun c => (range key c, c))) in
  match Kvs resp with
  | None => pfail ErrNotFound
  | Some (v, _) => pret (Some v)
  end.

Definition Delete (key : bytes) : prog etcd unit :=
  on_err mapETCDError (rpc (DeleteRequest key) (fun c => (tt, remove key c))).

(** [close_err] is what closing the connection reports. *)
Definition Close (close_err : option error) : prog etcd unit :=
  plift match close_err with Some err => Err (mapETCDError err) | None => Ok tt end.

Section Update.
Context {L : Type} (others : nat -> (cluster -> cluster) * (cluster -> cluster)) (key : bytes) (cb : slice -> prog (etcd * L) bytes).

(** The function that is handed to [NewSTM], behind the prefetching of the
    key; [preserveError] is a variable of [Update]. *)
Definition apply (n : nat) (t : stm) (preserveError : bool) : etcd * L -> outcome stm * bool * (etcd * L) := fun '(s, l) =>
  match stm_Get key t s with
  | (Err e, s) => (Err e, preserveError, (s, l))
  | (Panic p, s) => (Panic p, preserveError, (s, l))
  | (Ok (_, t), s) =>
      match stm_Get key t s with
      | (Err e, s) => (Err e, preserveError, (s, l))
      | (Panic p, s) => (Panic p, preserveError, (s, l))
      | (Ok (metadataIn, t), s) =>
          if (length metadataIn =? 0)%nat then (Err ErrNotFound, true, (s, l))
          else match cb (Some metadataIn) (on_cluster (others n).1 s, l) with
          | (Err e, sl) => (Err e, true, sl)
          | (Panic p, sl) => (Panic p, preserveError, sl)
          | (Ok metadataOut, sl) => (Ok (stm_Put key metadataOut t), preserveError, sl)
          end
      end
  end.

(** The loop of [runSTM], for [rounds] rounds. *)
Fixpoint runSTM (rounds : nat) (t : stm) (preserveError : bool) : etcd * L -> outcome unit * bool * (etcd * L) :=
  match rounds with
  | O => fun sl => (Panic retrying, preserveError, sl)
  | S n => fun sl =>
      match apply n (reset t) preserveError sl with
      | (Ok t, preserveError, (s, l)) =>
          match stm_commit t (on_cluster (others n).2 s) with
          | (Ok (true, _), s) => (Ok tt, preserveError, (s, l))
          | (Ok (false, t), s) => runSTM n t preserveError (s, l)
          | (Err e, s) => (Err e, preserveError, (s, l))
          | (Panic p, s) => (Panic p, preserveError, (s, l))
          end
      | (Err e, preserveError, sl) => (Err e, preserveError, sl)
      | (Panic p, preserveError, sl) => (Panic p, preserveError, sl)
      end
  end.

(** The response of a run without error is one of a transaction that
    succeeded. *)
Definition Update (rounds : nat) : prog (etcd * L) unit := fun sl =>
  match runSTM rounds new_stm false sl with
  | (Err e, true, sl) => (Err e, sl)
  | (Err e, false, sl) => (Err (mapETCDError e), sl)
  | (r, _, sl) => (r, sl)
  end.
End Update.
End Database.
Arguments etcd : clear implicits.

(** ** How a cluster changes *)

(** Every key is as before, or was removed, or is stamped with a revision that
    is newer than all before. *)
Record evolves (c c' : cluster) : Prop := {
  ev_revision : revision c <= revision c';
  ev_keys k : kvs c' !! k = kvs c !! k \/ kvs c' !! k = None \/
    exists v r, kvs c' !! k = Some (v, r) /\ revision c < r <= revision c';
}.

Record sound (c : cluster) : Prop := {
  sound_revision : 0 <= revision c;
  sound_stamps k v r : kvs c !! k = Some (v, r) -> 0 < r <= revision c;
}.

#[export] Instance evolves_preorder : PreOrder evolves.
Proof.
  split; [intros c; split; [lia|by left]|]. intros c1 c2 c3 [Hr1 Hk1] [Hr2 Hk2]. split; [lia|]. intros k.
  destruct (Hk2 k) as [->|[->|(v & r & -> & Hr)]]; [|by right; left|right; right; exists v, r; split; [done|lia]].
  destruct (Hk1 k) as [->|[->|(v & r & -> & Hr)]]; [by left|by right; left|right; right; exists v, r; split; [done|lia]].
Qed.

Lemma put_evolves k v c : evolves c (put k v c).
Proof.
  split; cbn; [lia|]. intros k'. destruct (decide (k = k')) as [<-|]; [|left; by rewrite lookup_insert_ne].
  right; right. exists v, (revision c + 1). rewrite lookup_insert_eq. split; [done|lia].
Qed.

Lemma remove_evolves k c : evolves c (remove k c).
Proof.
  unfold remove. destruct (kvs c !! k); [|done]. split; cbn; [lia|]. intros k'.
  destruct (decide (k = k')) as [<-|]; [right; left; by rewrite lookup_delete_eq|left; by rewrite lookup_delete_ne].
Qed.

Lemma evolves_sound c c' : evolves c c' -> sound c -> sound c'.
Proof.
  intros [Hr Hk] [H0 Hs]. split; [lia|]. intros k v r. destruct (Hk k) as [->|[->|(v' & r' & -> & Hr')]]; [|done|intros [= <- <-]; lia].
  intros E. apply Hs in E. lia.
Qed.

(** The same stamp means the same entry. *)
Lemma same_stamp k c0 c : sound c0 -> evolves c0 c -> ModRevision k c = ModRevision k c0 -> kvs c !! k = kvs c0 !! k.
Proof.
  intros [H0 Hs] [_ Hk] Hm. unfold ModRevision in Hm. destruct (Hk k) as [?|[E|(v & r & E & Hr)]]; [done|..]; rewrite E in Hm |- *.
  - destruct (kvs c0 !! k) as [[v r]|] eqn:E0; [|done]. apply Hs in E0. lia.
  - destruct (kvs c0 !! k) as [[v0 r0]|] eqn:E0; [apply Hs in E0|]; lia.
Qed.
#[export] Hint Resolve put_evolves remove_evolves : zstor.

(** ** Updates *)
Section Updates.
Context `{Network W} {L : Type}.
Local Abbreviation etcd := (etcd W).
Context (others : nat -> (cluster -> cluster) * (cluster -> cluster)) (key : bytes) (cb : slice -> prog (etcd * L) bytes).

(** A request that only reads. *)
Lemma rpc_read {A} req (f : cluster -> A) s r s' :
  rpc req (fun c => (f c, c)) s = (r, s') -> kv s' = kv s /\ match r with Ok a => a = f (kv s) | Err _ => True | Panic _ => False end.
Proof using.
  unfold rpc. destruct (call req (link s)) as [[|applied expired err] w].
  - destruct (empty_key req); intros [= <- <-]; done.
  - intros [= <- <-]. by destruct (applied && _).
Qed.

(** Between two rounds, the key is not fetched yet, or it is prefetched as it is now. *)
Definition ready (t : stm) (c : cluster) : Prop := prefetch t = ∅ \/ prefetch t = {[key := range key c]}.

(** The state of a transaction that read the key in [c] and writes [v]. *)
Definition has_read (c : cluster) : stm := {| rset := {[key := range key c]}; wset := ∅; prefetch := ∅ |}.

Lemma stm_Get_first t s r s' :
  ready t (kv s) -> stm_Get key (reset t) s = (r, s') ->
  kv s' = kv s /\ match r with
  | Ok x => x = (respToValue (range key (kv s)), has_read (kv s))
  | Err _ => True
  | Panic _ => False
  end.
Proof using.
  destruct t as [rs ws pf]. unfold ready, stm_Get, fetch. cbn [reset wset prefetch rset]. rewrite lookup_empty.
  intros [-> | ->].
  - rewrite lookup_empty. cbn [rset wset prefetch].
    destruct (rpc _ _ s) as [[resp|e|p] s1] eqn:E; cbn [obind]; apply rpc_read in E as [Hkv Hr]; intros [= <- <-]; [|done..].
    subst resp. by rewrite insert_empty.
  - rewrite lookup_singleton_eq. cbn [rset wset prefetch]. rewrite lookup_insert_eq. cbn [obind fst snd]. intros [= <- <-].
    by rewrite insert_empty, delete_singleton_eq.
Qed.

Lemma stm_Get_again c s : stm_Get key (has_read c) s = (Ok (respToValue (range key c), has_read c), s).
Proof using.
  unfold stm_Get, fetch, has_read. cbn [wset prefetch rset]. rewrite !lookup_empty. cbn [rset]. by rewrite lookup_singleton_eq.
Qed.

(** One call of the function. *)
Lemma apply_cases n t pe s l r pe' s' l' :
  ready t (kv s) -> apply others key cb n (reset t) pe (s, l) = (r, pe', (s', l')) ->
  (exists e, r = Err e /\ pe' = pe /\ l' = l /\ kv s' = kv s) \/
  (r = Err ErrNotFound /\ pe' = true /\ l' = l /\ kv s' = kv s /\ respToValue (range key (kv s)) = []) \/
  exists v st x s1, kvs (kv s) !! key = Some (v, st) /\ v <> [] /\ kv s1 = kv s /\
    cb (Some v) (on_cluster (others n).1 s1, l) = (x, (s', l')) /\
    match x with
    | Ok v' => r = Ok (stm_Put key v' (has_read (kv s))) /\ pe' = pe
    | Err e => r = Err e /\ pe' = true
    | Panic p => r = Panic p
    end.
Proof using.
  intros Ht. unfold apply. destruct (stm_Get key (reset t) s) as [[x|e|p] s1] eqn:Hg;
    apply (stm_Get_first _ _ _ _ Ht) in Hg as [Hkv Hx]; [|intros [= <- <- <- <-]; left; by exists e|done].
  subst x. rewrite stm_Get_again. destruct (Nat.eqb_spec (length (respToValue (range key (kv s)))) 0) as [Hz|Hz].
  { intros [= <- <- <- <-]. right; left. split_and!; try done. by apply nil_length_inv. }
  assert (exists v st, kvs (kv s) !! key = Some (v, st) /\ v <> [] /\ respToValue (range key (kv s)) = v) as (v & st & Hv & Hne & ->).
  { unfold respToValue, range in *. cbn [Kvs] in *. destruct (kvs (kv s) !! key) as [[v st]|]; [|done].
    exists v, st. split_and!; [done| |done]. by intros ->. }
  destruct (cb _ _) as [x [s2 l2]] eqn:Hc. intros Hr. right; right. exists v, st, x, s1.
  destruct x as [v'|e|p]; injection Hr as <- <- <- <-; by split_and!.
Qed.

(** The commit: it writes if the key has the stamp that was read. *)
Lemma commit_cases c0 v s r s' :
  stm_commit (stm_Put key v (has_read c0)) s = (r, s') ->
  match r with
  | Ok (true, _) => ModRevision key (kv s) = ModRevision key c0 /\ kv s' = put key v (kv s)
  | Ok (false, t) => kv s' = kv s /\ ready t (kv s') /\
      ~ (ModRevision key (kv s) = ModRevision key c0 /\ ModRevision key (kv s) <= revision c0)
  | Err _ => kv s' = kv s \/ ModRevision key (kv s) = ModRevision key c0 /\ kv s' = put key v (kv s)
  | Panic _ => False
  end.
Proof using.
  unfold stm_commit. cbn [stm_Put has_read rset wset]. rewrite insert_empty.
  assert (Hcmp : conflicts (stm_Put key v (has_read c0)) = [CmpEqual key (ModRevision key c0); CmpLess key (revision c0 + 1)]).
  { unfold conflicts, first. cbn [stm_Put has_read rset wset]. rewrite insert_empty, !map_to_list_singleton, map_fold_singleton.
    cbn. unfold isKeyCurrent, ModRevision, range. cbn. by destruct (kvs c0 !! key) as [[? ?]|]. }
  rewrite Hcmp, !map_to_list_singleton. cbn [fmap list_fmap fst snd foldl].
  set (run := fun c => if forallb _ _ then _ else _).
  assert (Hrun : forall c, match run c with
    | ((true, _), c') => ModRevision key c = ModRevision key c0 /\ c' = put key v c
    | ((false, t), c') => c' = c /\ ready t c /\ ~ (ModRevision key c = ModRevision key c0 /\ ModRevision key c <= revision c0)
    end).
  { intros c. unfold run. cbn [forallb compare]. rewrite andb_true_r.
    destruct (Z.eqb_spec (ModRevision key c) (ModRevision key c0)) as [E|E]; [|by split_and!; [|right; cbn; rewrite insert_singleton_eq|tauto]].
    destruct (Z.ltb_spec (ModRevision key c) (revision c0 + 1)); cbn [andb].
    - split; [done|]. unfold put_all. rewrite bool_decide_eq_false_2 by apply map_non_empty_singleton. by rewrite map_fold_singleton.
    - split_and!; [done| |lia]. right. cbn. by rewrite insert_singleton_eq. }
  unfold rpc. destruct (call _ _) as [[|applied expired err] w].
  - destruct (empty_key _); [intros [= <- <-]; by left|]. specialize (Hrun (kv s)).
    destruct (run (kv s)) as [[[] t] c]; intros [= <- <-]; [done|]. by destruct Hrun as (-> & ? & ?).
  - intros [= <- <-]. cbn [kv]. destruct (applied && _); [|by left]. specialize (Hrun (kv s)).
    destruct (run (kv s)) as [[[] t] c]; [by right|]. left. by destruct Hrun as (-> & _).
Qed.

(** Only the callback changes its variables. *)
Lemma etcd_Update_inv (I J : L -> Prop) rounds s l r s' l' :
  (forall b s l r s' l', I l -> cb b (s, l) = (r, (s', l')) -> match r with Ok _ => I l' | _ => J l' end) ->
  I l -> Update others key cb rounds (s, l) = (r, (s', l')) -> I l' \/ J l'.
Proof using.
  intros Hcb Hl Hu. unfold Update in Hu.
  assert (exists r pe, runSTM others key cb rounds new_stm false (s, l) = (r, pe, (s', l'))) as (r1 & pe & Hrun).
  { destruct (runSTM _ _ _ rounds new_stm false (s, l)) as [[[[]|e|p] []] sl]; injection Hu as <- ->; by eexists _, _. }
  clear Hu. revert Hrun. generalize new_stm, false. revert s l Hl; induction rounds as [|n IH]; intros s l Hl t b; cbn [runSTM].
  { intros [= _ _ _ <-]. by left. }
  destruct (apply _ _ _ n (reset t) b (s, l)) as [[x b1] [s1 l1]] eqn:Ha.
  assert (Hl1 : match x with Ok _ => I l1 | _ => I l1 \/ J l1 end).
  { unfold apply in Ha. destruct (stm_Get key (reset t) s) as [[[v t1]|e|p] s2]; [|injection Ha as <- _ _ <-; by left..].
    destruct (stm_Get key t1 s2) as [[[v2 t2]|e|p] s3]; [|injection Ha as <- _ _ <-; by left..].
    destruct (length v2 =? 0)%nat; [injection Ha as <- _ _ <-; by left|].
    destruct (cb _ _) as [[v'|e|p] [s4 l4]] eqn:Hc; specialize (Hcb _ _ _ _ _ _ Hl Hc); injection Ha as <- _ _ <-; auto. }
  destruct x as [t1|e|p]; [|intros [= _ _ _ <-]; done..].
  destruct (stm_commit _ _) as [[[[] t2]|e|p] s2]; [intros [= _ _ _ <-]; by left|by apply IH|intros [= _ _ _ <-]; by left..].
Qed.

(** The update took place in [c]: what the callback computed last, from the very
    value that [c] has, replaces this value. *)
Definition replaces (c : cluster) (s' : etcd) (l' : L) : Prop :=
  exists v v' st sl sl', kvs c !! key = Some (v, st) /\ cb (Some v) sl = (Ok v', sl') /\ evolves (kv sl'.1) c /\
    l' = sl'.2 /\ kv s' = put key v' c.

(** How a run ends. *)
Definition settled (r : outcome unit) (preserved : bool) (s s' : etcd) (l' : L) : Prop :=
  match r with
  | Ok _ => exists c, evolves (kv s) c /\ replaces c s' l'
  | Err e =>
      if preserved
      then e = ErrNotFound /\ respToValue (range key (kv s')) = [] \/ exists v sl, cb (Some v) sl = (Err e, (s', l'))
      else exists c, evolves (kv s) c /\ (kv s' = c \/ replaces c s' l')
  | Panic p => exists v sl, cb (Some v) sl = (Panic p, (s', l'))
  end.

Lemma settled_evolves r pe s0 s s' l' : evolves (kv s0) (kv s) -> settled r pe s s' l' -> settled r pe s0 s' l'.
Proof using.
  intros Hev. destruct r as [[]|e|p]; cbn; [| |done]; [|destruct pe; [done|]];
    intros (c & Hc & Hx); exists c; (split; [by etrans|done]).
Qed.

Context (Hothers : forall n c, evolves c ((others n).1 c) /\ evolves c ((others n).2 c))
  (Hcb : forall b s l, evolves (kv s) (kv (cb b (s, l)).2.1)).

(** A round in which nobody writes the key. *)
Definition quiet (n : nat) : Prop :=
  (forall c, ModRevision key ((others n).1 c) = ModRevision key c /\ ModRevision key ((others n).2 c) = ModRevision key c) /\
  forall b s l, ModRevision key (kv (cb b (s, l)).2.1) = ModRevision key (kv s).

(** One round: the run is over, or somebody was faster and there is a new one. *)
Lemma round_cases n t s l r pe s' l' :
  sound (kv s) -> ready t (kv s) -> runSTM others key cb (S n) t false (s, l) = (r, pe, (s', l')) ->
  settled r pe s s' l' \/
  exists t1 s1 l1, runSTM others key cb n t1 false (s1, l1) = (r, pe, (s', l')) /\ ready t1 (kv s1) /\
    evolves (kv s) (kv s1) /\ ~ quiet n.
Proof using Hothers Hcb.
  intros Hs Ht. cbn [runSTM]. destruct (apply _ _ _ n (reset t) false (s, l)) as [[r1 pe1] [s1 l1]] eqn:Ha.
  destruct (apply_cases _ _ _ _ _ _ _ _ _ Ht Ha) as [(e & -> & -> & -> & Hkv)|[(-> & -> & -> & Hkv & Hv)|(v & st & x & s0 & Hv & Hne & Hkv & Hc & Hx)]].
  { intros [= <- <- <- <-]. left. cbn. exists (kv s). split; [done|by left]. }
  { intros [= <- <- <- <-]. left. cbn. left. split; [done|]. by rewrite Hkv. }
  destruct x as [v'|e|p]; cycle 1.
  { destruct Hx as [-> ->]. intros [= <- <- <- <-]. left. right. eauto. } { subst r1. intros [= <- <- <- <-]. left. cbn. eauto. }
  destruct Hx as [-> ->]. set (c2 := (others n).2 (kv s1)).
  assert (Hev1 : evolves (kv s) (kv s1)).
  { pose proof (Hcb (Some v) (on_cluster (others n).1 s0) l) as H1. rewrite Hc in H1. cbn in H1. rewrite Hkv in H1.
    etrans; [exact (proj1 (Hothers n _))|exact H1]. }
  assert (Hev2 : evolves (kv s) c2) by (etrans; [exact Hev1|apply Hothers]).
  assert (Hrep : forall s2, ModRevision key c2 = ModRevision key (kv s) -> kv s2 = put key v' c2 -> replaces c2 s2 l1).
  { intros s2 Hm Hp. exists v, v', st, (on_cluster (others n).1 s0, l), (s1, l1).
    split_and!; [by rewrite (same_stamp key (kv s) c2 Hs Hev2 Hm)|done|apply Hothers|done|done]. }
  destruct (stm_commit _ _) as [[[[] t2]|e|p] s2] eqn:Hcom; apply commit_cases in Hcom;
    change (kv (on_cluster (others n).2 s1)) with c2 in Hcom; [| | |done].
  - intros [= <- <- <- <-]. left. exists c2. split; [done|]. apply Hrep; apply Hcom.
  - destruct Hcom as (Hkv2 & Hready & Hno). intros Hrun. right. exists t2, s2, l1. rewrite Hkv2 in *. split_and!; try done.
    intros [Hq1 Hq2]. apply Hno. assert (E : ModRevision key c2 = ModRevision key (kv s)).
    { unfold c2. rewrite (proj2 (Hq1 _)). specialize (Hq2 (Some v) (on_cluster (others n).1 s0) l). rewrite Hc in Hq2. cbn in Hq2.
      by rewrite Hq2, (proj1 (Hq1 _)), Hkv. }
    split; [done|]. rewrite E. unfold ModRevision. rewrite Hv. apply (sound_stamps _ Hs) in Hv. lia.
  - intros [= <- <- <- <-]. left. exists c2. split; [done|]. destruct Hcom as [Hcom|[Hm Hp]]; [by left|right]. by apply Hrep.
Qed.

Lemma runSTM_settles rounds t s l r pe s' l' :
  sound (kv s) -> ready t (kv s) -> runSTM others key cb rounds t false (s, l) = (r, pe, (s', l')) ->
  settled r pe s s' l' \/ r = Panic retrying /\ forall n, (n < rounds)%nat -> ~ quiet n.
Proof using Hothers Hcb.
  revert t s l; induction rounds as [|n IH]; intros t s l Hs Ht.
  { intros [= <- _ _ _]. right. split; [done|]. lia. }
  intros Hrun. destruct (round_cases _ _ _ _ _ _ _ _ Hs Ht Hrun) as [Hset|(t1 & s1 & l1 & Hrun1 & Ht1 & Hev & Hq)]; [by left|].
  destruct (IH t1 s1 l1 (evolves_sound _ _ Hev Hs) Ht1 Hrun1) as [Hset|[-> Hall]]; [left; by eapply settled_evolves|right].
  split; [done|]. intros k Hk. destruct (decide (k = n)) as [->|]; [done|]. apply Hall. lia.
Qed.

(** C13. An update of the etcd metadata database is atomic: whatever other
    clients of the cluster write while it works, and whatever becomes of its
    requests, a success means that the value it replaced was the very value from
    which its callback computed the new one in the last attempt, and nothing
    else changed in that step.  An entry that is missing, or is empty, is
    [ErrNotFound]; an error of the callback is returned as it is; after any
    other error, which is one of the network or the cluster, the update either
    took place in the same way or changed nothing.  It goes on for ever only if
    somebody writes the key in every round. *)
Theorem etcd_update_atomic (rounds : nat) (s : etcd) (l : L) (r : outcome unit) (s' : etcd) (l' : L) :
  sound (kv s) -> Update others key cb rounds (s, l) = (r, (s', l')) ->
  match r with
  | Ok _ => exists c, evolves (kv s) c /\ replaces c s' l'
  | Err e =>
      (e = ErrNotFound /\ respToValue (range key (kv s')) = []) \/ (exists v sl, cb (Some v) sl = (Err e, (s', l'))) \/
      exists e0 c, e = mapETCDError e0 /\ evolves (kv s) c /\ (kv s' = c \/ replaces c s' l')
  | Panic p => (exists v sl, cb (Some v) sl = (Panic p, (s', l'))) \/ p = retrying /\ forall n, (n < rounds)%nat -> ~ quiet n
  end.
Proof using Hothers Hcb.
  intros Hs. unfold Update. destruct (runSTM _ _ _ rounds new_stm false (s, l)) as [[r1 pe] [s1 l1]] eqn:Hrun.
  apply runSTM_settles in Hrun as [Hset|[-> Hq]]; [| |done|by left].
  - destruct r1 as [[]|e|p]; [by intros [= <- <- <-]| |intros [= <- <- <-]; by left].
    destruct pe; intros [= <- <- <-]; cbn in Hset; [tauto|]. right; right. destruct Hset as (c & Hc & Hx). by exists e, c.
  - intros [= <- <- <-]. right. by split.
Qed.
End Updates.

(** ** The database as an implementation of the interface *)
#[local] Instance etcd_db `{Network W} (others : nat -> (cluster -> cluster) * (cluster -> cluster))
    (close_err : option error) (rounds : nat) : MetaDB (etcd W) := {|
  md_Set := Set_; md_Get := Get; md_Delete := Delete;
  md_Update L key cb := Update others key cb rounds;
  md_Close := Close close_err;
|}.

#[local] Instance etcd_db_calls `{Network W} others close_err rounds : @MetaDBCalls (etcd W) (etcd_db others close_err rounds).
Proof.
  refine (@Build_MetaDBCalls _ (etcd_db others close_err rounds) (fun _ => false) _).
  intros L k cb I J m l r m' l' Hcb. by apply etcd_Update_inv.
Defined.

Lemma kvs_remove k c k' : kvs (remove k c) !! k' = if decide (k = k') then None else kvs c !! k'.
Proof.
  unfold remove. destruct (kvs c !! k) eqn:E; cbn [kvs].
  - rewrite lookup_delete. by case_decide.
  - case_decide; [by subst|done].
Qed.

(** Whatever the network does to the requests. *)
#[local] Instance etcd_db_faults `{Network W} others close_err rounds : @MetaDBFaults (etcd W) (etcd_db others close_err rounds).
Proof.
  refine (@Build_MetaDBFaults _ (etcd_db others close_err rounds) (fun s k => fst <$> kvs (kv s) !! k) _ _).
  - intros k s r s'. cbn [md_Get etcd_db]. unfold Get, pbind, on_err. destruct (rpc _ _ s) as [x s1] eqn:Hrpc.
    apply rpc_read in Hrpc as [Hkv Hx]. destruct x as [resp|e|p]; cbn; [|by intros [= <- <-]; split; [intros k'; by rewrite Hkv|]|done].
    subst resp. cbn [Kvs range]. destruct (kvs (kv s) !! k) as [[v st]|]; cbn; intros [= <- <-]; (split; [intros k'; by rewrite Hkv|]); [|done].
    intros b [= <-]. by exists v.
  - intros k s r s'. cbn [md_Delete etcd_db]. unfold Delete, on_err, rpc. destruct (call _ (link s)) as [[|applied expired err] w].
    + destruct (empty_key _); intros [= <- <-]; cbn [kv]; [by split; [|right]|].
      split; [intros k' Hk; by rewrite kvs_remove, decide_False|left; by rewrite kvs_remove, decide_True].
    + intros [= <- <-]. cbn [kv]. destruct (applied && _); cbn [snd]; [|by split; [|right]].
      split; [intros k' Hk; by rewrite kvs_remove, decide_False|left; by rewrite kvs_remove, decide_True].
Defined.

(** A cluster that answers, from some state on, as long as it is not asked to
    store more than it accepts. *)
Class Reliable (W : Type) `{Network W} := {
  up : W -> Prop;
  small : bytes -> bytes -> Prop;
  up_call req w : up w ->
    match req with
    | PutRequest k v => small k v
    | TxnRequest _ thn _ => Forall (fun o => match o with OpPut k v => small k v | OpGet _ => True end) thn
    | _ => True
    end -> exists w', call req w = (Answered, w') /\ up w';
}.

Definition nobody (_ : nat) : (cluster -> cluster) * (cluster -> cluster) := (fun c => c, fun c => c).

Section Laws.
Context `{Reliable W} (close_err : option error).
Local Abbreviation etcd := (etcd W).

Definition fits (k v : bytes) : Prop := k <> [] /\ v <> [] /\ small k v.

(** Nobody stored an empty key or an empty value. *)
Record available (s : etcd) : Prop := {
  av_sound : sound (kv s);
  av_link : up (link s);
  av_entries k v st : kvs (kv s) !! k = Some (v, st) -> k <> [] /\ v <> [];
}.

(** A request on a cluster that answers. *)
Lemma rpc_up {A} req (run : cluster -> A * cluster) s :
  up (link s) -> empty_key req = false ->
  match req with
  | PutRequest k v => small k v
  | TxnRequest _ thn _ => Forall (fun o => match o with OpPut k v => small k v | OpGet _ => True end) thn
  | _ => True
  end -> exists w, up w /\ rpc req run s = (Ok (run (kv s)).1, {| kv := (run (kv s)).2; link := w |}).
Proof using.
  intros Hup Hk Hreq. destruct (up_call req (link s) Hup Hreq) as (w & Hc & Hw). exists w. split; [done|].
  unfold rpc. rewrite Hc, Hk. by destruct (run (kv s)).
Qed.

Lemma available_link s w : available s -> up w -> available {| kv := kv s; link := w |}.
Proof using. intros [Hs _ He] Hw. by split. Qed.

(** A pair is written. *)
Lemma etcd_put_law k v s w : available s -> up w -> fits k v ->
  let s' := {| kv := put k v (kv s); link := w |} in
  available s' /\ (exists n, kvs (kv s') !! k = Some (v, n)) /\ forall k', k' <> k -> kvs (kv s') !! k' = kvs (kv s) !! k'.
Proof using.
  intros [Hs _ He] Hw (Hk & Hv & _). cbn. split_and!; [split; [by eapply evolves_sound; [apply put_evolves|]|done|]| |].
  - cbn. intros k' v' st. intros [[<- [= <- _]]|[_ Hx]]%lookup_insert_Some; [done|by eapply He].
  - exists (revision (kv s) + 1). by rewrite lookup_insert_eq.
  - intros k' Hne. by rewrite lookup_insert_ne.
Qed.

Lemma remove_law k s w : available s -> up w ->
  let s' := {| kv := remove k (kv s); link := w |} in
  available s' /\ kvs (kv s') !! k = None /\ forall k', k' <> k -> kvs (kv s') !! k' = kvs (kv s) !! k'.
Proof using.
  intros [Hs _ He] Hw. cbn. pose proof (evolves_sound _ _ (remove_evolves k (kv s)) Hs) as Hs'.
  pose proof (kvs_remove k (kv s)) as Hl.
  split_and!; [split; [done|done|]| |].
  - cbn. intros k' v' st. rewrite Hl. case_decide; [done|]. by apply He.
  - by rewrite Hl, decide_True.
  - intros k' Hne. by rewrite Hl, decide_False.
Qed.

(** A transaction on one key. *)
Lemma txn_key k cmps thn els : k <> [] ->
  Forall (fun x => match x with CmpEqual k' _ | CmpLess k' _ => k' = k end) cmps ->
  Forall (fun x => match x with OpGet k' | OpPut k' _ => k' = k end) (thn ++ els) -> empty_key (TxnRequest cmps thn els) = false.
Proof using.
  intros Hk Hc Ho. cbn. apply orb_false_iff. rewrite <- !not_true_iff_false, !existsb_exists.
  rewrite Forall_forall in Hc. rewrite Forall_forall in Ho. pose proof (length_nonempty k Hk) as Hlen.
  split; intros (x & Hx & Hlen'); apply list_elem_of_In in Hx; [specialize (Hc x Hx)|specialize (Ho x Hx)]; destruct x; subst; congruence.
Qed.

Lemma commit_up k v c0 s :
  available s -> fits k v -> ModRevision k (kv s) = ModRevision k c0 -> ModRevision k (kv s) <= revision c0 ->
  exists t w, up w /\ stm_commit (stm_Put k v (has_read k c0)) s = (Ok (true, t), {| kv := put k v (kv s); link := w |}).
Proof using.
  intros Hs (Hk & _ & Hsm) Hm Hle. destruct (stm_commit _ s) as [r s'] eqn:Hc. pose proof (commit_cases _ _ _ _ _ _ Hc) as Hr.
  unfold stm_commit in Hc. edestruct @rpc_up as (w & Hw & E); [apply (av_link _ Hs)| | |rewrite E in Hc; clear E].
  - apply (txn_key k); [done| |].
    + unfold conflicts. cbn [stm_Put has_read rset wset]. rewrite insert_empty, !map_to_list_singleton. cbn.
      unfold isKeyCurrent. repeat constructor. by destruct (Kvs _) as [[? ?]|].
    + cbn [stm_Put has_read rset wset]. rewrite insert_empty, !map_to_list_singleton. cbn. by repeat constructor.
  - cbn [stm_Put has_read rset wset]. rewrite insert_empty, map_to_list_singleton. by repeat constructor.
  - destruct r as [[[] t]|e|p]; [|tauto|done|done]. exists t, w. split; [done|]. injection Hc as _ <-. cbn [kv] in Hr. f_equal. f_equal. apply Hr.
Qed.

(** An update in its first round. *)
Lemma etcd_Update_first {L} k (cb : slice -> prog (etcd * L) bytes) s l rounds :
  available s -> k <> [] -> exists w, up w /\ let s1 := {| kv := kv s; link := w |} in
    match kvs (kv s) !! k with
    | None => Update nobody k cb (S rounds) (s, l) = (Err ErrNotFound, (s1, l))
    | Some (v, st) => forall r s2 l2, cb (Some v) (s1, l) = (r, (s2, l2)) ->
        match r with
        | Ok v' => available s2 -> fits k v' -> kvs (kv s2) !! k = Some (v, st) -> exists w',
            up w' /\ Update nobody k cb (S rounds) (s, l) = (Ok tt, ({| kv := put k v' (kv s2); link := w' |}, l2))
        | Err e => Update nobody k cb (S rounds) (s, l) = (Err e, (s2, l2))
        | Panic p => Update nobody k cb (S rounds) (s, l) = (Panic p, (s2, l2))
        end
    end.
Proof using.
  intros Hs Hk.
  destruct (rpc_up (TxnRequest [] [OpGet k] []) (fun c => (range k c, c)) s) as (w & Hw & Hfetch); [apply Hs|by apply (txn_key k); repeat constructor|by repeat constructor|].
  exists w. split; [done|]. cbv zeta. set (s1 := {| kv := kv s; link := w |}).
  assert (Hget : stm_Get k (reset new_stm) s = (Ok (respToValue (range k (kv s)), has_read k (kv s)), s1)).
  { unfold stm_Get, fetch. cbn [reset new_stm wset prefetch rset]. rewrite !lookup_empty. cbn [rset wset prefetch]. rewrite Hfetch.
    cbn. by rewrite insert_empty. }
  unfold Update. cbn [runSTM]. unfold apply. rewrite Hget, stm_Get_again.
  change (respToValue (range k (kv s))) with (match kvs (kv s) !! k with Some (v, _) => v | None => [] end).
  destruct (kvs (kv s) !! k) as [[v st]|] eqn:Hv; [|done]. intros r s2 l2 Hcb.
  rewrite length_nonempty by (by eapply (av_entries _ Hs)). cbn [nobody fst snd].
  change (on_cluster (fun c => c) s1) with s1. rewrite Hcb. destruct r as [v'|e|p]; [|done|done].
  intros Hs2 Hf He2.
  destruct (commit_up k v' (kv s) {| kv := kv s2; link := link s2 |}) as (t & w' & Hw' & Hcom).
  - by destruct s2.
  - done.
  - unfold ModRevision. cbn [kv]. by rewrite He2, Hv.
  - unfold ModRevision. cbn [kv]. rewrite He2. apply (sound_stamps _ (av_sound _ Hs)) in Hv. lia.
  - exists w'. split; [done|]. unfold on_cluster. by rewrite Hcom.
Qed.

(** On a cluster that answers and without other clients, the database keeps the
    promises of the interface. *)
#[local] Instance etcd_db_laws (rounds : nat) :
  @MetaDBLaws etcd (etcd_db nobody close_err (S rounds)) (etcd_db_calls nobody close_err (S rounds)).
Proof using All.
  refine (@Build_MetaDBLaws _ (etcd_db nobody close_err (S rounds)) (etcd_db_calls nobody close_err (S rounds))
    available (fun s k => kvs (kv s) !! k) (fun k => k <> []) fits _ _ _ _ _ _ _ _).
  - done.
  - by intros k v [Hk _].
  - intros s k [v st] Hs Hv. by apply (av_entries _ Hs k v st).
  - intros k v s Hs Hf. destruct (rpc_up (PutRequest k v) (fun c => (tt, put k v c)) s) as (w & Hw & E);
      [apply Hs|by apply length_nonempty, Hf|apply Hf|].
    destruct (etcd_put_law k v s w Hs Hw Hf) as (Hs' & [n Hn] & Ho). eexists _, n. split; [|done]. cbn. unfold Set_, on_err. by rewrite E.
  - intros k s Hs Hk. destruct (rpc_up (RangeRequest k) (fun c => (range k c, c)) s) as (w & Hw & E); [apply Hs|by apply length_nonempty|done|].
    exists {| kv := kv s; link := w |}. split_and!; [|by apply available_link|done]. cbn. unfold Get, pbind, on_err. rewrite E. cbn.
    by destruct (kvs (kv s) !! k) as [[v st]|].
  - intros k s Hs Hk. destruct (rpc_up (DeleteRequest k) (fun c => (tt, remove k c)) s) as (w & Hw & E); [apply Hs|by apply length_nonempty|done|].
    destruct (remove_law k s w Hs Hw) as (Hs' & Hn & Ho). eexists. split; [|done]. cbn. unfold Delete, on_err. by rewrite E.
  - intros L k cb s l Hs Hk He. destruct (etcd_Update_first k cb s l rounds Hs Hk) as (w & Hw & Hu). rewrite He in Hu.
    eexists. split; [exact Hu|]. split; [by apply available_link|done].
  - intros L k cb s l v n Hs Hv. destruct (etcd_Update_first k cb s l rounds Hs) as (w & Hw & Hu); [by apply (av_entries _ Hs k v n)|].
    rewrite Hv in Hu. exists {| kv := kv s; link := w |}. split_and!; [by apply available_link|done|]. intros r s2 l2 Hcb Hs2.
    specialize (Hu r s2 l2 Hcb). destruct r as [v'|e|p]; cbn [md_Update etcd_db].
    + intros Hf He. destruct (Hu Hs2 Hf He) as (w' & Hw' & E). destruct (etcd_put_law k v' s2 w' Hs2 Hw' Hf) as (Hs' & [n' Hn] & Ho).
      eexists _, n'. split; [exact E|done].
    + intros _. exists s2. by split_and!.
    + by exists s2.
Defined.
End Laws.

(** ** Two ways in which errors mislead *)

(** When the deadline of an operation passes, the client library returns the
    error of the context, which is no status error: it is reported as an
    internal error and never as [ErrTimeout]. *)
Lemma deadline_is_no_timeout `{Network W} err : mapETCDError (toErr true err) <> ErrTimeout.
Proof.
  unfold toErr. destruct (known (error_text err)); [done|]. destruct err as [| |code desc|]; [done|done| |done].
  destruct (Z.eqb_spec code codes_DeadlineExceeded) as [->|Hd]; [done|]. cbn [orb].
  destruct (code =? codes_Canceled); [done|]. destruct (code =? codes_FailedPrecondition); [done|]. cbn [mapETCDError].
  destruct (code =? codes_Unavailable); [done|]. by destruct (Z.eqb_spec code codes_DeadlineExceeded).
Qed.

(** ** Runs *)
#[local] Instance fine_network : Network unit := {| call _ w := (Answered, w); known _ := false |}.

#[local] Instance fine_reliable : Reliable unit.
Proof. refine {| up _ := True; small _ _ := True |}. intros req [] _ _. by exists tt. Defined.

Definition kx : bytes := str_bytes "k".
Definition empty : etcd unit := {| kv := {| kvs := ∅; revision := 1 |}; link := tt |}.
Definition start : etcd unit := on_cluster (put kx (str_bytes "old")) empty.

(** Another client sets the key during the first of two rounds. *)
Definition one_writer (n : nat) : (cluster -> cluster) * (cluster -> cluster) :=
  if (n =? 1)%nat then (put kx (str_bytes "new"), fun c => c) else nobody n.

(** The callback appends a byte to the value it is given, and counts its calls. *)
Definition append_bang : slice -> prog (etcd unit * nat) bytes :=
  fun b '(s, n) => (Ok (slice_bytes b ++ str_bytes "!"), (s, S n)).

Lemma etcd_update_atomic_witness :
  exists c, evolves (kv start) c /\ replaces kx append_bang c
    (on_cluster (put kx (str_bytes "new!")) (on_cluster (put kx (str_bytes "new")) start)) 2%nat.
Proof.
  refine (etcd_update_atomic one_writer kx append_bang _ _ 2 start O (Ok tt) _ 2%nat _ _).
  - intros n c. unfold one_writer. destruct (n =? 1)%nat; split; cbn; auto with zstor; reflexivity.
  - intros b s n. reflexivity.
  - apply (evolves_sound (kv empty)); [apply put_evolves|]. split; [done|]. intros k v r. cbn. by rewrite lookup_empty.
  - vm_compute. reflexivity.
Defined.

(** An entry with an empty value is found by [Get], and not by [Update]. *)
Lemma empty_value_not_updated :
  let s := (Set_ kx [] empty).2 in
  (Get kx s).1 = Ok (Some []) /\ (Update nobody kx append_bang 1 (s, O)).1 = Err ErrNotFound.
Proof. by vm_compute. Qed.
End MetaEtcd.
