(* ===== verification/ZClient.v ===== *)
(** * The client ([client/client.go])

    The client stores data through a pipeline and its metadata through the
    metadata client.  [DataPipeline] is the interface [pipeline.Pipeline], with
    the sequential and the parallel pipeline as instances; the state of the
    operations is the world of the pipeline and the metadata database.  The
    time that [EpochNow] returns is an argument. *)

From S2P Require Import Prelude Encoding Spread Pipeline MetaProto MetaProtoProps Metastor MetaMem MetaEtcd.
Open Scope nat_scope.

(** ** The pipelines behind one interface *)
Import AsyncSplitter.

(** [pipeline.Pipeline] *)
Class DataPipeline (D : Type) := {
  pl_Write : option Reader -> prog D (list Chunk);
  pl_Read : forall {Out : Type}, list Chunk -> option (Writer Out) -> Out -> prog D (Out * option error);
  pl_Check : list Chunk -> bool -> prog D CheckStatus;
  pl_Repair : list Chunk -> prog D (list Chunk);
  pl_Delete : list Chunk -> prog D unit;
  pl_Close : prog D unit;
}.

(** [pl_room n d]: the pipeline is in order and may store [n] more chunks;
    [pl_cost r]: the chunks that writing [r] may take; [pl_input r]: what is
    stored of [r]; [pl_stored d cs data]: the chunks [cs] are stored, with
    [data]; [pl_ready]: reading what is stored does not fail. *)
Class DataPipelineLaws (D : Type) `{DataPipeline D} := {
  pl_room : nat -> D -> Prop;
  pl_cost : Reader -> nat;
  pl_input : Reader -> option bytes;
  pl_stored : D -> list Chunk -> bytes -> Prop;
  pl_ready : Prop;
  pl_write_law r n d res d' : pl_Write (Some r) d = (res, d') -> pl_room (pl_cost r + n) d ->
    pl_room n d' /\ (forall cs x, pl_stored d cs x -> pl_stored d' cs x) /\
    (forall cs x, res = Ok cs -> pl_input r = Some x -> cs <> [] /\ pl_stored d' cs x);
  pl_read_law cs x out n d : pl_stored d cs x -> pl_room n d ->
    exists out' err d', pl_Read cs (Some append) out d = (Ok (out', err), d') /\ pl_room n d' /\
      (forall cs' y, pl_stored d cs' y -> pl_stored d' cs' y) /\ (err = None -> out' = out ++ x) /\ (pl_ready -> err = None);
  pl_input_law parts : parts <> [] ->
    pl_input (((fun p => (p, None)) <$> parts) ++ [([], Some EOF)]) = Some (concat parts);
}.

(** [ioutil.ReadAll]: bytes that come with an error are part of the data. *)
Fixpoint ReadAll (r : Reader) : outcome bytes :=
  match r with
  | [] => Ok []
  | (data, None) :: r' => let! rest := ReadAll r' in Ok (data ++ rest)
  | (data, Some e) :: _ => if bool_decide (e = EOF) then Ok data else Err e
  end.

Lemma ReadAll_parts parts : ReadAll (((fun p => (p, None)) <$> parts) ++ [([], Some EOF)]) = Ok (concat parts).
Proof. induction parts as [|p parts IH]; [done|]. cbn. by rewrite IH. Qed.

Lemma splitter_parts parts : splitter (((fun p => (p, None)) <$> parts) ++ [([], Some EOF)]) = Ok <$> parts.
Proof. induction parts as [|p parts IH]; [done|]. cbn. by rewrite IH. Qed.

(** *** The sequential pipeline *)
Section Single.
Context `{ChunkStorage W} (cfg : Pipeline.Config) (close : prog W unit).

#[local] Instance single_pipeline : DataPipeline W := {|
  pl_Write r := SingleObject.Write cfg (ReadAll <$> r);
  pl_Read Out := SingleObject.Read cfg;
  pl_Check := SingleObject.Check;
  pl_Repair := SingleObject.Repair;
  pl_Delete := SingleObject.Delete;
  pl_Close := close;
|}.

Context `{!ChunkStorageLaws W} (hash : bytes -> bytes) (proc : Processor).
Context (Hhash : hasher cfg = Ok hash) (Hproc : processor cfg = Ok proc)
  (Hinv : forall d x, WriteProcess proc d = Ok x -> ReadProcess proc x = Ok d).

Definition single_stored (w : W) (cs : list Chunk) (data : bytes) : Prop :=
  exists c, cs = [c] /\ stored_as hash proc w data c.

Lemma single_stored_keeps w w' :
  (forall cfg d, chunk_at w cfg d -> chunk_at w' cfg d) ->
  forall cs x, single_stored w cs x -> single_stored w' cs x.
Proof using.
  intros Hk cs x (c & -> & Hh & y & Hy & Hat). exists c. split; [done|]. split; [done|]. exists y. auto.
Qed.

#[local] Instance single_pipeline_laws : DataPipelineLaws W.
Proof using All.
  refine {| pl_room := storage_good; pl_cost := fun _ => 1; pl_stored := single_stored; pl_ready := ready;
            pl_input := fun r => match ReadAll r with Ok d => Some d | _ => None end |}.
  - intros r n w res w' Hw Hg. cbn [pl_Write single_pipeline fmap option_fmap option_map SingleObject.Write] in Hw.
    assert (Hno : storage_good n w /\ (forall cs x, single_stored w cs x -> single_stored w cs x)) by (split; [by apply storage_less|done]).
    unfold pbind, plift in Hw. rewrite Hhash, Hproc in Hw.
    destruct (ReadAll r) as [input|e|p]; [|by injection Hw as <- <-; destruct Hno; split_and!..].
    destruct (WriteProcess proc input) as [x|e|p] eqn:Hx; [|by injection Hw as <- <-; destruct Hno; split_and!..].
    destruct (WriteChunk x w) as [c w1] eqn:Hc.
    destruct (write_law _ _ _ _ _ Hc Hg) as (Hg' & Hk & Hat).
    destruct c as [c|e|p]; injection Hw as <- <-; (split_and!; [done|by apply single_stored_keeps|]); [|done..].
    intros cs y [= <-] [= <-]. split; [done|]. eexists. split; [done|]. split; [done|]. exists x. split; [done|].
    destruct c. by apply Hat.
  - intros cs x out n w (c & -> & Hh & y & Hy & Hat) Hg. cbn [pl_Read single_pipeline SingleObject.Read].
    unfold or_fail. unfold pbind at 1 2, plift at 1 2. rewrite Hhash, Hproc.
    match goal with |- context [match ?m w with _ => _ end] => destruct (m w) as [r w1] eqn:E end.
    destruct (read_stored hash proc Hinv (fun d => d) _ x c n w r w1 ltac:(split; [done|by exists y]) Hg E) as (Hg1 & Hk1 & Hnp & Hs & Hr).
    destruct r as [z|e|p]; [| |done].
    + eexists _, None, w1. split_and!; [done|done|by apply single_stored_keeps| |done]. intros _. by rewrite (Hs z eq_refl).
    + exists out, (Some e), w1. split_and!; [done|done|by apply single_stored_keeps|done|]. intros Hrd. by apply Hr in Hrd.
  - intros parts _. by rewrite ReadAll_parts.
Defined.
End Single.

(** *** The parallel pipeline *)

(** The orders in which the goroutines of a call take up tasks and deliver
    results: the pieces of a write and the chunks that are made of them, the
    chunks of a read or a repair and the data of a read, the chunks of a check or
    a delete. *)
Record orders := {
  o_pieces : list (nat * outcome bytes) -> list (nat * outcome bytes); o_stored : list (nat * Chunk) -> list (nat * Chunk);
  o_fetched : list (nat * Chunk) -> list (nat * Chunk); o_read : list (nat * bytes) -> list (nat * bytes);
  o_chunks : list Chunk -> list Chunk;
}.

(** No task and no result is lost. *)
Record permuting (o : orders) : Prop := {
  pieces_perm l : o_pieces o l ≡ₚ l; stored_perm l : o_stored o l ≡ₚ l; fetched_perm l : o_fetched o l ≡ₚ l;
  read_perm l : o_read o l ≡ₚ l; chunks_perm l : o_chunks o l ≡ₚ l;
}.

Definition reversed : orders :=
  {| o_pieces := reverse; o_stored := reverse; o_fetched := reverse; o_read := reverse; o_chunks := reverse |}.

Lemma reversed_permuting : permuting reversed.
Proof. split; apply reverse_Permutation. Qed.

Section Async.
Context `{ChunkStorage W} (asp : AsyncSplitterPipeline) (close : prog W unit).
(** How its goroutines are scheduled: the extra tasks after an error, the race
    between two errors, and the orders of tasks and results. *)
Context (extra : nat) (race : bool).
Context (order : orders) (Horder : permuting order).

#[local] Instance async_pipeline : DataPipeline W := {|
  pl_Write := AsyncSplitter.Write asp extra race (o_pieces order) (o_stored order);
  pl_Read Out := AsyncSplitter.Read asp extra race (o_fetched order) (o_read order);
  pl_Check := AsyncSplitter.Check extra (o_chunks order);
  pl_Repair := AsyncSplitter.Repair extra (o_fetched order);
  pl_Delete := AsyncSplitter.Delete extra (o_chunks order);
  pl_Close := close;
|}.

Context `{!ChunkStorageLaws W} (hash : bytes -> bytes) (proc : Processor).
Context (Hhash : hasher (config asp) = Ok hash) (Hproc : processor (config asp) = Ok proc)
  (Hinv : forall d x, WriteProcess proc d = Ok x -> ReadProcess proc x = Ok d) (Hjobs : 0 < storageJobCount asp).

Definition async_stored (w : W) (cs : list Chunk) (data : bytes) : Prop :=
  exists parts, parts <> [] /\ data = concat parts /\ Forall2 (stored_as hash proc w) parts cs.

Lemma async_stored_keeps w w' :
  (forall cfg d, chunk_at w cfg d -> chunk_at w' cfg d) ->
  forall cs x, async_stored w cs x -> async_stored w' cs x.
Proof using.
  intros Hk cs x (parts & Hne & -> & Hall). exists parts. split_and!; [done|done|].
  eapply Forall2_impl; [exact Hall|]. intros d c (Hh & y & Hy & Hat). split; [done|]. exists y. auto.
Qed.

(** The data of a reader that has some and gives no error. *)
Fixpoint joined (l : list (outcome bytes)) : option bytes :=
  match l with
  | [] => Some []
  | Ok d :: l' => app d <$> joined l'
  | _ => None
  end.

Definition pieces (r : Reader) : option bytes :=
  match splitter r with [] => None | l => joined l end.

Lemma joined_parts parts : joined (Ok <$> parts) = Some (concat parts).
Proof using. induction parts as [|p parts IH]; [done|]. cbn. change (list_fmap _ _ Ok parts) with (Ok <$> parts). by rewrite IH. Qed.

Lemma pieces_parts r parts x : splitter r = Ok <$> parts -> pieces r = Some x -> parts <> [] /\ x = concat parts.
Proof using.
  unfold pieces. intros -> Hp. destruct parts as [|p parts]; [done|]. split; [done|].
  change (joined (Ok <$> (p :: parts)) = Some x) in Hp. rewrite joined_parts in Hp. by injection Hp.
Qed.

#[local] Instance async_pipeline_laws : DataPipelineLaws W.
Proof using All.
  refine {| pl_room := storage_good; pl_cost := fun r => length (splitter r); pl_stored := async_stored; pl_ready := ready; pl_input := pieces |}.
  - intros r n w res w' Hw Hg. cbn [pl_Write async_pipeline] in Hw.
    destruct (Write_frame asp hash proc Hhash Hproc _ _ _ _ _ _ _ _ _ (pieces_perm _ Horder) Hg Hw) as [Hg' Hk].
    split_and!; [done|by apply async_stored_keeps|]. intros cs x -> Hx.
    destruct (Write_spec asp hash proc Hhash Hproc Hjobs _ _ _ _ _ _ _ _ _ (pieces_perm _ Horder) (stored_perm _ Horder) Hg Hw)
      as (_ & _ & parts & Hs & Hst). destruct (pieces_parts _ _ _ Hs Hx) as [Hne ->].
    split; [by intros ->; apply Forall2_nil_inv_r in Hst|]. by exists parts.
  - intros cs x out n w (parts & Hne & -> & Hst) Hg. cbn [pl_Read async_pipeline].
    destruct (Read_spec asp hash proc Hhash Hproc Hinv extra race (o_fetched order) (o_read order) parts cs out n w)
      as (out' & err & w' & Hr & Hg' & Hk & Ho & He); [apply fetched_perm, Horder|apply read_perm, Horder|done..|].
    exists out', err, w'. split_and!; [done|done|by apply async_stored_keeps|done|done].
  - intros parts Hne. unfold pieces. rewrite splitter_parts. destruct parts as [|p parts]; [done|].
    exact (joined_parts (p :: parts)).
Defined.
End Async.

(** ** [client.go] *)
Definition ErrNilKey := ErrVar "client" "ErrNilKey" "Client: nil/empty key given".
Definition ErrRepairSupport := ErrVar "client" "ErrRepairSupport"
  "data is not stored using replication or distribution, repair impossible".

(** Calls on one of the two parts of the state. *)
Definition on_data {D M A} (p : prog D A) : prog (D * M) A := fun '(d, m) => let '(r, d) := p d in (r, (d, m)).
Definition on_meta {D M A} (p : prog M A) : prog (D * M) A := fun '(d, m) => let '(r, m) := p m in (r, (d, m)).

(** [md.Size += chunk.Size] over the chunks. *)
Definition total_size (chunks : list Chunk) : Z := foldl (fun size c => i64 (size + ch_Size c)) 0%Z chunks.

(** The variables that the callback of [Repair] captures. *)
Record repair_vars := { repairedChunks : list Chunk; totalSizeAfterRepair : Z; repairEpoch : Z }.

(** The constructor takes two pointers. *)
Definition NewClient {A B} (metaClient : option A) (dataPipeline : option B) : outcome (A * B) :=
  match metaClient, dataPipeline with
  | None, _ => Panic "0-stor Client: no metastor client given"
  | Some _, None => Panic "0-stor Client: no data pipeline given"
  | Some c, Some p => Ok (c, p)
  end.

Section Client.
Context `{DataPipeline D} `{MetaDB M} (c : MarshalFuncPair).
Local Abbreviation Z0 := (D * M)%type.

(** What [Write] and [WriteLinked] record for new data. *)
Definition new_metadata (now : Z) (key : bytes) (prevKey : slice) (chunks : list Chunk) : Metadata :=
  {| Key := key; Size := total_size chunks; CreationEpoch := now; LastWriteEpoch := now; Chunks := chunks;
     PreviousKey := prevKey; NextKey := None |}.

Definition Write (now : Z) (key : bytes) (r : option Reader) : prog Z0 (option Metadata * option error) :=
  if (length key =? 0) then pret (None, Some ErrNilKey)
  else fun s =>
    match on_data (pl_Write r) s with
    | (Err e, s) => (Ok (None, Some e), s)
    | (Panic p, s) => (Panic p, s)
    | (Ok chunks, s) =>
        let md := new_metadata now key None chunks in
        match on_meta (SetMetadata c md) s with
        | (Ok _, s) => (Ok (Some md, None), s)
        | (Err e, s) => (Ok (Some md, Some e), s)
        | (Panic p, s) => (Panic p, s)
        end
    end.

Definition ReadWithMeta {Out} (meta : Metadata) (w : option (Writer Out)) (out : Out) : prog Z0 (Out * option error) :=
  on_data (pl_Read (Chunks meta) w out).

Definition Read {Out} (key : bytes) (w : option (Writer Out)) (out : Out) : prog Z0 (Out * option error) :=
  if (length key =? 0) then pret (out, Some ErrNilKey)
  else or_fail out (on_meta (GetMetadata c key)) (fun meta => ReadWithMeta meta w out).

Definition DeleteWithMeta (meta : Metadata) : prog Z0 unit :=
  do! _ := on_data (pl_Delete (Chunks meta)) in
  on_meta (DeleteMetadata (Key meta)).

Definition Delete (key : bytes) : prog Z0 unit :=
  if (length key =? 0) then pfail ErrNilKey
  else do! meta := on_meta (GetMetadata c key) in DeleteWithMeta meta.

Definition CheckWithMeta (meta : Metadata) (fast : bool) : prog Z0 CheckStatus := on_data (pl_Check (Chunks meta) fast).

Definition Check (key : bytes) (fast : bool) : prog Z0 CheckStatus :=
  if (length key =? 0) then pfail ErrNilKey
  else do! meta := on_meta (GetMetadata c key) in CheckWithMeta meta fast.

(** The callback of [Repair] repairs in its first call. *)
Definition repair_step (now : Z) : UpdateMetadataFunc (M := M) (D * repair_vars) :=
  fun meta '(m, (d, v)) =>
    let done v := (Some {| Key := Key meta; Size := totalSizeAfterRepair v; CreationEpoch := CreationEpoch meta;
                           LastWriteEpoch := repairEpoch v; Chunks := repairedChunks v;
                           PreviousKey := PreviousKey meta; NextKey := NextKey meta |}, None) in
    if (repairEpoch v =? 0)%Z then
      match pl_Repair (Chunks meta) d with
      | (Ok chunks, d) =>
          let v := {| repairedChunks := chunks; repairEpoch := now;
                      totalSizeAfterRepair := foldl (fun size c => i64 (size + ch_Size c)) (totalSizeAfterRepair v) chunks |} in
          (Ok (done v), (m, (d, v)))
      | (Err e, d) =>
          (Ok (None, Some (if bool_decide (e = ErrNotSupported) then ErrRepairSupport else e)),
           (m, (d, {| repairedChunks := []; totalSizeAfterRepair := totalSizeAfterRepair v; repairEpoch := 0 |})))
      | (Panic p, d) => (Panic p, (m, (d, v)))
      end
    else (Ok (done v), (m, (d, v))).

Definition Repair (now : Z) (key : bytes) : prog Z0 (option Metadata * option error) :=
  if (length key =? 0) then pret (None, Some ErrNilKey)
  else fun '(d, m) =>
    let '(r, (m, (d, _))) := UpdateMetadata c key (repair_step now)
      (m, (d, {| repairedChunks := []; totalSizeAfterRepair := 0; repairEpoch := 0 |})) in
    (r, (d, m)).

(** [closeErrors] and the text of its [Error] method. *)
Definition closeErrors (ce : list error) : error :=
  ErrNew (foldr (fun e str => error_text e +:+ ";" +:+ str) "" ce).

Definition Close : prog Z0 unit := fun s =>
  match on_meta Metastor.Close s with
  | (Panic p, s) => (Panic p, s)
  | (r1, s) =>
      match on_data pl_Close s with
      | (Panic p, s) => (Panic p, s)
      | (r2, s) =>
          let errs {A} (r : outcome A) := match r with Err e => [e] | _ => [] end in
          match errs r1 ++ errs r2 with
          | [] => (Ok tt, s)
          | ce => (Err (closeErrors ce), s)
          end
      end
  end.
End Client.

(** ** A repair and retries *)
Section RepairOnce.
Context `{DataPipeline D} `{MetaDBCalls M} (c : MarshalFuncPair).

(** C22. A repair touches the data stores at most once, however often the
    database retries the update because of concurrent changes, and also when
    the update fails in the end: the data stores are as before, or as one call of
    the pipeline's repair left them. *)
Theorem repair_once (now : Z) (key : bytes) (d : D) (m : M) (r : outcome (option Metadata * option error)) (d' : D) (m' : M) :
  now <> 0%Z -> (forall cs e d2, pl_Repair cs d = (Err e, d2) -> md_conflict e = false) -> md_conflict ErrRepairSupport = false ->
  Repair c now key (d, m) = (r, (d', m')) ->
  d' = d \/ exists cs, d' = (pl_Repair cs d).2.
Proof using.
  intros Hnow Hne Hns. unfold Repair. destruct (length key =? 0); [by intros [= _ <- _]; left|].
  destruct (UpdateMetadata c key _ _) as [u [m1 [d1 v1]]] eqn:Hu. intros [= _ <- _].
  eapply (UpdateMetadata_inv c key _
    (fun l : D * repair_vars => repairEpoch l.2 = 0%Z /\ l.1 = d \/ repairEpoch l.2 <> 0%Z /\ exists cs, l.1 = (pl_Repair cs d).2)
    (fun l : D * repair_vars => l.1 = d \/ exists cs, l.1 = (pl_Repair cs d).2)) in Hu;
    [exact Hu| |intros l [[_ Hl]|[_ Hl]]; [by left|by right]|by left].
  clear -Hnow Hne Hns. intros md m [d0 v0] res m' [d' v'] HI. unfold repair_step. cbn [fst snd] in *.
  destruct (Z.eqb_spec (repairEpoch v0) 0) as [E|E]; [|by intros [= <- _ <- <-]].
  destruct HI as [[_ Hd]|[Hx _]]; [|done]. subst d0.
  destruct (pl_Repair (Chunks md) d) as [[chunks|e|p] d2] eqn:Hrep; intros [= <- _ <- <-].
  - right. split; [done|]. exists (Chunks md). by rewrite Hrep.
  - assert (Hc : md_conflict (if bool_decide (e = ErrNotSupported) then ErrRepairSupport else e) = false).
    { destruct (bool_decide _); [done|]. by eapply Hne. }
    rewrite Hc. right. exists (Chunks md). by rewrite Hrep.
  - right. exists (Chunks md). by rewrite Hrep.
Qed.

End RepairOnce.

(** ** The client is a key-value store *)
Section Properties.
Context `{DataPipelineLaws D} `{MetaDBLaws M} (c : MarshalFuncPair) `{!Codec c}.

(** The state stores the data [kv], with room for [n] more chunks. *)
Record represents (n : nat) (kv : gmap bytes bytes) (s : D * M) : Prop := {
  rep_room : pl_room n s.1;
  rep_ok : md_ok s.2;
  rep_some k x : k <> [] -> kv !! k = Some x -> exists md, has c s.2 k md /\ Chunks md <> [] /\ pl_stored s.1 (Chunks md) x;
  rep_none k : k <> [] -> kv !! k = None -> md_entry s.2 k = None;
}.

Lemma rep_weaken n n' kv d d' m m' :
  represents n kv (d, m) -> pl_room n' d' -> (forall cs x, pl_stored d cs x -> pl_stored d' cs x) ->
  md_ok m' -> same_entries m m' -> represents n' kv (d', m').
Proof using.
  intros [_ _ Hs Hn] Hr Hk Hm He. split; [done|done| |]; cbn [fst snd] in *.
  - intros k x Hkn Hx. destruct (Hs k x Hkn Hx) as (md & Hh & Hne & Hst). exists md.
    split_and!; [eapply has_entry; [apply He|done]|done|auto].
  - intros k Hkn Hx. rewrite He. auto.
Qed.

Lemma decoded_chunks old md : Chunks md <> [] -> Chunks (decoded old md) = Chunks md.
Proof using. by destruct md as [? ? ? ? [|? ?] ? ?]. Qed.

(** A write either stores the data under the key or changes nothing that can be
    read. *)
Lemma Write_refines now key r x n kv s res s' :
  key <> [] -> represents (pl_cost r + n) kv s -> pl_input r = Some x ->
  (forall chunks d', pl_Write (Some r) s.1 = (Ok chunks, d') -> storable c key (new_metadata now key None chunks)) ->
  Write c now key (Some r) s = (res, s') ->
  (exists md, res = Ok (Some md, None) /\ Key md = key /\ represents n (<[key := x]> kv) s') \/
  ((forall md, res <> Ok (Some md, None)) /\ represents n kv s').
Proof using.
  intros Hk Hrep Hx Henc. destruct s as [d m]. unfold Write, on_data, on_meta. rewrite length_nonempty by done.
  destruct (pl_Write (Some r) d) as [w d1] eqn:Hw.
  destruct (pl_write_law r n d w d1 Hw (rep_room _ _ _ Hrep)) as (Hroom & Hkeep & Hst).
  assert (Hrep1 : represents n kv (d1, m)) by (eapply rep_weaken; [exact Hrep|done|done|apply Hrep|done]).
  destruct w as [chunks|e|p]; [|intros [= <- <-]; right; by split..].
  set (md := new_metadata now key None chunks).
  destruct (SetMetadata_spec c md m (rep_ok _ _ _ Hrep) (Henc chunks d1 Hw)) as (m1 & -> & Hm1 & Hhas & Hsame).
  intros [= <- <-]. left. exists md. split_and!; [done|done|]. destruct (Hst chunks x eq_refl Hx) as [Hne Hs].
  destruct Hrep1 as [_ _ Hsome Hnone]. cbn [fst snd] in *. split; [done|done| |]; cbn [fst snd].
  - intros k y Hkn Hy. apply lookup_insert_Some in Hy as [[<- <-]|[Hne' Hy]]; [by exists md|].
    destruct (Hsome k y Hkn Hy) as (md' & Hh & Hc & Hs'). exists md'. split_and!; [|done|done].
    eapply has_entry; [|exact Hh]. apply Hsame. naive_solver.
  - intros k Hkn Hy. apply lookup_insert_None in Hy as [Hy Hne']. rewrite Hsame by naive_solver. auto.
Qed.

(** What a read gives for an entry of the map: the data, or for a key without
    data [ErrNotFound].  The data may be out of reach, but it is never wrong. *)
Definition reads_as (x : option bytes) (out out' : bytes) (err : option error) : Prop :=
  match x with
  | Some x => (err = None -> out' = out ++ x) /\ (pl_ready -> err = None)
  | None => out' = out /\ err = Some Metastor.ErrNotFound
  end.

Lemma Read_refines key out n kv s :
  key <> [] -> represents n kv s ->
  exists out' err s', represents n kv s' /\ Read c key (Some append) out s = (Ok (out', err), s') /\ reads_as (kv !! key) out out' err.
Proof using.
  intros Hk Hrep. destruct s as [d m]. unfold Read, ReadWithMeta, or_fail, on_meta, on_data. rewrite length_nonempty by done.
  destruct (kv !! key) as [x|] eqn:Hx.
  - destruct (rep_some _ _ _ Hrep key x Hk Hx) as (md & Hh & Hne & Hst). cbn [fst snd] in *.
    destruct (GetMetadata_spec c key md m (rep_ok _ _ _ Hrep) Hh) as (m1 & -> & Hm1 & Hsame).
    rewrite decoded_chunks by done.
    destruct (pl_read_law _ _ out n d Hst (rep_room _ _ _ Hrep)) as (out' & err & d1 & -> & Hroom & Hkeep & Ho & He).
    exists out', err, (d1, m1). split; [|done]. by eapply rep_weaken.
  - destruct (GetMetadata_missing c key m (rep_ok _ _ _ Hrep) Hk) as (m1 & -> & Hm1 & Hsame).
    { by apply (rep_none _ _ _ Hrep). }
    eexists _, _, (d, m1). split; [|done]. eapply rep_weaken; [exact Hrep|apply Hrep|done|done|done].
Qed.

Lemma Read_ready key out n kv s :
  pl_ready -> key <> [] -> represents n kv s ->
  exists s', represents n kv s' /\
    Read c key (Some append) out s =
      (Ok (match kv !! key with Some x => (out ++ x, None) | None => (out, Some Metastor.ErrNotFound) end), s').
Proof using.
  intros Hrd Hk Hrep. destruct (Read_refines key out n kv s Hk Hrep) as (out' & err & s' & Hrep' & Hr & Has). exists s'. split; [done|].
  rewrite Hr. destruct (kv !! key) as [x|]; destruct Has as [H1' H2']; [|by subst]. by rewrite (H1' (H2' Hrd)), (H2' Hrd).
Qed.

(** The client implements a map from keys to data.  In a state that stores
    the map [kv], a read of a key reports [ErrNotFound] for a key that is not in
    it; otherwise a read that reports nothing has appended exactly the data of
    [kv], and it reports nothing when the pipeline is ready.  A write that succeeds leads to
    a state that stores the map with the key bound to what was read from the
    reader; a write that fails, at whatever point and with whatever debris in
    the data stores, leaves a state that stores the same map. *)
Theorem client_refines_map (key : bytes) (n : nat) (kv : gmap bytes bytes) (s : D * M) :
  key <> [] -> represents n kv s ->
  (forall out, exists out' err s', represents n kv s' /\
     Read c key (Some append) out s = (Ok (out', err), s') /\ reads_as (kv !! key) out out' err) /\
  (forall now r x k res s', n = pl_cost r + k -> pl_input r = Some x ->
     (forall chunks d', pl_Write (Some r) s.1 = (Ok chunks, d') -> storable c key (new_metadata now key None chunks)) ->
     Write c now key (Some r) s = (res, s') ->
     (exists md, res = Ok (Some md, None) /\ Key md = key /\ represents k (<[key := x]> kv) s') \/
     ((forall md, res <> Ok (Some md, None)) /\ represents k kv s')).
Proof using.
  intros Hk Hrep. split; [intros out; by apply Read_refines|]. intros now r x k res s' -> Hx Henc Hw.
  by eapply Write_refines.
Qed.

(** ** Repair *)
Definition repaired_metadata (now : Z) (chunks : list Chunk) (md : Metadata) : Metadata :=
  {| Key := Key md; Size := total_size chunks; CreationEpoch := CreationEpoch md; LastWriteEpoch := now;
     Chunks := chunks; PreviousKey := PreviousKey md; NextKey := NextKey md |}.

(** What a repair records: it stores the repaired chunks, their total size
    and the time of the repair under the key and keeps key, creation time and
    links; when the storage cannot repair, the client reports
    [ErrRepairSupport], another failure is passed on, and the metadata stays as
    it was; a missing key is [ErrNotFound] and nothing is repaired. *)
Theorem repair_outcome (now : Z) (key : bytes) (d : D) (m : M) :
  key <> [] -> md_ok m -> md_conflict ErrRepairSupport = false ->
  (md_entry m key = None -> exists m', Repair c now key (d, m) = (Ok (Some zero_metadata, Some Metastor.ErrNotFound), (d, m')) /\
     same_entries m m') /\
  (forall md, has c m key md ->
     let md := decoded [] md in
     match pl_Repair (Chunks md) d with
     | (Ok chunks, d') => storable c key (repaired_metadata now chunks md) -> exists m',
         Repair c now key (d, m) = (Ok (Some (repaired_metadata now chunks md), None), (d', m')) /\
         has c m' key (repaired_metadata now chunks md) /\ same_but key m m'
     | (Err e, d') => md_conflict e = false -> exists m',
         Repair c now key (d, m) = (Ok (None, Some (if bool_decide (e = ErrNotSupported) then ErrRepairSupport else e)), (d', m')) /\
         same_entries m m'
     | (Panic p, _) => True
     end).
Proof using.
  intros Hk Hm Hns. unfold Repair. rewrite length_nonempty by done. split.
  - intros He. destruct (UpdateMetadata_missing c key (repair_step now) m
      (d, {| repairedChunks := []; totalSizeAfterRepair := 0; repairEpoch := 0 |}) Hm Hk He) as (m' & -> & _ & Hs). by exists m'.
  - intros md Hh. cbv zeta. set (md0 := decoded [] md).
    destruct (UpdateMetadata_spec c key (repair_step now) md m
      (d, {| repairedChunks := []; totalSizeAfterRepair := 0; repairEpoch := 0 |}) Hm Hh) as (m1 & Hm1 & Hs1 & Hup).
    fold md0 in Hup. cbn [repair_step repairEpoch Z.eqb] in Hup.
    destruct (pl_Repair (Chunks md0) d) as [[chunks|e|p] d'] eqn:Hrep; [| |done].
    + intros Henc. destruct (Hup _ _ _ _ eq_refl Hm1 Henc) as (m' & -> & Hm' & Hh' & Ho); [by rewrite Hs1|].
      exists m'. split_and!; [done|done|]. intros k' Hk'. rewrite Ho, Hs1; done.
    + intros Hc. destruct (Hup _ _ _ _ eq_refl Hm1) as (m' & -> & Hm' & Hs'); [by destruct (bool_decide _)|].
      exists m'. split; [done|]. intros k'. by rewrite Hs', Hs1.
Qed.

(** A delete while the metadata database is available: it removes the metadata of
    a key after the pipeline has deleted its chunks; when the metadata is not
    there or the chunks cannot be deleted, the error is returned and the metadata stays. *)
Theorem delete_outcome (key : bytes) (d : D) (m : M) :
  key <> [] -> md_ok m ->
  (md_entry m key = None -> exists m', Delete c key (d, m) = (Err Metastor.ErrNotFound, (d, m')) /\ same_entries m m') /\
  (forall md, has c m key md -> Key md = key ->
     let cs := Chunks (decoded [] md) in
     match pl_Delete cs d with
     | (Ok _, d') => exists m', Delete c key (d, m) = (Ok tt, (d', m')) /\ md_entry m' key = None /\ same_but key m m'
     | (Err e, d') => exists m', Delete c key (d, m) = (Err e, (d', m')) /\ same_entries m m'
     | (Panic p, d') => exists m', Delete c key (d, m) = (Panic p, (d', m')) /\ same_entries m m'
     end).
Proof using.
  intros Hk Hm. unfold Delete, DeleteWithMeta, pbind, on_meta, on_data. rewrite length_nonempty by done. split.
  - intros He. destruct (GetMetadata_missing c key m Hm Hk He) as (m1 & -> & _ & Hs). by exists m1.
  - intros md Hh Hkey. cbv zeta. assert (Hmk : md_key key) by (destruct Hh as (b & v & Hb & _); by eapply entry_key).
    destruct (GetMetadata_spec c key md m Hm Hh) as (m1 & -> & Hm1 & Hs1).
    destruct (pl_Delete _ d) as [[[]|e|p] d1]; [|by exists m1..].
    cbn [Key decoded]. rewrite Hkey. destruct (DeleteMetadata_spec key m1 Hm1 Hmk) as (m2 & -> & Hm2 & He & Ho).
    exists m2. split_and!; [done|done|]. intros k' Hk'. rewrite Ho, Hs1; done.
Qed.
End Properties.

(** ** Deletes while the metadata database fails *)
Section Faults.
Context `{DataPipeline D} `{MetaDBFaults M} (c : MarshalFuncPair).

(** The metadata that the database holds under a key. *)
Definition entry_of (m : M) (key : bytes) (md : Metadata) : Prop :=
  exists b, md_value m key = Some b /\ Unmarshal c (Some b) (Some zero_metadata) = Ok md.

(** The same failure. *)
Definition fails_as {A B} (x : outcome A) (y : outcome B) : Prop :=
  match x, y with Err e, Err e' => e = e' | Panic p, Panic p' => p = p' | _, _ => False end.

Lemma GetMetadata_faults key m r m' :
  GetMetadata c key m = (r, m') -> (forall k, md_value m' k = md_value m k) /\ (forall md, r = Ok md -> entry_of m key md).
Proof using.
  unfold GetMetadata. destruct (length key =? 0); [by intros [= <- <-]|]. unfold pbind, plift.
  destruct (md_Get key m) as [[b|e|p] m1] eqn:Hg; intros [= <- <-]; destruct (get_faults _ _ _ _ Hg) as [Hs Hb]; (split; [done|]); [|done..].
  intros md Hu. destruct (Hb b eq_refl) as (v & -> & Hv). by exists v.
Qed.

(** C23. Data goes before metadata, whatever fails: when metadata cannot be read,
    nothing is deleted and the error is returned; when the data cannot
    be deleted, the error is returned and the metadata stays, so that the data
    remains known; once the data is deleted a delete that succeeds has removed the metadata, and
    one that fails, since the metadata database did, has removed it or left it,
    with the data gone in both cases.  No other metadata changes. *)
Theorem delete_order (key : bytes) (d d' : D) (m m' : M) (r : outcome unit) :
  key <> [] -> (forall md, entry_of m key md -> Key md = key) -> Delete c key (d, m) = (r, (d', m')) ->
  (forall k, k <> key -> md_value m' k = md_value m k) /\
  ((exists x, GetMetadata c key m = (x, m') /\ fails_as x r /\ d' = d /\ md_value m' key = md_value m key) \/
   exists md, entry_of m key md /\ d' = (pl_Delete (Chunks md) d).2 /\
     match (pl_Delete (Chunks md) d).1 with
     | Ok _ => md_value m' key = None \/ r <> Ok tt /\ md_value m' key = md_value m key
     | x => fails_as x r /\ md_value m' key = md_value m key
     end).
Proof using.
  intros Hk Hkey. unfold Delete, DeleteWithMeta, on_meta, on_data. rewrite length_nonempty by done. unfold pbind.
  destruct (GetMetadata c key m) as [x m1] eqn:Hg. destruct (GetMetadata_faults _ _ _ _ Hg) as [Hs Hmd].
  destruct x as [md|e|p]; [|intros [= <- <- <-]; split; [auto|left; by eexists]..].
  specialize (Hmd md eq_refl). rewrite (Hkey md Hmd). destruct (pl_Delete (Chunks md) d) as [[[]|e|p] d1] eqn:Hd;
    [|intros [= <- <- <-]; (split; [auto|]); right; exists md; rewrite Hd; by split_and!..].
  unfold DeleteMetadata. rewrite length_nonempty by done. destruct (md_Delete key m1) as [x m2] eqn:Hdel. intros [= <- <- <-].
  destruct (delete_faults _ _ _ _ Hdel) as [Ho Hx]. split; [intros k Hne; by rewrite Ho, Hs|]. right. exists md. rewrite Hd.
  split_and!; [done|done|]. rewrite <- Hs. exact Hx.
Qed.
End Faults.

(** ** A client over a list of chunks and the in-memory database *)
#[export] Instance demo_data : DataPipeline (list bytes) :=
  async_pipeline demo_pipeline (pret tt) 0 false reversed.

#[export] Instance demo_data_laws : DataPipelineLaws (list bytes) :=
  async_pipeline_laws demo_pipeline (pret tt) 0 false reversed reversed_permuting
    (take 2) reversing eq_refl eq_refl
    (fun d x E => ltac:(injection E as <-; cbn; by rewrite reverse_involutive)) ltac:(cbn; lia).

#[export] Instance demo_meta : MetaDB MetaMem.DB := MetaMem.mem_db MetaMem.nobody 1.
#[export] Instance demo_meta_calls : MetaDBCalls MetaMem.DB := MetaMem.mem_db_calls MetaMem.nobody 1.
#[export] Instance demo_meta_laws : MetaDBLaws MetaMem.DB := MetaMem.mem_db_laws 0.

Definition demo_key : bytes := str_bytes "key".
Definition demo_text : bytes := str_bytes "zero-stor!".
Definition demo_input : Reader := bytes_reader 3 10 demo_text.
Definition demo_empty : list bytes * MetaMem.DB := ([], MetaMem.New).

(** The state after a first write. *)
Definition demo_run := Write proto_pair 7 demo_key (Some demo_input) demo_empty.

Lemma demo_represents n : represents proto_pair n ∅ demo_empty.
Proof. split; done. Qed.

(** The metadata that the first write stores. *)
Definition demo_md : Metadata := new_metadata 7 demo_key None demo_chunks.

Lemma demo_encodable : encodable demo_md.
Proof.
  unfold encodable, is_i64. split; [|split; [|split; [|split]]]; [vm_compute; split; congruence..| |vm_compute; done].
  change (Chunks demo_md) with demo_chunks. repeat (constructor; [vm_compute; split; congruence|]). constructor.
Qed.

Lemma client_refines_map_witness : represents proto_pair 0 {[demo_key := demo_text]} demo_run.2.
Proof.
  destruct (proj2 (client_refines_map proto_pair demo_key 4 ∅ demo_empty ltac:(done) (demo_represents 4)) 7%Z demo_input
    demo_text 0 demo_run.1 demo_run.2) as [(md & _ & _ & Hrep)|[Hne _]].
  - reflexivity.
  - vm_compute. reflexivity.
  - intros chunks d' E. assert (chunks = demo_chunks) as -> by (vm_compute in E; by injection E).
    split; [exact demo_encodable|done].
  - unfold demo_run. by destruct (Write _ _ _ _ _).
  - exact Hrep.
  - exfalso. eapply Hne. vm_compute. reflexivity.
Defined.

Lemma demo_has : has proto_pair demo_run.2.2 demo_key demo_md.
Proof.
  exists (encoding demo_md), 1%Z. split; [vm_compute; reflexivity|]. intros old. apply UnmarshalMetadata_encoding, demo_encodable.
Qed.

(** A pipeline that counts its writes and repairs, and a database in which another writer
    is faster in two of three rounds. *)
#[local] Instance counting_pipeline : DataPipeline nat := {|
  pl_Write _ := fun n => (Ok [], S n); pl_Read _ _ _ out := pret (out, None); pl_Check _ _ := pret CheckStatusOptimal;
  pl_Repair cs := fun n => (Ok cs, S n); pl_Delete _ := pret tt; pl_Close := pret tt;
|}.

Definition two_writers (n : nat) : list MetaMem.op * list MetaMem.op :=
  if (n =? 0) then ([], []) else ([MetaMem.OpSet demo_key (encoding demo_md)], []).

Lemma repair_once_witness :
  let busy := MetaMem.mem_db two_writers 3 in
  let s := (0, demo_run.2.2) in
  (Repair (H0 := busy) proto_pair 9 demo_key s).2.1 = 1 /\ (1 = 0 \/ exists cs : list Chunk, 1 = (pl_Repair cs 0).2).
Proof.
  cbv zeta. split; [vm_compute; reflexivity|].
  apply (repair_once (H0 := MetaMem.mem_db two_writers 3) (H1 := MetaMem.mem_db_calls two_writers 3) proto_pair 9 demo_key 0 demo_run.2.2
    (Repair (H0 := MetaMem.mem_db two_writers 3) proto_pair 9 demo_key (0, demo_run.2.2)).1 1
    (Repair (H0 := MetaMem.mem_db two_writers 3) proto_pair 9 demo_key (0, demo_run.2.2)).2.2);
    [done|done|done|vm_compute; reflexivity].
Defined.

(** The list storage cannot repair: the client says so. *)
Lemma repair_outcome_witness :
  exists m', Repair proto_pair 9 demo_key demo_run.2 = (Ok (None, Some ErrRepairSupport), (demo_run.2.1, m')) /\
    same_entries demo_run.2.2 m'.
Proof.
  destruct (proj2 (repair_outcome proto_pair 9 demo_key demo_run.2.1 demo_run.2.2 ltac:(done) eq_refl eq_refl) demo_md demo_has eq_refl)
    as (m' & Hr & Hs).
  exists m'. split; [|exact Hs]. rewrite <- (surjective_pairing demo_run.2) in Hr. rewrite Hr. vm_compute. reflexivity.
Defined.

Lemma delete_outcome_witness :
  exists m', Delete proto_pair demo_key demo_run.2 = (Err ErrNotSupported, (demo_run.2.1, m')) /\
    same_entries demo_run.2.2 m'.
Proof.
  destruct (proj2 (delete_outcome proto_pair demo_key demo_run.2.1 demo_run.2.2 ltac:(done) eq_refl) demo_md demo_has eq_refl)
    as (m' & Hr & Hs).
  exists m'. split; [|exact Hs]. rewrite <- (surjective_pairing demo_run.2) in Hr. rewrite Hr. vm_compute. reflexivity.
Defined.

(** *** A cluster that deletes, and whose answer is lost *)
#[local] Instance lossy : MetaEtcd.Network unit := {|
  MetaEtcd.call req w :=
    match req with MetaEtcd.DeleteRequest _ => (MetaEtcd.Broken true false (ErrStatus 14 "transport is closing"), w) | _ => (MetaEtcd.Answered, w) end;
  MetaEtcd.known _ := false;
|}.

Definition stored_once : MetaEtcd.etcd unit := MetaEtcd.on_cluster (MetaEtcd.put demo_key (encoding demo_md)) MetaEtcd.empty.

Lemma stored_once_value :
  md_value (MetaDBFaults := MetaEtcd.etcd_db_faults MetaEtcd.nobody None 1) stored_once demo_key = Some (encoding demo_md).
Proof. cbn [md_value MetaEtcd.etcd_db_faults stored_once MetaEtcd.on_cluster MetaEtcd.put MetaEtcd.kv MetaEtcd.kvs]. by rewrite lookup_insert_eq. Qed.

Lemma delete_order_witness :
  let lost := MetaEtcd.etcd_db MetaEtcd.nobody None 1 in
  let faults := MetaEtcd.etcd_db_faults MetaEtcd.nobody None 1 in
  let run := Delete (H0 := lost) proto_pair demo_key (0, stored_once) in
  run.1 = Err ErrUnavailable /\
  (md_value (MetaDBFaults := faults) run.2.2 demo_key = None \/
   md_value (MetaDBFaults := faults) run.2.2 demo_key = md_value (MetaDBFaults := faults) stored_once demo_key).
Proof.
  intros lost faults run. split; [vm_compute; reflexivity|].
  destruct (delete_order (H0 := lost) (H1 := faults) proto_pair demo_key 0 run.2.1 stored_once run.2.2 run.1) as [_ Hr].
  - done.
  - intros md (b & Hb & Hu). unfold lost, faults in Hb. rewrite stored_once_value in Hb. injection Hb as <-.
    rewrite UnmarshalMetadata_encoding in Hu by apply demo_encodable. by injection Hu as <-.
  - unfold run. by destruct (Delete _ _ _) as [? [? ?]].
  - destruct Hr as [(x & _ & _ & _ & Hs)|(md & _ & _ & [Hn|[_ Hs]])]; [by right|by left|by right].
Defined.
