(* ===== verification/Upkeep.v ===== *)
(** * Checking, repairing and deleting through a pipeline

    The laws of [ZClient] say what a pipeline writes and reads.  Here is what
    it uses for that: which objects it has been given, that it takes no others,
    and that checks, repairs and deletes stay within the objects of the chunks
    that they are called with -- also when these are damaged or gone.  Both
    pipelines are shown to follow from the chunk storage's part of this. *)

From S2P Require Import Prelude Encoding Spread Pipeline MetaProto MetaProtoProps Metastor ZClient.
Import AsyncSplitter.
Open Scope nat_scope.

(** The objects of some chunks; [pl_named]: all of them have keys. *)
Definition objects_of (cs : list Chunk) : list MetaObject := concat (ch_Objects <$> cs).

Definition pl_named (cs : list Chunk) : Prop := forall o, o ∈ objects_of cs -> mo_Key o <> [].

Definition disjoint_from (cs cs' : list Chunk) : Prop := forall o, o ∈ objects_of cs -> o ∉ objects_of cs'.

Lemma elem_of_objects o cs : o ∈ objects_of cs <-> exists c, c ∈ cs /\ o ∈ ch_Objects c.
Proof.
  unfold objects_of. rewrite list_elem_of_In, in_concat. split.
  - intros (l & Hl & Ho). apply list_elem_of_In, list_elem_of_fmap in Hl as (c & -> & Hc). exists c. split; [done|]. by apply list_elem_of_In.
  - intros (c & Hc & Ho). exists (ch_Objects c). rewrite <- !list_elem_of_In. split; [|done]. by apply list_elem_of_fmap_2.
Qed.

Lemma named_chunk cs c : pl_named cs -> c ∈ cs -> named (chunk_cfg c).
Proof. intros Hn Hc. apply Forall_forall. intros o Ho. apply Hn, elem_of_objects. by exists c. Qed.

(** [pl_taken d o]: the object was given out before; [pl_full]: everything the
    pipeline depends on can be reached. *)
Class DataPipelineOwn (D : Type) `{DataPipelineLaws D} := {
  pl_taken : D -> MetaObject -> Prop;
  pl_full : Prop;
  pl_less n m d : n <= m -> pl_room m d -> pl_room n d;
  pl_write_own r n d res d' : pl_Write (Some r) d = (res, d') -> pl_room (pl_cost r + n) d ->
    (forall o, pl_taken d o -> pl_taken d' o) /\
    (forall cs, res = Ok cs -> length cs <= pl_cost r /\
       forall o, o ∈ objects_of cs -> mo_Key o <> [] /\ ~ pl_taken d o /\ pl_taken d' o);
  pl_read_own cs (out : bytes) n d res d' : pl_Read cs (Some append) out d = (res, d') -> pl_named cs -> pl_room n d ->
    pl_room n d' /\ (forall cs' x, pl_stored d cs' x -> pl_stored d' cs' x) /\ (forall o, pl_taken d o -> pl_taken d' o);
  pl_check_own cs fast n d res d' : pl_Check cs fast d = (res, d') -> pl_named cs -> pl_room n d ->
    pl_room n d' /\ (forall cs' x, pl_stored d cs' x -> pl_stored d' cs' x) /\ (forall o, pl_taken d o -> pl_taken d' o);
  pl_check_law cs x fast n d res d' : pl_Check cs fast d = (res, d') -> pl_named cs -> pl_stored d cs x -> pl_room n d ->
    (pl_ready -> exists st, res = Ok st /\ st <> CheckStatusInvalid) /\ (pl_full -> fast = false -> res = Ok CheckStatusOptimal);
  pl_repair_own cs n d res d' : pl_Repair cs d = (res, d') -> pl_named cs -> pl_room (length cs + n) d ->
    pl_room n d' /\ (forall cs' x, pl_stored d cs' x -> pl_stored d' cs' x) /\ (forall o, pl_taken d o -> pl_taken d' o) /\
    (forall cs', res = Ok cs' -> length cs' = length cs /\
       (forall o, o ∈ objects_of cs' -> mo_Key o <> [] /\ (o ∈ objects_of cs \/ ~ pl_taken d o /\ pl_taken d' o)) /\
       (forall x, pl_stored d cs x -> pl_stored d' cs' x));
  pl_delete_own cs n d res d' : pl_Delete cs d = (res, d') -> pl_named cs -> pl_room n d ->
    pl_room n d' /\ (forall o, pl_taken d o -> pl_taken d' o) /\
    (forall cs' x, pl_stored d cs' x -> disjoint_from cs cs' -> pl_stored d' cs' x);
}.

(** ** One chunk *)
Section Chunks.
Context `{ChunkStorageOwn W}.

(** What is stored stays, and what is taken stays taken. *)
Definition grew (w w' : W) : Prop :=
  (forall cfg d, chunk_at w cfg d -> chunk_at w' cfg d) /\ (forall o, taken w o -> taken w' o).

#[export] Instance grew_preorder : PreOrder grew.
Proof using. split; [by split|]. intros w1 w2 w3 [Hc1 Ht1] [Hc2 Ht2]. split; auto. Qed.

Lemma storage_le n m w : n <= m -> storage_good m w -> storage_good n w.
Proof using. induction 1; [done|]. intros Hg. by apply IHle, storage_less. Qed.

(** The world of a run that started in [w]. *)
Definition within (w : W) (n : nat) (v : W) : Prop := storage_good n v /\ grew w v.

Lemma within_less w n v : within w (S n) v -> within w n v.
Proof using. intros [Hg Hw]. split; [by apply storage_less|done]. Qed.

Lemma read_within w cfg n v : named cfg -> within w n v -> within w n (ReadChunk cfg v).2.
Proof using.
  intros Hn [Hg Hw]. destruct (ReadChunk cfg v) as [r v'] eqn:E. destruct (read_own _ _ _ _ _ E Hn Hg) as (? & ? & ?).
  split; [done|]. etrans; [exact Hw|by split].
Qed.

Lemma check_within w cfg fast n v : named cfg -> within w n v -> within w n (CheckChunk cfg fast v).2.
Proof using.
  intros Hn [Hg Hw]. destruct (CheckChunk cfg fast v) as [r v'] eqn:E. destruct (check_own _ _ _ _ _ _ E Hn Hg) as (? & ? & ?).
  split; [done|]. etrans; [exact Hw|by split].
Qed.

Lemma repair_within w cfg n v : named cfg -> within w (S n) v -> within w n (RepairChunk cfg v).2.
Proof using.
  intros Hn [Hg Hw]. destruct (RepairChunk cfg v) as [r v'] eqn:E. destruct (repair_own _ _ _ _ _ E Hn Hg) as (? & ? & ? & _).
  split; [done|]. etrans; [exact Hw|by split].
Qed.

Lemma write_within w x n v : within w (S n) v -> within w n (WriteChunk x v).2.
Proof using.
  intros [Hg Hw]. destruct (WriteChunk x v) as [r v'] eqn:E. destruct (write_law _ _ _ _ _ E Hg) as (? & ? & _).
  destruct (write_own _ _ _ _ _ E Hg) as [? _]. split; [done|]. etrans; [exact Hw|by split].
Qed.

(** Only the chunks of objects that [cs] shares may be gone. *)
Definition spared (cs : list Chunk) (w : W) (n : nat) (v : W) : Prop :=
  storage_good n v /\ (forall o, taken w o -> taken v o) /\
  (forall cfg d, chunk_at w cfg d -> (forall o, o ∈ objects_of cs -> o ∉ cfg_Objects cfg) -> chunk_at v cfg d).

Lemma delete_spared cs w c n v : pl_named cs -> c ∈ cs -> spared cs w n v -> spared cs w n (DeleteChunk (chunk_cfg c) v).2.
Proof using.
  intros Hn Hc (Hg & Ht & Hk). destruct (DeleteChunk (chunk_cfg c) v) as [r v'] eqn:E.
  destruct (delete_own _ _ _ _ _ E (named_chunk _ _ Hn Hc) Hg) as (Hg' & Ht' & Hk'). split_and!; [done|auto|].
  intros cfg d Hd Hap. apply Hk'; [by apply Hk|]. intros o Ho. apply Hap, elem_of_objects. by exists c.
Qed.

(** The chunk of a repaired configuration. *)
Lemma repair_chunk c n v r v' :
  RepairChunk (chunk_cfg c) v = (Ok r, v') -> named (chunk_cfg c) -> storage_good (S n) v ->
  storage_good n v' /\ grew v v' /\
  (forall o, o ∈ ch_Objects (chunk_of r (ch_Hash c)) -> mo_Key o <> [] /\ (o ∈ ch_Objects c \/ ~ taken v o /\ taken v' o)) /\
  (forall hash proc d, stored_as hash proc v d c -> stored_as hash proc v' d (chunk_of r (ch_Hash c))).
Proof using.
  intros E Hn Hg. destruct (repair_own _ _ _ _ _ E Hn Hg) as (Hg' & Hc & Ht & Hr). destruct (Hr r eq_refl) as [Ho Hd].
  split_and!; [done|by split|exact Ho|]. intros hash proc d (Hh & x & Hx & Hat). split; [done|]. exists x. split; [done|]. destruct r. by apply Hd.
Qed.
End Chunks.

(** ** The sequential pipeline's calls, which the parallel one uses for one chunk *)
Section SingleCalls.
Context `{ChunkStorageOwn W}.

Lemma within_refl n (w : W) : storage_good n w -> within w n w.
Proof using. by split. Qed.

Lemma single_read_within {Out} cfg cs (wr : Writer Out) out n w :
  pl_named cs -> storage_good n w -> within w n (SingleObject.Read cfg cs (Some wr) out w).2.
Proof using.
  intros Hn Hg. pose proof (within_refl n w Hg) as Hw. destruct cs as [|c [|c2 cs]]; [done| |done].
  pose proof (read_within w (chunk_cfg c) n w (named_chunk _ c Hn (list_elem_of_here _ _)) Hw) as Hr.
  cbn [SingleObject.Read]. unfold or_fail, pbind, plift, pret, pfail. destruct (hasher cfg); [|done..]. destruct (processor cfg); [|done..].
  destruct (ReadChunk (chunk_cfg c) w) as [[x|e|p] w1]; [|done..]. destruct (ReadProcess _ x); [|done..]. by destruct (negb _).
Qed.

Lemma single_check_within cs fast n w : pl_named cs -> storage_good n w -> within w n (SingleObject.Check cs fast w).2.
Proof using.
  intros Hn Hg. destruct cs as [|c [|c2 cs]]; [by apply within_refl| |by apply within_refl].
  apply check_within; [|by apply within_refl]. by apply (named_chunk _ c Hn), list_elem_of_here.
Qed.

Lemma single_check_law hash proc c d fast n w res w' :
  SingleObject.Check [c] fast w = (res, w') -> stored_as hash proc w d c -> storage_good n w ->
  (ready -> exists st, res = Ok st /\ st <> CheckStatusInvalid) /\ (full -> fast = false -> res = Ok CheckStatusOptimal).
Proof using. intros E (_ & x & _ & Hat) Hg. by eapply check_law. Qed.

Lemma single_repair_law cs n w res w' :
  SingleObject.Repair cs w = (res, w') -> pl_named cs -> storage_good (length cs + n) w ->
  within w n w' /\
  (forall cs', res = Ok cs' -> length cs' = length cs /\
     (forall o, o ∈ objects_of cs' -> mo_Key o <> [] /\ (o ∈ objects_of cs \/ ~ taken w o /\ taken w' o)) /\
     (forall hash proc ds, Forall2 (stored_as hash proc w) ds cs -> Forall2 (stored_as hash proc w') ds cs')).
Proof using.
  intros E Hn Hg. assert (Hno : (res, w') = (Err errUnexpectedChunkCount, w) -> within w n w') by
    (intros [= _ ->]; apply within_refl; eapply storage_le; [|exact Hg]; lia).
  destruct cs as [|c [|c2 cs]]; [by injection E as <- <-; split; [apply Hno|]| |by injection E as <- <-; split; [apply Hno|]].
  pose proof (named_chunk _ c Hn (list_elem_of_here _ _)) as Hc. cbn [SingleObject.Repair] in E. unfold pbind, pret in E.
  pose proof (repair_within w (chunk_cfg c) n w Hc (within_refl _ w Hg)) as Hw.
  destruct (RepairChunk (chunk_cfg c) w) as [[r|e|p] w1] eqn:Er; cbn [snd] in Hw; injection E as <- <-; (split; [done|]); [|done..].
  intros cs' [= <-]. destruct (repair_chunk c n w r w1 Er Hc Hg) as (_ & _ & Ho & Hs). unfold objects_of. cbn [fmap list_fmap concat]. rewrite !app_nil_r.
  split_and!; [done|exact Ho|]. intros hash proc ds Hall. apply Forall2_cons_inv_r in Hall as (d & ds' & Hd & Hall & ->).
  apply Forall2_nil_inv_r in Hall as ->. constructor; [by apply Hs|constructor].
Qed.

Lemma single_delete_spared cs n w : pl_named cs -> storage_good n w -> spared cs w n (SingleObject.Delete cs w).2.
Proof using.
  intros Hn Hg. assert (Hw : spared cs w n w) by (split_and!; by auto). destruct cs as [|c [|c2 cs]]; [done| |done].
  apply delete_spared; [done|apply list_elem_of_here|done].
Qed.
End SingleCalls.

(** ** The sequential pipeline *)
Section Single.
Context `{ChunkStorageOwn W} (cfg : Pipeline.Config) (close : prog W unit) (hash : bytes -> bytes) (proc : Processor).
Context (Hhash : hasher cfg = Ok hash) (Hproc : processor cfg = Ok proc)
  (Hinv : forall d x, WriteProcess proc d = Ok x -> ReadProcess proc x = Ok d).

Lemma single_stored_all w cs x : single_stored hash proc w cs x <-> Forall2 (stored_as hash proc w) [x] cs.
Proof using.
  split.
  - intros (c & -> & Hc). by constructor.
  - intros Hall. apply Forall2_cons_inv_l in Hall as (c & cs' & Hc & Hall & ->). apply Forall2_nil_inv_l in Hall as ->. by exists c.
Qed.

Lemma spared_stored cs w n v c d :
  spared cs w n v -> (forall o, o ∈ objects_of cs -> o ∉ ch_Objects c) -> stored_as hash proc w d c -> stored_as hash proc v d c.
Proof using. intros (_ & _ & Hk) Hap (Hh & x & Hx & Hat). split; [done|]. exists x. split; [done|]. by apply Hk. Qed.

#[local] Instance single_own : @DataPipelineOwn W (single_pipeline cfg close) (single_pipeline_laws cfg close hash proc Hhash Hproc Hinv).
Proof using All.
  refine (@Build_DataPipelineOwn _ _ (single_pipeline_laws cfg close hash proc Hhash Hproc Hinv) taken full _ _ _ _ _ _ _);
    cbn [pl_Write pl_Read pl_Check pl_Repair pl_Delete pl_room pl_stored pl_cost pl_ready single_pipeline single_pipeline_laws].
  - intros n m d. apply storage_le.
  - intros r n w res w' Hw Hg. cbn [fmap option_fmap option_map SingleObject.Write] in Hw. unfold pbind, plift in Hw. rewrite Hhash, Hproc in Hw.
    destruct (ReadAll r) as [input|e|p]; [|by injection Hw as <- <-..].
    destruct (WriteProcess proc input) as [x|e|p] eqn:Hx; [|by injection Hw as <- <-..].
    destruct (WriteChunk x w) as [c w1] eqn:Hc. destruct (write_own _ _ _ _ _ Hc Hg) as [Ht Ho].
    destruct c as [c|e|p]; injection Hw as <- <-; (split; [done|]); [|done..]. intros cs [= <-]. split; [done|].
    unfold objects_of. cbn [fmap list_fmap concat]. rewrite app_nil_r. intros o. by apply Ho.
  - intros cs out n w res w' E Hn Hg. pose proof (single_read_within cfg cs append out n w Hn Hg) as [Hg' [Hc Ht]]. rewrite E in *.
    split_and!; [done|by apply single_stored_keeps|done].
  - intros cs fast n w res w' E Hn Hg. pose proof (single_check_within cs fast n w Hn Hg) as [Hg' [Hc Ht]]. rewrite E in *.
    split_and!; [done|by apply single_stored_keeps|done].
  - intros cs x fast n w res w' E _ (c & -> & Hc) Hg. by eapply single_check_law.
  - intros cs n w res w' E Hn Hg. destruct (single_repair_law cs n w res w' E Hn Hg) as [[Hg' [Hc Ht]] Hr].
    split_and!; [done|by apply single_stored_keeps|done|]. intros cs' Hcs. destruct (Hr cs' Hcs) as (Hl & Ho & Hs). split_and!; [done|done|].
    intros x. rewrite !single_stored_all. apply Hs.
  - intros cs n w res w' E Hn Hg. pose proof (single_delete_spared cs n w Hn Hg) as Hs. rewrite E in Hs. cbn [snd] in Hs.
    pose proof Hs as (Hg' & Ht & _). split_and!; [done|done|]. intros cs' x (c & -> & Hc) Hd. exists c. split; [done|].
    eapply spared_stored; [exact Hs| |done]. intros o Ho Hin. apply (Hd o Ho), elem_of_objects. exists c. split; [apply list_elem_of_here|done].
Defined.
End Single.

(** ** The parallel pipeline *)
(** The repaired chunks are put into their places in the order of arrival. *)
Definition place (out : list Chunk) (l : list (nat * Chunk)) : list Chunk := foldl (fun out r => <[r.1 := r.2]> out) out l.

Lemma place_length out l : length (place out l) = length out.
Proof. revert out; induction l as [|[i c] l IH]; intros out; [done|]. cbn. unfold place in IH. by rewrite IH, length_insert. Qed.

Lemma place_other out l i : i ∉ l.*1 -> place out l !! i = out !! i.
Proof.
  revert out; induction l as [|[j c] l IH]; intros out Hi; [done|]. cbn in Hi |- *. apply not_elem_of_cons in Hi as [Hj Hi].
  unfold place in IH. rewrite IH by done. by apply list_lookup_insert_ne.
Qed.

Lemma place_at out l i c : NoDup l.*1 -> (i, c) ∈ l -> i < length out -> place out l !! i = Some c.
Proof.
  revert out; induction l as [|[j c'] l IH]; intros out Hnd Hin Hi; [by apply not_elem_of_nil in Hin|]. cbn in Hnd |- *.
  apply NoDup_cons in Hnd as [Hj Hnd]. apply elem_of_cons in Hin as [[= -> ->]|Hin].
  - etrans; [by apply place_other|]. by apply list_lookup_insert_eq.
  - apply IH; [done|done|]. by rewrite length_insert.
Qed.

Lemma place_all l zs : l ≡ₚ imap pair zs -> place (replicate (length zs) no_chunk) l = zs.
Proof.
  intros Hl. apply list_eq_same_length with (length zs); [done|by rewrite place_length, length_replicate|].
  intros i x y Hi Hx Hy. rewrite (place_at _ _ i y) in Hx.
  - by injection Hx.
  - rewrite Hl, imap_pair_fst. apply NoDup_seq.
  - rewrite Hl. by apply imap_pair_lookup.
  - by rewrite length_replicate.
Qed.

Section AsyncCalls.
Context `{ChunkStorageOwn W} (extra : nat).

(** Tasks over the chunks, each of which stays within [w]. *)
Lemma par_within {A B} (f : A -> prog W B) (chunk : A -> Chunk) l err cs n w r w' :
  (forall a v, named (chunk_cfg (chunk a)) -> within w n v -> within w n (f a v).2) ->
  pl_named cs -> (forall a, a ∈ l -> chunk a ∈ cs) -> storage_good n w -> par extra f l err w = (r, w') -> within w n w'.
Proof using.
  intros Hf Hn Hl Hg Hp. eapply (par_frame (fun _ => within w n) extra f 0); [done| |exact Hp|by apply within_refl].
  intros _ a v Ha. apply Hf. eapply named_chunk; [exact Hn|by apply Hl].
Qed.

Lemma async_check_law (G : CheckStatus -> Prop) first cs fast n w res w' :
  (forall l, first l ≡ₚ l) -> pl_named cs -> cs <> [] -> storage_good n w -> Check extra first cs fast w = (res, w') ->
  (forall c v r v', c ∈ cs -> within w n v -> CheckChunk (chunk_cfg c) fast v = (r, v') ->
     exists st, r = Ok st /\ st <> CheckStatusInvalid /\ G st) ->
  exists st, res = Ok st /\ st <> CheckStatusInvalid /\ ((forall st, G st -> st = CheckStatusOptimal) -> st = CheckStatusOptimal).
Proof using.
  intros Hfirst Hn Hne Hg E Hc. destruct cs as [|c [|c2 cs]]; [done| |].
  { destruct (Hc c w res w' (list_elem_of_here _ _) (within_refl _ _ Hg) E) as (st & Hr & Hi & HG). exists st. auto. }
  unfold Check in E. set (chunks := c :: c2 :: cs) in *. cbn [chunks] in E. fold chunks in E.
  match type of E with pbind (par extra ?f ?l None) _ w = _ =>
    destruct (par_sound (within w n) (fun _ b => (forall st, G st -> st = CheckStatusOptimal) -> b = true) extra f l None w)
      as (bs & err & w1 & Hp & _ & Hall & Hno) end.
  { intros ch v r v' Hin Hv. rewrite (Hfirst _) in Hin. destruct (CheckChunk (chunk_cfg ch) fast v) as [r0 v0] eqn:Er.
    destruct (Hc ch v r0 v0 Hin Hv Er) as (st & -> & Hi & HG). rewrite (pbind_Ok _ _ _ _ _ Er), bool_decide_false by done.
    intros [= <- <-]. split_and!; [done| |].
    - pose proof (check_within w (chunk_cfg ch) fast n v (named_chunk _ _ Hn Hin) Hv) as Hx. by rewrite Er in Hx.
    - intros b [= <-] Hopt. apply bool_decide_true. auto. }
  { by apply within_refl. }
  rewrite (pbind_Ok _ _ _ _ _ Hp) in E. cbn [fst snd] in E.
  assert (err = None) as ->.
  { apply Hno; [done|]. intros ch v Hin Hv. rewrite (Hfirst _) in Hin. destruct (CheckChunk (chunk_cfg ch) fast v) as [r0 v0] eqn:Er.
    destruct (Hc ch v r0 v0 Hin Hv Er) as (st & -> & Hi & HG). rewrite (pbind_Ok _ _ _ _ _ Er), bool_decide_false by done. by eexists _, _. }
  injection E as <- <-. eexists. split_and!; [done|by destruct (forallb id bs)|]. intros Hopt.
  assert (forallb id bs = true) as ->; [|done]. apply forallb_forall. intros b Hb. apply list_elem_of_In in Hb.
  destruct (list_elem_of_lookup_1 _ _ Hb) as [i Hi]. destruct (Forall2_lookup_r _ _ _ _ _ (Hall eq_refl) Hi) as (? & _ & Hx). by apply Hx.
Qed.

Lemma async_repair_law first cs n w res w' :
  (forall l, first l ≡ₚ l) -> Repair extra first cs w = (res, w') -> pl_named cs -> storage_good (length cs + n) w ->
  within w n w' /\
  (forall cs', res = Ok cs' -> length cs' = length cs /\
     (forall o, o ∈ objects_of cs' -> mo_Key o <> [] /\ (o ∈ objects_of cs \/ ~ taken w o /\ taken w' o)) /\
     (forall hash proc ds, Forall2 (stored_as hash proc w) ds cs -> Forall2 (stored_as hash proc w') ds cs')).
Proof using.
  intros Hfirst E Hn Hg. destruct cs as [|c [|c2 cs]]; [|by eapply single_repair_law|].
  { injection E as <- <-. split; [by apply within_refl|done]. }
  unfold Repair in E. set (chunks := c :: c2 :: cs) in *. cbn [chunks] in E. fold chunks in E.
  match type of E with pbind (par extra ?f ?l None) _ w = _ => destruct (par extra f l None w) as [x w1] eqn:Hp end.
  assert (Hname : forall ic, ic ∈ first (imap pair chunks) -> named (chunk_cfg ic.2)).
  { intros [i ch] Hin. rewrite (Hfirst _), imap_pair_lookup in Hin. eapply named_chunk; [exact Hn|]. by eapply list_elem_of_lookup_2. }
  assert (Hroom : within w (length (first (imap pair chunks)) + n) w) by (rewrite (Hfirst _), length_imap; by apply within_refl).
  assert (Hw : within w n w1).
  { eapply (par_frame (within w)); [intros; by apply within_less| |exact Hp|done].
    intros k [i ch] v Hin Hv. pose proof (repair_within w _ k v (Hname _ Hin) Hv) as Hx. cbn [snd] in Hx. unfold pbind, pret.
    by destruct (RepairChunk (chunk_cfg ch) v) as [[r|e|p] v1]. }
  unfold pbind at 1 in E. rewrite Hp in E. destruct x as [[results [e|]]|e|p]; injection E as <- <-; (split; [done|]); [done| |done..].
  intros cs' [= <-]. cbn [fst].
  apply (par_ok (within w) (fun v t r => t.1 = r.1 /\
      (forall o, o ∈ ch_Objects r.2 -> mo_Key o <> [] /\ (o ∈ ch_Objects t.2 \/ ~ taken w o /\ taken v o)) /\
      (forall hash proc d, stored_as hash proc w d t.2 -> stored_as hash proc v d r.2)) _ _ n) in Hp as (_ & Hall & _); [| |done].
  - destruct (indexed_results (fun c c' => (forall o, o ∈ ch_Objects c' -> mo_Key o <> [] /\ (o ∈ ch_Objects c \/ ~ taken w o /\ taken w1 o)) /\
      (forall hash proc d, stored_as hash proc w d c -> stored_as hash proc w1 d c')) chunks _ _ (Hfirst _) Hall) as (zs & Hz & Hr).
    match goal with |- context [foldl ?f ?o results] => assert (foldl f o results = zs) as -> end.
    { etrans; [|by apply (place_all results zs)]. by rewrite <- (Forall2_length _ _ _ Hz). }
    split_and!; [by rewrite (Forall2_length _ _ _ Hz)| |].
    + intros o (z & Hzi & Ho)%elem_of_objects. apply list_elem_of_lookup_1 in Hzi as [i Hi].
      destruct (Forall2_lookup_r _ _ _ _ _ Hz Hi) as (ch & Hch & Hob & _). destruct (Hob o Ho) as [Hk [Hin|Hnew]]; (split; [done|]); [left|by right].
      apply elem_of_objects. exists ch. split; [by eapply list_elem_of_lookup_2|done].
    + intros hash proc ds Hds. apply Forall2_same_length_lookup. split; [by rewrite (Forall2_length _ _ _ Hds), (Forall2_length _ _ _ Hz)|].
      intros i d z Hd Hzi. destruct (Forall2_lookup_r _ _ _ _ _ Hz Hzi) as (ch & Hch & _ & Hs). apply Hs.
      by destruct (Forall2_lookup_lr _ _ _ _ _ _ Hds Hd Hch).
  - clear Hg Hw Hroom Hp. intros k [i ch] [j r] v v' Hin Hf Hv. apply pbind_Ok_inv in Hf as (cfg & v1 & Hcfg & Hf). injection Hf as <- <- <-.
    destruct Hv as [Hg Hvw]. cbn [fst snd] in *. destruct (repair_chunk ch k v cfg v1 Hcfg (Hname _ Hin) Hg) as (Hg1 & Hvv & Ho & Hs).
    split_and!; [split; [done|by etrans]|done| | |].
    + intros o Hin'. destruct (Ho o Hin') as [Hk [Hx|[Hx Hx']]]; (split; [done|]); [by left|right]. split; [|done]. intros Ht. by apply Hx, Hvw.
    + intros hash proc d (Hh & x & Hx & Hat). apply Hs. split; [done|]. exists x. split; [done|]. by apply Hvw.
    + intros [i' a'] [j' b'] (Hij & Hoo & Hss). cbn [fst snd] in *. split_and!; [done| |].
      * intros o Hin'. destruct (Hoo o Hin') as [Hk [Hx|[Hx Hx']]]; (split; [done|]); [by left|right]. split; [done|]. by apply Hvv.
      * intros hash proc d Hd. destruct (Hss _ _ _ Hd) as (Hh & x & Hx & Hat). split; [done|]. exists x. split; [done|]. by apply Hvv.
Qed.
End AsyncCalls.

Section Async.
Context `{ChunkStorageOwn W} (asp : AsyncSplitterPipeline) (close : prog W unit) (extra : nat) (race : bool).
Context (order : orders) (Horder : permuting order) (hash : bytes -> bytes) (proc : Processor).
Context (Hhash : hasher (config asp) = Ok hash) (Hproc : processor (config asp) = Ok proc)
  (Hinv : forall d x, WriteProcess proc d = Ok x -> ReadProcess proc x = Ok d) (Hjobs : 0 < storageJobCount asp).

(** A write takes new objects only. *)
Lemma async_write_own r n w res w' :
  Write asp extra race (o_pieces order) (o_stored order) (Some r) w = (res, w') -> storage_good (length (splitter r) + n) w ->
  (forall o, taken w o -> taken w' o) /\
  (forall cs, res = Ok cs -> length cs <= length (splitter r) /\
     forall o, o ∈ objects_of cs -> mo_Key o <> [] /\ ~ taken w o /\ taken w' o).
Proof using Horder Hhash Hproc Hjobs.
  intros Hw Hg. unfold Write in Hw. unfold pbind at 1 2, plift at 1 2 in Hw. rewrite Hhash, Hproc in Hw.
  match type of Hw with pbind (par extra ?f ?l None) _ w = _ => destruct (par extra f l None w) as [x w1] eqn:Hpar end.
  assert (Hroom : within w (length (o_pieces order (imap pair (splitter r))) + n) w) by (rewrite (pieces_perm _ Horder), length_imap; by apply within_refl).
  assert (w' = w1) as ->.
  { unfold pbind at 1 in Hw. rewrite Hpar in Hw. destruct x as [[stored [e|]]|e|p]; try by injection Hw.
    cbn [fst snd] in Hw. by destruct (collect_chunks _ _), race; injection Hw. }
  split.
  - eapply (par_frame (within w) extra _ n); [intros; by apply within_less| |exact Hpar|done].
    intros k [i t] v _ Hv. unfold pbind, plift. destruct t as [d|e|p]; [|by apply within_less..].
    destruct (WriteProcess proc d) as [y|e|p]; [|by apply within_less..].
    pose proof (write_within w y k v Hv) as Hx. by destruct (WriteChunk y v) as [[c|e|p] v1].
  - intros cs ->. unfold pbind at 1 in Hw. rewrite Hpar in Hw. destruct x as [[stored [e|]]|e|p]; [|  |done..]; cbn [fst snd] in Hw.
    { by destruct (collect_chunks _ _), race; injection Hw. }
    unfold plift in Hw. injection Hw as Hcol.
    apply (par_ok (within w) (fun v t r => t.1 = r.1 /\
      forall o, o ∈ ch_Objects r.2 -> mo_Key o <> [] /\ ~ taken w o /\ taken v o) _ _ n) in Hpar as (_ & Hall & _); [| |done].
    + destruct (indexed_results (fun _ c => forall o, o ∈ ch_Objects c -> mo_Key o <> [] /\ ~ taken w o /\ taken w1 o) _ _ _ (pieces_perm _ Horder _) Hall)
        as (zs & Hz & Hst). rewrite (collect_chunks_spec _ _ zs) in Hcol; [|done|by rewrite (stored_perm _ Horder)]. injection Hcol as <-.
      split; [by rewrite (Forall2_length _ _ _ Hz)|]. intros o (z & Hzi & Ho)%elem_of_objects. apply list_elem_of_lookup_1 in Hzi as [i Hi].
      destruct (Forall2_lookup_r _ _ _ _ _ Hz Hi) as (? & _ & Hx). by apply Hx.
    + clear Hroom Hg. intros k [i t] [j c] v v' _ Hf [Hg Hv]. apply pbind_Ok_inv in Hf as (d & v1 & Hd & Hf). injection Hd as -> <-.
      apply pbind_Ok_inv in Hf as (x & v1 & Hx & Hf). injection Hx as Hx <-.
      apply pbind_Ok_inv in Hf as (cfg & v1 & Hcfg & Hf). injection Hf as <- <- <-.
      destruct (write_law _ _ _ _ _ Hcfg Hg) as (Hg1 & Hkeep & _), (write_own _ _ _ _ _ Hcfg Hg) as [Ht Hnew].
      split_and!; [split; [done|]; etrans; [exact Hv|by split]|done| |].
      * intros o Ho. destruct (Hnew cfg o eq_refl Ho) as (Hk & Hn & Ht'). split_and!; [done| |done]. intros Hx'. by apply Hn, Hv.
      * intros [i' a'] [j' b'] [Hij Hoo]. cbn [fst snd] in *. split; [done|]. intros o Ho. destruct (Hoo o Ho) as (? & ? & ?). by auto.
Qed.

Lemma async_read_within cs out n w : pl_named cs -> storage_good n w ->
  within w n (Read asp extra race (o_fetched order) (o_read order) cs (Some append) out w).2.
Proof using Horder Hhash Hproc.
  intros Hn Hg. destruct cs as [|c [|c2 cs]]; [by apply within_refl|by apply single_read_within|].
  unfold Read. set (chunks := c :: c2 :: cs) in *. cbn [chunks]. fold chunks. rewrite Hhash, Hproc. cbn [obind].
  match goal with |- context [pbind (par extra ?f ?l None) _ w] => destruct (par extra f l None w) as [x w1] eqn:Hp end.
  assert (Hw : within w n w1).
  { eapply (par_within extra _ snd _ _ chunks); [|done| |done|exact Hp].
    - intros [i ch] v Hc Hv. pose proof (read_within w _ n v Hc Hv) as Hx. cbn [snd] in Hx. unfold pbind, plift, pret, pfail.
      destruct (ReadChunk (chunk_cfg ch) v) as [[y|e|p] v1]; [|done..]. destruct (ReadProcess proc y); [|done..]. by destruct (negb _).
    - intros [i ch] Hi. rewrite (fetched_perm _ Horder), imap_pair_lookup in Hi. by eapply list_elem_of_lookup_2. }
  unfold pbind at 1. rewrite Hp. destruct x as [y|e|p]; [|done..]. destruct (compose _ _ _) as [s [e|]]; done.
Qed.

Lemma async_check_within cs fast n w : pl_named cs -> storage_good n w -> within w n (Check extra (o_chunks order) cs fast w).2.
Proof using Horder.
  intros Hn Hg. destruct cs as [|c [|c2 cs]]; [by apply within_refl|by apply single_check_within|].
  unfold Check. set (chunks := c :: c2 :: cs) in *. cbn [chunks]. fold chunks.
  match goal with |- context [pbind (par extra ?f ?l None) _ w] => destruct (par extra f l None w) as [x w1] eqn:Hp end.
  assert (Hw : within w n w1).
  { eapply (par_within extra _ id _ _ chunks); [|done| |done|exact Hp].
    - intros ch v Hc Hv. pose proof (check_within w _ fast n v Hc Hv) as Hx. unfold id in Hx. unfold pbind, pret, pfail.
      destruct (CheckChunk (chunk_cfg ch) fast v) as [[y|e|p] v1]; [|done..]. by destruct (bool_decide _).
    - intros ch Hi. by rewrite (chunks_perm _ Horder) in Hi. }
  unfold pbind at 1. rewrite Hp. destruct x as [[y [e|]]|e|p]; [|done..]. cbn [snd]. by destruct (bool_decide _).
Qed.

Lemma async_delete_spared cs n w : pl_named cs -> storage_good n w -> spared cs w n (Delete extra (o_chunks order) cs w).2.
Proof using Horder.
  intros Hn Hg. assert (Hw0 : spared cs w n w) by (split_and!; by auto).
  destruct cs as [|c [|c2 cs]]; [done|by apply single_delete_spared|].
  unfold Delete. set (chunks := c :: c2 :: cs) in *. cbn [chunks]. fold chunks.
  match goal with |- context [pbind (par extra ?f ?l None) _ w] => destruct (par extra f l None w) as [x w1] eqn:Hp end.
  assert (Hw : spared chunks w n w1).
  { eapply (par_frame (fun _ => spared chunks w n) extra _ 0); [done| |exact Hp|done].
    intros _ ch v Hi. rewrite (chunks_perm _ Horder) in Hi. by apply delete_spared. }
  unfold pbind at 1. rewrite Hp. by destruct x as [[y [e|]]|e|p].
Qed.

#[local] Instance async_own : @DataPipelineOwn W (async_pipeline asp close extra race order)
  (async_pipeline_laws asp close extra race order Horder hash proc Hhash Hproc Hinv Hjobs).
Proof using All.
  refine (@Build_DataPipelineOwn _ _ (async_pipeline_laws asp close extra race order Horder hash proc Hhash Hproc Hinv Hjobs) taken full _ _ _ _ _ _ _);
    cbn [pl_Write pl_Read pl_Check pl_Repair pl_Delete pl_room pl_stored pl_cost pl_ready async_pipeline async_pipeline_laws].
  - intros n m d. apply storage_le.
  - intros r n w res w'. apply async_write_own.
  - intros cs out n w res w' E Hn Hg. pose proof (async_read_within cs out n w Hn Hg) as [Hg' [Hc Ht]]. rewrite E in *.
    split_and!; [done|by apply async_stored_keeps|done].
  - intros cs fast n w res w' E Hn Hg. pose proof (async_check_within cs fast n w Hn Hg) as [Hg' [Hc Ht]]. rewrite E in *.
    split_and!; [done|by apply async_stored_keeps|done].
  - intros cs x fast n w res w' E Hn (parts & Hne & -> & Hall) Hg.
    assert (Hcs : cs <> []) by (intros ->; by apply Forall2_nil_inv_r in Hall).
    assert (Hat : forall c v r v', c ∈ cs -> within w n v -> CheckChunk (chunk_cfg c) fast v = (r, v') ->
      (ready -> exists st, r = Ok st /\ st <> CheckStatusInvalid) /\ (full -> fast = false -> r = Ok CheckStatusOptimal)).
    { intros c v r v' Hc [Hv [Hk _]] Er. apply list_elem_of_lookup_1 in Hc as [i Hi].
      destruct (Forall2_lookup_r _ _ _ _ _ Hall Hi) as (d & _ & _ & y & _ & Hd). eapply check_law; [exact Er|by apply Hk|done]. }
    split.
    + intros Hr. destruct (async_check_law extra (fun _ => True) _ cs fast n w res w' (chunks_perm _ Horder) Hn Hcs Hg E) as (st & -> & Hi & _); [|by exists st].
      intros c v r v' Hc Hv Er. destruct (Hat c v r v' Hc Hv Er) as [Hx _]. destruct (Hx Hr) as (st & -> & Hi). by exists st.
    + intros Hf Hfast. destruct (async_check_law extra (fun st => st = CheckStatusOptimal) _ cs fast n w res w' (chunks_perm _ Horder) Hn Hcs Hg E)
        as (st & -> & _ & Ho); [|by rewrite Ho].
      intros c v r v' Hc Hv Er. destruct (Hat c v r v' Hc Hv Er) as [_ Hx]. rewrite (Hx Hf Hfast). by eexists.
  - intros cs n w res w' E Hn Hg. destruct (async_repair_law extra _ cs n w res w' (fetched_perm _ Horder) E Hn Hg) as [[Hg' [Hc Ht]] Hr].
    split_and!; [done|by apply async_stored_keeps|done|]. intros cs' Hcs. destruct (Hr cs' Hcs) as (Hl & Ho & Hs). split_and!; [done|done|].
    intros x (parts & Hne & -> & Hall). exists parts. split_and!; [done|done|by apply Hs].
  - intros cs n w res w' E Hn Hg. pose proof (async_delete_spared cs n w Hn Hg) as Hs. rewrite E in Hs. cbn [snd] in Hs.
    pose proof Hs as (Hg' & Ht & _). split_and!; [done|done|]. intros cs' x (parts & Hne & -> & Hall) Hd. exists parts. split_and!; [done|done|].
    apply Forall2_same_length_lookup. split; [by apply Forall2_length in Hall|]. intros i d c Hi Hc.
    eapply spared_stored; [exact Hs| |by eapply Forall2_lookup_lr]. intros o Ho Hin. apply (Hd o Ho), elem_of_objects. exists c.
    split; [by eapply list_elem_of_lookup_2|done].
Defined.
End Async.

(** ** The client, with deletes and repairs

    [g] gives for every key that has metadata this metadata, and the data that
    can be read back -- [None] after a delete that failed half way. *)
Section Client.
Context `{MetaDBLaws M} (c : MarshalFuncPair) `{!Codec c}.
Local Abbreviation ledger := (gmap bytes (Metadata * option bytes)).

(** What is recorded for one key: chunks, at most [width] of them, of objects
    that were given out. *)
Definition recorded (width : nat) (stored : list Chunk -> bytes -> Prop) (taken : MetaObject -> Prop) (m : M) (k : bytes)
    (md : Metadata) (x : option bytes) : Prop :=
  has c m k md /\ Key md = k /\ Chunks md <> [] /\ length (Chunks md) <= width /\ pl_named (Chunks md) /\
  (forall o, o ∈ objects_of (Chunks md) -> taken o) /\ (forall y, x = Some y -> stored (Chunks md) y).

Record keeps (width : nat) (stored : list Chunk -> bytes -> Prop) (taken : MetaObject -> Prop) (g : ledger) (m : M) : Prop := {
  k_ok : md_ok m;
  k_some k md x : g !! k = Some (md, x) -> recorded width stored taken m k md x;
  k_none k : k <> [] -> g !! k = None -> md_entry m k = None;
  k_apart k k' md md' x x' : g !! k = Some (md, x) -> g !! k' = Some (md', x') -> k <> k' -> disjoint_from (Chunks md) (Chunks md');
}.

Lemma recorded_mono width stored taken stored' taken' m m' k md x :
  recorded width stored taken m k md x -> md_entry m' k = md_entry m k -> (forall y, stored (Chunks md) y -> stored' (Chunks md) y) ->
  (forall o, taken o -> taken' o) -> recorded width stored' taken' m' k md x.
Proof using.
  intros (Hh & Hk & Hne & Hl & Hn & Ht & Hs) He Hst Htk. split_and!; auto. by eapply has_entry.
Qed.

Lemma keeps_mono width stored taken stored' taken' g m m' :
  keeps width stored taken g m -> (forall cs y, stored cs y -> stored' cs y) -> (forall o, taken o -> taken' o) ->
  md_ok m' -> same_entries m m' -> keeps width stored' taken' g m'.
Proof using.
  intros [_ Hsome Hnone Hap] Hst Htk Hm He. split; [done| | |done].
  - intros k md x Hg. eapply recorded_mono; [by apply Hsome|apply He|by apply Hst|done].
  - intros k Hk Hg. rewrite He. by apply Hnone.
Qed.

(** An entry is replaced by one whose objects are its own or new. *)
Lemma keeps_insert width stored taken stored' taken' g m m' k md x :
  keeps width stored taken g m -> md_ok m' -> same_but k m m' -> recorded width stored' taken' m' k md x ->
  (forall o, taken o -> taken' o) -> (forall k' md' x' y, g !! k' = Some (md', x') -> k' <> k -> stored (Chunks md') y -> stored' (Chunks md') y) ->
  (forall o, o ∈ objects_of (Chunks md) -> ~ taken o \/ exists md0 x0, g !! k = Some (md0, x0) /\ o ∈ objects_of (Chunks md0)) ->
  keeps width stored' taken' (<[k := (md, x)]> g) m'.
Proof using.
  intros [_ Hsome Hnone Hap] Hm He Hrec Htk Hst Hown.
  assert (Hdis : forall k' md' x', g !! k' = Some (md', x') -> k' <> k -> disjoint_from (Chunks md) (Chunks md')).
  { intros k' md' x' Hg Hne o Ho Ho'. destruct (Hown o Ho) as [Hn|(md0 & x0 & Hg0 & Ho0)].
    - apply Hn. by apply (Hsome _ _ _ Hg).
    - by apply (Hap k k' md0 md' x0 x' Hg0 Hg ltac:(done) o). }
  split; [done| | |].
  - intros k' md' x' Hg. apply lookup_insert_Some in Hg as [[<- [= <- <-]]|[Hne Hg]]; [done|].
    eapply recorded_mono; [by apply Hsome|by apply He| |done]. intros y. by eapply Hst.
  - intros k' Hk' Hg. apply lookup_insert_None in Hg as [Hg Hne]. rewrite He by done. by apply Hnone.
  - intros k1 k2 md1 md2 x1 x2 Hg1 Hg2 Hne.
    apply lookup_insert_Some in Hg1 as [[<- [= <- <-]]|[Hne1 Hg1]]; apply lookup_insert_Some in Hg2 as [[<- [= <- <-]]|[Hne2 Hg2]].
    + done.
    + by eapply Hdis.
    + intros o Ho Ho'. by eapply (Hdis k1 md1 x1 Hg1 ltac:(done)).
    + by eapply Hap.
Qed.

Lemma keeps_delete width stored taken stored' taken' g m m' k :
  keeps width stored taken g m -> md_ok m' -> same_but k m m' -> md_entry m' k = None -> (forall o, taken o -> taken' o) ->
  (forall k' md' x' y, g !! k' = Some (md', x') -> k' <> k -> stored (Chunks md') y -> stored' (Chunks md') y) ->
  keeps width stored' taken' (delete k g) m'.
Proof using.
  intros [_ Hsome Hnone Hap] Hm He Hgone Htk Hst. split; [done| | |].
  - intros k' md' x' Hg. apply lookup_delete_Some in Hg as [Hne Hg].
    eapply recorded_mono; [by apply Hsome|by apply He| |done]. intros y. by eapply Hst.
  - intros k' Hk' Hg. destruct (decide (k' = k)) as [-> |Hne]; [done|]. rewrite lookup_delete_ne in Hg by done. rewrite He by done. by apply Hnone.
  - intros k1 k2 md1 md2 x1 x2 [_ Hg1]%lookup_delete_Some [_ Hg2]%lookup_delete_Some. by eapply Hap.
Qed.

Context `{DataPipelineOwn D}.
Local Abbreviation kept width d := (keeps width (pl_stored d) (pl_taken d)).

Lemma Write_keeps width now key r x n g d m res d' m' :
  key <> [] -> pl_cost r <= width -> pl_room (pl_cost r + n) d -> kept width d g m -> pl_input r = Some x ->
  (forall chunks d', pl_Write (Some r) d = (Ok chunks, d') -> storable c key (new_metadata now key None chunks)) ->
  ZClient.Write c now key (Some r) (d, m) = (res, (d', m')) ->
  pl_room n d' /\
  ((exists md, res = Ok (Some md, None) /\ kept width d' (<[key := (md, Some x)]> g) m') \/
   ((forall md, res <> Ok (Some md, None)) /\ kept width d' g m')).
Proof using.
  intros Hk Hcost Hroom Hkeep Hx Hst. unfold ZClient.Write, on_data, on_meta. rewrite length_nonempty by done.
  destruct (pl_Write (Some r) d) as [w d1] eqn:Hw.
  destruct (pl_write_law r n d w d1 Hw Hroom) as (Hroom1 & Hs1 & Hnew), (pl_write_own r n d w d1 Hw Hroom) as [Ht1 Hown].
  assert (Hsame : kept width d1 g m) by (eapply keeps_mono; [exact Hkeep|done|done|apply Hkeep|done]).
  destruct w as [chunks|e|p]; [|intros [= <- <- <-]; split; [done|]; right; by split..].
  destruct (Hnew chunks x eq_refl Hx) as [Hne Hsx], (Hown chunks eq_refl) as [Hlen Hobj].
  set (md := new_metadata now key None chunks).
  destruct (SetMetadata_spec c md m (k_ok _ _ _ _ _ Hkeep) (Hst chunks d1 eq_refl)) as (m1 & -> & Hm1 & Hhas & Hb).
  intros [= <- <- <-]. split; [done|]. left. exists md. split; [done|].
  eapply keeps_insert; [exact Hkeep|done|done| |done|by intros * _ _; apply Hs1|].
  - split_and!; [done|done|done|cbn; lia| | |by intros y [= <-]]; intros o Ho; by apply Hobj.
  - intros o Ho. left. by apply Hobj.
Qed.

(** What a key that is recorded, or is not, looks like to the client. *)
Lemma kept_chunks width d g m key md x :
  kept width d g m -> g !! key = Some (md, x) ->
  has c m key md /\ Key md = key /\ Chunks (decoded [] md) = Chunks md /\ pl_named (Chunks md) /\ length (Chunks md) <= width /\
  (forall y, x = Some y -> pl_stored d (Chunks md) y).
Proof using.
  intros Hkeep Hg. destruct (k_some _ _ _ _ _ Hkeep _ _ _ Hg) as (Hh & Hk & Hne & Hl & Hn & _ & Hs).
  split_and!; try done. by apply decoded_chunks.
Qed.

Lemma Read_keeps width key n g d m res d' m' :
  key <> [] -> pl_room n d -> kept width d g m -> ZClient.Read c key (Some append) [] (d, m) = (res, (d', m')) ->
  pl_room n d' /\ kept width d' g m' /\
  match snd <$> g !! key with
  | None => res = Ok ([], Some Metastor.ErrNotFound)
  | Some None => True
  | Some (Some x) => exists out err, res = Ok (out, err) /\ (err = None -> out = x) /\ (pl_ready -> err = None)
  end.
Proof using.
  intros Hk Hroom Hkeep. unfold ZClient.Read, ReadWithMeta, or_fail, on_meta, on_data. rewrite length_nonempty by done.
  pose proof (k_ok _ _ _ _ _ Hkeep) as Hm. destruct (g !! key) as [[md x]|] eqn:Hg; cbn [fmap option_fmap option_map snd].
  - destruct (kept_chunks _ _ _ _ _ _ _ Hkeep Hg) as (Hh & _ & Hd & Hn & _ & Hs).
    destruct (GetMetadata_spec c key md m Hm Hh) as (m1 & -> & Hm1 & He1). rewrite Hd.
    destruct (pl_Read (Chunks md) (Some append) [] d) as [r d1] eqn:Hr. intros [= <- <- <-].
    destruct (pl_read_own _ _ n d r d1 Hr Hn Hroom) as (Hroom1 & Hs1 & Ht1). split_and!; [done|by eapply keeps_mono|].
    destruct x as [x|]; [|done]. destruct (pl_read_law _ _ [] n d (Hs x eq_refl) Hroom) as (out & err & d2 & E & _ & _ & Ho & He).
    rewrite Hr in E. injection E as -> _. by exists out, err.
  - destruct (GetMetadata_missing c key m Hm Hk (k_none _ _ _ _ _ Hkeep _ Hk Hg)) as (m1 & -> & Hm1 & He1). intros [= <- <- <-].
    split_and!; [done|by eapply keeps_mono|done].
Qed.

Lemma Check_keeps width key fast n g d m res d' m' :
  key <> [] -> pl_room n d -> kept width d g m -> ZClient.Check c key fast (d, m) = (res, (d', m')) ->
  pl_room n d' /\ kept width d' g m' /\
  match snd <$> g !! key with
  | None => res = Err Metastor.ErrNotFound
  | Some None => True
  | Some (Some _) => (pl_ready -> exists st, res = Ok st /\ st <> CheckStatusInvalid) /\
                     (pl_full -> fast = false -> res = Ok CheckStatusOptimal)
  end.
Proof using.
  intros Hk Hroom Hkeep. unfold ZClient.Check, CheckWithMeta, pbind, on_meta, on_data. rewrite length_nonempty by done.
  pose proof (k_ok _ _ _ _ _ Hkeep) as Hm. destruct (g !! key) as [[md x]|] eqn:Hg; cbn [fmap option_fmap option_map snd].
  - destruct (kept_chunks _ _ _ _ _ _ _ Hkeep Hg) as (Hh & _ & Hd & Hn & _ & Hs).
    destruct (GetMetadata_spec c key md m Hm Hh) as (m1 & -> & Hm1 & He1). rewrite Hd.
    destruct (pl_Check (Chunks md) fast d) as [r d1] eqn:Hr. intros [= <- <- <-].
    destruct (pl_check_own _ _ n d r d1 Hr Hn Hroom) as (Hroom1 & Hs1 & Ht1). split_and!; [done|by eapply keeps_mono|].
    destruct x as [x|]; [|done]. by eapply pl_check_law; [exact Hr|done|by apply Hs|].
  - destruct (GetMetadata_missing c key m Hm Hk (k_none _ _ _ _ _ Hkeep _ Hk Hg)) as (m1 & -> & Hm1 & He1). intros [= <- <- <-].
    split_and!; [done|by eapply keeps_mono|done].
Qed.

Lemma Delete_keeps width key n g d m res d' m' :
  key <> [] -> pl_room n d -> kept width d g m -> ZClient.Delete c key (d, m) = (res, (d', m')) ->
  pl_room n d' /\
  match g !! key with
  | None => res = Err Metastor.ErrNotFound /\ kept width d' g m'
  | Some (md, _) => (res = Ok tt /\ kept width d' (delete key g) m') \/ (res <> Ok tt /\ kept width d' (<[key := (md, None)]> g) m')
  end.
Proof using.
  intros Hk Hroom Hkeep. unfold ZClient.Delete, DeleteWithMeta, pbind, on_meta, on_data. rewrite length_nonempty by done.
  pose proof (k_ok _ _ _ _ _ Hkeep) as Hm. destruct (g !! key) as [[md x]|] eqn:Hg.
  - destruct (kept_chunks _ _ _ _ _ _ _ Hkeep Hg) as (Hh & Hmk & Hd & Hn & _ & _).
    destruct (GetMetadata_spec c key md m Hm Hh) as (m1 & -> & Hm1 & He1). rewrite Hd.
    destruct (pl_Delete (Chunks md) d) as [r d1] eqn:Hr. destruct (pl_delete_own _ n d r d1 Hr Hn Hroom) as (Hroom1 & Ht1 & Hs1).
    assert (Hoth : forall k' md' x' y, g !! k' = Some (md', x') -> k' <> key -> pl_stored d (Chunks md') y -> pl_stored d1 (Chunks md') y).
    { intros k' md' x' y Hg' Hne Hy. apply Hs1; [done|]. by eapply (k_apart _ _ _ _ _ Hkeep). }
    assert (Hdam : forall e, (Err e : outcome unit, (d1, m1)) = (res, (d', m')) \/ (exists p, (Panic p : outcome unit, (d1, m1)) = (res, (d', m'))) ->
      pl_room n d' /\ (res = Ok tt /\ kept width d' (delete key g) m' \/ res <> Ok tt /\ kept width d' (<[key := (md, None)]> g) m')).
    { intros e E. assert (res <> Ok tt /\ d' = d1 /\ m' = m1) as (Hne & -> & ->) by (by destruct E as [[= <- <- <-]|[p [= <- <- <-]]]).
      split; [done|]. right. split; [done|]. eapply keeps_insert; [exact Hkeep|done|by intros ? _| |done|done|].
      - eapply recorded_mono; [| |done|done]; [|by apply He1]. destruct (k_some _ _ _ _ _ Hkeep _ _ _ Hg) as (? & ? & ? & ? & ? & ? & _).
        split_and!; try done.
      - intros o Ho. right. by eauto. }
    destruct r as [[]|e|p].
    + cbn [Key decoded]. rewrite Hmk. assert (Hmkey : md_key key) by (destruct Hh as (b & v & Hb & _); by eapply (entry_key m)).
      destruct (DeleteMetadata_spec key m1 Hm1 Hmkey) as (m2 & -> & Hm2 & Hgone & Hb). intros [= <- <- <-]. split; [done|]. left. split; [done|].
      eapply keeps_delete; [exact Hkeep|done| |done|done|done]. intros k' Hne. rewrite Hb by done. apply He1.
    + intros E. apply (Hdam e). by left.
    + intros E. apply (Hdam (ErrNew "")). right. by exists p.
  - destruct (GetMetadata_missing c key m Hm Hk (k_none _ _ _ _ _ Hkeep _ Hk Hg)) as (m1 & -> & Hm1 & He1). intros [= <- <- <-].
    split; [done|]. split; [done|by eapply keeps_mono].
Qed.

(** A repair that runs to its end, and whose metadata can be stored. *)
Definition repairable (now : Z) (key : bytes) (d : D) (m : M) : Prop :=
  forall md, has c m key md ->
    match (pl_Repair (Chunks (decoded [] md)) d).1 with
    | Ok cs => storable c key (repaired_metadata now cs (decoded [] md))
    | Err e => md_conflict e = false
    | Panic _ => False
    end.

(** The data of a key is the same after a repair, successful or not. *)
Lemma Repair_keeps width now key n g d m res d' m' :
  key <> [] -> pl_room (width + n) d -> kept width d g m -> md_conflict ErrRepairSupport = false -> repairable now key d m ->
  ZClient.Repair c now key (d, m) = (res, (d', m')) ->
  pl_room n d' /\
  match g !! key with
  | None => res = Ok (Some zero_metadata, Some Metastor.ErrNotFound) /\ kept width d' g m'
  | Some (md, x) => (exists md', res = Ok (Some md', None) /\ kept width d' (<[key := (md', x)]> g) m') \/
                    (exists e, res = Ok (None, Some e) /\ kept width d' g m')
  end.
Proof using.
  intros Hk Hroom Hkeep Hns Hrep. pose proof (k_ok _ _ _ _ _ Hkeep) as Hm. unfold ZClient.Repair. rewrite length_nonempty by done.
  destruct (g !! key) as [[md x]|] eqn:Hg.
  - destruct (k_some _ _ _ _ _ Hkeep _ _ _ Hg) as (Hh & Hmk & Hne & Hl & Hn & Ht & Hs). specialize (Hrep md Hh).
    destruct (UpdateMetadata_spec c key (repair_step now) md m
      (d, {| repairedChunks := []; totalSizeAfterRepair := 0; repairEpoch := 0 |}) Hm Hh) as (m1 & Hm1 & He1 & Hup).
    cbn [repair_step repairEpoch Z.eqb] in Hup. rewrite decoded_chunks in Hup, Hrep by done.
    assert (Hroom0 : pl_room (length (Chunks md) + n) d) by (eapply pl_less; [|exact Hroom]; lia).
    destruct (pl_Repair (Chunks md) d) as [r d1] eqn:Hr. cbn [fst] in Hrep.
    destruct (pl_repair_own _ n d r d1 Hr Hn Hroom0) as (Hroom1 & Hs1 & Ht1 & Hnew). destruct r as [cs|e|p]; [| |done].
    + destruct (Hnew cs eq_refl) as (Hlen & Hobj & Hsx).
      destruct (Hup _ _ _ _ eq_refl Hm1 Hrep) as (m2 & -> & Hm2 & Hh2 & Hb); [by rewrite He1|].
      intros [= <- <- <-]. split; [done|]. left. eexists. split; [done|].
      eapply keeps_insert; [exact Hkeep|done|intros k' Hne'; rewrite Hb by done; apply He1| |done|by intros * _ _; apply Hs1|].
      * split_and!; [exact Hh2|done| |cbn; lia| | |].
        -- cbn. intros ->. by destruct (Chunks md).
        -- intros o Ho. by apply Hobj.
        -- intros o Ho. destruct (Hobj o Ho) as [_ [Hin|[_ ?]]]; [auto|done].
        -- intros y ->. cbn. apply Hsx. by apply Hs.
      * intros o Ho. destruct (Hobj o Ho) as [_ [Hin|[? _]]]; [right; by eauto|by left].
    + destruct (Hup _ _ _ _ eq_refl Hm1) as (m2 & -> & Hm2 & Hb); [by destruct (bool_decide _)|].
      intros [= <- <- <-]. split; [done|]. right. eexists. split; [done|]. eapply keeps_mono; [exact Hkeep|done|done|done|].
      intros k'. by rewrite Hb, He1.
  - destruct (UpdateMetadata_missing c key (repair_step now) m
      (d, {| repairedChunks := []; totalSizeAfterRepair := 0; repairEpoch := 0 |}) Hm Hk (k_none _ _ _ _ _ Hkeep _ Hk Hg)) as (m1 & -> & Hm1 & He1).
    intros [= <- <- <-]. split; [eapply pl_less; [|exact Hroom]; lia|]. split; [done|by eapply keeps_mono].
Qed.
End Client.
