(* ===== verification/Linked.v ===== *)
(** * Linked data ([client/client_linked_data.go])

    [WriteLinked] stores data and links its metadata to that of a previous key;
    the two iterators walk along these links.  The loop of [Next] runs for a
    given number of rounds: an iterator over a chain of [n] entries needs at
    most [n + 1], and on a cycle whose entries are all outside the epoch range
    no number is enough. *)

From Stdlib Require Import Sorted.
From S2P Require Import Prelude Encoding Spread Pipeline MetaProto MetaProtoProps Metastor MetaMem ZClient.
Import AsyncSplitter.
Open Scope nat_scope.

Definition ErrInvalidTraverseIterator := ErrVar "client" "ErrInvalidTraverseIterator"
  "TraverseIterator is invalid: did you call (TraverseIterator).Next?".
Definition ErrInvalidEpochRange := ErrVar "client" "ErrInvalidEpochRange"
  "cannot create traverse iterator: epoch range is invalid".

(** What the model of a walk with too few rounds ends with. *)
Definition walking : string := "still walking".

(** ** Iterators *)
Inductive direction := Forward | Backward.

(** [forwardTraverseIterator] and [backwardTraverseIterator] with the state they
    share; [line] is [nextKey] or [previousKey]. *)
Record TraverseIterator := {
  dir : direction;
  md : option Metadata;
  line : slice;
  fromEpoch : Z;
  toEpoch : Z;
}.

Definition epoch_arg (e : Z) : Z := if (e <=? 0)%Z then (-1)%Z else e.

Definition Traverse (startKey : bytes) (fromEpoch toEpoch : Z) : outcome TraverseIterator :=
  if (length startKey =? 0) then Err ErrNilKey
  else
    let fromEpoch := epoch_arg fromEpoch in
    let toEpoch := epoch_arg toEpoch in
    if negb (toEpoch =? -1)%Z && (toEpoch <? fromEpoch)%Z then Err ErrInvalidEpochRange
    else Ok {| dir := Forward; md := None; line := Some startKey; fromEpoch := fromEpoch; toEpoch := toEpoch |}.

Definition TraversePostOrder (startKey : bytes) (fromEpoch toEpoch : Z) : outcome TraverseIterator :=
  if (length startKey =? 0) then Err ErrNilKey
  else
    let fromEpoch := epoch_arg fromEpoch in
    let toEpoch := epoch_arg toEpoch in
    if negb (fromEpoch =? -1)%Z && (fromEpoch <? toEpoch)%Z then Err ErrInvalidEpochRange
    else Ok {| dir := Backward; md := None; line := Some startKey; fromEpoch := fromEpoch; toEpoch := toEpoch |}.

(** The tests of the two [Next] methods: the walk is over, the entry is not
    wanted yet, and the key that comes next. *)
Definition exhausted (it : TraverseIterator) (m : Metadata) : bool :=
  negb (toEpoch it =? -1)%Z &&
  match dir it with Forward => (toEpoch it <? CreationEpoch m)%Z | Backward => (CreationEpoch m <? toEpoch it)%Z end.

Definition skipped (it : TraverseIterator) (m : Metadata) : bool :=
  negb (fromEpoch it =? -1)%Z &&
  match dir it with Forward => (CreationEpoch m <? fromEpoch it)%Z | Backward => (fromEpoch it <? CreationEpoch m)%Z end.

Definition follow (d : direction) (m : Metadata) : slice :=
  match d with Forward => NextKey m | Backward => PreviousKey m end.

Definition at_line (it : TraverseIterator) (key : slice) : TraverseIterator :=
  {| dir := dir it; md := md it; line := key; fromEpoch := fromEpoch it; toEpoch := toEpoch it |}.

Definition at_md (it : TraverseIterator) (m : Metadata) : TraverseIterator :=
  {| dir := dir it; md := Some m; line := line it; fromEpoch := fromEpoch it; toEpoch := toEpoch it |}.

Definition PeekNextKey (it : TraverseIterator) : slice * bool :=
  match line it with None => (None, false) | Some k => (Some k, true) end.

(** [(traverseIteratorState).GetMetadata] *)
Definition it_GetMetadata (it : TraverseIterator) : outcome Metadata :=
  match md it with None => Err ErrInvalidTraverseIterator | Some m => Ok m end.

(** [(traverseIteratorState).ReadData] *)
Definition ReadData `{DataPipeline D} {Out} (it : TraverseIterator) (w : option (Writer Out)) (out : Out)
  : prog D (Out * option error) :=
  match w with
  | None => ppanic "TraverseIterator: ReadData: required io.Writer is nil"
  | Some wr =>
      match md it with
      | None => pret (out, Some ErrInvalidTraverseIterator)
      | Some m => pl_Read (Chunks m) (Some wr) out
      end
  end.

Section Next.
Context `{MetaDB M} (c : MarshalFuncPair).

Fixpoint Next (rounds : nat) (it : TraverseIterator) : prog M (bool * TraverseIterator) :=
  match line it with
  | None => pret (false, it)
  | Some key =>
      match rounds with
      | O => ppanic walking
      | S rounds' => fun s =>
          match GetMetadata c key s with
          | (Panic p, s) => (Panic p, s)
          | (Err _, s) => (Ok (false, it), s)
          | (Ok m, s) =>
              if exhausted it m then (Ok (false, at_line it None), s)
              else
                let it := at_line it (follow (dir it) m) in
                if skipped it m then Next rounds' it s
                else (Ok (true, at_md it m), s)
          end
      end
  end.

(** What a loop [for it.Next() { md, _ := it.GetMetadata() ... }] sees. *)
Fixpoint walk (calls rounds : nat) (it : TraverseIterator) : prog M (list Metadata) :=
  match calls with
  | O => ppanic walking
  | S calls' =>
      do! (more, it) := Next rounds it in
      if more then
        do! m := plift (it_GetMetadata it) in
        do! rest := walk calls' rounds it in
        pret (m :: rest)
      else pret []
  end.
End Next.

(** ** [WriteLinked] *)
Section WriteLinked.
Context `{DataPipeline D} `{MetaDB M} (c : MarshalFuncPair).

(** The callback writes the data and its metadata once; [meta] is the captured
    result. *)
Definition link_step (now : Z) (key prevKey : bytes) (r : option Reader) : UpdateMetadataFunc (M := M) (D * option Metadata) :=
  fun prev '(m, (d, meta)) =>
    let linked := Some {| Key := Key prev; Size := Size prev; CreationEpoch := CreationEpoch prev;
                          LastWriteEpoch := LastWriteEpoch prev; Chunks := Chunks prev;
                          PreviousKey := PreviousKey prev; NextKey := Some key |} in
    match meta with
    | Some _ => (Ok (linked, None), (m, (d, meta)))
    | None =>
        match pl_Write r d with
        | (Err e, d) => (Ok (None, Some e), (m, (d, None)))
        | (Panic p, d) => (Panic p, (m, (d, None)))
        | (Ok chunks, d) =>
            let new := new_metadata now key (Some prevKey) chunks in
            match SetMetadata c new m with
            | (Ok _, m) => (Ok (linked, None), (m, (d, Some new)))
            | (Err e, m) => (Ok (None, Some e), (m, (d, Some new)))
            | (Panic p, m) => (Panic p, (m, (d, Some new)))
            end
        end
    end.

(** The results [meta], [prevMeta] and [err]. *)
Definition WriteLinked (now : Z) (key prevKey : bytes) (r : option Reader)
  : prog (D * M) (option Metadata * option Metadata * option error) :=
  if (length key =? 0) then pret (None, None, Some ErrNilKey)
  else if (length prevKey =? 0) then pret (None, None, Some ErrNilKey)
  else fun '(d, m) =>
    match UpdateMetadata c prevKey (link_step now key prevKey r) (m, (d, None)) with
    | (Ok (prevMeta, err), (m, (d, meta))) => (Ok (meta, prevMeta, err), (d, m))
    | (Err e, (m, (d, meta))) => (Ok (meta, None, Some e), (d, m))
    | (Panic p, (m, (d, _))) => (Panic p, (d, m))
    end.
End WriteLinked.

(** ** Walking along a chain *)

(** What an iterator shows of the entries it passes. *)
Fixpoint visible (it : TraverseIterator) (l : list Metadata) : list Metadata :=
  match l with
  | [] => []
  | m :: l' => if exhausted it m then [] else if skipped it m then visible it l' else m :: visible it l'
  end.

(** An epoch limit of an iterator; [-1] stands for none. *)
Definition in_range (it : TraverseIterator) (m : Metadata) : bool := negb (exhausted it m) && negb (skipped it m).

(** The entries come in the order in which the iterator expects them. *)
Definition in_order (d : direction) (a b : Metadata) : Prop :=
  match d with Forward => (CreationEpoch a <= CreationEpoch b)%Z | Backward => (CreationEpoch b <= CreationEpoch a)%Z end.

#[export] Instance in_order_trans d : Transitive (in_order d).
Proof. intros a b e. destruct d; cbn; lia. Qed.

Lemma exhausted_order it a b : in_order (dir it) a b -> exhausted it a = true -> exhausted it b = true.
Proof.
  unfold exhausted. rewrite !andb_true_iff. intros Ho [-> Ha]. split; [done|].
  destruct (dir it); cbn in Ho; rewrite Z.ltb_lt in *; lia.
Qed.

(** On a chain in order of creation exactly the entries in the range are seen. *)
Lemma visible_sorted it l : StronglySorted (in_order (dir it)) l -> visible it l = List.filter (in_range it) l.
Proof.
  induction 1 as [|m l Hs IH Hall]; [done|]. cbn [visible List.filter]. unfold in_range at 1.
  destruct (exhausted it m) eqn:He; cbn [negb andb].
  - clear IH Hs. symmetry. induction Hall as [|b l Hb Hall IH]; [done|]. cbn [List.filter]. unfold in_range at 1.
    by rewrite (exhausted_order it m b).
  - destruct (skipped it m); cbn [negb]; [done|by rewrite IH].
Qed.

Section Walk.
Context `{MetaDBLaws M} (c : MarshalFuncPair) `{!Codec c}.

(** The entries that the links lead to from [key]. *)
Fixpoint chain (d : direction) (m : M) (key : slice) (l : list Metadata) : Prop :=
  match l with
  | [] => key = None
  | x :: l' => exists k, key = Some k /\ has c m k x /\ chain d m (follow d (decoded [] x)) l'
  end.

Lemma chain_same d m m' key l : same_entries m m' -> chain d m key l -> chain d m' key l.
Proof using.
  intros Hs. revert key; induction l as [|x l IH]; intros key; cbn [chain]; [done|].
  intros (k & -> & Hh & Hl). exists k. split_and!; [done| |by apply IH].
  eapply has_entry; [apply Hs|done].
Qed.

(** One call of [Next]. *)
Lemma Next_chain rounds it m l :
  md_ok m -> chain (dir it) m (line it) l -> length l <= rounds ->
  exists m' it', Next c rounds it m = (Ok (it'.1, it'.2), m') /\ md_ok m' /\ same_entries m m' /\
    match visible it (decoded [] <$> l) with
    | [] => it'.1 = false
    | x :: rest => it'.1 = true /\ md it'.2 = Some x /\
        exists l', length l' < length l /\ chain (dir it'.2) m' (line it'.2) l' /\ visible it'.2 (decoded [] <$> l') = rest
    end.
Proof using.
  revert rounds it m; induction l as [|x l IH]; intros rounds it m Hm Hc Hr.
  { cbn in Hc. exists m, (false, it). split; [|done]. destruct rounds; cbn; by rewrite Hc. }
  destruct Hc as (k & Hk & Hh & Hl). destruct rounds as [|rounds]; [cbn in Hr; lia|]. cbn [Next].
  rewrite Hk. destruct (GetMetadata_spec c k x m Hm Hh) as (m1 & -> & Hm1 & Hs1).
  cbn [fmap list_fmap visible]. destruct (exhausted it (decoded [] x)) eqn:He.
  { by exists m1, (false, at_line it None). }
  set (it1 := at_line it (follow (dir it) (decoded [] x))). change (skipped it1 (decoded [] x)) with (skipped it (decoded [] x)).
  assert (Hvis : forall l, visible it1 l = visible it l) by (induction l0 as [|y l0 IHl]; [done|]; cbn [visible]; by rewrite IHl).
  assert (Hc1 : chain (dir it1) m1 (line it1) l) by (by eapply chain_same).
  destruct (skipped it (decoded [] x)) eqn:Hsk.
  - destruct (IH rounds it1 m1 Hm1 Hc1) as (m2 & it' & -> & Hm2 & Hs2 & Hv); [cbn in Hr; lia|].
    exists m2, it'. split_and!; [done|done|intros k'; by rewrite Hs2, Hs1|]. rewrite Hvis in Hv.
    destruct (visible it _) as [|y rest]; [done|]. destruct Hv as (? & ? & l' & ? & ? & ?). split_and!; [done|done|].
    exists l'. split_and!; [cbn; lia|done|done].
  - exists m1, (true, at_md it1 (decoded [] x)). split_and!; [done|done|done|done|done|].
    exists l. split_and!; [cbn; lia|done|]. rewrite <- Hvis. clear. induction (decoded [] <$> l) as [|y l0 IHl]; [done|].
    cbn [visible]. by rewrite IHl.
Qed.

(** A loop over the iterator sees what is visible of the chain, and ends. *)
Lemma walk_chain calls rounds it m l :
  md_ok m -> chain (dir it) m (line it) l -> length l <= rounds -> length l < calls ->
  exists m', walk c calls rounds it m = (Ok (visible it (decoded [] <$> l)), m') /\ md_ok m' /\ same_entries m m'.
Proof using.
  revert it m l; induction calls as [|calls IH]; intros it m l Hm Hc Hr Hn; [lia|]. cbn [walk].
  destruct (Next_chain rounds it m l Hm Hc Hr) as (m1 & [more it1] & Hnext & Hm1 & Hs1 & Hv). cbn [fst snd] in *.
  rewrite (pbind_Ok _ _ _ _ _ Hnext). destruct (visible it _) as [|x rest]; [subst more; by exists m1|].
  destruct Hv as (-> & Hmd & l' & Hlen & Hc' & Hv'). unfold pbind, plift, it_GetMetadata. rewrite Hmd.
  destruct (IH it1 m1 l' Hm1 Hc') as (m2 & -> & Hm2 & Hs2); [lia|lia|]. exists m2. rewrite Hv'.
  split_and!; [done|done|]. intros k'. by rewrite Hs2, Hs1.
Qed.

(** C21. Traversal: over a chain of linked entries, a forward or backward
    traversal with a valid epoch range ends, and shows the entries of the chain
    in the order of the links.  If their creation times are in that order, it
    shows exactly the entries within the range, however it is given. *)
Theorem traverse_enumerates (d : direction) (start : bytes) (from to : Z) (it : TraverseIterator) (m : M) (l : list Metadata) :
  (match d with Forward => Traverse | Backward => TraversePostOrder end) start from to = Ok it ->
  md_ok m -> chain d m (Some start) l ->
  exists m', walk c (S (length l)) (length l) it m = (Ok (visible it (decoded [] <$> l)), m') /\ same_entries m m' /\
    (StronglySorted (in_order d) (decoded [] <$> l) ->
       visible it (decoded [] <$> l) = List.filter (fun x =>
         ((from <=? 0) || match d with Forward => from <=? CreationEpoch x | Backward => CreationEpoch x <=? from end) &&
         ((to <=? 0) || match d with Forward => CreationEpoch x <=? to | Backward => to <=? CreationEpoch x end))%Z
         (decoded [] <$> l)).
Proof using.
  intros Hit Hm Hc.
  assert (Hshape : it = {| dir := d; md := None; line := Some start; fromEpoch := epoch_arg from; toEpoch := epoch_arg to |}).
  { destruct d; unfold Traverse, TraversePostOrder in Hit; (destruct (_ =? 0); [done|]);
      (destruct (_ && _); [done|]); by injection Hit. }
  destruct (walk_chain (S (length l)) (length l) it m l Hm) as (m' & Hw & _ & Hs); [by subst it|lia|lia|].
  exists m'. split_and!; [done|done|]. intros Hsorted. rewrite visible_sorted by by subst it.
  apply List.filter_ext. intros x. subst it. unfold in_range, exhausted, skipped, epoch_arg. cbn [dir fromEpoch toEpoch].
  clear.
  destruct (Z.leb_spec from 0), (Z.leb_spec to 0), d; cbn [orb andb negb Z.eqb];
    repeat match goal with |- context [(?a =? -1)%Z] => destruct (Z.eqb_spec a (-1)); [lia|] end;
    cbn [orb andb negb]; rewrite <- ?Z.leb_antisym; try done; by rewrite ?andb_true_r, ?(andb_comm (to <=? _)%Z), ?(andb_comm (CreationEpoch x <=? to)%Z).
Qed.
End Walk.

(** ** Linked writes build such chains *)
Definition with_next (key : bytes) (x : Metadata) : Metadata :=
  {| Key := Key x; Size := Size x; CreationEpoch := CreationEpoch x; LastWriteEpoch := LastWriteEpoch x;
     Chunks := Chunks x; PreviousKey := PreviousKey x; NextKey := Some key |}.

(** The links of a list of entries after the key [prev]. *)
Fixpoint links (prev : slice) (l : list Metadata) : Prop :=
  match l with
  | [] => True
  | x :: l' => PreviousKey x = prev /\ NextKey x = (Key <$> head l') /\ Key x <> [] /\ links (Some (Key x)) l'
  end.

(** Putting [y] behind the last entry. *)
Lemma links_snoc prev l x y :
  links prev (l ++ [x]) -> nonempty prev = prev -> PreviousKey y = Some (Key x) -> NextKey y = None -> Key y <> [] ->
  links prev (l ++ [with_next (Key y) (decoded [] x); y]).
Proof.
  intros Hl Hprev Hp Hn Hy. revert prev Hl Hprev; induction l as [|z l IH]; intros prev; cbn [app links].
  { intros (Hpx & Hnx & Hk & _) Hprev. cbn [with_next decoded PreviousKey NextKey Key]. split_and!; try done. by rewrite Hpx. }
  intros (Hpz & Hnz & Hkz & Hl) Hprev. split_and!; [done| |done|].
  - rewrite Hnz. by destruct l.
  - apply IH; [done|]. by destruct (Key z).
Qed.

Section Chains.
Context `{MetaDBLaws M} (c : MarshalFuncPair) `{!Codec c}.

(** The database holds a doubly linked list. *)
Record linked (m : M) (l : list Metadata) : Prop := {
  li_links : links None l;
  li_has : Forall (fun x => has c m (Key x) x) l;
  li_keys : NoDup (Key <$> l);
}.

Lemma chain_forward m prev l :
  links prev l -> Forall (fun x => has c m (Key x) x) l -> chain c Forward m (Key <$> head l) l.
Proof using.
  revert prev; induction l as [|x l IH]; intros prev; [done|]. cbn [links]. intros (Hp & Hn & Hk & Hl) [Hx Hall]%Forall_cons.
  cbn [chain head fmap option_fmap option_map]. exists (Key x). split_and!; [done|done|].
  specialize (IH _ Hl Hall). cbn [follow decoded NextKey]. rewrite Hn. destruct l as [|y l]; [done|].
  cbn [head fmap option_fmap option_map] in *. destruct (Key y) eqn:E; [|done]. by destruct Hl as (_ & _ & Hy & _).
Qed.

Lemma chain_backward m prev l rest :
  links prev l -> Forall (fun x => has c m (Key x) x) l -> nonempty prev = prev -> chain c Backward m prev rest ->
  chain c Backward m (from_option (fun x => Some (Key x)) prev (last l)) (reverse l ++ rest).
Proof using.
  revert prev rest; induction l as [|x l IH]; intros prev rest; cbn [links]; [done|].
  intros (Hp & Hn & Hk & Hl) [Hx Hall]%Forall_cons Hprev Hrest.
  assert (Hcx : chain c Backward m (Some (Key x)) (x :: rest)).
  { exists (Key x). split_and!; [done|done|]. cbn [follow decoded PreviousKey]. by rewrite Hp, Hprev. }
  assert (Hne : nonempty (Some (Key x)) = Some (Key x)) by (by destruct (Key x)).
  specialize (IH _ (x :: rest) Hl Hall Hne Hcx). rewrite reverse_cons, <- app_assoc. cbn [app].
  destruct l as [|y l]; [done|]. rewrite last_cons_cons. 
  destruct (last (y :: l)) as [z|] eqn:E; [done|]. by apply last_None in E.
Qed.

Context `{DataPipeline D}.

(** A linked write on a database in which nobody else writes. *)
Lemma WriteLinked_spec now key r prev x (d : D) m chunks d' :
  md_ok m -> key <> prev -> has c m prev x -> pl_Write r d = (Ok chunks, d') ->
  let new := new_metadata now key (Some prev) chunks in
  let linked := with_next key (decoded [] x) in
  storable c key new -> storable c prev linked ->
  exists m', WriteLinked c now key prev r (d, m) = (Ok (Some new, Some linked, None), (d', m')) /\ md_ok m' /\
    has c m' key new /\ has c m' prev linked /\ forall k, k <> key -> k <> prev -> md_entry m' k = md_entry m k.
Proof using.
  intros Hm Hne Hx Hw new linked Hnew Hlinked. pose proof (has_nonempty c _ _ _ Hm Hx) as Hp.
  destruct (storable_codec _ _ _ Hnew) as (_ & _ & _ & Hk & _). unfold WriteLinked. rewrite !length_nonempty by done.
  destruct (UpdateMetadata_spec c prev (link_step c now key prev r) x m (d, None) Hm Hx) as (m1 & Hm1 & Hs1 & Hup).
  destruct (SetMetadata_spec c new m1 Hm1 Hnew) as (m2 & Hset & Hm2 & Hh2 & Ho2).
  specialize (Hup (Some linked) None m2 (d', Some new)). cbn beta iota in Hup.
  assert (Hstep : link_step c now key prev r (decoded [] x) (m1, (d, None)) = (Ok (Some linked, None), (m2, (d', Some new)))).
  { cbn [link_step]. rewrite Hw. fold new. by rewrite Hset. }
  destruct (Hup Hstep Hm2 Hlinked) as (m' & -> & Hm' & Hh' & Ho').
  { rewrite Ho2, Hs1 by done. done. }
  exists m'. split_and!; [done|done| |done|].
  - eapply has_entry; [|exact Hh2]. by apply Ho'.
  - intros k Hk1 Hk2. rewrite Ho', Ho2, Hs1; done.
Qed.

(** C20. Linked writes build the chains that are traversed: behind a doubly linked
    list, a linked write of a fresh key to the last entry stores the data, its
    metadata with a link back, and the link forward in the last entry, and
    leaves a doubly linked list that is one longer.  The chain from the first
    key forward and the chain from the new key backward are this list and its
    reverse. *)
Theorem write_linked_appends (now : Z) (key : bytes) (r : option Reader) (l : list Metadata) (x : Metadata)
    (d : D) (m : M) (chunks : list Chunk) (d' : D) :
  md_ok m -> linked m (l ++ [x]) -> key ∉ Key <$> (l ++ [x]) -> pl_Write r d = (Ok chunks, d') ->
  let new := new_metadata now key (Some (Key x)) chunks in
  let last := with_next key (decoded [] x) in
  let l' := l ++ [last; new] in
  storable c key new -> storable c (Key x) last ->
  exists m', WriteLinked c now key (Key x) r (d, m) = (Ok (Some new, Some last, None), (d', m')) /\ md_ok m' /\
    linked m' l' /\ chain c Forward m' (Key <$> head l') l' /\ chain c Backward m' (Some key) (reverse l').
Proof using.
  intros Hm [Hlinks Hhas Hkeys] Hfresh Hw new last l' Hnew Hlast.
  apply Forall_app in Hhas as [Hall Hx]. apply Forall_cons in Hx as [Hx _]. rewrite fmap_app in Hkeys, Hfresh.
  apply not_elem_of_app in Hfresh as [Hf1 Hf2]. apply NoDup_app in Hkeys as (Hnd & Hdis & _).
  destruct (storable_codec _ _ _ Hnew) as (_ & _ & _ & Hk & _).
  assert (Hkne : key <> Key x) by (cbn in Hf2; set_solver).
  destruct (WriteLinked_spec now key r (Key x) x d m chunks d' Hm Hkne Hx Hw Hnew Hlast)
    as (m' & Hwl & Hm' & Hhn & Hhl & Ho).
  assert (Hlk : linked m' l').
  { split.
    - by apply (links_snoc None l x new).
    - apply Forall_app. split; [|by repeat constructor]. rewrite Forall_forall in Hall |- *. intros y Hy.
      eapply has_entry; [|by apply Hall]. apply Ho; intros E.
      + apply Hf1. rewrite <- E. by apply list_elem_of_fmap_2.
      + apply (Hdis (Key y)); [by apply list_elem_of_fmap_2|]. rewrite E. cbn. set_solver.
    - unfold l'. rewrite fmap_app. cbn. apply NoDup_app. split_and!; [done| |].
      + intros k' Hin Hk'. apply elem_of_cons in Hk' as [->|Hk']; [apply (Hdis (Key x)); [done|cbn; set_solver]|].
        apply list_elem_of_singleton in Hk' as ->. done.
      + repeat constructor; set_solver. }
  exists m'. split_and!; [done|done|done|apply (chain_forward m' None); apply Hlk|].
  pose proof (chain_backward m' None l' [] (li_links _ _ Hlk) (li_has _ _ Hlk) eq_refl eq_refl) as Hb.
  rewrite app_nil_r in Hb. unfold l' in Hb at 1. rewrite last_app in Hb. exact Hb.
Qed.

(** Without the previous entry nothing is written. *)
Lemma WriteLinked_missing now key prev r (d : D) m :
  md_ok m -> key <> [] -> prev <> [] -> md_entry m prev = None ->
  exists m', WriteLinked c now key prev r (d, m) = (Ok (None, Some zero_metadata, Some ErrNotFound), (d, m')) /\
    same_entries m m'.
Proof using.
  intros Hm Hk Hp He. unfold WriteLinked. rewrite !length_nonempty by done.
  destruct (UpdateMetadata_missing c prev (link_step c now key prev r) m (d, None) Hm Hp He) as (m' & -> & _ & Hs).
  by exists m'.
Qed.

(** A cycle outside the epoch range is walked for ever. *)
Lemma cyclic_walk rounds it k x m :
  md_ok m -> has c m k x -> line it = Some k -> follow (dir it) (decoded [] x) = Some k ->
  exhausted it (decoded [] x) = false -> skipped it (decoded [] x) = true ->
  exists m', Next c rounds it m = (Panic walking, m').
Proof using.
  revert it m; induction rounds as [|rounds IH]; intros it m Hm Hx Hl Hf He Hs; cbn [Next]; rewrite Hl; [by exists m|].
  destruct (GetMetadata_spec c k x m Hm Hx) as (m1 & -> & Hm1 & Hs1). rewrite He.
  set (it1 := at_line it _). change (skipped it1 (decoded [] x)) with (skipped it (decoded [] x)). rewrite Hs.
  apply IH; try done. eapply has_entry; [apply Hs1|done].
Qed.
End Chains.

(** ** The data is written once *)

(** A linked write hands its data to the pipeline at most once, however
    often the update of the previous entry is retried. *)
Theorem link_writes_once `{DataPipeline D} `{MetaDBCalls M} (c : MarshalFuncPair) (now : Z) (key prev : bytes)
    (r : option Reader) (d : D) (m : M) (res : outcome (option Metadata * option Metadata * option error)) (d' : D) (m' : M) :
  (forall e d2, pl_Write r d = (Err e, d2) -> md_conflict e = false) ->
  WriteLinked c now key prev r (d, m) = (res, (d', m')) -> d' = d \/ d' = (pl_Write r d).2.
Proof.
  intros He. unfold WriteLinked. destruct (_ =? 0); [intros [= _ <- _]; by left|].
  destruct (_ =? 0); [intros [= _ <- _]; by left|].
  destruct (UpdateMetadata c prev _ _) as [u [m1 [d1 meta]]] eqn:Hu. intros Hr.
  assert (d' = d1) as -> by (destruct u as [[]| |]; by injection Hr). clear Hr.
  eapply (UpdateMetadata_inv c prev _
    (fun l : D * option Metadata => l.1 = d /\ l.2 = None \/ is_Some l.2 /\ l.1 = (pl_Write r d).2)
    (fun l : D * option Metadata => l.1 = d \/ l.1 = (pl_Write r d).2)) in Hu;
    [exact Hu| |intros l [[Hl _]|[_ Hl]]; [by left|by right]|by left].
  clear -He. intros x m [d0 meta] res m' [d' meta'] HI. unfold link_step. cbn [fst snd] in *.
  destruct meta as [y|]; [intros [= <- _ <- <-]; destruct HI as [[_ Hy]|HI]; [done|by right]|].
  destruct HI as [[-> _]|[[? ?] _]]; [|done]. destruct (pl_Write r d) as [[chunks|e|p] d2] eqn:Hw; cycle 1.
  { intros [= <- _ <- <-]. rewrite (He _ _ eq_refl). by right. } { intros [= <- _ <- <-]. by right. }
  destruct (SetMetadata c _ m) as [[[]|e|p] m2]; intros [= <- _ <- <-]; [by right; split| |by right].
  destruct (md_conflict e); by right.
Qed.

(** ** Examples *)
Definition entry_a : Metadata :=
  {| Key := str_bytes "a"; Size := 10; CreationEpoch := 5; LastWriteEpoch := 5; Chunks := demo_chunks;
     PreviousKey := None; NextKey := Some (str_bytes "b") |}.
Definition entry_b : Metadata :=
  {| Key := str_bytes "b"; Size := 10; CreationEpoch := 9; LastWriteEpoch := 9; Chunks := demo_chunks;
     PreviousKey := Some (str_bytes "a"); NextKey := None |}.
Definition two_entries : MetaMem.DB :=
  MetaMem.put (str_bytes "b") (encoding entry_b) (MetaMem.put (str_bytes "a") (encoding entry_a) MetaMem.New).

Ltac solve_encodable :=
  unfold encodable, is_i64; split; [|split; [|split; [|split]]]; [vm_compute; split; congruence..| |vm_compute; done];
  match goal with |- Forall _ (Chunks ?m) => let cs := eval vm_compute in (Chunks m) in change (Chunks m) with cs end;
  repeat (constructor; [vm_compute; split; congruence|]); constructor.

Lemma entry_a_encodable : encodable entry_a.
Proof. solve_encodable. Qed.

Lemma entry_b_encodable : encodable entry_b.
Proof. solve_encodable. Qed.

Lemma two_entries_chain : chain proto_pair Forward two_entries (Some (str_bytes "a")) [entry_a; entry_b].
Proof.
  exists (str_bytes "a"). split_and!; [done| |].
  { exists (encoding entry_a), 1%Z. split; [vm_compute; reflexivity|]. intros old. apply UnmarshalMetadata_encoding, entry_a_encodable. }
  exists (str_bytes "b"). split_and!; [done| |done].
  exists (encoding entry_b), 1%Z. split; [vm_compute; reflexivity|]. intros old. apply UnmarshalMetadata_encoding, entry_b_encodable.
Qed.

Lemma traverse_enumerates_witness :
  exists m', walk proto_pair 3 2
    {| dir := Forward; md := None; line := Some (str_bytes "a"); fromEpoch := 7; toEpoch := -1 |} two_entries = (Ok [entry_b], m').
Proof.
  destruct (traverse_enumerates proto_pair Forward (str_bytes "a") 7 0
    {| dir := Forward; md := None; line := Some (str_bytes "a"); fromEpoch := 7; toEpoch := -1 |} two_entries [entry_a; entry_b]
    eq_refl ltac:(exact (eq_refl : MetaMem.keyed two_entries)) two_entries_chain) as (m' & Hw & _).
  exists m'. etrans; [exact Hw|]. vm_compute. reflexivity.
Defined.

Definition next_key : bytes := str_bytes "next".

Lemma demo_linked : linked proto_pair demo_run.2.2 ([] ++ [demo_md]).
Proof.
  split; [by split_and!| |].
  - constructor; [apply demo_has|constructor].
  - apply NoDup_singleton.
Qed.

(** The chunks of a second write through the demo pipeline. *)
Definition next_chunks : list Chunk :=
  match pl_Write (Some demo_input) demo_run.2.1 with (Ok cs, _) => cs | _ => [] end.

Lemma write_linked_appends_witness :
  exists m', chain proto_pair Backward m' (Some next_key)
    (reverse [with_next next_key (decoded [] demo_md); new_metadata 8 next_key (Some demo_key) next_chunks]).
Proof.
  destruct (write_linked_appends proto_pair 8 next_key (Some demo_input) [] demo_md demo_run.2.1 demo_run.2.2 next_chunks
    (pl_Write (Some demo_input) demo_run.2.1).2) as (m' & _ & _ & _ & _ & Hb).
  - reflexivity.
  - exact demo_linked.
  - vm_compute. intros Hx. by inversion Hx as [|? ? ? Hy]; inversion Hy.
  - vm_compute. reflexivity.
  - split; [solve_encodable|done].
  - split; [solve_encodable|done].
  - exists m'. exact Hb.
Defined.

#[local] Existing Instance counting_pipeline.

(** With two conflicts the data is written once. *)
Lemma link_writes_once_witness :
  let busy := MetaMem.mem_db two_writers 3 in
  let s := (0, demo_run.2.2) in
  (WriteLinked (H0 := busy) proto_pair 8 next_key demo_key (Some demo_input) s).2.1 = 1 /\
  (1 = 0 \/ 1 = (pl_Write (Some demo_input) 0).2).
Proof.
  cbv zeta. split; [vm_compute; reflexivity|].
  apply (link_writes_once (H0 := MetaMem.mem_db two_writers 3) (H1 := MetaMem.mem_db_calls two_writers 3) proto_pair 8 next_key demo_key
    (Some demo_input) 0 demo_run.2.2
    (WriteLinked (H0 := MetaMem.mem_db two_writers 3) proto_pair 8 next_key demo_key (Some demo_input) (0, demo_run.2.2)).1 1
    (WriteLinked (H0 := MetaMem.mem_db two_writers 3) proto_pair 8 next_key demo_key (Some demo_input) (0, demo_run.2.2)).2.2);
    [done|vm_compute; reflexivity].
Defined.

(** Linking a key to itself is accepted: the second round finds the entry that
    the first one wrote, and makes it its own successor. *)
Lemma self_link_accepted :
  let r := WriteLinked (H0 := MetaMem.mem_db MetaMem.nobody 2) proto_pair 8 demo_key demo_key (Some demo_input) (0, demo_run.2.2) in
  match r with
  | (Ok (_, Some prevMeta, None), _) => Key prevMeta = demo_key /\ NextKey prevMeta = Some demo_key
  | _ => False
  end.
Proof. by vm_compute. Qed.

(** Another client replaces the data of the previous key by empty data, which
    has no chunks, while it is linked: the retry decodes the new metadata into
    the old one and stores it with the chunks of the old data. *)
Definition replaced : Metadata := new_metadata 20 demo_key None [].
Definition replacing (n : nat) : list MetaMem.op * list MetaMem.op :=
  if (n =? 1) then ([], [MetaMem.OpSet demo_key (encoding replaced)]) else ([], []).

Lemma retry_keeps_stale_chunks :
  let r := WriteLinked (H0 := MetaMem.mem_db replacing 2) proto_pair 8 next_key demo_key (Some demo_input) (0, demo_run.2.2) in
  match r with
  | (Ok (_, Some prevMeta, None), _) => CreationEpoch prevMeta = 20%Z /\ Chunks prevMeta = demo_chunks
  | _ => False
  end.
Proof. by vm_compute. Qed.
