(* ===== verification/Processing.v ===== *)
(** * Data processing, hashing and encodings ([client/processing], [pipeline/crypto], [metastor/encoding])

    [Registry] models the four tables that map the types of the configuration
    (compression, encryption, hashing and metadata encoding) to their names and
    constructors; [Chain] the processors that are composed; the compressors, the
    AEAD cipher and the hash functions of other packages are parameters; the
    default one of the latter is in [Blake2b]. *)

From stdpp Require Import pretty.
From S2P Require Import Prelude Unicode Encoding Spread Pipeline MetaProto MetaProtoProps Metastor.
Open Scope Z_scope.

(** ** Registries *)
Module Registry.

(** The three maps of a registry. *)
Record registry (C : Type) := { names : gmap Z string; values : gmap string Z; ctors : gmap Z C }.
Arguments names {C}.
Arguments values {C}.
Arguments ctors {C}.

Definition new {C} : registry C := {| names := ∅; values := ∅; ctors := ∅ |}.

(** What differs between the registries: the texts, whether a new name is put
    in lower case, and the default type of an empty text. *)
Record kind := {
  type_name : string;
  no_ctor : string;
  no_name : string;
  fold : bool;
  default_value : Z;
}.

(** [RegisterCompressorDecompressor], [RegisterEncrypterDecrypter],
    [RegisterHasher] and [RegisterMarshalFuncPair]. *)
Definition register {C} (k : kind) (v : Z) (str : string) (c : option C) (r : registry C) : outcome (registry C) :=
  match c with
  | None => Panic (no_ctor k)
  | Some c =>
      let! str :=
        match names r !! v with
        | Some s => Ok s
        | None => if bool_decide (str = EmptyString) then Panic (no_name k)
                  else Ok (if fold k then ToLower str else str)
        end in
      Ok {| names := <[v := str]> (names r); values := <[str := v]> (values r); ctors := <[v := c]> (ctors r) |}
  end.

(** [String] of a type that falls back to its number. *)
Definition String_ {C} (r : registry C) (v : Z) : string := default (pretty v) (names r !! v).

Definition MarshalText {C} (k : kind) (r : registry C) (v : Z) : outcome string :=
  let str := String_ r v in
  if bool_decide (str = EmptyString)
  then Err (ErrNew ("'" +:+ String_ r v +:+ "' is not a valid " +:+ type_name k +:+ " value"))
  else Ok str.

(** [UnmarshalText] overwrites its value also when it fails. *)
Definition UnmarshalText {C} (k : kind) (r : registry C) (text : string) : Z * option error :=
  if bool_decide (text = EmptyString) then (default_value k, None)
  else match values r !! ToLower text with
       | Some v => (v, None)
       | None => (0, Some (ErrNew ("'" +:+ text +:+ "' is not a valid " +:+ type_name k +:+ " string")))
       end.

(** [NewCompressorDecompressor], [NewEncrypterDecrypter] and [NewHasher]. *)
Definition lookup_ctor {C} (k : kind) (r : registry C) (v : Z) : outcome C :=
  match ctors r !! v with
  | Some c => Ok c
  | None => Err (ErrNew ("'" +:+ String_ r v +:+ "' is not a valid/registered " +:+ type_name k +:+ " value"))
  end.

Definition compression := {| type_name := "CompressionType"; no_ctor := "no compressor-decompressor constructor given";
  no_name := "no string version defined for new compression type"; fold := true; default_value := 0 |}.
Definition encryption := {| type_name := "EncryptionType"; no_ctor := "no encrypter-decrypter constructor given";
  no_name := "no string version defined for new encryption type"; fold := true; default_value := 0 |}.
Definition hashing := {| type_name := "HashType"; no_ctor := "no hash constructor given";
  no_name := "no string version defined for new hash type"; fold := true; default_value := 0 |}.

(** Sequences of registrations, as the [init] functions make them. *)
Definition register_all {C} (k : kind) (l : list (Z * string * C)) : outcome (registry C) :=
  foldl (fun r x => let! r := r in register k x.1.1 x.1.2 (Some x.2) r) (Ok new) l.

(** *** Every registry is consistent *)

(** A type has a name exactly when it has a constructor; a name is not empty, leads to a
    type of that name, and in a folding registry is a text in lower case. *)
Record wf {C} (k : kind) (r : registry C) : Prop := {
  wf_dom v : is_Some (names r !! v) <-> is_Some (ctors r !! v);
  wf_lower s v : fold k = true -> values r !! s = Some v -> exists str, s = ToLower str;
  wf_back s v : values r !! s = Some v -> names r !! v = Some s;
  wf_known v s : names r !! v = Some s -> is_Some (values r !! s);
  wf_empty v : names r !! v <> Some EmptyString;
}.

Lemma wf_new {C} k : wf k (@new C).
Proof. split; cbn; try (intros; set_solver || done). intros v. rewrite !lookup_empty. split; by intros []. Qed.

Lemma wf_register {C} k v str (c : option C) r r' : wf k r -> register k v str c r = Ok r' -> wf k r'.
Proof.
  intros [Hd Hl Hb Hk He]. destruct c as [c|]; [|done]. cbn [register]. intros (s & Hs & [= <-])%obind_Ok_inv.
  assert (Hs' : s <> EmptyString /\ (fold k = true -> exists str, s = ToLower str)).
  { destruct (names r !! v) as [s0|] eqn:Hn.
    - injection Hs as ->. split; [intros ->; by apply (He v)|].
      intros Hf. destruct (Hk v s Hn) as [v' Hv']. by apply (Hl s v').
    - destruct (bool_decide_reflect (str = EmptyString)); [done|]. injection Hs as <-. destruct (fold k).
      + split; [by intros Hx%ToLower_empty|]. intros _. by exists str.
      + by split. }
  destruct Hs' as [Hne Hlow]. split; cbn [names values ctors].
  - intros v'. destruct (decide (v = v')) as [->|]; [rewrite !lookup_insert_eq; by split|]. by rewrite !lookup_insert_ne.
  - intros s' v' Hf [[<- <-]|[_ Hv]]%lookup_insert_Some; [auto|by eapply Hl].
  - intros s' v' [[<- <-]|[Hns Hv]]%lookup_insert_Some; [apply lookup_insert_eq|].
    apply Hb in Hv. rewrite lookup_insert_ne; [done|]. intros <-. rewrite Hv in Hs. by injection Hs.
  - intros v' s' [[<- <-]|[_ Hv]]%lookup_insert_Some; apply lookup_insert_is_Some'; [by left|right; by eapply Hk].
  - intros v' [[_ Hx]|[_ Hv]]%lookup_insert_Some; [done|by apply (He v')].
Qed.

Lemma wf_register_all {C} k (l : list (Z * string * C)) r : register_all k l = Ok r -> wf k r.
Proof.
  unfold register_all. assert (Hgen : forall l (r0 : outcome (registry C)), (forall x, r0 = Ok x -> wf k x) ->
    forall r, foldl (fun r x => let! r := r in register k x.1.1 x.1.2 (Some x.2) r) r0 l = Ok r -> wf k r).
  { clear. induction l as [|x l IH]; intros r0 Hr0 r; cbn [foldl]; [apply Hr0|]. apply IH.
    intros y (z & -> & Hy)%obind_Ok_inv. eapply wf_register; [|exact Hy]. by apply Hr0. }
  apply Hgen. intros x [= <-]. apply wf_new.
Qed.

(** Names that are registered as texts of ASCII stay such texts. *)
Definition ascii_names {C} (l : list (Z * string * C)) : Prop := Forall (fun x => is_ascii x.1.2 = true) l.

Lemma register_ascii {C} k v str (c : option C) r r' :
  register k v str c r = Ok r' -> is_ascii str = true -> (forall w s, names r !! w = Some s -> is_ascii s = true) ->
  forall w s, names r' !! w = Some s -> is_ascii s = true.
Proof.
  intros Hr Hstr Hold w s. destruct c as [c|]; [|done]. cbn [register] in Hr. apply obind_Ok_inv in Hr as (t & Ht & [= <-]). cbn [names].
  intros [[<- <-]|[_ Hx]]%lookup_insert_Some; [|by eapply Hold]. destruct (names r !! v) as [s0|] eqn:Hn; [injection Ht as <-; by eapply Hold|].
  case_bool_decide; [done|]. injection Ht as <-. destruct (fold k); [by apply is_ascii_lower|done].
Qed.

Lemma register_all_ascii {C} k (l : list (Z * string * C)) r :
  register_all k l = Ok r -> ascii_names l -> forall v s, names r !! v = Some s -> is_ascii s = true.
Proof.
  unfold register_all. assert (Hgen : forall l (r0 : outcome (registry C)), ascii_names l ->
    (forall x, r0 = Ok x -> forall v s, names x !! v = Some s -> is_ascii s = true) ->
    forall r, foldl (fun r x => let! r := r in register k x.1.1 x.1.2 (Some x.2) r) r0 l = Ok r ->
      forall v s, names r !! v = Some s -> is_ascii s = true).
  { clear. induction l as [|x l IH]; intros r0 Hl Hr0 r; cbn [foldl]; [apply Hr0|]. apply Forall_cons in Hl as [Hx Hl]. apply IH; [done|].
    intros y (z & -> & Hy)%obind_Ok_inv. eapply register_ascii; [exact Hy|done|by apply Hr0]. }
  intros Hr Hl. eapply Hgen; [exact Hl| |exact Hr]. intros x [= <-] v s Hv. cbn in Hv. by rewrite lookup_empty in Hv.
Qed.

(** A name in lower case is a text in lower case. *)
Lemma name_is_lower {C} k (l : list (Z * string * C)) r v s :
  fold k = true -> register_all k l = Ok r -> ascii_names l -> names r !! v = Some s -> ToLower s = s.
Proof.
  intros Hf Hr Hl. revert v s. unfold register_all in Hr.
  assert (Hgen : forall l (r0 : outcome (registry C)), ascii_names l -> (forall x, r0 = Ok x -> forall v s, names x !! v = Some s -> ToLower s = s) ->
    forall r, foldl (fun r x => let! r := r in register k x.1.1 x.1.2 (Some x.2) r) r0 l = Ok r ->
      forall v s, names r !! v = Some s -> ToLower s = s).
  { clear -Hf. induction l as [|x l IH]; intros r0 Hl Hr0 r; cbn [foldl]; [apply Hr0|]. apply Forall_cons in Hl as [Hx Hl]. apply IH; [done|].
    intros y (z & -> & Hy)%obind_Ok_inv v s. cbn [register] in Hy. apply obind_Ok_inv in Hy as (t & Ht & [= <-]). cbn [names].
    intros [[<- <-]|[_ Hv]]%lookup_insert_Some; [|by eapply Hr0]. destruct (names z !! x.1.1) as [s0|] eqn:Hn; [injection Ht as <-; by eapply Hr0|].
    case_bool_decide; [done|]. rewrite Hf in Ht. injection Ht as <-. by apply ToLower_idemp. }
  eapply Hgen; [exact Hl| |exact Hr]. intros x [= <-] v s Hv. cbn in Hv. by rewrite lookup_empty in Hv.
Qed.


Definition demo_types : list (Z * string * nat) :=
  [(0, "Blake2b_256", 1%nat); (2, "SHA_256", 2%nat); (0, "ignored", 3%nat)]%string.

Definition demo_registry : registry nat := match register_all hashing demo_types with Ok r => r | _ => new end.

End Registry.

(** ** Metadata encodings ([encoding/encode.go]) *)
Module MarshalTypes.
Import Registry.

Definition MarshalTypeProtobuf : Z := 0.

(** New names are not put in lower case. *)
Definition marshalling := {| type_name := "MarshalType"; no_ctor := "no marshal function given";
  no_name := "no string version defined for new MarshalType"; fold := false; default_value := 0 |}.

(** A registered pair has both functions. *)
Definition RegisterMarshalFuncPair (mt : Z) (str : string)
    (Marshal : option (Metadata -> outcome bytes)) (Unmarshal : option (slice -> option Metadata -> outcome Metadata))
    (r : registry MarshalFuncPair) : outcome (registry MarshalFuncPair) :=
  match Marshal, Unmarshal with
  | None, _ => Panic "no marshal function given"
  | Some _, None => Panic "no unmarshal function given"
  | Some e, Some d => register marshalling mt str (Some {| Metastor.Marshal := e; Metastor.Unmarshal := d |}) r
  end.

Definition standard : outcome (registry MarshalFuncPair) :=
  RegisterMarshalFuncPair MarshalTypeProtobuf "protobuf" (Some MarshalMetadata) (Some UnmarshalMetadata) new.

Definition NewMarshalFuncPair (r : registry MarshalFuncPair) (mt : Z) : outcome MarshalFuncPair :=
  match ctors r !! mt with
  | Some p => Ok p
  | None => Err (ErrNew (pretty mt +:+ " is not a valid MarshalType value"))
  end.

Definition String_ (r : registry MarshalFuncPair) (mt : Z) : string := default EmptyString (names r !! mt).

Definition MarshalText (r : registry MarshalFuncPair) (mt : Z) : outcome string :=
  let str := String_ r mt in
  if bool_decide (str = EmptyString) then Err (ErrNew (pretty mt +:+ " is not a valid MarshalType value")) else Ok str.

(** [%q] of a printable text without quotes. *)
Definition quoted (s : string) : string := String (Ascii.ascii_of_nat 34) (s +:+ String (Ascii.ascii_of_nat 34) EmptyString).

Definition UnmarshalText (r : registry MarshalFuncPair) (text : string) : Z * option error :=
  match values r !! ToLower text with
  | Some v => (v, None)
  | None => (0, Some (ErrNew (quoted text +:+ " is not a valid MarshalType string")))
  end.

(** The standard encoding is found under its name in any case. *)
Lemma standard_protobuf : exists r, standard = Ok r /\ UnmarshalText r "ProtoBuf" = (0, None) /\
  NewMarshalFuncPair r 0 = Ok proto_pair /\ MarshalText r 0 = Ok "protobuf".
Proof. eexists. split; [reflexivity|]. split; [vm_compute; reflexivity|]. split; reflexivity. Qed.

(** A name is kept as it is given: no text of ASCII reads as a type whose name has a capital letter,
    although names are to be used in a case-insensitive manner. *)
Lemma unfolded_name_unreadable l r v s text :
  register_all marshalling l = Ok r -> names r !! v = Some s -> ToLower s <> s -> is_ascii text = true -> UnmarshalText r text <> (v, None).
Proof.
  intros Hr Hs Hl Ht. pose proof (wf_register_all marshalling l r Hr) as Hwf. unfold UnmarshalText.
  destruct (values r !! ToLower text) as [v'|] eqn:E; [|done]. intros [= ->]. apply (wf_back _ _ Hwf) in E. rewrite Hs in E. injection E as ->.
  by apply Hl, ToLower_idemp.
Qed.

Lemma capital_name_unreadable :
  match let! r := standard in RegisterMarshalFuncPair 1 "JSON" (Some MarshalMetadata) (Some UnmarshalMetadata) r with
  | Ok r => MarshalText r 1 = Ok "JSON"%string /\ (UnmarshalText r "JSON").2 <> None
  | _ => False
  end.
Proof. vm_compute. by split. Qed.
End MarshalTypes.

(** ** Compression modes ([compression_mode.go]) *)
Inductive CompressionMode :=
  CompressionModeDisabled | CompressionModeDefault | CompressionModeBestSpeed | CompressionModeBestCompression.

Module Mode.
Definition String_ (cm : CompressionMode) : string :=
  match cm with
  | CompressionModeDisabled => ""
  | CompressionModeDefault => "default"
  | CompressionModeBestSpeed => "best_speed"
  | CompressionModeBestCompression => "best_compression"
  end.

Definition MarshalText (cm : CompressionMode) : outcome string := Ok (String_ cm).

Definition UnmarshalText (text : string) : CompressionMode * option error :=
  let t := ToLower text in
  if bool_decide (t = "")%string then (CompressionModeDisabled, None)
  else if bool_decide (t = "default")%string then (CompressionModeDefault, None)
  else if bool_decide (t = "best_speed")%string then (CompressionModeBestSpeed, None)
  else if bool_decide (t = "best_compression")%string then (CompressionModeBestCompression, None)
  else (CompressionModeDisabled, Some (ErrNew ("'" +:+ text +:+ "' is not a valid CompressionMode string"))).

Lemma text_roundtrip cm text : ToLower text = String_ cm -> UnmarshalText text = (cm, None).
Proof. unfold UnmarshalText. intros ->. by destruct cm. Qed.
End Mode.

(** ** Processors *)

(** [Processor] with the two methods that tell whether its output is only valid
    until the next call. *)
Record SharedProcessor := {
  proc :> Processor;
  SharedWriteBuffer : bool;
  SharedReadBuffer : bool;
}.

Definition Nop : SharedProcessor := {| proc := NopProcessor; SharedWriteBuffer := false; SharedReadBuffer := false |}.

(** What was written can be read. *)
Definition inverts (p : Processor) : Prop := forall d x, WriteProcess p d = Ok x -> ReadProcess p x = Ok d.

(** *** Chains ([processor.go]) *)
Module Chain.

Definition chain_write (processors : list SharedProcessor) (data : bytes) : outcome bytes :=
  foldl (fun r p => let! data := r in WriteProcess (proc p) data) (Ok data) processors.

(** From the last processor to the first. *)
Definition chain_read (processors : list SharedProcessor) (data : bytes) : outcome bytes :=
  foldr (fun p r => let! data := r in ReadProcess (proc p) data) (Ok data) processors.

Definition NewProcessorChain (processors : list SharedProcessor) : outcome SharedProcessor :=
  match processors with
  | [] | [_] => Panic "ProcessorChain requires at least two underlying processors"
  | first :: _ =>
      Ok {| proc := {| WriteProcess := chain_write processors; ReadProcess := chain_read processors |};
            SharedWriteBuffer := SharedWriteBuffer (List.last processors first);
            SharedReadBuffer := SharedReadBuffer first |}
  end.

Lemma chain_write_app ps p data :
  chain_write (ps ++ [p]) data = let! x := chain_write ps data in WriteProcess (proc p) x.
Proof. unfold chain_write. by rewrite foldl_app. Qed.

Lemma chain_read_app ps p data :
  chain_read (ps ++ [p]) data = let! x := ReadProcess (proc p) data in chain_read ps x.
Proof.
  unfold chain_read. rewrite foldr_app. cbn [foldr obind]. destruct (ReadProcess p data) as [x|e|m]; [done|..];
    induction ps as [|q ps IH]; cbn; rewrite ?IH; done.
Qed.

Lemma chain_inverts_list ps : Forall (fun p : SharedProcessor => inverts (proc p)) ps ->
  forall d x, chain_write ps d = Ok x -> chain_read ps x = Ok d.
Proof.
  induction ps as [|p ps IH] using rev_ind; intros Hall d x; [by intros [= <-]|].
  apply Forall_app in Hall as [Hps Hp]. apply Forall_cons in Hp as [Hp _].
  rewrite chain_write_app, chain_read_app. intros (y & Hy & Hx)%obind_Ok_inv. rewrite (Hp _ _ Hx). cbn. by apply IH.
Qed.

Lemma chain_inverts ps c : Forall (fun p : SharedProcessor => inverts (proc p)) ps -> NewProcessorChain ps = Ok c -> inverts (proc c).
Proof. intros Hps Hc. destruct ps as [|p [|q ps]]; [done..|]. injection Hc as <-. intros d x. by apply chain_inverts_list. Qed.

(** A chain that ends in a processor which passes its input on says that its
    output is not shared, although it lies in the buffer of the one before. *)
Lemma chain_shares_silently p : SharedWriteBuffer p = true ->
  exists c, NewProcessorChain [p; Nop] = Ok c /\ SharedWriteBuffer c = false /\
    forall d, WriteProcess (proc c) d = WriteProcess (proc p) d.
Proof.
  intros _. eexists. split; [reflexivity|]. split; [done|]. intros d. cbn. by destruct (WriteProcess p d).
Qed.
End Chain.

(** *** Encryption ([crypto.go]) *)

(** [cipher.AEAD] with the nonce and tag sizes of GCM. *)
Class AEAD := {
  Seal : bytes -> bytes -> bytes -> bytes;
  Open_ : bytes -> bytes -> bytes -> outcome bytes;
  open_seal key nonce plain : length nonce = 12%nat -> Open_ key nonce (Seal key nonce plain) = Ok plain;
  seal_length key nonce plain : length (Seal key nonce plain) = (length plain + 16)%nat;
}.

Section AES.
Context `{AEAD}.
(** What [io.ReadFull] takes from the random source while [plain] is encrypted. *)
Context (random : bytes -> outcome bytes).

Definition nonceSize : nat := 12.

Definition aes_write (key plain : bytes) : outcome bytes :=
  let! nonce := random plain in
  Ok (nonce ++ Seal key nonce plain).

Definition aes_read (key cipher : bytes) : outcome bytes :=
  if (length cipher <=? nonceSize)%nat then Err (ErrNew "malformed ciphertext")
  else Open_ key (take nonceSize cipher) (drop nonceSize cipher).

Definition NewAESEncrypterDecrypter (privateKey : bytes) : outcome SharedProcessor :=
  if bool_decide (length privateKey ∈ [16; 24; 32]%nat)
  then Ok {| proc := {| WriteProcess := aes_write privateKey; ReadProcess := aes_read privateKey |};
             SharedWriteBuffer := true; SharedReadBuffer := true |}
  else Err (ErrNew ("crypto/aes: invalid key size " +:+ pretty (length privateKey))).

Context (Hrandom : forall d n, random d = Ok n -> length n = nonceSize).

Lemma aes_inverts key p : NewAESEncrypterDecrypter key = Ok p -> inverts (proc p).
Proof using Hrandom.
  unfold NewAESEncrypterDecrypter. destruct (bool_decide _); [|done]. intros [= <-] d x. cbn.
  unfold aes_write, aes_read. intros (n & Hn & [= <-])%obind_Ok_inv. pose proof (Hrandom _ _ Hn) as Hl.
  rewrite length_app, seal_length, Hl. destruct (Nat.leb_spec (nonceSize + (length d + 16)) nonceSize); [lia|].
  rewrite take_app_exact, drop_app_exact by done. by apply open_seal.
Qed.
End AES.

(** *** Compression ([compress.go]) *)

(** The libraries: the two directions of each, and that they are inverse. *)
Class Compressors := {
  snappy_write : bytes -> outcome bytes; snappy_read : bytes -> outcome bytes;
  lz4_write : bytes -> outcome bytes; lz4_read : bytes -> outcome bytes;
  gzip_write : Z -> bytes -> outcome bytes; gzip_read : bytes -> outcome bytes;
  snappy_law d x : snappy_write d = Ok x -> snappy_read x = Ok d;
  lz4_law d x : lz4_write d = Ok x -> lz4_read x = Ok d;
  gzip_law level d x : gzip_write level d = Ok x -> gzip_read x = Ok d;
}.

Section Compress.
Context `{Compressors}.

Definition NewSnappyCompressorDecompressor (cm : CompressionMode) : outcome SharedProcessor :=
  Ok {| proc := {| WriteProcess := snappy_write; ReadProcess := snappy_read |};
        SharedWriteBuffer := true; SharedReadBuffer := true |}.

Definition NewLZ4CompressorDecompressor (cm : CompressionMode) : outcome SharedProcessor :=
  Ok {| proc := {| WriteProcess := lz4_write; ReadProcess := lz4_read |};
        SharedWriteBuffer := true; SharedReadBuffer := true |}.

(** [gzip.BestSpeed], [gzip.BestCompression] and [gzip.DefaultCompression]; the
    last one also for a mode that is not in the map. *)
Definition gzip_level (cm : CompressionMode) : Z :=
  match cm with
  | CompressionModeBestSpeed => 1
  | CompressionModeBestCompression => 9
  | CompressionModeDefault | CompressionModeDisabled => -1
  end.

Definition NewGZipCompressorDecompressor (cm : CompressionMode) : outcome SharedProcessor :=
  Ok {| proc := {| WriteProcess := gzip_write (gzip_level cm); ReadProcess := gzip_read |};
        SharedWriteBuffer := true; SharedReadBuffer := true |}.

Definition CompressionTypeSnappy : Z := 0.
Definition CompressionTypeLZ4 : Z := 1.
Definition CompressionTypeGZip : Z := 2.

(** The registrations of [init]. *)
Definition compressors : list (Z * string * (CompressionMode -> outcome SharedProcessor)) :=
  [(CompressionTypeSnappy, "Snappy"%string, NewSnappyCompressorDecompressor);
   (CompressionTypeLZ4, "LZ4"%string, NewLZ4CompressorDecompressor);
   (CompressionTypeGZip, "GZip"%string, NewGZipCompressorDecompressor)].

Lemma compressors_invert t name ctor cm p :
  (t, name, ctor) ∈ compressors -> ctor cm = Ok p -> inverts (proc p).
Proof using.
  unfold compressors. rewrite !elem_of_cons, elem_of_nil. intros [E|[E|[E|[]]]]; injection E as _ _ ->; intros [= <-] d x; cbn.
  - apply snappy_law.
  - apply lz4_law.
  - apply gzip_law.
Qed.
End Compress.

(** ** Hashing ([pipeline/crypto]) *)

(** The hash functions, without and with a key. *)
Class Hashes := {
  sha256 : bytes -> bytes; sha512 : bytes -> bytes;
  hmac_sha256 : bytes -> bytes -> bytes; hmac_sha512 : bytes -> bytes -> bytes;
  blake2b_256 : bytes -> bytes -> bytes; blake2b_512 : bytes -> bytes -> bytes;
}.

Section Hash.
Context `{Hashes}.

(** The key tells the two uses apart by its nil-ness. *)
Definition NewSHA256Hasher (key : slice) : outcome (bytes -> bytes) :=
  Ok (match key with None => sha256 | Some k => hmac_sha256 k end).
Definition NewSHA512Hasher (key : slice) : outcome (bytes -> bytes) :=
  Ok (match key with None => sha512 | Some k => hmac_sha512 k end).

(** [blake2b.New256] and [New512] refuse keys of more than 64 bytes and do not
    tell a nil key from an empty one. *)
Definition blake2b_new (f : bytes -> bytes -> bytes) (key : slice) : outcome (bytes -> bytes) :=
  if (64 <? slice_len key)%nat then Err (ErrVar "blake2b" "errKeySize" "blake2b: invalid key size")
  else Ok (f (slice_bytes key)).

Definition NewBlake2b256Hasher : slice -> outcome (bytes -> bytes) := blake2b_new blake2b_256.
Definition NewBlake2b512Hasher : slice -> outcome (bytes -> bytes) := blake2b_new blake2b_512.

Definition NewDefaultHasher256 : slice -> outcome (bytes -> bytes) := NewBlake2b256Hasher.
Definition NewDefaultHasher512 : slice -> outcome (bytes -> bytes) := NewBlake2b512Hasher.

Definition HashTypeBlake2b256 : Z := 0.
Definition HashTypeBlake2b512 : Z := 1.
Definition HashTypeSHA256 : Z := 2.
Definition HashTypeSHA512 : Z := 3.

Definition hashers : list (Z * string * (slice -> outcome (bytes -> bytes))) :=
  [(HashTypeBlake2b256, "blake2b_256"%string, NewBlake2b256Hasher);
   (HashTypeBlake2b512, "blake2b_512"%string, NewBlake2b512Hasher);
   (HashTypeSHA256, "sha_256"%string, NewSHA256Hasher);
   (HashTypeSHA512, "sha_512"%string, NewSHA512Hasher)].
End Hash.
