(* ===== verification/Blake2b.v ===== *)
(** * The default hash function ([vendor/golang.org/x/crypto/blake2b], [pipeline/crypto/blake2b.go])

    BLAKE2b as the vendored package computes it: the compression function on
    sixteen words with its unrolled rounds, the loop over blocks with a counter of
    two words, the digest that takes its input in pieces of any length and keeps
    the last block back, keys, and the function for input that is there at once.
    The reference is the function of RFC 7693, written as the RFC has it.  On
    processors with vector instructions the package uses assembly for the loop
    over blocks, which is not modelled. *)

From S2P Require Import Prelude Processing.
Open Scope nat_scope.

Module Blake2b.

(** ** Constants *)
Definition BlockSize : nat := 128.
Definition Size : nat := 64.
Definition Size256 : nat := 32.
Definition errKeySize := ErrVar "blake2b" "errKeySize" "blake2b: invalid key size".

(** Arrays of eight and of sixteen words. *)
Inductive words8 := H8 (h0 h1 h2 h3 h4 h5 h6 h7 : Z).
Inductive words16 := V16 (v0 v1 v2 v3 v4 v5 v6 v7 v8 v9 v10 v11 v12 v13 v14 v15 : Z).

Definition iv : words8 :=
  H8 0x6a09e667f3bcc908 0xbb67ae8584caa73b 0x3c6ef372fe94f82b 0xa54ff53a5f1d36f1
     0x510e527fade682d1 0x9b05688c2b3e6c1f 0x1f83d9abfb41bd6b 0x5be0cd19137e2179.

(** The order in which the words of a block are used, one row for each round. *)
Definition precomputed : list (list nat) :=
  [[0; 2; 4; 6; 1; 3; 5; 7; 8; 10; 12; 14; 9; 11; 13; 15];
   [14; 4; 9; 13; 10; 8; 15; 6; 1; 0; 11; 5; 12; 2; 7; 3];
   [11; 12; 5; 15; 8; 0; 2; 13; 10; 3; 7; 9; 14; 6; 1; 4];
   [7; 3; 13; 11; 9; 1; 12; 14; 2; 5; 4; 15; 6; 10; 0; 8];
   [9; 5; 2; 10; 0; 7; 4; 15; 14; 11; 6; 3; 1; 12; 8; 13];
   [2; 6; 0; 8; 12; 10; 11; 3; 4; 7; 15; 1; 13; 5; 14; 9];
   [12; 1; 14; 4; 5; 15; 13; 10; 0; 6; 9; 8; 7; 3; 2; 11];
   [13; 7; 12; 3; 11; 14; 1; 9; 5; 15; 8; 2; 0; 4; 6; 10];
   [6; 14; 11; 0; 15; 9; 3; 8; 12; 13; 1; 10; 2; 7; 4; 5];
   [10; 8; 7; 1; 2; 4; 6; 5; 15; 9; 3; 13; 11; 14; 12; 0];
   [0; 2; 4; 6; 1; 3; 5; 7; 8; 10; 12; 14; 9; 11; 13; 15];
   [14; 4; 9; 13; 10; 8; 15; 6; 1; 0; 11; 5; 12; 2; 7; 3]].

(** ** The compression function *)

(** [v<<(64-n) | v>>n] *)
Definition rotate (n v : Z) : Z := Z.lor (u64 (Z.shiftl v (64 - n))) (Z.shiftr v n).

(** The seven statements that every word of a block goes through. *)
Definition mix (r1 r2 a b c d x : Z) : Z * Z * Z * Z :=
  let a := u64 (a + x) in
  let a := u64 (a + b) in
  let d := Z.lxor d a in
  let d := rotate r1 d in
  let c := u64 (c + d) in
  let b := Z.lxor b c in
  let b := rotate r2 b in
  (a, b, c, d).

Definition round (m : list Z) (v : words16) (s : list nat) : words16 :=
  let x i := nth (nth i s 0) m 0%Z in
  let '(V16 v0 v1 v2 v3 v4 v5 v6 v7 v8 v9 v10 v11 v12 v13 v14 v15) := v in
  let '(v0, v4, v8, v12) := mix 32 24 v0 v4 v8 v12 (x 0) in
  let '(v1, v5, v9, v13) := mix 32 24 v1 v5 v9 v13 (x 1) in
  let '(v2, v6, v10, v14) := mix 32 24 v2 v6 v10 v14 (x 2) in
  let '(v3, v7, v11, v15) := mix 32 24 v3 v7 v11 v15 (x 3) in
  let '(v0, v4, v8, v12) := mix 16 63 v0 v4 v8 v12 (x 4) in
  let '(v1, v5, v9, v13) := mix 16 63 v1 v5 v9 v13 (x 5) in
  let '(v2, v6, v10, v14) := mix 16 63 v2 v6 v10 v14 (x 6) in
  let '(v3, v7, v11, v15) := mix 16 63 v3 v7 v11 v15 (x 7) in
  let '(v0, v5, v10, v15) := mix 32 24 v0 v5 v10 v15 (x 8) in
  let '(v1, v6, v11, v12) := mix 32 24 v1 v6 v11 v12 (x 9) in
  let '(v2, v7, v8, v13) := mix 32 24 v2 v7 v8 v13 (x 10) in
  let '(v3, v4, v9, v14) := mix 32 24 v3 v4 v9 v14 (x 11) in
  let '(v0, v5, v10, v15) := mix 16 63 v0 v5 v10 v15 (x 12) in
  let '(v1, v6, v11, v12) := mix 16 63 v1 v6 v11 v12 (x 13) in
  let '(v2, v7, v8, v13) := mix 16 63 v2 v7 v8 v13 (x 14) in
  let '(v3, v4, v9, v14) := mix 16 63 v3 v4 v9 v14 (x 15) in
  V16 v0 v1 v2 v3 v4 v5 v6 v7 v8 v9 v10 v11 v12 v13 v14 v15.

(** [LittleEndian.Uint64] of the sixteen words of a block. *)
Fixpoint block_words (n : nat) (block : bytes) : list Z :=
  match n with O => [] | S n => le_get (take 8 block) :: block_words n (drop 8 block) end.

(** One turn of the loop of [hashBlocksGeneric]. *)
Definition hashBlock (h : words8) (c : Z * Z) (flag : Z) (block : bytes) : words8 * (Z * Z) :=
  let c0 := u64 (c.1 + Z.of_nat BlockSize) in
  let c1 := if (c0 <? Z.of_nat BlockSize)%Z then u64 (c.2 + 1) else c.2 in
  let '(H8 h0 h1 h2 h3 h4 h5 h6 h7) := h in
  let '(H8 i0 i1 i2 i3 i4 i5 i6 i7) := iv in
  let v := V16 h0 h1 h2 h3 h4 h5 h6 h7 i0 i1 i2 i3 (Z.lxor i4 c0) (Z.lxor i5 c1) (Z.lxor i6 flag) i7 in
  let '(V16 v0 v1 v2 v3 v4 v5 v6 v7 v8 v9 v10 v11 v12 v13 v14 v15) := foldl (round (block_words 16 block)) v precomputed in
  (H8 (Z.lxor h0 (Z.lxor v0 v8)) (Z.lxor h1 (Z.lxor v1 v9)) (Z.lxor h2 (Z.lxor v2 v10)) (Z.lxor h3 (Z.lxor v3 v11))
      (Z.lxor h4 (Z.lxor v4 v12)) (Z.lxor h5 (Z.lxor v5 v13)) (Z.lxor h6 (Z.lxor v6 v14)) (Z.lxor h7 (Z.lxor v7 v15)), (c0, c1)).

(** The loop; a last block that is not whole is read past its end. *)
Fixpoint hashBlocks_loop (fuel : nat) (h : words8) (c : Z * Z) (flag : Z) (blocks : bytes) : outcome (words8 * (Z * Z)) :=
  match fuel, blocks with
  | _, [] => Ok (h, c)
  | O, _ => Ok (h, c)
  | S fuel, _ =>
      if (length blocks <? BlockSize) then Panic "index out of range"
      else let '(h, c) := hashBlock h c flag (take BlockSize blocks) in hashBlocks_loop fuel h c flag (drop BlockSize blocks)
  end.

Definition hashBlocks (h : words8) (c : Z * Z) (flag : Z) (blocks : bytes) : outcome (words8 * (Z * Z)) :=
  hashBlocks_loop (length blocks) h c flag blocks.

(** ** The digest *)
Record digest := {
  d_h : words8; d_c : Z * Z; d_size : nat; d_block : bytes; d_offset : nat; d_key : bytes; d_keyLen : nat;
}.

(** [copy(dst[at:], src)] of arrays; the number of bytes is that of the shorter one. *)
Definition copy_at (dst : bytes) (at_ : nat) (src : bytes) : bytes :=
  take at_ dst ++ take (length dst - at_) src ++ drop (at_ + length src) dst.

Definition empty_block : bytes := replicate BlockSize Byte.x00.

Definition keyed_iv (size keyLen : nat) : words8 :=
  let '(H8 h0 h1 h2 h3 h4 h5 h6 h7) := iv in
  H8 (Z.lxor h0 (Z.lor (Z.lor (Z.lor (Z.of_nat size) (u64 (Z.shiftl (Z.of_nat keyLen) 8))) (Z.shiftl 1 16)) (Z.shiftl 1 24)))
     h1 h2 h3 h4 h5 h6 h7.

Definition Reset (d : digest) : digest :=
  {| d_h := keyed_iv (d_size d) (d_keyLen d); d_c := (0, 0)%Z; d_size := d_size d;
     d_block := if (0 <? d_keyLen d) then d_key d else d_block d;
     d_offset := if (0 <? d_keyLen d) then BlockSize else 0; d_key := d_key d; d_keyLen := d_keyLen d |}.

Definition newDigest (hashSize : nat) (key : bytes) : outcome digest :=
  if (Size <? length key) then Err errKeySize
  else Ok (Reset {| d_h := H8 0 0 0 0 0 0 0 0; d_c := (0, 0)%Z; d_size := hashSize; d_block := empty_block; d_offset := 0;
                    d_key := copy_at empty_block 0 key; d_keyLen := length key |}).

(** [length &^ (BlockSize - 1)], less a block when nothing would be left. *)
Definition whole_blocks (length : nat) : nat :=
  let n := length / BlockSize * BlockSize in if (length =? n) then n - BlockSize else n.

(** The second and third part of [Write], with an empty block. *)
Definition write_rest (d : digest) (h : words8) (c : Z * Z) (offset : nat) (block p : bytes) : outcome digest :=
  let! (h, c, p) := if (BlockSize <? length p)
                    then let nn := whole_blocks (length p) in
                         let! (h, c) := hashBlocks h c 0 (take nn p) in Ok (h, c, drop nn p)
                    else Ok (h, c, p) in
  Ok {| d_h := h; d_c := c; d_size := d_size d;
        d_block := if (0 <? length p) then copy_at block 0 p else block;
        d_offset := if (0 <? length p) then offset + Nat.min BlockSize (length p) else offset;
        d_key := d_key d; d_keyLen := d_keyLen d |}.

Definition Write (d : digest) (p : bytes) : outcome digest :=
  if (0 <? d_offset d) then
    let remaining := BlockSize - d_offset d in
    if (length p <=? remaining) then
      Ok {| d_h := d_h d; d_c := d_c d; d_size := d_size d; d_block := copy_at (d_block d) (d_offset d) p;
            d_offset := d_offset d + Nat.min remaining (length p); d_key := d_key d; d_keyLen := d_keyLen d |}
    else
      let block := copy_at (d_block d) (d_offset d) (take remaining p) in
      let! (h, c) := hashBlocks (d_h d) (d_c d) 0 block in
      write_rest d h c 0 block (drop remaining p)
  else write_rest d (d_h d) (d_c d) (d_offset d) (d_block d) p.

Definition words (h : words8) : bytes :=
  let '(H8 h0 h1 h2 h3 h4 h5 h6 h7) := h in concat (le_put 8 <$> [h0; h1; h2; h3; h4; h5; h6; h7]).

(** The last block, with what is not used of it taken off the counter. *)
Definition last_block (h : words8) (c : Z * Z) (offset : nat) (block : bytes) : outcome words8 :=
  let remaining := Z.of_nat (BlockSize - offset) in
  let c1 := if (c.1 <? remaining)%Z then u64 (c.2 - 1) else c.2 in
  let c0 := u64 (c.1 - remaining) in
  let! (h, _) := hashBlocks h (c0, c1) (2 ^ 64 - 1) block in Ok h.

Definition finalize (d : digest) : outcome bytes :=
  let! h := last_block (d_h d) (d_c d) (d_offset d) (copy_at empty_block 0 (take (d_offset d) (d_block d))) in
  Ok (words h).

Definition Sum (d : digest) : outcome bytes := let! hash := finalize d in Ok (take (d_size d) hash).

Definition checkSum (hashSize : nat) (data : bytes) : outcome bytes :=
  let h := keyed_iv hashSize 0 in
  let! (h, c, data) := if (BlockSize <? length data)
                       then let n := whole_blocks (length data) in
                            let! (h, c) := hashBlocks h (0, 0)%Z 0 (take n data) in Ok (h, c, drop n data)
                       else Ok (h, (0, 0)%Z, data) in
  let block := copy_at empty_block 0 data in
  let! h := last_block h c (Nat.min BlockSize (length data)) block in
  Ok (copy_at (replicate Size Byte.x00) 0 (take ((hashSize + 7) / 8 * 8) (words h))).

Definition Sum512 (data : bytes) : outcome bytes := checkSum Size data.
Definition Sum256 (data : bytes) : outcome bytes := let! sum := checkSum Size256 data in Ok (take Size256 sum).

(** ** RFC 7693 *)

(** [SIGMA] of section 2.7 *)
Definition SIGMA : list (list nat) :=
  [[0; 1; 2; 3; 4; 5; 6; 7; 8; 9; 10; 11; 12; 13; 14; 15];
   [14; 10; 4; 8; 9; 15; 13; 6; 1; 12; 0; 2; 11; 7; 5; 3];
   [11; 8; 12; 0; 5; 2; 15; 13; 10; 14; 3; 6; 7; 1; 9; 4];
   [7; 9; 3; 1; 13; 12; 11; 14; 2; 6; 5; 10; 4; 0; 15; 8];
   [9; 0; 5; 7; 2; 4; 10; 15; 14; 1; 11; 12; 6; 8; 3; 13];
   [2; 12; 6; 10; 0; 11; 8; 3; 4; 13; 7; 5; 15; 14; 1; 9];
   [12; 5; 1; 15; 14; 13; 4; 10; 0; 7; 6; 3; 9; 2; 8; 11];
   [13; 11; 7; 14; 12; 1; 3; 9; 5; 0; 15; 4; 8; 6; 2; 10];
   [6; 15; 14; 9; 11; 3; 0; 8; 12; 2; 13; 7; 1; 4; 10; 5];
   [10; 2; 8; 4; 7; 6; 1; 5; 15; 11; 9; 14; 3; 12; 13; 0]].

Definition at_ (v : list Z) (i : nat) : Z := nth i v 0%Z.

(** Section 3.1, the mixing function [G] with the rotations of BLAKE2b *)
Definition G (v : list Z) (a b c d : nat) (x y : Z) : list Z :=
  let v := <[a := u64 (at_ v a + at_ v b + x)]> v in
  let v := <[d := rotate 32 (Z.lxor (at_ v d) (at_ v a))]> v in
  let v := <[c := u64 (at_ v c + at_ v d)]> v in
  let v := <[b := rotate 24 (Z.lxor (at_ v b) (at_ v c))]> v in
  let v := <[a := u64 (at_ v a + at_ v b + y)]> v in
  let v := <[d := rotate 16 (Z.lxor (at_ v d) (at_ v a))]> v in
  let v := <[c := u64 (at_ v c + at_ v d)]> v in
  <[b := rotate 63 (Z.lxor (at_ v b) (at_ v c))]> v.

Definition rfc_round (m : list Z) (v : list Z) (s : list nat) : list Z :=
  let x i := at_ m (nth i s 0) in
  let v := G v 0 4 8 12 (x 0) (x 1) in
  let v := G v 1 5 9 13 (x 2) (x 3) in
  let v := G v 2 6 10 14 (x 4) (x 5) in
  let v := G v 3 7 11 15 (x 6) (x 7) in
  let v := G v 0 5 10 15 (x 8) (x 9) in
  let v := G v 1 6 11 12 (x 10) (x 11) in
  let v := G v 2 7 8 13 (x 12) (x 13) in
  G v 3 4 9 14 (x 14) (x 15).

Definition IV : list Z := let '(H8 a b c d e f g h) := iv in [a; b; c; d; e; f; g; h].

(** Section 3.2, the compression function [F]: the offset counter [t] has two words *)
Definition F (h : list Z) (m : list Z) (t : Z) (last : bool) : list Z :=
  let v := h ++ IV in
  let v := <[12 := Z.lxor (at_ v 12) (u64 t)]> v in
  let v := <[13 := Z.lxor (at_ v 13) (u64 (t / 2 ^ 64))]> v in
  let v := if last then <[14 := Z.lxor (at_ v 14) (2 ^ 64 - 1)]> v else v in
  let v := foldl (rfc_round m) v ((fun i => nth (i mod 10) SIGMA []) <$> seq 0 12) in
  (fun i => Z.lxor (at_ h i) (Z.lxor (at_ v i) (at_ v (i + 8)))) <$> seq 0 8.

(** The blocks [0], ..., [n - 1] of an input, none of which is the last. *)
Definition rfc_blocks (n : nat) (h : list Z) (d : bytes) : list Z :=
  foldl (fun h i => F h (block_words 16 (take BlockSize (drop (BlockSize * i) d))) (Z.of_nat (BlockSize * S i)) false) h (seq 0 n).

(** Section 3.3: a key is a block before the data, the last block is padded with
    zeros, and there is at least one. *)
Definition blake2b (nn : nat) (key data : bytes) : bytes :=
  let d := (if (0 <? length key) then key ++ replicate (BlockSize - length key) Byte.x00 else []) ++ data in
  let n := (length d - 1) / BlockSize in
  let h := <[0 := Z.lxor (at_ IV 0) (Z.lxor (Z.lxor 0x01010000 (Z.shiftl (Z.of_nat (length key)) 8)) (Z.of_nat nn))]> IV in
  let h := rfc_blocks n h d in
  let last := drop (BlockSize * n) d in
  let h := F h (block_words 16 (last ++ replicate (BlockSize - length last) Byte.x00)) (Z.of_nat (length d)) true in
  take nn (concat (le_put 8 <$> h)).

(** ** The compression function is that of the RFC *)
Definition list8 (h : words8) : list Z := let '(H8 a b c d e f g h) := h in [a; b; c; d; e; f; g; h].
Definition list16 (v : words16) : list Z :=
  let '(V16 v0 v1 v2 v3 v4 v5 v6 v7 v8 v9 v10 v11 v12 v13 v14 v15) := v in
  [v0; v1; v2; v3; v4; v5; v6; v7; v8; v9; v10; v11; v12; v13; v14; v15].

(** The package keeps the words of a row in the order in which it uses them. *)
Definition regroup (s : list nat) : list nat :=
  (fun i => nth i s 0) <$> [0; 2; 4; 6; 1; 3; 5; 7; 8; 10; 12; 14; 9; 11; 13; 15].

Lemma precomputed_sigma : precomputed = (fun i => regroup (nth (i mod 10) SIGMA [])) <$> seq 0 12.
Proof. vm_compute. reflexivity. Qed.

(** The package adds the word of the block first. *)
Lemma u64_add3 a x b : u64 (u64 (a + x) + b) = u64 (a + b + x).
Proof. unfold u64. rewrite Zplus_mod_idemp_l. f_equal. lia. Qed.

Lemma at_insert_eq v i z : i < length v -> at_ (<[i := z]> v) i = z.
Proof. intros Hi. unfold at_. apply nth_lookup_Some. by apply list_lookup_insert_eq. Qed.

Lemma at_insert_ne v i j z : i <> j -> at_ (<[i := z]> v) j = at_ v j.
Proof. intros Hi. unfold at_. rewrite !nth_lookup. by rewrite list_lookup_insert_ne. Qed.

(** [G] mixes four words, in two halves. *)
Lemma G_mix v a b c d x y :
  NoDup [a; b; c; d] -> Forall (fun i => i < length v) [a; b; c; d] ->
  G v a b c d x y =
    let '(p, q, r, t) := mix 32 24 (at_ v a) (at_ v b) (at_ v c) (at_ v d) x in
    let '(p, q, r, t) := mix 16 63 p q r t y in
    <[b := q]> (<[c := r]> (<[d := t]> (<[a := p]> v))).
Proof.
  intros Hnd Hlt. rewrite !Forall_cons in Hlt. destruct Hlt as (Ha & Hb & Hc & Hd & _).
  assert (a <> b /\ a <> c /\ a <> d /\ b <> c /\ b <> d /\ c <> d) as (? & ? & ? & ? & ? & ?).
  { rewrite !NoDup_cons, !elem_of_cons in Hnd. naive_solver. }
  unfold G, mix. cbv zeta. rewrite <- !u64_add3.
  repeat first [rewrite at_insert_eq by (rewrite ?length_insert; assumption) | rewrite at_insert_ne by congruence].
  apply list_eq. intros i.
  destruct (decide (i = b)) as [->|]; [|destruct (decide (i = c)) as [->|]; [|destruct (decide (i = d)) as [->|];
    [|destruct (decide (i = a)) as [->|]]]].
  all: repeat first [rewrite list_lookup_insert_eq by (rewrite ?length_insert; assumption) | rewrite list_lookup_insert_ne by congruence]; done.
Qed.

(** One application of [G], and the two halves of it in the round of the package. *)
Ltac rfc_step :=
  match goal with |- context [G (?x :: ?l) ?a ?b ?c ?d ?m1 ?m2] =>
    rewrite (G_mix (x :: l) a b c d m1 m2)
      by first [apply (bool_decide_unpack _); vm_compute; exact I | repeat constructor; cbn; lia] end;
  cbn [at_ nth];
  do 2 match goal with |- _ = ?rhs => match rhs with context [match mix ?r1 ?r2 ?a ?b ?c ?d ?m with _ => _ end] =>
    destruct (mix r1 r2 a b c d m) as [[[? ?] ?] ?] end end;
  cbn [insert list_insert].

Lemma round_rfc m v s : list16 (round m v (regroup s)) = rfc_round m (list16 v) s.
Proof.
  destruct v as [v0 v1 v2 v3 v4 v5 v6 v7 v8 v9 v10 v11 v12 v13 v14 v15].
  unfold rfc_round. unfold round. cbn [regroup nth fmap list_fmap list16]. unfold at_.
  do 8 rfc_step. reflexivity.
Qed.

Definition split64 (t : Z) : Z * Z := (u64 t, u64 (t / 2 ^ 64)).

(** A turn of the loop counts the block, in two words. *)
Lemma count_block t :
  let '(c0, c1) := split64 t in
  let c0' := u64 (c0 + Z.of_nat BlockSize) in
  (c0', if (c0' <? Z.of_nat BlockSize)%Z then u64 (c1 + 1) else c1) = split64 (t + Z.of_nat BlockSize).
Proof.
  unfold split64, u64, BlockSize. change (Z.of_nat 128) with 128%Z. cbv zeta.
  rewrite Zplus_mod_idemp_l. f_equal. rewrite Zplus_mod_idemp_l. 
  pose proof (Z.div_mod t (2 ^ 64) ltac:(lia)). pose proof (Z.mod_pos_bound t (2 ^ 64) ltac:(lia)).
  set (q := (t / 2 ^ 64)%Z) in *. set (r := (t mod 2 ^ 64)%Z) in *.
  destruct (Z.ltb_spec ((t + 128) mod 2 ^ 64) 128) as [Hc|Hc].
  - f_equal. apply Z.div_unique_pos with (r := (r + 128 - 2 ^ 64)%Z); [|lia].
    destruct (decide (r + 128 < 2 ^ 64)%Z); [|lia].
    rewrite <- (Z.mod_unique_pos (t + 128) (2 ^ 64) q (r + 128)) in Hc; lia.
  - f_equal. apply Z.div_unique_pos with (r := (r + 128)%Z); [|lia].
    destruct (decide (r + 128 < 2 ^ 64)%Z); [lia|].
    rewrite <- (Z.mod_unique_pos (t + 128) (2 ^ 64) (q + 1) (r + 128 - 2 ^ 64)) in Hc; lia.
Qed.

Lemma uncount_rest t remaining :
  (0 <= remaining <= Z.of_nat BlockSize)%Z ->
  let '(c0, c1) := split64 t in
  (u64 (c0 - remaining), if (c0 <? remaining)%Z then u64 (c1 - 1) else c1) = split64 (t - remaining).
Proof.
  unfold split64, u64, BlockSize. change (Z.of_nat 128) with 128%Z. intros Hr. cbv zeta.
  rewrite Zminus_mod_idemp_l. f_equal. rewrite Zminus_mod_idemp_l.
  pose proof (Z.div_mod t (2 ^ 64) ltac:(lia)). pose proof (Z.mod_pos_bound t (2 ^ 64) ltac:(lia)).
  set (q := (t / 2 ^ 64)%Z) in *. set (r := (t mod 2 ^ 64)%Z) in *.
  destruct (Z.ltb_spec r remaining) as [Hc|Hc]; f_equal.
  - apply Z.div_unique_pos with (r := (r - remaining + 2 ^ 64)%Z); lia.
  - apply Z.div_unique_pos with (r := (r - remaining)%Z); lia.
Qed.

Lemma rounds_rfc m v rows : list16 (foldl (round m) v (regroup <$> rows)) = foldl (rfc_round m) (list16 v) rows.
Proof. revert v; induction rows as [|s rows IH]; intros v; [done|]. cbn [fmap list_fmap foldl]. by rewrite IH, round_rfc. Qed.

(** One turn of the loop of [hashBlocksGeneric] is the compression function. *)
Lemma hashBlock_rfc h t (last : bool) block :
  exists h', hashBlock h (split64 t) (if last then 2 ^ 64 - 1 else 0)%Z block = (h', split64 (t + Z.of_nat BlockSize)) /\
    list8 h' = F (list8 h) (block_words 16 block) (t + Z.of_nat BlockSize) last.
Proof.
  unfold hashBlock. pose proof (count_block t) as Hc. destruct (split64 t) as [c0 c1]. cbv zeta in Hc |- *. cbn [fst snd].
  injection Hc as Hc0 Hc1. rewrite Hc0 in Hc1 |- *. rewrite Hc1.
  destruct h as [h0 h1 h2 h3 h4 h5 h6 h7]. cbn [iv].
  set (v := V16 _ _ _ _ _ _ _ _ _ _ _ _ _ _ _ _). unfold F.
  assert (Hv : list16 v = let v := list8 (H8 h0 h1 h2 h3 h4 h5 h6 h7) ++ IV in
    let v := <[12 := Z.lxor (at_ v 12) (u64 (t + Z.of_nat BlockSize))]> v in
    let v := <[13 := Z.lxor (at_ v 13) (u64 ((t + Z.of_nat BlockSize) / 2 ^ 64))]> v in
    if last then <[14 := Z.lxor (at_ v 14) (2 ^ 64 - 1)]> v else v).
  { unfold v. cbn [list16 list8 IV iv app at_ nth insert list_insert]. destruct last; [done|]. by rewrite Z.lxor_0_r. }
  cbv zeta in Hv |- *. rewrite <- Hv, <- rounds_rfc, <- list_fmap_compose.
  change (foldl (round (block_words 16 block)) v (compose regroup (fun i => nth (i mod 10) SIGMA []) <$> seq 0 12))
    with (foldl (round (block_words 16 block)) v ((fun i => regroup (nth (i mod 10) SIGMA [])) <$> seq 0 12)).
  rewrite <- precomputed_sigma. destruct (foldl (round (block_words 16 block)) v precomputed) as [v0 v1 v2 v3 v4 v5 v6 v7 v8 v9 v10 v11 v12 v13 v14 v15].
  eexists. split; [done|]. done.
Qed.

(** ** The loop over blocks *)
#[local] Opaque F.

Definition rfc_step_at (d : bytes) (h : list Z) (i : nat) : list Z :=
  F h (block_words 16 (take BlockSize (drop (BlockSize * i) d))) (Z.of_nat (BlockSize * S i)) false.

Lemma hashBlocks_from d n : forall k fuel h,
  BlockSize * (k + n) <= length d -> n <= fuel ->
  exists h', hashBlocks_loop fuel h (split64 (Z.of_nat (BlockSize * k))) 0 (take (BlockSize * n) (drop (BlockSize * k) d)) =
      Ok (h', split64 (Z.of_nat (BlockSize * (k + n)))) /\
    list8 h' = foldl (rfc_step_at d) (list8 h) (seq k n).
Proof.
  induction n as [|n IH]; intros k fuel h Hlen Hf.
  { exists h. rewrite Nat.mul_0_r, Nat.add_0_r. by destruct fuel. }
  destruct fuel as [|fuel]; [lia|].
  assert (Hl : length (take (BlockSize * S n) (drop (BlockSize * k) d)) = BlockSize * S n)
    by (rewrite length_take, length_drop; unfold BlockSize in *; lia).
  destruct (take (BlockSize * S n) (drop (BlockSize * k) d)) as [|b bs] eqn:E; [unfold BlockSize in Hl; cbn in Hl; lia|].
  cbn [hashBlocks_loop]. rewrite <- E. rewrite <- E in Hl. rewrite Hl.
  destruct (Nat.ltb_spec (BlockSize * S n) BlockSize) as [|_]; [unfold BlockSize in *; lia|].
  rewrite take_take, Nat.min_l by (unfold BlockSize; lia).
  destruct (hashBlock_rfc h (Z.of_nat (BlockSize * k)) false (take BlockSize (drop (BlockSize * k) d))) as (h1 & -> & Hh1).
  replace (Z.of_nat (BlockSize * k) + Z.of_nat BlockSize)%Z with (Z.of_nat (BlockSize * S k)) in * by (unfold BlockSize; lia).
  replace (BlockSize * S n) with (BlockSize + BlockSize * n) by (unfold BlockSize; lia).
  rewrite <- take_drop_commute, drop_drop.
  replace (BlockSize * k + BlockSize) with (BlockSize * S k) by (unfold BlockSize; lia).
  destruct (IH (S k) fuel h1) as (h' & -> & Hh'); [lia..|].
  exists h'. split; [by replace (S k + n) with (k + S n) by lia|]. rewrite Hh', Hh1. done.
Qed.

Lemma rfc_blocks_step n h d : rfc_blocks n h d = foldl (rfc_step_at d) h (seq 0 n).
Proof. done. Qed.

Lemma rfc_blocks_add n m h d : rfc_blocks (n + m) h d = foldl (rfc_step_at d) (rfc_blocks n h d) (seq n m).
Proof. rewrite !rfc_blocks_step, seq_app, foldl_app. done. Qed.

(** Whole blocks do not see what comes after them. *)
Lemma rfc_blocks_app n h x p : BlockSize * n <= length x -> rfc_blocks n h (x ++ p) = rfc_blocks n h x.
Proof.
  intros Hn. rewrite !rfc_blocks_step. induction n as [|n IH]; [cbn [seq foldl]; reflexivity|]. rewrite seq_S, !foldl_app, IH by (unfold BlockSize in *; lia).
  cbn [foldl]. unfold rfc_step_at. cbn [Nat.add]. rewrite drop_app_le by (unfold BlockSize in *; lia).
  rewrite take_app_le; [reflexivity|]. rewrite length_drop. unfold BlockSize in *. lia.
Qed.

(** ** The digest *)

(** The digest holds [x]: all its blocks but the last are hashed and counted,
    the last one, which is not empty unless [x] is, is kept back. *)
Definition last_index (x : bytes) : nat := (length x - 1) / BlockSize.

Record holds (size keyLen : nat) (h : words8) (c : Z * Z) (offset : nat) (block x : bytes) : Prop := {
  holds_h : list8 h = rfc_blocks (last_index x) (list8 (keyed_iv size keyLen)) x;
  holds_c : c = split64 (Z.of_nat (BlockSize * last_index x));
  holds_offset : offset = length x - BlockSize * last_index x;
  holds_block : take offset block = drop (BlockSize * last_index x) x;
  holds_length : length block = BlockSize;
}.

Lemma last_index_spec x : BlockSize * last_index x <= length x /\ length x <= BlockSize * S (last_index x) /\
  (x <> [] -> BlockSize * last_index x < length x).
Proof.
  unfold last_index. pose proof (Nat.div_mod_eq (length x - 1) BlockSize). pose proof (Nat.mod_upper_bound (length x - 1) BlockSize ltac:(done)).
  split_and!; [unfold BlockSize in *; lia..|]. intros Hx. destruct x; [done|]. cbn [length] in *. unfold BlockSize in *. lia.
Qed.

Lemma last_index_unique x n : BlockSize * n < length x -> length x <= BlockSize * S n -> last_index x = n.
Proof. intros H1 H2. unfold last_index. symmetry. apply (Nat.div_unique _ _ _ (length x - 1 - BlockSize * n)); unfold BlockSize in *; lia. Qed.

Lemma length_copy_at dst i src : i <= length dst -> length (copy_at dst i src) = length dst.
Proof. intros Hi. unfold copy_at. rewrite !length_app, !length_take, length_drop. lia. Qed.

Lemma take_copy_at dst i src : i + length src <= length dst -> take (i + length src) (copy_at dst i src) = take i dst ++ src.
Proof.
  intros Hi. unfold copy_at. rewrite (take_ge src) by lia. rewrite app_assoc. apply take_app_exact. rewrite length_app, length_take. lia.
Qed.

Lemma whole_blocks_last x : BlockSize < length x -> whole_blocks (length x) = BlockSize * last_index x.
Proof.
  intros Hx. unfold whole_blocks. pose proof (Nat.div_mod_eq (length x) BlockSize). pose proof (Nat.mod_upper_bound (length x) BlockSize ltac:(done)).
  destruct (Nat.eqb_spec (length x) (length x / BlockSize * BlockSize)) as [E|E].
  - rewrite (last_index_unique x (length x / BlockSize - 1)); unfold BlockSize in *; lia.
  - rewrite (last_index_unique x (length x / BlockSize)); unfold BlockSize in *; lia.
Qed.

(** What is hashed of the rest of an input [y], of which [k] blocks are. *)
Lemma rest_hashed y k h0 h p :
  p = drop (BlockSize * k) y -> BlockSize * k <= length y -> (k = 0 \/ p <> []) -> list8 h = rfc_blocks k h0 y ->
  exists h', (if (BlockSize <? length p)
     then let! (h, c) := hashBlocks h (split64 (Z.of_nat (BlockSize * k))) 0 (take (whole_blocks (length p)) p) in Ok (h, c, drop (whole_blocks (length p)) p)
     else Ok (h, split64 (Z.of_nat (BlockSize * k)), p)) =
      Ok (h', split64 (Z.of_nat (BlockSize * last_index y)), drop (BlockSize * last_index y) y) /\
    list8 h' = rfc_blocks (last_index y) h0 y.
Proof.
  intros -> Hk Hne Hh. set (p := drop (BlockSize * k) y) in *.
  assert (Hp : length p = length y - BlockSize * k) by (unfold p; by rewrite length_drop).
  assert (Hi : last_index y = k + last_index p).
  { destruct (decide (p = [])) as [E|E].
    - destruct Hne as [-> |]; [|done]. rewrite E in Hp. cbn in Hp. unfold last_index. rewrite E. cbn [length]. by replace (length y) with 0 by lia.
    - pose proof (last_index_spec p) as (? & ? & Hx). specialize (Hx E). apply last_index_unique; unfold BlockSize in *; lia. }
  destruct (Nat.ltb_spec BlockSize (length p)) as [Hl|Hl].
  - rewrite whole_blocks_last by done. pose proof (last_index_spec p) as (H1 & H2 & _).
    destruct (hashBlocks_from y (last_index p) k (length (take (BlockSize * last_index p) p)) h) as (h' & Hb & Hh').
    { unfold BlockSize in *. lia. } { rewrite length_take. unfold BlockSize in *. lia. }
    fold p in Hb. unfold hashBlocks. rewrite Hb. cbn [obind]. exists h'. split.
    + rewrite Hi. unfold p. rewrite drop_drop. do 3 f_equal; unfold BlockSize; lia.
    + by rewrite Hi, rfc_blocks_add, Hh', Hh.
  - assert (last_index p = 0) as E0 by (unfold last_index; apply Nat.div_small; unfold BlockSize in *; lia).
    rewrite Hi, E0, Nat.add_0_r. by exists h.
Qed.

(** A digest for a size and a key, and that it holds [x]. *)
Definition padded_key (key : bytes) : bytes := key ++ replicate (BlockSize - length key) Byte.x00.

Record made (size : nat) (key : bytes) (d : digest) : Prop := {
  made_size : d_size d = size; made_keyLen : d_keyLen d = length key; made_key : d_key d = padded_key key;
  made_short : length key <= Size; made_block : length (d_block d) = BlockSize;
}.

Definition digest_holds (d : digest) (x : bytes) : Prop :=
  holds (d_size d) (d_keyLen d) (d_h d) (d_c d) (d_offset d) (d_block d) x.

Lemma write_rest_holds size key d y k h block p :
  made size key d -> p = drop (BlockSize * k) y -> BlockSize * k <= length y -> (k = 0 \/ p <> []) ->
  list8 h = rfc_blocks k (list8 (keyed_iv (d_size d) (d_keyLen d))) y -> length block = BlockSize ->
  exists d', write_rest d h (split64 (Z.of_nat (BlockSize * k))) 0 block p = Ok d' /\ made size key d' /\ digest_holds d' y.
Proof.
  intros Hd Hp Hk Hne Hh Hb. unfold write_rest.
  destruct (rest_hashed y k _ h p Hp Hk Hne Hh) as (h' & Hr & Hh'). rewrite Hr. cbn [obind].
  pose proof (last_index_spec y) as (H1 & H2 & _). eexists. split; [reflexivity|].
  assert (Hl : length (drop (BlockSize * last_index y) y) = length y - BlockSize * last_index y) by apply length_drop.
  assert (Hcopy : length (copy_at block 0 (drop (BlockSize * last_index y) y)) = BlockSize) by (rewrite length_copy_at; [done|lia]).
  split; split; cbn [d_size d_keyLen d_key d_block d_offset d_h d_c]; try apply Hd; try done.
  - by destruct (0 <? _).
  - destruct (Nat.ltb_spec 0 (length (drop (BlockSize * last_index y) y))); rewrite ?Hl in *; unfold BlockSize in *; lia.
  - destruct (Nat.ltb_spec 0 (length (drop (BlockSize * last_index y) y))) as [Hx|Hx].
    + rewrite Nat.min_r by (unfold BlockSize in *; lia). rewrite take_copy_at by (unfold BlockSize in *; lia). by rewrite take_0.
    + destruct (drop (BlockSize * last_index y) y); [done|cbn in Hx; lia].
  - by destruct (0 <? _).
Qed.

Lemma Write_holds size key d x p :
  made size key d -> digest_holds d x -> exists d', Write d p = Ok d' /\ made size key d' /\ digest_holds d' (x ++ p).
Proof.
  intros Hd [Hh Hc Ho Hbl Hlen]. pose proof (last_index_spec x) as (H1 & H2 & H3). unfold Write.
  destruct (Nat.ltb_spec 0 (d_offset d)) as [Hpos|Hpos].
  - assert (Hx : BlockSize * last_index x < length x) by lia.
    assert (Hto : take (d_offset d) (d_block d) ++ p = drop (BlockSize * last_index x) (x ++ p)) by (rewrite drop_app_le by lia; by rewrite Hbl).
    destruct (Nat.leb_spec (length p) (BlockSize - d_offset d)) as [Hle|Hgt].
    + eexists. split; [reflexivity|].
      assert (Hn : last_index (x ++ p) = last_index x) by (apply last_index_unique; rewrite length_app; unfold BlockSize in *; lia).
      split; [split; [apply Hd..|]; cbn [d_block]; rewrite length_copy_at; [done|lia]|].
      split; cbn [d_size d_keyLen d_key d_block d_offset d_h d_c]; rewrite ?Hn.
      * rewrite rfc_blocks_app by lia. exact Hh.
      * exact Hc.
      * rewrite length_app. lia.
      * rewrite Nat.min_r by lia. rewrite take_copy_at by lia. exact Hto.
      * rewrite length_copy_at; [done|lia].
    + set (block := copy_at _ _ _).
      assert (Hlb : length block = BlockSize) by (unfold block; rewrite length_copy_at; [done|lia]).
      assert (Hblock : block = take BlockSize (drop (BlockSize * last_index x) (x ++ p))).
      { rewrite <- Hto, take_app_ge by (rewrite length_take; lia).
        rewrite <- (take_ge block BlockSize) by lia. unfold block.
        replace BlockSize with (d_offset d + length (take (BlockSize - d_offset d) p)) at 1 by (rewrite length_take; lia).
        rewrite take_copy_at by (rewrite length_take; lia). rewrite length_take. do 2 f_equal. lia. }
      destruct (hashBlocks_from (x ++ p) 1 (last_index x) (length block) (d_h d)) as (h1 & Hb & Hh1);
        [rewrite length_app; unfold BlockSize in *; lia|unfold BlockSize in *; lia|].
      rewrite Nat.mul_1_r, <- Hblock in Hb. unfold hashBlocks. rewrite Hc, Hb. cbn [obind].
      apply write_rest_holds; [done| |rewrite length_app; unfold BlockSize in *; lia| |  |done].
      * rewrite drop_app_ge by (unfold BlockSize in *; lia). f_equal. unfold BlockSize in *. lia.
      * right. intros E. apply (f_equal length) in E. rewrite length_drop in E. cbn [length] in E. lia.
      * rewrite Hh1, Hh, Nat.add_comm. cbn [Nat.add].
        rewrite <- (Nat.add_1_r (last_index x)), rfc_blocks_add, rfc_blocks_app by lia. reflexivity.
  - assert (x = []) as -> by (destruct x; [done|]; specialize (H3 ltac:(done)); lia).
    replace (d_offset d) with 0 by lia. rewrite Hc. apply write_rest_holds; [done|by rewrite drop_0|cbn; lia|by left|done|done].
Qed.

Lemma words_list8 h : words h = concat (le_put 8 <$> list8 h).
Proof. by destruct h. Qed.

Lemma length_words h : length (words h) = Size.
Proof. destruct h. unfold words. cbn [fmap list_fmap concat]. rewrite !length_app, !length_le_put. reflexivity. Qed.

(** The last block is counted with the bytes that it has. *)
Lemma last_block_rfc h n offset block :
  offset <= BlockSize -> length block = BlockSize ->
  exists h', last_block h (split64 (Z.of_nat (BlockSize * n))) offset block = Ok h' /\
    list8 h' = F (list8 h) (block_words 16 block) (Z.of_nat (BlockSize * n + offset)) true.
Proof.
  intros Ho Hl. unfold last_block.
  pose proof (uncount_rest (Z.of_nat (BlockSize * n)) (Z.of_nat (BlockSize - offset)) ltac:(lia)) as Hu.
  destruct (split64 (Z.of_nat (BlockSize * n))) as [c0 c1]. cbn [fst snd] in *. rewrite Hu.
  destruct (hashBlock_rfc h (Z.of_nat (BlockSize * n) - Z.of_nat (BlockSize - offset)) true block) as (h' & Hb & Hh').
  exists h'. split.
  - unfold hashBlocks. rewrite Hl. change BlockSize with (S 127) at 1.
    assert (Hloop : forall fuel c flag, hashBlocks_loop (S fuel) h c flag block =
      let '(h, c) := hashBlock h c flag (take BlockSize block) in hashBlocks_loop fuel h c flag (drop BlockSize block)).
    { intros fuel c flag. cbn [hashBlocks_loop]. rewrite Hl, Nat.ltb_irrefl. by destruct block. }
    rewrite Hloop, take_ge, Hb, drop_ge by lia. by destruct (split64 _).
  - replace (Z.of_nat (BlockSize * n) - Z.of_nat (BlockSize - offset) + Z.of_nat BlockSize)%Z
      with (Z.of_nat (BlockSize * n + offset)) in Hh' by lia. exact Hh'.
Qed.

Lemma pad_block l : length l <= BlockSize -> copy_at empty_block 0 l = l ++ replicate (BlockSize - length l) Byte.x00.
Proof.
  intros Hl. unfold copy_at, empty_block. rewrite length_replicate, Nat.sub_0_r, (take_ge l), take_0, drop_replicate by done. reflexivity.
Qed.

(** What is hashed for an input in blocks, with the parameters in [h0]. *)
Definition rfc_hash (h0 : list Z) (x : bytes) : list Z :=
  let last := drop (BlockSize * last_index x) x in
  F (rfc_blocks (last_index x) h0 x) (block_words 16 (last ++ replicate (BlockSize - length last) Byte.x00)) (Z.of_nat (length x)) true.

Lemma Sum_holds d x :
  digest_holds d x -> Sum d = Ok (take (d_size d) (concat (le_put 8 <$> rfc_hash (list8 (keyed_iv (d_size d) (d_keyLen d))) x))).
Proof.
  intros [Hh Hc Ho Hb Hl]. pose proof (last_index_spec x) as (H1 & H2 & _). unfold Sum, finalize. rewrite Hc, Hb.
  assert (Hll : length (drop (BlockSize * last_index x) x) <= BlockSize) by (rewrite length_drop; unfold BlockSize in *; lia).
  rewrite pad_block by done.
  destruct (last_block_rfc (d_h d) (last_index x) (d_offset d)
    (drop (BlockSize * last_index x) x ++ replicate (BlockSize - length (drop (BlockSize * last_index x) x)) Byte.x00)) as (h' & -> & Hh').
  { unfold BlockSize in *. lia. } { rewrite length_app, length_replicate. unfold BlockSize in *. lia. }
  cbn [obind]. rewrite words_list8, Hh', Hh. unfold rfc_hash.
  replace (BlockSize * last_index x + d_offset d) with (length x) by lia. reflexivity.
Qed.

(** The parameter block: the bits of its fields do not overlap. *)
Lemma parameters size keyLen :
  size <= Size -> keyLen <= Size ->
  list8 (keyed_iv size keyLen) =
    <[0 := Z.lxor (at_ IV 0) (Z.lxor (Z.lxor 0x01010000 (Z.shiftl (Z.of_nat keyLen) 8)) (Z.of_nat size))]> IV.
Proof.
  intros Hs Hk. unfold keyed_iv, IV. cbn [iv list8 insert list_insert at_ nth]. f_equal. f_equal.
  assert (Hall : forallb (fun s => forallb (fun k =>
      Z.lor (Z.lor (Z.lor (Z.of_nat s) (u64 (Z.shiftl (Z.of_nat k) 8))) (Z.shiftl 1 16)) (Z.shiftl 1 24) =?
      Z.lxor (Z.lxor 0x01010000 (Z.shiftl (Z.of_nat k) 8)) (Z.of_nat s))%Z (seq 0 65)) (seq 0 65) = true) by (vm_compute; reflexivity).
  rewrite forallb_forall in Hall. specialize (Hall size ltac:(apply in_seq; unfold Size in *; lia)).
  rewrite forallb_forall in Hall. specialize (Hall keyLen ltac:(apply in_seq; unfold Size in *; lia)). by apply Z.eqb_eq.
Qed.

Definition key_block (key : bytes) : bytes := if (0 <? length key) then padded_key key else [].

Lemma blake2b_hash size key data :
  size <= Size -> length key <= Size ->
  blake2b size key data = take size (concat (le_put 8 <$> rfc_hash (list8 (keyed_iv size (length key))) (key_block key ++ data))).
Proof. intros Hs Hk. rewrite parameters by done. reflexivity. Qed.

Lemma length_padded_key key : length key <= Size -> length (padded_key key) = BlockSize.
Proof. intros Hk. unfold padded_key. rewrite length_app, length_replicate. unfold Size, BlockSize in *. lia. Qed.

Lemma Reset_holds size key d : made size key d -> made size key (Reset d) /\ digest_holds (Reset d) (key_block key).
Proof.
  intros [Hs Hk Hkey Hl Hb]. pose proof (length_padded_key key Hl) as Hp. split.
  - split; cbn [Reset d_size d_keyLen d_key d_block]; try done. rewrite Hk, Hkey. by destruct (0 <? length key).
  - unfold key_block. split; cbn [Reset d_size d_keyLen d_key d_block d_offset d_h d_c]; rewrite ?Hk, ?Hkey.
    all: destruct (Nat.ltb_spec 0 (length key)) as [Hpos|Hpos].
    all: unfold last_index; rewrite ?Hp; try reflexivity; try assumption.
    by rewrite take_ge by (rewrite Hp; reflexivity).
Qed.

Lemma newDigest_made size key :
  length key <= Size -> exists d, newDigest size key = Ok d /\ made size key d.
Proof.
  intros Hk. unfold newDigest. destruct (Nat.ltb_spec Size (length key)) as [|_]; [lia|]. eexists. split; [reflexivity|].
  apply Reset_holds. split; cbn [d_size d_keyLen d_key d_block]; try done. apply pad_block. unfold Size, BlockSize in *. lia.
Qed.

(** Several calls of [Write]. *)
Fixpoint writes (d : digest) (pieces : list bytes) : outcome digest :=
  match pieces with [] => Ok d | p :: pieces => let! d := Write d p in writes d pieces end.

Lemma writes_holds size key pieces : forall d x,
  made size key d -> digest_holds d x -> exists d', writes d pieces = Ok d' /\ made size key d' /\ digest_holds d' (x ++ concat pieces).
Proof.
  induction pieces as [|p pieces IH]; intros d x Hd Hx; [exists d; by rewrite app_nil_r|].
  destruct (Write_holds size key d x p Hd Hx) as (d1 & Hw & Hd1 & Hx1). cbn [writes]. rewrite Hw. cbn [obind].
  destruct (IH d1 _ Hd1 Hx1) as (d2 & -> & Hd2 & Hx2). exists d2. split; [done|]. split; [done|]. cbn [concat]. by rewrite app_assoc.
Qed.

(** [HashBytes] of the hashers of the package [crypto]. *)
Definition HashBytes (d : digest) (data : bytes) : outcome (bytes * digest) :=
  let d := Reset d in let! d := Write d data in let! hash := Sum d in Ok (hash, d).

Lemma pieces_hashed size key d pieces :
  size <= Size -> made size key d ->
  exists d', writes (Reset d) pieces = Ok d' /\ made size key d' /\ Sum d' = Ok (blake2b size key (concat pieces)).
Proof.
  intros Hs Hd. pose proof (made_short _ _ _ Hd) as Hk. destruct (Reset_holds size key d Hd) as [Hr Hx].
  destruct (writes_holds size key pieces _ _ Hr Hx) as (d' & -> & Hd' & Hx'). exists d'. split; [done|]. split; [done|].
  rewrite (Sum_holds d' _ Hx'), (made_size _ _ _ Hd'), (made_keyLen _ _ _ Hd'), blake2b_hash by done. reflexivity.
Qed.

Lemma HashBytes_hashed size key d data :
  size <= Size -> made size key d -> exists d', HashBytes d data = Ok (blake2b size key data, d') /\ made size key d'.
Proof.
  intros Hs Hd. destruct (pieces_hashed size key d [data] Hs Hd) as (d' & Hw & Hd' & Hsum). cbn [writes concat] in Hw, Hsum.
  rewrite app_nil_r in Hsum. unfold HashBytes. destruct (Write (Reset d) data) as [d1|e|p]; cbn [obind] in *; [|done..].
  injection Hw as ->. rewrite Hsum. by exists d'.
Qed.

Lemma checkSum_hashed size data :
  size <= Size -> size mod 8 = 0 ->
  checkSum size data = Ok (blake2b size [] data ++ drop size (replicate Size Byte.x00)) /\ length (blake2b size [] data) = size.
Proof.
  intros Hs H8. unfold checkSum.
  destruct (rest_hashed data 0 (list8 (keyed_iv size 0)) (keyed_iv size 0) data) as (h & Hr & Hh); [by rewrite drop_0|lia|by left|reflexivity|].
  change (split64 (Z.of_nat (BlockSize * 0))) with (0, 0)%Z in Hr. rewrite Hr. cbn [obind].
  pose proof (last_index_spec data) as (H1 & H2 & _). set (last := drop (BlockSize * last_index data) data).
  assert (Hl : length last = length data - BlockSize * last_index data) by apply length_drop.
  rewrite Nat.min_r, pad_block by (unfold BlockSize in *; lia).
  destruct (last_block_rfc h (last_index data) (length last) (last ++ replicate (BlockSize - length last) Byte.x00)) as (h' & -> & Hh').
  { unfold BlockSize in *. lia. } { rewrite length_app, length_replicate. unfold BlockSize in *. lia. }
  cbn [obind]. rewrite blake2b_hash by (done || cbn; lia).
  assert (Hx : list8 h' = rfc_hash (list8 (keyed_iv size 0)) data).
  { rewrite Hh', Hh. unfold rfc_hash. fold last. replace (BlockSize * last_index data + length last) with (length data) by lia. reflexivity. }
  change (key_block [] ++ data) with data. change (length (@nil byte)) with 0. rewrite <- Hx, <- words_list8.
  assert ((size + 7) / 8 * 8 = size) as ->.
  { pose proof (Nat.div_mod_eq size 8). rewrite <- (Nat.div_unique (size + 7) 8 (size / 8) 7); lia. }
  pose proof (length_words h') as Hw. split; [|rewrite length_take; lia]. f_equal. unfold copy_at.
  rewrite take_0, length_replicate, Nat.sub_0_r. cbn [app Nat.add]. rewrite length_take, Hw, Nat.min_l by done. f_equal.
  apply take_ge. rewrite length_take. lia.
Qed.

(** Earlier calls of [HashBytes]. *)
Fixpoint hash_all (d : digest) (datas : list bytes) : outcome digest :=
  match datas with [] => Ok d | data :: datas => let! (_, d) := HashBytes d data in hash_all d datas end.

Lemma hash_all_made size key datas : forall d,
  size <= Size -> made size key d -> exists d', hash_all d datas = Ok d' /\ made size key d'.
Proof.
  induction datas as [|data datas IH]; intros d Hs Hd; [by exists d|]. cbn [hash_all].
  destruct (HashBytes_hashed size key d data Hs Hd) as (d1 & -> & Hd1). cbn [obind]. by apply IH.
Qed.

(** [SumBlake2b256] and [SumBlake2b512] *)
Definition SumBlake2b256 (data : bytes) : outcome bytes := Sum256 data.
Definition SumBlake2b512 (data : bytes) : outcome bytes := Sum512 data.

(** C39. The default hasher is BLAKE2b of RFC 7693.  For every size that the
    package offers and every key of at most 64 bytes a hasher can be made; what
    it returns is the keyed hash of its input, whatever it was used for before, and
    so is the hash of input that is written in pieces of any length; the counter
    of two words, the key in front of the data and the last block, which is kept
    back until it is known to be the last, included.  The functions for input that
    is there at once give the same.  No block is read past its end. *)
Theorem hasher_is_blake2b (size : nat) (key : bytes) :
  size = Size256 \/ size = Size -> length key <= Size ->
  exists d, newDigest size key = Ok d /\
    (forall before, exists d', hash_all d before = Ok d' /\
       (forall data, exists d'', HashBytes d' data = Ok (blake2b size key data, d'')) /\
       (forall pieces, exists d'', writes (Reset d') pieces = Ok d'' /\ Sum d'' = Ok (blake2b size key (concat pieces)))) /\
    (forall data, SumBlake2b256 data = Ok (blake2b Size256 [] data) /\ SumBlake2b512 data = Ok (blake2b Size [] data)).
Proof.
  intros Hsize Hk. assert (Hs : size <= Size) by (unfold Size256, Size in *; lia).
  destruct (newDigest_made size key Hk) as (d & Hd & Hm). exists d. split; [done|]. split.
  - intros before. destruct (hash_all_made size key before d Hs Hm) as (d' & Hd' & Hm'). exists d'. split; [done|]. split.
    + intros data. destruct (HashBytes_hashed size key d' data Hs Hm') as (d'' & Hx & _). by exists d''.
    + intros pieces. destruct (pieces_hashed size key d' pieces Hs Hm') as (d'' & Hx & _ & Hsum). by exists d''.
  - intros data. unfold SumBlake2b256, SumBlake2b512, Sum256, Sum512.
    destruct (checkSum_hashed Size256 data ltac:(unfold Size256, Size; lia) eq_refl) as (-> & Hl).
    destruct (checkSum_hashed Size data ltac:(lia) eq_refl) as (-> & _). cbn [obind]. split.
    + by rewrite take_app_exact by done.
    + rewrite drop_ge by (rewrite length_replicate; lia). by rewrite app_nil_r.
Qed.

(** The hash of [abc] in appendix A of the RFC. *)
Definition abc_hash : bytes := zb <$>
                 [0xba; 0x80; 0xa5; 0x3f; 0x98; 0x1c; 0x4d; 0x0d; 0x6a; 0x27; 0x97; 0xb6; 0x9f; 0x12; 0xf6; 0xe9;
                  0x4c; 0x21; 0x2f; 0x14; 0x68; 0x5a; 0xc4; 0xb7; 0x4b; 0x12; 0xbb; 0x6f; 0xdb; 0xff; 0xa2; 0xd1;
                  0x7d; 0x87; 0xc5; 0x39; 0x2a; 0xab; 0x79; 0x2d; 0xc2; 0x52; 0xd5; 0xde; 0x45; 0x33; 0xcc; 0x95;
                  0x18; 0xd3; 0x8a; 0xa8; 0xdb; 0xf1; 0x92; 0x5a; 0xb9; 0x23; 0x86; 0xed; 0xd4; 0x00; 0x99; 0x23]%Z.

(** A hasher that was used before. *)
Lemma hasher_is_blake2b_witness :
  exists d d', (let! d0 := newDigest Size [] in hash_all d0 [str_bytes "0-stor"]) = Ok d /\
    HashBytes d (str_bytes "abc") =
      Ok (abc_hash, d').
Proof.
  destruct (hasher_is_blake2b Size [] ltac:(by right) ltac:(cbn; lia)) as (d0 & Hd0 & Hb & _).
  destruct (Hb [str_bytes "0-stor"]) as (d & Hd & Hx & _). destruct (Hx (str_bytes "abc")) as (d' & Hd').
  exists d, d'. split; [rewrite Hd0; exact Hd|].
  assert (blake2b Size [] (str_bytes "abc") = abc_hash) as E by (vm_compute; reflexivity). rewrite E in Hd'. exact Hd'.
Defined.

(** The constructors of [Processing], with the function that is computed here. *)
Lemma constructors_agree `{Hashes} (key : slice) :
  blake2b_256 = blake2b Size256 ->
  match newDigest Size256 (slice_bytes key) with
  | Ok d => exists f, NewBlake2b256Hasher key = Ok f /\ forall data, exists d', HashBytes d data = Ok (f data, d')
  | Err e => NewBlake2b256Hasher key = Err e
  | Panic _ => False
  end.
Proof.
  intros H256. unfold NewBlake2b256Hasher, blake2b_new. rewrite H256. unfold slice_len.
  destruct (Nat.ltb_spec 64 (length (slice_bytes key))) as [Hl|Hl].
  - unfold newDigest. destruct (Nat.ltb_spec Size (length (slice_bytes key))); [done|unfold Size in *; lia].
  - destruct (newDigest_made Size256 (slice_bytes key) Hl) as (d & -> & Hm). eexists. split; [done|]. intros data.
    destruct (HashBytes_hashed Size256 (slice_bytes key) d data ltac:(unfold Size256, Size; lia) Hm) as (d' & Hx & _). by exists d'.
Qed.
End Blake2b.

