(* ===== verification/PipelineConfig.v ===== *)
(** * Pipelines from a configuration ([client/datastor/pipeline/config.go])

    Which processor, hasher, chunk storage and pipeline a configuration stands
    for.  The cluster enters with the number of its listed shards; the
    compressors, the cipher, the hash functions and the erasure code are
    parameters, as in the files that use them. *)

From stdpp Require Import pretty.
From S2P Require Import Prelude Encoding Spread Replicated Distributed Pipeline MetaProto MetaProtoProps Metastor Processing.
Import Registry.
Open Scope Z_scope.

Record HashingConfig := { h_Type : Z; h_PrivateKey : string }.
Record CompressionConfig := { c_Mode : CompressionMode; c_Type : Z }.
Record EncryptionConfig := { e_PrivateKey : string; e_Type : Z }.
Record ObjectDistributionConfig := { DataShardCount : Z; ParityShardCount : Z }.
Record Config := {
  BlockSize : Z;
  Hashing : HashingConfig;
  Compression : CompressionConfig;
  Encryption : EncryptionConfig;
  Distribution : ObjectDistributionConfig;
}.

(** The storage and the pipeline that are made. *)
Inductive AnyStorage :=
  | RandomStorage
  | ReplicatedStorage (rs : Replicated.ReplicatedChunkStorage)
  | DistributedStorage (ds : Distributed.DistributedChunkStorage).

Inductive AnyPipeline :=
  | SingleObjectPipeline (os : AnyStorage) (cfg : Pipeline.Config)
  | AsyncPipeline (os : AnyStorage) (asp : AsyncSplitter.AsyncSplitterPipeline).

Section Config.
(** The registered constructors, [DefaultHasherConstructor], [runtime.NumCPU() * 2]
    and the constructor of the erasure code. *)
Context (compressions : registry (CompressionMode -> outcome SharedProcessor))
  (encryptions : registry (bytes -> outcome SharedProcessor))
  (hashes : registry (slice -> outcome (bytes -> bytes)))
  (defaultHasher : outcome (bytes -> bytes))
  (DefaultJobCount : nat) (NewReedSolomon : Z -> Z -> outcome EncodeReconster).

Definition NewCompressorDecompressor (ct : Z) (mode : CompressionMode) : outcome SharedProcessor :=
  let! cdc := lookup_ctor compression compressions ct in cdc mode.

Definition NewEncrypterDecrypter (et : Z) (privateKey : bytes) : outcome SharedProcessor :=
  let! edc := lookup_ctor encryption encryptions et in edc privateKey.

Definition NewHasher (ht : Z) (key : slice) : outcome (bytes -> bytes) :=
  let! hc := lookup_ctor hashing hashes ht in hc key.

Definition no_key (s : string) : bool := bool_decide (s = EmptyString).

Definition NewProcessorConstructor (cc : CompressionConfig) (ec : EncryptionConfig) : outcome SharedProcessor :=
  match c_Mode cc, no_key (e_PrivateKey ec) with
  | CompressionModeDisabled, true => Ok Nop
  | CompressionModeDisabled, false => NewEncrypterDecrypter (e_Type ec) (str_bytes (e_PrivateKey ec))
  | mode, true => NewCompressorDecompressor (c_Type cc) mode
  | mode, false =>
      let! cd := NewCompressorDecompressor (c_Type cc) mode in
      let! ed := NewEncrypterDecrypter (e_Type ec) (str_bytes (e_PrivateKey ec)) in
      Chain.NewProcessorChain [cd; ed]
  end.

(** [[]byte(cfg.PrivateKey)] is never nil. *)
Definition NewHasherConstructor (cfg : HashingConfig) : outcome (bytes -> bytes) :=
  NewHasher (h_Type cfg) (Some (str_bytes (h_PrivateKey cfg))).

(** [cluster] is the number of listed shards of the cluster, if there is one;
    the two counts of the error text are in the order of the code. *)
Definition NewChunkStorage (cfg : ObjectDistributionConfig) (cluster : option nat) (jobCount : Z) : outcome AnyStorage :=
  match cluster with
  | None => Panic "no datastor cluster given"
  | Some listed =>
      let jobCount := if jobCount <=? 0 then Z.of_nat DefaultJobCount else jobCount in
      if DataShardCount cfg <=? 0 then
        if 0 <? ParityShardCount cfg
        then Err (ErrNew ("illegal distribution: parity shard count defined (" +:+ pretty (DataShardCount cfg) +:+
                          "), while data shard count is undefined (" +:+ pretty (ParityShardCount cfg) +:+ ")"))
        else let! _ := Random.NewRandomChunkStorage listed in Ok RandomStorage
      else if ParityShardCount cfg <=? 0 then
        if DataShardCount cfg =? 1 then let! _ := Random.NewRandomChunkStorage listed in Ok RandomStorage
        else let! rs := Replicated.NewReplicatedChunkStorage DefaultJobCount listed (DataShardCount cfg) jobCount in
             Ok (ReplicatedStorage rs)
      else
        let! ds := Distributed.NewDistributedChunkStorage NewReedSolomon DefaultJobCount listed (DataShardCount cfg)
                     (ParityShardCount cfg) jobCount in
        Ok (DistributedStorage ds)
  end.

Definition NewPipeline (cfg : Config) (cluster : option nat) (jobCount : Z) : outcome AnyPipeline :=
  let pc := NewProcessorConstructor (Compression cfg) (Encryption cfg) in
  let! _ := pc in
  let jobCount := if jobCount <=? 0 then Z.of_nat DefaultJobCount else jobCount in
  let! os := NewChunkStorage (Distribution cfg) cluster jobCount in
  let hashing := if no_key (h_PrivateKey (Hashing cfg))
                 then {| h_Type := h_Type (Hashing cfg); h_PrivateKey := e_PrivateKey (Encryption cfg) |}
                 else Hashing cfg in
  let hc := NewHasherConstructor hashing in
  let! _ := hc in
  let pc := let! p := pc in Ok (proc p) in
  if BlockSize cfg <=? 0 then Ok (SingleObjectPipeline os (NewConfig defaultHasher (Some pc) (Some hc)))
  else
    let! asp := AsyncSplitter.NewAsyncSplitterPipeline DefaultJobCount defaultHasher (BlockSize cfg) (Some pc) (Some hc) jobCount in
    Ok (AsyncPipeline os asp).
End Config.

(** ** Processors of the configuration undo their work *)
Section Inverts.
Context (compressions : registry (CompressionMode -> outcome SharedProcessor))
  (encryptions : registry (bytes -> outcome SharedProcessor)).
Context (Hcomp : forall t ctor m p, ctors compressions !! t = Some ctor -> ctor m = Ok p -> inverts (proc p))
  (Henc : forall t ctor k p, ctors encryptions !! t = Some ctor -> ctor k = Ok p -> inverts (proc p)).

Lemma lookup_ctor_Ok {C} k (r : registry C) v c : lookup_ctor k r v = Ok c -> ctors r !! v = Some c.
Proof using. unfold lookup_ctor. destruct (ctors r !! v); [by intros [= ->]|done]. Qed.

Lemma compressor_inverts t m p : NewCompressorDecompressor compressions t m = Ok p -> inverts (proc p).
Proof using Hcomp. intros (ctor & Hc%lookup_ctor_Ok & Hp)%obind_Ok_inv. by eapply Hcomp. Qed.

Lemma encrypter_inverts t k p : NewEncrypterDecrypter encryptions t k = Ok p -> inverts (proc p).
Proof using Henc. intros (ctor & Hc%lookup_ctor_Ok & Hp)%obind_Ok_inv. by eapply Henc. Qed.

Lemma constructor_inverts cc ec p : NewProcessorConstructor compressions encryptions cc ec = Ok p -> inverts (proc p).
Proof using Hcomp Henc.
  unfold NewProcessorConstructor. destruct (c_Mode cc) eqn:Hm, (no_key (e_PrivateKey ec)).
  1: by intros [= <-] d x [= <-].
  1: apply encrypter_inverts.
  all: try apply compressor_inverts.
  all: intros (cd & Hcd & (ed & Hed & Hch)%obind_Ok_inv)%obind_Ok_inv; eapply Chain.chain_inverts; [|exact Hch].
  all: repeat constructor; [by eapply compressor_inverts|by eapply encrypter_inverts].
Qed.
End Inverts.

(** A registry made by registrations has only the registered constructors. *)
Lemma register_all_ctors {C} k (l : list (Z * string * C)) r v c :
  register_all k l = Ok r -> ctors r !! v = Some c -> exists name, (v, name, c) ∈ l.
Proof.
  unfold register_all. assert (Hgen : forall l (r0 : outcome (registry C)) (P : Z -> C -> Prop),
    (forall x v c, r0 = Ok x -> ctors x !! v = Some c -> P v c) -> (forall v n c, (v, n, c) ∈ l -> P v c) ->
    forall r v c, foldl (fun r x => let! r := r in register k x.1.1 x.1.2 (Some x.2) r) r0 l = Ok r -> ctors r !! v = Some c -> P v c).
  { clear. induction l as [|[[v0 n0] c0] l IH]; intros r0 P Hr0 Hl r v c; cbn [foldl]; [apply Hr0|].
    apply IH; [|intros; eapply Hl; by apply list_elem_of_further].
    intros x v' c' (y & -> & Hy)%obind_Ok_inv. cbn [register fst snd] in Hy.
    apply obind_Ok_inv in Hy as (s & _ & [= <-]). cbn [ctors].
    intros [[<- <-]|[_ Hc]]%lookup_insert_Some; [eapply Hl; apply list_elem_of_here|by eapply Hr0]. }
  apply (Hgen l (Ok new) (fun v c => exists name, (v, name, c) ∈ l)); [|by eauto]. by intros x v' c' [= <-].
Qed.

(** The storage that the numbers of shards ask for, with enough listed shards. *)
Definition storage_fits (cfg : ObjectDistributionConfig) (listed : nat) (os : AnyStorage) : Prop :=
  let d := DataShardCount cfg in
  let k := ParityShardCount cfg in
  match os with
  | RandomStorage => d <= 1 /\ k <= 0 /\ (1 <= listed)%nat
  | ReplicatedStorage rs => 1 < d <= Z.of_nat listed /\ k <= 0 /\ Z.of_nat (Replicated.dataShardCount rs) = d
  | DistributedStorage ds => 0 < d /\ 0 < k /\ d + k <= Z.of_nat listed /\
      Z.of_nat (ReedSolomon.dataShardCount (Distributed.dec ds)) = d /\
      Z.of_nat (ReedSolomon.parityShardCount (Distributed.dec ds)) = k
  end.

Lemma NewChunkStorage_fits DefaultJobCount NewReedSolomon cfg listed jobCount os :
  NewChunkStorage DefaultJobCount NewReedSolomon cfg (Some listed) jobCount = Ok os -> storage_fits cfg listed os.
Proof.
  unfold NewChunkStorage. cbv zeta. intros Hos.
  destruct (Z.leb_spec (DataShardCount cfg) 0).
  { destruct (Z.ltb_spec 0 (ParityShardCount cfg)); [done|].
    apply obind_Ok_inv in Hos as ([] & Hr & [= <-]). unfold Random.NewRandomChunkStorage in Hr.
    destruct (Nat.ltb_spec listed 1); [done|]. split_and!; lia. }
  destruct (Z.leb_spec (ParityShardCount cfg) 0).
  { destruct (Z.eqb_spec (DataShardCount cfg) 1).
    - apply obind_Ok_inv in Hos as ([] & Hr & [= <-]). unfold Random.NewRandomChunkStorage in Hr.
      destruct (Nat.ltb_spec listed 1); [done|]. split_and!; lia.
    - apply obind_Ok_inv in Hos as (rs & Hr & [= <-]). unfold Replicated.NewReplicatedChunkStorage in Hr.
      destruct (Z.ltb_spec (DataShardCount cfg) 1); [done|].
      destruct (Z.ltb_spec (Z.of_nat listed) (DataShardCount cfg)); [done|].
      injection Hr as <-. cbn. split_and!; lia. }
  apply obind_Ok_inv in Hos as (ds & Hr & [= <-]). unfold Distributed.NewDistributedChunkStorage in Hr.
  destruct (Z.ltb_spec (Z.of_nat listed) (DataShardCount cfg + ParityShardCount cfg)); [done|].
  destruct (ReedSolomon.NewReedSolomonEncoderDecoder _ _ _) as [dec|e|q] eqn:Hd; [|done..]. injection Hr as <-.
  unfold ReedSolomon.NewReedSolomonEncoderDecoder in Hd. destruct (_ <? 1); [done|]. destruct (_ <? 1); [done|].
  apply obind_Ok_inv in Hd as (er & _ & [= <-]). cbn. split_and!; lia.
Qed.

(** ** The standard registrations *)
Section Standard.
Context `{Compressors} `{AEAD} `{Hashes} (random : bytes -> outcome bytes).

Definition EncryptionTypeAES : Z := 0.
Definition encrypters : list (Z * string * (bytes -> outcome SharedProcessor)) :=
  [(EncryptionTypeAES, "aes"%string, NewAESEncrypterDecrypter random)].

Definition made {C} (k : kind) (l : list (Z * string * C)) : registry C :=
  match register_all k l with Ok r => r | _ => new end.

Definition std_compressions := made compression compressors.
Definition std_encryptions := made encryption encrypters.
Definition std_hashes := made hashing hashers.

Lemma made_ctors {C} k (l : list (Z * string * C)) v c : ctors (made k l) !! v = Some c -> exists name, (v, name, c) ∈ l.
Proof using. unfold made. destruct (register_all k l) as [r|e|p] eqn:E; [by eapply register_all_ctors|done|done]. Qed.

Context (Hrandom : forall d n, random d = Ok n -> length n = nonceSize).

Lemma std_inverts cc ec p :
  NewProcessorConstructor std_compressions std_encryptions cc ec = Ok p -> inverts (proc p).
Proof using Hrandom.
  apply constructor_inverts.
  - intros t ctor m q Hc Hq. apply made_ctors in Hc as [name Hc]. by eapply compressors_invert.
  - intros t ctor k q Hc Hq. apply made_ctors in Hc as [name Hc]. apply list_elem_of_singleton in Hc as [= _ _ ->].
    by eapply aes_inverts.
Qed.

(** The parts of a pipeline that is accepted. *)
Lemma NewPipeline_made (defaultHasher : outcome (bytes -> bytes)) (DefaultJobCount : nat)
    (NewReedSolomon : Z -> Z -> outcome EncodeReconster) (cfg : Config) (listed : nat) (jobCount : Z) (pl : AnyPipeline) :
  (0 < DefaultJobCount)%nat ->
  NewPipeline std_compressions std_encryptions std_hashes defaultHasher DefaultJobCount NewReedSolomon cfg (Some listed) jobCount = Ok pl ->
  exists os c hash p,
    match pl with
    | SingleObjectPipeline os' c' => os' = os /\ c' = c /\ BlockSize cfg <= 0
    | AsyncPipeline os' asp => os' = os /\ AsyncSplitter.config asp = c /\ 0 < BlockSize cfg /\
        AsyncSplitter.chunkSize asp = BlockSize cfg /\ (0 < AsyncSplitter.storageJobCount asp)%nat
    end /\
    hasher c = Ok hash /\ processor c = Ok p /\ inverts p /\
    exists j, NewChunkStorage DefaultJobCount NewReedSolomon (Distribution cfg) (Some listed) j = Ok os.
Proof using Hrandom.
  intros Hj. unfold NewPipeline. cbv zeta. intros (p & Hp & Hrest)%obind_Ok_inv.
  apply obind_Ok_inv in Hrest as (os & Hos & Hrest). apply obind_Ok_inv in Hrest as (hash & Hhash & Hrest).
  pose proof (std_inverts _ _ _ Hp) as Hinv. set (j := if jobCount <=? 0 then _ else _) in *.
  set (c := NewConfig defaultHasher (Some (let! p := NewProcessorConstructor std_compressions std_encryptions
    (Compression cfg) (Encryption cfg) in Ok (proc p))) (Some (NewHasherConstructor std_hashes
    (if no_key (h_PrivateKey (Hashing cfg)) then _ else _)))) in *.
  exists os, c, hash, (proc p). split_and!.
  - destruct (Z.leb_spec (BlockSize cfg) 0); [by injection Hrest as <-|].
    apply obind_Ok_inv in Hrest as (asp & Hasp & [= <-]). unfold AsyncSplitter.NewAsyncSplitterPipeline in Hasp.
    destruct (Z.leb_spec (BlockSize cfg) 0); [lia|]. injection Hasp as <-. cbn. split_and!; try done.
    destruct (Z.leb_spec j 0); lia.
  - exact Hhash.
  - cbn. by rewrite Hp.
  - done.
  - by exists j.
Qed.

(** A configured pipeline is sound.  Every configuration that [NewPipeline]
    accepts with the standard algorithms gives a pipeline whose hasher and
    processor can be constructed and whose processor undoes what it does,
    whatever combination of compression and encryption is chosen; a sequential
    one when no block size is given, else a parallel one with this chunk size
    and at least one job; and a storage that needs no more shards than the
    cluster lists: one shard when at most one data shard is asked for, copies on
    as many shards as asked for without parity, and else an erasure code with
    the given numbers of data and parity shards. *)
Theorem configured_pipeline_sound (defaultHasher : outcome (bytes -> bytes)) (DefaultJobCount : nat)
    (NewReedSolomon : Z -> Z -> outcome EncodeReconster) (cfg : Config) (listed : nat) (jobCount : Z) (pl : AnyPipeline) :
  (0 < DefaultJobCount)%nat ->
  NewPipeline std_compressions std_encryptions std_hashes defaultHasher DefaultJobCount NewReedSolomon cfg (Some listed) jobCount = Ok pl ->
  exists os c hash p,
    match pl with
    | SingleObjectPipeline os' c' => os' = os /\ c' = c /\ BlockSize cfg <= 0
    | AsyncPipeline os' asp => os' = os /\ AsyncSplitter.config asp = c /\ 0 < BlockSize cfg /\
        AsyncSplitter.chunkSize asp = BlockSize cfg /\ (0 < AsyncSplitter.storageJobCount asp)%nat
    end /\
    hasher c = Ok hash /\ processor c = Ok p /\ inverts p /\
    storage_fits (Distribution cfg) listed os.
Proof using Hrandom.
  intros Hj Hpl. destruct (NewPipeline_made _ _ _ _ _ _ _ Hj Hpl) as (os & c & hash & p & Hshape & Hh & Hp & Hinv & j & Hos).
  exists os, c, hash, p. split_and!; try done. by eapply NewChunkStorage_fits.
Qed.

(** Without any private key the SHA types do not give the checksum but its HMAC
    with the empty key, since the key of the configuration is never nil. *)
Lemma sha_without_key_is_hmac :
  NewHasherConstructor std_hashes {| h_Type := HashTypeSHA256; h_PrivateKey := "" |} = Ok (hmac_sha256 []).
Proof using. reflexivity. Qed.

(** The error text of an illegal distribution has its two numbers swapped. *)
Lemma illegal_distribution_text DefaultJobCount NewReedSolomon listed :
  NewChunkStorage DefaultJobCount NewReedSolomon {| DataShardCount := 0; ParityShardCount := 3 |} (Some listed) 1 =
  Err (ErrNew "illegal distribution: parity shard count defined (0), while data shard count is undefined (3)").
Proof using. vm_compute. reflexivity. Qed.
End Standard.

(** ** An accepted configuration, with toy algorithms *)
#[local] Instance toy_compressors : Compressors.
Proof.
  refine {| snappy_write d := Ok (Byte.x73 :: d); snappy_read d := Ok (tail d); lz4_write d := Ok (Byte.x6c :: d); lz4_read d := Ok (tail d);
            gzip_write _ d := Ok (Byte.x67 :: d); gzip_read d := Ok (tail d) |}.
  all: intros; by simplify_eq/=.
Defined.

#[local] Instance toy_aead : AEAD.
Proof.
  refine {| Seal _ _ plain := plain ++ replicate 16 Byte.x00; Open_ _ _ c := Ok (take (length c - 16) c) |}.
  - intros _ _ plain _. rewrite length_app, length_replicate, take_app_exact; [done|lia].
  - intros _ _ plain. by rewrite length_app, length_replicate.
Defined.

#[local] Instance toy_hashes : Hashes :=
  {| sha256 := take 32; sha512 := take 64; hmac_sha256 k d := take 32 (k ++ d); hmac_sha512 k d := take 64 (k ++ d);
     blake2b_256 k d := take 32 (d ++ k); blake2b_512 k d := take 64 (d ++ k) |}.

Definition toy_random (_ : bytes) : outcome bytes := Ok (replicate 12 Byte.x07).

Definition toy_config : Config :=
  {| BlockSize := 4; Hashing := {| h_Type := HashTypeBlake2b256; h_PrivateKey := "" |};
     Compression := {| c_Mode := CompressionModeBestSpeed; c_Type := CompressionTypeGZip |};
     Encryption := {| e_PrivateKey := "0123456789abcdef"; e_Type := EncryptionTypeAES |};
     Distribution := {| DataShardCount := 2; ParityShardCount := 0 |} |}.

Definition toy_pipeline : outcome AnyPipeline :=
  NewPipeline std_compressions (std_encryptions toy_random) std_hashes (Err (ErrNew "unused")) 8
    (fun _ _ => Err (ErrNew "unused")) toy_config (Some 3%nat) 0.

Lemma configured_pipeline_sound_witness :
  exists asp p, toy_pipeline = Ok (AsyncPipeline (ReplicatedStorage {| Replicated.dataShardCount := 2; Replicated.jobCount := 8;
    Replicated.writeJobCount := 8 |}) asp) /\ processor (AsyncSplitter.config asp) = Ok p /\ inverts p.
Proof.
  destruct toy_pipeline as [pl|e|p] eqn:E; [|vm_compute in E; discriminate..].
  destruct (configured_pipeline_sound toy_random ltac:(intros d n [= <-]; reflexivity) (Err (ErrNew "unused")) 8
    (fun _ _ => Err (ErrNew "unused")) toy_config 3 0 pl ltac:(lia) E) as (os & c & hash & p & Hpl & _ & Hp & Hinv & _).
  destruct pl as [os' c'|os' asp]; [destruct Hpl as (_ & _ & Hb); vm_compute in Hb; by destruct Hb|].
  destruct Hpl as (_ & Hc & _). exists asp, p. rewrite Hc. split; [|done]. f_equal. f_equal.
  vm_compute in E. by injection E.
Defined.
