(* ===== verification/TokenGetter.v ===== *)
(** * JWT token getters ([client/datastor/jwt.go])

    The getter that asks the identity service and the cache in front of it.  The
    service, the JWT library and the LRU cache of another package are
    parameters; time is an argument, in nanoseconds. *)

From S2P Require Import Prelude Crc32 Encoding GoStrings Jwt ServerAPI ServerProps Datastor.
Open Scope Z_scope.

(** ** Interfaces *)

(** [JWTTokenGetter] with [GetClaimsFromJWTToken]: the [exp] claim, which is
    missing or not a number when it is [None]. *)
Record TokenGetter (G : Type) := {
  getter :> JWTTokenGetter G;
  GetExpClaim : string -> outcome (option Z);
}.
Arguments getter {G}.
Arguments GetExpClaim {G}.

(** [simplelru.LRU], by what it holds: adding may evict other entries. *)
Class LRU (C V : Type) := {
  lru_Get : string -> C -> option V * C;
  lru_Add : string -> V -> C -> C;
  lru_Remove : string -> C -> C;
  lru_view : C -> gmap string V;
  lru_get_law k c : (lru_Get k c).1 = lru_view c !! k /\ lru_view (lru_Get k c).2 = lru_view c;
  lru_add_law k v c : lru_view (lru_Add k v c) !! k = Some v /\ lru_view (lru_Add k v c) ⊆ <[k := v]> (lru_view c);
  lru_remove_law k c : lru_view (lru_Remove k c) = delete k (lru_view c);
}.

(** ** The getter that uses the identity service *)
Section IYO.
Context {G : Type} (CreateJWT : string -> Permission -> prog G string) (parse_exp : string -> outcome (option Z)).

Record IYOBasedJWTTokenGetter := { prefix : string }.

Definition JWTTokenGetterUsingIYOClient (organization : string) (client : bool) : outcome IYOBasedJWTTokenGetter :=
  if bool_decide (organization = EmptyString) then Err (ErrNew "no organization given")
  else if negb client then Err (ErrNew "no IYO client given")
  else Ok {| prefix := organization +:+ "_0stor_" |}.

Definition iyo_GetJWTToken (namespace : string) : prog G string :=
  CreateJWT namespace {| Jwt.Read := true; Jwt.Write := true; Delete_ := true; Admin := true |}.

Definition iyo_GetLabel (iyo : IYOBasedJWTTokenGetter) (namespace : string) : outcome string :=
  if bool_decide (namespace = EmptyString) then Err (ErrNew "iyoJWTTokenGetter: no/empty namespace given")
  else Ok (prefix iyo +:+ namespace).

(** The text that is parsed is the one after the scheme. *)
Definition iyo_GetExpClaim (tokenStr : string) : outcome (option Z) :=
  parse_exp (TrimSpace (TrimPrefix tokenStr "Bearer")).

Definition iyo_getter (iyo : IYOBasedJWTTokenGetter) : TokenGetter G :=
  {| getter := {| GetJWTToken := iyo_GetJWTToken; GetLabel := iyo_GetLabel iyo |}; GetExpClaim := iyo_GetExpClaim |}.
End IYO.

(** ** The cache *)
Record cachedJWTToken := { Token : string; ExpirationTime : Z }.

Definition jwtTokenCacheMinTTLInSeconds : Z := 30.
Definition DefaultJWTCacheBucketCount : Z := 16.
Definition DefaultJWTCacheBucketSize : Z := 256.

(** [time.Until(t).Seconds() >= jwtTokenCacheMinTTLInSeconds] *)
Definition long_enough (now t : Z) : bool := jwtTokenCacheMinTTLInSeconds * 10 ^ 9 <=? t - now.

Section Cache.
Context {G C : Type} `{LRU C cachedJWTToken} (tg : TokenGetter G).

(** [time.Unix(int64(exp), 0)], in nanoseconds. *)
Definition getExpirationTimeFromJWTToken (token : string) : outcome Z :=
  let! exp := GetExpClaim tg token in
  match exp with
  | None => Err (ErrNew "invalid expiration claim in token")
  | Some exp => Ok (exp * 10 ^ 9)
  end.

(** A token from the service, checked and put into the cache. *)
Definition fetch (now' : Z) (namespace : string) : prog (G * C) string := fun '(g, c) =>
  match GetJWTToken tg namespace g with
  | (Err e, g) => (Err e, (g, c))
  | (Panic p, g) => (Panic p, (g, c))
  | (Ok token, g) =>
      match getExpirationTimeFromJWTToken token with
      | Err e => (Err e, (g, c))
      | Panic p => (Panic p, (g, c))
      | Ok exp =>
          if negb (long_enough now' exp)
          then (Err (ErrNew "retrieved about-to-be expired token from JWTTokenGetter"), (g, c))
          else (Ok token, (g, lru_Add namespace {| Token := token; ExpirationTime := exp |} c))
      end
  end.

(** A call of a bucket, which holds its lock all the time; [now] is when the
    cache is looked at, [now'] when a new token has arrived. *)
Definition bucket_GetJWTToken (now now' : Z) (namespace : string) : prog (G * C) string := fun '(g, c) =>
  let '(v, c) := lru_Get namespace c in
  match v with
  | Some token =>
      if long_enough now (ExpirationTime token) then (Ok (Token token), (g, c))
      else fetch now' namespace (g, lru_Remove namespace c)
  | None => fetch now' namespace (g, c)
  end.

(** [JWTTokenGetterCache]: its buckets. *)
Definition CachedJWTTokenGetter (new_lru : Z -> C) (given : bool) (bucketCount bucketSize : Z) : outcome (list C) :=
  if negb given then Err (ErrNew "CachedJWTTokenGetter: no JWTTokenGetter given")
  else if 2 ^ 32 - 1 <? bucketCount then Err (ErrNew "CachedJWTTokenGetter: invalid bucket count")
  else
    let bucketCount := if bucketCount <=? 0 then DefaultJWTCacheBucketCount else bucketCount in
    let bucketSize := if bucketSize <=? 0 then DefaultJWTCacheBucketSize else bucketSize in
    Ok (replicate (Z.to_nat bucketCount) (new_lru bucketSize)).

Definition cache_GetJWTToken (now now' : Z) (namespace : string) : prog (G * list C) string := fun '(g, buckets) =>
  let index := Z.to_nat (ChecksumIEEE (str_bytes namespace) mod Z.of_nat (length buckets)) in
  match buckets !! index with
  | None => (Panic "index out of range", (g, buckets))
  | Some c => let '(r, (g, c)) := bucket_GetJWTToken now now' namespace (g, c) in (r, (g, <[index := c]> buckets))
  end.

(** ** What the cache promises *)

(** The tokens that the service issues for a namespace. *)
Context (issued : string -> string -> Prop).
Context (Hissued : forall ns g t g', GetJWTToken tg ns g = (Ok t, g') -> issued ns t).

Definition entry_ok (ns : string) (t : cachedJWTToken) : Prop :=
  issued ns (Token t) /\ getExpirationTimeFromJWTToken (Token t) = Ok (ExpirationTime t).

Definition bucket_ok (c : C) : Prop := map_Forall entry_ok (lru_view c).

(** What a call made of the bucket and the service. *)
Definition answered (now : Z) (ns : string) (g : G) (c : C) (r : outcome string) (g' : G) (c' : C) : Prop :=
  bucket_ok c' /\ (g' = g \/ g' = (GetJWTToken tg ns g).2) /\
  match r with
  | Ok t => exists exp, issued ns t /\ getExpirationTimeFromJWTToken t = Ok exp /\ long_enough now exp = true /\
      lru_view c' !! ns = Some {| Token := t; ExpirationTime := exp |}
  | Err _ => g' = (GetJWTToken tg ns g).2
  | Panic p => (exists g1, GetJWTToken tg ns g = (Panic p, g1)) \/ exists t, getExpirationTimeFromJWTToken t = Panic p
  end.

Lemma long_enough_mono now now' t : now <= now' -> long_enough now' t = true -> long_enough now t = true.
Proof using. unfold long_enough. rewrite !Z.leb_le. lia. Qed.

Lemma fetch_spec now now' ns g c r g' c' :
  now <= now' -> bucket_ok c -> fetch now' ns (g, c) = (r, (g', c')) -> answered now ns g c r g' c'.
Proof using Hissued.
  intros Hnow Hc. unfold fetch, answered. destruct (GetJWTToken tg ns g) as [[t|e|p] g1] eqn:Hg; cycle 1.
  { intros [= <- <- <-]. split_and!; [done|by right|done]. }
  { intros [= <- <- <-]. split_and!; [done|by right|]. left. by exists g1. }
  destruct (getExpirationTimeFromJWTToken t) as [exp|e|p] eqn:He; cycle 1.
  { intros [= <- <- <-]. split_and!; [done|by right|done]. }
  { intros [= <- <- <-]. split_and!; [done|by right|]. right. by exists t. }
  destruct (long_enough now' exp) eqn:Hl; cbn [negb]; intros [= <- <- <-]; [|split_and!; [done|by right|done]].
  set (v := {| Token := t; ExpirationTime := exp |}). destruct (lru_add_law ns v c) as [Hin Hsub]. split_and!.
  - intros k x Hx. eapply lookup_weaken in Hx; [|exact Hsub].
    apply lookup_insert_Some in Hx as [[<- <-]|[_ Hx]]; [|by apply Hc]. split; [by eapply Hissued|done].
  - by right.
  - exists exp. split_and!; [by eapply Hissued|done|by eapply long_enough_mono|done].
Qed.

Lemma bucket_spec now now' ns g c r g' c' :
  now <= now' -> bucket_ok c -> bucket_GetJWTToken now now' ns (g, c) = (r, (g', c')) -> answered now ns g c r g' c'.
Proof using Hissued.
  intros Hnow Hc. unfold bucket_GetJWTToken. destruct (lru_get_law ns c) as [Hv Hw].
  destruct (lru_Get ns c) as [v c1]. cbn [fst snd] in Hv, Hw. subst v.
  assert (Hc1 : bucket_ok c1) by (unfold bucket_ok; by rewrite Hw).
  destruct (lru_view c !! ns) as [t|] eqn:Ht; [|by apply fetch_spec].
  destruct (long_enough now (ExpirationTime t)) eqn:Hl.
  - intros [= <- <- <-]. destruct (Hc ns t Ht) as [Hi He]. unfold answered. split_and!; [done|by left|].
    exists (ExpirationTime t). split_and!; [done|done|done|]. rewrite Hw, Ht. by destruct t.
  - apply fetch_spec; [done|]. unfold bucket_ok. rewrite lru_remove_law, Hw. by apply map_Forall_delete.
Qed.

(** A token that is in the bucket and lives long enough is returned as it is. *)
Lemma bucket_hit now now' ns g c t :
  lru_view c !! ns = Some t -> long_enough now (ExpirationTime t) = true ->
  exists c', bucket_GetJWTToken now now' ns (g, c) = (Ok (Token t), (g, c')) /\ lru_view c' = lru_view c.
Proof using.
  intros Ht Hl. unfold bucket_GetJWTToken. destruct (lru_get_law ns c) as [Hv Hw].
  destruct (lru_Get ns c) as [v c1]. cbn [fst snd] in Hv, Hw. subst v. rewrite Ht, Hl. by exists c1.
Qed.

Lemma bucket_index (buckets : list C) ns : buckets <> [] ->
  is_Some (buckets !! Z.to_nat (ChecksumIEEE (str_bytes ns) mod Z.of_nat (length buckets))).
Proof using.
  intros Hne. assert (0 < length buckets)%nat by (destruct buckets; [done|cbn; lia]). apply lookup_lt_is_Some.
  pose proof (Z.mod_pos_bound (ChecksumIEEE (str_bytes ns)) (Z.of_nat (length buckets)) ltac:(lia)). lia.
Qed.

(** C24. Cached tokens are as good as new ones: a token that the cache returns was
    issued for the namespace that was asked for and is valid for at least thirty
    more seconds; the service is asked at most once; every bucket index is
    valid.  Asking again while the token has thirty seconds left returns the same
    token without asking the service. *)
Theorem cached_token_valid (now now' : Z) (ns : string) (g : G) (buckets : list C) (r : outcome string) (g' : G) (buckets' : list C) :
  now <= now' -> buckets <> [] -> Forall bucket_ok buckets ->
  cache_GetJWTToken now now' ns (g, buckets) = (r, (g', buckets')) ->
  Forall bucket_ok buckets' /\ length buckets' = length buckets /\ (g' = g \/ g' = (GetJWTToken tg ns g).2) /\
  match r with
  | Ok t => exists exp, issued ns t /\ getExpirationTimeFromJWTToken t = Ok exp /\ 30 * 10 ^ 9 <= exp - now /\
      forall now2 now3 g2, 30 * 10 ^ 9 <= exp - now2 ->
        exists b2, cache_GetJWTToken now2 now3 ns (g2, buckets') = (Ok t, (g2, b2))
  | Err _ => g' = (GetJWTToken tg ns g).2
  | Panic p => (exists g1, GetJWTToken tg ns g = (Panic p, g1)) \/ exists t, getExpirationTimeFromJWTToken t = Panic p
  end.
Proof using Hissued.
  intros Hnow Hne Hall. unfold cache_GetJWTToken at 1. set (i := Z.to_nat _).
  destruct (bucket_index buckets ns Hne) as [c Hc]. fold i in Hc. rewrite Hc.
  destruct (bucket_GetJWTToken now now' ns (g, c)) as [r1 [g1 c1]] eqn:Hb. intros [= <- <- <-].
  apply bucket_spec in Hb as (Hok & Hg & Hr); [|done|by eapply Forall_lookup_1].
  split_and!; [by apply Forall_insert|by apply length_insert|done|].
  destruct r1 as [t|e|p]; [|done|done]. destruct Hr as (exp & Hi & He & Hl & Hin). exists exp.
  split_and!; [done|done|by apply Z.leb_le in Hl|]. intros now2 now3 g2 Hexp. unfold cache_GetJWTToken.
  rewrite length_insert. fold i. rewrite list_lookup_insert_eq by by eapply lookup_lt_Some.
  destruct (bucket_hit now2 now3 ns g2 c1 _ Hin) as (c2 & -> & _); [by apply Z.leb_le|]. by eexists.
Qed.
End Cache.

(** ** A cache that keeps two entries per bucket *)
Definition small_lru : Type := gmap string cachedJWTToken.
Definition empty_lru : small_lru := (∅ : gmap string cachedJWTToken).

#[local] Instance small_lru_ops : LRU small_lru cachedJWTToken.
Proof.
  refine {| lru_Get k c := (c !! k, c); lru_Remove k c := delete k c; lru_view c := c;
            lru_Add k v c := if (size c <? 2)%nat then <[k := v]> c else {[k := v]} |}.
  - done.
  - intros k v c. destruct (_ <? _)%nat; [split; [apply lookup_insert_eq|done]|]. split; [apply lookup_singleton_eq|].
    apply map_singleton_subseteq_l. apply lookup_insert_eq.
  - done.
Defined.

(** A service that counts its calls. *)
Definition counting_service : TokenGetter nat :=
  {| getter := {| GetJWTToken ns := fun n => (Ok (ns +:+ "-token"), S n); GetLabel := Ok |}; GetExpClaim _ := Ok (Some 100) |}.

Lemma cached_token_valid_witness :
  let r := cache_GetJWTToken counting_service 0 1 "ns" (0%nat, [empty_lru; empty_lru]) in
  r.1 = Ok "ns-token"%string /\ r.2.1 = 1%nat /\
  exists b, cache_GetJWTToken counting_service (69 * 10 ^ 9) (70 * 10 ^ 9) "ns" r.2 = (Ok "ns-token"%string, (1%nat, b)).
Proof.
  cbv zeta. split; [vm_compute; reflexivity|]. split; [vm_compute; reflexivity|].
  destruct (cached_token_valid counting_service (fun ns t => t = ns +:+ "-token") ltac:(intros ns g t g' [= <- _]; reflexivity)
    0 1 "ns" 0%nat ([empty_lru; empty_lru]) (Ok "ns-token"%string) 1%nat
    (cache_GetJWTToken counting_service 0 1 "ns" (0%nat, [empty_lru; empty_lru])).2.2) as (_ & _ & _ & exp & _ & He & _ & Hagain).
  - lia.
  - done.
  - constructor; [exact (map_Forall_empty _)|constructor; [exact (map_Forall_empty _)|constructor]].
  - vm_compute. reflexivity.
  - injection He as <-. destruct (Hagain (69 * 10 ^ 9) (70 * 10 ^ 9) 1%nat ltac:(lia)) as [b Hb]. exists b.
    etrans; [|exact Hb]. f_equal.
Defined.
