(* ===== verification/Iyo.v ===== *)
(** * The itsyou.online client and the namespace service of the daemon

    [client/itsyouonline/itsyouonline.go] and
    [daemon/api/grpc/namespace_api.go].  The API client of the identity service
    is a parameter ([Identity]): every call returns a response, which is nil when
    the service could not be reached, and maybe an error.  [IdentityLaws] states
    what its membership calls do while the service answers: a user who is added
    to an organization is invited, and becomes a member by accepting.  The
    permission operations are proved against it. *)

From stdpp Require Import pretty.
From S2P Require Import Prelude GoStrings Jwt.
Local Open Scope string_scope.

(** ** The identity service *)
(** A response is given by its status code. *)
Definition response := option Z.

Class Identity (G : Type) := {
  LoginWithClientCredentials : string -> string -> G -> option error * G;
  CreateNewSubOrganization : string -> string -> G -> (response * option error) * G;
  CreateNewOrganization : string -> G -> (response * option error) * G;
  GetOrganization : string -> G -> (response * option error) * G;
  DeleteOrganization : string -> G -> (response * option error) * G;
  AddOrganizationMember : string -> string -> G -> (response * option error) * G;
  RemoveOrganizationMember : string -> string -> G -> (response * option error) * G;
  GetOrganizationUsers : string -> G -> (list string * response * option error) * G;
  (** The response and what reading its body gives. *)
  PostAccessToken : list (string * string) -> G -> outcome (Z * outcome string) * G;
  (** [resp.Status] of a response with the code. *)
  Status : Z -> string;
}.

Definition newline : string := String (Ascii.ascii_of_nat 10) EmptyString.

Definition StatusOK : Z := 200.
Definition StatusCreated : Z := 201.
Definition StatusForbidden : Z := 403.
Definition StatusConflict : Z := 409.

Definition errNoPermission := ErrVar "itsyouonline" "errNoPermission" "no permission".
Definition ErrForbidden := ErrVar "itsyouonline" "ErrForbidden" "forbidden action".

Record Config := { Organization : string; ApplicationID : string; ApplicationSecret : string }.

Definition NewClient (cfg : Config) : outcome Config :=
  if bool_decide (Organization cfg = "") then Err (ErrNew "IYO: organization not defined")
  else if bool_decide (ApplicationID cfg = "") then Err (ErrNew "IYO: application ID not defined")
  else if bool_decide (ApplicationSecret cfg = "") then Err (ErrNew "IYO: application Secret not defined")
  else Ok cfg.

(** [*statusError]: nil, or an error with the status code of the response. *)
Record statusError := { se_Err : error; se_StatusCode : Z }.

Definition statusError_error (se : statusError) : error :=
  ErrNew ("error response " +:+ pretty (se_StatusCode se) +:+ ": " +:+ error_text (se_Err se)).

(** [resp.StatusCode] *)
Definition StatusCode {G} (resp : response) : prog G Z :=
  plift match resp with Some code => Ok code | None => Panic "invalid memory address or nil pointer dereference" end.

Section Client.
Context `{Identity G} (c : Config).

Definition login : prog G unit := fun g =>
  match LoginWithClientCredentials (ApplicationID c) (ApplicationSecret c) g with
  | (None, g) => (Ok tt, g)
  | (Some e, g) => (Err (ErrNew ("login failed:" +:+ error_text e)), g)
  end.

Definition createNamespaceID (namespace : string) : string := Organization c +:+ "." +:+ "0stor" +:+ "." +:+ namespace.

(** The scopes of the permission as one parameter of the query. *)
Definition CreateJWT (namespace : string) (perm : Permission) : prog G string :=
  match Scopes perm (Organization c) ("0stor" +:+ "." +:+ namespace) with
  | [] => pfail errNoPermission
  | scopes => fun g =>
      match PostAccessToken [("grant_type", "client_credentials"); ("client_id", ApplicationID c);
          ("client_secret", ApplicationSecret c); ("validity", "300"); ("scope", Join scopes ",")] g with
      | (Err e, g) => (Err e, g)
      | (Panic p, g) => (Panic p, g)
      | (Ok (code, body), g) =>
          if (code =? StatusOK)%Z then (body, g)
          else (Err (ErrNew ("failed to get access token, response code = " +:+ pretty code)), g)
      end
  end.

Definition createSubOrganization (org suborg : string) : prog G (option statusError) := fun g =>
  let body := org +:+ "." +:+ suborg in
  match CreateNewSubOrganization org body g with
  | ((_, None), g) => (Ok None, g)
  | ((resp, Some e), g) =>
      (do! code := StatusCode resp in
       let e := if (code =? StatusConflict)%Z
                then ErrNew ("sub organization " +:+ body +:+ " exists: " +:+ error_text e) else e in
       pret (Some {| se_Err := e; se_StatusCode := code |})) g
  end.

(** A status error ends the operation. *)
Definition create_or_fail (org suborg : string) : prog G unit :=
  do! statusErr := createSubOrganization org suborg in
  match statusErr with Some se => pfail (statusError_error se) | None => pret tt end.

Fixpoint create_all (org : string) (suborgs : list string) : prog G unit :=
  match suborgs with
  | [] => pret tt
  | p :: rest => do! _ := create_or_fail org p in create_all org rest
  end.

(** The organization itself might be missing. *)
Definition create_organization (statusErr : statusError) : prog G unit := fun g =>
  match GetOrganization (Organization c) g with
  | ((_, None), g) => (Err (statusError_error statusErr), g)
  | ((resp, Some e), g) =>
      (do! code := StatusCode resp in
       if negb (code =? StatusForbidden)%Z
       then pfail (ErrNew ("GetOrganization failed code=" +:+ pretty code +:+ ", err=" +:+ error_text e))
       else fun g =>
         match CreateNewOrganization (Organization c) g with
         | ((resp, Some e), g) =>
             (do! code := StatusCode resp in
              if negb (code =? StatusConflict)%Z
              then pfail (ErrNew ("failed to create new organization code=" +:+ pretty code +:+ ", err=" +:+ error_text e))
              else create_or_fail (Organization c) "0stor") g
         | ((_, None), g) => create_or_fail (Organization c) "0stor" g
         end) g
  end.

(** The inner half of [CreateNamespace]. *)
Definition create_permissions (namespace : string) : prog G unit :=
  let org := Organization c +:+ ".0stor" in
  do! _ := create_or_fail org namespace in
  create_all (org +:+ "." +:+ namespace) (perms {| Read := true; Write := true; Delete_ := true; Admin := false |}).

(** A status other than conflict and forbidden returns the error of the login,
    which is nil. *)
Definition CreateNamespace (namespace : string) : prog G unit :=
  do! _ := login in
  do! statusErr := createSubOrganization (Organization c) "0stor" in
  match statusErr with
  | Some se =>
      if (se_StatusCode se =? StatusConflict)%Z then create_permissions namespace
      else if negb (se_StatusCode se =? StatusForbidden)%Z then pret tt
      else do! _ := create_organization se in create_permissions namespace
  | None => create_permissions namespace
  end.

Definition DeleteNamespace (namespace : string) : prog G unit :=
  do! _ := login in
  fun g =>
    match DeleteOrganization (createNamespaceID namespace) g with
    | ((resp, Some e), g) =>
        (do! code := StatusCode resp in
         pfail (ErrNew ("deleting namespace failed: IYO returned status " +:+ Status code +:+ " " +:+ newline +:+ "with error message: " +:+ error_text e))) g
    | ((resp, None), g) => (do! code := StatusCode resp in if (code =? StatusForbidden)%Z then pfail ErrForbidden else pret tt) g
    end.

(** The organization whose members have the permission. *)
Definition perm_org (namespace perm : string) : string :=
  if bool_decide (perm = "admin") then createNamespaceID namespace
  else createNamespaceID namespace +:+ "." +:+ perm.

Fixpoint give_all (namespace userID : string) (ps : list string) : prog G unit :=
  match ps with
  | [] => pret tt
  | p :: rest => fun g =>
      match AddOrganizationMember (perm_org namespace p) userID g with
      | ((resp, Some e), g) =>
          (do! code := StatusCode resp in
           pfail (ErrNew ("give member permission failed: code=" +:+ pretty code +:+ ", err=" +:+ error_text e))) g
      | ((resp, None), g) =>
          (do! code := StatusCode resp in
           if negb (code =? StatusCreated)%Z then pfail (ErrNew ("give member permission failed: code=" +:+ pretty code))
           else give_all namespace userID rest) g
      end
  end.

Definition GivePermission (namespace userID : string) (perm : Permission) : prog G unit :=
  do! _ := login in give_all namespace userID (perms perm).

Fixpoint remove_all (namespace userID : string) (ps : list string) : prog G unit :=
  match ps with
  | [] => pret tt
  | p :: rest => fun g =>
      match RemoveOrganizationMember userID (perm_org namespace p) g with
      | ((resp, Some e), g) =>
          (do! code := StatusCode resp in
           pfail (ErrNew ("removing permission failed: IYO returned status " +:+ Status code +:+ " " +:+ newline +:+ "with error message: " +:+ error_text e))) g
      | ((_, None), g) => remove_all namespace userID rest g
      end
  end.

Definition RemovePermission (namespace userID : string) (perm : Permission) : prog G unit :=
  do! _ := login in remove_all namespace userID (perms perm).

Definition isMember (target : string) (list : list string) : bool := existsb (fun v => bool_decide (target = v)) list.

(** Whether the user is a member of the organization of one permission. *)
Definition has_permission (namespace userID perm : string) : prog G bool := fun g =>
  match GetOrganizationUsers (perm_org namespace perm) g with
  | ((_, _, Some e), g) => (Err (ErrNew ("Failed to retrieve user permission: " +:+ error_text e)), g)
  | ((users, resp, None), g) =>
      (do! code := StatusCode resp in
       if negb (code =? StatusOK)%Z
       then pfail (ErrNew ("Failed to retrieve user permission : IYO returned status " +:+ Status code))
       else pret (isMember userID users)) g
  end.

Definition GetPermission (namespace userID : string) : prog G Permission :=
  do! _ := login in
  do! r := has_permission namespace userID "read" in
  do! w := has_permission namespace userID "write" in
  do! d := has_permission namespace userID "delete" in
  do! a := has_permission namespace userID "admin" in
  pret {| Read := r; Write := w; Delete_ := d; Admin := a |}.

(** ** The namespace service of the daemon *)
Definition computePermissionsToRemove (current toRemove : Permission) : Permission :=
  {| Read := Read current && negb (Read toRemove); Write := Write current && negb (Write toRemove);
     Delete_ := Delete_ current && negb (Delete_ toRemove); Admin := Admin current && negb (Admin toRemove) |}.

Definition computePermissionsToGive (current toGive : Permission) : Permission :=
  {| Read := negb (Read current) && Read toGive; Write := negb (Write current) && Write toGive;
     Delete_ := negb (Delete_ current) && Delete_ toGive; Admin := negb (Admin current) && Admin toGive |}.

Definition iyo_SetPermission (namespace userID : string) (perm : Permission) : prog G unit :=
  let failed what e := ErrNew (what +:+ " permission(s) for " +:+ userID +:+ ":" +:+ namespace +:+ ": " +:+ error_text e) in
  do! currentPermissions := on_err (failed "failed to retrieve") (GetPermission namespace userID) in
  do! _ := on_err (failed "failed to remove")
             (RemovePermission namespace userID (computePermissionsToRemove currentPermissions perm)) in
  on_err (failed "fail to give") (GivePermission namespace userID (computePermissionsToGive currentPermissions perm)).

End Client.

Definition ErrGRPCNilNamespace := ErrStatus 3 "daemon: namespace is not provided".
Definition ErrGRPCNilUserID := ErrStatus 3 "daemon: userID is not provided".
Definition ErrGRPCNilPermissions := ErrStatus 3 "daemon: permissions are not provided".
Definition ErrGRPCNotSupported := ErrStatus 12 "daemon: method not supported".

(** [namespaceClient] *)
Record namespaceClient (G : Type) := {
  nc_CreateNamespace : string -> prog G unit;
  nc_DeleteNamespace : string -> prog G unit;
  nc_SetPermission : string -> string -> Permission -> prog G unit;
  nc_GetPermission : string -> string -> prog G Permission;
}.
Arguments nc_CreateNamespace {G}.
Arguments nc_DeleteNamespace {G}.
Arguments nc_SetPermission {G}.
Arguments nc_GetPermission {G}.

Definition nilIYOClient {G} : namespaceClient G := {|
  nc_CreateNamespace _ := pfail ErrGRPCNotSupported;
  nc_DeleteNamespace _ := pfail ErrGRPCNotSupported;
  nc_SetPermission _ _ _ := pfail ErrGRPCNotSupported;
  nc_GetPermission _ _ := pfail ErrGRPCNotSupported;
|}.

Definition iyoClient `{Identity G} (c : Config) : namespaceClient G := {|
  nc_CreateNamespace := CreateNamespace c;
  nc_DeleteNamespace := DeleteNamespace c;
  nc_SetPermission := iyo_SetPermission c;
  nc_GetPermission := GetPermission c;
|}.

Definition namespaceClientFromIYOClient `{Identity G} (client : option Config) : namespaceClient G :=
  match client with None => nilIYOClient | Some c => iyoClient c end.

Section NamespaceService.
Context {G : Type} (client : namespaceClient G).

Definition svc_CreateNamespace (namespace : string) : prog G unit :=
  if bool_decide (namespace = "") then pfail ErrGRPCNilNamespace else nc_CreateNamespace client namespace.

Definition svc_DeleteNamespace (namespace : string) : prog G unit :=
  if bool_decide (namespace = "") then pfail ErrGRPCNilNamespace else nc_DeleteNamespace client namespace.

Definition svc_SetPermission (namespace userID : string) (perm : option Permission) : prog G unit :=
  if bool_decide (namespace = "") then pfail ErrGRPCNilNamespace
  else if bool_decide (userID = "") then pfail ErrGRPCNilUserID
  else match perm with
  | None => pfail ErrGRPCNilPermissions
  | Some p => nc_SetPermission client namespace userID p
  end.

Definition svc_GetPermission (namespace userID : string) : prog G Permission :=
  if bool_decide (namespace = "") then pfail ErrGRPCNilNamespace
  else if bool_decide (userID = "") then pfail ErrGRPCNilUserID
  else nc_GetPermission client namespace userID.
End NamespaceService.

(** ** What the service promises while it answers *)

(** [members] and [invited] are the users that belong to an organization and
    those with an invitation that is pending; [accept o u] is what the service
    does when [u] accepts the one of [o]. *)
Class IdentityLaws (G : Type) `{Identity G} := {
  answers : G -> Prop;
  members : G -> string -> gset string;
  invited : G -> string -> gset string;
  accept : string -> string -> G -> G;
  login_law id secret g : answers g -> exists g', LoginWithClientCredentials id secret g = (None, g') /\
    answers g' /\ (forall o, members g' o = members g o) /\ (forall o, invited g' o = invited g o);
  add_law o u g : answers g -> u ∉ members g o -> u ∉ invited g o ->
    exists g', AddOrganizationMember o u g = ((Some StatusCreated, None), g') /\ answers g' /\ (forall o', members g' o' = members g o') /\
    (forall o', invited g' o' = if decide (o = o') then {[u]} ∪ invited g o' else invited g o');
  remove_law o u g : answers g -> exists code g', RemoveOrganizationMember u o g = ((Some code, None), g') /\ answers g' /\
    (forall o', members g' o' = if decide (o = o') then members g o' ∖ {[u]} else members g o') /\ (forall o', invited g' o' = invited g o');
  users_law o g : answers g -> exists users g', GetOrganizationUsers o g = ((users, Some StatusOK, None), g') /\
    answers g' /\ (forall o', members g' o' = members g o') /\ (forall o', invited g' o' = invited g o') /\
    (forall u, u ∈ users <-> u ∈ members g o);
  accept_law o u g : answers g -> u ∈ invited g o -> answers (accept o u g) /\
    (forall o', members (accept o u g) o' = if decide (o = o') then {[u]} ∪ members g o' else members g o') /\
    (forall o', invited (accept o u g) o' = if decide (o = o') then invited g o' ∖ {[u]} else invited g o');
}.

Section Permissions.
Context `{IdentityLaws G} (c : Config).

Lemma str_app_nil s : s +:+ "" = s.
Proof using. induction s as [|a s IH]; [done|]. change (String a (s +:+ "") = String a s). by rewrite IH. Qed.

Lemma perm_org_suffix ns p :
  perm_org c ns p = createNamespaceID c ns +:+ (if bool_decide (p = "admin") then "" else "." +:+ p).
Proof using. unfold perm_org. case_bool_decide; [by rewrite str_app_nil|done]. Qed.

Definition is_perm (p : string) : Prop := p ∈ ["read"; "write"; "delete"; "admin"].

Lemma perm_org_inj ns p q : is_perm p -> is_perm q -> perm_org c ns p = perm_org c ns q -> p = q.
Proof using.
  intros Hp Hq. rewrite !perm_org_suffix. intros E. apply (inj (String.append _)) in E.
  unfold is_perm in *. rewrite !elem_of_cons, elem_of_nil in *. intuition (subst; try done; vm_compute in E; done).
Qed.

(** The permission that the memberships of a user amount to. *)
Definition held (g : G) (ns u : string) : Permission :=
  {| Read := bool_decide (u ∈ members g (perm_org c ns "read")); Write := bool_decide (u ∈ members g (perm_org c ns "write"));
     Delete_ := bool_decide (u ∈ members g (perm_org c ns "delete")); Admin := bool_decide (u ∈ members g (perm_org c ns "admin")) |}.

Lemma isMember_spec u l : isMember u l = bool_decide (u ∈ l).
Proof using.
  unfold isMember. induction l as [|v l IH]; cbn; [done|]. rewrite IH. apply eq_bool_prop_intro.
  rewrite orb_True, !bool_decide_spec, elem_of_cons. naive_solver.
Qed.

(** Nothing that the service keeps has changed. *)
Definition same (g g' : G) : Prop := (forall o, members g' o = members g o) /\ (forall o, invited g' o = invited g o).

#[local] Instance same_preorder : PreOrder same.
Proof using. split; [by split|]. intros g1 g2 g3 [M1 I1] [M2 I2]. split; intros o; by rewrite ?M2, ?I2, ?M1, ?I1. Qed.

Lemma has_permission_ok ns u p g :
  answers g -> exists g', has_permission c ns u p g = (Ok (bool_decide (u ∈ members g (perm_org c ns p))), g') /\ answers g' /\ same g g'.
Proof using.
  intros Hg. destruct (users_law (perm_org c ns p) g Hg) as (users & g' & E & Hg' & Hm & Hi & Hu). exists g'.
  unfold has_permission. rewrite E. split_and!; [|done|done]. cbn. rewrite isMember_spec. by rewrite (bool_decide_ext _ _ (Hu u)).
Qed.

Lemma login_ok g : answers g -> exists g', login c g = (Ok tt, g') /\ answers g' /\ same g g'.
Proof using.
  intros Hg. destruct (login_law (ApplicationID c) (ApplicationSecret c) g Hg) as (g' & E & Hg' & Hm).
  exists g'. unfold login. by rewrite E.
Qed.

Lemma GetPermission_ok ns u g :
  answers g -> exists g', GetPermission c ns u g = (Ok (held g ns u), g') /\ answers g' /\ same g g'.
Proof using.
  intros Hg. unfold GetPermission. destruct (login_ok g Hg) as (g0 & E0 & Hg0 & S0). rewrite (pbind_Ok _ _ _ _ _ E0).
  destruct (has_permission_ok ns u "read" g0 Hg0) as (g1 & E1 & Hg1 & S1). rewrite (pbind_Ok _ _ _ _ _ E1).
  destruct (has_permission_ok ns u "write" g1 Hg1) as (g2 & E2 & Hg2 & S2). rewrite (pbind_Ok _ _ _ _ _ E2).
  destruct (has_permission_ok ns u "delete" g2 Hg2) as (g3 & E3 & Hg3 & S3). rewrite (pbind_Ok _ _ _ _ _ E3).
  destruct (has_permission_ok ns u "admin" g3 Hg3) as (g4 & E4 & Hg4 & S4). rewrite (pbind_Ok _ _ _ _ _ E4).
  exists g4. split_and!; [|done|by do 4 (etrans; [eassumption|])]. unfold held, pret.
  by rewrite !(proj1 S3), !(proj1 S2), !(proj1 S1), !(proj1 S0).
Qed.

Lemma give_all_ok ns u ps g :
  answers g -> NoDup ps -> Forall is_perm ps ->
  (forall p, p ∈ ps -> (u ∉ members g (perm_org c ns p)) /\ (u ∉ invited g (perm_org c ns p))) ->
  exists g', give_all c ns u ps g = (Ok tt, g') /\ answers g' /\ (forall o, members g' o = members g o) /\
    (forall o, invited g' o = if decide (o ∈ perm_org c ns <$> ps) then {[u]} ∪ invited g o else invited g o).
Proof using.
  revert g. induction ps as [|p ps IH]; intros g Hg Hnd Hps Hfree; cbn [give_all].
  { exists g. split_and!; [done..|]. intros o. rewrite decide_False; [done|]. apply not_elem_of_nil. }
  apply NoDup_cons in Hnd as [Hp Hnd]. apply Forall_cons in Hps as [Hpp Hps].
  destruct (Hfree p) as [Hm Hi]; [apply list_elem_of_here|].
  destruct (add_law (perm_org c ns p) u g Hg Hm Hi) as (g1 & -> & Hg1 & M1 & I1). cbn [StatusCode plift pbind Z.eqb negb StatusCreated Pos.eqb].
  destruct (IH g1 Hg1 Hnd Hps) as (g2 & E2 & Hg2 & M2 & I2).
  { intros q Hq. rewrite M1, I1. destruct (Hfree q) as [Hmq Hiq]; [by apply list_elem_of_further|]. split; [done|].
    rewrite decide_False; [done|]. intros E. apply perm_org_inj in E as ->; [done|done|]. by eapply Forall_forall. }
  exists g2. split_and!; [exact E2|done|intros o; by rewrite M2, M1|].
  intros o. rewrite I2, I1. cbn. destruct (decide (perm_org c ns p = o)) as [<-|Hne].
  - rewrite (decide_True (P := perm_org c ns p ∈ _ :: _)) by set_solver. case_decide; [set_solver|done].
  - destruct (decide (o ∈ perm_org c ns <$> ps)) as [Hin|Hnin]; [by rewrite decide_True by set_solver|].
    rewrite decide_False; [done|]. set_solver.
Qed.

Lemma remove_all_ok ns u ps g :
  answers g -> exists g', remove_all c ns u ps g = (Ok tt, g') /\ answers g' /\
    (forall o, members g' o = if decide (o ∈ perm_org c ns <$> ps) then members g o ∖ {[u]} else members g o) /\
    (forall o, invited g' o = invited g o).
Proof using.
  revert g. induction ps as [|p ps IH]; intros g Hg; cbn [remove_all].
  { exists g. split_and!; [done|done| |done]. intros o. rewrite decide_False; [done|]. apply not_elem_of_nil. }
  destruct (remove_law (perm_org c ns p) u g Hg) as (code & g1 & -> & Hg1 & M1 & I1).
  destruct (IH g1 Hg1) as (g2 & E2 & Hg2 & M2 & I2). exists g2. split_and!; [exact E2|done| |intros o; by rewrite I2, I1].
  intros o. rewrite M2, M1. cbn. destruct (decide (perm_org c ns p = o)) as [<-|Hne].
  - rewrite (decide_True (P := perm_org c ns p ∈ _ :: _)) by set_solver. case_decide; [set_solver|done].
  - destruct (decide (o ∈ perm_org c ns <$> ps)) as [Hin|Hnin]; [by rewrite decide_True by set_solver|].
    rewrite decide_False; [done|]. set_solver.
Qed.

(** Which organizations the operations of a permission concern. *)
Definition flag (p : Permission) (name : string) : bool :=
  if bool_decide (name = "read") then Read p else if bool_decide (name = "write") then Write p
  else if bool_decide (name = "delete") then Delete_ p else if bool_decide (name = "admin") then Admin p else false.

Lemma elem_of_perms p name : name ∈ perms p <-> is_perm name /\ flag p name = true.
Proof using.
  destruct p as [r w d a]. unfold is_perm, flag, perms. cbn [Read Write Delete_ Admin].
  rewrite !elem_of_app, !elem_of_cons, elem_of_nil. split.
  - intros [Hin|[Hin|[Hin|Hin]]]; destruct r, w, d, a; cbn in Hin;
      first [by apply elem_of_nil in Hin | apply list_elem_of_singleton in Hin as ->; split; [tauto|reflexivity]].
  - intros [[->|[->|[->|[->|[]]]]] Hf]; cbn in Hf; subst; cbn; set_solver.
Qed.

Lemma elem_of_perm_orgs ns p name :
  is_perm name -> perm_org c ns name ∈ perm_org c ns <$> perms p <-> flag p name = true.
Proof using.
  intros Hn. rewrite list_elem_of_fmap. split.
  - intros (q & E & Hq). apply elem_of_perms in Hq as [Hq Hf]. apply perm_org_inj in E as ->; done.
  - intros Hf. exists name. split; [done|]. by apply elem_of_perms.
Qed.

Lemma held_flags g ns u p :
  (forall name, is_perm name -> (u ∈ members g (perm_org c ns name)) <-> flag p name = true) -> held g ns u = p.
Proof using.
  intros Hf. destruct p as [r w d a]. unfold held.
  assert (Hb : forall name b, is_perm name -> flag {| Read := r; Write := w; Delete_ := d; Admin := a |} name = b ->
            bool_decide (u ∈ members g (perm_org c ns name)) = b).
  { intros name b Hn <-. apply eq_bool_prop_intro. rewrite bool_decide_spec, (Hf name Hn), Is_true_true. done. }
  f_equal; apply Hb; unfold is_perm; try set_solver; done.
Qed.

Lemma flag_held g ns u name : is_perm name -> flag (held g ns u) name = true <-> u ∈ members g (perm_org c ns name).
Proof using.
  unfold is_perm. rewrite !elem_of_cons, elem_of_nil.
  intros [->|[->|[->|[->|[]]]]].
  - exact (bool_decide_eq_true (u ∈ members g (perm_org c ns "read"))).
  - exact (bool_decide_eq_true (u ∈ members g (perm_org c ns "write"))).
  - exact (bool_decide_eq_true (u ∈ members g (perm_org c ns "delete"))).
  - exact (bool_decide_eq_true (u ∈ members g (perm_org c ns "admin"))).
Qed.

Lemma flag_remove cur p name : flag (computePermissionsToRemove cur p) name = flag cur name && negb (flag p name).
Proof using. unfold flag, computePermissionsToRemove. cbn. repeat case_bool_decide; done. Qed.

Lemma flag_give cur p name : flag (computePermissionsToGive cur p) name = negb (flag cur name) && flag p name.
Proof using. unfold flag, computePermissionsToGive. cbn. repeat case_bool_decide; done. Qed.

Lemma NoDup_perms p : NoDup (perms p).
Proof using. destruct p as [[] [] [] []]; apply (bool_decide_unpack _); vm_compute; exact I. Qed.

Lemma perms_are_perms p : Forall is_perm (perms p).
Proof using. apply Forall_forall. intros name Hn. by apply elem_of_perms in Hn as [Hn _]. Qed.

(** What a request to set a permission does: memberships that are not asked for
    end, and for those that are missing there is an invitation. *)
Lemma SetPermission_ok ns u p g :
  answers g -> (forall name, is_perm name -> flag (computePermissionsToGive (held g ns u) p) name = true -> u ∉ invited g (perm_org c ns name)) ->
  exists g', iyo_SetPermission c ns u p g = (Ok tt, g') /\ answers g' /\
    (forall o, members g' o = if decide (o ∈ perm_org c ns <$> perms (computePermissionsToRemove (held g ns u) p))
                              then members g o ∖ {[u]} else members g o) /\
    (forall o, invited g' o = if decide (o ∈ perm_org c ns <$> perms (computePermissionsToGive (held g ns u) p))
                              then {[u]} ∪ invited g o else invited g o).
Proof using.
  intros Hg Hfree. destruct (GetPermission_ok ns u g Hg) as (g1 & E1 & Hg1 & [M1 I1]). set (cur := held g ns u) in *.
  destruct (login_ok g1 Hg1) as (g2 & E2 & Hg2 & [M2 I2]).
  destruct (remove_all_ok ns u (perms (computePermissionsToRemove cur p)) g2 Hg2) as (g3 & E3 & Hg3 & M3 & I3).
  destruct (login_ok g3 Hg3) as (g4 & E4 & Hg4 & [M4 I4]).
  destruct (give_all_ok ns u (perms (computePermissionsToGive cur p)) g4 Hg4 (NoDup_perms _) (perms_are_perms _)) as (g5 & E5 & Hg5 & M5 & I5).
  { intros name [Hn Hf]%elem_of_perms. rewrite I4, I3, I2, I1. split; [|by apply Hfree].
    rewrite flag_give in Hf. apply andb_true_iff in Hf as [Hf _]. apply negb_true_iff in Hf.
    pose proof (flag_held g ns u name Hn) as Hc. fold cur in Hc. rewrite M4, M3, M2, M1. intros Hin.
    assert (u ∈ members g (perm_org c ns name)) by (revert Hin; case_decide; set_solver). apply Hc in H1. congruence. }
  exists g5. split_and!; [|done|intros o; by rewrite M5, M4, M3, M2, M1|intros o; by rewrite I5, I4, I3, I2, I1].
  unfold iyo_SetPermission, on_err, RemovePermission, GivePermission, pbind. by rewrite E1, E2, E3, E4, E5.
Qed.

(** The user accepts the invitations of the organizations, in this order. *)
Definition accept_all (u : string) (os : list string) (g : G) : G :=
  foldl (fun g o => if decide (u ∈ invited g o) then accept o u g else g) g os.

Lemma accept_all_ok u os g : answers g -> answers (accept_all u os g) /\
  forall o, members (accept_all u os g) o = if decide (o ∈ os /\ u ∈ invited g o) then {[u]} ∪ members g o else members g o.
Proof using.
  revert g. induction os as [|o1 os IH]; intros g Hg.
  { split; [done|]. intros o. rewrite decide_False; [done|]. intros [Hx _]. by apply not_elem_of_nil in Hx. }
  unfold accept_all. cbn [foldl]. fold (accept_all u os). destruct (decide (u ∈ invited g o1)) as [Hi|Hi].
  - destruct (accept_law o1 u g Hg Hi) as (Hg1 & M1 & I1). destruct (IH _ Hg1) as [Hg2 M2]. split; [exact Hg2|].
    intros o. rewrite M2, M1, I1. destruct (decide (o1 = o)) as [->|Hne].
    + rewrite (decide_True (P := o ∈ _ :: _ /\ _)) by set_solver. case_decide; set_solver.
    + destruct (decide (o ∈ os /\ u ∈ invited g o)) as [Hx|Hx]; [rewrite decide_True by set_solver; done|]. rewrite decide_False by set_solver. done.
  - destruct (IH g Hg) as [Hg2 M2]. split; [exact Hg2|]. intros o. rewrite M2.
    destruct (decide (o ∈ os /\ u ∈ invited g o)) as [Hx|Hx]; [rewrite decide_True by set_solver; done|].
    rewrite decide_False; [done|]. intros [[->|Ho]%elem_of_cons Hu]; [done|]. by apply Hx.
Qed.

Lemma not_in_perm_orgs ns q name : is_perm name -> flag q name = false -> perm_org c ns name ∉ perm_org c ns <$> perms q.
Proof using. intros Hn Hf Hin. apply elem_of_perm_orgs in Hin; [congruence|done]. Qed.

Definition all_perms : list string := ["read"; "write"; "delete"; "admin"].

(** The permission that both grant. *)
Definition both (p q : Permission) : Permission :=
  {| Read := Read p && Read q; Write := Write p && Write q; Delete_ := Delete_ p && Delete_ q; Admin := Admin p && Admin q |}.

Lemma flag_both p q name : flag (both p q) name = flag p name && flag q name.
Proof using. unfold flag, both. cbn. repeat case_bool_decide; done. Qed.

(** C19. Setting permissions is exact.  While the identity service answers and no
    invitation of the user to the namespace is pending, a request to set the
    permission of a user for a namespace succeeds.  Right after it the user holds
    exactly those of the requested permissions that they held before, and
    has an invitation for exactly the others; when these are accepted, in
    whatever order, a request reports exactly the permission that was set.  The memberships and
    invitations of all other users, and of all organizations other than the
    four of the namespace, stay as they were.  Requests without namespace, user
    or permission are refused without a call. *)
Theorem set_permission_exact (ns u : string) (p : Permission) (g : G) :
  ns <> "" -> u <> "" -> answers g -> (forall name, name ∈ all_perms -> u ∉ invited g (perm_org c ns name)) ->
  exists g', svc_SetPermission (iyoClient c) ns u (Some p) g = (Ok tt, g') /\
    (exists g'', svc_GetPermission (iyoClient c) ns u g' = (Ok (both (held g ns u) p), g'')) /\
    (forall name, name ∈ all_perms -> u ∈ invited g' (perm_org c ns name) <-> flag p name = true /\ flag (held g ns u) name = false) /\
    (forall os, os ≡ₚ perm_org c ns <$> all_perms -> exists g'', svc_GetPermission (iyoClient c) ns u (accept_all u os g') = (Ok p, g'')) /\
    (forall o v, v <> u -> (v ∈ members g' o <-> v ∈ members g o) /\ (v ∈ invited g' o <-> v ∈ invited g o)) /\
    (forall o, o ∉ perm_org c ns <$> all_perms -> members g' o = members g o /\ invited g' o = invited g o) /\
    svc_SetPermission (iyoClient c) ns u None g = (Err ErrGRPCNilPermissions, g) /\
    svc_SetPermission (iyoClient c) "" u (Some p) g = (Err ErrGRPCNilNamespace, g) /\
    svc_SetPermission (iyoClient c) ns "" (Some p) g = (Err ErrGRPCNilUserID, g).
Proof using.
  intros Hns Hu Hg Hfree. destruct (SetPermission_ok ns u p g Hg) as (g1 & E1 & Hg1 & M1 & I1).
  { intros name Hn _. by apply Hfree. }
  set (cur := held g ns u) in *.
  assert (Hget : forall g2, answers g2 -> exists g3, svc_GetPermission (iyoClient c) ns u g2 = (Ok (held g2 ns u), g3)).
  { intros g2 Hg2. destruct (GetPermission_ok ns u g2 Hg2) as (g3 & E3 & _). exists g3. unfold svc_GetPermission.
    by rewrite !bool_decide_eq_false_2 by done. }
  assert (Hmem : forall name, is_perm name -> u ∈ members g1 (perm_org c ns name) <-> flag cur name && flag p name = true).
  { intros name Hn. pose proof (flag_held g ns u name Hn) as Hcur. fold cur in Hcur. rewrite M1. case_decide as Hin.
    - apply elem_of_perm_orgs in Hin; [|done]. rewrite flag_remove in Hin. apply andb_true_iff in Hin as [-> Hp]. apply negb_true_iff in Hp.
      rewrite Hp. split; [set_solver|done].
    - rewrite elem_of_perm_orgs, flag_remove in Hin by done. rewrite <- Hcur. by destruct (flag cur name), (flag p name); cbn in *. }
  assert (Hinv : forall name, is_perm name -> u ∈ invited g1 (perm_org c ns name) <-> flag p name = true /\ flag cur name = false).
  { intros name Hn. specialize (Hfree name Hn). rewrite I1. case_decide as Hin.
    - apply elem_of_perm_orgs in Hin; [|done]. rewrite flag_give in Hin. apply andb_true_iff in Hin as [Hc Hp]. apply negb_true_iff in Hc.
      split; [done|]. set_solver.
    - rewrite elem_of_perm_orgs, flag_give in Hin by done. split; [done|]. intros [Hp Hc]. by rewrite Hp, Hc in Hin. }
  assert (Hother : forall o q, o ∉ perm_org c ns <$> all_perms -> o ∉ perm_org c ns <$> perms q).
  { intros o q Ho Hin. apply Ho. apply list_elem_of_fmap in Hin as (name & -> & [Hname _]%elem_of_perms). apply list_elem_of_fmap. by exists name. }
  exists g1. split_and!.
  - unfold svc_SetPermission. by rewrite !bool_decide_eq_false_2 by done.
  - destruct (Hget g1 Hg1) as (g2 & ->). exists g2. f_equal. f_equal. apply held_flags. intros name Hn. rewrite flag_both. by apply Hmem.
  - exact Hinv.
  - intros os Hos. destruct (accept_all_ok u os g1 Hg1) as [Hg2 M2]. destruct (Hget _ Hg2) as (g3 & ->). exists g3. f_equal. f_equal.
    apply held_flags. intros name Hn. rewrite M2. case_decide as Hx.
    + destruct Hx as [_ Hx]. apply Hinv in Hx as [-> _]; [|done]. split; [done|set_solver].
    + rewrite Hmem by done. split; [by intros [_ ?]%andb_true_iff|]. intros Hp. apply andb_true_iff. split; [|done].
      destruct (flag cur name) eqn:Hc; [done|]. exfalso. apply Hx. split; [|by apply Hinv].
      rewrite Hos. apply list_elem_of_fmap. by exists name.
  - intros o v Hv. rewrite M1, I1. split; case_decide; set_solver.
  - intros o Ho. rewrite M1, I1. by rewrite !decide_False by (by apply Hother).
  - unfold svc_SetPermission. by rewrite !bool_decide_eq_false_2 by done.
  - done.
  - unfold svc_SetPermission. by rewrite (bool_decide_eq_false_2 (ns = "")) by done.
Qed.

Definition no_permission : Permission := {| Read := false; Write := false; Delete_ := false; Admin := false |}.

(** A permission that was given and not yet accepted cannot be taken back: setting
    no permission leaves the invitation, and the user who accepts it then has
    the permission. *)
Lemma pending_invitation_survives (ns u : string) (p : Permission) (g : G) :
  answers g -> held g ns u = no_permission -> (forall name, is_perm name -> u ∉ invited g (perm_org c ns name)) ->
  exists g1 g2, iyo_SetPermission c ns u p g = (Ok tt, g1) /\ iyo_SetPermission c ns u no_permission g1 = (Ok tt, g2) /\
    held (accept_all u (perm_org c ns <$> all_perms) g2) ns u = p.
Proof using.
  intros Hg Hcur Hfree. destruct (SetPermission_ok ns u p g Hg) as (g1 & E1 & Hg1 & M1 & I1); [intros name Hn _; by apply Hfree|].
  assert (Hempty : forall q name, flag (computePermissionsToRemove no_permission q) name = false /\ flag (computePermissionsToGive q no_permission) name = false).
  { intros q name. rewrite flag_remove, flag_give. assert (flag no_permission name = false) as -> by (unfold flag; by repeat case_bool_decide).
    by rewrite andb_false_r. }
  assert (Hheld : held g1 ns u = no_permission).
  { apply held_flags. intros name Hn. rewrite M1, Hcur, decide_False by (apply not_in_perm_orgs; [done|apply Hempty]).
    rewrite <- (flag_held g) by done. by rewrite Hcur. }
  destruct (SetPermission_ok ns u no_permission g1 Hg1) as (g2 & E2 & Hg2 & M2 & I2).
  { intros name _. by rewrite (proj2 (Hempty _ name)). }
  exists g1, g2. split_and!; [done|done|]. destruct (accept_all_ok u (perm_org c ns <$> all_perms) g2 Hg2) as [_ M3].
  apply held_flags. intros name Hn.
  assert (Hgive : flag (computePermissionsToGive no_permission p) name = flag p name).
  { rewrite flag_give. assert (flag no_permission name = false) as -> by (unfold flag; by repeat case_bool_decide). done. }
  assert (Hinv : u ∈ invited g2 (perm_org c ns name) <-> flag p name = true).
  { rewrite I2, decide_False by (apply not_in_perm_orgs; [done|apply Hempty]). rewrite I1, Hcur, <- Hgive.
    case_decide as Hin; [apply elem_of_perm_orgs in Hin; [set_solver|done]|].
    split; [by intros Hx; destruct (Hfree name Hn)|]. intros Hf. by destruct Hin; apply elem_of_perm_orgs. }
  assert (Hnot : u ∉ members g2 (perm_org c ns name)).
  { rewrite M2, Hheld, decide_False by (apply not_in_perm_orgs; [done|apply Hempty]).
    rewrite <- (flag_held g1) by done. rewrite Hheld. unfold flag. by repeat case_bool_decide. }
  rewrite M3. case_decide as Hx; [destruct Hx as [_ Hx]; apply Hinv in Hx as ->; set_solver|]. split; [done|]. intros Hp.
  exfalso. apply Hx. split; [|by apply Hinv]. apply list_elem_of_fmap. by exists name.
Qed.

(** The administrators of the namespace [a.read] are the readers of [a]. *)
Lemma dotted_namespace_shares_members (ns : string) : perm_org c (ns +:+ ".read") "admin" = perm_org c ns "read".
Proof using.
  unfold perm_org, createNamespaceID. cbn [bool_decide]. rewrite bool_decide_eq_true_2, bool_decide_eq_false_2 by done.
  apply (inj str_bytes). by rewrite !str_bytes_app, <- !app_assoc.
Qed.

(** When the first call of [CreateNamespace] fails with a status other than
    conflict and forbidden, it returns no error and creates nothing. *)
Lemma create_namespace_hides_failure (ns : string) (g g1 g2 : G) (code : Z) (e : error) :
  LoginWithClientCredentials (ApplicationID c) (ApplicationSecret c) g = (None, g1) ->
  CreateNewSubOrganization (Organization c) (Organization c +:+ "." +:+ "0stor") g1 = ((Some code, Some e), g2) ->
  code <> StatusConflict -> code <> StatusForbidden -> CreateNamespace c ns g = (Ok tt, g2).
Proof using.
  intros Hl Hs H1 H2. unfold CreateNamespace, login, createSubOrganization, StatusCode, plift, pret, pbind. rewrite Hl, Hs. cbn [se_StatusCode].
  apply Z.eqb_neq in H1, H2. by rewrite H1, H2.
Qed.
(** A service that cannot be reached makes the client panic: the response is
    nil where its status is printed. *)
Lemma unreachable_panics (ns : string) (g g1 g2 : G) (e : error) :
  LoginWithClientCredentials (ApplicationID c) (ApplicationSecret c) g = (None, g1) ->
  DeleteOrganization (createNamespaceID c ns) g1 = ((None, Some e), g2) -> exists p, DeleteNamespace c ns g = (Panic p, g2).
Proof using. intros Hl Hd. unfold DeleteNamespace, login, StatusCode, plift, pbind. rewrite Hl, Hd. by eexists. Qed.
End Permissions.

(** ** A service that keeps its organizations in a map, for the witnesses *)

(** The members of the organizations, and the users they have invited. *)
Definition orgs := (gmap string (gset string) * gmap string (gset string))%type.

Definition users_of (m : gmap string (gset string)) (o : string) : gset string := default ∅ (m !! o).

#[export] Instance demo_identity : Identity orgs := {|
  LoginWithClientCredentials _ _ g := (None, g);
  CreateNewSubOrganization _ o g := ((Some StatusCreated, None), (<[o := ∅]> g.1, g.2));
  CreateNewOrganization o g := ((Some StatusCreated, None), (<[o := ∅]> g.1, g.2));
  GetOrganization o g := ((Some StatusOK, None), g);
  DeleteOrganization o g := ((Some 204%Z, None), (delete o g.1, delete o g.2));
  AddOrganizationMember o u g := ((Some StatusCreated, None), (g.1, <[o := {[u]} ∪ users_of g.2 o]> g.2));
  RemoveOrganizationMember u o g := ((Some 204%Z, None), (<[o := users_of g.1 o ∖ {[u]}]> g.1, g.2));
  GetOrganizationUsers o g := ((elements (users_of g.1 o), Some StatusOK, None), g);
  PostAccessToken _ g := (Ok (StatusOK, Ok "token"), g);
  Status code := pretty code;
|}.

Lemma users_of_insert m o x o' : users_of (<[o := x]> m) o' = if decide (o = o') then x else users_of m o'.
Proof. unfold users_of. rewrite lookup_insert. by case_decide. Qed.

#[export] Instance demo_identity_laws : IdentityLaws orgs.
Proof.
  refine {| answers _ := True; members g := users_of g.1; invited g := users_of g.2;
    accept o u g := (<[o := {[u]} ∪ users_of g.1 o]> g.1, <[o := users_of g.2 o ∖ {[u]}]> g.2) |}.
  - intros id secret g _. by exists g.
  - intros o u g _ _ _. eexists. split_and!; [done..|]. intros o'. cbn. rewrite users_of_insert. by case_decide; subst.
  - intros o u g _. eexists _, _. split_and!; [done|done| |done]. intros o'. cbn. rewrite users_of_insert. by case_decide; subst.
  - intros o g _. eexists _, g. split_and!; [done..|]. intros u. apply elem_of_elements.
  - intros o u g _ _. split_and!; [done| |]; intros o'; cbn; rewrite users_of_insert; by case_decide; subst.
Defined.

Lemma set_permission_exact_witness :
  let c := {| Organization := "org"; ApplicationID := "id"; ApplicationSecret := "secret" |} in
  let p := {| Read := true; Write := false; Delete_ := false; Admin := false |} in
  exists g' g'', svc_SetPermission (iyoClient c) "ns" "user" (Some p) (∅, ∅) = (Ok tt, g') /\
    svc_GetPermission (iyoClient c) "ns" "user" (accept_all "user" (perm_org c "ns" <$> all_perms) g') = (Ok p, g'').
Proof.
  intros c p. destruct (set_permission_exact c "ns" "user" p (∅, ∅) ltac:(done) ltac:(done) I) as (g' & Hset & _ & _ & Hget & _).
  - intros name _. cbn. unfold users_of. rewrite lookup_empty. apply not_elem_of_empty.
  - destruct (Hget (perm_org c "ns" <$> all_perms)) as [g'' Hg]; [reflexivity|]. exists g', g''. by split.
Defined.
