(* ===== verification/System.v ===== *)
(** * The configured client over the servers

    The parts together: a configuration chooses a pipeline and a chunk storage
    ([PipelineConfig]); here the choice becomes an instance of the interfaces
    that the theorems about pipelines and about the client are proved against,
    so that they hold for every configuration.  The client's operations then
    run over servers and a metadata database one after the other, while servers
    stop answering and come back. *)

From S2P Require Import Prelude Encoding Keys DB Jwt ServerAPI ServerProps Datastor Spread Fleet Replicated Distributed DistributedProps Pipeline Storages.
From S2P Require Import MetaProto MetaProtoProps Metastor MetaMem ZClient Upkeep Processing PipelineConfig.
Import Encoding.Encoding Spread.Spread AsyncSplitter.
Open Scope nat_scope.

(** ** The storage and the pipeline of a configuration *)
Section Configured.
Context `{ShardFresh W}.

(** Everything that the schedulers and the random iterators decide in a call. *)
Record schedule := {
  s_shards : W -> list string; s_writes : W -> bytes -> list event;
  s_arrival : list MetaObject -> list MetaObject; s_parts : list nat -> list nat;
  s_except : W -> list string -> list string; s_spares : W -> list string;
  s_repairs : W -> ChunkConfig -> list event; s_extra : nat; s_race : bool; s_tasks : orders;
}.

(** Iterators give every shard at most once, of [bound] shards in all, and none
    that they are to leave out; goroutines take up every task. *)
Record fair (bound : nat) (s : schedule) : Prop := {
  fair_shards w : NoDup (s_shards s w) /\ length (s_shards s w) <= bound;
  fair_spares w : NoDup (s_spares s w) /\ length (s_spares s w) <= bound;
  fair_except w l : NoDup (s_except s w l) /\ length (s_except s w l) <= bound /\ forall sh, sh ∈ l -> sh ∉ s_except s w l;
  fair_arrival l : s_arrival s l ≡ₚ l;
  fair_parts l : s_parts s l ≡ₚ l;
  fair_tasks : permuting (s_tasks s);
}.

(** [NewChunkStorage]: the storage behind the interface. *)
Definition any_storage (s : schedule) (os : AnyStorage) : ChunkStorage W :=
  match os with
  | RandomStorage => random_storage (s_shards s)
  | ReplicatedStorage rs => replicated_storage rs (s_shards s) (s_writes s) (s_arrival s) (s_except s) (s_repairs s) (s_extra s)
  | DistributedStorage ds =>
      distributed_storage ds (s_shards s) (s_writes s) (s_parts s) (s_arrival s) (s_spares s) (s_repairs s) (s_extra s)
  end.

(** [NewPipeline]: the pipeline behind the interface. *)
Definition any_pipeline (s : schedule) (close : prog W unit) (pl : AnyPipeline) : DataPipeline W :=
  match pl with
  | SingleObjectPipeline os cfg => single_pipeline (H := any_storage s os) cfg close
  | AsyncPipeline os asp => async_pipeline (H := any_storage s os) asp close (s_extra s) (s_race s) (s_tasks s)
  end.

(** A storage that can be used: its numbers agree with the code it uses. *)
Definition storage_ok (os : AnyStorage) : Prop :=
  match os with
  | RandomStorage => True
  | ReplicatedStorage rs => 0 < Replicated.dataShardCount rs
  | DistributedStorage ds =>
      let dec := Distributed.dec ds in
      ErasureCode (ReedSolomon.er dec) (ReedSolomon.dataShardCount dec) (ReedSolomon.parityShardCount dec) /\
      0 < ReedSolomon.dataShardCount dec /\ 0 < ReedSolomon.parityShardCount dec /\
      ReedSolomon.shardCount dec = ReedSolomon.dataShardCount dec + ReedSolomon.parityShardCount dec
  end.

(** How many servers may fail, and when a chunk is stored. *)
Definition tolerance (os : AnyStorage) : nat :=
  match os with
  | RandomStorage => 0
  | ReplicatedStorage rs => Replicated.dataShardCount rs - 1
  | DistributedStorage ds => ReedSolomon.parityShardCount (Distributed.dec ds)
  end.

Definition chunk_stored (os : AnyStorage) : W -> ChunkConfig -> bytes -> Prop :=
  match os with
  | RandomStorage => random_at
  | ReplicatedStorage rs => replicated_at rs
  | DistributedStorage ds => distributed_at ds
  end.

Lemma chunk_stored_held os w w' cfg d :
  (forall sh k, holds w' sh k = holds w sh k) -> chunk_stored os w cfg d -> chunk_stored os w' cfg d.
Proof using.
  intros Hh. assert (Hx : forall o x, o ∈ cfg_Objects cfg -> held_as w o x -> held_as w' o x).
  { intros o x _ [Hk Hx]. split; [done|]. by rewrite Hh. }
  destruct os; [by apply random_at_mono|by apply replicated_at_mono|by apply distributed_at_mono].
Qed.

(** Every kind of storage meets the laws, with the same meaning of room and of
    objects that are taken, and is ready while few enough servers are down. *)
Lemma any_storage_laws bound s os D :
  fair bound s -> storage_ok os ->
  exists (L : @ChunkStorageLaws W (any_storage s os)) (O : @ChunkStorageOwn W (any_storage s os) L),
    @storage_good W _ L = room_for D bound /\ @chunk_at W _ L = chunk_stored os /\ @taken W _ L O = taken_object /\
    (length D <= tolerance os -> @ready W _ L) /\ (D = [] -> @full W _ L O).
Proof using All.
  intros [Hsh Hsp Hex Har Hpa _] Hok. destruct os as [|rs|ds]; cbn [any_storage chunk_stored tolerance].
  - exists (random_storage_laws _ D bound (fun w => proj2 (Hsh w))), (random_storage_own _ D bound (fun w => proj2 (Hsh w))). done.
  - exists (replicated_storage_laws _ _ _ _ _ _ _ D bound Hsh Hok), (replicated_storage_own _ _ _ _ _ _ _ D bound Hsh Hok Har Hex).
    split_and!; try done. cbn. cbn in Hok. lia.
  - destruct Hok as (Hcode & Hd & Hp & Hcount).
    by exists (distributed_storage_laws _ _ _ _ _ _ _ _ Hd Hcount D bound Hsh Hpa), (distributed_storage_own _ _ _ _ _ _ _ _ Hd Hcount D bound Hsh Hpa Hp Har Hsp).
Qed.

(** A pipeline that can be used. *)
Definition pipeline_ok (pl : AnyPipeline) : Prop :=
  exists os cfg hash p, hasher cfg = Ok hash /\ processor cfg = Ok p /\ inverts p /\ storage_ok os /\
    match pl with
    | SingleObjectPipeline os' cfg' => os' = os /\ cfg' = cfg
    | AsyncPipeline os' asp => os' = os /\ config asp = cfg /\ 0 < storageJobCount asp
    end.

Definition storage_of (pl : AnyPipeline) : AnyStorage := match pl with SingleObjectPipeline os _ | AsyncPipeline os _ => os end.

(** A reader that gives the parts and then the end of the data. *)
Definition parts_reader (parts : list bytes) : Reader := ((fun p => (p, None)) <$> parts) ++ [([], Some EOF)].

(** What the chunks of some data are, for a way of storing each chunk. *)
Definition part_stored (at_ : W -> ChunkConfig -> bytes -> Prop) (hash : bytes -> bytes) (p : Processor) (w : W) (d : bytes) (c : Chunk) : Prop :=
  ch_Hash c = hash d /\ exists x, WriteProcess p d = Ok x /\ at_ w (chunk_cfg c) x.

Definition data_stored (pl : AnyPipeline) (hash : bytes -> bytes) (p : Processor) (w : W) (cs : list Chunk) (data : bytes) : Prop :=
  match pl with
  | SingleObjectPipeline os _ => exists c, cs = [c] /\ part_stored (chunk_stored os) hash p w data c
  | AsyncPipeline os _ => exists parts, parts <> [] /\ data = concat parts /\ Forall2 (part_stored (chunk_stored os) hash p w) parts cs
  end.

Lemma data_stored_held pl hash p w w' cs data :
  (forall sh k, holds w' sh k = holds w sh k) -> data_stored pl hash p w cs data -> data_stored pl hash p w' cs data.
Proof using.
  intros Hh. assert (Hx : forall os d c, part_stored (chunk_stored os) hash p w d c -> part_stored (chunk_stored os) hash p w' d c).
  { intros os d c (Hc & x & Hx & Hat). split; [done|]. exists x. split; [done|]. by eapply chunk_stored_held. }
  destruct pl as [os cfg|os asp].
  - intros (c & -> & Hc). exists c. auto.
  - intros (parts & Hne & -> & Hall). exists parts. split_and!; [done|done|]. eapply Forall2_impl; [exact Hall|]. apply Hx.
Qed.

(** The pipeline of any configuration meets the laws, in any schedule and with
    any servers down; what is stored does not depend on these. *)
Definition meets_laws (bound : nat) (close : prog W unit) (pl : AnyPipeline) (stored : W -> list Chunk -> bytes -> Prop) (s : schedule) (D : list string) : Prop :=
  exists (L : @DataPipelineLaws W (any_pipeline s close pl)) (O : @DataPipelineOwn W (any_pipeline s close pl) L),
    @pl_room W _ L = room_for D bound /\ @pl_stored W _ L = stored /\ @pl_taken W _ L O = taken_object /\
    (length D <= tolerance (storage_of pl) -> @pl_ready W _ L) /\ (D = [] -> @pl_full W _ L O) /\
    (forall parts, parts <> [] -> @pl_cost W _ L (parts_reader parts) <= length parts).

Lemma any_pipeline_laws bound close pl :
  pipeline_ok pl ->
  exists stored, (forall w w' cs x, (forall sh k, holds w' sh k = holds w sh k) -> stored w cs x -> stored w' cs x) /\
    forall s D, fair bound s -> meets_laws bound close pl stored s D.
Proof using All.
  intros (os & cfg & hash & p & Hh & Hp & Hinv & Hos & Hpl). exists (data_stored pl hash p).
  split; [intros *; apply data_stored_held|]. intros s D Hfair. destruct (any_storage_laws bound s os D Hfair Hos) as (L & O & Hg & Hat & Ht & Hr & Hf).
  destruct pl as [os' cfg'|os' asp]; unfold meets_laws; cbn [any_pipeline storage_of].
  - destruct Hpl as [-> ->]. exists (single_pipeline_laws (H := any_storage s os) cfg close hash p Hh Hp Hinv), (single_own cfg close hash p Hh Hp Hinv).
    split_and!; [done| |done|done|done|].
    + cbn [pl_stored single_pipeline_laws]. unfold single_stored, stored_as. by rewrite Hat.
    + intros parts Hne. cbn. destruct parts; [done|]. cbn. lia.
  - destruct Hpl as (-> & <- & Hj).
    exists (async_pipeline_laws (H := any_storage s os) asp close (s_extra s) (s_race s) (s_tasks s) (fair_tasks _ _ Hfair) hash p Hh Hp Hinv Hj),
      (async_own asp close (s_extra s) (s_race s) (s_tasks s) (fair_tasks _ _ Hfair) hash p Hh Hp Hinv Hj).
    split_and!; [done| |done|done|done|].
    + cbn [pl_stored async_pipeline_laws]. unfold async_stored, stored_as. by rewrite Hat.
    + intros parts _. cbn [pl_cost async_pipeline_laws]. unfold parts_reader. rewrite splitter_parts. by rewrite length_fmap.
Qed.
End Configured.

(** ** What the constructors make can be used *)
Section Accepted.
Context `{Compressors} `{AEAD} `{Hashes} (random : bytes -> outcome bytes)
  (Hrandom : forall d n, random d = Ok n -> length n = nonceSize).
Context (defaultHasher : outcome (bytes -> bytes)) (DefaultJobCount : nat) (NewReedSolomon : Z -> Z -> outcome EncodeReconster).
Context (Hjobs : 0 < DefaultJobCount)
  (Hcode : forall d k er, NewReedSolomon d k = Ok er -> ErasureCode er (Z.to_nat d) (Z.to_nat k)).

Lemma NewChunkStorage_ok cfg listed jobCount os :
  NewChunkStorage DefaultJobCount NewReedSolomon cfg (Some listed) jobCount = Ok os -> storage_ok os.
Proof using Hcode.
  intros Hos. pose proof (NewChunkStorage_fits _ _ _ _ _ _ Hos) as Hfit. destruct os as [|rs|ds]; [done|cbn in *; clear Hjobs; lia|].
  unfold NewChunkStorage in Hos. cbv zeta in Hos. destruct (DataShardCount cfg <=? 0)%Z.
  { destruct (0 <? ParityShardCount cfg)%Z; [done|]. by apply obind_Ok_inv in Hos as ([] & _ & [=]). }
  destruct (ParityShardCount cfg <=? 0)%Z.
  { destruct (DataShardCount cfg =? 1)%Z; by apply obind_Ok_inv in Hos as (? & _ & [=]). }
  apply obind_Ok_inv in Hos as (ds' & Hr & [= <-]). unfold Distributed.NewDistributedChunkStorage in Hr.
  destruct (_ <? _)%Z; [done|]. destruct (ReedSolomon.NewReedSolomonEncoderDecoder _ _ _) as [dec|e|q] eqn:Hd; [|done..]. injection Hr as <-.
  unfold ReedSolomon.NewReedSolomonEncoderDecoder in Hd. destruct (_ <? 1)%Z; [done|]. destruct (_ <? 1)%Z; [done|].
  apply obind_Ok_inv in Hd as (er & Her & [= <-]). cbn in *. split_and!; [by apply Hcode|clear Hjobs; lia..].
Qed.

Lemma NewPipeline_ok cfg listed jobCount pl :
  NewPipeline std_compressions (std_encryptions random) std_hashes defaultHasher DefaultJobCount NewReedSolomon cfg (Some listed) jobCount = Ok pl ->
  pipeline_ok pl.
Proof using Hcode Hjobs Hrandom.
  intros (os & c & hash & p & Hshape & Hh & Hp & Hinv & j & Hos)%(NewPipeline_made random Hrandom _ _ _ _ _ _ _ Hjobs).
  exists os, c, hash, p. split_and!; try done; [by eapply NewChunkStorage_ok|]. destruct pl; destruct_and!; done.
Qed.
End Accepted.

(** ** Operations one after the other *)
Inductive op :=
  | OpWrite (now : Z) (key : bytes) (parts : list bytes)
  | OpRead (key : bytes)
  | OpDelete (key : bytes)
  | OpCheck (key : bytes) (fast : bool)
  | OpRepair (now : Z) (key : bytes)
  | OpDown (shard : string)
  | OpUp (shard : string).

(** What the client returns; writes and repairs succeed or not. *)
Inductive result :=
  | Wrote (ok : bool)
  | Got (r : outcome (bytes * option error))
  | Deleted (r : outcome unit)
  | Checked (r : outcome CheckStatus)
  | Repaired (ok : bool)
  | Switched.

Definition succeeded (r : outcome (option Metadata * option error)) : bool :=
  match r with Ok (Some _, None) => true | _ => false end.

Section Run.
Context `{ShardOutage W} `{MetaDB M} (c : MarshalFuncPair) (close : prog W unit) (pl : AnyPipeline).

(** One operation, with what the schedulers decide while it runs. *)
Definition perform (s : schedule) (o : op) (st : W * M) : result * (W * M) :=
  let pipeline := any_pipeline s close pl in
  match o with
  | OpWrite now key parts => let '(r, st') := ZClient.Write (H := pipeline) c now key (Some (parts_reader parts)) st in (Wrote (succeeded r), st')
  | OpRead key => let '(r, st') := ZClient.Read (H := pipeline) c key (Some append) [] st in (Got r, st')
  | OpDelete key => let '(r, st') := ZClient.Delete (H := pipeline) c key st in (Deleted r, st')
  | OpCheck key fast => let '(r, st') := ZClient.Check (H := pipeline) c key fast st in (Checked r, st')
  | OpRepair now key => let '(r, st') := ZClient.Repair (H := pipeline) c now key st in (Repaired (succeeded r), st')
  | OpDown sh => (Switched, (set_up sh false st.1, st.2))
  | OpUp sh => (Switched, (set_up sh true st.1, st.2))
  end.

Fixpoint run (ops : list (schedule * op)) (st : W * M) : list result :=
  match ops with
  | [] => []
  | (s, o) :: ops' => let '(r, st') := perform s o st in r :: run ops' st'
  end.
End Run.

(** The most parts of a write, and the chunks that are written in all. *)
Definition parts_of (o : op) : nat := match o with OpWrite _ _ parts => length parts | _ => 0 end.

Definition widest {W : Type} (ops : list (@schedule W * op)) : nat := foldr (fun o n => max (parts_of o.2) n) 0 ops.

Fixpoint chunks_of {W : Type} (width : nat) (ops : list (@schedule W * op)) : nat :=
  match ops with
  | [] => 0
  | (_, OpRepair _ _) :: ops' => width + chunks_of width ops'
  | (_, o) :: ops' => parts_of o + chunks_of width ops'
  end.

(** The servers that went down and did not come back. *)
Definition restored (sh : string) (down : list string) : list string := List.filter (fun x => negb (bool_decide (x = sh))) down.
Definition failed (sh : string) (down : list string) : list string := sh :: restored sh down.

(** The results of a map from keys to data that tolerates the failure of [tol]
    servers; [Some None] is a key of which a delete failed half way. *)
Fixpoint agrees {W : Type} (tol : nat) (down : list string) (kv : gmap bytes (option bytes)) (ops : list (@schedule W * op)) (rs : list result) : Prop :=
  match ops, rs with
  | [], [] => True
  | (_, OpWrite _ key parts) :: ops', Wrote ok :: rs' => agrees tol down (if ok then <[key := Some (concat parts)]> kv else kv) ops' rs'
  | (_, OpRead key) :: ops', Got r :: rs' =>
      match kv !! key with
      | None => r = Ok ([], Some Metastor.ErrNotFound)
      | Some None => True
      | Some (Some x) => exists out err, r = Ok (out, err) /\ (err = None -> out = x) /\ (length down <= tol -> err = None)
      end /\ agrees tol down kv ops' rs'
  | (_, OpDelete key) :: ops', Deleted r :: rs' =>
      match kv !! key with
      | None => r = Err Metastor.ErrNotFound /\ agrees tol down kv ops' rs'
      | Some _ => agrees tol down (match r with Ok _ => delete key kv | _ => <[key := None]> kv end) ops' rs'
      end
  | (_, OpCheck key fast) :: ops', Checked r :: rs' =>
      match kv !! key with
      | None => r = Err Metastor.ErrNotFound
      | Some None => True
      | Some (Some _) => (length down <= tol -> exists st, r = Ok st /\ st <> CheckStatusInvalid) /\
                         (down = [] -> fast = false -> r = Ok CheckStatusOptimal)
      end /\ agrees tol down kv ops' rs'
  | (_, OpRepair _ key) :: ops', Repaired ok :: rs' => (kv !! key = None -> ok = false) /\ agrees tol down kv ops' rs'
  | (_, OpDown sh) :: ops', Switched :: rs' => agrees tol (failed sh down) kv ops' rs'
  | (_, OpUp sh) :: ops', Switched :: rs' => agrees tol (restored sh down) kv ops' rs'
  | _, _ => False
  end.

(** ** Outages *)
Section Outages.
Context `{ShardOutage W}.

Lemma elem_of_restored x sh D : x ∈ restored sh D <-> x ∈ D /\ x <> sh.
Proof using.
  unfold restored. rewrite !list_elem_of_In, filter_In. destruct (bool_decide_reflect (x = sh)); naive_solver.
Qed.

Lemma room_le D bound n m w : n <= m -> room_for D bound m w -> room_for D bound n w.
Proof using. intros Hle (Hg & Hr & Ho). split_and!; [done| |done]. eapply roomy_le; [|exact Hr]. by apply Nat.mul_le_mono_r. Qed.

Lemma room_switched D D' bound n sh b w :
  room_for D bound n w -> (forall x, x ∈ D -> x <> sh -> x ∈ D') -> (b = false -> sh ∈ D') -> room_for D' bound n (set_up sh b w).
Proof using.
  intros (Hg & Hr & Ho) Hsub Hsh. destruct (set_up_fresh sh b w) as [Hr' _]. split_and!; [by apply set_up_good|auto|].
  intros sh' k x Hx Hni. rewrite set_up_holds in Hx. destruct (decide (sh' = sh)) as [-> |Hne].
  - destruct b; [by eapply set_up_back|]. by destruct (Hni (Hsh eq_refl)).
  - apply set_up_other; [done|]. eapply Ho; [exact Hx|]. intros Hin. apply Hni. by apply Hsub.
Qed.
End Outages.

Section Agreement.
Context `{ShardOutage W} `{MetaDBLaws M} (c : MarshalFuncPair) `{!Codec c} (close : prog W unit) (pl : AnyPipeline).

(** Keys and data are there, the metadata of writes and repairs fits the
    database, and repairs run to their end. *)
Definition allowed (s : schedule) (o : op) (st : W * M) : Prop :=
  let pipeline := any_pipeline s close pl in
  match o with
  | OpWrite now key parts => key <> [] /\ parts <> [] /\
      forall chunks d', pl_Write (DataPipeline := pipeline) (Some (parts_reader parts)) st.1 = (Ok chunks, d') ->
        storable c key (new_metadata now key None chunks)
  | OpRepair now key => key <> [] /\ repairable c (H2 := pipeline) now key st.1 st.2
  | OpRead key | OpDelete key | OpCheck key _ => key <> []
  | OpDown _ | OpUp _ => True
  end.

Fixpoint admissible (ops : list (schedule * op)) (st : W * M) : Prop :=
  match ops with
  | [] => True
  | (s, o) :: ops' => allowed s o st /\ admissible ops' (perform c close pl s o st).2
  end.

(** One operation: what it returns is what the map says, and what it leaves
    behind stores the map that the operation leads to. *)
Lemma perform_agrees bound width stored D s o ops g st r st' :
  (forall w w' cs x, (forall sh k, holds w' sh k = holds w sh k) -> stored w cs x -> stored w' cs x) ->
  meets_laws bound close pl stored s D -> md_conflict ErrRepairSupport = false -> allowed s o st -> parts_of o <= width ->
  room_for D bound (chunks_of width ((s, o) :: ops)) st.1 -> keeps c width (stored st.1) (taken_object st.1) g st.2 ->
  perform c close pl s o st = (r, st') ->
  exists D' g', room_for D' bound (chunks_of width ops) st'.1 /\ keeps c width (stored st'.1) (taken_object st'.1) g' st'.2 /\
    forall rs, agrees (tolerance (storage_of pl)) D' (snd <$> g') ops rs -> agrees (tolerance (storage_of pl)) D (snd <$> g) ((s, o) :: ops) (r :: rs).
Proof using.
  intros Hheld (L & O & Hroom & Hst & Htk & Hrd & Hfl & Hcost) Hns Hal Hw. destruct st as [w m]. cbn [fst snd].
  intros Hr Hk. destruct o as [now key parts|key|key|key fast|now key|sh|sh]; cbn [perform fst snd] in *; cbn [chunks_of parts_of Nat.add] in Hr.
  - destruct Hal as (Hne & Hp & Hfit). destruct (ZClient.Write _ _ _ _ _) as [res [w1 m1]] eqn:E. intros [= <- <-].
    pose proof (pl_input_law (DataPipelineLaws := L) parts Hp) as Hin. fold (parts_reader parts) in Hin. specialize (Hcost parts Hp). cbn [parts_of] in Hw.
    destruct (Write_keeps (H3 := L) (H4 := O) c width now key (parts_reader parts) (concat parts) (chunks_of width ops) g w m res w1 m1)
      as [Hr1 Hres]; try done; [lia| |by rewrite Hst, Htk|].
    { rewrite Hroom. eapply room_le; [|exact Hr]. lia. }
    rewrite Hroom in Hr1. rewrite Hst, Htk in Hres. exists D. destruct Hres as [(md & -> & Hk1)|[Hno Hk1]].
    + exists (<[key := (md, Some (concat parts))]> g). split_and!; [done|done|]. intros rs. by rewrite fmap_insert.
    + exists g. split_and!; [done|done|]. intros rs. cbn [agrees]. destruct res as [[[md|] [e|]]|e|p]; try done. by destruct (Hno md).
  - destruct (ZClient.Read _ _ _ _ _) as [res [w1 m1]] eqn:E. intros [= <- <-].
    destruct (Read_keeps (H3 := L) (H4 := O) c width key (chunks_of width ops) g w m res w1 m1) as (Hr1 & Hk1 & Hres); try done;
      [by rewrite Hroom|by rewrite Hst, Htk|]. rewrite Hroom in Hr1. rewrite Hst, Htk in Hk1. exists D, g. split_and!; [done|done|].
    intros rs Hag. split; [|done]. rewrite lookup_fmap. destruct (g !! key) as [[md [x|]]|]; [|done..].
    destruct Hres as (out & err & -> & Ho & He). exists out, err. auto.
  - destruct (ZClient.Delete _ _ _) as [res [w1 m1]] eqn:E. intros [= <- <-].
    destruct (Delete_keeps (H3 := L) (H4 := O) c width key (chunks_of width ops) g w m res w1 m1) as [Hr1 Hres]; try done;
      [by rewrite Hroom|by rewrite Hst, Htk|]. rewrite Hroom in Hr1. rewrite Hst, Htk in Hres. exists D. cbn [agrees].
    rewrite lookup_fmap. destruct (g !! key) as [[md x]|] eqn:Hg; cbn [fmap option_fmap option_map].
    + destruct Hres as [[-> Hk1]|[Hno Hk1]].
      * exists (delete key g). split_and!; [done|done|]. intros rs. by rewrite fmap_delete.
      * exists (<[key := (md, None)]> g). split_and!; [done|done|]. intros rs. rewrite fmap_insert. by destruct res as [[]|e|p].
    + destruct Hres as [-> Hk1]. exists g. split_and!; [done|done|]. by intros rs.
  - destruct (ZClient.Check _ _ _ _) as [res [w1 m1]] eqn:E. intros [= <- <-].
    destruct (Check_keeps (H3 := L) (H4 := O) c width key fast (chunks_of width ops) g w m res w1 m1) as (Hr1 & Hk1 & Hres); try done;
      [by rewrite Hroom|by rewrite Hst, Htk|]. rewrite Hroom in Hr1. rewrite Hst, Htk in Hk1. exists D, g. split_and!; [done|done|].
    intros rs Hag. split; [|done]. rewrite lookup_fmap. destruct (g !! key) as [[md [x|]]|]; [|done..].
    destruct Hres as [H1' H2']. split; auto.
  - destruct Hal as [Hne Hrep]. destruct (ZClient.Repair _ _ _ _) as [res [w1 m1]] eqn:E. intros [= <- <-].
    destruct (Repair_keeps (H3 := L) (H4 := O) c width now key (chunks_of width ops) g w m res w1 m1) as [Hr1 Hres]; try done;
      [by rewrite Hroom|by rewrite Hst, Htk|]. rewrite Hroom in Hr1. rewrite Hst, Htk in Hres. exists D. cbn [agrees].
    rewrite lookup_fmap. destruct (g !! key) as [[md x]|] eqn:Hg; cbn [fmap option_fmap option_map].
    + destruct Hres as [(md' & -> & Hk1)|(e & -> & Hk1)].
      * exists (<[key := (md', x)]> g). split_and!; [done|done|]. intros rs. rewrite fmap_insert. cbn [snd].
        rewrite insert_id; [|by rewrite lookup_fmap, Hg]. by split.
      * exists g. by split_and!.
    + destruct Hres as [-> Hk1]. exists g. by split_and!.
  - intros [= <- <-]. exists (failed sh D), g. cbn [fst snd]. split_and!; [| |done].
    + eapply room_switched; [exact Hr| |intros _; apply list_elem_of_here]. intros x Hx Hn. apply list_elem_of_further. by apply elem_of_restored.
    + eapply keeps_mono; [exact Hk| | |apply Hk|done].
      * intros cs y. apply Hheld. intros. apply set_up_holds.
      * intros ob. apply set_up_fresh.
  - intros [= <- <-]. exists (restored sh D), g. cbn [fst snd]. split_and!; [| |done].
    + eapply room_switched; [exact Hr| |done]. intros x Hx Hn. by apply elem_of_restored.
    + eapply keeps_mono; [exact Hk| | |apply Hk|done].
      * intros cs y. apply Hheld. intros. apply set_up_holds.
      * intros ob. apply set_up_fresh.
Qed.

Lemma run_agrees bound width stored ops D g st :
  (forall w w' cs x, (forall sh k, holds w' sh k = holds w sh k) -> stored w cs x -> stored w' cs x) ->
  (forall s D, fair bound s -> meets_laws bound close pl stored s D) -> md_conflict ErrRepairSupport = false ->
  Forall (fun so => fair bound so.1) ops -> widest ops <= width -> admissible ops st ->
  room_for D bound (chunks_of width ops) st.1 -> keeps c width (stored st.1) (taken_object st.1) g st.2 ->
  agrees (tolerance (storage_of pl)) D (snd <$> g) ops (run c close pl ops st).
Proof using.
  intros Hheld Hlaws Hns. revert D g st; induction ops as [|[s o] ops IH]; intros D g st Hf Hw Hadm Hroom Hk; [done|].
  apply Forall_cons in Hf as [Hs Hf]. destruct Hadm as [Hal Hadm]. cbn [widest foldr snd] in Hw. cbn [run].
  destruct (perform c close pl s o st) as [r st'] eqn:E.
  destruct (perform_agrees bound width stored D s o ops g st r st') as (D' & g' & Hroom' & Hk' & Hag); try done; [by apply Hlaws|lia|].
  apply Hag. apply IH; try done. change (widest ops <= width). unfold widest. lia.
Qed.
End Agreement.

(** C1. The whole store is a map that survives the failure of servers.  Take any
    configuration that [NewPipeline] accepts, sequential or parallel, with any
    of the compressions, the encryption, any of the hashes, and one, replicated
    or distributed shards; servers that are filled only through their API; any
    metadata database that keeps its promises; and any decisions of the
    schedulers and the random iterators, other ones in every call.  Starting
    from an empty metadata database, run any sequence of writes, reads, deletes,
    checks and repairs through the client, while servers stop answering and come
    back.  A read that reports no error returns exactly what the last successful
    write of its key wrote, in whatever pieces it was read, and it reports no
    error while not more servers are down than the storage tolerates -- none, all
    copies but one, or the parity shards; a check then does not report damage,
    and reports the optimum when no server is down.  Without a write, or after a
    successful delete, a key is not found.  Writes and repairs that fail,
    whatever they leave on the servers, change nothing, and a repair, successful
    or not, never changes what is read; a delete that fails harms no other key. *)
Theorem configured_store_is_a_map `{ShardOutage W} `{MetaDBLaws M} (c : MarshalFuncPair) `{!Codec c} `{Compressors} `{AEAD} `{Hashes}
    (random : bytes -> outcome bytes) (defaultHasher : outcome (bytes -> bytes)) (DefaultJobCount : nat)
    (NewReedSolomon : Z -> Z -> outcome EncodeReconster) (cfg : PipelineConfig.Config) (listed : nat) (jobCount : Z)
    (pl : AnyPipeline) (bound : nat) (close : prog W unit) (ops : list (schedule * op)) (down : list string) (w : W) (m : M) :
  (forall d n, random d = Ok n -> length n = nonceSize) -> 0 < DefaultJobCount ->
  (forall d k er, NewReedSolomon d k = Ok er -> ErasureCode er (Z.to_nat d) (Z.to_nat k)) ->
  NewPipeline std_compressions (std_encryptions random) std_hashes defaultHasher DefaultJobCount NewReedSolomon cfg (Some listed) jobCount = Ok pl ->
  Forall (fun so => fair bound so.1) ops ->
  good w -> roomy (chunks_of (widest ops) ops * bound) w -> outside down w ->
  md_ok m -> (forall k, md_entry m k = None) -> md_conflict ErrRepairSupport = false ->
  admissible c close pl ops (w, m) ->
  agrees (tolerance (storage_of pl)) down ∅ ops (run c close pl ops (w, m)).
Proof.
  intros Hr Hj Hc Hpl Hf Hg Hroom Hout Hm He Hns Hadm. pose proof (NewPipeline_ok random Hr _ _ _ Hj Hc _ _ _ _ Hpl) as Hok.
  destruct (any_pipeline_laws bound close pl Hok) as (stored & Hheld & Hlaws).
  pose proof (run_agrees c close pl bound (widest ops) stored ops down ∅ (w, m)) as Hrun. rewrite fmap_empty in Hrun.
  by apply Hrun.
Qed.

(** ** Two copies on three servers, which go down and come back *)
#[local] Existing Instances toy_compressors toy_aead toy_hashes.

Definition toy_pl : AnyPipeline :=
  match toy_pipeline with Ok pl => pl | _ => SingleObjectPipeline RandomStorage (NewConfig (Err (ErrNew "unused")) None None) end.

Definition toy_shards : list string := ["b"; "a"; "c"]%string.

Definition toy_schedule : schedule (W := FleetOf Memory.MemDB Z) := {|
  s_shards _ := toy_shards;
  s_writes _ _ := [EvJob 0; EvJob 1; EvShard 0; EvCreate 0; EvShard 1; EvShard 0; EvCreate 0; EvCreate 1; EvSend 1; EvSend 0; EvJob 0; EvJob 1];
  s_arrival := reverse; s_parts := reverse; s_except _ l := List.filter (fun x => negb (bool_decide (x ∈ l))) toy_shards; s_spares _ := toy_shards;
  s_repairs _ _ := [EvJob 0; EvShard 0; EvCreate 0; EvSend 0; EvJob 0]; s_extra := 1; s_race := true;
  s_tasks := reversed |}.

Definition toy_ops : list (@schedule (FleetOf Memory.MemDB Z) * op) :=
  (fun o => (toy_schedule, o)) <$>
  [OpRead demo_key; OpWrite 7 demo_key [str_bytes "zero"; str_bytes "-sto"; str_bytes "r!"]; OpRead demo_key;
   OpUp "b"; OpDown "a"; OpRead demo_key; OpCheck demo_key false; OpRepair 9 demo_key; OpCheck demo_key false; OpUp "a"; OpRead demo_key;
   OpCheck demo_key false; OpDelete demo_key; OpRead demo_key]%string.

#[local] Instance toy_outage : ShardOutage (FleetOf Memory.MemDB Z) := fleet_outage "ns".

Lemma toy_fair : fair 3 toy_schedule.
Proof.
  split; cbn [toy_schedule s_shards s_spares s_except s_arrival s_parts s_tasks].
  1-2: intros w; split; [|cbn; lia]; apply (bool_decide_unpack _); vm_compute; exact I.
  2-3: intros; apply reverse_Permutation.
  2: apply reversed_permuting.
  intros w l. assert (Hnd : NoDup toy_shards) by (apply (bool_decide_unpack _); vm_compute; exact I).
  split_and!; [apply NoDup_ListNoDup, List.NoDup_filter; by apply NoDup_ListNoDup|apply List.filter_length_le|].
  intros sh Hin Hx. apply list_elem_of_In, filter_In in Hx as [_ Hx]. by rewrite bool_decide_true in Hx.
Qed.

#[local] Instance encodable_dec md : Decision (encodable md).
Proof. unfold encodable, is_i64. apply _. Defined.

(** The state before the operation number [n]. *)
Definition toy_before (n : nat) : FleetOf Memory.MemDB Z * MetaMem.DB :=
  foldl (fun st so => (perform proto_pair (pret tt) toy_pl so.1 so.2 st).2) (demo_fleet, MetaMem.New) (take n toy_ops).

(** The chunks that the write makes, the metadata that the repair finds, and the chunks that it makes. *)
Definition toy_written : list Chunk :=
  match (pl_Write (DataPipeline := any_pipeline toy_schedule (pret tt) toy_pl)
    (Some (parts_reader [str_bytes "zero"; str_bytes "-sto"; str_bytes "r!"])) (toy_before 1).1).1 with Ok cs => cs | _ => [] end.

Definition toy_found : Metadata :=
  match md_entry (toy_before 7).2 demo_key with
  | Some (b, _) => match Unmarshal proto_pair (Some b) (Some zero_metadata) with Ok md => md | _ => zero_metadata end
  | None => zero_metadata
  end.

Definition toy_repaired : list Chunk :=
  match (pl_Repair (DataPipeline := any_pipeline toy_schedule (pret tt) toy_pl) (Chunks toy_found) (toy_before 7).1).1 with Ok cs => cs | _ => [] end.

Lemma toy_repairable : repairable proto_pair (H2 := any_pipeline toy_schedule (pret tt) toy_pl) 9 demo_key (toy_before 7).1 (toy_before 7).2.
Proof.
  intros md (b & n & He & Hu). assert (decoded [] md = toy_found) as ->.
  { unfold toy_found. rewrite He. pose proof (Hu zero_metadata) as ->. done. }
  assert ((pl_Repair (DataPipeline := any_pipeline toy_schedule (pret tt) toy_pl) (Chunks toy_found) (toy_before 7).1).1 = Ok toy_repaired) as ->
    by (vm_compute; reflexivity).
  split; [|done]. apply (bool_decide_unpack _). vm_compute. exact I.
Qed.

Lemma toy_admissible : admissible proto_pair (pret tt) toy_pl toy_ops (demo_fleet, MetaMem.New).
Proof.
  assert (Hkey : demo_key <> []) by done. unfold toy_ops. cbn [fmap list_fmap admissible].
  split; [exact Hkey|]. split; [|do 5 (split; [first [exact Hkey|exact I]|]); split; [|do 6 (split; [first [exact Hkey|exact I]|]); exact I]].
  - split_and!; [done|done|]. intros chunks d' E. assert (chunks = toy_written) as ->.
    { change (_ = (Ok chunks, d')) with (pl_Write (DataPipeline := any_pipeline toy_schedule (pret tt) toy_pl)
        (Some (parts_reader [str_bytes "zero"; str_bytes "-sto"; str_bytes "r!"])) (toy_before 1).1 = (Ok chunks, d')) in E.
      unfold toy_written. by rewrite E. }
    split; [|done]. apply (bool_decide_unpack _). vm_compute. exact I.
  - split; [done|]. exact toy_repairable.
Qed.

Lemma demo_fleet_new sh b s : demo_fleet !! sh = Some (b, s) -> s.1 = Memory.New.
Proof.
  unfold demo_fleet. intros Hs. do 2 (apply lookup_insert_Some in Hs as [[_ [= _ <-]]|[_ Hs]]; [done|]).
  by apply lookup_singleton_Some in Hs as [_ [= _ <-]].
Qed.

Lemma configured_store_is_a_map_witness :
  run proto_pair (pret tt) toy_pl toy_ops (demo_fleet, MetaMem.New) =
    [Got (Ok ([], Some Metastor.ErrNotFound)); Wrote true; Got (Ok (str_bytes "zero-stor!", None));
     Switched; Switched; Got (Ok (str_bytes "zero-stor!", None)); Checked (Ok CheckStatusValid);
     Repaired true; Checked (Ok CheckStatusOptimal); Switched; Got (Ok (str_bytes "zero-stor!", None)); Checked (Ok CheckStatusOptimal);
     Deleted (Ok tt); Got (Ok ([], Some Metastor.ErrNotFound))] /\
  tolerance (storage_of toy_pl) = 1 /\
  agrees 1 [] ∅ toy_ops (run proto_pair (pret tt) toy_pl toy_ops (demo_fleet, MetaMem.New)).
Proof.
  split; [vm_compute; reflexivity|]. split; [reflexivity|].
  eapply (configured_store_is_a_map proto_pair toy_random (Err (ErrNew "unused")) 8 (fun _ _ => Err (ErrNew "unused")) toy_config 3 0
    toy_pl 3 (pret tt) toy_ops [] demo_fleet MetaMem.New).
  - by intros d n [= <-].
  - lia.
  - done.
  - reflexivity.
  - unfold toy_ops. apply Forall_fmap, Forall_true. intros o. exact toy_fair.
  - exact demo_good.
  - intros sh b s' Hs. rewrite (demo_fleet_new _ _ _ Hs). split; [apply Memory.new_scoped|]. exists 18. split; [cbn; lia|]. vm_compute. reflexivity.
  - intros sh k x Hx. exfalso. revert Hx. cbn [holds demo_laws fleet_laws]. unfold fleet_holds.
    destruct (demo_fleet !! sh) as [[b s']|] eqn:Hs; [|done]. cbn. by rewrite (demo_fleet_new _ _ _ Hs).
  - done.
  - done.
  - done.
  - exact toy_admissible.
Defined.
