(* ===== verification/Construct.v ===== *)
(** * Clients and daemons from a configuration
      ([client/config.go], [client/client.go], [daemon/api/grpc/daemon.go])

    [TLS] models the TLS versions and options of the configuration, and the
    rest what is made of it: the cluster, with or without tokens of the identity
    service, the pipeline, and the metadata client over an etcd cluster, for a
    client and for the daemon.  Files, certificates, connections and the YAML
    parser are parameters. *)

From stdpp Require Import pretty.
From S2P Require Import Prelude Unicode Encoding GoStrings Jwt ServerAPI Datastor Cluster Spread Replicated Distributed Pipeline.
From S2P Require Import MetaProto MetaProtoProps Metastor MetaEtcd ZClient Processing PipelineConfig TokenGetter Iyo.
Import Registry GrpcCluster.
Open Scope Z_scope.

Module TLS.
(** [TLSVersion] is a [uint8]. *)
Definition UndefinedTLSVersion : Z := 0.
Definition TLSVersion12 : Z := 1.
Definition TLSVersion11 : Z := 2.
Definition TLSVersion10 : Z := 3.
Definition MaxTLSVersion : Z := TLSVersion10.

(** The values of [crypto/tls]. *)
Definition VersionTLS10 : Z := 769.
Definition VersionTLS11 : Z := 770.
Definition VersionTLS12 : Z := 771.

Definition TLSVersionStrings : list string := ["TLS12"; "TLS11"; "TLS10"]%string.
Definition TlsVersionValues : list Z := [VersionTLS12; VersionTLS11; VersionTLS10].

(** [l[i]] *)
Definition at_index {A} (l : list A) (i : Z) : outcome A :=
  match (if i <? 0 then None else l !! Z.to_nat i) with Some x => Ok x | None => Panic "index out of range" end.

Definition String_ (v : Z) : outcome string :=
  if (v =? UndefinedTLSVersion) || (MaxTLSVersion <? v) then Ok EmptyString else at_index TLSVersionStrings (v - 1).

(** A nil text, without an error, for an undefined version. *)
Definition MarshalText (v : Z) : outcome slice :=
  if MaxTLSVersion <? v then Err (ErrNew ("invalid in-memory TLS version " +:+ pretty v))
  else if v =? UndefinedTLSVersion then Ok None
  else let! s := at_index TLSVersionStrings (v - 1) in Ok (Some (str_bytes s)).

(** The position of a text in the table. *)
Fixpoint find_index (l : list string) (str : string) (i : Z) : option Z :=
  match l with
  | [] => None
  | s :: l' => if bool_decide (s = str) then Some i else find_index l' str (i + 1)
  end.

(** The new value, or an error that leaves the old one. *)
Definition UnmarshalText (text : string) : outcome Z :=
  let str := ToUpper text in
  if (String.length str =? 0)%nat then Ok UndefinedTLSVersion
  else match find_index TLSVersionStrings str 0 with
  | Some index => Ok (index + 1)
  | None => Err (ErrNew ("TLS version " +:+ str +:+ " not recognized or supported"))
  end.

Definition VersionTLSOrDefault (v def : Z) : outcome Z :=
  if MaxTLSVersion <? v then Panic ("invalid TLS Version: " +:+ pretty v)
  else if v =? UndefinedTLSVersion then Ok def
  else at_index TlsVersionValues (v - 1).

Record DataStorTLSConfig := {
  Enabled : bool; ServerName : string; RootCA : string; MinVersion : Z; MaxVersion : Z;
}.

Section Options.
(** Pools of certificates, and files. *)
Context {P : Type} (SystemCertPool : outcome P) (NewCertPool : P) (AppendCertsFromPEM : P -> bytes -> option P)
  (ReadFile : string -> outcome bytes).

(** [tls.Config], with zero for a version that is not set. *)
Record tls_Config := {
  tc_MinVersion : Z; tc_MaxVersion : Z; tc_ServerName : string; tc_InsecureSkipVerify : bool; tc_RootCAs : P;
}.

(** The certificates of the two functions; [err] is nil where the last text
    prints it. *)
Definition rootCAs (config : DataStorTLSConfig) : outcome P :=
  if bool_decide (RootCA config = EmptyString) then
    match SystemCertPool with
    | Err err => Err (ErrNew ("failed to create datastor TLS config: " +:+ error_text err))
    | r => r
    end
  else
    let! caFile := ReadFile (RootCA config) in
    match AppendCertsFromPEM NewCertPool caFile with
    | Some pool => Ok pool
    | None => Err (ErrNew ("error reading CA file '" +:+ RootCA config +:+ "', while creating datastor TLS config: <nil>"))
    end.

Definition with_options (min max : Z) (config : DataStorTLSConfig) : outcome (option tls_Config) :=
  let! pool := rootCAs config in
  Ok (Some {| tc_MinVersion := min; tc_MaxVersion := max; tc_ServerName := ServerName config;
              tc_InsecureSkipVerify := bool_decide (ServerName config = EmptyString); tc_RootCAs := pool |}).

(** The function of the client. *)
Definition createTLSConfigFromDatastorTLSConfig (config : option DataStorTLSConfig) : outcome (option tls_Config) :=
  match config with
  | None => Ok None
  | Some config =>
      if negb (Enabled config) then Ok None
      else
        let! min := VersionTLSOrDefault (MinVersion config) VersionTLS11 in
        let! max := VersionTLSOrDefault (MaxVersion config) VersionTLS12 in
        with_options min max config
  end.

(** The daemon's own copy, which sets no versions. *)
Definition daemon_createTLSConfigFromDatastorTLSConfig (config : option DataStorTLSConfig) : outcome (option tls_Config) :=
  match config with
  | None => Ok None
  | Some config => if negb (Enabled config) then Ok None else with_options 0 0 config
  end.
End Options.
Arguments tls_Config : clear implicits.

(** ** Versions and their texts *)
Lemma version_cases v : 0 <= v <= MaxTLSVersion -> v = 0 \/ v = 1 \/ v = 2 \/ v = 3.
Proof. unfold MaxTLSVersion, TLSVersion10. lia. Qed.

Lemma find_index_upper l text i r :
  find_index l (ToUpper text) i = Some r -> exists s, l !! Z.to_nat (r - i) = Some s /\ s = ToUpper text /\ i <= r.
Proof.
  revert i; induction l as [|s l IH]; intros i; cbn [find_index]; [done|].
  case_bool_decide as E; [intros [= <-]; exists s; by rewrite Z.sub_diag|]. intros H.
  destruct (IH _ H) as (s' & Hs & -> & Hle). exists (ToUpper text). split_and!; [|done|lia].
  replace (Z.to_nat (r - i)) with (S (Z.to_nat (r - (i + 1)))) by lia. done.
Qed.

(** The text form of a TLS version: the in-memory versions are written as
    the name in the table, the undefined one as nothing, and read back as
    themselves, whatever the case of the letters; nothing else is read, and
    other numbers are not written.  The version that a configuration stands for
    is its table value, the given default when it is undefined, and a panic for
    a number outside the table. *)
Theorem tls_version_text (v : Z) (text : string) :
  0 <= v < 256 ->
  (v <= MaxTLSVersion -> exists t, String_ v = Ok t /\ UnmarshalText t = Ok v /\
     slice_bytes <$> (match MarshalText v with Ok b => Some b | _ => None end) = Some (str_bytes t) /\
     (ToUpper text = t -> UnmarshalText text = Ok v)) /\
  (UnmarshalText text = Ok v -> v <= MaxTLSVersion /\ String_ v = Ok (ToUpper text)) /\
  (MaxTLSVersion < v -> (exists e, MarshalText v = Err e) /\ forall def, exists p, VersionTLSOrDefault v def = Panic p) /\
  (v <= MaxTLSVersion -> forall def, VersionTLSOrDefault v def =
     Ok (if v =? UndefinedTLSVersion then def else 772 - v)).
Proof.
  intros Hv. split_and!.
  - intros Hm. destruct (version_cases v) as [->|[->|[->| ->]]]; [lia|..]; eexists; (split; [reflexivity|]); (split; [vm_compute; reflexivity|]);
      (split; [vm_compute; reflexivity|]); unfold UnmarshalText; intros ->; vm_compute; reflexivity.
  - unfold UnmarshalText. destruct (Nat.eqb_spec (String.length (ToUpper text)) 0) as [Hl|Hl].
    { intros [= <-]. destruct (ToUpper text); [|done]. by vm_compute. }
    destruct (find_index _ _ 0) as [r|] eqn:E; [|done]. intros [= <-]. apply find_index_upper in E as (s & Hs & <- & Hr).
    rewrite Z.sub_0_r in Hs. pose proof (lookup_lt_Some _ _ _ Hs) as Hlt. change (length TLSVersionStrings) with 3%nat in Hlt.
    assert (r = 0 \/ r = 1 \/ r = 2) as [->|[->| ->]] by lia; injection Hs as <-; by vm_compute.
  - intros Hm. unfold MarshalText, VersionTLSOrDefault. apply Z.ltb_lt in Hm. rewrite Hm. by split; [eexists|intros; eexists].
  - intros Hm def. destruct (version_cases v) as [->|[->|[->| ->]]]; [lia|reflexivity..].
Qed.

Lemma tls_version_text_witness : UnmarshalText "tls11" = Ok TLSVersion11 /\ VersionTLSOrDefault TLSVersion11 0 = Ok VersionTLS11.
Proof.
  destruct (tls_version_text TLSVersion11 "tls11" ltac:(unfold TLSVersion11; lia)) as (H1 & _ & _ & H4).
  split; [|rewrite (H4 ltac:(by vm_compute)); reflexivity].
  destruct (H1 ltac:(by vm_compute)) as (t & Ht & _ & _ & Hu). apply Hu. vm_compute in Ht. by injection Ht as <-.
Defined.
End TLS.

(** ** The configuration *)
Record MetaStorEncryptionConfig := { me_PrivateKey : string; me_Type : Z }.

Record MetaStorConfig := { Endpoints : list string; MetaEncryption : MetaStorEncryptionConfig; Encoding_ : Z }.

Record DataStorConfig := { Shards : list string; PipelineCfg : PipelineConfig.Config; TLSCfg : TLS.DataStorTLSConfig }.

Record Config := { IYO : Iyo.Config; Namespace : string; DataStor : DataStorConfig; MetaStor : MetaStorConfig }.

(** [yaml.Unmarshal] is of another package. *)
Definition ReadConfig (ReadFile : string -> outcome bytes) (Unmarshal : bytes -> outcome Config) (path : string) : outcome Config :=
  let! b := ReadFile path in Unmarshal b.

#[export] Instance iyo_config_eq_dec : EqDecision Iyo.Config.
Proof. solve_decision. Defined.

Definition no_iyo : Iyo.Config := {| Organization := ""; ApplicationID := ""; ApplicationSecret := "" |}.

(** ** What is made of it *)
Section Make.
(** The world of the identity service, [V], and the caches of tokens, [C]. *)
Context {V C : Type} `{Identity V} `{LRU C cachedJWTToken}.
Context (parse_exp : string -> outcome (option Z)) (new_lru : Z -> C) (clock : V -> Z * Z).
Local Abbreviation World := (V * list C)%type.

(** Certificates and files, and connections to a server with the given TLS options. *)
Context {P : Type} (SystemCertPool : outcome P) (NewCertPool : P) (AppendCertsFromPEM : P -> bytes -> option P)
  (ReadFile : string -> outcome bytes) (Dial : option (TLS.tls_Config P) -> string -> outcome (Services World)).

(** The registries, the parameters of the pipelines, and the connection to etcd. *)
Context (compressions : registry (CompressionMode -> outcome SharedProcessor))
  (encryptions : registry (bytes -> outcome SharedProcessor))
  (hashes : registry (slice -> outcome (bytes -> bytes)))
  (encodings : registry MarshalFuncPair)
  (defaultHasher : outcome (bytes -> bytes)) (DefaultJobCount : nat) (NewReedSolomon : Z -> Z -> outcome EncodeReconster).
Context {N : Type} (connect : list string -> outcome (MetaEtcd.etcd N)).

(** *** The metadata client *)
Definition createMetastorClientFromConfigAndDatabase (cfg : MetaStorConfig) : outcome MarshalFuncPair :=
  let! funcPair := MarshalTypes.NewMarshalFuncPair encodings (Encoding_ cfg) in
  let funcs := Some (Some (Marshal funcPair), Some (Unmarshal funcPair)) in
  if (String.length (me_PrivateKey (MetaEncryption cfg)) =? 0)%nat
  then Metastor.NewClient {| Database := true; FuncPair := funcs; ProcessorConstructor := None |}
  else
    let constructor :=
      let! p := NewEncrypterDecrypter encryptions (me_Type (MetaEncryption cfg)) (str_bytes (me_PrivateKey (MetaEncryption cfg))) in
      Ok (proc p) in
    let! _ := constructor in
    Metastor.NewClient {| Database := true; FuncPair := funcs; ProcessorConstructor := Some constructor |}.

(** The database that was opened comes second: it stays open on an error. *)
Definition createMetastorClientFromConfig (cfg : MetaStorConfig) : outcome MarshalFuncPair * option (MetaEtcd.etcd N) :=
  if (length (Endpoints cfg) =? 0)%nat then (Err (ErrNew "no metadata storage ETCD endpoints given"), None)
  else match MetaEtcd.New connect (Endpoints cfg) with
  | Err e => (Err e, None)
  | Panic p => (Panic p, None)
  | Ok db => (createMetastorClientFromConfigAndDatabase cfg, Some db)
  end.

(** *** Token getters, with their state in the world *)
Definition on_identity {A} (p : prog V A) : prog World A := fun '(v, cs) => let '(r, v) := p v in (r, (v, cs)).

Definition plain_getter (tg : TokenGetter V) : JWTTokenGetter World :=
  {| GetJWTToken ns := on_identity (GetJWTToken tg ns); GetLabel := GetLabel tg |}.

Definition cached_getter (tg : TokenGetter V) : JWTTokenGetter World :=
  {| GetJWTToken ns := fun '(v, cs) => cache_GetJWTToken tg (clock v).1 (clock v).2 ns (v, cs); GetLabel := GetLabel tg |}.

(** *** The cluster *)

(** [storgrpc.NewCluster] with the TLS options. *)
Definition new_cluster (cfg : Config) (getter : option (JWTTokenGetter World)) (tls : option (TLS.tls_Config P))
  : outcome (Cluster World) :=
  (NewCluster (fun address on => Dial (if on then tls else None) address) (Shards (DataStor cfg)) (Namespace cfg) getter
    (bool_decide (is_Some tls))).1.

(** The cluster, and the buckets of a cache that was made. *)
Definition token_cluster (cfg : Config) (client : option Iyo.Config) (enableCaching : bool) (tls : option (TLS.tls_Config P))
  : outcome (Cluster World * list C) :=
  let! iyo := JWTTokenGetterUsingIYOClient (Organization (IYO cfg)) (bool_decide (is_Some client)) in
  let tg := iyo_getter (Iyo.CreateJWT (default no_iyo client)) parse_exp iyo in
  if enableCaching then
    let! buckets := CachedJWTTokenGetter new_lru true (-1) (-1) in
    let! cluster := new_cluster cfg (Some (cached_getter tg)) tls in Ok (cluster, buckets)
  else let! cluster := new_cluster cfg (Some (plain_getter tg)) tls in Ok (cluster, []).

Definition createDataClusterFromConfig (cfg : Config) (enableCaching : bool) : outcome (Cluster World * list C) :=
  let! tls := TLS.createTLSConfigFromDatastorTLSConfig SystemCertPool NewCertPool AppendCertsFromPEM ReadFile
                (Some (TLSCfg (DataStor cfg))) in
  if bool_decide (IYO cfg = no_iyo)
  then let! cluster := new_cluster cfg None tls in Ok (cluster, [])
  else
    let! client := Iyo.NewClient (IYO cfg) in
    token_cluster cfg (Some client) enableCaching tls.

(** *** The client *)
Record Client := {
  c_cluster : Cluster World; c_buckets : list C; c_pipeline : AnyPipeline;
  c_codec : MarshalFuncPair; c_database : MetaEtcd.etcd N;
}.

Definition make_pipeline (cfg : Config) (cluster : Cluster World) (jobCount : Z) : outcome AnyPipeline :=
  NewPipeline compressions encryptions hashes defaultHasher DefaultJobCount NewReedSolomon (PipelineCfg (DataStor cfg))
    (Some (ListedShardCount cluster)) jobCount.

(** What was opened on the way, and is still open when a constructor returns: the
    shards of a cluster, and a database.  Once made, neither is closed by a
    constructor of a client. *)
Record opened := { open_shards_ : list (Shard World); open_database : option (MetaEtcd.etcd N) }.
Definition nothing : opened := {| open_shards_ := []; open_database := None |}.

Definition fails_with {A} (r : outcome A) (left : opened) : outcome Client * opened :=
  match r with Err e => (Err e, left) | Panic p => (Panic p, left) | Ok _ => (Panic "unreachable", left) end.

(** What follows once the cluster is made. *)
Definition client_from (cfg : Config) (jobCount : Z) (made : outcome (Cluster World * list C)) : outcome Client * opened :=
  match made with
  | Ok (cluster, buckets) =>
      match make_pipeline cfg cluster jobCount with
      | Ok pipeline =>
          match createMetastorClientFromConfig (MetaStor cfg) with
          | (Ok codec, Some db) =>
              (let! _ := ZClient.NewClient (Some codec) (Some pipeline) in
               Ok {| c_cluster := cluster; c_buckets := buckets; c_pipeline := pipeline; c_codec := codec; c_database := db |},
               {| open_shards_ := listedSlice cluster; open_database := Some db |})
          | (r, db) => fails_with r {| open_shards_ := listedSlice cluster; open_database := db |}
          end
      | r => fails_with r {| open_shards_ := listedSlice cluster; open_database := None |}
      end
  | r => fails_with r nothing
  end.

Definition newClientFromConfig (cfg : Config) (jobCount : Z) (enableCaching : bool) : outcome Client * opened :=
  client_from cfg jobCount (createDataClusterFromConfig cfg enableCaching).

Definition NewClientFromConfig (cfg : Config) (jobCount : Z) : outcome Client * opened := newClientFromConfig cfg jobCount true.
Definition NewClientFromConfigWithoutCaching (cfg : Config) (jobCount : Z) : outcome Client * opened :=
  newClientFromConfig cfg jobCount false.

(** *** The daemon ([daemon.go]) *)
Record DaemonConfig := {
  d_Pipeline : option AnyPipeline; d_MetaClient : option (MarshalFuncPair * MetaEtcd.etcd N);
  d_IYOClient : option Iyo.Config; d_MaxMsgSize : Z; d_DisableLocalFSAccess : bool;
}.

Definition DefaultMaxMsgSize : Z := 32.

Definition validateAndSanitize (cfg : DaemonConfig) : outcome DaemonConfig :=
  match d_Pipeline cfg, d_MetaClient cfg with
  | None, _ => Err (ErrNew "no pipeline given, while one is required")
  | _, None => Err (ErrNew "no metastor client given, while one is required")
  | _, _ =>
      Ok {| d_Pipeline := d_Pipeline cfg; d_MetaClient := d_MetaClient cfg; d_IYOClient := d_IYOClient cfg;
            d_MaxMsgSize := if d_MaxMsgSize cfg <=? 0 then DefaultMaxMsgSize else d_MaxMsgSize cfg;
            d_DisableLocalFSAccess := d_DisableLocalFSAccess cfg |}
  end.

(** A daemon: the client of its services, the limit of its messages in bytes, an
    [int], and whether the namespace service has an identity client. *)
Record Daemon := {
  d_client : MarshalFuncPair * AnyPipeline; d_database : MetaEtcd.etcd N; d_maxMsgSize : Z;
  d_namespaces : option Iyo.Config; d_noLocalFS : bool;
}.

Definition New (cfg : DaemonConfig) : outcome Daemon :=
  let! cfg := validateAndSanitize cfg in
  let! client := ZClient.NewClient (fst <$> d_MetaClient cfg) (d_Pipeline cfg) in
  match d_MetaClient cfg with
  | None => Panic nil_pointer
  | Some (_, db) =>
      Ok {| d_client := client; d_database := db; d_maxMsgSize := i64 (d_MaxMsgSize cfg * 1024 * 1024);
            d_namespaces := d_IYOClient cfg; d_noLocalFS := d_DisableLocalFSAccess cfg |}
  end.

(** The daemon has its own copies of the functions that make its parts. *)
Definition daemon_createMetastorClientFromConfig (cfg : MetaStorConfig) : outcome MarshalFuncPair * option (MetaEtcd.etcd N) :=
  if (length (Endpoints cfg) =? 0)%nat then (Err (ErrNew "no metadata storage ETCD endpoints given"), None)
  else match MetaEtcd.New connect (Endpoints cfg) with
  | Err e => (Err e, None)
  | Panic p => (Panic p, None)
  | Ok db =>
      (let! funcPair := MarshalTypes.NewMarshalFuncPair encodings (Encoding_ cfg) in
       let funcs := Some (Some (Marshal funcPair), Some (Unmarshal funcPair)) in
       let privateKey := me_PrivateKey (MetaEncryption cfg) in
       if (String.length privateKey =? 0)%nat
       then Metastor.NewClient {| Database := true; FuncPair := funcs; ProcessorConstructor := None |}
       else
         let constructor :=
           let! p := NewEncrypterDecrypter encryptions (me_Type (MetaEncryption cfg)) (str_bytes privateKey) in Ok (proc p) in
         let! _ := constructor in
         Metastor.NewClient {| Database := true; FuncPair := funcs; ProcessorConstructor := Some constructor |}, Some db)
  end.

Definition daemon_createDataClusterFromConfig (cfg : Config) (iyoClient : option Iyo.Config) : outcome (Cluster World * list C) :=
  let! tls := TLS.daemon_createTLSConfigFromDatastorTLSConfig SystemCertPool NewCertPool AppendCertsFromPEM ReadFile
                (Some (TLSCfg (DataStor cfg))) in
  match iyoClient with
  | None => let! cluster := new_cluster cfg None tls in Ok (cluster, [])
  | Some _ => token_cluster cfg iyoClient true tls
  end.

Definition daemon_fails {A} (r : outcome A) (left : opened) : outcome (Daemon * (Cluster World * list C)) * opened :=
  match r with Err e => (Err e, left) | Panic p => (Panic p, left) | Ok _ => (Panic "unreachable", left) end.

(** The daemon with the cluster and the token cache that its pipeline uses, once
    the cluster is made. *)
Definition daemon_from (cfg : Config) (maxMsgSize jobCount : Z) (disableLocalFSAccess : bool) (iyoClient : option Iyo.Config)
    (made : outcome (Cluster World * list C)) : outcome (Daemon * (Cluster World * list C)) * opened :=
  match made with
  | Ok (cluster, buckets) =>
      match make_pipeline cfg cluster jobCount with
      | Ok pipeline =>
          match daemon_createMetastorClientFromConfig (MetaStor cfg) with
          | (Ok codec, Some db) =>
              (let! d := New {| d_Pipeline := Some pipeline; d_MetaClient := Some (codec, db); d_IYOClient := iyoClient;
                                d_MaxMsgSize := maxMsgSize; d_DisableLocalFSAccess := disableLocalFSAccess |} in
               Ok (d, (cluster, buckets)), {| open_shards_ := listedSlice cluster; open_database := Some db |})
          | (r, db) => daemon_fails r {| open_shards_ := listedSlice cluster; open_database := db |}
          end
      | r => daemon_fails r {| open_shards_ := listedSlice cluster; open_database := None |}
      end
  | r => daemon_fails r nothing
  end.

Definition NewFromClientConfig (cfg : Config) (maxMsgSize jobCount : Z) (disableLocalFSAccess : bool)
  : outcome (Daemon * (Cluster World * list C)) * opened :=
  if bool_decide (IYO cfg = no_iyo)
  then daemon_from cfg maxMsgSize jobCount disableLocalFSAccess None (daemon_createDataClusterFromConfig cfg None)
  else match Iyo.NewClient (IYO cfg) with
  | Ok client => daemon_from cfg maxMsgSize jobCount disableLocalFSAccess (Some client) (daemon_createDataClusterFromConfig cfg (Some client))
  | r => daemon_fails r nothing
  end.

(** [Serve] and [Close]: the end of a listener is no error. *)
Definition ErrServerStopped := ErrVar "grpc" "ErrServerStopped" "grpc: the server has been stopped".

Definition isClosedConnError (err : error) : bool :=
  bool_decide (err = ErrServerStopped) || Contains (error_text err) "closed".

Definition Serve (serve_err : option error) : outcome unit :=
  match serve_err with
  | Some err => if negb (isClosedConnError err) then Err err else Ok tt
  | None => Ok tt
  end.

(** ** What the functions promise *)

(** The TLS options of a client and of a daemon. *)
Lemma with_options_ok min max config tc :
  TLS.with_options SystemCertPool NewCertPool AppendCertsFromPEM ReadFile min max config = Ok (Some tc) ->
  TLS.tc_MinVersion tc = min /\ TLS.tc_MaxVersion tc = max /\ TLS.tc_ServerName tc = TLS.ServerName config /\
  (TLS.tc_InsecureSkipVerify tc = true <-> TLS.ServerName config = EmptyString).
Proof using.
  intros (pool & _ & [= <-])%obind_Ok_inv. cbn. by rewrite bool_decide_eq_true.
Qed.

(** The TLS options that a configuration stands for: without TLS there are
    none; otherwise the name of the server is the configured one, certificates are
    verified if and only if a name is configured, and the client allows the
    configured versions, or 1.1 to 1.2.  The daemon's options have the same
    name and verification, and leave both versions to the defaults of the
    library, whatever is configured. *)
Theorem tls_options (config : TLS.DataStorTLSConfig) (tc : TLS.tls_Config P) :
  let client := TLS.createTLSConfigFromDatastorTLSConfig SystemCertPool NewCertPool AppendCertsFromPEM ReadFile (Some config) in
  let daemon := TLS.daemon_createTLSConfigFromDatastorTLSConfig SystemCertPool NewCertPool AppendCertsFromPEM ReadFile (Some config) in
  (TLS.Enabled config = false -> client = Ok None /\ daemon = Ok None) /\
  (client = Ok (Some tc) \/ daemon = Ok (Some tc) ->
     TLS.Enabled config = true /\ TLS.tc_ServerName tc = TLS.ServerName config /\
     (TLS.tc_InsecureSkipVerify tc = true <-> TLS.ServerName config = EmptyString)) /\
  (client = Ok (Some tc) ->
     TLS.VersionTLSOrDefault (TLS.MinVersion config) TLS.VersionTLS11 = Ok (TLS.tc_MinVersion tc) /\
     TLS.VersionTLSOrDefault (TLS.MaxVersion config) TLS.VersionTLS12 = Ok (TLS.tc_MaxVersion tc)) /\
  (daemon = Ok (Some tc) -> TLS.tc_MinVersion tc = 0 /\ TLS.tc_MaxVersion tc = 0).
Proof using.
  cbv zeta. unfold TLS.createTLSConfigFromDatastorTLSConfig, TLS.daemon_createTLSConfigFromDatastorTLSConfig.
  destruct (TLS.Enabled config); cbn [negb]; [|by split_and!; try done; intros [|]].
  destruct (TLS.VersionTLSOrDefault (TLS.MinVersion config) _) as [min|e|p]; cbn [obind];
    [destruct (TLS.VersionTLSOrDefault (TLS.MaxVersion config) _) as [max|e|p]; cbn [obind]|..];
    (split_and!; [done| | |]); try (intros [Hx|Hx]); try intros Hx; try discriminate Hx;
    apply with_options_ok in Hx as (Hmin & Hmax & Hn & Hv); by rewrite ?Hmin, ?Hmax.
Qed.

Lemma new_cluster_ok cfg getter tls cluster :
  new_cluster cfg getter tls = Ok cluster ->
  Shards (DataStor cfg) <> [] /\ Namespace cfg <> EmptyString /\ cluster_wf (Shards (DataStor cfg)) cluster /\
  cl_namespace cluster = Namespace cfg /\ cl_jwtTokenGetter cluster = getter /\
  (forall sh, sh ∈ listedSlice cluster -> Dial tls (sh_address sh) = Ok (c_services (sh_client sh))).
Proof using.
  unfold new_cluster. destruct (NewCluster _ _ _ _ _) as [r closed] eqn:E. cbn [fst]. intros ->. pose proof (NewCluster_wf _ _ _ _ _ _ _ E) as Hwf.
  unfold NewCluster in E. destruct (Nat.eqb_spec (length (Shards (DataStor cfg))) 0) as [|Hl]; [done|]. case_bool_decide as Hn; [done|].
  destruct (open_shards _ _ _ _ _ _ _) as [[[sl m]|e|p] cl] eqn:Eo; [|done..]. injection E as <- _. split_and!; try done; [intros Hx; by rewrite Hx in Hl|].
  assert (Hno : forall sh : Shard World, sh ∈ [] -> Datastor.NewClient (fun address on => Dial (if on then tls else None) address) (sh_address sh)
    (Namespace cfg) getter (bool_decide (is_Some tls)) = Ok (sh_client sh)) by (intros sh Hx; by apply not_elem_of_nil in Hx).
  intros sh Hin. pose proof (open_shards_made _ _ _ _ _ _ _ _ _ _ Hno Eo sh Hin) as Hmade. apply NewClient_services in Hmade. by destruct tls.
Qed.

(** The metadata functions undo each other, if the encodings and the
    encryptions do. *)
Context (Hencode : forall t p, ctors encodings !! t = Some p -> forall md b old, encodable md -> Marshal p md = Ok b ->
    Unmarshal p (Some b) (Some old) = Ok (decoded (Chunks old) md))
  (Hencrypt : forall t ctor k p, ctors encryptions !! t = Some ctor -> ctor k = Ok p -> inverts (proc p)).

(** The functions of the configured encoding, inside the configured encryption if there is a key. *)
Definition configured_codec (cfg : MetaStorConfig) (codec : MarshalFuncPair) : Prop :=
  exists p, ctors encodings !! Encoding_ cfg = Some p /\
    (me_PrivateKey (MetaEncryption cfg) = EmptyString -> codec = p) /\
    (me_PrivateKey (MetaEncryption cfg) <> EmptyString -> exists sp,
       NewEncrypterDecrypter encryptions (me_Type (MetaEncryption cfg)) (str_bytes (me_PrivateKey (MetaEncryption cfg))) = Ok sp /\
       codec = processed (Ok (proc sp)) p).

Lemma metadata_client_configured cfg codec :
  createMetastorClientFromConfigAndDatabase cfg = Ok codec -> configured_codec cfg codec.
Proof using.
  intros (p & Hp & Hrest)%obind_Ok_inv. unfold MarshalTypes.NewMarshalFuncPair in Hp.
  destruct (ctors encodings !! Encoding_ cfg) as [p'|] eqn:Ep; [|done]. injection Hp as ->. exists p. split; [done|].
  destruct (me_PrivateKey (MetaEncryption cfg)) as [|a key]; cbn [String.length Nat.eqb] in Hrest.
  { injection Hrest as <-. split; [by destruct p|done]. }
  split; [done|]. intros _. apply obind_Ok_inv in Hrest as (proc' & Hc & Hrest). rewrite Hc in Hrest. injection Hrest as <-.
  apply obind_Ok_inv in Hc as (sp & Hsp & [= <-]). exists sp. split; [done|]. by destruct p.
Qed.

Lemma metadata_client_roundtrip cfg codec md b old :
  createMetastorClientFromConfigAndDatabase cfg = Ok codec -> encodable md -> Marshal codec md = Ok b ->
  Unmarshal codec (Some b) (Some old) = Ok (decoded (Chunks old) md).
Proof using Hencode Hencrypt.
  intros (p & Hp & Hrest)%obind_Ok_inv Hmd. unfold MarshalTypes.NewMarshalFuncPair in Hp.
  destruct (ctors encodings !! Encoding_ cfg) as [p'|] eqn:Ep; [|done]. injection Hp as ->.
  destruct (String.length _ =? 0)%nat.
  { injection Hrest as <-. by apply (Hencode _ _ Ep). }
  apply obind_Ok_inv in Hrest as (proc' & Hc & Hrest). rewrite Hc in Hrest. injection Hrest as <-.
  apply obind_Ok_inv in Hc as (sp & Hsp & [= <-]). pose proof (encrypter_inverts encryptions Hencrypt _ _ _ Hsp) as Hinv.
  cbn. intros (b0 & Hb0 & Hw)%obind_Ok_inv. rewrite (Hinv _ _ Hw). cbn. by apply (Hencode _ _ Ep).
Qed.

Lemma createMetastorClient_ok cfg codec db :
  createMetastorClientFromConfig cfg = (Ok codec, db) ->
  Endpoints cfg <> [] /\ (forall d, db = Some d -> MetaEtcd.New connect (Endpoints cfg) = Ok d) /\ createMetastorClientFromConfigAndDatabase cfg = Ok codec.
Proof using.
  unfold createMetastorClientFromConfig. destruct (Nat.eqb_spec (length (Endpoints cfg)) 0) as [|Hl]; [done|].
  destruct (MetaEtcd.New connect (Endpoints cfg)) as [d|e|p]; [|done..]. intros [= <- <-]. split_and!; [intros Hx; by rewrite Hx in Hl|by intros d' [= ->]|done].
Qed.

(** The identity part: no tokens without a configuration, else the label of the
    organisation in front of the namespace. *)
Lemma createDataCluster_ok cfg caching cluster buckets :
  createDataClusterFromConfig cfg caching = Ok (cluster, buckets) ->
  Shards (DataStor cfg) <> [] /\ Namespace cfg <> EmptyString /\ cluster_wf (Shards (DataStor cfg)) cluster /\
  cl_namespace cluster = Namespace cfg /\
  (exists tls, TLS.createTLSConfigFromDatastorTLSConfig SystemCertPool NewCertPool AppendCertsFromPEM ReadFile (Some (TLSCfg (DataStor cfg))) = Ok tls /\
     forall sh, sh ∈ listedSlice cluster -> Dial tls (sh_address sh) = Ok (c_services (sh_client sh))) /\
  (IYO cfg = no_iyo /\ cl_jwtTokenGetter cluster = None /\ buckets = [] \/
   Iyo.NewClient (IYO cfg) = Ok (IYO cfg) /\ (if caching then CachedJWTTokenGetter new_lru true (-1) (-1) = Ok buckets else buckets = []) /\
   exists g, cl_jwtTokenGetter cluster = Some g /\
     forall ns, ns <> EmptyString -> GetLabel g ns = Ok (Organization (IYO cfg) +:+ "_0stor_" +:+ ns)).
Proof using.
  intros (tls & Htls & Hrest)%obind_Ok_inv. case_bool_decide as Hno.
  { apply obind_Ok_inv in Hrest as (cl & Hcl & [= <- <-]). apply new_cluster_ok in Hcl as (? & ? & ? & ? & ? & ?).
    split_and!; [done..| |by left]. by exists tls. }
  apply obind_Ok_inv in Hrest as (client & Hclient & Hrest).
  assert (client = IYO cfg) as -> by (unfold Iyo.NewClient in Hclient; repeat case_match; by simplify_eq).
  apply obind_Ok_inv in Hrest as (iyo & Hiyo & Hrest). unfold JWTTokenGetterUsingIYOClient in Hiyo.
  case_bool_decide as Horg; [done|]. injection Hiyo as <-.
  assert (Hlabel : forall ns, ns <> EmptyString -> iyo_GetLabel {| prefix := Organization (IYO cfg) +:+ "_0stor_" |} ns =
    Ok (Organization (IYO cfg) +:+ "_0stor_" +:+ ns)).
  { intros ns Hns. unfold iyo_GetLabel. rewrite bool_decide_eq_false_2 by done. cbn [prefix]. by rewrite str_app_assoc. }
  destruct caching; [apply obind_Ok_inv in Hrest as (bs & Hbs & Hrest)|]; apply obind_Ok_inv in Hrest as (cl & Hcl & [= <- <-]);
    apply new_cluster_ok in Hcl as (? & ? & ? & ? & ? & ?); (split_and!; [done..|by exists tls|right; split_and!; [done..|]]);
    eexists; (split; [done|]); done.
Qed.


(** A pipeline or metadata configuration that is refused leaves the connections
    to the shards open. *)
Lemma refused_configuration_leaks cfg jobCount caching cluster buckets e :
  createDataClusterFromConfig cfg caching = Ok (cluster, buckets) -> make_pipeline cfg cluster jobCount = Err e ->
  newClientFromConfig cfg jobCount caching = (Err e, {| open_shards_ := listedSlice cluster; open_database := None |}) /\
  listedSlice cluster <> [].
Proof using.
  intros Hcl Hpl. unfold newClientFromConfig, client_from. rewrite Hcl, Hpl. split; [done|].
  apply createDataCluster_ok in Hcl as (Hsh & _ & (Hs & _) & _). intros E. rewrite E in Hs. by rewrite <- Hs in Hsh.
Qed.

(** *** The daemon's copies *)
Lemma max_msg_size m :
  m < 2 ^ 43 -> let n := if m <=? 0 then DefaultMaxMsgSize else m in i64 (n * 1024 * 1024) = n * 2 ^ 20 /\ 0 < n * 2 ^ 20 < 2 ^ 63.
Proof using.
  intros Hm n. assert (0 < n < 2 ^ 43) by (unfold n, DefaultMaxMsgSize; destruct (Z.leb_spec m 0); lia).
  unfold i64, u64. rewrite Z.mod_small by lia. destruct (Z.ltb_spec (n * 1024 * 1024) (2 ^ 63)); lia.
Qed.

(** The same cluster gives the same client. *)
Lemma daemon_from_client cfg maxMsgSize jobCount noFS iyo made :
  maxMsgSize < 2 ^ 43 ->
  match client_from cfg jobCount made with
  | (Ok cl, o) => exists d, daemon_from cfg maxMsgSize jobCount noFS iyo made = (Ok (d, (c_cluster cl, c_buckets cl)), o) /\
      open_shards_ o = listedSlice (c_cluster cl) /\ open_database o = Some (d_database d) /\
      d_client d = (c_codec cl, c_pipeline cl) /\ d_database d = c_database cl /\ d_noLocalFS d = noFS /\ d_namespaces d = iyo /\
      d_maxMsgSize d = (if maxMsgSize <=? 0 then DefaultMaxMsgSize else maxMsgSize) * 2 ^ 20 /\ 0 < d_maxMsgSize d < 2 ^ 63
  | (Err e, rest) => daemon_from cfg maxMsgSize jobCount noFS iyo made = (Err e, rest)
  | (Panic p, rest) => daemon_from cfg maxMsgSize jobCount noFS iyo made = (Panic p, rest)
  end.
Proof using.
  intros Hmax. unfold client_from, daemon_from. destruct made as [[cluster buckets]|e|p]; [|done..].
  destruct (make_pipeline cfg cluster jobCount) as [pl|e|p]; [|done..].
  change (daemon_createMetastorClientFromConfig (MetaStor cfg)) with (createMetastorClientFromConfig (MetaStor cfg)).
  destruct (createMetastorClientFromConfig (MetaStor cfg)) as [[codec|e|p] [db|]]; [|done..].
  destruct (max_msg_size maxMsgSize Hmax) as [Hm Hb]. eexists. split; [reflexivity|].
  cbn [d_client d_database d_noLocalFS d_namespaces d_maxMsgSize d_MaxMsgSize]. rewrite Hm. split_and!; try done; apply Hb.
Qed.

(** C15. The daemon and the client agree: although the daemon has its own copies
    of the functions that make the parts, and makes its identity client first,
    it makes of a configuration without TLS the very cluster, pipeline and
    metadata functions that a client with a token cache has, with nothing open but
    these, and fails with the same error otherwise, leaving the same things open.  Its message limit is the
    given number of MiB, or the default, in bytes. *)
Theorem daemon_makes_the_client (cfg : Config) (maxMsgSize jobCount : Z) (noFS : bool) :
  TLS.Enabled (TLSCfg (DataStor cfg)) = false -> maxMsgSize < 2 ^ 43 ->
  match newClientFromConfig cfg jobCount true with
  | (Ok cl, o) => exists d, NewFromClientConfig cfg maxMsgSize jobCount noFS = (Ok (d, (c_cluster cl, c_buckets cl)), o) /\
      open_shards_ o = listedSlice (c_cluster cl) /\ open_database o = Some (d_database d) /\
      d_client d = (c_codec cl, c_pipeline cl) /\ d_database d = c_database cl /\ d_noLocalFS d = noFS /\
      d_namespaces d = (if bool_decide (IYO cfg = no_iyo) then None else Some (IYO cfg)) /\
      d_maxMsgSize d = (if maxMsgSize <=? 0 then DefaultMaxMsgSize else maxMsgSize) * 2 ^ 20 /\ 0 < d_maxMsgSize d < 2 ^ 63
  | (Err e, rest) => NewFromClientConfig cfg maxMsgSize jobCount noFS = (Err e, rest)
  | (Panic p, rest) => NewFromClientConfig cfg maxMsgSize jobCount noFS = (Panic p, rest)
  end.
Proof using.
  intros Htls Hmax. unfold newClientFromConfig, NewFromClientConfig, createDataClusterFromConfig, daemon_createDataClusterFromConfig.
  unfold TLS.createTLSConfigFromDatastorTLSConfig, TLS.daemon_createTLSConfigFromDatastorTLSConfig. rewrite Htls. cbn [negb obind].
  case_bool_decide as Hno; [by apply daemon_from_client|].
  destruct (Iyo.NewClient (IYO cfg)) as [client|e|p] eqn:Hc; cbn [obind]; [|done..].
  assert (client = IYO cfg) as -> by (unfold Iyo.NewClient in Hc; repeat case_match; by simplify_eq).
  by apply daemon_from_client.
Qed.
End Make.

(** ** A configuration with everything in it *)
#[local] Existing Instance small_lru_ops.
#[local] Existing Instances toy_compressors toy_aead toy_hashes.

Definition full_config : Config :=
  {| IYO := {| Organization := "org"; ApplicationID := "id"; ApplicationSecret := "secret" |}; Namespace := "ns";
     DataStor := {| Shards := ["a:1"; "b:1"; "c:1"]%string; PipelineCfg := toy_config;
                    TLSCfg := {| TLS.Enabled := false; TLS.ServerName := ""; TLS.RootCA := ""; TLS.MinVersion := 0; TLS.MaxVersion := 0 |} |};
     MetaStor := {| Endpoints := ["e:1"]%string; MetaEncryption := {| me_PrivateKey := "0123456789abcdef"; me_Type := 0 |}; Encoding_ := 0 |} |}.

Local Abbreviation demo_world := (orgs * list small_lru)%type.

Definition silent : Services demo_world := {|
  svc_CreateObject _ _ := pfail ErrGRPCDatabase; svc_GetObject _ _ := pfail ErrGRPCDatabase;
  svc_DeleteObject _ _ := pfail ErrGRPCDatabase; svc_GetObjectStatus _ _ := pfail ErrGRPCDatabase;
  svc_GetNamespace _ := pfail ErrGRPCDatabase; svc_ListObjectKeys _ := pfail ErrGRPCDatabase |}.

Definition std_encodings : registry MarshalFuncPair := match MarshalTypes.standard with Ok r => r | _ => new end.

Definition demo_client : Config -> Z -> bool -> outcome Client * opened :=
  newClientFromConfig (fun _ => Ok (Some 0)) (fun _ => empty_lru) (fun _ => (0, 0)) (Ok tt) tt (fun _ _ => Some tt)
    (fun _ => Ok []) (fun _ _ => Ok silent) std_compressions (std_encryptions toy_random) std_hashes std_encodings
    (Err (ErrNew "unused")) 8 (fun _ _ => Err (ErrNew "unused")) (fun _ => Ok MetaEtcd.empty).

Lemma std_encodings_decode t p : ctors std_encodings !! t = Some p -> forall md b old, encodable md -> Marshal p md = Ok b ->
  Unmarshal p (Some b) (Some old) = Ok (decoded (Chunks old) md).
Proof.
  change (ctors std_encodings) with (<[0 := proto_pair]> (∅ : gmap Z MarshalFuncPair)).
  intros [[<- <-]|[_ Hx]]%lookup_insert_Some; [|by rewrite lookup_empty in Hx]. intros md b old Hmd Hb.
  cbn in Hb. rewrite MarshalMetadata_spec in Hb. injection Hb as <-. by apply UnmarshalMetadata_encoding.
Qed.

Lemma std_encryptions_invert t ctor k p : ctors (std_encryptions toy_random) !! t = Some ctor -> ctor k = Ok p -> inverts (proc p).
Proof.
  intros Hc Hp. apply made_ctors in Hc as [name Hc]. apply list_elem_of_singleton in Hc as [= _ _ ->].
  eapply aes_inverts; [|exact Hp]. by intros d n [= <-].
Qed.

(** The configuration is accepted. *)
Lemma full_config_accepted : match (demo_client full_config 0 true).1 with Ok _ => true | _ => false end = true.
Proof. vm_compute. reflexivity. Qed.


Lemma daemon_makes_the_client_witness :
  exists d made o, NewFromClientConfig (fun _ => Ok (Some 0)) (fun _ => empty_lru) (fun _ => (0, 0)) (Ok tt) tt (fun _ _ => Some tt)
    (fun _ => Ok []) (fun _ _ => Ok silent) std_compressions (std_encryptions toy_random) std_hashes std_encodings
    (Err (ErrNew "unused")) 8 (fun _ _ => Err (ErrNew "unused")) (fun _ => Ok MetaEtcd.empty) full_config 0 0 true = (Ok (d, made), o) /\
    open_shards_ o = listedSlice made.1 /\ d_maxMsgSize d = 33554432.
Proof.
  pose proof (daemon_makes_the_client (fun _ => Ok (Some 0)) (fun _ => empty_lru) (fun _ => (0, 0)) (Ok tt) tt (fun _ _ => Some tt)
    (fun _ => Ok []) (fun _ _ => Ok silent) std_compressions (std_encryptions toy_random) std_hashes std_encodings
    (Err (ErrNew "unused")) 8 (fun _ _ => Err (ErrNew "unused")) (fun _ => Ok MetaEtcd.empty) full_config 0 0 true eq_refl eq_refl) as Hd.
  pose proof full_config_accepted as Hok. unfold demo_client in Hok.
  destruct (newClientFromConfig _ _ _ _ _ _ _ _ _ _ _ _ _ _ _ _ full_config 0 true) as [[cl|e|p] rest]; [|discriminate Hok..].
  destruct Hd as (d & Hd & Ho & _ & _ & _ & _ & _ & Hm & _). exists d, (c_cluster cl, c_buckets cl), rest. split; [exact Hd|]. split; [exact Ho|exact Hm].
Defined.
