(* ===== verification/Daemon.v ===== *)
(** * The client daemon ([daemon/api/grpc])

    The daemon offers the client over gRPC: a data service over the pipeline, a
    file service over the client, and a metadata service ([metadata_api.go],
    [data_api.go], [file_api.go], with [utils.go] and [rpctypes]); the namespace
    service is in [Iyo].  Requests are the fields that the handlers read;
    pointers of the protobuf messages are options.  The local file system is a
    parameter.

    The streaming handlers run two goroutines over an [io.Pipe].  A write to
    the pipe blocks until its bytes are read; what the reading end sees, and
    whether the writing end is left blocked for ever, is computed from the
    messages and from the number of reads that the consumer makes. *)

From S2P Require Import Prelude Iyo Encoding Spread Datastor Pipeline MetaProto MetaProtoProps Metastor MetaMem ZClient.
Import AsyncSplitter.
Open Scope nat_scope.

(** ** Errors ([rpctypes/error.go])

    Those of the namespace service are with it. *)
Definition ErrGRPCNilKey := ErrStatus 3 "daemon: key is not provided".
Definition ErrGRPCNilData := ErrStatus 3 "daemon: data is not provided".
Definition ErrGRPCNilFilePath := ErrStatus 3 "daemon: file path is not provided".
Definition ErrGRPCNilMetadata := ErrStatus 3 "daemon: metadata is not provided".
Definition ErrGRPCNilChunks := ErrStatus 3 "daemon: (meta) chunks are not provided".
Definition ErrGRPCInvalidChunkSize := ErrStatus 3 "daemon: invalid chunksize (has to be 1 or higher)".
Definition ErrGRPCKeyNotFound := ErrStatus 5 "daemon: key is no found".
Definition ErrGRPCDataNotRead := ErrStatus 5 "daemon: no data could be read".
Definition ErrGRPCDataCorrupted := ErrStatus 15 "daemon: data is corrupted".
Definition ErrGRPCInvalidFileMode := ErrStatus 12 "daemon: file mode not supported".
Definition ErrGRPCNoLocalFS := ErrStatus 7 "daemon: local filesystem access not allowed".
Definition ErrGRPCPermissionDenied := ErrStatus 7 "daemon: JWT token does not permit requested action".

Definition daemon_errors : list error :=
  [ErrGRPCNilKey; ErrGRPCNilData; ErrGRPCNilFilePath; ErrGRPCNilMetadata; ErrGRPCNilNamespace; ErrGRPCNilUserID;
   ErrGRPCNilPermissions; ErrGRPCNilChunks; ErrGRPCInvalidChunkSize; ErrGRPCKeyNotFound; ErrGRPCDataNotRead;
   ErrGRPCDataCorrupted; ErrGRPCNotSupported; ErrGRPCInvalidFileMode; ErrGRPCNoLocalFS; ErrGRPCPermissionDenied].

(** [mapDataStorError], [mapMetaStorError] and [mapZstorError]. *)
Definition mapDataStorError (e : error) : error :=
  if bool_decide (e = ErrObjectKeyNotFound) then ErrGRPCKeyNotFound
  else if bool_decide (e = ErrObjectCorrupted) then ErrGRPCDataCorrupted
  else if bool_decide (e = ErrNotPermitted) then ErrGRPCPermissionDenied
  else e.

Definition mapMetaStorError (e : error) : error :=
  if bool_decide (e = Metastor.ErrNotFound) then ErrGRPCKeyNotFound else e.

Definition mapZstorError (e : error) : error :=
  if bool_decide (e = Metastor.ErrNotFound) then ErrGRPCKeyNotFound else mapDataStorError e.

(** ** Messages and their conversion ([utils.go]) *)
Record pbObject := { pbo_Key : bytes; pbo_ShardID : string }.
Record pbChunk := { pbc_ChunkSize : Z; pbc_Objects : list (option pbObject); pbc_Hash : bytes }.
Record pbMetadata := {
  pbm_Key : bytes; pbm_TotalSize : Z; pbm_CreationEpoch : Z; pbm_LastWriteEpoch : Z; pbm_Chunks : list (option pbChunk) }.

(** The getters return the zero value for a nil pointer. *)
Definition convertProtoToInMemoryObject (o : option pbObject) : MetaObject :=
  match o with
  | Some o => {| mo_Key := pbo_Key o; mo_ShardID := pbo_ShardID o |}
  | None => {| mo_Key := []; mo_ShardID := "" |}
  end.

Definition convertProtoToInMemoryChunkSlice (chunks : list (option pbChunk)) : list Chunk :=
  (fun c => match c with
            | Some c => {| ch_Size := pbc_ChunkSize c; ch_Objects := convertProtoToInMemoryObject <$> pbc_Objects c;
                           ch_Hash := pbc_Hash c |}
            | None => {| ch_Size := 0; ch_Objects := []; ch_Hash := [] |}
            end) <$> chunks.

Definition convertProtoToInMemoryMetadata (m : pbMetadata) : Metadata :=
  {| Key := pbm_Key m; Size := pbm_TotalSize m; CreationEpoch := pbm_CreationEpoch m;
     LastWriteEpoch := pbm_LastWriteEpoch m; Chunks := convertProtoToInMemoryChunkSlice (pbm_Chunks m);
     PreviousKey := None; NextKey := None |}.

Definition convertInMemoryToProtoChunkSlice (chunks : list Chunk) : list (option pbChunk) :=
  (fun c => Some {| pbc_ChunkSize := ch_Size c; pbc_Hash := ch_Hash c;
                    pbc_Objects := (fun o => Some {| pbo_Key := mo_Key o; pbo_ShardID := mo_ShardID o |}) <$> ch_Objects c |})
    <$> chunks.

Definition convertInMemoryToProtoMetadata (m : Metadata) : pbMetadata :=
  {| pbm_Key := Key m; pbm_TotalSize := Size m; pbm_CreationEpoch := CreationEpoch m;
     pbm_LastWriteEpoch := LastWriteEpoch m; pbm_Chunks := convertInMemoryToProtoChunkSlice (Chunks m) |}.

(** [os.O_*] and [pb.FileMode*]. *)
Definition O_RDWR : Z := 0x2.
Definition O_CREATE : Z := 0x40.
Definition O_EXCL : Z := 0x80.
Definition O_TRUNC : Z := 0x200.
Definition O_APPEND : Z := 0x400.
Definition O_SYNC : Z := 0x101000.
Definition FileModeTruncate : Z := 0.
Definition FileModeAppend : Z := 1.
Definition FileModeExclusive : Z := 2.

Definition convertFileModeToSyscallFlags (fileMode : Z) : outcome Z :=
  let flags := Z.lor O_RDWR O_CREATE in
  if (fileMode =? FileModeTruncate)%Z then Ok (Z.lor flags O_TRUNC)
  else if (fileMode =? FileModeAppend)%Z then Ok (Z.lor flags O_APPEND)
  else if (fileMode =? FileModeExclusive)%Z then Ok (Z.lor flags O_EXCL)
  else Err ErrGRPCInvalidFileMode.

(** [pb.CheckStatus] *)
Inductive pbCheckStatus := pbCheckStatusInvalid | pbCheckStatusValid | pbCheckStatusOptimal.

Definition convertStorageToProtoCheckStatus (status : CheckStatus) : pbCheckStatus :=
  match status with
  | CheckStatusInvalid => pbCheckStatusInvalid
  | CheckStatusOptimal => pbCheckStatusOptimal
  | CheckStatusValid => pbCheckStatusValid
  end.

(** ** The local file system *)
Class FileSystem (F Handle : Type) := {
  fs_open : string -> prog F (Handle * Reader);
  fs_OpenFile : string -> Z -> Z -> prog F Handle;
  fs_write : Handle -> Writer F;
  fs_close : Handle -> prog F unit;
}.

Definition openFileToWrite `{FileSystem F Handle} (filePath : string) (fileMode : Z) (sync : bool) : prog F Handle :=
  if bool_decide (filePath = ""%string) then pfail ErrGRPCNilFilePath
  else
    do! flags := plift (convertFileModeToSyscallFlags fileMode) in
    let flags := if sync then Z.lor flags O_SYNC else flags in
    fs_OpenFile filePath flags 420.

(** ** Pipes *)

(** A handler that waits for a goroutine which waits for ever does not return. *)
Inductive finished (A : Type) := Returned (a : A) | Hangs.
Arguments Returned {A} a.
Arguments Hangs {A}.

(** A write of [data] to the pipe, as a reader with buffers of [n] bytes gets
    it: in pieces of at most [n] bytes, one empty piece when there is nothing. *)
Fixpoint pipe_rest (n fuel : nat) (data : bytes) : list bytes :=
  match fuel, data with
  | S fuel', _ :: _ => take n data :: pipe_rest n fuel' (drop n data)
  | _, _ => []
  end.

Definition pipe_pieces (n : nat) (data : bytes) : list bytes :=
  match data with [] => [[]] | _ => pipe_rest n (length data) data end.

(** What the reading end of a pipe sees of the writes [ws] and of the closing
    of the writing end, whatever made it close. *)
Definition pipe_reader (n : nat) (ws : list bytes) : Reader :=
  ((fun p => (p, None)) <$> (ws ≫= pipe_pieces n)) ++ [([], Some EOF)].

(** The writing end that [client.Read] is given, by the writes that it made. *)
Definition pipe_write : Writer (list bytes) := fun ws data => (ws ++ [data], None).

(** The goroutine that receives messages: the data that it writes to the pipe
    and the error with which it ends.  [recv] are the messages before
    [stream.Recv] fails with [fin]. *)
Fixpoint receive (recv : list bytes) (fin : error) : list bytes * option error :=
  match recv with
  | [] => ([], if bool_decide (fin = EOF) then None else Some fin)
  | data :: recv' =>
      if (length data =? 0) then ([], Some ErrGRPCNilData)
      else let '(ws, e) := receive recv' fin in (data :: ws, e)
  end.

(** Two goroutines, of which one stores what is received; [taken] is the number
    of reads that the storing one makes before it returns, [first] says which
    of two errors is the first.  When it returns without having read all data,
    the other one stays blocked. *)
Definition stream_in {St A} (n : nat) (store : Reader -> prog St A) (taken : Reader -> St -> nat) (first : bool)
    (recv : list bytes) (fin : error) : St -> finished (outcome A) * St :=
  fun s =>
    let '(ws, e2) := receive recv fin in
    let r := pipe_reader n ws in
    match store r s with
    | (Panic p, s') => (Returned (Panic p), s')
    | (res, s') =>
        if (taken r s <? length (ws ≫= pipe_pieces n)) then (Hangs, s')
        else
          (Returned match res, e2 with
                    | Ok a, None => Ok a
                    | Ok _, Some e => Err e
                    | Err e, None => Err e
                    | Err e, Some e' => if first then Err e else Err e'
                    | Panic p, _ => Panic p
                    end, s')
    end.

(** The goroutine that sends what is read from the pipe; it ends at the first
    message that cannot be sent.  The number of messages sent is counted. *)
Fixpoint send_all {Stream} (Send : Stream -> bytes -> outcome Stream) (pieces : list bytes) (st : Stream)
  : Stream * option error * nat :=
  match pieces with
  | [] => (st, None, 0)
  | p :: rest =>
      match Send st p with
      | Ok st' => let '(st'', e, k) := send_all Send rest st' in (st'', e, S k)
      | Err e => (st, Some e, 0)
      | Panic m => (st, Some (ErrNew m), 0)
      end
  end.

(** Two goroutines, of which one reads from the stores into the pipe.  When a
    message cannot be sent and data is left, the reading one stays blocked. *)
Definition stream_out {St Stream} (n : nat) (load : prog St (list bytes * option error))
    (Send : Stream -> bytes -> outcome Stream) (first : bool) (st : Stream) : St -> finished (Stream * option error) * St :=
  fun s =>
    match load s with
    | (Ok (ws, e1), s') =>
        let pieces := ws ≫= pipe_pieces n in
        let '(st', e2, k) := send_all Send pieces st in
        match e2 with
        | None => (Returned (st', e1), s')
        | Some e =>
            if (S k <? length pieces) then (Hangs, s')
            else (Returned (st', match e1 with Some e1 => Some (if first then e1 else e) | None => Some e end), s')
        end
    | (Err e, s') => (Returned (st, Some e), s')
    | (Panic p, s') => (Returned (st, Some (ErrNew p)), s')
    end.

(** ** The data service ([data_api.go]) *)
Module DataService.
Section Service.
Context `{DataPipeline D} `{FileSystem F Handle} (disableLocalFSAccess : bool) (n : nat).

Definition Write (data : bytes) : prog D (list (option pbChunk)) :=
  if (length data =? 0) then pfail ErrGRPCNilData
  else
    do! chunks := on_err mapDataStorError (pl_Write (Some (bytes_reader n (length data) data))) in
    pret (convertInMemoryToProtoChunkSlice chunks).

(** A call on one of the two parts of the state. *)
Definition on_fs {A} (p : prog F A) : prog (D * F) A := fun '(d, f) => let '(r, f) := p f in (r, (d, f)).
Definition on_pl {A} (p : prog D A) : prog (D * F) A := fun '(d, f) => let '(r, d) := p d in (r, (d, f)).

(** The error of closing the file is returned when there is no other. *)
Definition with_close {A} (h : Handle) (p : prog (D * F) A) : prog (D * F) A := fun s =>
  match p s with
  | (Ok a, s) => (do! _ := on_fs (fs_close h) in pret a) s
  | (Err e, s) => (Err e, (on_fs (fs_close h) s).2)
  | (Panic m, s) => (Panic m, (on_fs (fs_close h) s).2)
  end.

(** The error of closing the file is lost. *)
Definition with_close_ignored {A} (h : Handle) (p : prog (D * F) A) : prog (D * F) A := fun s =>
  let '(r, s) := p s in (r, (on_fs (fs_close h) s).2).

Definition WriteFile (filePath : string) : prog (D * F) (list (option pbChunk)) :=
  if disableLocalFSAccess then pfail ErrGRPCNoLocalFS
  else if bool_decide (filePath = ""%string) then pfail ErrGRPCNilFilePath
  else
    do! (h, file) := on_fs (fs_open filePath) in
    with_close h
      (do! chunks := on_err mapDataStorError (on_pl (pl_Write (Some file))) in
       pret (convertInMemoryToProtoChunkSlice chunks)).

Definition WriteStream (taken : Reader -> D -> nat) (first : bool) (recv : list bytes) (fin : error)
  : D -> finished (outcome (list (option pbChunk))) * D :=
  stream_in n (fun r => do! chunks := on_err mapDataStorError (pl_Write (Some r)) in
                        pret (convertInMemoryToProtoChunkSlice chunks)) taken first recv fin.

(** A read into a writer: its error is the error of the call. *)
Definition read_into {Out} (chunks : list (option pbChunk)) (w : Writer Out) (out : Out) : prog D Out :=
  do! (out, e) := on_err mapDataStorError (pl_Read (convertProtoToInMemoryChunkSlice chunks) (Some w) out) in
  match e with Some e => pfail (mapDataStorError e) | None => pret out end.

Definition Read (chunks : list (option pbChunk)) : prog D bytes :=
  if (length chunks =? 0) then pfail ErrGRPCNilChunks
  else
    do! data := read_into chunks append [] in
    if (length data =? 0) then pfail ErrGRPCDataNotRead else pret data.

Definition ReadFile (chunks : list (option pbChunk)) (filePath : string) (fileMode : Z) (sync : bool) : prog (D * F) unit :=
  if disableLocalFSAccess then pfail ErrGRPCNoLocalFS
  else if (length chunks =? 0) then pfail ErrGRPCNilChunks
  else
    do! h := on_fs (openFileToWrite filePath fileMode sync) in
    with_close_ignored h (fun '(d, f) =>
      match pl_Read (convertProtoToInMemoryChunkSlice chunks) (Some (fs_write h)) f d with
      | (Ok (f, None), d) => (Ok tt, (d, f))
      | (Ok (f, Some e), d) => (Err (mapDataStorError e), (d, f))
      | (Err e, d) => (Err (mapDataStorError e), (d, f))
      | (Panic m, d) => (Panic m, (d, f))
      end).

Definition ReadStream {Stream} (Send : Stream -> bytes -> outcome Stream) (first : bool) (chunkSize : Z)
    (chunks : list (option pbChunk)) (st : Stream) : D -> finished (Stream * option error) * D :=
  if (chunkSize <=? 0)%Z then fun d => (Returned (st, Some ErrGRPCInvalidChunkSize), d)
  else if (length chunks =? 0) then fun d => (Returned (st, Some ErrGRPCNilChunks), d)
  else stream_out (Z.to_nat chunkSize)
    (do! (ws, e) := on_err mapDataStorError (pl_Read (convertProtoToInMemoryChunkSlice chunks) (Some pipe_write) []) in
     pret (ws, mapDataStorError <$> e)) Send first st.

Definition Delete (chunks : list (option pbChunk)) : prog D unit :=
  if (length chunks =? 0) then pfail ErrGRPCNilChunks
  else on_err mapDataStorError (pl_Delete (convertProtoToInMemoryChunkSlice chunks)).

Definition Check (chunks : list (option pbChunk)) (fast : bool) : prog D pbCheckStatus :=
  if (length chunks =? 0) then pfail ErrGRPCNilChunks
  else
    do! status := on_err mapDataStorError (pl_Check (convertProtoToInMemoryChunkSlice chunks) fast) in
    pret (convertStorageToProtoCheckStatus status).

Definition Repair (chunks : list (option pbChunk)) : prog D (list (option pbChunk)) :=
  if (length chunks =? 0) then pfail ErrGRPCNilChunks
  else
    do! chunks := on_err mapDataStorError (pl_Repair (convertProtoToInMemoryChunkSlice chunks)) in
    pret (convertInMemoryToProtoChunkSlice chunks).
End Service.
End DataService.

(** ** The metadata service ([metadata_api.go]) *)
Module MetadataService.
Section Service.
Context `{MetaDB M} (c : MarshalFuncPair).

Definition SetMetadata (metadata : option pbMetadata) : prog M unit :=
  match metadata with
  | None => pfail ErrGRPCNilMetadata
  | Some metadata => on_err mapMetaStorError (Metastor.SetMetadata c (convertProtoToInMemoryMetadata metadata))
  end.

Definition GetMetadata (key : bytes) : prog M pbMetadata :=
  if (length key =? 0) then pfail ErrGRPCNilKey
  else
    do! metadata := on_err mapMetaStorError (Metastor.GetMetadata c key) in
    pret (convertInMemoryToProtoMetadata metadata).

Definition DeleteMetadata (key : bytes) : prog M unit :=
  if (length key =? 0) then pfail ErrGRPCNilKey
  else on_err mapMetaStorError (Metastor.DeleteMetadata key).
End Service.
End MetadataService.

(** ** The file service ([file_api.go]) *)
Module FileService.
(** The input of a request: a key, metadata, or neither. *)
Inductive input := InputKey (key : bytes) | InputMetadata (metadata : option pbMetadata) | NoInput.

Section Service.
Context `{DataPipeline D} `{MetaDB M} `{FileSystem F Handle} (c : MarshalFuncPair) (disableLocalFSAccess : bool) (n : nat).
Local Abbreviation Z0 := (D * M)%type.

(** A call that returns a pointer to metadata and an error. *)
Definition metadata_or_fail (p : prog Z0 (option Metadata * option error)) : prog Z0 pbMetadata :=
  do! r := on_err mapZstorError p in
  match r with
  | (_, Some e) => pfail (mapZstorError e)
  | (Some md, None) => pret (convertInMemoryToProtoMetadata md)
  | (None, None) => ppanic "invalid memory address or nil pointer dereference"
  end.

Definition Write (now : Z) (key data : bytes) : prog Z0 pbMetadata :=
  if (length key =? 0) then pfail ErrGRPCNilKey
  else if (length data =? 0) then pfail ErrGRPCNilData
  else metadata_or_fail (ZClient.Write c now key (Some (bytes_reader n (length data) data))).

Definition on_fs {A} (p : prog F A) : prog (Z0 * F) A := fun '(z, f) => let '(r, f) := p f in (r, (z, f)).
Definition on_client {A} (p : prog Z0 A) : prog (Z0 * F) A := fun '(z, f) => let '(r, z) := p z in (r, (z, f)).

Definition with_close {A} (h : Handle) (p : prog (Z0 * F) A) : prog (Z0 * F) A := fun s =>
  match p s with
  | (Ok a, s) => (do! _ := on_fs (fs_close h) in pret a) s
  | (Err e, s) => (Err e, (on_fs (fs_close h) s).2)
  | (Panic m, s) => (Panic m, (on_fs (fs_close h) s).2)
  end.

Definition WriteFile (now : Z) (key : bytes) (filePath : string) : prog (Z0 * F) pbMetadata :=
  if disableLocalFSAccess then pfail ErrGRPCNoLocalFS
  else if (length key =? 0) then pfail ErrGRPCNilKey
  else if bool_decide (filePath = ""%string) then pfail ErrGRPCNilFilePath
  else
    do! (h, file) := on_fs (fs_open filePath) in
    with_close h (on_client (metadata_or_fail (ZClient.Write c now key (Some file)))).

(** The key comes with the first message; [first_msg] is that message, or the
    error of receiving it. *)
Definition WriteStream (now : Z) (taken : Reader -> Z0 -> nat) (first : bool) (first_msg : outcome bytes) (recv : list bytes) (fin : error)
  : Z0 -> finished (outcome pbMetadata) * Z0 :=
  match first_msg with
  | Err e => fun z => (Returned (Err e), z)
  | Panic p => fun z => (Returned (Panic p), z)
  | Ok key =>
      if (length key =? 0) then fun z => (Returned (Err ErrGRPCNilKey), z)
      else stream_in n (fun r => metadata_or_fail (ZClient.Write c now key (Some r))) taken first recv fin
  end.

(** A read by key or by metadata; what was written before an error stays. *)
Definition read_input {Out} (inp : input) (w : Writer Out) (out : Out) : prog Z0 (Out * option error) :=
  match inp with
  | InputKey key => if (length key =? 0) then pret (out, Some ErrGRPCNilKey) else ZClient.Read c key (Some w) out
  | InputMetadata None => pret (out, Some ErrGRPCNilMetadata)
  | InputMetadata (Some md) => ReadWithMeta (convertProtoToInMemoryMetadata md) (Some w) out
  | NoInput => pret (out, Some ErrGRPCNilKey)
  end.

Definition Read (inp : input) : prog Z0 bytes :=
  do! (data, e) := on_err mapZstorError (read_input inp append []) in
  match e with
  | Some e => pfail (mapZstorError e)
  | None => if (length data =? 0) then pfail ErrGRPCDataNotRead else pret data
  end.

(** The file is opened before the input is looked at; the error of closing it
    is lost. *)
Definition ReadFile (inp : input) (filePath : string) (fileMode : Z) (sync : bool) : prog (Z0 * F) unit :=
  if disableLocalFSAccess then pfail ErrGRPCNoLocalFS
  else
    do! h := on_fs (openFileToWrite filePath fileMode sync) in
    fun '(z, f) =>
      let '(r, s) :=
        match read_input inp (fs_write h) f z with
        | (Ok (f, None), z) => (Ok tt, (z, f))
        | (Ok (f, Some e), z) => (Err (mapZstorError e), (z, f))
        | (Err e, z) => (Err (mapZstorError e), (z, f))
        | (Panic m, z) => (Panic m, (z, f))
        end in
      (r, (on_fs (fs_close h) s).2).

Definition ReadStream {Stream} (Send : Stream -> bytes -> outcome Stream) (first : bool) (chunkSize : Z)
    (inp : input) (st : Stream) : Z0 -> finished (Stream * option error) * Z0 :=
  if (chunkSize <=? 0)%Z then fun z => (Returned (st, Some ErrGRPCInvalidChunkSize), z)
  else fun z =>
    match stream_out (Z.to_nat chunkSize) (read_input inp pipe_write []) Send first st z with
    | (Returned (st, e), z) => (Returned (st, mapZstorError <$> e), z)
    | (Hangs, z) => (Hangs, z)
    end.

Definition Delete (inp : input) : prog Z0 unit :=
  match inp with
  | InputKey key => if (length key =? 0) then pfail ErrGRPCNilKey else on_err mapZstorError (ZClient.Delete c key)
  | InputMetadata None => pfail ErrGRPCNilMetadata
  | InputMetadata (Some md) => on_err mapZstorError (DeleteWithMeta (convertProtoToInMemoryMetadata md))
  | NoInput => pfail ErrGRPCNilKey
  end.

Definition Check (inp : input) (fast : bool) : prog Z0 pbCheckStatus :=
  do! status :=
    match inp with
    | InputKey key => if (length key =? 0) then pfail ErrGRPCNilKey else on_err mapZstorError (ZClient.Check c key fast)
    | InputMetadata None => pfail ErrGRPCNilMetadata
    | InputMetadata (Some md) => on_err mapZstorError (CheckWithMeta (convertProtoToInMemoryMetadata md) fast)
    | NoInput => pfail ErrGRPCNilKey
    end in
  pret (convertStorageToProtoCheckStatus status).

Definition Repair (now : Z) (key : bytes) : prog Z0 pbMetadata :=
  if (length key =? 0) then pfail ErrGRPCNilKey
  else metadata_or_fail (ZClient.Repair c now key).
End Service.
End FileService.
