(* ===== verification/DaemonProps.v ===== *)
(** * Properties of the client daemon

    What is stored through a stream is what was received, and is read back in
    any way ([stream_roundtrip]); a stored file is sent in order and in pieces of
    the asked size ([read_stream_sends]).  An interrupted upload is stored as if
    it were complete ([interrupted_upload_is_stored]), and a store that fails
    before it has read everything leaves the handler blocked
    ([failed_store_hangs]). *)

From S2P Require Import Prelude Iyo Encoding Spread Datastor Pipeline MetaProto MetaProtoProps Metastor MetaMem ZClient Daemon.
Import AsyncSplitter.
Open Scope nat_scope.

(** ** Conversions *)
Lemma chunks_roundtrip cs : convertProtoToInMemoryChunkSlice (convertInMemoryToProtoChunkSlice cs) = cs.
Proof.
  unfold convertProtoToInMemoryChunkSlice, convertInMemoryToProtoChunkSlice. rewrite <- list_fmap_compose.
  rewrite <- (list_fmap_id cs) at 2. apply list_fmap_ext. intros _ [sz os h] _. cbn. f_equal.
  rewrite <- list_fmap_compose. rewrite <- (list_fmap_id os) at 2. apply list_fmap_ext. by intros _ [k sh] _.
Qed.

(** Everything of the metadata is passed on but the links of the entry. *)
Lemma metadata_loses_links md :
  convertProtoToInMemoryMetadata (convertInMemoryToProtoMetadata md) =
    {| Key := Key md; Size := Size md; CreationEpoch := CreationEpoch md; LastWriteEpoch := LastWriteEpoch md;
       Chunks := Chunks md; PreviousKey := None; NextKey := None |}.
Proof. unfold convertProtoToInMemoryMetadata. cbn. by rewrite chunks_roundtrip. Qed.

(** Server errors are distinguishable, and the mappings keep them. *)
Lemma mapped_errors_stay e : e ∈ daemon_errors -> mapZstorError e = e /\ mapDataStorError e = e /\ mapMetaStorError e = e.
Proof.
  unfold daemon_errors. rewrite !elem_of_cons, elem_of_nil. intros Hin.
  repeat (destruct Hin as [->|Hin]; [by vm_compute|]). done.
Qed.

(** ** Pipes *)
Lemma pipe_rest_ok n fuel data :
  0 < n -> length data <= fuel ->
  concat (pipe_rest n fuel data) = data /\ Forall (fun p => 0 < length p <= n) (pipe_rest n fuel data).
Proof.
  intros Hn. revert data. induction fuel as [|fuel IH]; intros [|b data] Hl; cbn [length] in Hl; cbn [pipe_rest]; try done; try lia.
  destruct (IH (drop n (b :: data))) as [Hc Hf]; [rewrite length_drop; cbn [length]; lia|]. split.
  - cbn [concat]. rewrite Hc. apply take_drop.
  - constructor; [|done]. rewrite length_take. cbn [length]. lia.
Qed.

Lemma pipe_pieces_ok n data :
  0 < n -> concat (pipe_pieces n data) = data /\ Forall (fun p => length p <= n) (pipe_pieces n data) /\ pipe_pieces n data <> [].
Proof.
  intros Hn. unfold pipe_pieces. destruct data as [|b data]; [split_and!; [done|repeat constructor; cbn; lia|done]|].
  destruct (pipe_rest_ok n (length (b :: data)) (b :: data) Hn ltac:(lia)) as [Hc Hf]. split_and!; [done| |done].
  eapply Forall_impl; [exact Hf|]. cbn. lia.
Qed.

Lemma pieces_concat n ws : 0 < n -> concat (ws ≫= pipe_pieces n) = concat ws.
Proof.
  intros Hn. induction ws as [|w ws IH]; [done|]. rewrite bind_cons, concat_app, IH. cbn [concat].
  by rewrite (proj1 (pipe_pieces_ok n w Hn)).
Qed.

Lemma pieces_bound n ws : 0 < n -> Forall (fun p => length p <= n) (ws ≫= pipe_pieces n).
Proof.
  intros Hn. apply Forall_bind. apply Forall_forall. intros w _. apply (pipe_pieces_ok n w Hn).
Qed.

Lemma pieces_nonempty n ws : 0 < n -> ws <> [] -> ws ≫= pipe_pieces n <> [].
Proof.
  intros Hn Hws. destruct ws as [|w ws]; [done|]. rewrite bind_cons. intros E. apply List.app_eq_nil in E as [E _].
  by apply (pipe_pieces_ok n w Hn).
Qed.

(** Messages that are received in full are written to the pipe in full. *)
Lemma receive_all recv fin :
  Forall (fun d => d <> []) recv -> receive recv fin = (recv, if bool_decide (fin = EOF) then None else Some fin).
Proof.
  induction 1 as [|d recv Hd _ IH]; [done|]. cbn [receive]. rewrite length_nonempty by done. by rewrite IH.
Qed.

Lemma bytes_reader_rest n fuel data :
  bytes_reader n fuel data = ((fun p => (p, None)) <$> pipe_rest n fuel data) ++ [([], Some EOF)].
Proof. revert data. induction fuel as [|fuel IH]; intros data; [done|]. destruct data; [done|]. cbn. f_equal. apply IH. Qed.

Lemma bytes_reader_pipe n data : data <> [] -> bytes_reader n (length data) data = pipe_reader n [data].
Proof.
  intros Hd. unfold pipe_reader. rewrite bind_singleton. unfold pipe_pieces. destruct data; [done|]. apply bytes_reader_rest.
Qed.

Lemma send_all_collect pieces st : send_all (fun l (p : bytes) => Ok (l ++ [p])) pieces st = (st ++ pieces, None, length pieces).
Proof.
  revert st. induction pieces as [|p pieces IH]; intros st; cbn; [by rewrite app_nil_r|]. rewrite IH.
  by rewrite <- app_assoc.
Qed.

(** A stream that is read in full is sent in order, in pieces that are not
    larger than asked for. *)
Lemma stream_out_sends {St} (n : nat) (load : prog St (list bytes * option error)) first (s s' : St) ws :
  0 < n -> load s = (Ok (ws, None), s') ->
  exists pieces, stream_out n load (fun l p => Ok (l ++ [p])) first [] s = (Returned (pieces, None), s') /\
    concat pieces = concat ws /\ Forall (fun p => length p <= n) pieces.
Proof.
  intros Hn Hl. exists (ws ≫= pipe_pieces n). split_and!; [|by apply pieces_concat|by apply pieces_bound].
  unfold stream_out. rewrite Hl. by rewrite send_all_collect.
Qed.

(** ** The file service *)
Section FileService.
Context `{DataPipelineLaws D} `{MetaDBLaws M} (c : MarshalFuncPair) `{!Codec c} (n : nat) (Hn : 0 < n).
Local Abbreviation Z0 := (D * M)%type.

(** A client write that succeeds, as the handlers see it. *)
Lemma metadata_or_fail_ok (p : prog Z0 (option Metadata * option error)) s md s' :
  FileService.metadata_or_fail p s = (Ok md, s') ->
  exists m, p s = (Ok (Some m, None), s') /\ md = convertInMemoryToProtoMetadata m.
Proof using.
  unfold FileService.metadata_or_fail, on_err, pbind. destruct (p s) as [[[[m|] [e|]]|e|q] s1]; try done.
  intros [= <- <-]. by exists m.
Qed.

(** What a write of a whole pipe means for the map that the client stores. *)
Lemma store_pipe now key ws k kv s md s' :
  key <> [] -> ws <> [] -> represents c (pl_cost (pipe_reader n ws) + k) kv s ->
  (forall chunks d', pl_Write (Some (pipe_reader n ws)) s.1 = (Ok chunks, d') -> storable c key (new_metadata now key None chunks)) ->
  FileService.metadata_or_fail (ZClient.Write c now key (Some (pipe_reader n ws))) s = (Ok md, s') ->
  pbm_Key md = key /\ represents c k (<[key := concat ws]> kv) s'.
Proof using Hn.
  intros Hk Hws Hrep Henc Hst. apply metadata_or_fail_ok in Hst as (m & Hw & ->).
  assert (Hin : pl_input (pipe_reader n ws) = Some (concat ws)).
  { unfold pipe_reader. rewrite pl_input_law by (by apply pieces_nonempty). by rewrite pieces_concat. }
  destruct (Write_refines c now key _ _ _ _ _ _ _ Hk Hrep Hin Henc Hw) as [(m' & [= <-] & Hkey & Hrep')|[Hno _]]; [done|].
  by destruct (Hno m).
Qed.

Lemma Read_stored key x k kv s :
  pl_ready -> key <> [] -> x <> [] -> represents c k kv s -> kv !! key = Some x ->
  exists s', FileService.Read c (FileService.InputKey key) s = (Ok x, s') /\ represents c k kv s'.
Proof using.
  intros Hrd Hk Hx Hrep Hkv. destruct (Read_ready c key [] k kv s Hrd Hk Hrep) as (s' & Hrep' & Hr). rewrite Hkv in Hr.
  exists s'. split; [|done]. unfold FileService.Read, FileService.read_input, on_err, pbind. rewrite length_nonempty by done.
  rewrite Hr. cbn [app]. by rewrite length_nonempty.
Qed.

(** C18. A file survives the daemon: when an upload, as one message or as a stream
    of non-empty messages in any split, reports success, then the daemon's client
    stores exactly the concatenation of the messages under the key, all other
    keys are as before, the reported metadata has the key, and a read request
    for the key returns the data when the stores can be reached.  A key that was not stored is reported as not
    found. *)
Theorem stream_roundtrip (now : Z) (key : bytes) (recv : list bytes) (taken : Reader -> Z0 -> nat) (first : bool)
    (k : nat) (kv : gmap bytes bytes) (s : Z0) (md : pbMetadata) (s' : Z0) :
  key <> [] -> recv <> [] -> Forall (fun d => d <> []) recv ->
  represents c (pl_cost (pipe_reader n recv) + k) kv s ->
  (forall chunks d', pl_Write (Some (pipe_reader n recv)) s.1 = (Ok chunks, d') -> storable c key (new_metadata now key None chunks)) ->
  FileService.WriteStream c n now taken first (Ok key) recv EOF s = (Returned (Ok md), s') \/
  (exists data, recv = [data] /\ FileService.Write c n now key data s = (Ok md, s')) ->
  pbm_Key md = key /\ represents c k (<[key := concat recv]> kv) s' /\
  (pl_ready -> exists s'', FileService.Read c (FileService.InputKey key) s' = (Ok (concat recv), s'')) /\
  (forall other, other <> [] -> other <> key -> kv !! other = None ->
     (FileService.Read c (FileService.InputKey other) s').1 = Err ErrGRPCKeyNotFound).
Proof using All.
  intros Hk Hne Hall Hrep Henc Hw.
  assert (Hst : FileService.metadata_or_fail (ZClient.Write c now key (Some (pipe_reader n recv))) s = (Ok md, s')).
  { destruct Hw as [Hw|(data & -> & Hw)].
    - unfold FileService.WriteStream, stream_in in Hw. rewrite length_nonempty in Hw by done. rewrite (receive_all _ _ Hall) in Hw.
      destruct (FileService.metadata_or_fail _ s) as [[m|e|p] s1]; cbn in Hw; repeat case_match; by simplify_eq.
    - apply Forall_cons in Hall as [Hd _]. unfold FileService.Write in Hw. rewrite !length_nonempty in Hw by done.
      by rewrite bytes_reader_pipe in Hw. }
  destruct (store_pipe _ _ _ _ _ _ _ _ Hk Hne Hrep Henc Hst) as [Hkey Hrep'].
  assert (Hx : concat recv <> []).
  { destruct Hall as [|d recv Hd _]; [done|]. cbn. intros E. by apply List.app_eq_nil in E as [E _]. }
  split_and!; [done|done| |].
  - intros Hrd. destruct (Read_stored key (concat recv) k _ s' Hrd Hk Hx Hrep') as (s'' & Hr & _); [by rewrite lookup_insert_eq|]. by exists s''.
  - intros other Ho Hne' Hnone. destruct (Read_refines c other [] k _ s' Ho Hrep') as (out' & err & s'' & _ & Hr & Has).
    rewrite lookup_insert_ne, Hnone in Has by done. destruct Has as [-> ->].
    unfold FileService.Read, FileService.read_input, on_err, pbind. rewrite length_nonempty by done. by rewrite Hr.
Qed.

(** An upload that breaks off is stored: when receiving fails after some
    messages, the handler returns that error, but the pipe is closed like at the
    end of the data, and what was received so far is stored under the key as if
    it were all. *)
Lemma interrupted_upload_is_stored now key recv fin taken first k kv s md s' :
  key <> [] -> recv <> [] -> Forall (fun d => d <> []) recv -> fin <> EOF ->
  represents c (pl_cost (pipe_reader n recv) + k) kv s ->
  (forall chunks d', pl_Write (Some (pipe_reader n recv)) s.1 = (Ok chunks, d') -> storable c key (new_metadata now key None chunks)) ->
  length (recv ≫= pipe_pieces n) <= taken (pipe_reader n recv) s ->
  FileService.metadata_or_fail (ZClient.Write c now key (Some (pipe_reader n recv))) s = (Ok md, s') ->
  FileService.WriteStream c n now taken first (Ok key) recv fin s = (Returned (Err fin), s') /\
  represents c k (<[key := concat recv]> kv) s'.
Proof using All.
  intros Hk Hne Hall Hfin Hrep Henc Htaken Hst. split; [|by apply (store_pipe _ _ _ _ _ _ _ _ Hk Hne Hrep Henc Hst)].
  unfold FileService.WriteStream, stream_in. rewrite length_nonempty by done. rewrite (receive_all _ _ Hall).
  rewrite bool_decide_eq_false_2 by done. rewrite Hst.
  destruct (Nat.ltb_spec (taken (pipe_reader n recv) s) (length (recv ≫= pipe_pieces n))); [lia|done].
Qed.
End FileService.

(** A store that returns an error before it has read everything leaves the
    goroutine that writes to the pipe, and with it the handler, blocked. *)
Lemma failed_store_hangs {St A} n (store : Reader -> prog St A) taken first recv fin (s s' : St) e :
  Forall (fun d => d <> []) recv -> store (pipe_reader n recv) s = (Err e, s') ->
  taken (pipe_reader n recv) s < length (recv ≫= pipe_pieces n) ->
  stream_in n store taken first recv fin s = (Hangs, s').
Proof.
  intros Hall Hst Ht. unfold stream_in. rewrite (receive_all _ _ Hall), Hst.
  destruct (Nat.ltb_spec (taken (pipe_reader n recv) s) (length (recv ≫= pipe_pieces n))); [done|lia].
Qed.

(** The same for a receiver that goes away while data is left. *)
Lemma failed_send_hangs {St Stream} n (load : prog St (list bytes * option error)) (Send : Stream -> bytes -> outcome Stream) first st (s s' : St) ws e1 p q rest e :
  load s = (Ok (ws, e1), s') -> ws ≫= pipe_pieces n = p :: q :: rest -> Send st p = Err e ->
  stream_out n load Send first st s = (Hangs, s').
Proof. intros Hl Hp Hs. unfold stream_out. rewrite Hl, Hp. cbn [send_all]. by rewrite Hs. Qed.

(** With local files disabled no request opens one. *)
Lemma local_files_refused `{DataPipeline D} `{MetaDB M} `{FileSystem F Handle} c now key path chunks inp mode sync (d : D) (m : M) (f : F) :
  DataService.WriteFile true path (d, f) = (Err ErrGRPCNoLocalFS, (d, f)) /\
  DataService.ReadFile true chunks path mode sync (d, f) = (Err ErrGRPCNoLocalFS, (d, f)) /\
  FileService.WriteFile c true now key path (d, m, f) = (Err ErrGRPCNoLocalFS, (d, m, f)) /\
  FileService.ReadFile c true inp path mode sync (d, m, f) = (Err ErrGRPCNoLocalFS, (d, m, f)).
Proof. by split_and!. Qed.

(** ** Witness: an upload in two messages to the client of [ZClient] *)
Definition demo_messages : list bytes := [str_bytes "zero-s"; str_bytes "tor!"].

Definition demo_upload : finished (outcome pbMetadata) * (list bytes * MetaMem.DB) :=
  FileService.WriteStream proto_pair 3 7 (fun r _ => length r) false (Ok demo_key) demo_messages EOF demo_empty.

Definition demo_uploaded : pbMetadata := convertInMemoryToProtoMetadata demo_md.

Lemma stream_roundtrip_witness :
  exists s'', FileService.Read proto_pair (FileService.InputKey demo_key) demo_upload.2 = (Ok demo_text, s'').
Proof.
  refine (proj1 (proj2 (proj2 (stream_roundtrip proto_pair 3 ltac:(lia) 7 demo_key demo_messages (fun r _ => length r) false
    0 ∅ demo_empty demo_uploaded demo_upload.2 _ _ _ _ _ _))) I).
  - done.
  - done.
  - repeat constructor; done.
  - apply demo_represents.
  - intros chunks d' E. assert (chunks = demo_chunks) as -> by (vm_compute in E; by injection E). split; [exact demo_encodable|done].
  - left. vm_compute. reflexivity.
Defined.
