(* ===== verification/Flags.v ===== *)
(** * Command line flags ([cmd/flag.go])

    The values that can be given as flags, with their [String] and [Set]
    methods: lists of strings, listen addresses, profile modes and TLS versions.
    [Net] models what they use of the package [net]: splitting a host from a
    port, and recognising IP addresses. *)

From Stdlib Require Import Ascii.
From stdpp Require Import pretty.
From S2P Require Import Prelude Unicode GoStrings.
Local Open Scope string_scope.
Open Scope nat_scope.

(** ** The package [net] *)
Module Net.
Definition colon : Ascii.ascii := ":"%char.
Definition dot : Ascii.ascii := "."%char.
Definition slash : Ascii.ascii := "/"%char.

(** [IndexByte(s, c)], [None] for -1, and the part of [s] from there on. *)
Fixpoint index_byte (s : string) (c : Ascii.ascii) : option nat :=
  match s with
  | EmptyString => None
  | String a s' => if bool_decide (a = c) then Some 0 else S <$> index_byte s' c
  end.

Fixpoint last_index_byte (s : string) (c : Ascii.ascii) : option nat :=
  match s with
  | EmptyString => None
  | String a s' =>
      match last_index_byte s' c with
      | Some i => Some (S i)
      | None => if bool_decide (a = c) then Some 0 else None
      end
  end.

Definition str_take (n : nat) (s : string) : string := String.substring 0 n s.

Definition AddrError (addr why : string) : error := ErrNew ("address " +:+ addr +:+ ": " +:+ why).

Definition has_byte (s : string) (c : Ascii.ascii) : bool := bool_decide (is_Some (index_byte s c)).

(** [net.SplitHostPort] *)
Definition SplitHostPort (hostport : string) : outcome (string * string) :=
  let missingPort := "missing port in address" in
  let tooManyColons := "too many colons in address" in
  match last_index_byte hostport colon with
  | None => Err (AddrError hostport missingPort)
  | Some i =>
      let finish (host : string) (j k : nat) :=
        if has_byte (str_drop j hostport) "["%char then Err (AddrError hostport "unexpected '[' in address")
        else if has_byte (str_drop k hostport) "]"%char then Err (AddrError hostport "unexpected ']' in address")
        else Ok (host, str_drop (S i) hostport) in
      if bool_decide (String.get 0 hostport = Some "["%char) then
        match index_byte hostport "]"%char with
        | None => Err (AddrError hostport "missing ']' in address")
        | Some end_ =>
            if end_ + 1 =? String.length hostport then Err (AddrError hostport missingPort)
            else if end_ + 1 =? i then finish (str_take (end_ - 1) (str_drop 1 hostport)) 1 (end_ + 1)
            else if bool_decide (String.get (end_ + 1) hostport = Some colon) then Err (AddrError hostport tooManyColons)
            else Err (AddrError hostport missingPort)
        end
      else
        let host := str_take i hostport in
        if has_byte host colon then Err (AddrError hostport tooManyColons) else finish host 0 0
  end.

(** [dtoi] and [xtoi]: a number at the front of [s], in the given base, and the
    number of its digits; too large ones are refused. *)
Definition big : Z := 16777215.

Definition digit (base : Z) (a : Ascii.ascii) : option Z :=
  let n := Z.of_N (Ascii.N_of_ascii a) in
  (if (48 <=? n) && (n <=? 57) then Some (n - 48)
   else if (base =? 16) && (97 <=? n) && (n <=? 102) then Some (n - 97 + 10)
   else if (base =? 16) && (65 <=? n) && (n <=? 70) then Some (n - 65 + 10)
   else None)%Z.

Fixpoint number_ (base n : Z) (i : nat) (s : string) : option (Z * nat) :=
  match s with
  | String a s' =>
      match digit base a with
      | Some d =>
          let n := (n * base + d)%Z in
          if (big <=? n)%Z then None else number_ base n (S i) s'
      | None => if i =? 0 then None else Some (n, i)
      end
  | EmptyString => if i =? 0 then None else Some (n, i)
  end.

Definition number (base : Z) (s : string) : option (Z * nat) := number_ base 0 0 s.

(** [parseIPv4(s) != nil]: [k] octets are left, [first] is the state before the
    first one. *)
Fixpoint ipv4_octets (k : nat) (first : bool) (s : string) : bool :=
  match k with
  | O => bool_decide (s = EmptyString)
  | S k' =>
      match s with
      | EmptyString => false
      | String a s' =>
          if negb first && negb (bool_decide (a = dot)) then false
          else
            let s := if first then s else s' in
            match number 10 s with
            | Some (n, c) => if (255 <? n)%Z then false else ipv4_octets k' false (str_drop c s)
            | None => false
            end
      end
  end.

Definition parseIPv4 (s : string) : bool := ipv4_octets 4 true s.

(** The end of [parseIPv6]: [i] bytes were read, with or without an ellipsis. *)
Definition ipv6_end (i : nat) (ellipsis : bool) (s : string) : bool :=
  bool_decide (s = EmptyString) && (if i <? 16 then ellipsis else negb ellipsis).

(** The loop of [parseIPv6]; every round reads two bytes or ends, so eight
    rounds are enough. *)
Fixpoint ipv6_loop (rounds i : nat) (ellipsis : bool) (s : string) : bool :=
  match rounds with
  | O => ipv6_end i ellipsis s
  | S rounds =>
      match number 16 s with
      | None => false
      | Some (n, c) =>
          if (65535 <? n)%Z then false
          else if bool_decide (String.get c s = Some dot) then
            (ellipsis || (i =? 12)) && (i + 4 <=? 16) && parseIPv4 s && ipv6_end (i + 4) ellipsis EmptyString
          else
            let i := i + 2 in
            match str_drop c s with
            | EmptyString => ipv6_end i ellipsis EmptyString
            | String a s =>
                if negb (bool_decide (a = colon)) then false
                else match s with
                | EmptyString => false
                | String b s' =>
                    if bool_decide (b = colon) then
                      if ellipsis then false
                      else match s' with EmptyString => ipv6_end i true EmptyString | _ => ipv6_loop rounds i true s' end
                    else ipv6_loop rounds i ellipsis s
                end
            end
      end
  end.

Definition parseIPv6 (s : string) : bool :=
  if HasPrefix s "::" then
    let s := str_drop 2 s in
    if bool_decide (s = EmptyString) then true else ipv6_loop 8 0 true s
  else ipv6_loop 8 0 false s.

(** [net.ParseIP(s) != nil] *)
Fixpoint ip_kind (s : string) : option Ascii.ascii :=
  match s with
  | EmptyString => None
  | String a s' => if bool_decide (a = dot) then Some dot else if bool_decide (a = colon) then Some colon else ip_kind s'
  end.

Definition ParseIP (s : string) : bool :=
  match ip_kind s with
  | None => false
  | Some c => if bool_decide (c = dot) then parseIPv4 s else parseIPv6 s
  end.
End Net.

Definition comma : Ascii.ascii := ","%char.

(** ** Lists of strings *)
Module Strings.
(** A nil and an empty slice print alike. *)
Definition String_ (s : list string) : string := if length s =? 0 then "" else Join s ",".

Definition Set_ (str : string) : list string := if String.length str =? 0 then [] else Split1 str comma.

Lemma Split1_nonempty s : Split1 s comma <> [].
Proof. destruct s as [|a s]; [done|]. cbn. case_bool_decide; [done|]. by destruct (Split1 s comma). Qed.

Lemma Join_Split1 s : Join (Split1 s comma) "," = s.
Proof.
  induction s as [|a s IH]; [done|]. cbn [Split1]. pose proof (Split1_nonempty s) as Hne. case_bool_decide as E.
  - subst a. destruct (Split1 s comma) as [|x l]; [done|]. cbn [Join]. rewrite <- IH. reflexivity.
  - destruct (Split1 s comma) as [|x l]; [done|]. rewrite <- IH. destruct l; [done|]. reflexivity.
Qed.

Lemma Split1_free s : char_free comma s = true -> Split1 s comma = [s].
Proof.
  induction s as [|a s IH]; [done|]. cbn [char_free Split1]. intros [Ha Hs]%andb_true_iff.
  rewrite bool_decide_eq_false_2; [by rewrite (IH Hs)|]. intros ->. by rewrite bool_decide_eq_true_2 in Ha.
Qed.

Lemma Split1_app s t : char_free comma s = true -> Split1 (s +:+ String comma t) comma = s :: Split1 t comma.
Proof.
  induction s as [|a s IH]; [done|]. cbn [char_free]. intros [Ha Hs]%andb_true_iff.
  rewrite app_cons. cbn [Split1]. rewrite (IH Hs), bool_decide_eq_false_2; [done|]. intros ->. by rewrite bool_decide_eq_true_2 in Ha.
Qed.

Lemma Split1_Join l : l <> [] -> Forall (fun s => char_free comma s = true) l -> Split1 (Join l ",") comma = l.
Proof.
  intros Hne Hall. induction Hall as [|x l Hx Hall IH]; [done|]. destruct l as [|y l]; [by apply Split1_free|].
  change (Join (x :: y :: l) ",") with (x +:+ String comma (Join (y :: l) ",")). rewrite Split1_app by done. by rewrite IH.
Qed.
End Strings.

(** ** Listen addresses *)
Module ListenAddress.
Inductive netProto := netProtoTCP | netProtoUnix.

Record ListenAddress := { addr : string; proto : netProto }.

(** The value of a flag that was not given. *)
Definition zero : ListenAddress := {| addr := ""; proto := netProtoTCP |}.

Definition defaultTCPListenAddress : string := ":8080".

Definition String_ (b : ListenAddress) : string :=
  match proto b with
  | netProtoUnix => addr b
  | netProtoTCP => if String.length (addr b) =? 0 then defaultTCPListenAddress else addr b
  end.

(** [strings.IndexAny(str, "/:")]: the first of the two bytes, if any. *)
Fixpoint first_of (str : string) : option Ascii.ascii :=
  match str with
  | EmptyString => None
  | String a s' => if bool_decide (a = Net.slash \/ a = Net.colon) then Some a else first_of s'
  end.

(** The new value, or an error that leaves the old one. *)
Definition Set_ (str : string) : outcome ListenAddress :=
  if String.length str =? 0 then Ok {| addr := defaultTCPListenAddress; proto := netProtoTCP |}
  else if bool_decide (first_of str = None \/ first_of str = Some Net.slash) then Ok {| addr := str; proto := netProtoUnix |}
  else
    let! (host, _) := Net.SplitHostPort str in
    if negb (bool_decide (host = "")) && negb (Net.ParseIP host) then Err (ErrNew "host not valid")
    else Ok {| addr := str; proto := netProtoTCP |}.

Definition NetworkProtocol (b : ListenAddress) : string :=
  match proto b with netProtoTCP => "tcp" | netProtoUnix => "unix" end.

Definition Description : string :=
  "Bind the server to the given unix socket path or tcp address. Format has to be either host:port, with host optional, or a valid unix (socket) path.".

Lemma Set_String str b : Set_ str = Ok b -> String_ b = (if String.length str =? 0 then defaultTCPListenAddress else str).
Proof.
  unfold Set_. destruct (String.length str =? 0) eqn:E; [by intros [= <-]|]. case_bool_decide; [by intros [= <-]|].
  intros ([host port] & _ & Hb)%obind_Ok_inv. destruct (_ && _); [done|]. injection Hb as <-. cbn. by rewrite E.
Qed.
End ListenAddress.

(** ** Values from a table of texts *)

(** The position of a text in the table. *)
Fixpoint find_text (l : list string) (str : string) (i : Z) : option Z :=
  match l with
  | [] => None
  | s :: l' => if bool_decide (s = str) then Some i else find_text l' str (i + 1)
  end.

Lemma find_text_Some l str i r : find_text l str i = Some r -> (i <= r)%Z /\ l !! Z.to_nat (r - i) = Some str.
Proof.
  revert i; induction l as [|s l IH]; intros i; cbn [find_text]; [done|].
  case_bool_decide as E; [intros [= <-]; subst; by rewrite Z.sub_diag|]. intros [Hle Hs]%IH. split; [lia|].
  by replace (Z.to_nat (r - i)) with (S (Z.to_nat (r - (i + 1)))) by lia.
Qed.

Lemma find_text_nth l str n i : NoDup l -> l !! n = Some str -> find_text l str i = Some (i + Z.of_nat n)%Z.
Proof.
  intros Hnd. revert n i; induction Hnd as [|s l Hs Hnd IH]; intros n i; [done|]. destruct n as [|n]; cbn [find_text lookup list_lookup].
  - intros [= ->]. rewrite bool_decide_eq_true_2 by done. f_equal. lia.
  - intros Hn. rewrite bool_decide_eq_false_2; [|intros ->; apply Hs; by eapply list_elem_of_lookup_2].
    rewrite (IH n _ Hn). f_equal. lia.
Qed.

(** [l[i]] *)
Definition at_index {A} (l : list A) (i : Z) : outcome A :=
  match (if (i <? 0)%Z then None else l !! Z.to_nat i) with Some x => Ok x | None => Panic "index out of range" end.

(** ** Profile modes *)
Module ProfileMode.
Open Scope Z_scope.

Definition ProfileModeDisabled : Z := 0.
Definition ProfileModeCPU : Z := 1.
Definition ProfileModeMem : Z := 2.
Definition ProfileModeBlock : Z := 3.
Definition ProfileModeTrace : Z := 4.
Definition MinProfileMode : Z := ProfileModeCPU.
Definition MaxProfileMode : Z := ProfileModeTrace.

Definition ProfileModeStrings : list string := [""; "cpu"; "mem"; "block"; "trace"].

Definition String_ (p : Z) : outcome string := if MaxProfileMode <? p then Ok "" else at_index ProfileModeStrings p.

Definition Set_ (str : string) : outcome Z :=
  match find_text ProfileModeStrings str 0 with
  | Some index => Ok index
  | None => Err (ErrNew ("profile mode " +:+ str +:+ " not recognized or supported"))
  end.

(** The names are a slice of the table. *)
Definition Description (p : Z) : outcome string :=
  let profileModes := drop (Z.to_nat MinProfileMode) (take (Z.to_nat (MinProfileMode + MaxProfileMode)) ProfileModeStrings) in
  let! str := String_ p in
  Ok (if negb (bool_decide (str = ""))
      then "Enable profiling mode, one of [" +:+ Join profileModes ", " +:+ "] (default " +:+ str +:+ ")"
      else "Enable profiling mode, one of [" +:+ Join profileModes ", " +:+ "]").
End ProfileMode.

(** ** TLS versions *)
Module TLSVersion.
Open Scope Z_scope.

Definition TLSVersion12 : Z := 0.
Definition TLSVersion11 : Z := 1.
Definition TLSVersion10 : Z := 2.
Definition MaxTLSVersion : Z := TLSVersion10.

Definition TLSVersionStrings : list string := ["TLS12"; "TLS11"; "TLS10"].
Definition TlsVersionValues : list Z := [771; 770; 769].

Definition String_ (v : Z) : outcome string := if MaxTLSVersion <? v then Ok "" else at_index TLSVersionStrings v.

Definition Set_ (str : string) : outcome Z :=
  let str := ToUpper str in
  match find_text TLSVersionStrings str 0 with
  | Some index => Ok index
  | None => Err (ErrNew ("TLS version " +:+ str +:+ " not recognized or supported"))
  end.

Definition Description (desc : string) : string := desc +:+ ", one of [" +:+ Join TLSVersionStrings ", " +:+ "].".

Definition VersionTLS (v : Z) : outcome Z :=
  if MaxTLSVersion <? v then Panic ("invalid TLS Version: " +:+ pretty v) else at_index TlsVersionValues v.
End TLSVersion.

(** ** Flags and their texts *)

(** Printing from a table and looking up what [f] makes of a text are inverse
    to each other. *)
Lemma table_print table (f : string -> string) v :
  NoDup table -> Forall (fun s => f s = s) table -> (0 <= v < Z.of_nat (length table))%Z ->
  exists s, at_index table v = Ok s /\ find_text table (f s) 0 = Some v.
Proof.
  intros Hnd Hf Hv. destruct (lookup_lt_is_Some_2 table (Z.to_nat v)) as [s Hs]; [lia|]. exists s. split.
  - unfold at_index. destruct (Z.ltb_spec v 0); [lia|]. by rewrite Hs.
  - rewrite (proj1 (List.Forall_forall _ _) Hf s), (find_text_nth _ _ _ 0 Hnd Hs); [f_equal; lia|].
    apply list_elem_of_In. by eapply list_elem_of_lookup_2.
Qed.

Lemma table_parse table text v : find_text table text 0 = Some v -> (0 <= v < Z.of_nat (length table))%Z /\ at_index table v = Ok text.
Proof.
  intros [Hv E]%find_text_Some. rewrite Z.sub_0_r in E. pose proof (lookup_lt_Some _ _ _ E). split; [lia|].
  unfold at_index. destruct (Z.ltb_spec v 0); [lia|]. by rewrite E.
Qed.

Ltac solve_table := first [by apply (bool_decide_unpack _); vm_compute | lia].

Lemma ProfileMode_texts v : (0 <= v <= ProfileMode.MaxProfileMode)%Z -> exists s, ProfileMode.String_ v = Ok s /\ ProfileMode.Set_ s = Ok v.
Proof.
  intros Hv. destruct (table_print ProfileMode.ProfileModeStrings (fun s => s) v) as (s & Hs & Hf); [solve_table..| |].
  { change (Z.of_nat _) with (ProfileMode.MaxProfileMode + 1)%Z. lia. }
  exists s. unfold ProfileMode.String_, ProfileMode.Set_. destruct (Z.ltb_spec ProfileMode.MaxProfileMode v); [lia|]. by rewrite Hf.
Qed.

Lemma TLSVersion_texts v : (0 <= v <= TLSVersion.MaxTLSVersion)%Z -> exists s, TLSVersion.String_ v = Ok s /\ TLSVersion.Set_ s = Ok v.
Proof.
  intros Hv. destruct (table_print TLSVersion.TLSVersionStrings ToUpper v) as (s & Hs & Hf); [solve_table..| |].
  { change (Z.of_nat _) with (TLSVersion.MaxTLSVersion + 1)%Z. lia. }
  exists s. unfold TLSVersion.String_, TLSVersion.Set_. destruct (Z.ltb_spec TLSVersion.MaxTLSVersion v); [lia|]. cbn zeta. by rewrite Hf.
Qed.

Lemma ProfileMode_parsed text v : ProfileMode.Set_ text = Ok v -> ProfileMode.String_ v = Ok text.
Proof.
  unfold ProfileMode.Set_, ProfileMode.String_. destruct (find_text _ _ _) as [i|] eqn:E; [|done]. intros [= <-].
  apply table_parse in E as [Hi E]. change (Z.of_nat _) with (ProfileMode.MaxProfileMode + 1)%Z in Hi.
  by destruct (Z.ltb_spec ProfileMode.MaxProfileMode i); [lia|].
Qed.

Lemma TLSVersion_parsed text v :
  TLSVersion.Set_ text = Ok v -> TLSVersion.String_ v = Ok (ToUpper text) /\ exists w, TLSVersion.VersionTLS v = Ok w.
Proof.
  unfold TLSVersion.Set_, TLSVersion.String_, TLSVersion.VersionTLS. cbn zeta. destruct (find_text _ _ _) as [i|] eqn:E; [|done]. intros [= <-].
  apply table_parse in E as [Hi E]. change (Z.of_nat _) with (TLSVersion.MaxTLSVersion + 1)%Z in Hi.
  destruct (Z.ltb_spec TLSVersion.MaxTLSVersion i); [lia|]. split; [done|]. change TLSVersion.MaxTLSVersion with 2%Z in Hi.
  assert (i = 0 \/ i = 1 \/ i = 2)%Z as [-> | [-> | ->]] by lia; by eexists.
Qed.

(** What is printed for a flag can be given for it.  A list of strings
    without commas, other than the one of a single empty string, is read back
    as it is, and every text that is set is printed again; an address that is
    accepted is printed as it was given, or as the default for the empty text,
    and setting the printed text gives the same address; a profile mode or TLS
    version of the table is read back as the same value, TLS versions in any
    case of the letters (texts are ASCII here); nothing else is accepted, and the number of an accepted
    TLS version is read without a panic. *)
Theorem flags_roundtrip (l : list string) (b : ListenAddress.ListenAddress) (v : Z) (text : string) :
  (0 <= v)%Z ->
  (Forall (fun s => char_free comma s = true) l -> l <> [""] -> Strings.Set_ (Strings.String_ l) = l) /\
  Strings.String_ (Strings.Set_ text) = text /\
  (ListenAddress.Set_ text = Ok b ->
     ListenAddress.String_ b = (if String.length text =? 0 then ListenAddress.defaultTCPListenAddress else text) /\
     ListenAddress.Set_ (ListenAddress.String_ b) = Ok b) /\
  ((v <= ProfileMode.MaxProfileMode)%Z -> exists s, ProfileMode.String_ v = Ok s /\ ProfileMode.Set_ s = Ok v) /\
  (ProfileMode.Set_ text = Ok v -> ProfileMode.String_ v = Ok text) /\
  ((v <= TLSVersion.MaxTLSVersion)%Z -> exists s, TLSVersion.String_ v = Ok s /\ TLSVersion.Set_ s = Ok v) /\
  (TLSVersion.Set_ text = Ok v -> TLSVersion.String_ v = Ok (ToUpper text) /\ exists w, TLSVersion.VersionTLS v = Ok w).
Proof.
  intros Hv. split_and!.
  - intros Hall Hne. unfold Strings.String_, Strings.Set_. destruct l as [|x l]; [done|]. cbn [length Nat.eqb].
    destruct (Nat.eqb_spec (String.length (Join (x :: l) ",")) 0) as [Hz|_]; [|by apply Strings.Split1_Join].
    destruct x as [|a x], l as [|y l]; [done|..]; cbn [Join] in Hz; rewrite ?str_length_app in Hz; cbn in Hz; lia.
  - unfold Strings.String_, Strings.Set_. destruct text as [|a t]; [done|]. cbn [String.length Nat.eqb].
    destruct (length (Split1 (String a t) comma) =? 0) eqn:E; [|apply Strings.Join_Split1].
    pose proof (Strings.Split1_nonempty (String a t)) as Hn. by destruct (Split1 (String a t) comma).
  - intros Hset. pose proof (ListenAddress.Set_String _ _ Hset) as Hs. split; [done|]. rewrite Hs.
    destruct (String.length text =? 0) eqn:E; [|done]. unfold ListenAddress.Set_ in Hset. rewrite E in Hset. injection Hset as <-.
    vm_compute. reflexivity.
  - intros Hm. by apply ProfileMode_texts.
  - apply ProfileMode_parsed.
  - intros Hm. by apply TLSVersion_texts.
  - apply TLSVersion_parsed.
Qed.

Lemma flags_roundtrip_witness :
  Strings.Set_ (Strings.String_ ["10.0.0.1:8080"; ""; "b"]) = ["10.0.0.1:8080"; ""; "b"] /\
  ListenAddress.Set_ (ListenAddress.String_ {| ListenAddress.addr := "[::1]:80"; ListenAddress.proto := ListenAddress.netProtoTCP |})
    = Ok {| ListenAddress.addr := "[::1]:80"; ListenAddress.proto := ListenAddress.netProtoTCP |} /\
  TLSVersion.String_ 1 = Ok (ToUpper "tls11").
Proof.
  split_and!.
  - apply (flags_roundtrip ["10.0.0.1:8080"; ""; "b"] ListenAddress.zero 0 ""); [lia|repeat constructor|done].
  - eapply (flags_roundtrip [] _ 0 "[::1]:80"); [lia|]. vm_compute. reflexivity.
  - apply (flags_roundtrip [] ListenAddress.zero 1 "tls11"); [lia|]. vm_compute. reflexivity.
Defined.
