(* ===== verification/Version.v ===== *)
(** * Versions ([cmd/version.go])

    A version is a number of three bytes and an optional label.  The regular
    expression that recognises the text of a version is written as the list of
    its matches in the order in which the matcher of the package [regexp]
    prefers them, so that the first one is the match the code uses. *)

From Stdlib Require Import Ascii.
From stdpp Require Import pretty.
From S2P Require Import Prelude Unicode GoStrings.
Local Open Scope string_scope.
Local Open Scope list_scope.
Open Scope Z_scope.

Module Version.
Import Utf8.

(** ** Numbers and labels *)

(** A [VersionNumber] is a [uint32], a [VersionLabel] an array of 8 bytes. *)
Record Version := { Number : Z; Label : option (list ascii) }.

Definition u8 (z : Z) : Z := z mod 256.

Definition NewVersion (major minor patch : Z) (label : option (list ascii)) : Version :=
  let number := Z.lor (Z.lor (u32 (Z.shiftl major 16)) (u32 (Z.shiftl minor 8))) patch in
  {| Number := number; Label := label |}.

Definition VersionFromUInt32 (v : Z) : Version := {| Number := v; Label := None |}.

Definition NilVersion : Version := {| Number := 0; Label := None |}.

Definition DefaultVersion : Version := NewVersion 1 1 0 None.

Definition Major (n : Z) : Z := u8 (Z.shiftr n 16).
Definition Minor (n : Z) : Z := u8 (Z.shiftr n 8).
Definition Patch (n : Z) : Z := u8 n.

Definition Compare (v other : Version) : Z :=
  if Number v <? Number other then -1 else if Number other <? Number v then 1 else 0.

Definition UInt32 (v : Version) : Z := Number v.

Definition nul : ascii := "000"%char.

Fixpoint trim_nul (l : list ascii) : list ascii :=
  match l with
  | [] => []
  | a :: l' => if bool_decide (a = nul) then trim_nul l' else l
  end.

(** [bytes.Trim(l[:], "\x00")] *)
Definition label_String (l : list ascii) : string := String.string_of_list_ascii (reverse (trim_nul (reverse (trim_nul l)))).

(** [copy] fills the array from the front and leaves the rest zero. *)
Definition versionLabel (str : list ascii) : list ascii := take 8 str ++ replicate (8 - length str)%nat nul.

Definition CurrentVersion : Version := NewVersion 1 1 0 (Some (versionLabel (String.list_ascii_of_string "beta-3"))).

Definition String_ (v : Version) : string :=
  let str := pretty (Major (Number v)) +:+ "." +:+ pretty (Minor (Number v)) +:+ "." +:+ pretty (Patch (Number v)) in
  match Label v with
  | None => str
  | Some l => str +:+ "-" +:+ label_String l
  end.

Definition MarshalText (v : Version) : list ascii := String.list_ascii_of_string (String_ v).

(** What is printed and what is logged when a program starts. *)
Definition build_line (CommitHash BuildDate : string) : option string :=
  if bool_decide (CommitHash = "") then None
  else Some ("Build: " +:+ CommitHash +:+ (if bool_decide (BuildDate = "") then "" else " " +:+ BuildDate)).

Definition crlf : string := String "013"%char (String "010"%char EmptyString).

Definition PrintVersion (CommitHash BuildDate runtime_Version runtime_GOOS : string) : string :=
  let version := "Version: " +:+ String_ CurrentVersion in
  let version := match build_line CommitHash BuildDate with None => version | Some b => version +:+ crlf +:+ b end in
  version +:+ crlf +:+ "Runtime: " +:+ runtime_Version +:+ " " +:+ runtime_GOOS +:+ crlf.

Definition LogVersion (CommitHash BuildDate : string) : list string :=
  ("Version: " +:+ String_ CurrentVersion) :: match build_line CommitHash BuildDate with None => [] | Some b => [b] end.

(** ** Regular expressions *)

(** What a piece of a regular expression matches at the front of a text, with
    the rest of the text, the preferred match first. *)
Definition matcher := list ascii -> list (list ascii * list ascii).

(** A class of bytes. *)
Definition chr (p : ascii -> bool) : matcher := fun s =>
  match s with [] => [] | a :: s' => if p a then [([a], s')] else [] end.

Definition eps : matcher := fun s => [([], s)].

Definition alt (m1 m2 : matcher) : matcher := fun s => m1 s ++ m2 s.

Definition seq (m1 m2 : matcher) : matcher := fun s =>
  r1 ← m1 s; r2 ← m2 r1.2; [(r1.1 ++ r2.1, r2.2)].

(** [m?]: with [m] first. *)
Definition opt (m : matcher) : matcher := alt m eps.

(** [m{1,n}]: as many as possible first. *)
Fixpoint upto (n : nat) (m : matcher) : matcher :=
  match n with
  | O => fun _ => []
  | S O => m
  | S n' => seq m (opt (upto n' m))
  end.

(** [.]: any character but a line feed. *)
Definition dot : matcher := fun s =>
  match s with
  | [] => []
  | a :: _ => if bool_decide (a = "010"%char) then [] else [(take (rune_width s) s, drop (rune_width s) s)]
  end.

Definition digit : ascii -> bool := between 48 57.

(** [[01]?[0-9]?[0-9]|2[0-4][0-9]|25[0-5]] *)
Definition number_re : matcher :=
  alt (seq (opt (chr (between 48 49))) (seq (opt (chr digit)) (chr digit)))
    (alt (seq (chr (between 50 50)) (seq (chr (between 48 52)) (chr digit)))
       (seq (chr (between 50 50)) (seq (chr (between 53 53)) (chr (between 48 53))))).

Definition label_char (a : ascii) : bool := between 65 90 a || between 97 122 a || digit a || bool_decide (a = "-"%char).

Definition label_re : matcher := upto 8 (chr label_char).

Definition dash : ascii := "-"%char.

(** [(?:-(label))?], with the label that was captured. *)
Definition suffix_re : matcher := fun s => (r1 ← chr (fun a => bool_decide (a = dash)) s; label_re r1.2) ++ [([], s)].

(** All matches of [verRegex], each as the four groups. *)
Definition verRegex (s : list ascii) : list (list ascii * list ascii * list ascii * list ascii) :=
  r1 ← number_re s; d1 ← dot r1.2; r2 ← number_re d1.2; d2 ← dot r2.2; r3 ← number_re d2.2; r4 ← suffix_re r3.2;
  if bool_decide (r4.2 = []) then [(r1.1, r2.1, r3.1, r4.1)] else [].

(** [strconv.ParseUint(n, 10, 8)], whose error is not looked at. *)
Definition ParseUint8 (n : list ascii) : Z :=
  let value := foldl (fun acc a => acc * 10 + (Z.of_nat (nat_of_ascii a) - 48)) 0 n in
  if (bool_decide (n = []) || negb (forallb digit n))%bool then 0 else if 255 <? value then 255 else value.

Definition VersionFromString (ver : string) : outcome Version :=
  if bool_decide (ver = "") then Ok DefaultVersion
  else match verRegex (String.list_ascii_of_string ver) with
       | [] => Err (ErrNew ("not a valid version format '" +:+ ver +:+ "'"))
       | (a, b, c, l) :: _ =>
           let label := if (length l =? 0)%nat then None else Some (versionLabel l) in
           Ok (NewVersion (ParseUint8 a) (ParseUint8 b) (ParseUint8 c) label)
       end.

(** The receiver is overwritten also when there is an error. *)
Definition UnmarshalText (b : list ascii) (v : Version) : outcome unit * Version :=
  match VersionFromString (String.string_of_list_ascii b) with
  | Ok v' => (Ok tt, v')
  | Err e => (Err e, NilVersion)
  | Panic p => (Panic p, v)
  end.

(** The inputs of the repository's tests. *)
Example versions_parsed :
  VersionFromString "1.2.0" = Ok (NewVersion 1 2 0 None) /\
  VersionFromString "255.17.255-abcdefgh" = Ok (NewVersion 255 17 255 (Some (versionLabel (String.list_ascii_of_string "abcdefgh")))) /\
  Forall (fun s => match VersionFromString s with Err _ => True | _ => False end)
    ["1.1-alpha"; "abcd"; "1.1.1.alpha-2"; "123671.0.0"; "0.1234.0"; "0.0.12345"; "0.0.0-very-long-label"].
Proof. split_and!; [vm_compute; reflexivity..|repeat constructor]. Qed.

(** The dots of the regular expression stand for any character. *)
Lemma unescaped_dots :
  VersionFromString "12345" = Ok (NewVersion 1 3 5 None) /\ VersionFromString "1x1/0-rc" = VersionFromString "1.1.0-rc".
Proof. split; vm_compute; reflexivity. Qed.

(** ** What the pieces match *)

(** Every match is a prefix of the text, of bytes in [q]. *)
Definition matches (q : ascii -> bool) (m : matcher) : Prop :=
  forall s c r, (c, r) ∈ m s -> s = c ++ r /\ forallb q c = true.

Section pieces.
Context (q : ascii -> bool).

Lemma chr_matches (p : ascii -> bool) : (forall a, p a = true -> q a = true) -> matches q (chr p).
Proof.
  intros Hpq [|a s] c r; cbn; [by intros ?%not_elem_of_nil|]. destruct (p a) eqn:E; [|by intros ?%not_elem_of_nil].
  intros [= -> ->]%list_elem_of_singleton. cbn. by rewrite (Hpq _ E).
Qed.

Lemma alt_matches m1 m2 : matches q m1 -> matches q m2 -> matches q (alt m1 m2).
Proof. intros H1 H2 s c r [H|H]%elem_of_app; auto. Qed.

Lemma eps_matches : matches q eps.
Proof. by intros s c r [= -> ->]%list_elem_of_singleton. Qed.

Lemma seq_matches m1 m2 : matches q m1 -> matches q m2 -> matches q (seq m1 m2).
Proof.
  intros H1 H2 s c r ([c1 r1] & ([c2 r2] & [= -> ->]%list_elem_of_singleton & Hr2)%list_elem_of_bind & Hr1)%list_elem_of_bind.
  cbn in *. apply H1 in Hr1 as [-> Hc1]. apply H2 in Hr2 as [-> Hc2]. by rewrite <- app_assoc, forallb_app, Hc1, Hc2.
Qed.

Lemma opt_matches m : matches q m -> matches q (opt m).
Proof. intros H. apply alt_matches; [done|apply eps_matches]. Qed.

Lemma upto_matches n m : matches q m -> matches q (upto n m).
Proof.
  intros H. induction n as [|n IH]; [by intros s c r ?%not_elem_of_nil|]. cbn [upto]. destruct n; [done|].
  by apply seq_matches, opt_matches.
Qed.
End pieces.

Lemma between_weaken a b a' b' c : (a' <= a)%nat -> (b <= b')%nat -> between a b c = true -> between a' b' c = true.
Proof. unfold between. intros Ha Hb [H1%Nat.leb_le H2%Nat.leb_le]%andb_true_iff. apply andb_true_iff. split; apply Nat.leb_le; lia. Qed.

Lemma number_matches : matches digit number_re.
Proof. unfold number_re; repeat first [apply alt_matches|apply seq_matches|apply eps_matches|apply chr_matches]; intros a; unfold digit; apply between_weaken; lia. Qed.

Lemma upto_length n p s c r : (c, r) ∈ upto n (chr p) s -> (1 <= length c <= n)%nat.
Proof.
  assert (Hchr : forall s c r, (c, r) ∈ chr p s -> length c = 1%nat).
  { intros [|a s'] c' r'; cbn; [by intros ?%not_elem_of_nil|]. destruct (p a); [|by intros ?%not_elem_of_nil].
    by intros [= -> ->]%list_elem_of_singleton. }
  revert s c r. induction n as [|n IH]; intros s c r; [by intros ?%not_elem_of_nil|]. cbn [upto]. destruct n as [|n]; [intros Hc%Hchr; lia|].
  intros ([c1 r1] & ([c2 r2] & [= -> ->]%list_elem_of_singleton & Hr2)%list_elem_of_bind & Hr1)%list_elem_of_bind.
  apply Hchr in Hr1. cbn in *. rewrite length_app, Hr1. apply elem_of_app in Hr2 as [Hr2%IH|[= -> ->]%list_elem_of_singleton]; cbn; lia.
Qed.

Lemma label_matches s c r : (c, r) ∈ label_re s -> s = c ++ r /\ forallb label_char c = true /\ (1 <= length c <= 8)%nat.
Proof.
  intros H. pose proof (upto_length _ _ _ _ _ H) as Hl. apply (upto_matches label_char) in H as [-> H]; [done|by apply chr_matches].
Qed.

(** ** What the pieces do not miss *)
Lemma alt_left m1 m2 s x : x ∈ m1 s -> x ∈ alt m1 m2 s.
Proof. intros H. apply elem_of_app. by left. Qed.

Lemma alt_right m1 m2 s x : x ∈ m2 s -> x ∈ alt m1 m2 s.
Proof. intros H. apply elem_of_app. by right. Qed.

Lemma seq_elem m1 m2 s c1 s1 c2 s2 : (c1, s1) ∈ m1 s -> (c2, s2) ∈ m2 s1 -> (c1 ++ c2, s2) ∈ seq m1 m2 s.
Proof.
  intros H1 H2. apply list_elem_of_bind. exists (c1, s1). split; [|done]. apply list_elem_of_bind. exists (c2, s2).
  split; [|done]. by apply list_elem_of_singleton.
Qed.

Lemma chr_elem p a s : p a = true -> ([a], s) ∈ chr p (a :: s).
Proof. intros H. cbn. rewrite H. by apply list_elem_of_singleton. Qed.

Lemma opt_skip m s : ([], s) ∈ opt m s.
Proof. apply alt_right. by apply list_elem_of_singleton. Qed.

(** The texts of the numbers of a byte. *)
Definition number_ok (d : list ascii) : bool :=
  match d with
  | [x] => digit x
  | [x; y] => digit x && digit y
  | [x; y; z] =>
      between 48 49 x && digit y && digit z || between 50 50 x && between 48 52 y && digit z
      || between 50 50 x && between 53 53 y && between 48 53 z
  | _ => false
  end.

Lemma number_elem d s : number_ok d = true -> (d, s) ∈ number_re (d ++ s).
Proof.
  destruct d as [|x [|y [|z [|? ?]]]]; try done; cbn [number_ok app].
  - intros H. apply alt_left, (seq_elem _ _ _ [] (x :: s)); [apply opt_skip|]. apply (seq_elem _ _ _ [] (x :: s)); [apply opt_skip|].
    by apply chr_elem.
  - intros [Hx Hy]%andb_true_iff. apply alt_left, (seq_elem _ _ _ [] (x :: y :: s)); [apply opt_skip|].
    apply (seq_elem _ _ _ [x] (y :: s)); [by apply alt_left, chr_elem|by apply chr_elem].
  - assert (Hseq : forall m1 m2 m3 : matcher, ([x], y :: z :: s) ∈ m1 (x :: y :: z :: s) -> ([y], z :: s) ∈ m2 (y :: z :: s) -> ([z], s) ∈ m3 (z :: s) ->
      ([x; y; z], s) ∈ seq m1 (seq m2 m3) (x :: y :: z :: s)).
    { intros m1 m2 m3 H1 H2 H3. eapply (seq_elem _ _ _ [x]); [done|]. by eapply (seq_elem _ _ _ [y]). }
    intros [[[[Hx Hy]%andb_true_iff Hz]%andb_true_iff|[[Hx Hy]%andb_true_iff Hz]%andb_true_iff]%orb_true_iff|[[Hx Hy]%andb_true_iff Hz]%andb_true_iff]%orb_true_iff.
    + apply alt_left, Hseq; [by apply alt_left, chr_elem..|by apply chr_elem].
    + apply alt_right, alt_left, Hseq; by apply chr_elem.
    + apply alt_right, alt_right, Hseq; by apply chr_elem.
Qed.

Lemma upto_elem n p c : (1 <= length c <= n)%nat -> forallb p c = true -> (c, []) ∈ upto n (chr p) c.
Proof.
  revert c. induction n as [|n IH]; intros c Hc; [lia|]. destruct c as [|a c]; cbn in Hc; [lia|]. intros [Ha Hp]%andb_true_iff.
  cbn [upto]. destruct n as [|n].
  - destruct c; [by apply chr_elem|cbn in Hc; lia].
  - eapply (seq_elem _ _ _ [a]); [by apply chr_elem|]. destruct c as [|b c]; [apply opt_skip|]. apply alt_left, IH; [cbn in *; lia|done].
Qed.

(** ** The text of a version *)
Definition byte_text (n : Z) : list ascii := String.list_ascii_of_string (pretty n).

Definition bytes_256 : list Z := Z.of_nat <$> List.seq 0 256.

Lemma byte_text_ok n : 0 <= n < 256 -> number_ok (byte_text n) = true /\ ParseUint8 (byte_text n) = n /\ forallb digit (byte_text n) = true.
Proof.
  intros Hn. assert (Hall : forallb (fun n => number_ok (byte_text n) && (ParseUint8 (byte_text n) =? n) && forallb digit (byte_text n)) bytes_256 = true)
    by (vm_compute; reflexivity).
  rewrite List.forallb_forall in Hall. destruct (andb_prop _ _ (Hall n ltac:(apply list_elem_of_In, list_elem_of_fmap; exists (Z.to_nat n);
    split; [lia|apply elem_of_seq; lia]))) as [[H1 H2%Z.eqb_eq]%andb_true_iff H3]. done.
Qed.

Definition full_stop : ascii := "."%char.

(** The text of a version with the suffix [t]. *)
Definition layout (a b c t : list ascii) : list ascii := a ++ full_stop :: b ++ full_stop :: c ++ t.

(** On ASCII texts a dot matches one byte. *)
Definition is_ascii (a : ascii) : bool := (nat_of_ascii a <? 128)%nat.

Lemma ascii_width a s : is_ascii a = true -> rune_width (a :: s) = 1%nat.
Proof. unfold is_ascii. intros Ha%Nat.ltb_lt. by apply rune_width_ascii. Qed.

Lemma dot_matches s u r : forallb is_ascii s = true -> (u, r) ∈ dot s -> exists a, u = [a] /\ s = a :: r.
Proof.
  destruct s as [|a s]; [by intros _ ?%not_elem_of_nil|]. intros [Ha _]%andb_true_iff. unfold dot. case_bool_decide; [by intros ?%not_elem_of_nil|].
  rewrite ascii_width by done. intros [= -> ->]%list_elem_of_singleton. by exists a.
Qed.

Lemma dot_full_stop s : ([full_stop], s) ∈ dot (full_stop :: s).
Proof. unfold dot. rewrite ascii_width by done. by apply list_elem_of_singleton. Qed.

(** A full stop is in none of the groups. *)
Definition stop_free (l : list ascii) : Prop := full_stop ∉ l.

Lemma class_stop_free p l : p full_stop = false -> forallb p l = true -> stop_free l.
Proof. intros Hp Hl Hin%list_elem_of_In. rewrite List.forallb_forall in Hl. specialize (Hl _ Hin). congruence. Qed.

Lemma split_at_stop (c : list ascii) u y a x :
  stop_free c -> stop_free a -> c ++ u :: y = a ++ full_stop :: x ->
  (c = a /\ u = full_stop /\ y = x) \/ exists a', stop_free a' /\ y = a' ++ full_stop :: x.
Proof.
  intros Hc. revert c Hc. induction a as [|b a IH]; intros c Hc Ha; destruct c as [|d c]; cbn.
  - intros [= -> ->]. by left.
  - intros [= -> ?]. destruct Hc. by left.
  - intros [= -> ->]. right. exists a. split; [|done]. intros Hin. apply Ha. by right.
  - intros [= -> H]. destruct (IH c) as [(-> & -> & ->)|Hin]; [by intros Hin; apply Hc; right|by intros Hin; apply Ha; right|done|by left|by right].
Qed.

(** Digits end where the suffix begins. *)
Definition suffix_start (t : list ascii) : Prop := match t with [] => True | a :: _ => digit a = false end.

Lemma digits_end a t b u :
  forallb digit a = true -> forallb digit b = true -> suffix_start t -> suffix_start u -> a ++ t = b ++ u -> a = b /\ t = u.
Proof.
  revert b. induction a as [|x a IH]; intros b; destruct b as [|y b]; cbn; [done|..].
  - intros _ [Hy _]%andb_true_iff Ht _ ->. cbn in Ht. congruence.
  - intros [Hx _]%andb_true_iff _ _ Hu <-. cbn in Hu. congruence.
  - intros [Hx Ha]%andb_true_iff [Hy Hb]%andb_true_iff Ht Hu [= -> H]. destruct (IH b) as [-> ->]; done.
Qed.

(** The suffix with the label [l], the empty one for none. *)
Definition suffix (l : list ascii) : list ascii := match l with [] => [] | _ => dash :: l end.

Definition label_ok (l : list ascii) : Prop := forallb label_char l = true /\ (length l <= 8)%nat.

Lemma suffix_matches s l : (l, []) ∈ suffix_re s -> s = suffix l /\ label_ok l.
Proof.
  intros [H|[= -> <-]%list_elem_of_singleton]%elem_of_app; [|by repeat split; cbn; lia].
  apply list_elem_of_bind in H as ([d r] & Hl & Hd). apply label_matches in Hl as (Hr & Hl & Hlen). cbn in Hr. rewrite app_nil_r in Hr. subst r.
  destruct s as [|x s]; cbn in Hd; [by apply not_elem_of_nil in Hd|]. case_bool_decide as E; [|by apply not_elem_of_nil in Hd].
  apply list_elem_of_singleton in Hd as [= -> ->]. subst x. destruct s; cbn in *; [lia|]. repeat split; [done|cbn; lia].
Qed.

Lemma suffix_elem l : label_ok l -> (l, []) ∈ suffix_re (suffix l).
Proof.
  intros [Hl Hlen]. unfold suffix_re. apply elem_of_app. destruct l as [|x l]; [right; by apply list_elem_of_singleton|left].
  apply list_elem_of_bind. exists ([dash], x :: l). split; [|by apply (chr_elem (fun a => bool_decide (a = dash)))]. apply upto_elem; [cbn in *; lia|done].
Qed.

Lemma verRegex_elem_of s a b c l :
  (a, b, c, l) ∈ verRegex s <->
  exists s1 u1 s2 s3 u2 s4 s5,
    (a, s1) ∈ number_re s /\ (u1, s2) ∈ dot s1 /\ (b, s3) ∈ number_re s2 /\ (u2, s4) ∈ dot s3 /\ (c, s5) ∈ number_re s4 /\ (l, []) ∈ suffix_re s5.
Proof.
  unfold verRegex. split.
  - intros H. do 6 (apply list_elem_of_bind in H as ([? ?] & H & ?)). cbn in *. case_bool_decide; [|by apply not_elem_of_nil in H].
    apply list_elem_of_singleton in H as [= -> -> -> ->]. subst. by repeat eexists.
  - intros (s1 & u1 & s2 & s3 & u2 & s4 & s5 & H1 & H2 & H3 & H4 & H5 & H6).
    apply list_elem_of_bind; exists (a, s1); split; [|done]. apply list_elem_of_bind; exists (u1, s2); split; [|done].
    apply list_elem_of_bind; exists (b, s3); split; [|done]. apply list_elem_of_bind; exists (u2, s4); split; [|done].
    apply list_elem_of_bind; exists (c, s5); split; [|done]. apply list_elem_of_bind; exists (l, []); split; [|done].
    cbn. by apply list_elem_of_singleton.
Qed.

Lemma groups_sound s a b c l :
  (a, b, c, l) ∈ verRegex s -> forallb digit a = true /\ forallb digit b = true /\ forallb digit c = true /\ label_ok l.
Proof.
  intros (s1 & u1 & s2 & s3 & u2 & s4 & s5 & [_ H1]%number_matches & _ & [_ H2]%number_matches & _ & [_ H3]%number_matches & [_ H4]%suffix_matches)%verRegex_elem_of.
  done.
Qed.

Lemma class_ascii p l : (forall a, p a = true -> is_ascii a = true) -> forallb p l = true -> forallb is_ascii l = true.
Proof. rewrite !List.forallb_forall. auto. Qed.

Lemma digit_ascii a : digit a = true -> is_ascii a = true.
Proof. destruct a as [[] [] [] [] [] [] [] []]; vm_compute; done. Qed.

Lemma label_char_ascii a : label_char a = true -> is_ascii a = true.
Proof. destruct a as [[] [] [] [] [] [] [] []]; vm_compute; done. Qed.

Lemma suffix_facts l : label_ok l -> forallb is_ascii (suffix l) = true /\ stop_free (suffix l) /\ suffix_start (suffix l).
Proof.
  intros [Hl _]. destruct l as [|x l]; [split_and!; [done|apply not_elem_of_nil|done]|].
  assert (Hs : forallb label_char (suffix (x :: l)) = true) by (cbn; done).
  split_and!; [by apply (class_ascii label_char); [apply label_char_ascii|]|by apply (class_stop_free label_char)|done].
Qed.

Lemma layout_ascii a b c l :
  forallb digit a = true -> forallb digit b = true -> forallb digit c = true -> label_ok l -> forallb is_ascii (layout a b c (suffix l)) = true.
Proof.
  intros Ha Hb Hc Hl. destruct (suffix_facts l Hl) as [Hs _]. unfold layout.
  repeat first [rewrite forallb_app|progress cbn [forallb]]. rewrite Hs.
  rewrite (class_ascii _ _ digit_ascii Ha), (class_ascii _ _ digit_ascii Hb), (class_ascii _ _ digit_ascii Hc). done.
Qed.

(** The two full stops of a text are where the dots match. *)
Lemma stops_unique a b r a' x b' y r' :
  stop_free a -> stop_free b -> stop_free a' -> stop_free b' -> stop_free r' ->
  a ++ full_stop :: b ++ full_stop :: r = a' ++ x :: b' ++ y :: r' -> a = a' /\ b = b' /\ r = r'.
Proof.
  intros Ha Hb Ha' Hb' Hr' E. symmetry in E.
  assert (Hno : forall k, stop_free k -> r' = k ++ full_stop :: r -> False)
    by (intros k _ ->; apply Hr', elem_of_app; right; by left).
  apply split_at_stop in E as [(-> & -> & E)|(k & Hk & E)]; [| |done..].
  - apply split_at_stop in E as [(-> & -> & ->)|(k & Hk & E)]; [done|by destruct (Hno k)|done..].
  - apply split_at_stop in E as [(_ & _ & E)|(k' & Hk' & E)]; [by destruct (Hno b)| |done..].
    exfalso. apply Hr'. rewrite E. apply elem_of_app. right. by left.
Qed.

(** Every match of the text of a version has the version's groups. *)
Lemma groups_unique a b c l g :
  forallb digit a = true -> forallb digit b = true -> forallb digit c = true -> label_ok l ->
  g ∈ verRegex (layout a b c (suffix l)) -> g = (a, b, c, l).
Proof.
  intros Ha Hb Hc Hl. pose proof (layout_ascii a b c l Ha Hb Hc Hl) as Hasc. destruct g as [[[a' b'] c'] l'].
  intros (s1 & u1 & s2 & s3 & u2 & s4 & s5 & [E1 Ha']%number_matches & H1 & [E2 Hb']%number_matches & H2 & [E3 Hc']%number_matches & [E4 Hl']%suffix_matches)%verRegex_elem_of.
  rewrite E1, forallb_app in Hasc. apply andb_true_iff in Hasc as [_ Hasc]. apply dot_matches in H1 as (x1 & -> & ->); [|done].
  cbn [forallb] in Hasc. apply andb_true_iff in Hasc as [_ Hasc]. rewrite E2, forallb_app in Hasc. apply andb_true_iff in Hasc as [_ Hasc].
  apply dot_matches in H2 as (x2 & -> & ->); [|done]. subst s2 s4 s5.
  destruct (suffix_facts l Hl) as (_ & _ & Hst). destruct (suffix_facts l' Hl') as (_ & Hfree' & Hst').
  assert (Hend : stop_free (c' ++ suffix l')) by (intros [Hin|Hin]%elem_of_app; [by apply (class_stop_free digit) in Hc'|done]).
  apply stops_unique in E1 as (-> & -> & E); [|by apply (class_stop_free digit)..|done].
  apply digits_end in E as [-> Hs]; [|done..]. f_equal. by destruct l, l'; cbn in Hs; simplify_eq.
Qed.

Lemma verRegex_layout a b c l :
  number_ok a = true -> number_ok b = true -> number_ok c = true ->
  forallb digit a = true -> forallb digit b = true -> forallb digit c = true -> label_ok l ->
  exists rest, verRegex (layout a b c (suffix l)) = (a, b, c, l) :: rest.
Proof.
  intros Ha Hb Hc Da Db Dc Hl.
  assert (Hin : (a, b, c, l) ∈ verRegex (layout a b c (suffix l))).
  { apply verRegex_elem_of. exists (full_stop :: b ++ full_stop :: c ++ suffix l), [full_stop], (b ++ full_stop :: c ++ suffix l), (full_stop :: c ++ suffix l),
      [full_stop], (c ++ suffix l), (suffix l). split_and!; auto using number_elem, dot_full_stop, suffix_elem. }
  destruct (verRegex _) as [|g rest] eqn:E; [by apply not_elem_of_nil in Hin|]. exists rest. f_equal.
  eapply (groups_unique a b c l); [done..|]. rewrite E. by left.
Qed.

(** ** Numbers *)
Definition in_byte (n : Z) : Prop := 0 <= n < 256.

Lemma NewVersion_number a b c l : in_byte a -> in_byte b -> in_byte c -> NewVersion a b c l = {| Number := a * 65536 + b * 256 + c; Label := l |}.
Proof.
  unfold in_byte, NewVersion, u32. intros Ha Hb Hc. rewrite !Z.mod_small by (rewrite Z.shiftl_mul_pow2; lia). f_equal.
  rewrite Z.lor_comm, (Z.lor_comm (Z.shiftl a 16)), Z.lor_assoc, (lor_shiftl_add c b 8), lor_shiftl_add by lia. lia.
Qed.

Lemma number_bytes n : 0 <= n < 2 ^ 24 -> n = Major n * 65536 + Minor n * 256 + Patch n.
Proof.
  intros Hn. unfold Major, Minor, Patch, u8. rewrite !Z.shiftr_div_pow2 by lia.
  change (2 ^ 16) with (256 * 256). change (2 ^ 8) with 256. rewrite <- Z.div_div by lia.
  rewrite (Z.mod_small (n / 256 / 256)) by (split; [repeat apply Z.div_pos; lia|repeat (apply Z.div_lt_upper_bound; [lia|]); lia]).
  pose proof (Z.div_mod n 256). pose proof (Z.div_mod (n / 256) 256). lia.
Qed.

Lemma u8_byte z : in_byte (u8 z).
Proof. apply Z.mod_pos_bound. lia. Qed.

Lemma NewVersion_bytes a b c l :
  in_byte a -> in_byte b -> in_byte c ->
  Major (Number (NewVersion a b c l)) = a /\ Minor (Number (NewVersion a b c l)) = b /\ Patch (Number (NewVersion a b c l)) = c.
Proof.
  intros Ha Hb Hc. rewrite NewVersion_number by done. cbn. unfold in_byte in *. set (n := _ + c).
  pose proof (number_bytes n ltac:(lia)) as Hn.
  pose proof (u8_byte (Z.shiftr n 16)) as H1. pose proof (u8_byte (Z.shiftr n 8)) as H2. pose proof (u8_byte n) as H3.
  fold (Major n) in H1. fold (Minor n) in H2. fold (Patch n) in H3. unfold in_byte in *. subst n. lia.
Qed.

(** Versions are compared by their parts, the first one first; labels do not
    count. *)
Lemma Compare_order a b c l a' b' c' l' :
  in_byte a -> in_byte b -> in_byte c -> in_byte a' -> in_byte b' -> in_byte c' ->
  let r := Compare (NewVersion a b c l) (NewVersion a' b' c' l') in
  (r = -1 <-> a < a' \/ a = a' /\ (b < b' \/ b = b' /\ c < c')) /\ (r = 0 <-> a = a' /\ b = b' /\ c = c') /\
  Compare (NewVersion a' b' c' l') (NewVersion a b c l) = - r.
Proof.
  unfold in_byte. intros. rewrite !NewVersion_number by done. unfold Compare. cbn.
  repeat case_match; rewrite ?Z.ltb_lt, ?Z.ltb_ge in *; lia.
Qed.

(** ** Versions that have a text *)
Definition wf (v : Version) : Prop :=
  0 <= Number v < 2 ^ 24 /\ match Label v with None => True | Some l => exists t, l = versionLabel t /\ t <> [] /\ label_ok t end.

Lemma trim_nul_app l k : forallb (fun a => negb (bool_decide (a = nul))) l = true -> l <> [] -> trim_nul (l ++ k) = l ++ k.
Proof. destruct l as [|a l]; [done|]. cbn. case_bool_decide; [by intros ?|done]. Qed.

Lemma trim_nul_replicate n l : trim_nul (replicate n nul ++ l) = trim_nul l.
Proof. induction n as [|n IH]; [done|]. cbn. done. Qed.

Lemma label_char_nul a : label_char a = true -> negb (bool_decide (a = nul)) = true.
Proof. destruct a as [[] [] [] [] [] [] [] []]; vm_compute; done. Qed.

Lemma label_String_versionLabel t : t <> [] -> label_ok t -> label_String (versionLabel t) = String.string_of_list_ascii t.
Proof.
  intros Hne [Hc Hl]. assert (Hnn : forallb (fun a => negb (bool_decide (a = nul))) t = true).
  { apply List.forallb_forall. intros a Ha. apply label_char_nul. by rewrite List.forallb_forall in Hc; apply Hc. }
  unfold label_String, versionLabel. rewrite take_ge by lia. rewrite trim_nul_app by done.
  rewrite reverse_app, reverse_replicate, trim_nul_replicate. f_equal.
  rewrite <- (app_nil_r (reverse t)), trim_nul_app, app_nil_r; [by rewrite reverse_involutive| |].
  - apply List.forallb_forall. intros a Ha. rewrite List.forallb_forall in Hnn. apply Hnn.
    apply list_elem_of_In. apply elem_of_reverse. by apply list_elem_of_In.
  - intros H. apply Hne. by rewrite <- (reverse_involutive t), H.
Qed.

Lemma list_of_app s t : String.list_ascii_of_string (s +:+ t) = String.list_ascii_of_string s ++ String.list_ascii_of_string t.
Proof. induction s as [|a s IH]; [done|]. rewrite app_cons. cbn. by rewrite IH. Qed.

Definition label_text (v : Version) : list ascii :=
  match Label v with None => [] | Some l => String.list_ascii_of_string (label_String l) end.

Lemma String_layout v :
  wf v ->
  let n := Number v in
  String.list_ascii_of_string (String_ v) = layout (byte_text (Major n)) (byte_text (Minor n)) (byte_text (Patch n)) (suffix (label_text v)) /\
  label_ok (label_text v) /\
  Label v = (if (length (label_text v) =? 0)%nat then None else Some (versionLabel (label_text v))).
Proof.
  intros [_ Hl]. destruct v as [n [l|]]; unfold String_, label_text, layout, byte_text; cbn [Number Label] in *.
  - destruct Hl as (t & -> & Hne & Ht). rewrite label_String_versionLabel, String.list_ascii_of_string_of_list_ascii by done.
    split_and!; [|done|by destruct t]. rewrite !list_of_app, String.list_ascii_of_string_of_list_ascii.
    cbn [String.list_ascii_of_string]. rewrite <- !app_assoc. destruct t; [done|]. reflexivity.
  - rewrite !list_of_app. cbn. rewrite app_nil_r. split_and!; [done|by split; cbn; [|lia]|done].
Qed.

Lemma ParseUint8_byte n : in_byte (ParseUint8 n).
Proof.
  unfold ParseUint8, in_byte. destruct (_ || _) eqn:E; [lia|]. apply orb_false_iff in E as [_ E%negb_false_iff].
  assert (Hpos : forall acc, 0 <= acc -> 0 <= foldl (fun acc a => acc * 10 + (Z.of_nat (nat_of_ascii a) - 48)) acc n).
  { induction n as [|a n IH]; cbn [foldl]; [done|]. intros acc Hacc. apply andb_true_iff in E as [Ha E]. apply IH; [done|].
    unfold digit, between in Ha. apply andb_true_iff in Ha as [Ha%Nat.leb_le _]. lia. }
  specialize (Hpos 0 ltac:(lia)). destruct (Z.ltb_spec 255 (foldl (fun acc a => acc * 10 + (Z.of_nat (nat_of_ascii a) - 48)) 0 n)); lia.
Qed.

(** C31. The text of a version of three bytes, with no label or a label of one to
    eight letters, digits and dashes, is read back as the same version, both
    directly and through [MarshalText] and [UnmarshalText]; and every text that
    is accepted gives such a version, so that printing it and reading it again
    changes nothing. *)
Theorem version_roundtrip (v : Version) (text : string) :
  (wf v -> VersionFromString (String_ v) = Ok v /\ forall old, UnmarshalText (MarshalText v) old = (Ok tt, v)) /\
  (VersionFromString text = Ok v -> wf v).
Proof.
  split.
  - intros Hwf. assert (H : VersionFromString (String_ v) = Ok v).
    { pose proof (String_layout v Hwf) as (Ht & Hok & Hl). unfold VersionFromString. rewrite Ht.
      destruct (byte_text_ok _ (u8_byte (Z.shiftr (Number v) 16))) as (A1 & A2 & A3).
      destruct (byte_text_ok _ (u8_byte (Z.shiftr (Number v) 8))) as (B1 & B2 & B3).
      destruct (byte_text_ok _ (u8_byte (Number v))) as (C1 & C2 & C3).
      rewrite bool_decide_eq_false_2 by (intros E; rewrite E in Ht; by destruct (byte_text (Major (Number v)))).
      destruct (verRegex_layout _ _ _ _ A1 B1 C1 A3 B3 C3 Hok) as [rest Hr].
      unfold Major, Minor, Patch. rewrite Hr, A2, B2, C2, <- Hl, NewVersion_number by apply u8_byte.
      destruct v as [n l], Hwf as [Hn _]; cbn in *. f_equal. f_equal. symmetry. by apply number_bytes. }
    split; [done|]. intros old. unfold UnmarshalText, MarshalText. by rewrite String.string_of_list_ascii_of_string, H.
  - unfold VersionFromString. case_bool_decide; [by intros [= <-]|].
    destruct (verRegex _) as [|[[[a b] c] l] rest] eqn:E; [done|]. intros [= <-].
    destruct (groups_sound (String.list_ascii_of_string text) a b c l) as (_ & _ & _ & Hl); [rewrite E; by left|].
    rewrite NewVersion_number by apply ParseUint8_byte. split; cbn [Number Label].
    + pose proof (ParseUint8_byte a). pose proof (ParseUint8_byte b). pose proof (ParseUint8_byte c). unfold in_byte in *. lia.
    + destruct l as [|x l]; [done|]. by exists (x :: l).
Qed.

Lemma version_roundtrip_witness :
  VersionFromString (String_ CurrentVersion) = Ok CurrentVersion /\ wf (NewVersion 1 3 5 None).
Proof.
  split.
  - apply (version_roundtrip CurrentVersion ""). split; [vm_compute; split; [discriminate|reflexivity]|].
    exists (String.list_ascii_of_string "beta-3"). split_and!; [reflexivity|discriminate|by split; [|cbn; lia]].
  - apply (version_roundtrip (NewVersion 1 3 5 None) "12345"). vm_compute. reflexivity.
Defined.
End Version.
