(* ===== verification/Commands.v ===== *)
(** * The command line client ([cmd/zstor/commands])

    [root.go], [namespace.go], [file.go], [file_meta.go] and [daemon.go].  A
    command works on the state of the process: the configuration, which is read
    once and shared by pointer, the log level, the standard output, and the
    world, that is the stores behind a client, the file system or the identity
    service.  [Cobra] models how the package [cobra] runs a command; flags are
    arguments, already parsed.  The texts of errors quote names with the verb
    [%q]; [quote] stands for it. *)

From stdpp Require Import pretty.
From S2P Require Import Prelude Unicode GoStrings Jwt Encoding Spread Datastor Pipeline MetaProto MetaProtoProps Metastor MetaMem ZClient.
From S2P Require Import Processing PipelineConfig TokenGetter Iyo MetaEtcd Construct Daemon Flags Version.
Import Registry AsyncSplitter.
Local Open Scope string_scope.
Local Open Scope list_scope.
Open Scope nat_scope.

(** ** The process *)
Record shell (X : Type) := {
  sh_config : option (outcome Construct.Config);
  sh_debug : bool;
  sh_out : bytes;
  sh_world : X;
}.
Arguments sh_config {X}. Arguments sh_debug {X}. Arguments sh_out {X}. Arguments sh_world {X}.

Definition set_config {X} (r : outcome Construct.Config) (s : shell X) : shell X :=
  {| sh_config := Some r; sh_debug := sh_debug s; sh_out := sh_out s; sh_world := sh_world s |}.
Definition set_debug {X} (s : shell X) : shell X :=
  {| sh_config := sh_config s; sh_debug := true; sh_out := sh_out s; sh_world := sh_world s |}.
Definition set_out {X} (out : bytes) (s : shell X) : shell X :=
  {| sh_config := sh_config s; sh_debug := sh_debug s; sh_out := out; sh_world := sh_world s |}.
Definition set_world {X} (x : X) (s : shell X) : shell X :=
  {| sh_config := sh_config s; sh_debug := sh_debug s; sh_out := sh_out s; sh_world := x |}.

Definition on_world {X A} (p : prog X A) : prog (shell X) A := fun s => let '(r, x) := p (sh_world s) in (r, set_world x s).
Definition print {X} (b : bytes) : prog (shell X) unit := fun s => (Ok tt, set_out (sh_out s ++ b) s).

(** A new process. *)
Definition start {X} (x : X) : shell X := {| sh_config := None; sh_debug := false; sh_out := []; sh_world := x |}.

(** ** Running a command ([cobra]) *)
Module Cobra.
Section Command.
Context {X : Type}.

(** The hooks that a command and its parents have for all their subcommands,
    the command's own first, and what it checks and does. *)
Record Command := {
  PersistentPreRuns : list (option (list string -> prog (shell X) unit));
  Args : list string -> outcome unit;
  PreRunE : list string -> prog (shell X) unit;
  RunE : list string -> prog (shell X) unit;
}.

(** Only the nearest hook is called. *)
Fixpoint persistent_pre_run (hooks : list (option (list string -> prog (shell X) unit))) (args : list string) : prog (shell X) unit :=
  match hooks with
  | [] => pret tt
  | Some hook :: _ => hook args
  | None :: hooks' => persistent_pre_run hooks' args
  end.

Definition execute (c : Command) (args : list string) : prog (shell X) unit :=
  do! _ := plift (Args c args) in
  do! _ := persistent_pre_run (PersistentPreRuns c) args in
  do! _ := PreRunE c args in
  RunE c args.
End Command.
Arguments Command : clear implicits.

Definition any_args (_ : list string) : outcome unit := Ok tt.
Definition MaximumNArgs (n : nat) (args : list string) : outcome unit :=
  if n <? length args then Err (ErrNew ("accepts at most " +:+ pretty n +:+ " arg(s), received " +:+ pretty (length args))) else Ok tt.
Definition ExactArgs (n : nat) (args : list string) : outcome unit :=
  if negb (length args =? n) then Err (ErrNew ("accepts " +:+ pretty n +:+ " arg(s), received " +:+ pretty (length args))) else Ok tt.
End Cobra.

(** [args[i]] *)
Definition arg {St} (args : list string) (i : nat) : prog St string :=
  match args !! i with Some a => pret a | None => ppanic "index out of range" end.

(** ** The configuration ([root.go]) *)
Section Config.
Context {X : Type} (ReadConfig : X -> outcome Construct.Config).

(** The file is read in the first call; all calls share the result. *)
Definition getClientConfig : prog (shell X) Construct.Config := fun s =>
  match sh_config s with
  | Some r => (r, s)
  | None => let r := ReadConfig (sh_world s) in (r, set_config r s)
  end.

Definition with_namespace (namespace : string) (cfg : Construct.Config) : Construct.Config :=
  {| IYO := IYO cfg; Namespace := namespace; DataStor := DataStor cfg; MetaStor := MetaStor cfg |}.

(** [config.Namespace = namespace], through the shared pointer. *)
Definition override_namespace (namespace : string) : prog (shell X) unit :=
  do! cfg := getClientConfig in
  fun s => (Ok tt, set_config (Ok (with_namespace namespace cfg)) s).

(** The hook of the root command. *)
Definition root_PersistentPreRun (DebugLog : bool) (_ : list string) : prog (shell X) unit := fun s =>
  (Ok tt, if DebugLog then set_debug s else s).

(** The hook of [file] ([file.go]). *)
Definition file_PersistentPreRunE (namespace : string) (_ : list string) : prog (shell X) unit :=
  if negb (bool_decide (namespace = "")) then override_namespace namespace else pret tt.

(** *** Arguments of the namespace commands ([namespace.go]) *)
Definition preRunNamespaceCommands (requiredArgs : nat) (args : list string) : prog (shell X) unit :=
  let n := length args in
  if n <? requiredArgs then pfail (ErrNew ("required at least " +:+ pretty requiredArgs +:+ " arg(s), received " +:+ pretty n))
  else
    let maxArgs := requiredArgs + 1 in
    if maxArgs <? n then pfail (ErrNew ("accepting maximum " +:+ pretty maxArgs +:+ " arg(s), received " +:+ pretty n))
    else if n =? maxArgs then do! namespace := arg args requiredArgs in override_namespace namespace
    else pret tt.

Definition getNamespacePosArg (maxArgs : nat) (args : list string) : prog (shell X) string :=
  if length args =? maxArgs then arg args (maxArgs - 1)
  else fun s =>
    match getClientConfig s with
    | (Ok cfg, s) => (Ok (Namespace cfg), s)
    | (Err e, s) => (Panic (error_text e), s)
    | (Panic p, s) => (Panic p, s)
    end.
End Config.

(** ** Namespaces ([namespace.go]) *)
Definition fmt_bool (b : bool) : string := if b then "true" else "false".

(** *** JSON texts ([encoding/json]) *)
Module Json.
Inductive value :=
  | JNull
  | JBool (b : bool)
  | JNum (n : Z)
  | JStr (s : list Ascii.ascii)
  | JArr (l : list value)
  | JObj (l : list (string * value)).

Definition chr (n : nat) : string := String (Ascii.ascii_of_nat n) EmptyString.
Definition dquote : string := chr 34.
Definition backslash : string := chr 92.

(** A byte in hexadecimal. *)
Definition hex (n : nat) : string := chr (if n <? 10 then 48 + n else 87 + n).

(** What is written for a character below 128. *)
Definition escape_ascii (a : Ascii.ascii) : string :=
  let n := Ascii.nat_of_ascii a in
  if (n =? 34) || (n =? 92) then backslash +:+ chr n
  else if n =? 10 then backslash +:+ "n"
  else if n =? 13 then backslash +:+ "r"
  else if n =? 9 then backslash +:+ "t"
  else if (n <? 32) || (n =? 60) || (n =? 62) || (n =? 38) then backslash +:+ "u00" +:+ hex (n / 16) +:+ hex (n mod 16)
  else chr n.

(** A string that is not in UTF-8 is replaced byte by byte; the two line
    separators of Unicode are escaped.  Every round takes a byte at least. *)
Fixpoint escape (fuel : nat) (s : list Ascii.ascii) : string :=
  match fuel, s with
  | S fuel', a :: s' =>
      if Ascii.nat_of_ascii a <? 128 then escape_ascii a +:+ escape fuel' s'
      else
        let w := Utf8.rune_width s in
        let rest := escape fuel' (drop w s) in
        if w =? 1 then backslash +:+ "ufffd" +:+ rest
        else match Ascii.nat_of_ascii <$> take 3 s with
             | [226; 128; 168] => backslash +:+ "u2028" +:+ rest
             | [226; 128; 169] => backslash +:+ "u2029" +:+ rest
             | _ => String.string_of_list_ascii (take w s) +:+ rest
             end
  | _, _ => EmptyString
  end.

Definition quoted (s : list Ascii.ascii) : string := dquote +:+ escape (length s) s +:+ dquote.

(** The end of a line and the tabs of the next one, when there is indentation. *)
Fixpoint tabs (n : nat) : string := match n with O => EmptyString | S n' => chr 9 +:+ tabs n' end.
Definition line (indent : bool) (depth : nat) : string := if indent then newline +:+ tabs depth else EmptyString.

Fixpoint text (indent : bool) (depth : nat) (v : value) : string :=
  let group o c (items : list string) :=
    match items with
    | [] => o +:+ c
    | _ => o +:+ Join ((fun i => line indent (S depth) +:+ i) <$> items) "," +:+ line indent depth +:+ c
    end in
  match v with
  | JNull => "null"
  | JBool b => fmt_bool b
  | JNum n => pretty n
  | JStr s => quoted s
  | JArr l => group "[" "]" (text indent (S depth) <$> l)
  | JObj l => group "{" "}"
      ((fun '(name, v) => dquote +:+ name +:+ dquote +:+ ":" +:+ (if indent then " " else "") +:+ text indent (S depth) v) <$> l)
  end.

(** [Encode] ends with a new line. *)
Definition Encode (indent : bool) (v : value) : bytes := str_bytes (text indent 0 v +:+ newline).
End Json.

Section Namespaces.
Context `{Identity V} (ReadConfig : V -> outcome Construct.Config) (quote : string -> string).
Local Abbreviation cmd := (prog (shell V)).

Definition getNamespaceManager : cmd Iyo.Config :=
  do! cfg := getClientConfig ReadConfig in plift (Iyo.NewClient (IYO cfg)).

Definition namespaceCreate (args : list string) : cmd unit :=
  do! iyoCl := getNamespaceManager in
  do! namespace := getNamespacePosArg ReadConfig 1 args in
  on_err (fun e => ErrNew ("creation of namespace " +:+ quote namespace +:+ " failed: " +:+ error_text e)) (on_world (CreateNamespace iyoCl namespace)).

Definition namespaceDelete (args : list string) : cmd unit :=
  do! iyoCl := getNamespaceManager in
  do! namespace := getNamespacePosArg ReadConfig 1 args in
  on_err (fun e => ErrNew ("deletion of namespace " +:+ quote namespace +:+ " failed: " +:+ error_text e)) (on_world (DeleteNamespace iyoCl namespace)).

(** [cfg] are the flags of the command. *)
Definition namespaceSetPermission (cfg : Permission) (args : list string) : cmd unit :=
  do! iyoCl := getNamespaceManager in
  do! userID := arg args 0 in
  do! namespace := getNamespacePosArg ReadConfig 2 args in
  let failed what e := ErrNew (what +:+ " permission(s) for " +:+ userID +:+ ":" +:+ namespace +:+ ": " +:+ error_text e) in
  do! currentpermissions := on_err (failed "fail to retrieve") (on_world (GetPermission iyoCl namespace userID)) in
  let toRemove := {| Jwt.Read := Jwt.Read currentpermissions && negb (Jwt.Read cfg); Jwt.Write := Jwt.Write currentpermissions && negb (Jwt.Write cfg);
                     Delete_ := Delete_ currentpermissions && negb (Delete_ cfg); Admin := Admin currentpermissions && negb (Admin cfg) |} in
  do! _ := on_err (failed "fail to remove") (on_world (RemovePermission iyoCl namespace userID toRemove)) in
  let toAdd := {| Jwt.Read := negb (Jwt.Read currentpermissions) && Jwt.Read cfg; Jwt.Write := negb (Jwt.Write currentpermissions) && Jwt.Write cfg;
                  Delete_ := negb (Delete_ currentpermissions) && Delete_ cfg; Admin := negb (Admin currentpermissions) && Admin cfg |} in
  on_err (failed "fail to give") (on_world (GivePermission iyoCl namespace userID toAdd)).

Definition namespaceGetPermission (JSONFormat JSONPrettyFormat : bool) (args : list string) : cmd unit :=
  do! iyoCl := getNamespaceManager in
  do! userID := arg args 0 in
  do! namespace := getNamespacePosArg ReadConfig 2 args in
  do! perm := on_err (fun e => ErrNew ("failed to retrieve permission for " +:+ userID +:+ ":" +:+ namespace +:+ ": " +:+ error_text e))
                (on_world (GetPermission iyoCl namespace userID)) in
  print
    (if JSONPrettyFormat || JSONFormat
     then Json.Encode JSONPrettyFormat (Json.JObj
       [("read", Json.JBool (Jwt.Read perm)); ("write", Json.JBool (Jwt.Write perm)); ("delete", Json.JBool (Delete_ perm)); ("admin", Json.JBool (Admin perm))])
     else str_bytes ("Read: " +:+ fmt_bool (Jwt.Read perm) +:+ newline +:+ "Write: " +:+ fmt_bool (Jwt.Write perm) +:+ newline +:+
          "Delete: " +:+ fmt_bool (Delete_ perm) +:+ newline +:+ "Admin: " +:+ fmt_bool (Admin perm) +:+ newline)).

(** The commands under [zstor namespace], with the flag for debug logging. *)
Definition namespace_command (DebugLog : bool) (requiredArgs : nat) (run : list string -> cmd unit) : Cobra.Command V :=
  {| Cobra.PersistentPreRuns := [None; None; Some (root_PersistentPreRun DebugLog)]; Cobra.Args := Cobra.any_args;
     Cobra.PreRunE := preRunNamespaceCommands ReadConfig requiredArgs; Cobra.RunE := run |}.
End Namespaces.

(** ** Files ([file.go], [file_meta.go]) *)

(** The client that the commands use. *)
Record client (X : Type) := {
  cl_Write : Z -> bytes -> option Reader -> prog X (option Metadata * option error);
  cl_Read : forall Out, bytes -> option (Writer Out) -> Out -> prog X (Out * option error);
  cl_Delete : bytes -> prog X unit;
  cl_Repair : Z -> bytes -> prog X (option Metadata * option error);
}.
Arguments cl_Write {X}. Arguments cl_Read {X} _ {Out}. Arguments cl_Delete {X}. Arguments cl_Repair {X}.

(** The client of [client.go] over a pipeline and a metadata database. *)
Definition client_of `{DataPipeline D} `{MetaDB M} (c : MarshalFuncPair) : client (D * M) :=
  {| cl_Write := ZClient.Write c; cl_Read Out := ZClient.Read c; cl_Delete := ZClient.Delete c; cl_Repair := ZClient.Repair c |}.

(** [filepath.Base] *)
Definition slash : Ascii.ascii := Flags.Net.slash.

Fixpoint trim_slashes (s : string) : string :=
  match s with
  | EmptyString => EmptyString
  | String a s' => match trim_slashes s' with
                   | EmptyString => if bool_decide (a = slash) then EmptyString else String a EmptyString
                   | t => String a t
                   end
  end.

Definition Base (path : string) : string :=
  if bool_decide (path = "") then "."
  else
    let path := trim_slashes path in
    let path := match Flags.Net.last_index_byte path slash with Some i => str_drop (S i) path | None => path end in
    if bool_decide (path = "") then "/" else path.

Example Base_examples : Base "" = "." /\ Base "/" = "/" /\ Base "a/b.txt" = "b.txt" /\ Base "/tmp//x/" = "x".
Proof. repeat split; reflexivity. Qed.

Section Files.
Context {X F Handle : Type} `{FileSystem F Handle}.
Local Abbreviation cmd := (prog (shell (X * F))).
Context (ReadConfig : X * F -> outcome Construct.Config) (JobCount : Z) (now : Z) (quote : string -> string).
(** [NewClientFromConfigWithoutCaching], and the metadata client's [GetMetadata]. *)
Context (newClient : Construct.Config -> Z -> outcome (client X)) (newMetaClient : Construct.Config -> outcome (bytes -> prog X Metadata)).

Definition on_store {A} (p : prog X A) : cmd A := on_world (fun '(x, f) => let '(r, x) := p x in (r, (x, f))).
Definition on_files {A} (p : prog F A) : cmd A := on_world (fun '(x, f) => let '(r, f) := p f in (r, (x, f))).

Definition getClient : cmd (client X) :=
  do! cfg := getClientConfig ReadConfig in
  on_err (fun e => ErrNew ("failed to create 0-stor client: " +:+ error_text e)) (plift (newClient cfg JobCount)).

(** [defer file.Close()]: the error of closing is lost. *)
Definition closing {A} (h : Handle) (p : cmd A) : cmd A := fun s => let '(r, s) := p s in (r, (on_files (fs_close h) s).2).

(** The result of a client call that also returns metadata. *)
Definition checked {A} (wrap : error -> error) (p : cmd (A * option error)) : cmd A :=
  do! (a, e) := on_err wrap p in match e with Some e => pfail (wrap e) | None => pret a end.

Definition upload_as (cl : client X) (inputName key : string) (input : Reader) : cmd unit :=
  do! _ := checked (fun e => ErrNew ("uploading data from " +:+ quote inputName +:+ " as " +:+ quote key +:+ " failed: " +:+ error_text e))
             (on_store (cl_Write cl now (str_bytes key) (Some input))) in pret tt.

(** [key] is the flag, [stdin] the standard input. *)
Definition fileUpload (key : string) (stdin : Reader) (args : list string) : cmd unit :=
  do! cl := getClient in
  if length args =? 1 then
    do! inputName := arg args 0 in
    do! (h, file) := on_err (fun e => ErrNew ("can't read the file " +:+ quote inputName +:+ ": " +:+ error_text e)) (on_files (fs_open inputName)) in
    closing h (upload_as cl inputName (if bool_decide (key = "") then Base inputName else key) file)
  else if bool_decide (key = "") then pfail (ErrNew "key flag is required when uploading from the STDIN")
  else upload_as cl "STDIN" key stdin.

(** A read of the client into the standard output, or into an open file. *)
Definition read_to_stdout (cl : client X) (key : string) : cmd (unit * option error) := fun s =>
  let '(x, f) := sh_world s in
  match cl_Read cl (str_bytes key) (Some append) (sh_out s) x with
  | (Ok (out, e), x) => (Ok (tt, e), set_world (x, f) (set_out out s))
  | (Err e, x) => (Err e, set_world (x, f) s)
  | (Panic p, x) => (Panic p, set_world (x, f) s)
  end.

Definition read_to_file (cl : client X) (key : string) (h : Handle) : cmd (unit * option error) := fun s =>
  let '(x, f) := sh_world s in
  match cl_Read cl (str_bytes key) (Some (fs_write h)) f x with
  | (Ok (f, e), x) => (Ok (tt, e), set_world (x, f) s)
  | (Err e, x) => (Err e, set_world (x, f) s)
  | (Panic p, x) => (Panic p, set_world (x, f) s)
  end.

(** The output file is created, or emptied, before the key is looked up, and it
    is not closed. *)
Definition fileDownload (Output : string) (args : list string) : cmd unit :=
  do! cl := getClient in
  do! key := arg args 0 in
  let failed e := ErrNew ("downloading file (key: " +:+ key +:+ ") failed: " +:+ error_text e) in
  if negb (bool_decide (Output = "")) then
    do! h := on_err (fun e => ErrNew ("can't create output file " +:+ quote Output +:+ ": " +:+ error_text e))
               (on_files (fs_OpenFile Output (Z.lor (Z.lor O_RDWR O_CREATE) O_TRUNC) 438)) in
    checked failed (read_to_file cl key h)
  else checked failed (read_to_stdout cl key).

Definition fileDelete (args : list string) : cmd unit :=
  do! cl := getClient in
  do! key := arg args 0 in
  on_err (fun e => ErrNew ("failed to delete file " +:+ quote key +:+ ": " +:+ error_text e)) (on_store (cl_Delete cl (str_bytes key))).

Definition fileRepair (args : list string) : cmd unit :=
  do! cl := getClient in
  do! key := arg args 0 in
  do! _ := checked (fun e => ErrNew ("repair file " +:+ quote key +:+ " failed: " +:+ error_text e)) (on_store (cl_Repair cl now (str_bytes key))) in
  pret tt.

(** *** Metadata *)
Definition chars (b : bytes) : list Ascii.ascii := Ascii.ascii_of_byte <$> b.

(** [Size] is not among what is printed; every write is done whatever became
    of the one before. *)
Definition writeMetaAsHumanReadableFormat (m : Metadata) : bytes :=
  let line name b := str_bytes name ++ b ++ str_bytes newline in
  let number (z : Z) := str_bytes (pretty z) in
  line "Key: " (Key m) ++ line "CreationEpoch: " (number (CreationEpoch m)) ++ line "LastWriteEpoch: " (number (LastWriteEpoch m)) ++
  line "Chunks:" [] ++
  (Chunks m ≫= fun chunk =>
     line (Json.tabs 1 +:+ "Size: ") (number (ch_Size chunk)) ++ line "Objects:" [] ++
     (ch_Objects chunk ≫= fun object =>
        line (Json.tabs 2 +:+ "Key: ") (mo_Key object) ++ line (Json.tabs 2 +:+ "ShardID: ") (str_bytes (mo_ShardID object))) ++
     line (Json.tabs 1 +:+ "Hash: ") (ch_Hash chunk) ++ str_bytes newline) ++
  match PreviousKey m with Some k => line "PreviousKey: " k | None => [] end ++
  match NextKey m with Some k => line "NextKey: " k | None => [] end.

(** [_MetaDataJSON]; a slice to which nothing was appended is nil. *)
Definition json_slice (l : list Json.value) : Json.value := match l with [] => Json.JNull | _ => Json.JArr l end.

Definition json_optional (name : string) (k : slice) : list (string * Json.value) :=
  match slice_bytes k with [] => [] | b => [(name, Json.JStr (chars b))] end.

Definition metadata_json (m : Metadata) : Json.value :=
  let object o := Json.JObj [("key", Json.JStr (chars (mo_Key o))); ("shard", Json.JStr (chars (str_bytes (mo_ShardID o))))] in
  let chunk c := Json.JObj [("size", Json.JNum (ch_Size c)); ("objects", json_slice (object <$> ch_Objects c)); ("hash", Json.JStr (chars (ch_Hash c)))] in
  Json.JObj ([("key", Json.JStr (chars (Key m))); ("size", Json.JNum (Size m)); ("creation_epoch", Json.JNum (CreationEpoch m));
              ("last_write_epoch", Json.JNum (LastWriteEpoch m)); ("chunks", json_slice (chunk <$> Chunks m))] ++
             json_optional "previous_key" (PreviousKey m) ++ json_optional "next_key" (NextKey m)).

Definition writeMetaAsJSON (m : Metadata) (pretty : bool) : bytes := Json.Encode pretty (metadata_json m).

Definition fileMetadata (JSONFormat JSONPrettyFormat : bool) (args : list string) : cmd unit :=
  do! cfg := getClientConfig ReadConfig in
  do! GetMetadata := plift (newMetaClient cfg) in
  do! key := arg args 0 in
  do! meta := on_err (fun e => ErrNew ("failed to get metadata for " +:+ quote key +:+ ": " +:+ error_text e)) (on_store (GetMetadata (str_bytes key))) in
  print (if JSONPrettyFormat then writeMetaAsJSON meta true
         else if JSONFormat then writeMetaAsJSON meta false
         else writeMetaAsHumanReadableFormat meta).

(** The commands under [zstor file]. *)
Definition file_command (DebugLog : bool) (namespace : string) (args : list string -> outcome unit) (run : list string -> cmd unit) : Cobra.Command (X * F) :=
  {| Cobra.PersistentPreRuns := [None; Some (file_PersistentPreRunE ReadConfig namespace); Some (root_PersistentPreRun DebugLog)];
     Cobra.Args := args; Cobra.PreRunE := fun _ => pret tt; Cobra.RunE := run |}.
End Files.

(** ** The metadata client of the command line ([root.go])

    Another copy of the function that makes a metadata client. *)
Section MetaClient.
Context (encryptions : registry (bytes -> outcome SharedProcessor)) (encodings : registry MarshalFuncPair).
Context {N : Type} (connect : list string -> outcome (MetaEtcd.etcd N)).

Definition getMetaClient (cfg : MetaStorConfig) : outcome MarshalFuncPair * option (MetaEtcd.etcd N) :=
  if (length (Endpoints cfg) =? 0) then (Err (ErrNew "no metadata storage ETCD endpoints given"), None)
  else match MetaEtcd.New connect (Endpoints cfg) with
  | Err e => (Err e, None)
  | Panic p => (Panic p, None)
  | Ok db =>
      (let! funcPair := MarshalTypes.NewMarshalFuncPair encodings (Encoding_ cfg) in
       let funcs := Some (Some (Marshal funcPair), Some (Unmarshal funcPair)) in
       let privateKey := me_PrivateKey (MetaEncryption cfg) in
       if (String.length privateKey =? 0)
       then Metastor.NewClient {| Database := true; FuncPair := funcs; ProcessorConstructor := None |}
       else
         let constructor :=
           let! p := NewEncrypterDecrypter encryptions (me_Type (MetaEncryption cfg)) (str_bytes privateKey) in Ok (proc p) in
         let! _ := constructor in
         Metastor.NewClient {| Database := true; FuncPair := funcs; ProcessorConstructor := Some constructor |}, Some db)
  end.

Lemma getMetaClient_same cfg : getMetaClient cfg = createMetastorClientFromConfig encryptions encodings connect cfg.
Proof. reflexivity. Qed.
End MetaClient.

(** ** The daemon command ([daemon.go]) *)
Inductive ending := ServeReturned (e : option error) | Interrupted.

(** The listener is made first; it is not closed when what follows fails.  The
    command ends when the server does or when it is interrupted; [Close] of the
    daemon returns no error.  The listener that is left open comes second. *)
Definition daemonFunc {L Dm : Type} (Listen : string -> string -> outcome L) (ReadConfig : outcome Construct.Config)
    (NewFromClientConfig : Construct.Config -> outcome Dm) (address : ListenAddress.ListenAddress) (e : ending) : outcome unit * option L :=
  match Listen (ListenAddress.NetworkProtocol address) (ListenAddress.String_ address) with
  | Err err => (Err err, None)
  | Panic p => (Panic p, None)
  | Ok listener =>
      match (let! cfg := ReadConfig in NewFromClientConfig cfg) with
      | Err err => (Err err, Some listener)
      | Panic p => (Panic p, Some listener)
      | Ok _ => (match e with ServeReturned err => Serve err | Interrupted => Ok tt end, None)
      end
  end.

(** ** One configuration for a command *)
Section Shared.
Context {X F Handle : Type} `{FileSystem F Handle}.
Context (ReadConfig : X * F -> outcome Construct.Config).

Lemma getClientConfig_set cfg s : getClientConfig ReadConfig (set_config (Ok cfg) s) = (Ok cfg, set_config (Ok cfg) s).
Proof using. done. Qed.

Lemma override_start ns x cfg :
  ReadConfig x = Ok cfg -> override_namespace ReadConfig ns (start x) = (Ok tt, set_config (Ok (with_namespace ns cfg)) (start x)).
Proof using. intros Hc. unfold override_namespace, pbind, getClientConfig. cbn [start sh_config sh_world]. by rewrite Hc. Qed.

(** A file command runs with the configuration whose namespace is the flag, if
    there is one; the debug flag is not looked at. *)
Lemma file_command_runs dbg ns argcheck run args x cfg :
  argcheck args = Ok tt -> ReadConfig x = Ok cfg ->
  Cobra.execute (file_command ReadConfig dbg ns argcheck run) args (start x) =
  run args (if bool_decide (ns = "") then start x else set_config (Ok (with_namespace ns cfg)) (start x)).
Proof using.
  intros Ha Hc. unfold Cobra.execute, file_command. cbn [Cobra.Args Cobra.PersistentPreRuns Cobra.PreRunE Cobra.RunE Cobra.persistent_pre_run].
  unfold pbind at 1, plift. rewrite Ha. unfold file_PersistentPreRunE. case_bool_decide; cbn [negb]; [done|].
  unfold pbind at 1. by rewrite (override_start ns x cfg Hc).
Qed.

(** The client of a file command is made of that configuration. *)
Lemma getClient_runs JobCount newClient ns x cfg :
  ReadConfig x = Ok cfg ->
  let cfg' := if bool_decide (ns = "") then cfg else with_namespace ns cfg in
  getClient ReadConfig JobCount newClient (if bool_decide (ns = "") then start x else set_config (Ok (with_namespace ns cfg)) (start x)) =
  (match newClient cfg' JobCount with
   | Err e => Err (ErrNew ("failed to create 0-stor client: " +:+ error_text e)) | r => r end, set_config (Ok cfg') (start x)).
Proof using.
  intros Hc. cbv zeta. unfold getClient, pbind, on_err, plift, getClientConfig. case_bool_decide; cbn [start sh_config sh_world set_config].
  - rewrite Hc. by destruct (newClient cfg JobCount).
  - by destruct (newClient (with_namespace ns cfg) JobCount).
Qed.
End Shared.

(** ** Uploads and downloads *)
Section Transfer.
Context `{DataPipelineLaws D} `{MetaDBLaws M} (c : MarshalFuncPair) `{!Codec c} `{FileSystem F Handle}.
Local Abbreviation X := (D * M)%type.
Context (ReadConfig : X * F -> outcome Construct.Config) (JobCount now : Z) (quote : string -> string)
  (newClient : Construct.Config -> Z -> outcome (client X)).

Definition upload_command dbg ns key stdin :=
  file_command ReadConfig dbg ns (Cobra.MaximumNArgs 1) (fileUpload ReadConfig JobCount now quote newClient key stdin).
Definition download_command dbg ns output :=
  file_command ReadConfig dbg ns (Cobra.ExactArgs 1) (fileDownload ReadConfig JobCount quote newClient output).

(** The configuration that a command with the namespace flag [ns] uses. *)
Definition configured (ns : string) (cfg : Construct.Config) : Construct.Config := if bool_decide (ns = "") then cfg else with_namespace ns cfg.

Lemma str_bytes_nonempty s : s <> "" -> str_bytes s <> [].
Proof using. by destruct s. Qed.

(** An upload is a write of the client; the state of the files does not matter
    to the stores. *)
Lemma upload_runs dbg ns key stdin path h r z f f1 cfg :
  ReadConfig (z, f) = Ok cfg -> newClient (configured ns cfg) JobCount = Ok (client_of c) -> fs_open path f = (Ok (h, r), f1) ->
  let name := if bool_decide (key = "") then Base path else key in
  let res := Cobra.execute (upload_command dbg ns key stdin) [path] (start (z, f)) in
  let w := ZClient.Write c now (str_bytes name) (Some r) z in
  (sh_world res.2).1 = w.2 /\ (res.1 = Ok tt <-> exists md, w.1 = Ok (md, None)).
Proof using.
  intros Hc Hn Ho. cbv zeta. destruct (Cobra.execute _ _ _) as [res s'] eqn:E. cbn [fst snd].
  unfold upload_command in E. rewrite (file_command_runs _ _ _ _ _ _ (z, f) cfg) in E by done.
  unfold fileUpload in E. unfold pbind at 1 in E. rewrite (getClient_runs ReadConfig JobCount newClient ns (z, f) cfg Hc) in E. unfold configured in Hn.
  rewrite Hn in E. cbn [length Nat.eqb] in E. unfold pbind at 1, arg in E. cbn [lookup list_lookup pret] in E.
  unfold pbind at 1, on_err, on_files, on_world in E. cbn [set_config start sh_world] in E. rewrite Ho in E.
  unfold closing, upload_as, checked, pbind, on_err, on_store, on_files, on_world, set_world in E. cbn [sh_world cl_Write client_of] in E.
  destruct (ZClient.Write c now _ (Some r) z) as [[[md [e|]]|e|p] z1]; cbn in E; destruct (fs_close h f1) as [? f2]; injection E as <- <-.
  all: cbn; split; [done|]; split; [intros Er; first [discriminate Er|by exists md]|by intros [? [=]]].
Qed.

(** A download to the standard output prints what a read of the client gives. *)
Lemma download_runs dbg ns key z f cfg data e z1 :
  ReadConfig (z, f) = Ok cfg -> newClient (configured ns cfg) JobCount = Ok (client_of c) ->
  ZClient.Read c (str_bytes key) (Some append) [] z = (Ok (data, e), z1) ->
  exists s', Cobra.execute (download_command dbg ns "") [key] (start (z, f)) =
    (match e with
     | None => Ok tt
     | Some e => Err (ErrNew ("downloading file (key: " +:+ key +:+ ") failed: " +:+ error_text e))
     end, s') /\ sh_out s' = data /\ sh_world s' = (z1, f).
Proof using.
  intros Hc Hn Hr. unfold download_command. rewrite (file_command_runs _ _ _ _ _ _ (z, f) cfg) by done.
  unfold fileDownload. unfold pbind at 1. rewrite (getClient_runs ReadConfig JobCount newClient ns (z, f) cfg Hc). unfold configured in Hn.
  rewrite Hn. unfold pbind at 1, arg. cbn [lookup list_lookup pret]. rewrite bool_decide_eq_true_2 by done. cbn [negb].
  unfold checked, pbind, on_err, read_to_stdout. cbn [set_config start sh_world sh_out cl_Read client_of]. rewrite Hr.
  destruct e as [e|]; eexists; (split; [reflexivity|done]).
Qed.

(** C28. What is uploaded can be downloaded.  While the stores hold the map [kv],
    the command that uploads a file, under the given key or the name of the
    file, and with or without another namespace, either succeeds and the stores
    hold the map with the key bound to the content of the file, or fails and
    they hold [kv]; its result does not depend on closing the file.  A
    command that downloads a key to the standard output prints, when the stores
    can be reached, exactly the data of the map, and for a key that is not in it prints nothing and fails. *)
Theorem upload_then_download (dbg : bool) (ns key path : string) (stdin : Reader) (h : Handle) (r : Reader) (x : bytes) (k : nat)
    (kv : gmap bytes bytes) (z : D * M) (f f1 : F) (cfg : Construct.Config) :
  (forall z f, ReadConfig (z, f) = Ok cfg) -> newClient (configured ns cfg) JobCount = Ok (client_of c) ->
  let name := str_bytes (if bool_decide (key = "") then Base path else key) in
  name <> [] -> represents c (pl_cost r + k) kv z -> fs_open path f = (Ok (h, r), f1) -> pl_input r = Some x ->
  (forall chunks d', pl_Write (Some r) z.1 = (Ok chunks, d') -> storable c name (new_metadata now name None chunks)) ->
  (let '(res, s) := Cobra.execute (upload_command dbg ns key stdin) [path] (start (z, f)) in
   res = Ok tt /\ represents c k (<[name := x]> kv) (sh_world s).1 \/ res <> Ok tt /\ represents c k kv (sh_world s).1) /\
  forall n kv' z' key', pl_ready -> represents c n kv' z' -> key' <> "" ->
    exists s, represents c n kv' (sh_world s).1 /\
      match kv' !! str_bytes key' with
      | Some y => Cobra.execute (download_command dbg ns "") [key'] (start (z', f)) = (Ok tt, s) /\ sh_out s = y
      | None => exists e, Cobra.execute (download_command dbg ns "") [key'] (start (z', f)) = (Err e, s) /\ sh_out s = []
      end.
Proof using.
  intros Hc Hn name Hname Hrep Ho Hx Hst. split.
  - destruct (upload_runs dbg ns key stdin path h r z f f1 cfg (Hc _ _) Hn Ho) as [Hw Hok]. fold name in Hw, Hok.
    destruct (Cobra.execute _ _ _) as [res s]. cbn [fst snd] in *. rewrite Hw.
    destruct (ZClient.Write c now name (Some r) z) as [wr z1] eqn:E.
    destruct (Write_refines c now name r x k kv z wr z1 Hname Hrep Hx Hst E) as [(md & -> & _ & Hr)|[Hne Hr]]; cbn [fst snd] in *.
    + left. split; [apply Hok; by exists (Some md)|done].
    + right. split; [|done]. intros [[md|] ->]%Hok; [by destruct (Hne md)|].
      revert E. unfold ZClient.Write. rewrite length_nonempty by done. unfold on_data, on_meta. destruct z as [d m].
      destruct (pl_Write (Some r) d) as [[chunks|e|p] d1]; [|done..]. by destruct (SetMetadata _ _ _) as [[]].
  - intros n kv' z' key' Hrd Hrep' Hk. destruct (Read_ready c (str_bytes key') [] n kv' z' Hrd (str_bytes_nonempty _ Hk) Hrep') as (z1 & Hr1 & E).
    destruct (kv' !! str_bytes key') as [y|].
    + destruct (download_runs dbg ns key' z' f cfg _ _ _ (Hc _ _) Hn E) as (s & Hd & Hout & Hw). exists s. rewrite Hw. done.
    + destruct (download_runs dbg ns key' z' f cfg _ _ _ (Hc _ _) Hn E) as (s & Hd & Hout & Hw). exists s. rewrite Hw. split; [done|]. by eexists.
Qed.
End Transfer.

(** The flag for debug logging does nothing for the commands under [file],
    whose own hook replaces the one of the root. *)
Lemma file_debug_ignored {X F} (ReadConfig : X * F -> outcome Construct.Config) dbg ns argcheck run args s :
  Cobra.execute (file_command ReadConfig dbg ns argcheck run) args s = Cobra.execute (file_command ReadConfig false ns argcheck run) args s.
Proof. reflexivity. Qed.

(** ** Permissions *)
Section Permissions.
Context `{Identity V} (ReadConfig : V -> outcome Construct.Config) (quote : string -> string).

(** A step of the command against a step of the service. *)
Lemma bind_world {A B} f g (p : prog V A) (k : A -> prog (shell V) B) (k' : A -> prog V B) s (Q : outcome B * shell V -> outcome B * V -> Prop) :
  (forall r e e' s' v, r = (Err e, s') -> sh_world s' = v -> Q r (Err e', v)) ->
  (forall r q s' v, r = (Panic q, s') -> sh_world s' = v -> Q r (Panic q, v)) ->
  (forall a v, Q (k a (set_world v s)) (k' a v)) ->
  Q (pbind (on_err f (on_world p)) k s) (pbind (on_err g p) k' (sh_world s)).
Proof using.
  intros He Hp Hk. unfold pbind, on_err, on_world. destruct (p (sh_world s)) as [[a|e|q] v]; [apply Hk|by eapply He|by eapply Hp].
Qed.

(** The two results agree: the same state of the service, and both succeed or
    both fail. *)
Definition same_effect (r : outcome unit * shell V) (r' : outcome unit * V) : Prop :=
  sh_world r.2 = r'.2 /\ (r.1 = Ok tt <-> r'.1 = Ok tt).

Lemma set_permission_steps perm iyoCl ns u s :
  let failed what e := ErrNew (what +:+ " permission(s) for " +:+ u +:+ ":" +:+ ns +:+ ": " +:+ error_text e) in
  same_effect
    ((do! cur := on_err (failed "fail to retrieve") (on_world (GetPermission iyoCl ns u)) in
      do! _ := on_err (failed "fail to remove") (on_world (RemovePermission iyoCl ns u (computePermissionsToRemove cur perm))) in
      on_err (failed "fail to give") (on_world (GivePermission iyoCl ns u (computePermissionsToGive cur perm)))) s)
    (iyo_SetPermission iyoCl ns u perm (sh_world s)).
Proof using.
  cbv zeta. unfold iyo_SetPermission. apply bind_world; [by intros r e e' s' v -> Hw|by intros r q s' v -> Hw|]. intros cur v.
  change v with (sh_world (set_world v s)) at 2. apply bind_world; [by intros r e e' s' v' -> Hw|by intros r q s' v' -> Hw|]. intros [] v1.
  unfold same_effect, on_err, on_world. cbn [sh_world set_world].
  by destruct (GivePermission iyoCl ns u _ v1) as [[[]|e|q] v2].
Qed.

(** With the right number of arguments a namespace command runs with the
    configuration read, and its namespace overridden by the last argument. *)
Lemma namespace_command_runs dbg required run args g cfg :
  ReadConfig g = Ok cfg -> required <= length args <= required + 1 ->
  exists s, Cobra.execute (namespace_command ReadConfig dbg required run) args (start g) = run args s /\ sh_world s = g /\
    (length args = required /\ sh_config s = None \/
     exists ns, args !! required = Some ns /\ length args = required + 1 /\ sh_config s = Some (Ok (with_namespace ns cfg))).
Proof using.
  intros Hc Hn. unfold Cobra.execute, namespace_command. cbn [Cobra.Args Cobra.PersistentPreRuns Cobra.PreRunE Cobra.RunE Cobra.persistent_pre_run].
  unfold pbind at 1, plift, Cobra.any_args. unfold pbind at 1, root_PersistentPreRun. set (s0 := if dbg then set_debug (start g) else start g).
  assert (Hs0 : sh_config s0 = None /\ sh_world s0 = g) by (by destruct dbg). destruct Hs0 as [Hcfg Hw].
  unfold pbind at 1, preRunNamespaceCommands. destruct (Nat.ltb_spec (length args) required); [lia|].
  destruct (Nat.ltb_spec (required + 1) (length args)); [lia|]. destruct (Nat.eqb_spec (length args) (required + 1)) as [E|E].
  - destruct (lookup_lt_is_Some_2 args required) as [ns Hns]; [lia|]. unfold pbind at 1, arg. rewrite Hns. cbn [pret].
    unfold override_namespace, pbind, getClientConfig. rewrite Hcfg, Hw, Hc. eexists. split; [reflexivity|]. split; [done|]. right. by exists ns.
  - exists s0. split_and!; [done|done|]. left. split; [lia|done].
Qed.

(** The configuration that a command finds, and its namespace. *)
Lemma configuration_found required args s g cfg :
  ReadConfig g = Ok cfg -> sh_world s = g -> 
  (length args = required /\ sh_config s = None \/
   exists ns, args !! required = Some ns /\ length args = required + 1 /\ sh_config s = Some (Ok (with_namespace ns cfg))) ->
  exists cfg', getClientConfig ReadConfig s = (Ok cfg', set_config (Ok cfg') s) /\ IYO cfg' = IYO cfg /\
    getNamespacePosArg ReadConfig (required + 1) args (set_config (Ok cfg') s) = (Ok (default (Namespace cfg) (args !! required)), set_config (Ok cfg') s).
Proof using.
  intros Hc Hw [[Hl Hs]|(ns & Hns & Hl & Hs)]; unfold getClientConfig; rewrite Hs, ?Hw, ?Hc.
  - exists cfg. split_and!; [done|done|]. unfold getNamespacePosArg. destruct (Nat.eqb_spec (length args) (required + 1)); [lia|].
    rewrite lookup_ge_None_2 by lia. done.
  - exists (with_namespace ns cfg). split_and!; [|done|].
    + f_equal. destruct s; cbn in *. by subst.
    + unfold getNamespacePosArg, arg. rewrite Hl, Nat.eqb_refl. replace (required + 1 - 1) with required by lia. by rewrite Hns.
Qed.

(** The command and the service of the daemon change permissions alike: run
    with a user and a namespace, or with a user when the configuration has the
    namespace, [zstor namespace permission set] leaves the identity service
    exactly as a request to the daemon does and succeeds if and only if that
    does, whatever the identity service answers.  With no or with too many
    arguments it fails and makes no call. *)
Theorem set_permission_command (dbg : bool) (perm : Permission) (u ns : string) (args : list string) (g : V) (cfg : Construct.Config) (iyoCl : Iyo.Config) :
  ReadConfig g = Ok cfg -> Iyo.NewClient (IYO cfg) = Ok iyoCl ->
  let cmd := namespace_command ReadConfig dbg 1 (namespaceSetPermission ReadConfig perm) in
  (args = [u; ns] \/ args = [u] /\ Namespace cfg = ns -> same_effect (Cobra.execute cmd args (start g)) (iyo_SetPermission iyoCl ns u perm g)) /\
  (length args < 1 \/ 2 < length args -> exists e, (Cobra.execute cmd args (start g)).1 = Err e /\ sh_world (Cobra.execute cmd args (start g)).2 = g).
Proof using.
  intros Hc Hi cmd. subst cmd. split.
  - intros Hargs. assert (Hn : 1 <= length args <= 1 + 1 /\ args !! 0 = Some u /\ default (Namespace cfg) (args !! 1) = ns)
      by (destruct Hargs as [-> | [-> Hns]]; cbn; split_and!; (lia || done)). destruct Hn as (Hn & Hu & Hns).
    destruct (namespace_command_runs dbg 1 (namespaceSetPermission ReadConfig perm) args g cfg Hc Hn) as (s & -> & Hw & Hs).
    destruct (configuration_found 1 args s g cfg Hc Hw Hs) as (cfg' & Hg & Hiyo & Hpos).
    unfold namespaceSetPermission, getNamespaceManager. unfold pbind at 1, pbind at 1. rewrite Hg, Hiyo. unfold plift at 1. rewrite Hi.
    unfold pbind at 1, arg at 1. rewrite Hu. cbn [pret]. unfold pbind at 1. change 2 with (1 + 1). rewrite Hpos, Hns.
    rewrite <- Hw. apply (set_permission_steps perm iyoCl ns u (set_config (Ok cfg') s)).
  - intros Hn. unfold Cobra.execute, namespace_command. cbn [Cobra.Args Cobra.PersistentPreRuns Cobra.PreRunE Cobra.RunE Cobra.persistent_pre_run].
    unfold pbind, plift, Cobra.any_args, root_PersistentPreRun, preRunNamespaceCommands.
    destruct (Nat.ltb_spec (length args) 1); [by destruct dbg; eexists|].
    destruct (Nat.ltb_spec (1 + 1) (length args)); [by destruct dbg; eexists|lia].
Qed.
End Permissions.

(** ** A file on a disk with one file *)
#[local] Instance one_file : FileSystem (gmap string bytes) string := {|
  fs_open path := fun f => (match f !! path with Some b => Ok (path, bytes_reader 3 (length b) b) | None => Err (ErrNew "no such file") end, f);
  fs_OpenFile path _ _ := fun f => (Ok path, <[path := []]> f);
  fs_write h := fun f b => (<[h := default [] (f !! h) ++ b]> f, None);
  fs_close _ := pret tt;
|}.

Definition demo_files : gmap string bytes := {["/tmp/key" := demo_text]}.

Lemma upload_then_download_witness :
  let '(res, s) := Cobra.execute (upload_command (D := list bytes) (M := MetaMem.DB) (fun _ => Ok full_config) 0 7 (fun s => s) (fun _ _ => Ok (client_of proto_pair))
    true "other" "" []) ["/tmp/key"] (start (demo_empty, demo_files)) in
  res = Ok tt /\ represents proto_pair 0 {[demo_key := demo_text]} (sh_world s).1.
Proof.
  destruct (upload_then_download (F := gmap string bytes) proto_pair (fun _ => Ok full_config) 0 7 (fun s => s)
    (fun _ _ => Ok (client_of proto_pair)) true "other" "" "/tmp/key" [] "/tmp/key" demo_input demo_text 0 ∅ demo_empty demo_files demo_files
    full_config ltac:(done) ltac:(done) ltac:(done) (demo_represents 4) ltac:(vm_compute; reflexivity) ltac:(vm_compute; reflexivity)) as [Hup _].
  - intros chunks d' E. assert (chunks = demo_chunks) as -> by (vm_compute in E; by injection E). split; [exact demo_encodable|done].
  - destruct (Cobra.execute _ _ _) as [res s] eqn:E. destruct Hup as [[-> Hrep]|[Hne _]]; [done|]. exfalso. apply Hne.
    vm_compute in E. by injection E as <- _.
Defined.

Lemma set_permission_command_witness :
  let perm := {| Jwt.Read := true; Jwt.Write := false; Delete_ := true; Admin := false |} in
  let cmd := namespace_command (fun _ => Ok full_config) true 1 (namespaceSetPermission (fun _ => Ok full_config) perm) in
  same_effect (Cobra.execute cmd ["bob"] (start (∅, ∅))) (iyo_SetPermission (IYO full_config) "ns" "bob" perm (∅, ∅)).
Proof.
  apply (set_permission_command (fun _ => Ok full_config) true _ "bob" "ns" ["bob"] (∅, ∅) full_config (IYO full_config)); [done|done|]. by right.
Defined.
