(* ===== verification/Bootstrap.v ===== *)
(** * The server process ([server/api/grpc/server.go], [cmd/zstordb/commands/root.go])

    How a server is put together from a database, a verifier and the services,
    with the interceptors in front of them ([New], with [utils.go]), and how the
    program [zstordb] starts one: database, profiling, certificates and
    listener, until the server ends or is interrupted.  Files, certificates,
    listeners and the profiler are parameters. *)

From stdpp Require Import pretty.
From S2P Require Import Prelude GoStrings Jwt Encoding Keys DB ServerAPI ServerProps Flags.
Local Open Scope string_scope.
Local Open Scope list_scope.
Open Scope Z_scope.

(** ** Log levels ([utils.go]) *)
Inductive Level := DebugLevel | InfoLevel | WarnLevel | ErrorLevel.

Definition GRPCCodeToLogrusLevelMapping : gmap Z Level :=
  list_to_map [(0, DebugLevel); (1, DebugLevel); (3, DebugLevel); (5, DebugLevel); (6, DebugLevel); (16, InfoLevel); (7, InfoLevel);
               (4, WarnLevel); (8, WarnLevel); (9, WarnLevel); (10, WarnLevel)].

Definition CodeToLogrusLevel (code : Z) : Level :=
  match GRPCCodeToLogrusLevelMapping !! code with Some level => level | None => ErrorLevel end.

(** [grpc.Code(err)]: a status has its code, another error is [codes.Unknown]. *)
Definition grpc_Code {A} (r : outcome A) : Z :=
  match r with Ok _ => 0 | Err (ErrStatus code _) => code | _ => 2 end.

(** ** The server ([server.go]) *)
Definition DefaultMaxMsgsize : Z := 32.

(** [V] is the state of the verifier, if there is one. *)
Record ServerConfig := { MaxMsgSize : Z; JobCount : Z; Verifier : bool }.

(** An [int] has 64 bits. *)
Definition int64 (z : Z) : Z := if z mod 2 ^ 64 <? 2 ^ 63 then z mod 2 ^ 64 else z mod 2 ^ 64 - 2 ^ 64.

Definition sanitize (DefaultJobCount : Z) (cfg : ServerConfig) : ServerConfig :=
  let size := if MaxMsgSize cfg <=? 0 then DefaultMaxMsgsize else MaxMsgSize cfg in
  {| MaxMsgSize := int64 (size * (1024 * 1024)); JobCount := if JobCount cfg <=? 0 then DefaultJobCount else JobCount cfg; Verifier := Verifier cfg |}.

Section Server.
Context `{DB St} `{RateCounter RC} `{TokenVerifier V}.

(** The verifier, the database and the statistics, and the log of finished calls. *)
Local Abbreviation State := ((V * (St * gmap string (stat (RC := RC)))) * list (string * Z * Level))%type.
Definition handler := prog State response.
Definition interceptor := metadata -> string -> handler -> handler.

(** [unaryJWTAuthInterceptor] and [streamJWTAuthInterceptor] *)
Definition authInterceptor : interceptor := fun ctx fullMethod next '((v, s), l) =>
  match jwtAuthenticator ctx fullMethod v with
  | (Err e, v) => (Err e, ((v, s), l))
  | (Panic p, v) => (Panic p, ((v, s), l))
  | (Ok tt, v) => next ((v, s), l)
  end.

(** The statistics of a call, as a step on the state. *)
Definition count_call (ctx : metadata) (fullMethod : string) : prog State unit := fun '((v, (d, st)), l) =>
  let '(r, st) := statsLogger ctx fullMethod st in (r, ((v, (d, st)), l)).

(** [unaryStatsInterceptor] and [streamStatsInterceptor]: counting is left to a
    goroutine, which runs before the handler or after it. *)
Definition statsInterceptor (early : bool) : interceptor := fun ctx fullMethod next =>
  if early then do! _ := count_call ctx fullMethod in next
  else fun s =>
    let '(r, s) := next s in
    match count_call ctx fullMethod s with
    | (Panic p, s) => (Panic p, s)
    | (_, s) => (r, s)
    end.

(** The interceptor of [grpc_logrus]: one line for every call that returns. *)
Definition logInterceptor : interceptor := fun _ fullMethod next s =>
  match next s with
  | (Panic p, s) => (Panic p, s)
  | (r, (s, l)) => (r, (s, l ++ [(fullMethod, grpc_Code r, CodeToLogrusLevel (grpc_Code r))]))
  end.

(** [ChainUnaryServer] and [ChainStreamServer]: from left to right. *)
Definition Chain (interceptors : list interceptor) : interceptor := fun ctx fullMethod next =>
  foldr (fun current next => current ctx fullMethod next) next interceptors.

(** A call of the services that are registered. *)
Definition handle_call (ctx : metadata) (r : request) : handler := fun '((v, s), l) =>
  let '(x, s) := handle ctx r s in (x, ((v, s), l)).

Record Server := { maxMsgSize : Z; jobCount : Z; call : metadata -> request -> handler }.

(** [hasDB]: whether a database was given. *)
Definition New (DefaultJobCount : Z) (early hasDB : bool) (cfg : ServerConfig) : outcome Server :=
  if negb hasDB then Panic "no database given"
  else
    let cfg := sanitize DefaultJobCount cfg in
    let interceptors := [statsInterceptor early; logInterceptor] in
    let interceptors := if Verifier cfg then authInterceptor :: interceptors else interceptors in
    Ok {| maxMsgSize := MaxMsgSize cfg; jobCount := JobCount cfg;
          call ctx r := Chain interceptors ctx (FullMethod r) (handle_call ctx r) |}.
End Server.

Definition ErrServerStopped := ErrVar "grpc" "ErrServerStopped" "grpc: the server has been stopped".

Definition isClosedConnError (err : error) : bool :=
  bool_decide (err = ErrServerStopped) || Contains (error_text err) "closed".

Definition Serve (serve_err : option error) : outcome unit :=
  match serve_err with
  | Some err => if negb (isClosedConnError err) then Err err else Ok tt
  | None => Ok tt
  end.

(** The calls in progress are ended first; then the database is closed. *)
Definition Close `{DB St} (s : St) : outcome unit * St := DB.Close s.

(** ** What the interceptors do together *)
Section Chained.
Context `{DB St} `{RateCounter RC} `{TokenVerifier V}.
Local Abbreviation Served := (V * (St * gmap string (stat (RC := RC))))%type.

(** A handler that works on the database alone. *)
Lemma pmap_on_db {A B T} (f : A -> B) (p : prog St A) d (t : T) :
  pmap f (on_db p) (d, t) = (match (p d).1 with Ok a => Ok (f a) | Err e => Err e | Panic q => Panic q end, ((p d).2, t)).
Proof using. unfold pmap, pbind, on_db, pret. cbn [fst snd]. by destruct (p d) as [[a|e|q] d']. Qed.

(** The handlers of the object service do not look at the statistics. *)
Lemma handle_db ctx r (d : St) (st st' : gmap string (stat (RC := RC))) :
  (handle ctx r (d, st)).2.1 = (handle ctx r (d, st')).2.1 /\
  (r <> ReqNamespace -> (handle ctx r (d, st)).1 = (handle ctx r (d, st')).1 /\ (handle ctx r (d, st)).2.2 = st).
Proof using.
  destruct r; cbn [handle]; rewrite ?pmap_on_db; [done..|]. split; [|done].
  assert (Hdb : forall st : gmap string (stat (RC := RC)), (pmap RespNamespace (GetNamespace ctx) (d, st)).2.1 = d).
  { clear. intros st. unfold pmap, GetNamespace, request_label, pbind, on_err, plift, pread, pret. cbn [fst snd].
    destruct (extractStringFromContext ctx MetaLabelKey) as [label|e|p]; cbn [fst snd]; [|done..].
    destruct (CountKeys (Some (str_bytes label)) d) as [n|e|p]; cbn; [|done..]. destruct (Rate label st) as [[rd wr] st2]. done. }
  by rewrite !Hdb.
Qed.

(** Every request of the services is counted. *)
Lemma counted ctx r (v : V) (d : St) (st : gmap string (stat (RC := RC))) l :
  exists st', count_call ctx (FullMethod r) ((v, (d, st)), l) = (Ok tt, ((v, (d, st')), l)) /\ statsLogger ctx (FullMethod r) st = (Ok tt, st').
Proof using. destruct r; eexists; split; reflexivity. Qed.

(** What an authenticated call does, whenever it is counted: the handler's work
    on the database, one count and one line of the log. *)
Lemma chain_spec early ctx r (v : V) d (st : gmap string (stat (RC := RC))) l x s' :
  Chain [statsInterceptor early; logInterceptor] ctx (FullMethod r) (handle_call ctx r) ((v, (d, st)), l) = (x, s') ->
  (forall p, x <> Panic p) ->
  exists st', s' = ((v, ((handle ctx r (d, st)).2.1, st')), l ++ [(FullMethod r, grpc_Code x, CodeToLogrusLevel (grpc_Code x))]) /\
    (r <> ReqNamespace -> x = (handle ctx r (d, st)).1 /\ statsLogger ctx (FullMethod r) st = (Ok tt, st')).
Proof using.
  unfold Chain. cbn [foldr]. unfold statsInterceptor. intros E Hx. destruct early.
  - unfold pbind in E. destruct (counted ctx r v d st l) as (st1 & Hc & Hst). rewrite Hc in E.
    destruct (handle_db ctx r d st1 st) as [Hd Hr]. unfold logInterceptor, handle_call in E.
    destruct (handle ctx r (d, st1)) as [y [d1 st2]]. cbn [fst snd] in *. subst d1.
    destruct y as [y|e|p]; [| |by injection E as <- _; destruct (Hx p)].
    all: injection E as <- <-; exists st2; split; [done|]; intros Hne; destruct (Hr Hne) as [<- ->]; done.
  - unfold logInterceptor, handle_call in E. destruct (handle_db ctx r d st st) as [_ Hr].
    destruct (handle ctx r (d, st)) as [y [d1 st2]]. cbn [fst snd] in *. 
    destruct y as [y|e|p].
    3: destruct (counted ctx r v d1 st2 l) as (st3 & Hc & _); rewrite Hc in E; injection E as <- _; by destruct (Hx p).
    all: match type of E with context [count_call _ _ (_, ?l')] => destruct (counted ctx r v d1 st2 l') as (st3 & Hc & Hst) end.
    all: rewrite Hc in E; injection E as <- <-; exists st3; split; [done|]; intros Hne; destruct (Hr Hne) as [_ ->]; done.
Qed.

(** C29. A server that is made as [New] makes it.  With a verifier, a request that
    does not pass it is answered with the verifier's error and touches neither
    the database nor the statistics nor the log; a request that passes, or any
    request when there is no verifier, does to the database exactly what its
    handler does, whether it is counted before or after, and leaves one line
    with its status in the log; requests of the object service also get exactly
    the handler's answer and are counted once in their namespace.  The message
    limit is the given number of MiB, or 32, and there is a positive number of jobs. *)
Theorem server_as_made (DefaultJobCount : Z) (early : bool) (cfg : ServerConfig) (srv : Server (V := V) (St := St) (RC := RC))
    (ctx : metadata) (r : request) (v : V) (d : St) (st : gmap string (stat (RC := RC))) (l : list (string * Z * Level)) x s' :
  New DefaultJobCount early true cfg = Ok srv -> 0 < DefaultJobCount -> MaxMsgSize cfg < 2 ^ 43 ->
  call srv ctx r ((v, (d, st)), l) = (x, s') -> (forall p, x <> Panic p) ->
  maxMsgSize srv = (if MaxMsgSize cfg <=? 0 then 32 else MaxMsgSize cfg) * 2 ^ 20 /\ 0 < maxMsgSize srv < 2 ^ 63 /\ 0 < jobCount srv /\
  let '(a, v1) := if Verifier cfg then jwtAuthenticator ctx (FullMethod r) v else (Ok tt, v) in
  match a with
  | Ok _ => exists st', s' = ((v1, ((handle ctx r (d, st)).2.1, st')), l ++ [(FullMethod r, grpc_Code x, CodeToLogrusLevel (grpc_Code x))]) /\
      (r <> ReqNamespace -> x = (handle ctx r (d, st)).1 /\ statsLogger ctx (FullMethod r) st = (Ok tt, st'))
  | Err e => x = Err e /\ s' = ((v1, (d, st)), l)
  | Panic p => False
  end.
Proof using.
  intros [= <-] Hj Hm Hcall Hx. cbn [maxMsgSize jobCount call sanitize MaxMsgSize JobCount Verifier] in *. split_and!.
  1-3: unfold int64, DefaultMaxMsgsize; destruct (Z.leb_spec (MaxMsgSize cfg) 0); rewrite ?Z.mod_small by lia;
    match goal with |- context [if ?b then _ else _] => destruct b eqn:Hb end; rewrite ?Z.ltb_lt, ?Z.ltb_ge in *; lia.
  - destruct (Z.leb_spec (JobCount cfg) 0); lia.
  - destruct (Verifier cfg); [|by eapply chain_spec]. 
    cbn [Chain foldr] in Hcall. unfold authInterceptor in Hcall. destruct (jwtAuthenticator ctx (FullMethod r) v) as [[[]|e|p] v1].
    + by eapply chain_spec.
    + by injection Hcall as <- <-.
    + injection Hcall as <- _. by destruct (Hx p).
Qed.
End Chained.

(** ** The program [zstordb] ([cmd/zstordb/commands/root.go]) *)
Module Root.
Record TLSFlags := { CertFile : string; KeyFile : string; KeyPassphrase : string; MinVersion : Z; MaxVersion : Z; CertLiveReload : bool }.

Record rootCfg := {
  ListenAddress : ListenAddress.ListenAddress; ProfileAddress : string; ProfileMode : Z; ProfileOutput : string; AuthDisabled : bool; MaxMsgSize : Z; SyncWrite : bool;
  JobCount : Z; MetaDir : string; DataDir : string; TLS : TLSFlags;
}.

(** The command's hook only sets the log level; this is what it is set to. *)
Definition log_level (DebugLog : bool) : Level := if DebugLog then DebugLevel else InfoLevel.

Section Program.
(** Certificates: reading files, PEM blocks [B], private keys [K] and pairs [Cert]. *)
Context {B K Cert : Type} (ReadFile : string -> outcome bytes) (pem_Decode : bytes -> option B) (IsEncryptedPEMBlock : B -> bool)
  (DecryptPEMBlock : B -> bytes -> outcome bytes) (ParsePKCS1PrivateKey : bytes -> outcome K) (MarshalPKCS1PrivateKey : K -> bytes)
  (pem_EncodeToMemory : B -> bytes) (rsa_block : bytes -> B) (X509KeyPair : bytes -> bytes -> outcome Cert).

Definition parseCertificate (flags : TLSFlags) : outcome Cert :=
  let! keyFile := ReadFile (KeyFile flags) in
  let! certKey :=
    match pem_Decode keyFile with
    | Some block =>
        if IsEncryptedPEMBlock block then
          let! decryptKey := DecryptPEMBlock block (str_bytes (KeyPassphrase flags)) in
          let! privKey := ParsePKCS1PrivateKey decryptKey in
          Ok (pem_EncodeToMemory (rsa_block (MarshalPKCS1PrivateKey privKey)))
        else Ok (pem_EncodeToMemory block)
    | None => Err (ErrNew "Invalid Cert Key")
    end in
  let! certFile := ReadFile (CertFile flags) in
  X509KeyPair certFile certKey.

(** [tlsCertificateGetter]: a pair and an error, of which the error counts. *)
Record tlsCertificateGetter := { cert : option Cert; err : option error }.

(** What [parseCertificate] returns is stored as it is; with an error, the pair is
    the zero value. *)
Definition store (r : outcome Cert) : tlsCertificateGetter :=
  match r with
  | Ok c => {| cert := Some c; err := None |}
  | Err e => {| cert := None; err := Some e |}
  | Panic p => {| cert := None; err := Some (ErrNew p) |}
  end.

Definition newTLSCertificateGetter (flags : TLSFlags) : outcome tlsCertificateGetter :=
  let! c := parseCertificate flags in Ok {| cert := Some c; err := None |}.

Definition GetCertificate (g : tlsCertificateGetter) : outcome (option Cert) :=
  match err g with Some e => Err e | None => Ok (cert g) end.

(** What happens to a getter: a signal to reload, with what the files then give,
    or a handshake. *)
Inductive event := SIGHUP (r : outcome Cert) | Handshake.

(** [background], with the answers of the handshakes. *)
Fixpoint background (g : tlsCertificateGetter) (evs : list event) : list (outcome (option Cert)) :=
  match evs with
  | [] => []
  | SIGHUP r :: evs' => background (store r) evs'
  | Handshake :: evs' => GetCertificate g :: background g evs'
  end.

(** The handshakes of a listener get the pair that was read last. *)
Fixpoint answers (r : outcome Cert) (evs : list event) : list (outcome (option Cert)) :=
  match evs with
  | [] => []
  | SIGHUP r' :: evs' => answers r' evs'
  | Handshake :: evs' => (match r with Ok c => Ok (Some c) | Err e => Err e | Panic p => Err (ErrNew p) end) :: answers r evs'
  end.

Lemma background_answers r evs : background (store r) evs = answers r evs.
Proof. revert r; induction evs as [|[r'|] evs IH]; intros r; cbn; [done|apply IH|]. rewrite IH. by destruct r. Qed.

(** What a listener is given: a fixed pair, or a getter. *)
Inductive certificates := Certificates (c : Cert) | GetCertificateOf (g : tlsCertificateGetter).

(** Databases [D] and listeners [L], the profiler, and what [jwt.DefaultVerifier]
    stands for is the flag of the configuration. *)
Context {D L : Type} (NewWithOpts : string -> string -> bool -> outcome D) (CloseDB : D -> outcome unit).
Context (Stat : string -> outcome bool) (IsNotExist : error -> bool) (MkdirAll : string -> Z -> outcome unit).
Context (Listen : string -> string -> outcome L) (TLSListen : string -> string -> Z -> Z -> certificates -> outcome L).

Definition serverConfig (cfg : rootCfg) : ServerConfig :=
  {| Bootstrap.MaxMsgSize := MaxMsgSize cfg; Bootstrap.JobCount := JobCount cfg; Verifier := negb (AuthDisabled cfg) |}.

(** The directory of the profiles.  [Stat] gives whether the path is a
    directory; after an error there is no file information, and asking it is a
    call of a method of nil. *)
Definition profiling (cfg : rootCfg) : outcome unit :=
  let! mode := Flags.ProfileMode.String_ (ProfileMode cfg) in
  if negb (bool_decide (mode = "")) then
    match Stat (ProfileOutput cfg) with
    | Ok isDir => if negb isDir then Err (ErrNew ("profile-output (" +:+ ProfileOutput cfg +:+ ") is not a directory")) else Ok tt
    | Err e =>
        if negb (IsNotExist e) then Err e
        else match MkdirAll (ProfileOutput cfg) 432 with
             | Err e => Err (ErrNew ("fail to create profile output directory: " +:+ error_text e))
             | Panic p => Panic p
             | Ok _ => Panic "invalid memory address or nil pointer dereference"
             end
    | Panic p => Panic p
    end
  else Ok tt.

(** A listener, with TLS when a file of a certificate or a key is given. *)
Definition listen (cfg : rootCfg) : outcome L :=
  let proto := ListenAddress.NetworkProtocol (ListenAddress cfg) in
  let addr := ListenAddress.String_ (ListenAddress cfg) in
  if bool_decide (CertFile (TLS cfg) = "") && bool_decide (KeyFile (TLS cfg) = "") then Listen proto addr
  else
    let! min := Flags.TLSVersion.VersionTLS (MinVersion (TLS cfg)) in
    let! max := Flags.TLSVersion.VersionTLS (MaxVersion (TLS cfg)) in
    let! certs :=
      if CertLiveReload (TLS cfg) then let! getter := newTLSCertificateGetter (TLS cfg) in Ok (GetCertificateOf getter)
      else let! c := parseCertificate (TLS cfg) in Ok (Certificates c) in
    TLSListen proto addr min max certs.

Inductive ending := ServeReturned (e : option error) | Interrupted.

(** When the profiling service, an HTTP server on an address of its own that is
    started before, ends the program: [ListenAndServe] returns only with an error. *)
Inductive moment := BeforeListening | WhileServing.

Definition profiler_failure (cfg : rootCfg) (profiler : option (moment * error)) : option (moment * string) :=
  if bool_decide (ProfileAddress cfg = "") then None
  else (fun x => (x.1, "Failed to enable profiling on " +:+ ProfileAddress cfg +:+ ", err:" +:+ error_text x.2)) <$> profiler.

(** The result of the command, the database that it leaves open, and what was
    served; [profiler] is what ends the profiling service, if something does. *)
Definition rootFunc (cfg : rootCfg) (profiler : option (moment * error)) (e : ending) : outcome unit * option D * option (ServerConfig * L) :=
  match NewWithOpts (MetaDir cfg) (DataDir cfg) (SyncWrite cfg) with
  | Err err => (Err err, None, None)
  | Panic p => (Panic p, None, None)
  | Ok db =>
      match profiler_failure cfg profiler with
      | Some (BeforeListening, p) => (Panic p, Some db, None)
      | failure =>
          match profiling cfg with
          | Err err => (Err err, Some db, None)
          | Panic p => (Panic p, Some db, None)
          | Ok _ =>
              match listen cfg with
              | Err err => (Err err, Some db, None)
              | Panic p => (Panic p, Some db, None)
              | Ok listener =>
                  let served := Some (serverConfig cfg, listener) in
                  match failure, e with
                  | Some (_, p), _ => (Panic p, Some db, served)
                  | None, ServeReturned err => (Serve err, Some db, served)
                  | None, Interrupted => (CloseDB db, None, served)
                  end
              end
          end
      end
  end.

(** Profiling into a directory that does not exist yet creates it and panics. *)
Lemma missing_profile_output cfg e db err :
  NewWithOpts (MetaDir cfg) (DataDir cfg) (SyncWrite cfg) = Ok db -> 1 <= ProfileMode cfg <= 4 ->
  Stat (ProfileOutput cfg) = Err err -> IsNotExist err = true -> MkdirAll (ProfileOutput cfg) 432 = Ok tt ->
  rootFunc cfg None e = (Panic "invalid memory address or nil pointer dereference", Some db, None).
Proof.
  intros Hdb Hp Hs He Hm. unfold rootFunc, profiling, profiler_failure. rewrite Hdb.
  assert ((if bool_decide (ProfileAddress cfg = "") then None else (fun x : moment * error => (x.1, "Failed to enable profiling on " +:+
    ProfileAddress cfg +:+ ", err:" +:+ error_text x.2)) <$> None) = None) as -> by (by case_bool_decide).
  assert (Hmode : exists a s, Flags.ProfileMode.String_ (ProfileMode cfg) = Ok (String a s)).
  { assert (ProfileMode cfg = 1 \/ ProfileMode cfg = 2 \/ ProfileMode cfg = 3 \/ ProfileMode cfg = 4) as [-> | [-> | [-> | ->]]] by lia; by repeat eexists. }
  destruct Hmode as (a & s & ->). cbn [obind]. rewrite bool_decide_eq_false_2 by done. cbn [negb]. rewrite Hs, He, Hm. done.
Qed.

(** The listener of a server that is served. *)
Lemma listen_Ok cfg l :
  listen cfg = Ok l ->
  let proto := ListenAddress.NetworkProtocol (ListenAddress cfg) in
  let addr := ListenAddress.String_ (ListenAddress cfg) in
  CertFile (TLS cfg) = "" /\ KeyFile (TLS cfg) = "" /\ Listen proto addr = Ok l \/
  exists min max c, parseCertificate (TLS cfg) = Ok c /\ Flags.TLSVersion.VersionTLS (MinVersion (TLS cfg)) = Ok min /\
    Flags.TLSVersion.VersionTLS (MaxVersion (TLS cfg)) = Ok max /\
    TLSListen proto addr min max (if CertLiveReload (TLS cfg) then GetCertificateOf (store (Ok c)) else Certificates c) = Ok l.
Proof.
  unfold listen. cbv zeta. destruct (bool_decide (CertFile _ = _) && _) eqn:E.
  - intros Hl. left. apply andb_true_iff in E as [E1%bool_decide_eq_true E2%bool_decide_eq_true]. done.
  - intros (min & Hmin & (max & Hmax & (certs & Hcerts & Hl)%obind_Ok_inv)%obind_Ok_inv)%obind_Ok_inv. right. exists min, max.
    unfold newTLSCertificateGetter in Hcerts. destruct (CertLiveReload (TLS cfg)).
    + apply obind_Ok_inv in Hcerts as (g & (c & Hc & [= <-])%obind_Ok_inv & [= <-]). by exists c.
    + apply obind_Ok_inv in Hcerts as (c & Hc & [= <-]). by exists c.
Qed.

(** C30. What [zstordb] serves.  When the command serves at all, the database was
    opened in the given directories, requests are authenticated unless that was
    switched off, and the listener is the given address: without TLS only when
    neither a certificate nor a key was given, and else with the given versions
    and a pair that could be read from the files.  With live reload every
    handshake is answered from the latest reading of the files, an unusable one
    included.  An interrupt closes the database, and its error is the result;
    when serving ends by itself the end of the listener is no error, and the
    database stays open.  A profiling service that fails, which there is only
    with an address for it, ends the program by a panic that leaves the database open. *)
Theorem zstordb_serves (cfg : rootCfg) (profiler : option (moment * error)) (e : ending) (res : outcome unit) (rest : option D) (sc : ServerConfig) (l : L) :
  rootFunc cfg profiler e = (res, rest, Some (sc, l)) ->
  sc = serverConfig cfg /\ (Verifier sc = true <-> AuthDisabled cfg = false) /\
  (exists db, NewWithOpts (MetaDir cfg) (DataDir cfg) (SyncWrite cfg) = Ok db /\
     match profiler_failure cfg profiler, e with
     | Some (m, p), _ => ProfileAddress cfg <> "" /\ m = WhileServing /\ res = Panic p /\ rest = Some db
     | None, Interrupted => res = CloseDB db /\ rest = None
     | None, ServeReturned err => res = Serve err /\ rest = Some db /\ forall err', err = Some err' -> isClosedConnError err' = true -> res = Ok tt
     end) /\
  (let proto := ListenAddress.NetworkProtocol (ListenAddress cfg) in
   let addr := ListenAddress.String_ (ListenAddress cfg) in
   CertFile (TLS cfg) = "" /\ KeyFile (TLS cfg) = "" /\ Listen proto addr = Ok l \/
   exists min max c, parseCertificate (TLS cfg) = Ok c /\ Flags.TLSVersion.VersionTLS (MinVersion (TLS cfg)) = Ok min /\
     Flags.TLSVersion.VersionTLS (MaxVersion (TLS cfg)) = Ok max /\
     TLSListen proto addr min max (if CertLiveReload (TLS cfg) then GetCertificateOf (store (Ok c)) else Certificates c) = Ok l /\
     forall evs, background (store (Ok c)) evs = answers (Ok c) evs).
Proof.
  unfold rootFunc. destruct (NewWithOpts _ _ _) as [db|err0|p]; [|done..].
  assert (Haddr : profiler_failure cfg profiler <> None -> ProfileAddress cfg <> "") by (unfold profiler_failure; by case_bool_decide).
  destruct (profiler_failure cfg profiler) as [[[] p]|]; [done|..];
  (destruct (profiling cfg) as [[]|err0|p']; [|done..]; destruct (listen cfg) as [l'|err0|p'] eqn:Hl; [|done..]; intros Hr);
  assert (sc = serverConfig cfg /\ l' = l) as [-> ->] by (by destruct e; injection Hr);
  (split; [done|]); (split; [by cbn; destruct (AuthDisabled cfg)|]); (split; [exists db; split; [done|]|]);
  try (apply listen_Ok in Hl as [Hl|(min & max & c & Hc & Hmin & Hmax & Hl)]; [by left|]; right; exists min, max, c;
    split_and!; try done; intros evs; apply background_answers).
  - destruct e; injection Hr as <- <-; split_and!; try done; by apply Haddr.
  - destruct e as [err0|]; injection Hr as <- <-; [|done]. split_and!; [done|done|].
    intros err' -> Hc. unfold Serve. by rewrite Hc.
Qed.
End Program.
End Root.

(** ** A server over the in-memory database *)
#[local] Existing Instance Memory.default_DB.

Definition demo_server : outcome (Server (V := unit) (St := Memory.MemDB) (RC := Z)) :=
  New 8 true true {| MaxMsgSize := 0; JobCount := 0; Verifier := true |}.

Lemma server_as_made_witness :
  exists srv st', demo_server = Ok srv /\ maxMsgSize srv = 33554432 /\
    (call srv ctx_ns (ReqCreate (str_bytes "x")) ((tt, (Memory.New, ∅)), [])).2.2 = [("/ObjectManager/CreateObject", 0, DebugLevel)] /\
    statsLogger ctx_ns "/ObjectManager/CreateObject" (∅ : gmap string (stat (RC := Z))) = (Ok tt, st').
Proof.
  set (srv := match demo_server with Ok s => s | _ => {| maxMsgSize := 0; jobCount := 0; call _ _ := pret RespDeleted |} end).
  assert (E : demo_server = Ok srv) by reflexivity.
  destruct (call srv ctx_ns (ReqCreate (str_bytes "x")) ((tt, (Memory.New, ∅)), [])) as [x s'] eqn:Hcall.
  destruct (server_as_made (V := unit) (St := Memory.MemDB) (RC := Z) 8 true {| MaxMsgSize := 0; JobCount := 0; Verifier := true |} srv ctx_ns (ReqCreate (str_bytes "x")) tt Memory.New ∅ [] x s' E
    ltac:(lia) ltac:(cbn; lia) Hcall) as (Hsize & _ & _ & Hres).
  - assert (match (call srv ctx_ns (ReqCreate (str_bytes "x")) ((tt, (Memory.New, ∅)), [])).1 with Panic _ => false | _ => true end = true) as Hp by (vm_compute; reflexivity).
    rewrite Hcall in Hp. intros p ->. discriminate Hp.
  - assert (Hx : grpc_Code x = 0) by (change x with (x, s').1; rewrite <- Hcall; vm_compute; reflexivity).
    cbn -[grpc_Code CodeToLogrusLevel] in Hres. destruct Hres as (st' & -> & Hreq). exists srv, st'. split_and!; [done|exact Hsize| |].
    + rewrite Hcall. cbn [snd app]. rewrite Hx. reflexivity.
    + by apply Hreq.
Defined.

(** A listener that is given by its address. *)
Definition demo_root : Root.rootCfg :=
  {| Root.ListenAddress := ListenAddress.zero; Root.ProfileAddress := ""; Root.ProfileMode := 0; Root.ProfileOutput := "."; Root.AuthDisabled := false; Root.MaxMsgSize := 32;
     Root.SyncWrite := false; Root.JobCount := 0; Root.MetaDir := ".db/meta"; Root.DataDir := ".db/data";
     Root.TLS := {| Root.CertFile := "cert.pem"; Root.KeyFile := "key.pem"; Root.KeyPassphrase := ""; Root.MinVersion := 1; Root.MaxVersion := 0;
                    Root.CertLiveReload := true |} |}.

Lemma zstordb_serves_witness :
  exists min max c, Flags.TLSVersion.VersionTLS 1 = Ok min /\ Flags.TLSVersion.VersionTLS 0 = Ok max /\
    Root.background (Root.store (Ok c)) [Root.SIGHUP (Err (ErrNew "gone")); Root.Handshake; Root.SIGHUP (Ok tt); Root.Handshake]
      = [Err (ErrNew "gone"); Ok (Some tt)].
Proof.
  destruct (Root.zstordb_serves (Cert := unit) (fun _ => Ok []) (fun _ => Some tt) (fun _ => false) (fun _ _ => Ok []) (fun _ => Ok tt) (fun _ => [])
    (fun _ => []) (fun _ => tt) (fun _ _ => Ok tt) (fun _ _ _ => Ok tt) (fun _ => Ok tt) (fun _ => Ok true) (fun _ => false) (fun _ _ => Ok tt)
    (fun _ addr => Ok addr) (fun _ addr _ _ _ => Ok addr) demo_root None Root.Interrupted (Ok tt) None (Root.serverConfig demo_root) ":8080" ltac:(vm_compute; reflexivity))
    as (_ & _ & _ & [(Hno & _)|(min & max & c & _ & Hmin & Hmax & _ & Hevs)]); [discriminate Hno|].
  exists min, max, c. split; [exact Hmin|]. split; [exact Hmax|]. rewrite Hevs. reflexivity.
Defined.
