(* ===== verification/Bench.v ===== *)
(** * The benchmark tool
      ([benchmark/config], [benchmark/bencher], [cmd/zstorbench])

    [BenchConfig] models the configuration of a benchmark, [Bencher] one client
    that reads or writes in a loop until a number of operations or a time is
    reached, and [BenchRoot] the command that runs several of them for every
    scenario.  What the clock does is an argument: which case every [select] of
    the loop takes, and, for the clients that run concurrently, whose turn it is.
    Random data, the YAML package and the profiler are parameters. *)

From stdpp Require Import pretty.
From S2P Require Import Prelude Unicode Encoding GoStrings Jwt ServerAPI Datastor Cluster Spread Replicated Distributed Pipeline.
From S2P Require Import MetaProto MetaProtoProps Metastor MetaMem MetaEtcd ZClient Processing PipelineConfig TokenGetter Iyo Construct Flags Daemon DaemonProps.
Import AsyncSplitter.
Open Scope Z_scope.

(** ** [config.go] *)
Module BenchConfig.

(** [BencherMethod] is a [uint8]. *)
Definition BencherRead : Z := 0.
Definition BencherWrite : Z := 1.

Definition BencherMethodStrings : string := "readwrite".
Definition read_text : string := String.substring 0 4 BencherMethodStrings.
Definition write_text : string := String.substring 4 (String.length BencherMethodStrings - 4) BencherMethodStrings.

(** The two maps; a value that is not in the first gives the empty text. *)
Definition String_ (bm : Z) : string :=
  if bm =? BencherRead then read_text else if bm =? BencherWrite then write_text else EmptyString.

Definition MarshalText (bm : Z) : outcome bytes :=
  let str := String_ bm in
  if bool_decide (str = EmptyString) then Err (ErrNew ("'" +:+ str +:+ "' is not a valid BencherMethod value"))
  else Ok (str_bytes str).

(** The new value, which is zero after an error. *)
Definition UnmarshalText (text : string) : Z * option error :=
  let str := ToLower text in
  if bool_decide (str = read_text) then (BencherRead, None)
  else if bool_decide (str = write_text) then (BencherWrite, None)
  else (0, Some (ErrNew ("'" +:+ text +:+ "' is not a valid BencherMethod string"))).

Record BenchmarkConfig := {
  Method : Z; Output : string; Duration : Z; Operations : Z; Clients : Z; KeySize : Z; ValueSize : Z;
}.

Record Scenario := { ZstorConf : Construct.Config; BenchConf : BenchmarkConfig }.

Definition validate_benchmark (bc : BenchmarkConfig) : outcome unit :=
  if (Duration bc <=? 0) && (Operations bc <=? 0) then Err (ErrNew "no duration or operations was provided") else Ok tt.

Definition validate_scenario (sc : Scenario) : outcome unit := validate_benchmark (BenchConf sc).

(** The scenarios in the order in which the range over the map visits them. *)
Fixpoint validate_all (scenarios : list (string * Scenario)) : outcome unit :=
  match scenarios with
  | [] => Ok tt
  | (_, sc) :: rest => let! _ := validate_scenario sc in validate_all rest
  end.

(** [yaml.Unmarshal] and [validator.Validate] are of other packages. *)
Definition UnmarshalYAML (Unmarshal : bytes -> outcome (gmap string Scenario)) (Validate : gmap string Scenario -> outcome unit)
    (visited : gmap string Scenario -> list (string * Scenario)) (b : bytes) : outcome (gmap string Scenario) :=
  let! clientConf := Unmarshal b in
  let! _ := Validate clientConf in
  let! _ := validate_all (visited clientConf) in
  Ok clientConf.

(** The digits that [rand.Intn(10)] gives. *)
Definition randomSuffix (Intn : nat -> Z) (n : nat) : string :=
  foldr (fun i s => String (Ascii.ascii_of_nat (Z.to_nat (48 + Intn i))) s) EmptyString (seq 0 n).

Definition SetupClientConfig (Intn : nat -> Z) (c : Construct.Config) : Construct.Config :=
  if bool_decide (Namespace c = EmptyString)
  then {| IYO := IYO c; Namespace := "b-" +:+ randomSuffix Intn 4; DataStor := DataStor c; MetaStor := MetaStor c |}
  else c.

(** The texts of the methods are read back, in any case of the letters. *)
Lemma method_text_roundtrip bm text :
  (bm = BencherRead \/ bm = BencherWrite -> MarshalText bm = Ok (str_bytes (String_ bm)) /\
     (ToLower text = String_ bm -> UnmarshalText text = (bm, None))) /\
  (UnmarshalText text = (bm, None) -> (bm = BencherRead \/ bm = BencherWrite) /\ String_ bm = ToLower text).
Proof.
  split.
  - intros [->| ->]; (split; [reflexivity|]); unfold UnmarshalText; intros ->; vm_compute; reflexivity.
  - unfold UnmarshalText. case_bool_decide as E; [intros [= <-]; by split; [left|]|].
    case_bool_decide as E2; [intros [= <-]; by split; [right|]|done].
Qed.

(** A configuration that is accepted has, in every scenario, a duration or a
    number of operations. *)
Lemma validated_scenarios scenarios id sc :
  validate_all scenarios = Ok tt -> (id, sc) ∈ scenarios -> 0 < Duration (BenchConf sc) \/ 0 < Operations (BenchConf sc).
Proof.
  induction scenarios as [|[id' sc'] rest IH]; [intros _ Hin; by apply not_elem_of_nil in Hin|].
  cbn. intros ([] & Hv & Hrest)%obind_Ok_inv [[= <- <-]|Hin]%elem_of_cons; [|auto].
  unfold validate_scenario, validate_benchmark in Hv. destruct (Z.leb_spec (Duration (BenchConf sc)) 0); [|lia].
  destruct (Z.leb_spec (Operations (BenchConf sc)) 0); [done|lia].
Qed.
End BenchConfig.

(** ** [bencher.go] *)
Module Bencher.
Import BenchConfig.

Definition defaultKeyCount : Z := 1000.
Definition second : Z := 10 ^ 9.

(** [_ResultOptions]; zero for a name that is not in the map. *)
Definition ResultOptions (output : string) : Z :=
  if bool_decide (output = "per_second") then second
  else if bool_decide (output = "per_minute") then 60 * second
  else if bool_decide (output = "per_hour") then 3600 * second
  else 0.

Record Result := { Count : Z; Elapsed : Z; PerInterval : list Z }.

(** [Duration.MarshalYAML]: whole seconds and nanoseconds. *)
Definition MarshalYAML (d : Z) : Z * Z := (Z.quot d second, Z.rem d second).

(** [make] panics for a negative length; [fill] is what [rand.Read] gives. *)
Definition generateData (fill : nat -> bytes) (len : Z) : outcome bytes :=
  if len <? 0 then Panic "makeslice: len out of range" else Ok (fill (Z.to_nat len)).

Fixpoint generateKeys (fill : nat -> nat -> bytes) (size : Z) (from n : nat) : outcome (list bytes) :=
  match n with
  | O => Ok []
  | S n' => let! key := generateData (fill from) size in let! keys := generateKeys fill size (S from) n' in Ok (key :: keys)
  end.

Section Bencher.
Context `{DataPipeline D} `{MetaDB M} (c : MarshalFuncPair).
Local Abbreviation St := (D * M)%type.

(** The time of [EpochNow], the size of the buffers that are read, the random
    data, and the connection of the client. *)
Context (clock : St -> Z) (n : nat) (fill : nat -> nat -> bytes) (Intn : nat -> Z) (newClientFromConfig : Construct.Config -> prog St unit).

Definition readFunc (k v : bytes) : prog St unit :=
  do! r := ZClient.Read c k (Some append) [] in
  match r.2 with None => pret tt | Some e => pfail e end.

Definition writeFunc (k v : bytes) : prog St unit := fun s =>
  (do! r := ZClient.Write c (clock s) k (Some (bytes_reader n (length v) v)) in
   match r.2 with None => pret tt | Some e => pfail e end) s.

Record Bencher := { b_scenario : Scenario; b_scenarioID : string; keys : list bytes; value : bytes; bencherFunc : bytes -> bytes -> prog St unit }.

(** The test data of a benchmark that reads. *)
Fixpoint write_all (keys : list bytes) (value : bytes) : prog St unit :=
  match keys with
  | [] => pret tt
  | key :: rest =>
      do! _ := on_err (fun e => ErrNew ("Failed to write test data for read benchmarker: " +:+ error_text e)) (writeFunc key value) in
      write_all rest value
  end.

(** The method of a benchmark. *)
Definition method (m : Z) : outcome (bytes -> bytes -> prog St unit) :=
  if m =? BencherRead then Ok readFunc
  else if m =? BencherWrite then Ok writeFunc
  else Err (ErrNew (pretty m +:+ " is an invalid/unsupported bencher method")).

Definition keyCount (bc : BenchmarkConfig) : nat := Z.to_nat (if Operations bc <=? 0 then defaultKeyCount else Operations bc).

(** The scenario is a pointer: the namespace that is chosen stays in it. *)
Definition NewBencher (scenarioID : string) : prog (Scenario * St) Bencher := fun '(scenario, s) =>
  let bc := BenchConf scenario in
  let generated :=
    let! f := method (Method bc) in
    let! keys := generateKeys fill (KeySize bc) 0 (keyCount bc) in
    let! value := generateData (fill (keyCount bc)) (ValueSize bc) in Ok (f, keys, value) in
  match generated with
  | Err e => (Err e, (scenario, s))
  | Panic p => (Panic p, (scenario, s))
  | Ok (f, keys, value) =>
      let scenario := {| ZstorConf := SetupClientConfig Intn (ZstorConf scenario); BenchConf := bc |} in
      let '(r, s) :=
        (do! _ := on_err (fun e => ErrNew ("Failed creating client: " +:+ error_text e)) (newClientFromConfig (ZstorConf scenario)) in
         do! _ := (if Method bc =? BencherRead then write_all keys value else pret tt) in
         pret {| b_scenario := scenario; b_scenarioID := scenarioID; keys := keys; value := value; bencherFunc := f |}) s in
      (r, (scenario, s))
  end.

(** *** The loop of [RunBenchmark] *)

(** The variables of the loop. *)
Record loop := { it : Z; counter : Z; intervalCounter : Z; perInterval : list Z }.
Definition start : loop := {| it := 0; counter := 0; intervalCounter := 0; perInterval := [] |}.

Definition maxIterations (bc : BenchmarkConfig) : Z := if Operations bc =? 0 then 2 ^ 63 - 1 else Operations bc.

(** [time.Tick] of zero is a nil channel, and so is the timeout without a duration. *)
Definition ticking (bc : BenchmarkConfig) : bool := 0 <? ResultOptions (Output bc).
Definition timed (bc : BenchmarkConfig) : bool := 0 <? Duration bc.

(** The case that a [select] takes; the default one may be taken when nothing has arrived. *)
Inductive choice := Timeout | Tick | Default.

(** A round of the loop goes on or ends it; [None]: no such case, since nothing
    comes from a nil channel. *)
Inductive round := Goes (l : loop) | Ends (l : loop) | Fails (r : error).

Definition current_key (b : Bencher) (i : Z) : outcome bytes :=
  match length (keys b) with
  | O => Panic "integer divide by zero"
  | keysLen => match keys b !! Z.to_nat (Z.rem i (Z.of_nat keysLen)) with Some key => Ok key | None => Panic "index out of range" end
  end.

Definition bench_round (b : Bencher) (ch : choice) (l : loop) : option (prog St round) :=
  let bc := BenchConf (b_scenario b) in
  let with_key k := fun s => match current_key b (it l) with Ok key => k key s | Err e => (Err e, s) | Panic p => (Panic p, s) end in
  match ch with
  | Timeout => if timed bc then Some (with_key (fun _ => pret (Ends l))) else None
  | Tick =>
      if ticking bc
      then Some (with_key (fun _ => pret (Goes {| it := it l; counter := counter l; intervalCounter := 0;
                                               perInterval := perInterval l ++ [intervalCounter l] |})))
      else None
  | Default => Some (with_key (fun key s =>
      match bencherFunc b key (value b) s with
      | (Ok _, s) => (Ok (Goes {| it := i64 (it l + 1); counter := i64 (counter l + 1); intervalCounter := i64 (intervalCounter l + 1);
                                  perInterval := perInterval l |}), s)
      | (Err e, s) => (Ok (Fails e), s)
      | (Panic p, s) => (Panic p, s)
      end))
  end.

(** What is returned after the loop. *)
Definition finished (b : Bencher) (elapsed : Z) (l : loop) : Result :=
  {| Count := counter l; Elapsed := elapsed;
     PerInterval := if ticking (BenchConf (b_scenario b)) then perInterval l ++ [intervalCounter l] else perInterval l |}.

(** The loop along the cases that the selects take; [None]: they are not enough,
    or not possible. *)
Fixpoint bench_loop (b : Bencher) (elapsed : Z) (cs : list choice) (l : loop) (s : St) : option (outcome Result * St) :=
  if negb (it l <? maxIterations (BenchConf (b_scenario b))) then Some (Ok (finished b elapsed l), s)
  else match cs with
  | [] => None
  | ch :: cs' =>
      match bench_round b ch l with
      | None => None
      | Some p =>
          match p s with
          | (Ok (Goes l'), s') => bench_loop b elapsed cs' l' s'
          | (Ok (Ends l'), s') => Some (Ok (finished b elapsed l'), s')
          | (Ok (Fails e), s') => Some (Err e, s')
          | (Err e, s') => Some (Err e, s')
          | (Panic q, s') => Some (Panic q, s')
          end
      end
  end.

Definition RunBenchmark (b : Bencher) (elapsed : Z) (cs : list choice) (s : St) : option (outcome Result * St) := bench_loop b elapsed cs start s.

(** *** What the loop counts *)
Local Abbreviation conf b := (BenchConf (b_scenario b)).

Definition total (l : list Z) : Z := foldr Z.add 0 l.

Lemma total_snoc l x : total (l ++ [x]) = total l + x.
Proof using. unfold total. induction l as [|y l IH]; cbn; [lia|]. rewrite IH. lia. Qed.

(** Every operation is counted once, also in its interval. *)
Record counts (bc : BenchmarkConfig) (l : loop) : Prop := {
  counts_it : counter l = it l; counts_bounds : 0 <= it l <= Z.max 0 (maxIterations bc);
  counts_interval : 0 <= intervalCounter l <= it l; counts_total : total (perInterval l) + intervalCounter l = it l;
  counts_no_tick : ticking bc = false -> perInterval l = [];
}.

Lemma counts_start bc : counts bc start.
Proof using. split; cbn; try done; lia. Qed.

Lemma bench_round_counts b ch l s p r s' :
  Operations (conf b) < 2 ^ 63 -> counts (conf b) l -> it l < maxIterations (conf b) -> bench_round b ch l = Some p -> p s = (Ok r, s') ->
  match r with
  | Goes l' => counts (conf b) l' /\ it l' = it l + (match ch with Default => 1 | _ => 0 end)
  | Ends l' => l' = l /\ timed (conf b) = true
  | Fails e => ch = Default /\ exists key, key ∈ keys b /\ bencherFunc b key (value b) s = (Err e, s')
  end.
Proof using.
  intros Hop [Hc Hb Hi Ht Hn] Hlt. unfold bench_round. cbv zeta.
  assert (Hmax : maxIterations (conf b) < 2 ^ 63) by (unfold maxIterations; destruct (Z.eqb_spec (Operations (conf b)) 0); lia).
  assert (H64 : forall x, 0 <= x <= it l -> i64 (x + 1) = x + 1) by (intros x Hx; apply i64_id; unfold is_i64; lia).
  destruct ch; [destruct (timed (conf b)); [|done]|destruct (ticking (conf b)) eqn:Htk; [|done]|].
  - intros [= <-]. destruct (current_key b (it l)); intros [= <- <-]. done.
  - intros [= <-]. destruct (current_key b (it l)); intros [= <- <-]. split; [|cbn; lia].
    split; cbn [it counter intervalCounter perInterval]; rewrite ?total_snoc; try done; [lia..|]. by rewrite Htk.
  - intros [= <-]. destruct (current_key b (it l)) as [key|e|q] eqn:Hk; [|done..].
    destruct (bencherFunc b key (value b) s) as [[[]|e|q] s1] eqn:Hf; intros [= <- <-].
    + cbn [it counter intervalCounter perInterval]. rewrite Hc, !H64 by lia. split; [|done].
      split; cbn [it counter intervalCounter perInterval]; try done; lia.
    + split; [done|]. exists key. split; [|done]. unfold current_key in Hk. destruct (length (keys b)); [done|].
      destruct (keys b !! _) as [key'|] eqn:Hl; [|done]. injection Hk as ->. by eapply list_elem_of_lookup_2.
Qed.

(** The end of a run: its counts, or an operation that failed. *)
Lemma bench_loop_counts b elapsed cs l s r s' :
  Operations (conf b) < 2 ^ 63 -> counts (conf b) l -> bench_loop b elapsed cs l s = Some (r, s') ->
  match r with
  | Ok res => exists l', counts (conf b) l' /\ res = finished b elapsed l' /\ (timed (conf b) = false -> maxIterations (conf b) <= it l')
  | Err e => exists key s1, key ∈ keys b /\ bencherFunc b key (value b) s1 = (Err e, s')
  | Panic _ => True
  end.
Proof using.
  intros Hop. revert l s; induction cs as [|ch cs IH]; intros l s Hl; cbn [bench_loop];
    (destruct (Z.ltb_spec (it l) (maxIterations (conf b))) as [Hlt|Hge]; cbn [negb];
     [|intros [= <- <-]; exists l; by split_and!]); [done|].
  destruct (bench_round b ch l) as [p|] eqn:Hr; [|done].
  destruct (p s) as [[[l'|l'|e]|e|q] s1] eqn:Hp; try (intros [= <- <-]).
  - destruct (bench_round_counts b ch l s p _ s1 Hop Hl Hlt Hr Hp) as [Hl' _]. by apply IH.
  - destruct (bench_round_counts b ch l s p _ s1 Hop Hl Hlt Hr Hp) as [-> Ht]. exists l. split_and!; [done|done|]. by rewrite Ht.
  - destruct (bench_round_counts b ch l s p _ s1 Hop Hl Hlt Hr Hp) as (_ & key & Hin & Hf). by eauto.
  - exfalso. revert Hr. unfold bench_round. cbv zeta.
    destruct ch; [destruct (timed _); [|done]|destruct (ticking _); [|done]|]; intros [= <-];
      (destruct (current_key b (it l)) as [key|e'|q] eqn:Hk; [|unfold current_key in Hk; repeat case_match; discriminate|]); try discriminate Hp.
    destruct (bencherFunc b key (value b) s) as [[[]|?|?] ?]; discriminate Hp.
  - done.
Qed.

(** Cases that the channels of a benchmark allow. *)
Definition possible (bc : BenchmarkConfig) (ch : choice) : Prop :=
  match ch with Timeout => timed bc = true | Tick => ticking bc = true | Default => True end.

Definition defaults (cs : list choice) : nat := length (List.filter (fun ch => match ch with Default => true | _ => false end) cs).

Lemma bench_loop_ends b elapsed cs l s :
  Operations (conf b) < 2 ^ 63 -> counts (conf b) l -> Forall (possible (conf b)) cs ->
  maxIterations (conf b) <= it l + Z.of_nat (defaults cs) -> exists r, bench_loop b elapsed cs l s = Some r.
Proof using.
  intros Hop. revert l s; induction cs as [|ch cs IH]; intros l s Hl Hpos Hn; cbn [bench_loop];
    (destruct (Z.ltb_spec (it l) (maxIterations (conf b))) as [Hlt|Hge]; cbn [negb]; [|by eexists]).
  { cbn in Hn. lia. }
  apply Forall_cons in Hpos as [Hch Hpos].
  assert (Hp : exists p, bench_round b ch l = Some p).
  { unfold bench_round. cbv zeta. destruct ch; cbn in Hch; rewrite ?Hch; by eexists. }
  destruct Hp as [p Hp]. rewrite Hp. destruct (p s) as [[[l'|l'|e]|e|q] s1] eqn:Hs; try by eexists.
  destruct (bench_round_counts b ch l s p _ s1 Hop Hl Hlt Hp Hs) as [Hl' Hit]. apply IH; [done|done|].
  unfold defaults in *. destruct ch; cbn [List.filter length] in Hn; lia.
Qed.

(** A result that counts every operation once. *)
Definition accounted (bc : BenchmarkConfig) (res : Result) : Prop :=
  0 <= Count res <= Z.max 0 (maxIterations bc) /\
  (timed bc = false -> Count res = Z.max 0 (maxIterations bc)) /\
  (if ticking bc then total (PerInterval res) = Count res else PerInterval res = []).

Lemma finished_accounted b elapsed l :
  counts (conf b) l -> (timed (conf b) = false -> maxIterations (conf b) <= it l) -> accounted (conf b) (finished b elapsed l).
Proof using.
  intros [Hc Hb Hi Ht Hn] Hfull. unfold accounted, finished. cbn [Count PerInterval]. rewrite Hc. split_and!; [lia..|lia| |].
  - intros Htm. specialize (Hfull Htm). lia.
  - destruct (ticking (conf b)); [rewrite total_snoc; lia|by apply Hn].
Qed.

(** *** The operations of a run *)

(** [k] operations on the keys in turn, from the one at [i] on, as long as they succeed. *)
Fixpoint operations (b : Bencher) (i : Z) (k : nat) (s : St) : option St :=
  match k with
  | O => Some s
  | S k' =>
      match current_key b i with
      | Ok key => match bencherFunc b key (value b) s with (Ok _, s') => operations b (i + 1) k' s' | _ => None end
      | _ => None
      end
  end.

(** The numbers of operations between the ticks, [n] of them before the first case. *)
Fixpoint tallies (cs : list choice) (n : Z) : list Z :=
  match cs with
  | [] => [n]
  | Tick :: cs => n :: tallies cs 0
  | Default :: cs => tallies cs (n + 1)
  | Timeout :: cs => tallies cs n
  end.

Lemma bench_round_operation b ch l s p r s' :
  Operations (conf b) < 2 ^ 63 -> counts (conf b) l -> it l < maxIterations (conf b) -> bench_round b ch l = Some p -> p s = (Ok r, s') ->
  match r with
  | Goes l' => counter l' = counter l + Z.of_nat (defaults [ch]) /\ operations b (it l) (defaults [ch]) s = Some s' /\
      it l' = it l + Z.of_nat (defaults [ch]) /\
      (forall cs, perInterval l' ++ tallies cs (intervalCounter l') = perInterval l ++ tallies (ch :: cs) (intervalCounter l)) /\ ch <> Timeout
  | Ends l' => l' = l /\ s' = s /\ ch = Timeout
  | Fails e => ch = Default /\ exists key, current_key b (it l) = Ok key /\ bencherFunc b key (value b) s = (Err e, s')
  end.
Proof using.
  intros Hop Hl Hlt Hr Hp. pose proof (bench_round_counts b ch l s p r s' Hop Hl Hlt Hr Hp) as Hc. revert Hr Hp Hc. unfold bench_round. cbv zeta.
  destruct ch; [destruct (timed (conf b)); [|done]|destruct (ticking (conf b)); [|done]|]; intros [= <-];
    (destruct (current_key b (it l)) as [key|e|q] eqn:Hk; [|done..]).
  - by intros [= <- <-].
  - intros [= <- <-] _. cbn. split_and!; [lia|done|lia| |done]. intros cs. by rewrite <- app_assoc.
  - destruct (bencherFunc b key (value b) s) as [[[]|e|q] s1] eqn:Hf; intros [= <- <-]; [|by eauto].
    intros [[Hc' _ _ _ _] Hit]. cbn [it counter intervalCounter perInterval] in *. destruct Hl as [Hc Hb Hi Ht _].
    assert (Hmax : maxIterations (conf b) < 2 ^ 63) by (unfold maxIterations; destruct (Z.eqb_spec (Operations (conf b)) 0); lia).
    assert (H64 : forall x, 0 <= x <= it l -> i64 (x + 1) = x + 1) by (intros x Hx; apply i64_id; unfold is_i64; lia).
    unfold defaults. cbn. rewrite Hk, Hf, !H64 by lia. split_and!; [lia|done|lia| |done]. done.
Qed.

Lemma defaults_cons ch cs : defaults (ch :: cs) = (defaults [ch] + defaults cs)%nat.
Proof using. by destruct ch. Qed.

Lemma operations_add b i k k' s s1 : operations b i k s = Some s1 -> operations b i (k + k') s = operations b (i + Z.of_nat k) k' s1.
Proof using.
  revert i s; induction k as [|k IH]; intros i s; cbn [operations Nat.add]; [intros [= ->]; by rewrite Z.add_0_r|].
  destruct (current_key b i) as [key|e|q]; [|done..]. destruct (bencherFunc b key (value b) s) as [[[]|e|q] s2]; [|done..].
  intros Hrest. rewrite (IH _ _ Hrest). f_equal. lia.
Qed.

(** The cases that a run has used: what it did and counted. *)
Lemma bench_loop_operations b elapsed cs l s r s' :
  Operations (conf b) < 2 ^ 63 -> counts (conf b) l -> bench_loop b elapsed cs l s = Some (r, s') ->
  match r with
  | Ok res => exists used rest, cs = used ++ rest /\ Count res = counter l + Z.of_nat (defaults used) /\
      operations b (it l) (defaults used) s = Some s' /\
      (ticking (conf b) = true -> PerInterval res = perInterval l ++ tallies used (intervalCounter l)) /\
      (it l + Z.of_nat (defaults used) < maxIterations (conf b) -> Timeout ∈ used)
  | Err e => exists k key s1, operations b (it l) k s = Some s1 /\ current_key b (it l + Z.of_nat k) = Ok key /\
      bencherFunc b key (value b) s1 = (Err e, s')
  | Panic _ => True
  end.
Proof using.
  intros Hop. revert l s; induction cs as [|ch cs IH]; intros l s Hl; cbn [bench_loop];
    (destruct (Z.ltb_spec (it l) (maxIterations (conf b))) as [Hlt|Hge]; cbn [negb];
     [|intros [= <- <-]; exists []; eexists; (split; [done|]); unfold defaults, finished; cbn; split_and!; [lia|done|by intros ->|lia]]); [done|].
  destruct (bench_round b ch l) as [p|] eqn:Hr; [|done].
  destruct (p s) as [[[l'|l'|e]|e|q] s1] eqn:Hp; [| | | |by intros [= <- <-]].
  - destruct (bench_round_counts b ch l s p _ s1 Hop Hl Hlt Hr Hp) as [Hl' _].
    destruct (bench_round_operation b ch l s p _ s1 Hop Hl Hlt Hr Hp) as (Hc & Ho & Hi & Ht & Hnt). intros Hrun.
    specialize (IH l' s1 Hl' Hrun). destruct r as [res|e|q]; [| |done].
    + destruct IH as (used & rest & -> & Hcount & Hops & Htal & Hend). exists (ch :: used), rest. rewrite defaults_cons. split_and!; [done|lia| | |].
      * rewrite (operations_add _ _ _ _ _ _ Ho), <- Hi. exact Hops.
      * intros Htk. rewrite Htal by done. apply Ht.
      * intros Hlt'. apply list_elem_of_further, Hend. lia.
    + destruct IH as (k & key & s2 & Hops & Hk & Hf). exists (defaults [ch] + k)%nat, key, s2. split_and!; [| |done].
      * rewrite (operations_add _ _ _ _ _ _ Ho), <- Hi. exact Hops.
      * rewrite <- Hk. f_equal. lia.
  - destruct (bench_round_operation b ch l s p _ s1 Hop Hl Hlt Hr Hp) as (-> & -> & ->). intros [= <- <-].
    exists [Timeout], cs. unfold defaults, finished. cbn. split_and!; [done|lia|done|by intros ->|]. intros _. apply list_elem_of_here.
  - destruct (bench_round_operation b ch l s p _ s1 Hop Hl Hlt Hr Hp) as (-> & key & Hk & Hf). intros [= <- <-].
    exists 0%nat, key, s. cbn. rewrite Z.add_0_r. by split_and!.
  - exfalso. revert Hr. unfold bench_round. cbv zeta.
    destruct ch; [destruct (timed _); [|done]|destruct (ticking _); [|done]|]; intros [= <-];
      (destruct (current_key b (it l)) as [key|e'|q] eqn:Hk; [|unfold current_key in Hk; repeat case_match; discriminate|]); try discriminate Hp.
    destruct (bencherFunc b key (value b) s) as [[[]|?|?] ?]; discriminate Hp.
Qed.

(** C40. A benchmark ends and counts right.  With a number of operations it ends
    after that many, whatever the clock does in between.  A run that returns a
    result has performed exactly as many operations as it counts, one after the
    other on the keys in turn, all of them successful, and nothing else happened
    to the store; they are at most as many as configured, and exactly as many unless the time
    ran out; when results are asked for per second, minute or hour, the numbers of
    the intervals are those of the operations between the ticks, and add up to the
    count; otherwise there are none.  The counters, 64-bit integers, do not
    overflow.  A run that fails does so with the error of the operation after the
    successful ones. *)
Theorem benchmark_runs (b : Bencher) (elapsed : Z) (cs : list choice) (s : St) :
  Operations (conf b) < 2 ^ 63 -> Forall (possible (conf b)) cs ->
  (0 < Operations (conf b) <= Z.of_nat (defaults cs) -> exists r, RunBenchmark b elapsed cs s = Some r) /\
  (forall res s', RunBenchmark b elapsed cs s = Some (Ok res, s') -> accounted (conf b) res /\
     exists used rest, cs = used ++ rest /\ Count res = Z.of_nat (defaults used) /\ operations b 0 (defaults used) s = Some s' /\
       (ticking (conf b) = true -> PerInterval res = tallies used 0) /\
       (Count res < maxIterations (conf b) -> Timeout ∈ used)) /\
  (forall e s', RunBenchmark b elapsed cs s = Some (Err e, s') ->
     exists k key s1, operations b 0 k s = Some s1 /\ current_key b (Z.of_nat k) = Ok key /\ bencherFunc b key (value b) s1 = (Err e, s')).
Proof using.
  intros Hop Hpos. pose proof (counts_start (conf b)) as H0'. unfold RunBenchmark. split_and!.
  - intros Hn. apply bench_loop_ends; try done. unfold maxIterations. cbn [it start]. destruct (Z.eqb_spec (Operations (conf b)) 0); lia.
  - intros res s' Hr. split.
    + destruct (bench_loop_counts b elapsed cs start s _ _ Hop H0' Hr) as (l & Hl & -> & Hfull). by apply finished_accounted.
    + destruct (bench_loop_operations b elapsed cs start s _ _ Hop H0' Hr) as (used & rest & -> & Hc & Ho & Ht & He).
      exists used, rest. cbn [counter it start perInterval intervalCounter app] in *. rewrite Z.add_0_l in *. split_and!; try done. by rewrite Hc.
  - intros e s' Hr. exact (bench_loop_operations b elapsed cs start s _ _ Hop H0' Hr).
Qed.

(** *** A benchmark that reads *)
Lemma current_key_ok b j : keys b <> [] -> 0 <= j -> exists key, current_key b j = Ok key /\ key ∈ keys b.
Proof using.
  intros Hne Hj. unfold current_key. destruct (length (keys b)) as [|m] eqn:Hl; [by destruct (keys b)|].
  pose proof (Z.rem_bound_pos j (Z.of_nat (S m)) Hj ltac:(lia)) as Hb.
  destruct (lookup_lt_is_Some_2 (keys b) (Z.to_nat (Z.rem j (Z.of_nat (S m))))) as [key Hk]; [lia|].
  rewrite Hk. exists key. split; [done|]. by eapply list_elem_of_lookup_2.
Qed.

(** Operations that cannot fail. *)
Lemma bench_loop_succeeds (I : St -> Prop) b elapsed cs l s r s' :
  Operations (conf b) < 2 ^ 63 -> keys b <> [] ->
  (forall key s, key ∈ keys b -> I s -> exists s', bencherFunc b key (value b) s = (Ok tt, s') /\ I s') ->
  counts (conf b) l -> I s -> bench_loop b elapsed cs l s = Some (r, s') -> exists res, r = Ok res.
Proof using.
  intros Hop Hne Hf. revert l s; induction cs as [|ch cs IH]; intros l s Hl Hi; cbn [bench_loop];
    (destruct (Z.ltb_spec (it l) (maxIterations (conf b))) as [Hlt|Hge]; cbn [negb]; [|intros [= <- <-]; by eexists]); [done|].
  destruct (bench_round b ch l) as [p|] eqn:Hr; [|done]. destruct (p s) as [x s1] eqn:Hp.
  assert (Hx : exists y, x = Ok y /\ I s1 /\ match y with Fails _ => False | _ => True end).
  { destruct (current_key_ok b (it l) Hne ltac:(apply Hl)) as (key & Hk & Hin). destruct (Hf key s Hin Hi) as (s2 & Hs2 & Hi2).
    revert Hr. unfold bench_round. cbv zeta. rewrite Hk.
    destruct ch; [destruct (timed _); [|done]|destruct (ticking _); [|done]|]; intros [= <-]; [..|rewrite Hs2 in Hp];
      injection Hp as <- <-; by eexists. }
  destruct Hx as (y & -> & Hi1 & Hy). destruct y as [l'|l'|e]; [|intros [= <- <-]; by eexists|done].
  destruct (bench_round_counts b ch l s p _ s1 Hop Hl Hlt Hr Hp) as [Hl' _]. by apply IH.
Qed.
End Bencher.

Section ReadBenchmark.
Context `{DataPipelineLaws D} `{MetaDBLaws M} (c : MarshalFuncPair) `{!Codec c}.
Local Abbreviation St := (D * M)%type.
Context (clock : St -> Z) (n : nat) (fill : nat -> nat -> bytes) (Intn : nat -> Z) (newClientFromConfig : Construct.Config -> prog St unit).
Context (Hfill : forall j len, length (fill j len) = len) (Hn : (0 < n)%nat).
(** Making a client changes nothing that is stored, and its metadata can be stored. *)
Context (Hclient : forall cfg k kv s, represents c k kv s -> represents c k kv (newClientFromConfig cfg s).2)
  (Hstorable : forall key v s chunks d', key <> [] -> pl_Write (Some (bytes_reader n (length v) v)) s.1 = (Ok chunks, d') ->
     storable c key (new_metadata (clock s) key None chunks)).

Lemma generateKeys_ok size from m ks :
  0 < size -> generateKeys fill size from m = Ok ks -> length ks = m /\ Forall (fun key => key <> []) ks.
Proof using Hfill.
  clear Hn. intros Hs. revert from ks; induction m as [|m IH]; intros from ks; cbn [generateKeys]; [by intros [= <-]|].
  intros (key & Hk & (ks' & Hks & [= <-])%obind_Ok_inv)%obind_Ok_inv. destruct (IH _ _ Hks) as [Hl Hall]. split; [cbn; by rewrite Hl|].
  constructor; [|done]. unfold generateData in Hk. destruct (Z.ltb_spec size 0); [lia|]. injection Hk as <-.
  intros E. apply (f_equal length) in E. rewrite Hfill in E. cbn in E. lia.
Qed.

Lemma writeFunc_stores key v k kv s s' :
  key <> [] -> v <> [] -> represents c (pl_cost (bytes_reader n (length v) v) + k) kv s -> writeFunc c clock n key v s = (Ok tt, s') ->
  represents c k (<[key := v]> kv) s'.
Proof using Hn Hstorable.
  intros Hk Hv Hrep Hw. unfold writeFunc in Hw. apply pbind_Ok_inv in Hw as ([md err] & s1 & Hw & Hr). cbn [snd] in Hr.
  destruct err as [e|]; [done|]. injection Hr as <-.
  assert (Hin : pl_input (bytes_reader n (length v) v) = Some v).
  { rewrite bytes_reader_pipe by done. unfold pipe_reader. rewrite pl_input_law by (by apply pieces_nonempty).
    by rewrite pieces_concat, concat_cons, app_nil_r. }
  destruct (Write_refines c (clock s) key _ v k kv s _ s1 Hk Hrep Hin (fun chunks d' => Hstorable key v s chunks d' Hk) Hw)
    as [(md' & _ & _ & Hrep')|[Hno _]]; [done|]. destruct md as [md|]; [by destruct (Hno md)|].
  exfalso. revert Hw. unfold ZClient.Write. rewrite length_nonempty by done. clear Intn. repeat case_match; congruence.
Qed.

Lemma write_all_stores ks v k kv s s' :
  Forall (fun key => key <> []) ks -> v <> [] -> represents c (length ks * pl_cost (bytes_reader n (length v) v) + k) kv s ->
  write_all c clock n ks v s = (Ok tt, s') ->
  exists kv', represents c k kv' s' /\ (forall key, key ∈ ks -> kv' !! key = Some v) /\ (forall key, kv !! key = Some v -> kv' !! key = Some v).
Proof using Hn Hstorable.
  intros Hks Hv. revert kv s; induction Hks as [|key ks Hk _ IH]; intros kv s Hrep; cbn [write_all].
  { intros [= <-]. exists kv. split_and!; try done. intros key Hin. by apply not_elem_of_nil in Hin. }
  intros ([] & s1 & Hw & Hrest)%pbind_Ok_inv. assert (Hw' : writeFunc c clock n key v s = (Ok tt, s1)).
  { unfold on_err in Hw. destruct (writeFunc c clock n key v s) as [[[]|e|p] s2]; by simplify_eq. }
  set (cost := pl_cost (bytes_reader n (length v) v)) in *.
  assert (Hrep' : represents c (cost + (length ks * cost + k)) kv s) by (rewrite Nat.add_assoc; exact Hrep).
  pose proof (writeFunc_stores key v _ kv s s1 Hk Hv Hrep' Hw') as Hrep1.
  destruct (IH _ _ Hrep1 Hrest) as (kv' & Hr' & Hin & Hold). exists kv'. split_and!; [done| |].
  - intros key' [-> |Hk']%elem_of_cons; [|auto]. apply Hold. by rewrite lookup_insert_eq.
  - intros key' Hx. apply Hold. destruct (decide (key' = key)) as [-> |Hne]; [by rewrite lookup_insert_eq|]. by rewrite lookup_insert_ne.
Qed.

(** A benchmark of reads over a store that is ready: once its test data is
    written, none of its reads fails, however long it runs. *)
Theorem read_benchmark_succeeds (id : string) (sc sc' : Scenario) (k : nat) (kv : gmap bytes bytes) (s s1 s2 : St) (b : Bencher)
    (elapsed : Z) (cs : list choice) (r : outcome Result) :
  pl_ready -> Method (BenchConf sc) = BencherRead -> 0 < KeySize (BenchConf sc) -> 0 < ValueSize (BenchConf sc) ->
  Operations (BenchConf sc) < 2 ^ 63 ->
  (forall v, length v = Z.to_nat (ValueSize (BenchConf sc)) ->
     represents c (keyCount (BenchConf sc) * pl_cost (bytes_reader n (length v) v) + k) kv s) ->
  (NewBencher c clock n fill Intn newClientFromConfig id (sc, s)) = (Ok b, (sc', s1)) ->
  RunBenchmark b elapsed cs s1 = Some (r, s2) -> exists res, r = Ok res.
Proof using Hfill Hn Hclient Hstorable.
  intros Hrd Hm Hks Hvs Hop Hrep Hnew Hrun. unfold NewBencher in Hnew. cbv zeta in Hnew. rewrite Hm in Hnew. cbn [method Z.eqb BencherRead obind] in Hnew.
  destruct (generateKeys _ _ _ _) as [ks|e|p] eqn:Hg; cbn [obind] in Hnew; [|done..].
  destruct (generateData _ _) as [v|e|p] eqn:Hgv; cbn [obind] in Hnew; [|done..].
  match type of Hnew with (let '(_, _) := ?m in _) = _ => destruct m as [r0 s0] eqn:Hm' end. injection Hnew as -> <- ->.
  apply pbind_Ok_inv in Hm' as ([] & s3 & Hcl & Hnew).
  apply pbind_Ok_inv in Hnew as ([] & s4 & Hwr & Hnew). injection Hnew as <- <-.
  destruct (generateKeys_ok _ _ _ _ Hks Hg) as [Hlen Hkeys].
  assert (Hv : length v = Z.to_nat (ValueSize (BenchConf sc))).
  { unfold generateData in Hgv. destruct (Z.ltb_spec (ValueSize (BenchConf sc)) 0); [lia|]. injection Hgv as <-. apply Hfill. }
  assert (Hrep3 : represents c (length ks * pl_cost (bytes_reader n (length v) v) + k) kv s3).
  { rewrite Hlen. pose proof (Hclient (SetupClientConfig Intn (ZstorConf sc)) _ _ _ (Hrep v Hv)) as Hx. unfold on_err in Hcl.
    destruct (newClientFromConfig _ s) as [[x|e|p] s5]; by simplify_eq. }
  destruct (write_all_stores ks v k kv s3 s4 Hkeys ltac:(intros ->; cbn in Hv; lia) Hrep3 Hwr) as (kv' & Hrep4 & Hin & _).
  eapply (bench_loop_succeeds (fun s => represents c k kv' s)); [| | | |exact Hrep4|exact Hrun]; cbn [b_scenario BenchConf keys bencherFunc value]; [done| | |].
  - intros ->. cbn in Hlen. unfold keyCount, defaultKeyCount in Hlen. destruct (Z.leb_spec (Operations (BenchConf sc)) 0); lia.
  - intros key s5 Hk Hr5. rewrite Forall_forall in Hkeys.
    destruct (Read_ready c key [] k kv' s5 Hrd (Hkeys key Hk) Hr5) as (s6 & Hr6 & Hread). exists s6. split; [|done].
    unfold readFunc. rewrite (pbind_Ok _ _ _ _ _ Hread). by rewrite (Hin key Hk).
  - apply counts_start.
Qed.
End ReadBenchmark.
End Bencher.

(** ** The client of a benchmark ([client.go]) *)
Module BenchClient.
Section Make.
Context {V C : Type} `{Identity V} `{LRU C cachedJWTToken}.
Context (parse_exp : string -> outcome (option Z)) (new_lru : Z -> C) (clock : V -> Z * Z).
Local Abbreviation World := (V * list C)%type.
Context {P : Type} (SystemCertPool : outcome P) (NewCertPool : P) (AppendCertsFromPEM : P -> bytes -> option P)
  (ReadFile : string -> outcome bytes) (Dial : option (TLS.tls_Config P) -> string -> outcome (Services World)).
Context (compressions : Registry.registry (CompressionMode -> outcome SharedProcessor))
  (encryptions : Registry.registry (bytes -> outcome SharedProcessor))
  (hashes : Registry.registry (slice -> outcome (bytes -> bytes)))
  (encodings : Registry.registry MarshalFuncPair)
  (defaultHasher : outcome (bytes -> bytes)) (DefaultJobCount : nat) (NewReedSolomon : Z -> Z -> outcome EncodeReconster).
Context {N : Type} (connect : list string -> outcome (MetaEtcd.etcd N)).

(** The metadata is kept in memory when there are no endpoints. *)
Inductive MetaDatabase := InMemory (db : MetaMem.DB) | Etcd (db : MetaEtcd.etcd N).

Record Client := { bc_cluster : GrpcCluster.Cluster World; bc_buckets : list C; bc_pipeline : AnyPipeline; bc_codec : MarshalFuncPair; bc_database : MetaDatabase }.

Definition createMetastorClientFromConfigAndDatabase (cfg : MetaStorConfig) : outcome MarshalFuncPair :=
  let! funcPair := MarshalTypes.NewMarshalFuncPair encodings (Encoding_ cfg) in
  let funcs := Some (Some (Marshal funcPair), Some (Unmarshal funcPair)) in
  if (String.length (me_PrivateKey (MetaEncryption cfg)) =? 0)%nat
  then Metastor.NewClient {| Database := true; FuncPair := funcs; ProcessorConstructor := None |}
  else
    let constructor :=
      let! p := NewEncrypterDecrypter encryptions (me_Type (MetaEncryption cfg)) (str_bytes (me_PrivateKey (MetaEncryption cfg))) in
      Ok (proc p) in
    let! _ := constructor in
    Metastor.NewClient {| Database := true; FuncPair := funcs; ProcessorConstructor := Some constructor |}.

Definition createMetastorClientFromConfig (cfg : MetaStorConfig) : outcome MarshalFuncPair * option MetaDatabase :=
  if (length (Endpoints cfg) =? 0)%nat then (createMetastorClientFromConfigAndDatabase cfg, Some (InMemory MetaMem.New))
  else match MetaEtcd.New connect (Endpoints cfg) with
  | Err e => (Err e, None)
  | Panic p => (Panic p, None)
  | Ok db => (createMetastorClientFromConfigAndDatabase cfg, Some (Etcd db))
  end.

Definition createTLSConfigFromDatastorTLSConfig (config : option TLS.DataStorTLSConfig) : outcome (option (TLS.tls_Config P)) :=
  match config with
  | None => Ok None
  | Some config =>
      if negb (TLS.Enabled config) then Ok None
      else
        let! min := TLS.VersionTLSOrDefault (TLS.MinVersion config) TLS.VersionTLS11 in
        let! max := TLS.VersionTLSOrDefault (TLS.MaxVersion config) TLS.VersionTLS12 in
        TLS.with_options SystemCertPool NewCertPool AppendCertsFromPEM ReadFile min max config
  end.

Definition createDataClusterFromConfig (cfg : Construct.Config) (enableCaching : bool) : outcome (GrpcCluster.Cluster World * list C) :=
  let! tls := createTLSConfigFromDatastorTLSConfig (Some (TLSCfg (DataStor cfg))) in
  if bool_decide (IYO cfg = no_iyo)
  then let! cluster := new_cluster Dial cfg None tls in Ok (cluster, [])
  else
    let! client := Iyo.NewClient (IYO cfg) in
    token_cluster parse_exp new_lru clock Dial cfg (Some client) enableCaching tls.

Definition newClientFromConfig (cfg : Construct.Config) (jobCount : Z) (enableCaching : bool) : outcome Client :=
  let! cb := createDataClusterFromConfig cfg enableCaching in
  let! pipeline := make_pipeline compressions encryptions hashes defaultHasher DefaultJobCount NewReedSolomon cfg cb.1 jobCount in
  match createMetastorClientFromConfig (MetaStor cfg) with
  | (Ok codec, Some db) =>
      let! _ := ZClient.NewClient (Some codec) (Some pipeline) in
      Ok {| bc_cluster := cb.1; bc_buckets := cb.2; bc_pipeline := pipeline; bc_codec := codec; bc_database := db |}
  | (Err e, _) => Err e
  | (Panic p, _) => Panic p
  | (Ok _, None) => Panic nil_pointer
  end.

(** The tool measures the client: with endpoints for the metadata it makes the
    cluster, the pipeline and the metadata functions that the client of the same
    configuration has, over etcd, or fails with the same error. *)
Theorem bench_makes_the_client (cfg : Construct.Config) (jobCount : Z) (caching : bool) :
  Endpoints (MetaStor cfg) <> [] ->
  newClientFromConfig cfg jobCount caching =
    (let! cl := (Construct.newClientFromConfig parse_exp new_lru clock SystemCertPool NewCertPool AppendCertsFromPEM ReadFile Dial
       compressions encryptions hashes encodings defaultHasher DefaultJobCount NewReedSolomon connect cfg jobCount caching).1 in
     Ok {| bc_cluster := c_cluster cl; bc_buckets := c_buckets cl; bc_pipeline := c_pipeline cl; bc_codec := c_codec cl;
           bc_database := Etcd (c_database cl) |}).
Proof using.
  intros Hend. unfold newClientFromConfig, Construct.newClientFromConfig, client_from.
  change (createDataClusterFromConfig cfg caching) with (Construct.createDataClusterFromConfig parse_exp new_lru clock SystemCertPool NewCertPool
    AppendCertsFromPEM ReadFile Dial cfg caching).
  destruct (Construct.createDataClusterFromConfig _ _ _ _ _ _ _ _ _ _) as [[cluster buckets]|e|p]; cbn [obind fst snd]; [|done..].
  destruct (make_pipeline _ _ _ _ _ _ _ _ _) as [pl|e|p]; cbn [obind fst snd]; [|done..].
  unfold createMetastorClientFromConfig, Construct.createMetastorClientFromConfig.
  rewrite length_nonempty by done. destruct (MetaEtcd.New connect (Endpoints (MetaStor cfg))) as [db|e|p]; [|done..].
  change (createMetastorClientFromConfigAndDatabase (MetaStor cfg)) with (Construct.createMetastorClientFromConfigAndDatabase encryptions encodings (MetaStor cfg)).
  by destruct (Construct.createMetastorClientFromConfigAndDatabase _ _ _).
Qed.
End Make.
End BenchClient.

(** ** The command ([cmd/zstorbench/cmd]) *)
Module BenchRoot.
Import BenchConfig Bencher.

(** *** [output.go] *)
Record ScenarioOutputFormat := { Results : list (option Result); ScenarioConf : Scenario; Error_ : string }.

Definition NewOutputFormat : gmap string ScenarioOutputFormat := ∅.

Definition FormatOutput (results : list (option Result)) (scenarioConfig : Scenario) (err : option error) : ScenarioOutputFormat :=
  match err with
  | Some e => {| Results := []; ScenarioConf := scenarioConfig; Error_ := error_text e |}
  | None => {| Results := results; ScenarioConf := scenarioConfig; Error_ := EmptyString |}
  end.

Definition writeOutput (Marshal : gmap string ScenarioOutputFormat -> outcome bytes) (WriteFile : string -> bytes -> Z -> outcome unit)
    (filePath : string) (output : gmap string ScenarioOutputFormat) : outcome unit :=
  let! yamlBytes := Marshal output in WriteFile filePath yamlBytes 420.

(** *** [root.go] *)
Record rootCfg := { confFile : string; benchmarkOutPath : string; profileOutPath : string; profileMode : Z; debugLog : bool }.

Definition readConfig (ReadFile : string -> outcome bytes) (Unmarshal : bytes -> outcome (gmap string Scenario)) (path : string)
  : outcome (gmap string Scenario) :=
  let! yamlFile := ReadFile path in Unmarshal yamlFile.

(** The profile that is started, if one is. *)
Definition profiling (cfg : rootCfg) : option (string * string) :=
  let m := profileMode cfg in
  if m =? ProfileMode.ProfileModeDisabled then None
  else if m =? ProfileMode.ProfileModeCPU then Some (profileOutPath cfg, "CPUProfile"%string)
  else if m =? ProfileMode.ProfileModeMem then Some (profileOutPath cfg, "MemProfile"%string)
  else if m =? ProfileMode.ProfileModeTrace then Some (profileOutPath cfg, "TraceProfile"%string)
  else if m =? ProfileMode.ProfileModeBlock then Some (profileOutPath cfg, "BlockProfile"%string)
  else None.

Section Root.
Context `{DataPipeline D} `{MetaDB M}.
Local Abbreviation St := (D * M)%type.
Local Abbreviation bencher := (Bencher.Bencher (D := D) (M := M)).
Context (NewBencher : string -> prog (Scenario * St) bencher).

(** The benchers of a scenario; the first error ends the loop. *)
Fixpoint new_clients (scID : string) (n : nat) : prog (Scenario * St) (list bencher) :=
  match n with
  | O => pret []
  | S n' => do! b := NewBencher scID in do! bs := new_clients scID n' in pret (b :: bs)
  end.

(** A goroutine that runs a benchmark, or what it has put into [results]. *)
Inductive goroutine := Runs (l : loop) | Stopped (r : option Result).

(** One step of a goroutine: a round of the loop, or the end of its function,
    which writes the shared variable [err].  All of them run the bencher [b]. *)
Definition go_step (b : bencher) (elapsed : Z) (ch : choice) (l : loop) (err : option error) (s : St)
  : option (outcome (goroutine * option error) * St) :=
  if negb (it l <? maxIterations (BenchConf (b_scenario b))) then Some (Ok (Stopped (Some (finished b elapsed l)), None), s)
  else match bench_round b ch l with
  | None => None
  | Some p =>
      match p s with
      | (Ok (Goes l'), s') => Some (Ok (Runs l', err), s')
      | (Ok (Ends l'), s') => Some (Ok (Stopped (Some (finished b elapsed l')), None), s')
      | (Ok (Fails e), s') | (Err e, s') => Some (Ok (Stopped None, Some e), s')
      | (Panic q, s') => Some (Panic q, s')
      end
  end.

(** The goroutines until all have stopped, in the order in which they get their
    turns; [None]: the turns are not enough, or not possible. *)
Fixpoint concurrent (b : bencher) (elapsed : nat -> Z) (turns : list (nat * choice)) (gs : list goroutine) (err : option error) (s : St)
  : option (outcome (list (option Result) * option error) * St) :=
  match mapM (fun g => match g with Stopped r => Some r | Runs _ => None end) gs with
  | Some results => Some (Ok (results, err), s)
  | None =>
      match turns with
      | [] => None
      | (j, ch) :: turns' =>
          match gs !! j with
          | Some (Runs l) =>
              match go_step b (elapsed j) ch l err s with
              | Some (Ok (g, err'), s') => concurrent b elapsed turns' (<[j := g]> gs) err' s'
              | Some (Err e, s') => Some (Err e, s')
              | Some (Panic q, s') => Some (Panic q, s')
              | None => None
              end
          | _ => None
          end
      end
  end.

Definition clientCount (sc : Scenario) : nat := Z.to_nat (if Clients (BenchConf sc) <? 1 then 1 else Clients (BenchConf sc)).

(** One scenario; the bencher that runs is the last one that was made. *)
Definition run_scenario (elapsed : nat -> Z) (turns : list (nat * choice)) (scID : string) (sc : Scenario) (s : St)
  : option (outcome ScenarioOutputFormat * St) :=
  let cc := clientCount sc in
  match new_clients scID cc (sc, s) with
  | (Err e, (sc, s)) => Some (Ok (FormatOutput (replicate cc None) sc (Some e)), s)
  | (Panic p, (_, s)) => Some (Panic p, s)
  | (Ok benchers, (sc, s)) =>
      match last benchers with
      | None => Some (Panic nil_pointer, s)
      | Some b =>
          match concurrent b elapsed turns (replicate cc (Runs start)) None s with
          | Some (Ok (results, err), s) => Some (Ok (FormatOutput results sc err), s)
          | Some (Err e, s) => Some (Err e, s)
          | Some (Panic p, s) => Some (Panic p, s)
          | None => None
          end
      end
  end.

Fixpoint run_scenarios (turns : string -> list (nat * choice)) (elapsed : string -> nat -> Z) (scenarios : list (string * Scenario))
    (output : gmap string ScenarioOutputFormat) (s : St) : option (outcome (gmap string ScenarioOutputFormat) * St) :=
  match scenarios with
  | [] => Some (Ok output, s)
  | (scID, sc) :: rest =>
      match run_scenario (elapsed scID) (turns scID) scID sc s with
      | Some (Ok o, s) => run_scenarios turns elapsed rest (<[scID := o]> output) s
      | Some (Err e, s) => Some (Err e, s)
      | Some (Panic p, s) => Some (Panic p, s)
      | None => None
      end
  end.

Definition rootFunc (config : outcome (gmap string Scenario)) (visited : gmap string Scenario -> list (string * Scenario))
    (turns : string -> list (nat * choice)) (elapsed : string -> nat -> Z)
    (write : gmap string ScenarioOutputFormat -> outcome unit) (s : St) : option (outcome unit * St) :=
  match config with
  | Err e => Some (Err e, s)
  | Panic p => Some (Panic p, s)
  | Ok conf =>
      match run_scenarios turns elapsed (visited conf) NewOutputFormat s with
      | Some (Ok output, s) => Some (write output, s)
      | Some (Err e, s) => Some (Err e, s)
      | Some (Panic p, s) => Some (Panic p, s)
      | None => None
      end
  end.

(** *** What is reported *)
Local Abbreviation conf b := (BenchConf (b_scenario b)).

Definition g_ok (bc : BenchmarkConfig) (g : goroutine) : Prop :=
  match g with Runs l => counts bc l | Stopped (Some res) => accounted bc res | Stopped None => True end.

(** The shared error is set only when a goroutine has failed. *)
Definition err_ok (gs : list goroutine) (err : option error) : Prop := err <> None -> Stopped None ∈ gs.

Lemma go_step_ok b elapsed ch l err s g err' s' :
  Operations (conf b) < 2 ^ 63 -> counts (conf b) l -> go_step b elapsed ch l err s = Some (Ok (g, err'), s') ->
  g_ok (conf b) g /\ match g with Runs _ => err' = err | Stopped (Some _) => err' = None | Stopped None => err' <> None end.
Proof using.
  intros Hop Hl. unfold go_step. destruct (Z.ltb_spec (it l) (maxIterations (conf b))) as [Hlt|Hge]; cbn [negb].
  - destruct (bench_round b ch l) as [p|] eqn:Hr; [|done].
    destruct (p s) as [[[l'|l'|e]|e|q] s1] eqn:Hp; intros [= <- <- <-]; try done;
      pose proof (bench_round_counts b ch l s p _ s1 Hop Hl Hlt Hr Hp) as Hx; cbn beta iota in Hx.
    + destruct Hx as [Hl' _]. done.
    + destruct Hx as [-> Ht]. split; [|done]. apply finished_accounted; [done|]. by rewrite Ht.
  - intros [= <- <- <-]. split; [|done]. by apply finished_accounted.
Qed.

Lemma concurrent_ok b elapsed turns gs err s results err' s' :
  Operations (conf b) < 2 ^ 63 -> Forall (g_ok (conf b)) gs -> err_ok gs err ->
  concurrent b elapsed turns gs err s = Some (Ok (results, err'), s') ->
  length results = length gs /\ (forall res, Some res ∈ results -> accounted (conf b) res) /\ (err' <> None -> None ∈ results).
Proof using.
  intros Hop. revert gs err s; induction turns as [|[j ch] turns IH]; intros gs err s Hgs Herr; cbn [concurrent];
    (destruct (mapM _ gs) as [rs|] eqn:Hm;
     [intros [= <- <- <-]; apply mapM_Some in Hm; split_and!;
      [by rewrite (Forall2_length _ _ _ Hm)| |]|]); try done.
  1,3: intros res Hin; apply list_elem_of_lookup_1 in Hin as [k Hk]; destruct (Forall2_lookup_r _ _ _ _ _ Hm Hk) as (g & Hg & Hgr);
    rewrite Forall_lookup in Hgs; specialize (Hgs k g Hg); destruct g; [done|]; injection Hgr as ->; exact Hgs.
  1,2: intros Hne; specialize (Herr Hne); apply list_elem_of_lookup_1 in Herr as [k Hk]; destruct (Forall2_lookup_l _ _ _ _ _ Hm Hk) as (r & Hr & [= <-]);
    by eapply list_elem_of_lookup_2.
  destruct (gs !! j) as [[l|r]|] eqn:Hj; [|done..]. destruct (go_step b (elapsed j) ch l err s) as [[[[g err1]|e|q] s1]|] eqn:Hs; [|done..].
  pose proof Hgs as Hl. rewrite Forall_lookup in Hl. destruct (go_step_ok b _ ch l err s g err1 s1 Hop (Hl j _ Hj) Hs) as [Hg He].
  intros Hrest. apply IH in Hrest; [by rewrite length_insert in Hrest|by apply Forall_insert|].
  assert (Hlt : (j < length gs)%nat) by (by eapply lookup_lt_Some). intros Hne. destruct g as [l'|[res|]].
  - subst err1. specialize (Herr Hne). apply list_elem_of_lookup_1 in Herr as [k Hk]. apply list_elem_of_lookup. exists k.
    rewrite list_lookup_insert_ne; [done|]. intros ->. by rewrite Hk in Hj.
  - done.
  - apply list_elem_of_lookup. exists j. by apply list_lookup_insert_eq.
Qed.

(** Errors of goroutines are kept in the variable. *)
Lemma concurrent_no_error b elapsed turns gs err s e s' : concurrent b elapsed turns gs err s <> Some (Err e, s').
Proof using.
  revert gs err s; induction turns as [|[j ch] turns IH]; intros gs err s; cbn [concurrent]; destruct (mapM _ gs); try done.
  destruct (gs !! j) as [[l|r]|]; [|done..]. destruct (go_step b (elapsed j) ch l err s) as [[[[g err1]|e1|q] s1]|] eqn:Hs; [apply IH| |done..].
  unfold go_step in Hs. destruct (negb _); [done|]. destruct (bench_round b ch l) as [p|]; [|done]. by destruct (p s) as [[[l'|l'|e2]|e2|q] s2].
Qed.

Lemma run_scenario_no_error elapsed turns id sc s e s' : run_scenario elapsed turns id sc s <> Some (Err e, s').
Proof using.
  unfold run_scenario. cbv zeta. destruct (new_clients _ _ _) as [[bs|e1|p] [sc1 s1]]; [|done..]. destruct (last bs) as [b|]; [|done].
  destruct (concurrent _ _ _ _ _ _) as [[[[results err]|e1|p] s2]|] eqn:Hc; [done| |done..]. by apply concurrent_no_error in Hc.
Qed.

Lemma run_scenarios_no_error turns elapsed scenarios output s e s' : run_scenarios turns elapsed scenarios output s <> Some (Err e, s').
Proof using.
  revert output s; induction scenarios as [|[id sc] rest IH]; intros output s; cbn [run_scenarios]; [done|].
  destruct (run_scenario _ _ id sc s) as [[[o|e'|p] s1]|] eqn:Es; [apply IH| |done..]. by apply run_scenario_no_error in Es.
Qed.

(** What is written about a scenario: the text of an error and no results, or no
    error and one place for every client, and in it a correct result unless the
    client failed. *)
Definition reported (sc : Scenario) (o : ScenarioOutputFormat) : Prop :=
  BenchConf (ScenarioConf o) = BenchConf sc /\
  ((exists e, Error_ o = error_text e /\ Results o = []) \/ Error_ o = EmptyString /\ length (Results o) = clientCount sc) /\
  (forall res, Some res ∈ Results o -> accounted (BenchConf sc) res).

(** What the command relies on of [NewBencher]: the benchmark of the scenario is not changed. *)
Context (Hnew : forall id sc s r sc' s', NewBencher id (sc, s) = (r, (sc', s')) ->
  BenchConf sc' = BenchConf sc /\ forall b, r = Ok b -> BenchConf (b_scenario b) = BenchConf sc).

Lemma new_clients_conf id m sc s r sc' s' :
  new_clients id m (sc, s) = (r, (sc', s')) ->
  BenchConf sc' = BenchConf sc /\ forall bs, r = Ok bs -> length bs = m /\ Forall (fun b => BenchConf (b_scenario b) = BenchConf sc) bs.
Proof using Hnew.
  revert sc s r sc' s'; induction m as [|m IH]; intros sc s r sc' s'; cbn [new_clients].
  { intros [= <- <- _]. split; [done|]. by intros bs [= <-]. }
  unfold pbind. destruct (NewBencher id (sc, s)) as [[b|e|p] [sc1 s1]] eqn:E1; destruct (Hnew _ _ _ _ _ _ E1) as [Hc1 Hb];
    [|intros [= <- <- <-]; by split..].
  destruct (new_clients id m (sc1, s1)) as [[bs|e|p] [sc2 s2]] eqn:E2; destruct (IH _ _ _ _ _ E2) as [Hc2 Hbs]; intros [= <- <- <-];
    (split; [by rewrite Hc2|]); [|done..].
  intros bs' [= <-]. destruct (Hbs bs eq_refl) as [Hl Hall]. split; [cbn; by rewrite Hl|]. constructor; [by apply Hb|]. by rewrite Hc1 in Hall.
Qed.

Lemma run_scenario_reported elapsed turns id sc s o s' :
  Operations (BenchConf sc) < 2 ^ 63 -> run_scenario elapsed turns id sc s = Some (Ok o, s') -> reported sc o.
Proof using Hnew.
  intros Hop. unfold run_scenario. cbv zeta. destruct (new_clients id (clientCount sc) (sc, s)) as [r [sc1 s1]] eqn:E.
  destruct (new_clients_conf _ _ _ _ _ _ _ E) as [Hc Hbs]. destruct r as [bs|e|p]; [| |done].
  - destruct (Hbs bs eq_refl) as [_ Hall]. destruct (last bs) as [b|] eqn:Hl; [|done].
    assert (Hb : BenchConf (b_scenario b) = BenchConf sc) by (rewrite Forall_forall in Hall; apply Hall; by apply last_Some_elem_of).
    destruct (concurrent _ _ _ _ _ _) as [[[[results err]|e|p] s2]|] eqn:Hcon; [|done..]. intros [= <- <-].
    apply concurrent_ok in Hcon as (Hlen & Hres & _); rewrite ?Hb in *; [|done|by apply Forall_replicate, counts_start|by intros Hx].
    rewrite length_replicate in Hlen. unfold FormatOutput. destruct err as [e|]; (split_and!; [done|by eauto|]); cbn [Results].
    + intros res Hin. by apply not_elem_of_nil in Hin.
    + intros res Hin. by apply Hres.
  - intros [= <- <-]. split_and!; [done|by eauto|]. intros res Hin. by apply not_elem_of_nil in Hin.
Qed.

Lemma run_scenarios_reported turns elapsed scenarios output s output' s' :
  Forall (fun isc => Operations (BenchConf isc.2) < 2 ^ 63) scenarios -> NoDup scenarios.*1 ->
  run_scenarios turns elapsed scenarios output s = Some (Ok output', s') ->
  (forall id, id ∉ scenarios.*1 -> output' !! id = output !! id) /\
  (forall id sc, (id, sc) ∈ scenarios -> exists o, output' !! id = Some o /\ reported sc o).
Proof using Hnew.
  intros Hop. revert output s; induction Hop as [|[id sc] rest Ho _ IH]; intros output s Hnd; cbn [run_scenarios].
  { intros [= <- <-]. split; [done|]. intros id sc Hin. by apply not_elem_of_nil in Hin. }
  cbn in Hnd. apply NoDup_cons in Hnd as [Hni Hnd].
  destruct (run_scenario _ _ id sc s) as [[[o|e|p] s1]|] eqn:E; [|done..]. intros Hrest. destruct (IH _ _ Hnd Hrest) as [Hold Hall].
  split.
  - intros id' [Hne Hn]%not_elem_of_cons. rewrite Hold by done. by rewrite lookup_insert_ne.
  - intros id' sc' [[= -> ->]|Hin]%elem_of_cons; [|by apply Hall]. exists o. split; [by rewrite Hold, lookup_insert_eq|].
    by eapply run_scenario_reported.
Qed.
End Root.

Section Report.
Context `{DataPipeline D} `{MetaDB M} (c : MarshalFuncPair).
Local Abbreviation St := (D * M)%type.
Context (clock : St -> Z) (n : nat) (fill : nat -> nat -> bytes) (Intn : nat -> Z) (newClientFromConfig : Construct.Config -> prog St unit).

Lemma NewBencher_conf id sc s r sc' s' :
  NewBencher c clock n fill Intn newClientFromConfig id (sc, s) = (r, (sc', s')) ->
  BenchConf sc' = BenchConf sc /\ forall b, r = Ok b -> BenchConf (b_scenario b) = BenchConf sc.
Proof using.
  unfold NewBencher. cbv zeta. match goal with |- (match ?m with _ => _ end) = _ -> _ => destruct m as [[[f ks] v]|e|p] end;
    [|by intros [= <- <- _]..].
  match goal with |- (let '(_, _) := ?m in _) = _ -> _ => destruct m as [r0 s0] eqn:Em end. intros [= <- <- <-]. split; [done|].
  intros b ->. apply pbind_Ok_inv in Em as ([] & s3 & _ & Em). by apply pbind_Ok_inv in Em as ([] & s4 & _ & [= <- _]).
Qed.

(** What the tool reports.  When the command returns without a panic, it has
    written an entry for every scenario of the configuration and no other, in
    whatever order these were run and however their clients were interleaved; an
    entry is about the benchmark that was configured, it has either an error or
    one place for every client, and every result in it counts the operations of
    a client right.  A command whose configuration cannot be read does nothing. *)
Theorem benchmark_reports (config : outcome (gmap string Scenario)) (visited : gmap string Scenario -> list (string * Scenario))
    (turns : string -> list (nat * choice)) (elapsed : string -> nat -> Z)
    (write : gmap string ScenarioOutputFormat -> outcome unit) (s s' : St) (r : outcome unit) :
  (forall m, visited m ≡ₚ map_to_list m) ->
  rootFunc (NewBencher c clock n fill Intn newClientFromConfig) config visited turns elapsed write s = Some (r, s') ->
  match config with
  | Err e => r = Err e /\ s' = s
  | Panic p => r = Panic p
  | Ok conf =>
      (forall id sc, conf !! id = Some sc -> Operations (BenchConf sc) < 2 ^ 63) ->
      (forall p, r <> Panic p) -> exists output, r = write output /\
        forall id, match conf !! id with
                   | Some sc => exists o, output !! id = Some o /\ reported sc o
                   | None => output !! id = None
                   end
  end.
Proof using.
  intros Hvis. unfold rootFunc. destruct config as [conf|e|p]; [|by intros [= <- <-]..]. intros Hrun Hop Hnp.
  assert (Hmem : forall id sc, (id, sc) ∈ visited conf <-> conf !! id = Some sc) by (intros; by rewrite Hvis, elem_of_map_to_list).
  destruct (run_scenarios _ turns elapsed (visited conf) NewOutputFormat s) as [[[output|e|p] s1]|] eqn:E; [| | |done].
  - injection Hrun as <- <-. exists output. split; [done|].
    apply (run_scenarios_reported _ NewBencher_conf) in E as [Hold Hall].
    + intros id. destruct (conf !! id) as [sc|] eqn:Hc; [by apply Hall, Hmem|]. rewrite Hold; [done|].
      intros Hin. apply list_elem_of_fmap in Hin as ([id' sc] & -> & Hin). apply Hmem in Hin. cbn in Hc. by rewrite Hc in Hin.
    + apply Forall_forall. intros [id sc] Hin. cbn. eapply Hop. by apply Hmem.
    + rewrite Hvis. apply NoDup_fst_map_to_list.
  - by apply run_scenarios_no_error in E.
  - injection Hrun as <- <-. by destruct (Hnp p).
Qed.
End Report.
End BenchRoot.

(** ** A benchmark over a list of chunks *)
Import BenchConfig Bencher BenchRoot.

Definition demo_bench : BenchmarkConfig :=
  {| Method := BencherRead; Output := "per_second"; Duration := 0; Operations := 3; Clients := 2; KeySize := 2; ValueSize := 4 |}.

Definition demo_scenario (bc : BenchmarkConfig) : Scenario := {| ZstorConf := full_config; BenchConf := bc |}.

Definition demo_fill (j len : nat) : bytes := replicate len (zb (Z.of_nat j)).

Definition demo_NewBencher : string -> prog (Scenario * (list bytes * MetaMem.DB)) Bencher :=
  NewBencher proto_pair (fun _ => 7) 3 demo_fill (fun _ => 4) (fun _ => pret tt).

(** The bencher of a scenario, and the store after its test data was written. *)
Definition demo_keys : list bytes := [demo_fill 0 2; demo_fill 1 2; demo_fill 2 2].
Definition demo_bencher : Bencher (D := list bytes) (M := MetaMem.DB) :=
  {| b_scenario := demo_scenario demo_bench; b_scenarioID := "s"; keys := demo_keys; value := demo_fill 3 4; bencherFunc := readFunc proto_pair |}.
Definition demo_filled := (write_all proto_pair (fun _ => 7) 3 demo_keys (demo_fill 3 4) demo_empty).2.
Definition demo_result : Result := {| Count := 3; Elapsed := 5; PerInterval := [1; 2] |}.

Lemma ended_with {A B} (x : option (outcome A * B)) (a : A) :
  match x with Some (Ok a', _) => a' = a | _ => False end -> exists b, x = Some (Ok a, b).
Proof. destruct x as [[[a'|e|p] b]|]; [|done..]. intros ->. by exists b. Qed.

Lemma benchmark_runs_witness :
  (exists s, RunBenchmark demo_bencher 5 [Default; Tick; Default; Default] demo_filled = Some (Ok demo_result, s)) /\ accounted demo_bench demo_result.
Proof.
  assert (Hr : exists s, RunBenchmark demo_bencher 5 [Default; Tick; Default; Default] demo_filled = Some (Ok demo_result, s)).
  { apply ended_with. vm_compute. reflexivity. }
  split; [exact Hr|]. destruct Hr as [s Hr]. destruct (benchmark_runs demo_bencher 5 [Default; Tick; Default; Default] demo_filled) as (_ & Hok & _).
  - reflexivity.
  - repeat constructor.
  - exact (proj1 (Hok _ _ Hr)).
Defined.

Definition demo_turns (id : string) : list (nat * choice) :=
  [(1, Default); (0, Default); (0, Tick); (1, Default); (1, Default); (1, Tick); (0, Default); (0, Default); (0, Default)]%nat.

Definition demo_root (write : gmap string ScenarioOutputFormat -> outcome unit) :=
  rootFunc demo_NewBencher (Ok {["s" := demo_scenario demo_bench]}) map_to_list demo_turns (fun _ j => Z.of_nat j) write demo_empty.

Lemma benchmark_reports_witness :
  exists s' (output : gmap string ScenarioOutputFormat), demo_root (fun _ => Ok tt) = Some (Ok tt, s') /\
    match output !! "s" with Some o => reported (demo_scenario demo_bench) o | None => False end.
Proof.
  assert (Hr : exists s', demo_root (fun _ => Ok tt) = Some (Ok tt, s')) by (apply ended_with; vm_compute; reflexivity).
  destruct Hr as [s' E].
  pose proof (benchmark_reports proto_pair (fun _ => 7) 3 demo_fill (fun _ => 4) (fun _ => pret tt) (Ok {["s" := demo_scenario demo_bench]}) map_to_list
    demo_turns (fun _ j => Z.of_nat j) (fun _ => Ok tt) demo_empty s' (Ok tt) (fun m => Permutation_refl _) E) as Hrep.
  destruct Hrep as (output & _ & Hall).
  - intros id sc Hsc. apply lookup_singleton_Some in Hsc as [_ <-]. reflexivity.
  - done.
  - exists s', output. split; [exact E|]. specialize (Hall "s"%string). rewrite lookup_singleton_eq in Hall.
    by destruct Hall as (o & -> & Hrep).
Defined.

(** *** What the tool does not report *)

(** A negative number of operations is accepted together with a duration, and
    then nothing is measured. *)
Definition negative_bench : BenchmarkConfig :=
  {| Method := BencherWrite; Output := "per_second"; Duration := 10; Operations := -1; Clients := 1; KeySize := 2; ValueSize := 4 |}.

Lemma negative_operations_measure_nothing `{DataPipeline D} `{MetaDB M} (b : Bencher (D := D) (M := M)) elapsed cs s :
  validate_benchmark negative_bench = Ok tt /\
  (BenchConf (b_scenario b) = negative_bench -> RunBenchmark b elapsed cs s = Some (Ok {| Count := 0; Elapsed := elapsed; PerInterval := [0] |}, s)).
Proof. split; [reflexivity|]. intros Hb. unfold RunBenchmark, finished. destruct cs; cbn [bench_loop]; unfold finished; rewrite Hb; reflexivity. Qed.

(** A negative size is not zero, and panics. *)
Lemma negative_size_panics id sc s :
  Method (BenchConf sc) = BencherRead -> KeySize (BenchConf sc) < 0 ->
  exists p, (demo_NewBencher id (sc, s)).1 = Panic p.
Proof.
  intros Hm Hk. unfold demo_NewBencher, NewBencher. cbv zeta. rewrite Hm. cbn [method BencherRead Z.eqb obind].
  assert (exists p, generateKeys demo_fill (KeySize (BenchConf sc)) 0 (keyCount (BenchConf sc)) = Panic p) as [p ->]; [|by exists p].
  unfold keyCount, defaultKeyCount. destruct (Z.to_nat _) as [|m] eqn:E; [destruct (Z.leb_spec (Operations (BenchConf sc)) 0); lia|].
  cbn [generateKeys]. unfold generateData. destruct (Z.ltb_spec (KeySize (BenchConf sc)) 0); [|lia]. by eexists.
Qed.

(** Every second write fails. *)
#[local] Instance flaky_pipeline : DataPipeline nat := {|
  pl_Write _ := fun n => ((if Nat.even n then Err (ErrNew "no space left") else Ok []), S n); pl_Read _ _ _ out := pret (out, None);
  pl_Check _ _ := pret CheckStatusOptimal; pl_Repair cs := pret cs; pl_Delete _ := pret tt; pl_Close := pret tt;
|}.

Definition write_once : BenchmarkConfig :=
  {| Method := BencherWrite; Output := ""; Duration := 0; Operations := 1; Clients := 2; KeySize := 2; ValueSize := 4 |}.

(** The error of a client is lost when another one ends after it. *)
Lemma lost_error :
  exists s' : nat * MetaMem.DB, run_scenario (D := nat) (NewBencher proto_pair (fun _ => 7) 3 demo_fill (fun _ => 4) (fun _ => pret tt))
      (fun _ => 5) [(0, Default); (1, Default); (1, Default)]%nat "s" (demo_scenario write_once) (0%nat, MetaMem.New) =
    Some (Ok {| Results := [None; Some {| Count := 1; Elapsed := 5; PerInterval := [] |}]; ScenarioConf := demo_scenario write_once;
                Error_ := "" |}, s').
Proof. apply ended_with. vm_compute. reflexivity. Qed.
